(* ===== verification/_CoqProject ===== *)
-Q . S2P
Prelude.v
CLib.v
Buffer.v
Bitmap.v
Schema.v
Metadata.v
SchemaView.v
SchemaString.v
Array.v
ArrayView.v
ArrowFormat.v
Reserve.v
Adbc.v
Utils.v
Validation.v
Sqlite3.v
Binder.v
ArrayStream.v
Columns.v
ValidationUtil.v
Batches.v
Infer.v
Reader.v
Connection.v
Statement.v
Frames.v
Lifecycle.v
Objects.v
Catalog.v
DriverManager.v
SqliteDriver.v
Conformance.v
RDrivers.v
Postgres.v
PgReader.v
PgCopy.v
PgBind.v
PgSend.v
PgStatement.v
PgExecute.v
PgDriver.v
PgConformance.v
PgSession.v
Ownership.v
RBindings.v
RSession.v
GLib.v
GSession.v
