(* ===== verification/Prelude.v ===== *)
(** * ADBC: drivers, their Arrow layer, the driver manager and two bindings

    A model of the C and C++ core of Arrow Database Connectivity and its correctness
    theorems.  An application calls the API of src/adbc.h.  The driver manager
    (src/c/driver_manager/adbc_driver_manager.cc) loads a driver, completes its table of
    callbacks and forwards every call to it.  The SQLite driver
    (src/c/driver/sqlite/sqlite.c, statement_reader.c, utils.c) turns calls into calls of the
    SQLite library and exchanges data as Arrow arrays, built and read with nanoarrow
    (src/c/vendor/nanoarrow).  The PostgreSQL driver (src/c/driver/postgresql) sends queries
    with libpq and reads results in the binary COPY format.  The two stub drivers of the R
    package (src/r/adbcdrivermanager/src/driver_void.c, driver_monkey.c) exercise the manager.
    The bindings for R (src/r/adbcdrivermanager/src) and GLib (src/glib/adbc-glib) put the
    manager's objects behind handles that a garbage collector finalizes or that count
    references.

    ** How C is modelled

    A C function body is a computation of the monad [M S A] of this file, over the record [S]
    of the objects it can reach: it returns a value, leaves with a status code ([Exit]), is
    undefined ([Undef]: an access outside a block or through a null or freed pointer, a use
    of indeterminate memory, a signed overflow, a second free), or runs out of fuel
    ([NoFuel]).  Effects before an [Exit] are kept, as in C.  [zoom] runs code on an object
    reached through another one; a callee's own error is its caller's error pointer.
    [catch] is [status = f(...)], [ignore] is [(void)f(...)].  The functions keep the names
    of the source; a part of a long function that has a name of its own here (a loop, a
    branch) is documented where it is defined.

    Integers are [Z] at their width: arithmetic that can overflow is checked ([i32], [i64] of
    CLib.v are [Undef] outside their range), unsigned and narrowing conversions wrap.  Doubles
    are their 64-bit patterns.  Memory blocks are lists of bytes with their true size.  Fresh
    memory holds the bytes [malloc_junk]; an allocation fails where [malloc_ok] says so, and
    one whose result the source does not test is [malloc_unchecked] (undefined when it
    fails).  A C string pointer that is kept across calls is [CNull], [CStr] or [CFreed].
    [__LINE__] in a message is the first line of the macro's use.

    Loops over data have structural recursion or [for_loop]; the loops whose length another
    library decides ([sqlite3_step], the bound rows) take fuel.  Nothing is proved only "if
    fuel suffices": [ExecuteQuery_runs] and [ExecuteIngest_inserts_all] give the amount from
    the number of steps or rows and the result, [autocommit_before_init_hangs] shows a loop
    that no fuel ends, and the binder computes its own fuel from the batches left
    ([AdbcSqliteBinderBindNext]).

    ** Interfaces

    - [Libc] (CLib.v): what the platform decides; [host] is an instance, [LibcBound] (Buffer.v)
      says that no allocation of 2^48 bytes succeeds.
    - [Sqlite3] (Sqlite3.v): the functions of SQLite the driver calls, over a state of the
      library's own; [Sqlite3Columns] (column accessors) and [Sqlite3Null] (null handles report
      misuse) are the documented behaviour some theorems use.  [Mock] is a small library that
      satisfies both and on which the driver runs in the witnesses.
    - [Loader] and [LoaderOrder] (DriverManager.v): [dlopen], [dlsym], entry points, and a hash
      map's iteration order.
    - [HasError], [HasWorld]: how a function's state contains its error and the SQLite library;
      [FrameDb], [FrameError], [StatementFrame] (Frames.v): what does not depend on them.
    - [Libpq] (Postgres.v): the functions of libpq the driver calls, over a state of the
      library's own, which [HasPq] finds in a function's state; [NullConnection] and
      [Transactions] (PgSession.v) are the documented behaviour some theorems use: what is durable
      and what is pending, and that COMMIT makes the pending work durable while ROLLBACK discards
      it.  [PgMock] is a small server for the witnesses.
    - [Driver] and [Conforms] (Validation.v): what a test of the validation suite calls, and the
      protocol a driver has to simulate to pass; Conformance.v and PgConformance.v discharge it
      for the two drivers.  [OrderlySqlite3] and [OrderlyLibpq] there state the documented
      behaviour of the two libraries that this needs (a failed command aborts the transaction of
      a PostgreSQL session, which then accepts nothing but its end), [SmallAllocations] that the
      platform gives the drivers their small blocks; [Mock] and the server [TxServer] of
      PgConformance.v satisfy them.
    - [RApi], [Stack], [RowsOut] (RBindings.v): R's own error texts and string translation; what
      an uninitialised local variable holds; the row count written through a pointer.

    ** Files

    - Prelude.v: the monad, its weakest-precondition rules [wp_*] and the tactic [wp_steps], its
      evaluation rules [bind_*], and frame rules [keeps] with the hint database of that name.
    - CLib.v: integers, doubles, blocks, [printf], [strtol].
    - Buffer.v, Bitmap.v, Schema.v, Metadata.v, SchemaView.v, SchemaString.v, Array.v,
      ArrayView.v, Reserve.v, ArrayStream.v: nanoarrow's buffers and bits, bitmaps in bulk,
      schemas, metadata builder, format parser, printed schemas, array builders, array readers,
      reserving and shrinking, streams over arrays set in advance.
    - ArrowFormat.v: the Arrow columnar format itself, independently of the code: the types of
      format strings, validity bits, values at an array's offset, rows of record batches; and
      what nanoarrow's views read of it.  The theorems on parameters are stated against it.
    - Adbc.v: adbc.h, the Arrow C stream as a protocol (a foreign stream is the list of what it
      will answer), and [driver_slot], one constructor per callback of [struct AdbcDriver].
    - Utils.v: utils.c and the checking macros of utils.h.
    - Validation.v: the lifecycle tests of src/c/validation as programs over any driver, and the
      protocol they test.  Conformance.v and PgConformance.v: the SQLite and the PostgreSQL
      driver follow the protocol.
    - ValidationUtil.v: the suite's helpers: schemas and batches made from C++ values, comparisons
      with expected values, a stream over batches, the reader of streams.  Columns.v: what an array
      of 64-bit numbers or texts represents, from the first append to the reader's view.  Batches.v:
      the helpers' theorems.
    - Sqlite3.v: the library interface.
    - Binder.v, Infer.v, Reader.v: statement_reader.c: parameters, type inference, streams.
    - Connection.v, Statement.v, Objects.v: sqlite.c: databases and connections; statements;
      the catalog functions.  SqliteDriver.v: the driver's table, and the driver in the manager.
    - Frames.v, Lifecycle.v, Catalog.v: theorems on several of these files.
    - DriverManager.v: the driver manager.  RDrivers.v: the stub drivers.
    - Postgres.v: util.h, type.cc, database.cc, connection.cc.  PgReader.v, PgBind.v,
      PgStatement.v: statement.cc, in the order reader of results, bound parameters, statements.
      PgDriver.v: postgresql.cc.  PgCopy.v (what the reader makes of the COPY format), PgSend.v
      (what is sent for parameters), PgExecute.v (how statements are executed), PgSession.v
      (databases with their open connections, transactions): the theorems.
    - Ownership.v: objects of the manager held through handles: who keeps whom alive, and the
      discipline [owned] under which no driver table is deleted while it is in use.
    - RBindings.v: radbc.cc, radbc.h, error.cc, utils.c, init.c; external pointers are records
      with a class, an address, a protected value and a finalizer, R errors are [Exit]s.
      RSession.v: sequences of [.Call]s and finalizers.
    - GLib.v: database.c, connection.c, statement.c, error.c; instances are records with a
      reference count and a parent.  GSession.v: sequences of calls by a client that owns
      references.

    The reader of a statement and the statement share one binder: [RS] holds the binder once
    and the reader only tells whether it has one.  A database that a connection was opened on
    is read and counted through the same record.

    ** What is proved

    - Data: [inference_correct] (the first batch holds exactly the rows, each column in the
      widest type needed, inside its buffers), [later_batches_typed]; [BindNext_next_row] and
      [BindNext_end] (the rows of the Arrow format are bound in order across batches); [SingleBatch_protocol],
      [BatchToArrayStream_moves]; the nanoarrow theorems of Buffer.v, Schema.v and SchemaView.v,
      among them the round trip of every format string.
    - nanoarrow: [metadata_set_get] and [metadata_remove_get], [ArrowArrayReserve_room] (reserved
      room is enough), [basic_stream_refines] and [basic_stream_conserves] (a stream serves its
      arrays and releases the others), the bulk operations on bitmaps, exact to the bit;
      [MakeSchema_CompareSchema] and [MakeBatch_CompareArray]: what is appended to the builder of a
      schema and finished is what a reader of that schema views, value by value;
      [ConstantArrayStream_owns].
    - Behaviour: [ExecuteIngest_inserts_all], [ExecuteQuery_runs], [DatabaseInit_opens];
      [transactions_refine] (autocommit, commit and rollback refine a transaction
      specification); [reachable_statement_ok] (an invariant of every reachable statement);
      [mutex_balanced]; [catalog_schemas_documented] and [shallow_catalog_rows] (results are
      what adbc.h documents, for filters that are not search patterns).
    - Composition: [AdbcLoadDriverFromInitFunc_checks] (a loaded table is complete),
      [staged_options_replayed] and [refused_option_releases] (options set early reach the
      driver, or everything is undone), [sqlite_driver_loads], [monkey_refines_mailbox].
    - Conformance: [sqlite_follows_protocol], [postgres_follows_protocol] (every specified
      sequence of calls is answered as specified), [sqlite_passes_suite],
      [postgres_passes_suite] (every lifecycle test passes and leaves no connection open).
    - PostgreSQL: [copy_rows_decoded] (rows without NULLs survive the COPY format),
      [bound_rows_sent] (the rows of the Arrow format are sent one by one), [release_guarded] (a database with
      open connections is not released), [transactions_specified], [query_runs_twice].
    - Lifetimes: [tables_outlive_objects] (R) and [glib_tables_outlive_objects]: in every
      session, no object that the client can still reach is left with a deleted driver table.
      R's collector condemns any unreachable objects and finalizes them in any order
      ([collected_together_dangles] is what may then happen to a condemned connection).
      [references_exact] and [all_dropped_all_freed]: GLib reference counts are exact and nothing
      leaks.  The sessions' rules say what a client must not do (release a parent
      that a child still uses, go on with a connection whose initialisation failed), and
      [failed_init_dangles] shows that the last rule is needed.  [set_sql_query_outcome]: what
      a GLib caller is told, under the same code ([error_code_kept]).
    - Limits, each an exact statement of what the code does where it does not do what it
      should: [ArrowBitCountSet_exact], [ArrowBitmapAppendInt8Unsafe_exact],
      [ArrowSchemaToString_truncates], [ArrowArrayShrinkToFit_loses_validity],
      [basic_stream_init_refused], [CompareArray_ignores_offset], [StringBuilderAppend_exact] and
      its consequence [GetTableSchema_name_limit], [primary_key_fails], [binder_error_swallowed], [empty_statement_never_ends],
      [refused_inference_undefined], [autocommit_before_init_hangs],
      [busy_release_frees_twice], [batch_rows_option], [fraction_bound_as_zero],
      [batch_offset_ignored], [empty_text_bound_null], [filters_not_patterns],
      [full_driver_name_suffix], [ArrowBitsSetTo_empty_range_clobbers],
      [seconds_storage_is_int32], [union_type_ids_overflow], [misaligned_rows_undefined],
      [null_text_shifts], [failed_copy_undefined], [small_integers_not_ingested],
      [sliced_numbers_shifted], [empty_texts_null], [commit_leaves_no_transaction], [update_reports_no_rows],
      [reopened_connection_leaks], [rollback_runs_commit], [load_driver_unset_error],
      [statement_new_unset_error], [failed_release_then_unref],
      [execute_without_stream_crashes].

    ** Not modelled

    Of nanoarrow the buffer allocators of a client's own and the accessors of union views; the
    Windows and macOS branches of the manager and of the byte-order functions; C++ destructors, exceptions of the C++ library ([bad_alloc]) and
    null struct pointers where an API function does not test for them.  In the R bindings
    PROTECT and UNPROTECT (the collector is a step between calls, never during one) and R
    errors inside [new_env]; in GLib the class and type registration.  The cgo shim of the
    Flight SQL driver forwards to generated functions; the bindings for Go, Java, Python and
    Ruby are in other languages; the vendored SQLite is a library.  Of the validation suite the
    tests of metadata, ingestion, queries and transactions: what they assert depends on the
    answers of an SQL engine.  Threads are not modelled: the mutex is a counter whose balance is
    proved, and calls run one after another.  SQLite and libpq are parameters: nothing is assumed of SQL. *)
From stdpp Require Import base tactics list numbers option strings.
From Stdlib Require Import ZArith Lia.
#[global] Open Scope Z_scope.
#[global] Set Default Goal Selector "!".

(** * The effect of a C function

    [M S A] is the meaning of a piece of C code over the objects [S] it can reach.  It
    either falls through with a value, or leaves the function with the status code of a
    [return], or runs into undefined behaviour (an access outside a block, a call through a
    null pointer, a signed overflow, a double free), or exhausts the fuel of a loop. *)
Inductive result (S A : Type) : Type :=
| Ret (a : A) (s : S)
| Exit (code : Z) (s : S)
| Undef
| NoFuel.
Arguments Ret {S A} a s.
Arguments Exit {S A} code s.
Arguments Undef {S A}.
Arguments NoFuel {S A}.

Definition M (S A : Type) : Type := S -> result S A.

#[global] Instance M_ret S : MRet (M S) := fun A a s => Ret a s.
#[global] Instance M_bind S : MBind (M S) := fun A B k m s =>
  match m s with
  | Ret a s' => k a s'
  | Exit c s' => Exit c s'
  | Undef => Undef
  | NoFuel => NoFuel
  end.

(** [return code;] *)
Definition exit {S A} (code : Z) : M S A := fun s => Exit code s.
(** Undefined behaviour. *)
Definition undef {S A} : M S A := fun _ => Undef.
Definition nofuel {S A} : M S A := fun _ => NoFuel.
Definition gets {S A} (f : S -> A) : M S A := fun s => Ret (f s) s.
Definition modify {S} (f : S -> S) : M S unit := fun s => Ret tt (f s).
Definition put {S} (s' : S) : M S unit := fun _ => Ret tt s'.
(** A computed value that may be undefined. *)
Definition lift_opt {S A} (o : option A) : M S A :=
  match o with Some a => mret a | None => undef end.
(** [return code;], where [code = 0] is the success of a function returning a code. *)
Definition return_code {S} (code : Z) : M S unit :=
  if code =? 0 then mret tt else exit code.
(** The code a call returned: [int status = f(...);]. *)
Definition catch {S} (m : M S unit) : M S Z := fun s =>
  match m s with
  | Ret _ s' => Ret 0 s'
  | Exit c s' => Ret c s'
  | Undef => Undef
  | NoFuel => NoFuel
  end.
(** [(void)f(...);] *)
Definition ignore {S} (m : M S unit) : M S unit := _ ← catch m; mret tt.
Definition when {S} (b : bool) (m : M S unit) : M S unit := if b then m else mret tt.

(** A C object reached from another one: a field of a struct, a pointee. *)
Record Lens (S T : Type) := mkLens { view : S -> T; over : T -> S -> S }.
Arguments mkLens {S T} view over.
Arguments view {S T} l.
Arguments over {S T} l.

(** Run code on a sub-object. *)
Definition zoom {S T A} (l : Lens S T) (m : M T A) : M S A := fun s =>
  match m (view l s) with
  | Ret a t => Ret a (over l t s)
  | Exit c t => Exit c (over l t s)
  | Undef => Undef
  | NoFuel => NoFuel
  end.

Definition lens_comp {S T U} (l : Lens S T) (k : Lens T U) : Lens S U :=
  mkLens (fun s => view k (view l s)) (fun u s => over l (over k u (view l s)) s).
Definition fst_lens {S T} : Lens (S * T) S := mkLens fst (fun a p => (a, snd p)).
Definition snd_lens {S T} : Lens (S * T) T := mkLens snd (fun b p => (fst p, b)).

(** [for (i = from; i < from + n; i++) body(i);] *)
Fixpoint for_loop {S} (n : nat) (from : Z) (body : Z -> M S unit) : M S unit :=
  match n with
  | O => mret tt
  | Datatypes.S n' => _ ← body from; for_loop n' (from + 1) body
  end.
Definition for_range {S} (from to_ : Z) (body : Z -> M S unit) : M S unit :=
  for_loop (Z.to_nat (to_ - from)) from body.

(** [while (body()) ;] with at most [fuel] iterations. *)
Fixpoint while_loop {S} (fuel : nat) (body : M S bool) : M S unit :=
  match fuel with
  | O => nofuel
  | Datatypes.S fuel' => b ← body; if b : bool then while_loop fuel' body else mret tt
  end.

(** The status code and the final state of a function body, when it returns. *)
Definition finish {S} (r : result S unit) : option (Z * S) :=
  match r with
  | Ret _ s => Some (0, s)
  | Exit c s => Some (c, s)
  | _ => None
  end.

(** ** Evaluation of a sequence *)
Lemma bind_ret {S A B} (m : M S A) (k : A -> M S B) a s s' :
  m s = Ret a s' -> (m ≫= k) s = k a s'.
Proof. unfold mbind, M_bind. by intros ->. Qed.
Lemma bind_exit {S A B} (m : M S A) (k : A -> M S B) c s s' :
  m s = Exit c s' -> (m ≫= k) s = Exit c s'.
Proof. unfold mbind, M_bind. by intros ->. Qed.
Lemma bind_undef {S A B} (m : M S A) (k : A -> M S B) s : m s = Undef -> (m ≫= k) s = Undef.
Proof. unfold mbind, M_bind. by intros ->. Qed.
Lemma catch_exit {S} (m : M S unit) c s s' : m s = Exit c s' -> catch m s = Ret c s'.
Proof. unfold catch. by intros ->. Qed.
Lemma catch_ret {S} (m : M S unit) s s' : m s = Ret tt s' -> catch m s = Ret 0 s'.
Proof. unfold catch. by intros ->. Qed.

(** Running closed code: the value it returns, and the state it leaves. *)
Definition value_of {S A} (r : result S A) : option A :=
  match r with Ret a _ => Some a | _ => None end.
Definition left_by {S A} (m : M S A) (s : S) : S :=
  match m s with Ret _ s' | Exit _ s' => s' | _ => s end.
Lemma value_run {S A} (m : M S A) s a : value_of (m s) = Some a -> m s = Ret a (left_by m s).
Proof. unfold left_by. destruct (m s); simpl; congruence. Qed.

Lemma bind_ret_inv {S A B} (m : M S A) (k : A -> M S B) s b s' :
  (m ≫= k) s = Ret b s' -> exists a t, m s = Ret a t /\ k a t = Ret b s'.
Proof. unfold mbind, M_bind. destruct (m s); naive_solver. Qed.
Lemma lift_opt_ret_inv {S A} (o : option A) (s : S) a s' :
  lift_opt o s = Ret a s' -> o = Some a /\ s' = s.
Proof. unfold lift_opt, mret, M_ret, undef. destruct o; naive_solver. Qed.
Lemma catch_ret_inv {S} (m : M S unit) s c s' :
  catch m s = Ret c s' -> m s = Exit c s' \/ (m s = Ret tt s' /\ c = 0).
Proof. unfold catch. destruct (m s) as [[] ?|? ?| |]; naive_solver. Qed.

(** ** Reasoning principle

    [wp m Q E s]: from [s], [m] is defined and terminates, falling through into [Q] or
    leaving with a code in [E]. *)
Definition wp {S A} (m : M S A) (Q : A -> S -> Prop) (E : Z -> S -> Prop) (s : S) : Prop :=
  match m s with
  | Ret a s' => Q a s'
  | Exit c s' => E c s'
  | Undef | NoFuel => False
  end.

Section wp_rules.
Context {S : Type}.

Lemma wp_ret {A} (a : A) (Q : A -> S -> Prop) E s : Q a s -> wp (mret a) Q E s.
Proof. done. Qed.

Lemma wp_bind {A B} (m : M S A) (k : A -> M S B) Q E s :
  wp m (fun a s' => wp (k a) Q E s') E s -> wp (m ≫= k) Q E s.
Proof. unfold wp, mbind, M_bind. by destruct (m s). Qed.

Lemma wp_bind_inv {A B} (m : M S A) (k : A -> M S B) Q E s :
  wp (m ≫= k) Q E s -> wp m (fun a s' => wp (k a) Q E s') E s.
Proof. unfold wp, mbind, M_bind. by destruct (m s). Qed.

Lemma wp_exit {A} c (Q : A -> S -> Prop) (E : Z -> S -> Prop) s : E c s -> wp (exit c) Q E s.
Proof. done. Qed.

Lemma wp_gets {A} (f : S -> A) (Q : A -> S -> Prop) E s : Q (f s) s -> wp (gets f) Q E s.
Proof. done. Qed.

Lemma wp_modify f (Q : unit -> S -> Prop) E s : Q tt (f s) -> wp (modify f) Q E s.
Proof. done. Qed.

Lemma wp_put s' (Q : unit -> S -> Prop) E s : Q tt s' -> wp (put s') Q E s.
Proof. done. Qed.

Lemma wp_lift_opt {A} (o : option A) (Q : A -> S -> Prop) E s a :
  o = Some a -> Q a s -> wp (lift_opt o) Q E s.
Proof. intros -> HQ. exact HQ. Qed.

Lemma wp_catch (m : M S unit) (Q : Z -> S -> Prop) E s :
  wp m (fun _ s' => Q 0 s') Q s -> wp (catch m) Q E s.
Proof. unfold wp, catch. by destruct (m s). Qed.

Lemma wp_conseq {A} (m : M S A) (Q Q' : A -> S -> Prop) (E E' : Z -> S -> Prop) s :
  wp m Q E s -> (forall a s', Q a s' -> Q' a s') -> (forall c s', E c s' -> E' c s') ->
  wp m Q' E' s.
Proof. unfold wp. destruct (m s); naive_solver. Qed.

Lemma wp_zoom {T A} (l : Lens S T) (m : M T A) Q E s :
  wp m (fun a t => Q a (over l t s)) (fun c t => E c (over l t s)) (view l s) ->
  wp (zoom l m) Q E s.
Proof. unfold wp, zoom. by destruct (m (view l s)). Qed.

(** A counting loop maintains an invariant indexed by the loop variable. *)
Lemma wp_for_loop (I : Z -> S -> Prop) n from (body : Z -> M S unit) E s :
  I from s ->
  (forall i t, from <= i < from + Z.of_nat n -> I i t -> wp (body i) (fun _ => I (i + 1)) E t) ->
  wp (for_loop n from body) (fun _ => I (from + Z.of_nat n)) E s.
Proof.
  revert from s. induction n as [|n IH]; intros from s HI Hb; cbn [for_loop].
  { apply wp_ret. by replace (from + Z.of_nat 0) with from by lia. }
  apply wp_bind. eapply wp_conseq; [apply Hb; [lia|done] | | done].
  intros [] t Ht. replace (from + Z.of_nat (Datatypes.S n)) with ((from + 1) + Z.of_nat n) by lia.
  apply IH; [done|]. intros i u Hi. apply Hb. lia.
Qed.

(** A counting loop consults its body only within its range. *)
Lemma for_loop_ext n from (b1 b2 : Z -> M S unit) s :
  (forall i t, from <= i < from + Z.of_nat n -> b1 i t = b2 i t) ->
  for_loop n from b1 s = for_loop n from b2 s.
Proof.
  revert from s. induction n as [|n IH]; intros from s Hb; simpl; [done|].
  unfold mbind, M_bind. rewrite Hb by lia. destruct (b2 from s); [|done..].
  apply IH. intros. apply Hb. lia.
Qed.
End wp_rules.

(** Step through straight-line code. *)
Ltac wp_step :=
  match goal with
  | |- wp (mbind _ _) _ _ _ => apply wp_bind
  | |- wp (mret _) _ _ _ => apply wp_ret
  | |- wp (gets _) _ _ _ => apply wp_gets
  | |- wp (modify _) _ _ _ => apply wp_modify
  | |- wp (exit _) _ _ _ => apply wp_exit
  | |- wp (catch _) _ _ _ => apply wp_catch
  | |- wp (zoom _ _) _ _ _ => apply wp_zoom
  | |- wp (lift_opt (Some _)) _ _ _ => apply wp_ret
  | |- wp (put _) _ _ _ => apply wp_put
  end.
Ltac wp_steps := repeat (wp_step; simpl).

(** Decide a comparison of integers in the goal. *)
Ltac zcase :=
  match goal with
  | |- context [ ?a =? ?b ] => destruct (Z.eqb_spec a b)
  | |- context [ ?a <=? ?b ] => destruct (Z.leb_spec a b)
  | |- context [ ?a <? ?b ] => destruct (Z.ltb_spec a b)
  | |- context [ ?a >? ?b ] => rewrite (Z.gtb_ltb a b)
  | |- context [ ?a >=? ?b ] => rewrite (Z.geb_leb a b)
  end.

(** Filling a list from the left. *)
Lemma children_step {A} (l : list A) (f x : A) i n :
  length l = i -> (i < n)%nat ->
  (<[i := f]> (l ++ replicate (n - i) x)) = l ++ [f] ++ replicate (n - S i) x.
Proof.
  intros Hl Hi. rewrite insert_app_r_alt by lia. rewrite Hl, Nat.sub_diag.
  replace (n - i)%nat with (S (n - S i)) by lia. done.
Qed.

(** ** Frames

    [keeps f m]: whenever [m] returns, [f] of the state is what it was. *)
Definition keeps {S A B} (f : S -> B) (m : M S A) : Prop :=
  forall s, match m s with Ret _ s' | Exit _ s' => f s' = f s | Undef | NoFuel => True end.

Section keeps.
Context {S B : Type} (f : S -> B).

Lemma keeps_run {A} (m : M S A) s a s' : m s = Ret a s' -> keeps f m -> f s' = f s.
Proof. intros Hm Hk. specialize (Hk s). by rewrite Hm in Hk. Qed.
Lemma keeps_ret {A} (a : A) : keeps f (mret a).
Proof. by intros s. Qed.
Lemma keeps_exit {A} c : keeps f (exit (A := A) c).
Proof. by intros s. Qed.
Lemma keeps_undef {A} : keeps f (undef (A := A)).
Proof. by intros s. Qed.
Lemma keeps_nofuel {A} : keeps f (nofuel (A := A)).
Proof. by intros s. Qed.
Lemma keeps_gets {A} (g : S -> A) : keeps f (gets g).
Proof. by intros s. Qed.
Lemma keeps_lift_opt {A} (o : option A) : keeps f (lift_opt o).
Proof. by destruct o. Qed.
Lemma keeps_return_code c : keeps f (return_code c).
Proof. unfold return_code. by destruct (c =? 0). Qed.
Lemma keeps_modify g : (forall s, f (g s) = f s) -> keeps f (modify g).
Proof. intros Hg s. apply Hg. Qed.
Lemma keeps_bind {A C} (m : M S A) (k : A -> M S C) :
  keeps f m -> (forall a, keeps f (k a)) -> keeps f (m ≫= k).
Proof.
  intros Hm Hk s. specialize (Hm s). unfold mbind, M_bind. destruct (m s) as [a t|c t| |]; auto.
  specialize (Hk a t). destruct (k a t); congruence.
Qed.
Lemma keeps_catch (m : M S unit) : keeps f m -> keeps f (catch m).
Proof. intros Hm s. specialize (Hm s). unfold catch. by destruct (m s). Qed.
Lemma keeps_ignore (m : M S unit) : keeps f m -> keeps f (ignore m).
Proof. intros Hm. apply keeps_bind; [by apply keeps_catch|intros; apply keeps_ret]. Qed.
Lemma keeps_when b (m : M S unit) : keeps f m -> keeps f (when b m).
Proof. intros Hm. destruct b; [done|apply keeps_ret]. Qed.
Lemma keeps_for_range a b (body : Z -> M S unit) :
  (forall i, keeps f (body i)) -> keeps f (for_range a b body).
Proof.
  intros Hb. unfold for_range. generalize (Z.to_nat (b - a)). intros n. revert a.
  induction n as [|n IH]; intros a; cbn [for_loop]; [apply keeps_ret|].
  apply keeps_bind; [apply Hb|]. intros []. apply IH.
Qed.
Lemma keeps_zoom_off {T A} (l : Lens S T) (m : M T A) :
  (forall t s, f (over l t s) = f s) -> keeps f (zoom l m).
Proof. intros Hl s. unfold zoom. by destruct (m (view l s)). Qed.
Lemma keeps_zoom {T A} (g : T -> B) (l : Lens S T) (m : M T A) :
  (forall t s, f (over l t s) = g t) -> (forall s, f s = g (view l s)) ->
  keeps g m -> keeps f (zoom l m).
Proof.
  intros Ho Hv Hm s. specialize (Hm (view l s)). unfold zoom.
  destruct (m (view l s)); rewrite ?Ho, ?Hv; auto.
Qed.
End keeps.

Create HintDb keeps.
#[export] Hint Resolve keeps_ret keeps_exit keeps_undef keeps_nofuel keeps_gets keeps_lift_opt
  keeps_return_code : keeps.
(** Follow the structure of the code; other functions by their lemmas, frames of lenses by
    computation.  [keeps_hook] is for later combinators. *)
Ltac keeps_hook := fail.
Ltac keeps_step :=
  match goal with
  | |- forall _, _ => intro
  | |- keeps _ (mbind _ _) => apply keeps_bind
  | |- keeps _ (catch _) => apply keeps_catch
  | |- keeps _ (ignore _) => apply keeps_ignore
  | |- keeps _ (when _ _) => apply keeps_when
  | |- keeps _ (for_range _ _ _) => apply keeps_for_range
  | |- keeps _ (if ?b then _ else _) => destruct b
  | |- keeps _ (let '(_, _) := ?x in _) => destruct x
  | |- keeps _ (match ?x with _ => _ end) => destruct x
  | |- keeps _ (modify _) => apply keeps_modify; by intros []
  | |- keeps _ _ => keeps_hook
  | |- keeps _ _ => solve [auto with keeps nocore]
  | |- keeps _ (zoom _ _) => apply keeps_zoom_off; by intros
  end.
Ltac solve_keeps := intros; cbv zeta; repeat keeps_step.

(** ** Partial correctness

    [wlp m Q E s]: if [m] returns from [s], it falls through into [Q] or leaves into [E]. *)
Definition wlp {S A} (m : M S A) (Q : A -> S -> Prop) (E : Z -> S -> Prop) (s : S) : Prop :=
  match m s with Ret a s' => Q a s' | Exit c s' => E c s' | Undef | NoFuel => True end.

Section wlp_rules.
Context {S : Type}.
Lemma wlp_bind {A B} (m : M S A) (k : A -> M S B) Q E s :
  wlp m (fun a s' => wlp (k a) Q E s') E s -> wlp (m ≫= k) Q E s.
Proof. unfold wlp, mbind, M_bind. by destruct (m s). Qed.
Lemma wp_wlp {A} (m : M S A) Q E s : wp m Q E s -> wlp m Q E s.
Proof. unfold wp, wlp. by destruct (m s). Qed.
Lemma wlp_lift_opt {A} (o : option A) (Q : A -> S -> Prop) E s :
  (forall a, o = Some a -> Q a s) -> wlp (lift_opt o) Q E s.
Proof. destruct o; [|done]. intros HQ. by apply HQ. Qed.
Lemma wlp_catch (m : M S unit) (Q : Z -> S -> Prop) E s :
  wlp m (fun _ s' => Q 0 s') Q s -> wlp (catch m) Q E s.
Proof. unfold wlp, catch. by destruct (m s). Qed.
Lemma wlp_conseq {A} (m : M S A) (Q Q' : A -> S -> Prop) (E E' : Z -> S -> Prop) s :
  wlp m Q E s -> (forall a s', Q a s' -> Q' a s') -> (forall c s', E c s' -> E' c s') ->
  wlp m Q' E' s.
Proof. unfold wlp. destruct (m s); naive_solver. Qed.
Lemma wlp_keeps {A B} (f : S -> B) (m : M S A) (Q : A -> S -> Prop) (E : Z -> S -> Prop) s :
  keeps f m -> (forall a s', f s' = f s -> Q a s') -> (forall c s', f s' = f s -> E c s') ->
  wlp m Q E s.
Proof. intros Hk HQ HE. specialize (Hk s). unfold wlp. destruct (m s); auto. Qed.
Lemma wlp_for_loop (I : S -> Prop) n from (body : Z -> M S unit) E s :
  I s -> (forall i t, I t -> wlp (body i) (fun _ => I) E t) ->
  wlp (for_loop n from body) (fun _ => I) E s.
Proof.
  intros HI Hb. revert from s HI. induction n as [|n IH]; intros from s HI; cbn [for_loop]; [done|].
  apply wlp_bind. eapply wlp_conseq; [by apply Hb| |done]. intros [] t Ht. by apply IH.
Qed.
Lemma wlp_keeps_bind {A B C} (f : S -> B) (m : M S A) (k : A -> M S C) Q E s :
  keeps f m -> (forall a s', f s' = f s -> wlp (k a) Q E s') ->
  (forall c s', f s' = f s -> E c s') -> wlp (m ≫= k) Q E s.
Proof. intros. apply wlp_bind. by eapply wlp_keeps. Qed.
End wlp_rules.
