(* ===== verification/CLib.v ===== *)
(** The C language and library facilities the sources use: fixed-width integers and their
    little-endian representation, IEEE 754 doubles as bit patterns, memory blocks,
    [printf]-style formatting, [strtol].  What the platform decides (whether an allocation
    succeeds, what fresh memory holds, the text of [strerror]) is the class [Libc]. *)
From stdpp Require Import base tactics list numbers option strings.
From Stdlib Require Import ZArith Lia Ascii SpecFloat.
From S2P Require Import Prelude.

(** * Integers *)
Definition INT8_MIN := -128.
Definition INT8_MAX := 127.
Definition UINT8_MAX := 255.
Definition INT16_MIN := -32768.
Definition INT16_MAX := 32767.
Definition UINT16_MAX := 65535.
Definition INT32_MIN := -2147483648.
Definition INT32_MAX := 2147483647.
Definition UINT32_MAX := 4294967295.
Definition INT64_MIN := -9223372036854775808.
Definition INT64_MAX := 9223372036854775807.
Definition UINT64_MAX := 18446744073709551615.

Definition in_i64 (z : Z) : bool := (INT64_MIN <=? z) && (z <=? INT64_MAX).

(** The result of an [int64_t] operation: out of range is undefined behaviour. *)
Definition i64 {S} (z : Z) : M S Z := if in_i64 z then mret z else undef.
(** The same for [int32_t]. *)
Definition i32 {S} (z : Z) : M S Z :=
  if (INT32_MIN <=? z) && (z <=? INT32_MAX) then mret z else undef.

(** Conversion to an unsigned or signed type of [w] bits. *)
Definition to_unsigned (w z : Z) : Z := z mod 2 ^ w.
Definition to_signed (w z : Z) : Z :=
  let u := z mod 2 ^ w in if u <? 2 ^ (w - 1) then u else u - 2 ^ w.

(** [errno] values of the platform (Linux). *)
Definition EIO := 5.
Definition ENOMEM := 12.
Definition EEXIST := 17.
Definition EINVAL := 22.
Definition ERANGE := 34.
Definition ENOTSUP := 95.

(** * Bytes in memory *)
Definition zlen {A} (l : list A) : Z := Z.of_nat (length l).

(** The [n] bytes of an integer, least significant first, in two's complement. *)
Fixpoint le_bytes (n : nat) (z : Z) : list Z :=
  match n with
  | O => []
  | S n' => (z mod 256) :: le_bytes n' (z / 256)
  end.
(** The unsigned and the signed integer held by bytes. *)
Fixpoint le_uint (bs : list Z) : Z :=
  match bs with
  | [] => 0
  | b :: bs' => b + 256 * le_uint bs'
  end.
Definition le_sint (bs : list Z) : Z := to_signed (8 * zlen bs) (le_uint bs).

(** The bytes [off .. off+n) of a block, when they lie inside it. *)
Definition read_at (l : list Z) (off n : Z) : option (list Z) :=
  if (0 <=? off) && (0 <=? n) && (off + n <=? zlen l)
  then Some (take (Z.to_nat n) (drop (Z.to_nat off) l)) else None.
(** [memcpy(l + off, bs, |bs|)], when it stays inside the block. *)
Definition write_at (l : list Z) (off : Z) (bs : list Z) : option (list Z) :=
  if (0 <=? off) && (off + zlen bs <=? zlen l)
  then Some (take (Z.to_nat off) l ++ bs ++ drop (Z.to_nat off + length bs) l) else None.

(** [strncmp(a, b, n) == 0] for [n] readable bytes: the comparison stops at a null byte. *)
Fixpoint strncmp_eq (a b : list Z) : bool :=
  match a, b with
  | x :: a', y :: b' => (x =? y) && ((x =? 0) || strncmp_eq a' b')
  | _, _ => true
  end.

(** What the platform decides. *)
Class Libc := {
  malloc_ok : Z -> bool;      (** does an allocation of this size succeed? *)
  malloc_junk : Z -> Z;       (** content of fresh memory at an offset *)
  strerror : Z -> string;
  FILE_ : string -> string;   (** [__FILE__] in a source file *)
}.

(** A concrete platform, on which definitions are evaluated: allocations below 1 MiB
    succeed. *)
Definition host : Libc := {|
  malloc_ok n := n <? 1048576;
  malloc_junk n := n * 7 + 1;
  strerror e := if e =? ENOMEM then "Cannot allocate memory"%string else "Invalid argument"%string;
  FILE_ f := f
|}.

(** A [malloc] whose result is used without a check. *)
Definition malloc_unchecked `{Libc} {S} (n : Z) : M S unit :=
  if malloc_ok n then mret tt else undef.

(** [realloc(p, n)] on the block [old] ([None]: a null pointer): the common prefix is kept
    and the rest is indeterminate.  A size of 0 frees the block, and makes an empty block of a
    null pointer (glibc). *)
Definition fresh_bytes `{Libc} (from : Z) (n : nat) : list Z :=
  (fun i => malloc_junk (from + Z.of_nat i) mod 256) <$> seq 0 n.
Definition block_of (o : option (list Z)) : list Z := default [] o.
Definition realloc `{Libc} (old : option (list Z)) (n : Z) : option (list Z) :=
  if (n <? 0) || ((n =? 0) && bool_decide (is_Some old)) then None
  else if malloc_ok n then
    let kept := take (Z.to_nat n) (block_of old) in
    Some (kept ++ fresh_bytes (zlen kept) (Z.to_nat n - length kept))
  else None.

(** * Strings *)
Definition byte_of_ascii (a : ascii) : Z := Z.of_N (N_of_ascii a).
Definition ascii_of_byte (b : Z) : ascii := ascii_of_N (Z.to_N (b mod 256)).
Fixpoint string_bytes (s : string) : list Z :=
  match s with
  | EmptyString => []
  | String a s' => byte_of_ascii a :: string_bytes s'
  end.
Fixpoint bytes_string (bs : list Z) : string :=
  match bs with
  | [] => EmptyString
  | b :: bs' => String (ascii_of_byte b) (bytes_string bs')
  end.
Definition strlen (s : string) : Z := Z.of_nat (String.length s).
Definition streq (a b : string) : bool := String.eqb a b.

(** A double quote. *)
Definition quote : string := String "034" "".

(** Decimal notation. *)
Definition digit (d : Z) : ascii := ascii_of_N (Z.to_N (48 + d)).
Fixpoint dec_digits (fuel : nat) (n : Z) (acc : string) : string :=
  match fuel with
  | O => acc
  | S f =>
      if n <? 10 then String (digit n) acc
      else dec_digits f (n / 10) (String (digit (n mod 10)) acc)
  end.
Definition fmt_nat (n : Z) : string := dec_digits (S (Z.to_nat (Z.log2 n))) n "".
Definition fmt_Z (z : Z) : string :=
  if z <? 0 then String "-"%char (fmt_nat (- z)) else fmt_nat z.

(** [vsnprintf] with the conversions [%s], [%d], [%ld], [%lu] and [%.3s]. *)
Inductive fmt_arg := AStr (s : string) | AInt (z : Z).
Definition fmt_str (a : option fmt_arg) : string :=
  match a with Some (AStr s) => s | Some (AInt z) => fmt_Z z | None => "" end.
Fixpoint c_format (fmt : string) (args : list fmt_arg) : string :=
  match fmt with
  | EmptyString => ""
  | String "%" (String "s" r) | String "%" (String "d" r)
  | String "%" (String "l" (String "d" r)) | String "%" (String "l" (String "u" r)) =>
      (fmt_str (head args) +:+ c_format r (tail args))%string
  | String "%" (String "." (String "3" (String "s" r))) =>
      (String.substring 0 3 (fmt_str (head args)) +:+ c_format r (tail args))%string
  | String c r => String c (c_format r args)
  end.
(** What a buffer of [n] bytes holds after [vsnprintf] wrote the text [s] to it. *)
Definition truncate_to (n : Z) (s : string) : string :=
  String.substring 0 (Z.to_nat (n - 1)) s.

(** [strtol(s, &end, 10)]: the value, what [end] points at, and whether [errno] becomes
    [ERANGE]; [end = s] when there is no digit. *)
Definition is_space (a : ascii) : bool :=
  let n := byte_of_ascii a in (n =? 32) || ((9 <=? n) && (n <=? 13)).
Definition digit_of (a : ascii) : option Z :=
  let n := byte_of_ascii a in
  if (48 <=? n) && (n <=? 57) then Some (n - 48) else None.
Fixpoint skip_spaces (s : string) : string :=
  match s with
  | String a r => if is_space a then skip_spaces r else s
  | EmptyString => s
  end.
Fixpoint scan_digits (s : string) (acc : Z) : Z * string :=
  match s with
  | String a r =>
      match digit_of a with
      | Some d => scan_digits r (10 * acc + d)
      | None => (acc, s)
      end
  | EmptyString => (acc, s)
  end.
Definition strtol (s : string) : Z * string * bool :=
  let s1 := skip_spaces s in
  let '(neg, s2) :=
    match s1 with
    | String "-" r => (true, r)
    | String "+" r => (false, r)
    | _ => (false, s1)
    end in
  match s2 with
  | String a _ =>
      match digit_of a with
      | None => (0, s, false)
      | Some _ =>
          let '(v, rest) := scan_digits s2 0 in
          let v := if neg : bool then - v else v in
          if v <? INT64_MIN then (INT64_MIN, rest, true)
          else if INT64_MAX <? v then (INT64_MAX, rest, true)
          else (v, rest, false)
      end
  | EmptyString => (0, s, false)
  end.

(** * Floating point: IEEE 754 values as their bit patterns *)
Module Float.
(** The bit pattern of a value with [prec] significant bits and exponent bound [emax]. *)
Definition encode (prec emax : Z) (x : spec_float) : Z :=
  let expbits := 2 * emax in
  let sign (s : bool) := if s then expbits * 2 ^ (prec - 1) else 0 in
  match x with
  | S754_zero s => sign s
  | S754_infinity s => sign s + (expbits - 1) * 2 ^ (prec - 1)
  | S754_nan => (expbits - 1) * 2 ^ (prec - 1) + 2 ^ (prec - 2)
  | S754_finite s m e =>
      if Z.pos m <? 2 ^ (prec - 1) then sign s + Z.pos m
      else sign s + (e + emax + prec - 2) * 2 ^ (prec - 1) + (Z.pos m - 2 ^ (prec - 1))
  end.
Definition decode (prec emax : Z) (bits : Z) : spec_float :=
  let expbits := 2 * emax in
  let frac := bits mod 2 ^ (prec - 1) in
  let exp := (bits / 2 ^ (prec - 1)) mod expbits in
  let s := negb (bits / 2 ^ (prec - 1) <? expbits) in
  if exp =? expbits - 1 then (if frac =? 0 then S754_infinity s else S754_nan)
  else if exp =? 0 then
    match frac with
    | Z.pos m => S754_finite s m (3 - emax - prec)
    | _ => S754_zero s
    end
  else
    match frac + 2 ^ (prec - 1) with
    | Z.pos m => S754_finite s m (exp - emax - prec + 2)
    | _ => S754_nan
    end.
(** [(double)z]: rounding to nearest, ties to even. *)
Definition f64_of_Z (z : Z) : Z := encode 53 1024 (binary_normalize 53 1024 z 0 false).
Definition f32_of_Z (z : Z) : Z := encode 24 128 (binary_normalize 24 128 z 0 false).
(** [(float)d] and [(double)f]. *)
Definition f32_of_f64 (d : Z) : Z :=
  match decode 53 1024 d with
  | S754_finite s m e =>
      encode 24 128 (binary_normalize 24 128 (if s then Z.neg m else Z.pos m) e s)
  | x => encode 24 128 x
  end.
Definition f64_of_f32 (f : Z) : Z :=
  match decode 24 128 f with
  | S754_finite s m e =>
      encode 53 1024 (binary_normalize 53 1024 (if s then Z.neg m else Z.pos m) e s)
  | x => encode 53 1024 x
  end.
(** Truncation toward zero; [None] for infinities and NaN. *)
Definition trunc_f64 (d : Z) : option Z :=
  match decode 53 1024 d with
  | S754_zero _ => Some 0
  | S754_finite s m e =>
      let a := if 0 <=? e then Z.pos m * 2 ^ e else Z.pos m / 2 ^ (- e) in
      Some (if s then - a else a)
  | _ => None
  end.
(** [(int64_t)d] and [(uint64_t)d], undefined when the value does not fit. *)
Definition Z_of_f64 (d : Z) : option Z :=
  z ← trunc_f64 d; if in_i64 z then Some z else None.
Definition u64_of_f64 (d : Z) : option Z :=
  z ← trunc_f64 d; if (0 <=? z) && (z <=? UINT64_MAX) then Some z else None.

(** [printf("%e", d)]: six decimals, rounded to nearest, ties to even. *)
Fixpoint scale_up (fuel : nat) (num den d : Z) : Z * Z :=
  match fuel with
  | O => (den, d)
  | S f => if 10 * den <=? num then scale_up f num (10 * den) (d + 1) else (den, d)
  end.
Fixpoint scale_down (fuel : nat) (num den d : Z) : Z * Z :=
  match fuel with
  | O => (num, d)
  | S f => if num <? den then scale_down f (10 * num) den (d - 1) else (num, d)
  end.
Definition round_half_even (num den : Z) : Z :=
  let q := num / den in
  let r := 2 * (num mod den) in
  if r <? den then q else if den <? r then q + 1 else if Z.even q then q else q + 1.
Definition pad_left (n : nat) (s : string) : string :=
  (fold_right (fun _ acc => String "0" acc) s (seq 0 (n - String.length s)))%string.
Definition fmt_sci (sign : bool) (digits7 d : Z) : string :=
  let ds := pad_left 7 (fmt_nat digits7) in
  ((if sign then "-" else "") +:+ String.substring 0 1 ds +:+ "." +:+
   String.substring 1 6 ds +:+ "e" +:+ (if Z.ltb d 0 then "-" else "+") +:+
   pad_left 2 (fmt_nat (Z.abs d)))%string.
Definition fmt_e (bits : Z) : string :=
  match decode 53 1024 bits with
  | S754_zero s => fmt_sci s 0 0
  | S754_infinity s => if s then "-inf"%string else "inf"%string
  | S754_nan => if bits <? 2 ^ 63 then "nan"%string else "-nan"%string
  | S754_finite s m e =>
      let num := if 0 <=? e then Z.pos m * 2 ^ e else Z.pos m in
      let den := if 0 <=? e then 1 else 2 ^ (- e) in
      let '(den, d) := scale_up 400 num den 0 in
      let '(num, d) := scale_down 400 num den d in
      let q := round_half_even (num * 10 ^ 6) den in
      if q =? 10 ^ 7 then fmt_sci s (10 ^ 6) (d + 1) else fmt_sci s q d
  end.
End Float.

(** * Lemmas *)
Lemma zlen_app {A} (a b : list A) : zlen (a ++ b) = zlen a + zlen b.
Proof. unfold zlen. rewrite length_app. lia. Qed.
Lemma zlen_nonneg {A} (a : list A) : 0 <= zlen a.
Proof. unfold zlen. lia. Qed.
Lemma zlen_replicate {A} n (a : A) : zlen (replicate n a) = Z.of_nat n.
Proof. unfold zlen. by rewrite length_replicate. Qed.
Lemma zlen_take {A} (n : nat) (l : list A) : zlen (take n l) = Z.min (Z.of_nat n) (zlen l).
Proof. unfold zlen. rewrite length_take. lia. Qed.
Lemma zlen_drop {A} (n : nat) (l : list A) : zlen (drop n l) = Z.max 0 (zlen l - Z.of_nat n).
Proof. unfold zlen. rewrite length_drop. lia. Qed.

Lemma i64_ok {S} z : in_i64 z = true -> i64 (S := S) z = mret z.
Proof. unfold i64. by intros ->. Qed.
Lemma in_i64_intro z : INT64_MIN <= z <= INT64_MAX -> in_i64 z = true.
Proof. unfold in_i64. intros. apply andb_true_intro. split; apply Z.leb_le; lia. Qed.
Lemma wp_i64 {S} z (Q : Z -> S -> Prop) E s :
  INT64_MIN <= z <= INT64_MAX -> Q z s -> wp (i64 z) Q E s.
Proof. intros Hz HQ. rewrite i64_ok by (by apply in_i64_intro). exact HQ. Qed.

(** ** Little-endian representation *)
Lemma length_le_bytes n z : length (le_bytes n z) = n.
Proof. revert z. induction n; intros; simpl; auto. Qed.
Lemma zlen_le_bytes n z : zlen (le_bytes n z) = Z.of_nat n.
Proof. unfold zlen. by rewrite length_le_bytes. Qed.

Definition is_byte (b : Z) : Prop := 0 <= b < 256.

Lemma le_bytes_byte n z : Forall is_byte (le_bytes n z).
Proof.
  revert z. induction n; intros; simpl; constructor; auto.
  unfold is_byte. apply Z.mod_pos_bound. lia.
Qed.

Lemma le_uint_le_bytes n z : le_uint (le_bytes n z) = z mod 2 ^ (8 * Z.of_nat n).
Proof.
  revert z. induction n as [|n IH]; intros z.
  { simpl le_uint. by rewrite Z.mod_1_r. }
  cbn [le_bytes le_uint]. rewrite IH.
  replace (2 ^ (8 * Z.of_nat (S n))) with (256 * 2 ^ (8 * Z.of_nat n)).
  2:{ replace (8 * Z.of_nat (S n)) with (8 + 8 * Z.of_nat n) by lia.
      rewrite Z.pow_add_r by lia. done. }
  rewrite Z.rem_mul_r by lia. lia.
Qed.

Lemma to_signed_id w z : 0 < w -> - 2 ^ (w - 1) <= z < 2 ^ (w - 1) -> to_signed w (z mod 2 ^ w) = z.
Proof.
  intros Hw Hz. unfold to_signed. rewrite Z.mod_mod by lia.
  assert (2 ^ w = 2 * 2 ^ (w - 1)) as Hp.
  { rewrite <- Z.pow_succ_r by lia. f_equal. lia. }
  destruct (Z.le_gt_cases 0 z).
  - rewrite Z.mod_small by lia. case_match eqn:E; [done|]. apply Z.ltb_ge in E. lia.
  - assert (z mod 2 ^ w = z + 2 ^ w) as ->.
    { symmetry. apply Zmod_unique with (-1); lia. }
    case_match eqn:E; [apply Z.ltb_lt in E|]; lia.
Qed.

(** An integer is read back from its bytes, signed or unsigned. *)
Lemma le_sint_le_bytes n z :
  (0 < n)%nat -> - 2 ^ (8 * Z.of_nat n - 1) <= z < 2 ^ (8 * Z.of_nat n - 1) ->
  le_sint (le_bytes n z) = z.
Proof.
  intros Hn Hz. unfold le_sint. rewrite zlen_le_bytes, le_uint_le_bytes.
  apply to_signed_id; lia.
Qed.
Lemma le_uint_le_bytes_id n z : 0 <= z < 2 ^ (8 * Z.of_nat n) -> le_uint (le_bytes n z) = z.
Proof. intros. rewrite le_uint_le_bytes. by rewrite Z.mod_small. Qed.

(** ** Memory blocks *)
Lemma write_at_Some l off bs :
  0 <= off -> off + zlen bs <= zlen l ->
  write_at l off bs =
    Some (take (Z.to_nat off) l ++ bs ++ drop (Z.to_nat off + length bs) l).
Proof.
  intros. unfold write_at.
  by rewrite (proj2 (Z.leb_le _ _)), (proj2 (Z.leb_le _ _)) by lia.
Qed.
Lemma write_at_len l off bs l' : write_at l off bs = Some l' -> zlen l' = zlen l.
Proof.
  unfold write_at. destruct (_ && _) eqn:E; [|done]. intros [= <-].
  apply andb_prop in E as [E1 E2]. apply Z.leb_le in E1, E2.
  rewrite !zlen_app, zlen_take, zlen_drop. unfold zlen in *. lia.
Qed.
Lemma write_at_byte l off bs l' :
  write_at l off bs = Some l' -> Forall is_byte l -> Forall is_byte bs -> Forall is_byte l'.
Proof.
  unfold write_at. destruct (_ && _); [|done]. intros [= <-] Hl Hb.
  repeat apply Forall_app_2; auto using Forall_take, Forall_drop.
Qed.
(** What precedes a write is unchanged and what was written is there. *)
Lemma write_at_take l off bs l' :
  write_at l off bs = Some l' ->
  take (Z.to_nat (off + zlen bs)) l' = take (Z.to_nat off) l ++ bs.
Proof.
  unfold write_at. destruct (_ && _) eqn:E; [|done]. intros [= <-].
  apply andb_prop in E as [E1 E2]. apply Z.leb_le in E1, E2. unfold zlen in *.
  rewrite (app_assoc (take _ _)).
  rewrite take_app_length'; [done|]. rewrite length_app, length_take. lia.
Qed.

Section memory.
Context `{Libc}.
Lemma fresh_bytes_length from n : length (fresh_bytes from n) = n.
Proof. unfold fresh_bytes. by rewrite length_fmap, length_seq. Qed.
Lemma fresh_bytes_byte from n : Forall is_byte (fresh_bytes from n).
Proof.
  unfold fresh_bytes. apply Forall_fmap, Forall_true. intros i. unfold is_byte; simpl.
  apply Z.mod_pos_bound. lia.
Qed.
Lemma realloc_Some old n l :
  realloc old n = Some l ->
  malloc_ok n = true /\ 0 <= n /\ zlen l = n /\
  take (Nat.min (length (block_of old)) (Z.to_nat n)) l = take (Z.to_nat n) (block_of old) /\
  (Forall is_byte (block_of old) -> Forall is_byte l).
Proof.
  unfold realloc. destruct (Z.ltb_spec n 0); [done|]. destruct (_ && _); [done|]. simpl.
  destruct (malloc_ok n) eqn:Hm; [|done]. intros [= <-]. split_and!; [done|lia| | |].
  - rewrite zlen_app, zlen_take. unfold zlen. rewrite fresh_bytes_length, length_take. lia.
  - rewrite take_app_length'; [done|]. rewrite length_take. lia.
  - intros. apply Forall_app_2; auto using Forall_take, fresh_bytes_byte.
Qed.
Lemma realloc_grows old n :
  zlen (block_of old) <= n -> 0 < n -> malloc_ok n = true ->
  exists l, realloc old n = Some l /\ zlen l = n /\
    take (length (block_of old)) l = block_of old.
Proof.
  intros Hn Hp Hm. unfold realloc. rewrite (proj2 (Z.ltb_ge n 0)), (proj2 (Z.eqb_neq n 0)), Hm by lia. simpl.
  eexists. split; [done|]. unfold zlen in *. split.
  - rewrite length_app, fresh_bytes_length, length_take. lia.
  - rewrite take_app_le; [|rewrite length_take; lia].
    rewrite take_take. rewrite (take_ge (block_of old)); [done|lia].
Qed.
End memory.

(** ** Formatting *)
Lemma dec_digits_length k fuel n acc :
  (0 < k)%nat -> n < 10 ^ Z.of_nat k ->
  (String.length (dec_digits fuel n acc) <= String.length acc + k)%nat.
Proof.
  revert fuel n acc. induction k as [|k IH]; intros fuel n acc Hk Hn; [lia|].
  destruct fuel as [|fuel]; cbn [dec_digits]; [lia|].
  destruct (Z.ltb_spec n 10); [simpl; lia|].
  destruct k as [|k]; [simpl in Hn; lia|].
  etrans; [apply IH; [lia|]|simpl; lia].
  apply Z.div_lt_upper_bound; [lia|].
  replace (Z.of_nat (S (S k))) with (Z.succ (Z.of_nat (S k))) in Hn by lia.
  rewrite Z.pow_succ_r in Hn by lia. lia.
Qed.

(** A 64-bit signed integer prints in at most 20 characters. *)
Lemma fmt_Z_i64_length z : in_i64 z = true -> (String.length (fmt_Z z) <= 20)%nat.
Proof.
  unfold in_i64, INT64_MIN, INT64_MAX. intros [H1 H2]%andb_prop.
  apply Z.leb_le in H1, H2. unfold fmt_Z, fmt_nat. destruct (Z.ltb_spec z 0).
  - cbn [String.length].
    pose proof (dec_digits_length 19 (S (Z.to_nat (Z.log2 (- z)))) (- z) "") as L.
    cbn [String.length] in L. lia.
  - pose proof (dec_digits_length 19 (S (Z.to_nat (Z.log2 z))) z "") as L.
    cbn [String.length] in L. lia.
Qed.

Lemma length_string_bytes s : length (string_bytes s) = String.length s.
Proof. induction s; simpl; auto. Qed.
Lemma zlen_string_bytes s : zlen (string_bytes s) = strlen s.
Proof. unfold zlen, strlen. by rewrite length_string_bytes. Qed.
Lemma string_bytes_byte s : Forall is_byte (string_bytes s).
Proof.
  induction s as [|a s IH]; simpl; constructor; auto. unfold is_byte, byte_of_ascii.
  pose proof (N_ascii_bounded a). lia.
Qed.
(** The bytes of a string determine it. *)
Lemma bytes_string_bytes s : bytes_string (string_bytes s) = s.
Proof.
  induction s as [|a s IH]; simpl; [done|]. f_equal; [|done].
  unfold ascii_of_byte, byte_of_ascii. pose proof (N_ascii_bounded a).
  rewrite Z.mod_small by lia. rewrite N2Z.id. apply ascii_N_embedding.
Qed.

Lemma substring_length n m s : (String.length (String.substring n m s) <= m)%nat.
Proof.
  revert n m. induction s as [|a s IH]; intros [|n] [|m]; simpl; try lia.
  - specialize (IH 0%nat m). lia.
  - apply (IH n 0%nat).
  - apply (IH n (Datatypes.S m)).
Qed.
(** What [vsnprintf] leaves in a buffer of [n] bytes fits with its terminator. *)
Lemma truncate_to_length n s : 0 < n -> strlen (truncate_to n s) < n.
Proof.
  intros. unfold truncate_to, strlen.
  pose proof (substring_length 0 (Z.to_nat (n - 1)) s). lia.
Qed.

(** ** Strings *)
Lemma string_app_cons a s t : (String a s +:+ t)%string = String a (s +:+ t).
Proof. done. Qed.
Lemma string_app_nil s : (s +:+ "")%string = s.
Proof. induction s as [|a s IH]; [done|]. by rewrite string_app_cons, IH. Qed.
Lemma string_app_assoc a b c : ((a +:+ b) +:+ c)%string = (a +:+ (b +:+ c))%string.
Proof. induction a as [|x a IH]; [done|]. by rewrite !string_app_cons, IH. Qed.
Lemma strlen_app a b : strlen (a +:+ b) = strlen a + strlen b.
Proof.
  unfold strlen. induction a as [|x a IH]; [done|]. rewrite string_app_cons. simpl. lia.
Qed.
Lemma substring_end n s : String.substring (String.length s) n s = ""%string.
Proof. induction s as [|c s IH]; simpl; [by destruct n|exact IH]. Qed.
Lemma substring_all s : String.substring 0 (String.length s) s = s.
Proof. induction s; simpl; congruence. Qed.

Lemma length_app_string a b :
  String.length (a +:+ b) = (String.length a + String.length b)%nat.
Proof. induction a as [|x a IH]; [done|]. rewrite string_app_cons. simpl. by rewrite IH. Qed.
Lemma pad_left_length n s :
  String.length (Float.pad_left n s) = Nat.max n (String.length s).
Proof.
  unfold Float.pad_left.
  assert (forall l : list nat, String.length (fold_right (fun _ acc => String "0" acc) s l) =
                    (length l + String.length s)%nat) as Hf
    by (induction l; simpl; auto).
  rewrite Hf, length_seq. lia.
Qed.
Lemma fmt_sci_length s q d : Z.abs d < 1000 -> (String.length (Float.fmt_sci s q d) <= 20)%nat.
Proof.
  intros Hd. unfold Float.fmt_sci. rewrite !length_app_string, pad_left_length.
  pose proof (substring_length 0 1 (Float.pad_left 7 (fmt_nat q))).
  pose proof (substring_length 1 6 (Float.pad_left 7 (fmt_nat q))).
  pose proof (dec_digits_length 3 (S (Z.to_nat (Z.log2 (Z.abs d)))) (Z.abs d) "") as Hl.
  specialize (Hl ltac:(lia) ltac:(lia)). fold (fmt_nat (Z.abs d)) in Hl.
  destruct s, (d <? 0); cbn [String.length] in *; lia.
Qed.
Lemma scale_up_bound fuel num den d :
  d <= (Float.scale_up fuel num den d).2 <= d + Z.of_nat fuel.
Proof.
  revert den d. induction fuel as [|f IH]; intros den d; cbn [Float.scale_up]; [simpl; lia|].
  destruct (10 * den <=? num); [|simpl; lia]. specialize (IH (10 * den) (d + 1)). lia.
Qed.
Lemma scale_down_bound fuel num den d :
  d - Z.of_nat fuel <= (Float.scale_down fuel num den d).2 <= d.
Proof.
  revert num d. induction fuel as [|f IH]; intros num d; cbn [Float.scale_down]; [simpl; lia|].
  destruct (num <? den); [|simpl; lia]. specialize (IH (10 * num) (d - 1)). lia.
Qed.
(** A double prints in fewer than 64 characters. *)
Lemma fmt_e_length bits : (String.length (Float.fmt_e bits) < 64)%nat.
Proof.
  unfold Float.fmt_e. destruct (Float.decode 53 1024 bits) as [s|s| |s m e].
  - pose proof (fmt_sci_length s 0 0 ltac:(lia)). lia.
  - destruct s; simpl; lia.
  - destruct (bits <? 2 ^ 63); simpl; lia.
  - generalize (if 0 <=? e then Z.pos m * 2 ^ e else Z.pos m) as num.
    generalize (if 0 <=? e then 1 else 2 ^ (- e)) as den. intros den num.
    pose proof (scale_up_bound 400 num den 0) as Hu.
    destruct (Float.scale_up 400 num den 0) as [den' d].
    pose proof (scale_down_bound 400 num den' d) as Hdn.
    destruct (Float.scale_down 400 num den' d) as [num' d']. cbn [snd] in *.
    destruct (_ =? 10 ^ 7).
    + pose proof (fmt_sci_length s (10 ^ 6) (d' + 1) ltac:(lia)). lia.
    + match goal with |- context [Float.fmt_sci s ?q d'] =>
        pose proof (fmt_sci_length s q d' ltac:(lia)) end. lia.
Qed.

(** ** [strtol] reads back what [printf("%d")] wrote *)
Definition no_digit (s : string) : Prop :=
  match s with EmptyString => True | String a _ => digit_of a = None end.

Lemma byte_of_digit d : 0 <= d < 10 -> byte_of_ascii (digit d) = 48 + d.
Proof.
  intros Hd. unfold byte_of_ascii, digit. rewrite N_ascii_embedding by lia. lia.
Qed.
Lemma digit_of_digit d : 0 <= d < 10 -> digit_of (digit d) = Some d.
Proof.
  intros Hd. unfold digit_of. rewrite byte_of_digit by done.
  rewrite !(proj2 (Z.leb_le _ _)) by lia. simpl. f_equal. lia.
Qed.

Lemma scan_digits_stop acc rest : no_digit rest -> scan_digits rest acc = (acc, rest).
Proof. destruct rest as [|a r]; simpl; [done|]. by intros ->. Qed.

(** The digits of [n], scanned after a prefix of value [acc], shift [acc] and add [n]. *)
Lemma scan_dec_digits fuel n rest acc :
  0 <= n -> (Z.to_nat (Z.log2 n) < fuel)%nat ->
  exists k, 0 < k /\
    scan_digits (dec_digits fuel n rest) acc = scan_digits rest (acc * k + n).
Proof.
  revert n rest acc. induction fuel as [|fuel IH]; intros n rest acc Hn Hf; [lia|].
  cbn [dec_digits]. destruct (Z.ltb_spec n 10).
  - exists 10. split; [lia|]. cbn [scan_digits]. rewrite digit_of_digit by lia.
    f_equal. lia.
  - assert (0 < n / 10) by (apply Z.div_str_pos; lia).
    assert (Z.log2 (n / 10) < Z.log2 n).
    { assert (Z.log2 (n / 10) <= Z.log2 (n / 2)) as Hle.
      { apply Z.log2_le_mono. apply Z.div_le_compat_l; lia. }
      change 2 with (2 ^ 1) in Hle at 1.
      rewrite <- (Z.shiftr_div_pow2 n 1), Z.log2_shiftr in Hle by lia.
      assert (0 < Z.log2 n) by (apply Z.log2_pos; lia). lia. }
    pose proof (Z.log2_nonneg (n / 10)).
    destruct (IH (n / 10) (String (digit (n mod 10)) rest) acc) as (k & Hk & Heq); [lia..|].
    rewrite Heq. exists (10 * k). split; [lia|]. cbn [scan_digits].
    rewrite digit_of_digit by (apply Z.mod_pos_bound; lia). f_equal.
    pose proof (Z.div_mod n 10). lia.
Qed.

Lemma dec_digits_app fuel n a b :
  dec_digits fuel n (a +:+ b) = (dec_digits fuel n a +:+ b)%string.
Proof.
  revert n a. induction fuel as [|fuel IH]; intros n a; cbn [dec_digits]; [done|].
  destruct (n <? 10); [done|]. by rewrite <- IH.
Qed.
Lemma dec_digits_head fuel n acc :
  0 <= n -> fuel <> O -> exists d r, 0 <= d < 10 /\ dec_digits fuel n acc = String (digit d) r.
Proof.
  revert n acc. induction fuel as [|fuel IH]; intros n acc Hn Hf; [done|].
  cbn [dec_digits]. destruct (Z.ltb_spec n 10); [by exists n, acc|].
  destruct fuel as [|fuel]; [|apply IH; [apply Z.div_pos; lia|done]].
  cbn [dec_digits]. eexists _, _. split; [|done]. apply Z.mod_pos_bound. lia.
Qed.

Lemma scan_fmt_nat n rest : 0 <= n -> no_digit rest ->
  scan_digits (fmt_nat n +:+ rest) 0 = (n, rest).
Proof.
  intros Hn Hr. unfold fmt_nat. rewrite <- dec_digits_app.
  destruct (scan_dec_digits (S (Z.to_nat (Z.log2 n))) n ("" +:+ rest) 0) as (k & _ & Heq);
    [lia..|].
  rewrite Heq. simpl. by rewrite scan_digits_stop.
Qed.

Lemma is_space_digit d : 0 <= d < 10 -> is_space (digit d) = false.
Proof.
  intros Hd. unfold is_space. rewrite byte_of_digit by done.
  rewrite (proj2 (Z.eqb_neq _ _)), (proj2 (Z.leb_gt (48 + d) 13)) by lia.
  apply andb_false_r.
Qed.
Lemma digit_not_sign d : 0 <= d < 10 -> digit d <> "-"%char /\ digit d <> "+"%char.
Proof.
  intros Hd. split; intros Heq%(f_equal byte_of_ascii); rewrite byte_of_digit in Heq by done.
  - change (byte_of_ascii "-") with 45 in Heq. lia.
  - change (byte_of_ascii "+") with 43 in Heq. lia.
Qed.

(** The sign, and the digits after it. *)
Lemma strtol_unsigned n rest : 0 <= n <= INT64_MAX -> no_digit rest ->
  strtol (fmt_nat n +:+ rest) = (n, rest, false).
Proof.
  intros Hn Hr. unfold strtol. pose proof (scan_fmt_nat n rest ltac:(lia) Hr) as Hscan.
  unfold fmt_nat in *.
  destruct (dec_digits_head (S (Z.to_nat (Z.log2 n))) n "" ltac:(lia) ltac:(done))
    as (d & r & Hd & Heq).
  rewrite Heq in *. change (String (digit d) r +:+ rest)%string with (String (digit d) (r +:+ rest)) in *.
  cbn [skip_spaces]. rewrite is_space_digit by done.
  destruct (digit_not_sign d Hd) as [Hm Hp].
  pose proof (digit_of_digit d Hd) as Hdig.
  revert Hm Hp Hdig Hscan. generalize (digit d) as c. intros c Hm Hp Hdig Hscan.
  destruct c as [[] [] [] [] [] [] [] []]; try done; rewrite Hdig, Hscan;
    rewrite (proj2 (Z.ltb_ge _ _)), (proj2 (Z.ltb_ge _ _)) by (unfold INT64_MIN, INT64_MAX in *; lia);
    done.
Qed.
Lemma strtol_fmt_Z z rest : in_i64 z = true -> no_digit rest ->
  strtol (fmt_Z z +:+ rest) = (z, rest, false).
Proof.
  unfold in_i64. intros [H1 H2]%andb_prop Hr. apply Z.leb_le in H1, H2.
  unfold fmt_Z. destruct (Z.ltb_spec z 0); [|apply strtol_unsigned; unfold INT64_MAX in *; auto; lia].
  pose proof (scan_fmt_nat (- z) rest ltac:(lia) Hr) as Hscan. unfold fmt_nat in *.
  destruct (dec_digits_head (S (Z.to_nat (Z.log2 (- z)))) (- z) "" ltac:(lia) ltac:(done))
    as (d & r & Hd & Heq).
  rewrite Heq in *. unfold strtol.
  change ((String "-" (String (digit d) r)) +:+ rest)%string
    with (String "-" (String (digit d) (r +:+ rest))).
  change (String (digit d) r +:+ rest)%string with (String (digit d) (r +:+ rest)) in *.
  cbn [skip_spaces is_space]. 
  change (is_space "-") with false. cbv iota beta.
  rewrite digit_of_digit, Hscan by done. rewrite Z.opp_involutive.
  rewrite !(proj2 (Z.ltb_ge _ _)) by lia. done.
Qed.

(** Positive doubles below one have no integral part. *)
Lemma Z_of_fraction bits : 0 <= bits < 1023 * 2 ^ 52 -> Float.Z_of_f64 bits = Some 0.
Proof.
  intros Hb. unfold Float.Z_of_f64, Float.trunc_f64, Float.decode.
  change (53 - 1) with 52. change (2 * 1024) with 2048.
  assert (0 <= bits / 2 ^ 52 < 1023) as Hq.
  { split; [apply Z.div_pos; lia|apply Z.div_lt_upper_bound; lia]. }
  pose proof (Z.mod_pos_bound bits (2 ^ 52) ltac:(lia)) as Hf.
  rewrite (Z.mod_small (bits / 2 ^ 52)) by lia.
  generalize dependent (bits / 2 ^ 52). intros x Hx.
  generalize dependent (bits mod 2 ^ 52). intros f Hf.
  rewrite (proj2 (Z.eqb_neq x (2048 - 1))), (proj2 (Z.ltb_lt x 2048)) by lia. simpl negb.
  assert (forall m e, 0 < Z.pos m < 2 ^ 53 -> e <= -53 ->
    (if 0 <=? e then Z.pos m * 2 ^ e else Z.pos m / 2 ^ (- e)) = 0) as Htrunc.
  { intros m e Hm He. rewrite (proj2 (Z.leb_gt 0 e)) by lia. apply Z.div_small. split; [lia|].
    apply Z.lt_le_trans with (2 ^ 53); [lia|]. apply Z.pow_le_mono_r; lia. }
  destruct (x =? 0) eqn:Hx0.
  - destruct f as [|m|m]; [done| |done]. rewrite Htrunc by lia. done.
  - destruct (f + 2 ^ 52) as [|m|m] eqn:Hm; [lia| |lia]. rewrite Htrunc by lia. done.
Qed.
