(* ===== verification/Buffer.v ===== *)
(** nanoarrow's growable byte buffers and validity bitmaps ([ArrowBuffer], [ArrowBitmap] of
    c/vendor/nanoarrow/nanoarrow.h), with memory bounds: a write outside the allocated block
    is undefined behaviour.  The theorems give the contents after each operation and show
    that none of them leaves the block. *)
From stdpp Require Import base tactics list numbers option.
From Stdlib Require Import ZArith Lia.
From S2P Require Import Prelude CLib.

(** * Buffers *)

(** [struct ArrowBufferAllocator]: zeroed memory, or the default (malloc) allocator. *)
Inductive Allocator := AllocatorNull | AllocatorMalloc.

(** [struct ArrowBuffer]; [buf_data] is the whole allocated block. *)
Record ArrowBuffer := mkBuffer {
  buf_data : option (list Z);
  buf_size_bytes : Z;
  buf_capacity_bytes : Z;
  buf_allocator : Allocator;
}.
Definition set_data d (b : ArrowBuffer) :=
  mkBuffer d (buf_size_bytes b) (buf_capacity_bytes b) (buf_allocator b).
Definition set_size n (b : ArrowBuffer) :=
  mkBuffer (buf_data b) n (buf_capacity_bytes b) (buf_allocator b).

(** [memset(buffer, 0, sizeof(struct ArrowBuffer))] *)
Definition zero_buffer : ArrowBuffer := mkBuffer None 0 0 AllocatorNull.

Definition _ArrowGrowByFactor {S} (current_capacity new_capacity : Z) : M S Z :=
  doubled_capacity ← i64 (current_capacity * 2);
  mret (if doubled_capacity >? new_capacity then doubled_capacity else new_capacity).

Definition ArrowBufferInit : ArrowBuffer := mkBuffer None 0 0 AllocatorMalloc.

Definition ArrowBufferReset : M ArrowBuffer unit :=
  b ← gets id;
  match buf_data b, buf_allocator b with
  | Some _, AllocatorNull => undef
  | _, a => put (mkBuffer None 0 0 a)
  end.

(** [ArrowBufferMove(src, dst)]: the new (src, dst). *)
Definition ArrowBufferMove (src dst : ArrowBuffer) : ArrowBuffer * ArrowBuffer :=
  (mkBuffer None 0 0 (buf_allocator src), src).

Section buffer.
Context `{Libc}.

Definition ArrowBufferResize (new_capacity_bytes : Z) (shrink_to_fit : bool)
    : M ArrowBuffer unit :=
  b ← gets id;
  if new_capacity_bytes <? 0 then exit EINVAL else
  (if (new_capacity_bytes >? buf_capacity_bytes b) || shrink_to_fit then
     match buf_allocator b with
     | AllocatorNull => undef
     | AllocatorMalloc =>
         match realloc (buf_data b) new_capacity_bytes with
         | None =>
             if new_capacity_bytes >? 0
             then put (mkBuffer None 0 0 (buf_allocator b)) ;; exit ENOMEM
             else put (mkBuffer None (buf_size_bytes b) new_capacity_bytes (buf_allocator b))
         | Some l =>
             put (mkBuffer (Some l) (buf_size_bytes b) new_capacity_bytes (buf_allocator b))
         end
     end
   else mret tt) ;;
  b ← gets id;
  when (new_capacity_bytes <? buf_size_bytes b) (modify (set_size new_capacity_bytes)).

Definition ArrowBufferReserve (additional_size_bytes : Z) : M ArrowBuffer unit :=
  b ← gets id;
  min_capacity_bytes ← i64 (buf_size_bytes b + additional_size_bytes);
  if min_capacity_bytes <=? buf_capacity_bytes b then mret tt else
  n ← _ArrowGrowByFactor (buf_capacity_bytes b) min_capacity_bytes;
  ArrowBufferResize n false.

(** [memcpy(buffer->data + buffer->size_bytes, bytes, |bytes|)] and the new size. *)
Definition ArrowBufferAppendUnsafe (bytes : list Z) : M ArrowBuffer unit :=
  b ← gets id;
  if zlen bytes >? 0 then
    l ← lift_opt (buf_data b);
    l' ← lift_opt (write_at l (buf_size_bytes b) bytes);
    put (mkBuffer (Some l') (buf_size_bytes b + zlen bytes)
           (buf_capacity_bytes b) (buf_allocator b))
  else mret tt.

Definition ArrowBufferAppend (bytes : list Z) : M ArrowBuffer unit :=
  ArrowBufferReserve (zlen bytes) ;; ArrowBufferAppendUnsafe bytes.

Definition ArrowBufferAppendInt8 (v : Z) := ArrowBufferAppend (le_bytes 1 v).
Definition ArrowBufferAppendUInt8 (v : Z) := ArrowBufferAppend (le_bytes 1 v).
Definition ArrowBufferAppendInt16 (v : Z) := ArrowBufferAppend (le_bytes 2 v).
Definition ArrowBufferAppendUInt16 (v : Z) := ArrowBufferAppend (le_bytes 2 v).
Definition ArrowBufferAppendInt32 (v : Z) := ArrowBufferAppend (le_bytes 4 v).
Definition ArrowBufferAppendUInt32 (v : Z) := ArrowBufferAppend (le_bytes 4 v).
Definition ArrowBufferAppendInt64 (v : Z) := ArrowBufferAppend (le_bytes 8 v).
Definition ArrowBufferAppendUInt64 (v : Z) := ArrowBufferAppend (le_bytes 8 v).
(** Doubles and floats are their bit patterns. *)
Definition ArrowBufferAppendDouble (v : Z) := ArrowBufferAppend (le_bytes 8 v).
Definition ArrowBufferAppendFloat (v : Z) := ArrowBufferAppend (le_bytes 4 v).

Definition ArrowBufferAppendFill (value size_bytes : Z) : M ArrowBuffer unit :=
  ArrowBufferReserve size_bytes ;;
  ArrowBufferAppendUnsafe (replicate (Z.to_nat size_bytes) (value mod 256)).

(** * Bits *)
Definition _ArrowkPrecedingBitmask : list Z := [0; 1; 3; 7; 15; 31; 63; 127].
Definition _ArrowkTrailingBitmask : list Z := [255; 254; 252; 248; 240; 224; 192; 128].

Definition _ArrowRoundUpToMultipleOf8 (value : Z) : Z := Z.land (value + 7) (Z.lnot 7).
Definition _ArrowBytesForBits (bits : Z) : Z :=
  Z.shiftr bits 3 + (if Z.land bits 7 =? 0 then 0 else 1).

Definition byte_at (bits : list Z) (i : Z) : option Z :=
  if 0 <=? i then bits !! Z.to_nat i else None.
Definition set_byte (bits : list Z) (i v : Z) : option (list Z) := write_at bits i [v].
Definition mask_at (table : list Z) (i : Z) : Z := default 0 (table !! Z.to_nat i).

Definition ArrowBitGet (bits : list Z) (i : Z) : option Z :=
  b ← byte_at bits (Z.shiftr i 3);
  Some (Z.land (Z.shiftr b (Z.land i 7)) 1).

(** [bits[i] &= mask; bits[i] |= (uint8_t)(fill & ~mask);] *)
Definition mask_byte (bits : list Z) (i mask fill : Z) : option (list Z) :=
  b ← byte_at bits i;
  set_byte bits i (Z.lor (Z.land b mask) (to_unsigned 8 (Z.land fill (Z.lnot mask)))).

Definition ArrowBitsSetTo (bits : list Z) (start_offset length bits_are_set : Z)
    : option (list Z) :=
  let i_begin := start_offset in
  let i_end := start_offset + length in
  let fill_byte := to_unsigned 8 (- bits_are_set) in
  let bytes_begin := i_begin ÷ 8 in
  let bytes_end := i_end ÷ 8 + 1 in
  let first_byte_mask := mask_at _ArrowkPrecedingBitmask (Z.rem i_begin 8) in
  let last_byte_mask := mask_at _ArrowkTrailingBitmask (Z.rem i_end 8) in
  if bytes_end =? bytes_begin + 1 then
    let only_byte_mask :=
      if Z.rem i_end 8 =? 0 then first_byte_mask
      else Z.lor first_byte_mask last_byte_mask in
    mask_byte bits bytes_begin only_byte_mask fill_byte
  else
    bits ← mask_byte bits bytes_begin first_byte_mask fill_byte;
    bits ← (if bytes_end - bytes_begin >? 2 then
              write_at bits (bytes_begin + 1)
                (replicate (Z.to_nat (bytes_end - bytes_begin - 2)) fill_byte)
            else Some bits);
    if Z.rem i_end 8 =? 0 then Some bits
    else mask_byte bits (bytes_end - 1) last_byte_mask fill_byte.

(** * Bitmaps *)
Record ArrowBitmap := mkBitmap { bm_buffer : ArrowBuffer; bm_size_bits : Z }.
Definition bm_buffer_lens : Lens ArrowBitmap ArrowBuffer :=
  mkLens bm_buffer (fun b m => mkBitmap b (bm_size_bits m)).

Definition ArrowBitmapInit : ArrowBitmap := mkBitmap ArrowBufferInit 0.

Definition ArrowBitmapReserve (additional_size_bits : Z) : M ArrowBitmap unit :=
  m ← gets id;
  min_capacity_bits ← i64 (bm_size_bits m + additional_size_bits);
  capacity_bits ← i64 (buf_capacity_bytes (bm_buffer m) * 8);
  if min_capacity_bits <=? capacity_bits then mret tt else
  zoom bm_buffer_lens
    (ArrowBufferReserve (_ArrowBytesForBits additional_size_bits) ;;
     b ← gets id;
     l ← lift_opt (buf_data b);
     l' ← lift_opt (set_byte l (buf_capacity_bytes b - 1) 0);
     modify (set_data (Some l'))).

Definition ArrowBitmapAppendUnsafe (bits_are_set length : Z) : M ArrowBitmap unit :=
  m ← gets id;
  l ← lift_opt (buf_data (bm_buffer m));
  l' ← lift_opt (ArrowBitsSetTo l (bm_size_bits m) length bits_are_set);
  size_bits ← i64 (bm_size_bits m + length);
  put (mkBitmap
         (set_size (_ArrowBytesForBits size_bits) (set_data (Some l') (bm_buffer m)))
         size_bits).

Definition ArrowBitmapAppend (bits_are_set length : Z) : M ArrowBitmap unit :=
  ArrowBitmapReserve length ;; ArrowBitmapAppendUnsafe bits_are_set length.

Definition ArrowBitmapReset : M ArrowBitmap unit :=
  zoom bm_buffer_lens ArrowBufferReset ;;
  modify (fun m => mkBitmap (bm_buffer m) 0).

End buffer.

(** * Invariant and contents *)

(** No allocation reaches [2^48] bytes (the user address space of the 64-bit platforms). *)
Class LibcBound `{Libc} := malloc_bound : forall n, malloc_ok n = true -> n < 2 ^ 48.

Lemma host_bound : LibcBound (H := host).
Proof. intros n Hn%Z.ltb_lt. lia. Qed.

(** A buffer owns a block of exactly its capacity and uses a prefix of it. *)
Record buffer_ok (b : ArrowBuffer) : Prop := {
  bok_alloc : buf_allocator b = AllocatorMalloc;
  bok_size : 0 <= buf_size_bytes b <= buf_capacity_bytes b;
  bok_block : zlen (block_of (buf_data b)) = buf_capacity_bytes b;
  bok_bound : buf_capacity_bytes b < 2 ^ 48;
  bok_bytes : Forall is_byte (block_of (buf_data b));
}.
(** The bytes appended so far. *)
Definition buf_content (b : ArrowBuffer) : list Z :=
  take (Z.to_nat (buf_size_bytes b)) (block_of (buf_data b)).
(** What a failed reallocation leaves. *)
Definition lost_buffer : ArrowBuffer := mkBuffer None 0 0 AllocatorMalloc.

Lemma lost_buffer_ok : buffer_ok lost_buffer.
Proof. by constructor. Qed.
#[export] Hint Resolve lost_buffer_ok : core.

Lemma zlen_buf_content b : buffer_ok b -> zlen (buf_content b) = buf_size_bytes b.
Proof.
  intros [_ Hs Hb _ _]. unfold buf_content. rewrite zlen_take. lia.
Qed.
Lemma buf_content_byte b : buffer_ok b -> Forall is_byte (buf_content b).
Proof. intros []. by apply Forall_take. Qed.

(** ** Words and offsets laid out in a buffer *)
(** The offsets of texts laid out one after another. *)
Fixpoint offsets_from (o : Z) (ts : list (list Z)) : list Z :=
  o :: match ts with [] => [] | t :: r => offsets_from (o + zlen t) r end.
Lemma flat_map_length n ws : length (flat_map (le_bytes n) ws) = (n * length ws)%nat.
Proof. induction ws; simpl; [lia|]. rewrite length_app, length_le_bytes. lia. Qed.
Lemma flat_map_snoc {A B} (f : A -> list B) l x : flat_map f (l ++ [x]) = flat_map f l ++ f x.
Proof. rewrite flat_map_app. simpl. by rewrite app_nil_r. Qed.
Lemma flat_map_lookup n ws i w : ws !! i = Some w ->
  take n (drop (n * i) (flat_map (le_bytes n) ws)) = le_bytes n w.
Proof.
  revert i. induction ws as [|x ws IH]; intros [|i] Hi; [done..| |].
  - injection Hi as ->. simpl. replace (n * 0)%nat with 0%nat by lia. rewrite drop_0.
    apply take_app_length'. by rewrite length_le_bytes.
  - simpl in Hi |- *. rewrite drop_app_ge by (rewrite length_le_bytes; lia).
    rewrite length_le_bytes. replace (n * S i - n)%nat with (n * i)%nat by lia. by apply IH.
Qed.

Lemma offsets_length o ts : length (offsets_from o ts) = S (length ts).
Proof. revert o. induction ts; intros; simpl; auto. Qed.
Lemma offsets_snoc o ts t :
  offsets_from o (ts ++ [t]) = offsets_from o ts ++ [o + zlen (concat (ts ++ [t]))].
Proof.
  revert o. induction ts as [|x ts IH]; intros o; simpl.
  - by rewrite app_nil_r.
  - f_equal. rewrite IH. f_equal. f_equal. rewrite zlen_app. lia.
Qed.
Lemma offsets_last o ts : offsets_from o ts !! length ts = Some (o + zlen (concat ts)).
Proof.
  induction ts as [|t ts _] using rev_ind.
  - simpl. f_equal. unfold zlen. simpl. lia.
  - rewrite offsets_snoc, length_app. simpl.
    rewrite lookup_app_r by (rewrite offsets_length; lia).
    rewrite offsets_length. by replace (length ts + 1 - S (length ts))%nat with 0%nat by lia.
Qed.

(** Reading inside the contents of a buffer. *)
Lemma read_content b off n :
  buffer_ok b -> 0 <= off -> 0 < n -> off + n <= buf_size_bytes b ->
  exists l, buf_data b = Some l /\
    read_at l off n = Some (take (Z.to_nat n) (drop (Z.to_nat off) (buf_content b))).
Proof.
  intros [_ Hs Hb _ _] Ho Hn Hle. destruct (buf_data b) as [l|] eqn:Hd.
  2:{ simpl in Hb. unfold zlen in Hb; simpl in Hb. lia. }
  exists l. split; [done|]. simpl in Hb. unfold read_at, buf_content. rewrite Hd; simpl.
  rewrite !(proj2 (Z.leb_le _ _)) by lia. simpl. f_equal.
  rewrite skipn_firstn_comm, take_take. f_equal. lia.
Qed.

Section buffer_facts.
Context `{Libc} {HB : LibcBound}.
Implicit Types b : ArrowBuffer.

(** Size of the block a growing [ArrowBufferReserve] asks for. *)
Definition grown_capacity b add : Z :=
  Z.max (2 * buf_capacity_bytes b) (buf_size_bytes b + add).

Lemma grow_spec {S} b n (Q : Z -> S -> Prop) E s :
  buffer_ok b -> Q (Z.max (2 * buf_capacity_bytes b) n) s ->
  wp (_ArrowGrowByFactor (buf_capacity_bytes b) n) Q E s.
Proof.
  intros [_ Hs _ Hc _] HQ. unfold _ArrowGrowByFactor. apply wp_bind.
  apply wp_i64; [unfold INT64_MIN, INT64_MAX; lia|]. apply wp_ret.
  replace (if _ >? n then _ else n) with (Z.max (2 * buf_capacity_bytes b) n); [done|].
  rewrite Z.gtb_ltb. case_match eqn:E'; [apply Z.ltb_lt in E'|apply Z.ltb_ge in E']; lia.
Qed.

Lemma resize_grow_spec b n :
  buffer_ok b -> buf_capacity_bytes b < n ->
  wp (ArrowBufferResize n false)
    (fun _ b' => buffer_ok b' /\ buf_content b' = buf_content b /\
       buf_size_bytes b' = buf_size_bytes b /\ buf_capacity_bytes b' = n)
    (fun c b' => c = ENOMEM /\ b' = lost_buffer /\ malloc_ok n = false) b.
Proof.
  intros Hok Hn. destruct Hok as [Ha Hs Hb Hc Hy] eqn:Hok'.
  unfold ArrowBufferResize, wp, mbind, M_bind, gets; simpl.
  rewrite (proj2 (Z.ltb_ge _ _)), Z.gtb_ltb, (proj2 (Z.ltb_lt _ _)), Ha by lia. simpl.
  destruct (malloc_ok n) eqn:Hm.
  - destruct (realloc_grows (buf_data b) n) as (l & Hl & Hz & Hp); [lia..|done|].
    apply realloc_Some in Hl as Hl'. destruct Hl' as (_ & _ & _ & _ & Hbytes).
    rewrite Hl. simpl. unfold when.
    rewrite (proj2 (Z.ltb_ge _ _)) by lia. simpl.
    assert (n < 2 ^ 48) by (by apply HB).
    split_and!; [constructor; simpl; auto; lia| |done..].
    unfold buf_content; simpl. rewrite <- Hp, take_take. f_equal. unfold zlen in *. lia.
  - unfold realloc. rewrite Hm, (proj2 (Z.ltb_ge n 0)), (proj2 (Z.eqb_neq n 0)) by lia. simpl.
    rewrite Z.gtb_ltb, (proj2 (Z.ltb_lt _ _)) by lia. simpl. done.
Qed.

Lemma reserve_spec b add :
  buffer_ok b -> 0 <= add <= 2 ^ 62 ->
  wp (ArrowBufferReserve add)
    (fun _ b' => buffer_ok b' /\ buf_content b' = buf_content b /\
       buf_size_bytes b' = buf_size_bytes b /\
       buf_size_bytes b + add <= buf_capacity_bytes b' /\
       (b' = b \/ buf_capacity_bytes b < buf_size_bytes b + add /\
                  buf_capacity_bytes b' = grown_capacity b add))
    (fun c b' => c = ENOMEM /\ b' = lost_buffer /\ malloc_ok (grown_capacity b add) = false) b.
Proof.
  intros Hok Hadd. pose proof Hok as [Ha Hs Hb Hc Hy].
  unfold ArrowBufferReserve. apply wp_bind, wp_gets; simpl.
  apply wp_bind, wp_i64; [unfold INT64_MIN, INT64_MAX; lia|].
  destruct (Z.leb_spec (buf_size_bytes b + add) (buf_capacity_bytes b)).
  { apply wp_ret. split_and!; auto. }
  apply wp_bind, grow_spec; [done|].
  eapply wp_conseq; [apply resize_grow_spec; [done|lia]|..]; simpl.
  - intros _ b' (? & ? & ? & Hcap). fold (grown_capacity b add) in Hcap.
    split_and!; auto; rewrite ?Hcap; unfold grown_capacity; lia.
  - done.
Qed.

Lemma append_unsafe_spec b bs E :
  buffer_ok b -> Forall is_byte bs -> buf_size_bytes b + zlen bs <= buf_capacity_bytes b ->
  wp (ArrowBufferAppendUnsafe bs)
    (fun _ b' => buffer_ok b' /\ buf_content b' = buf_content b ++ bs /\
       buf_capacity_bytes b' = buf_capacity_bytes b) E b.
Proof.
  intros Hok Hbs Hcap. pose proof Hok as [Ha Hs Hb Hc Hy].
  unfold ArrowBufferAppendUnsafe. apply wp_bind, wp_gets; simpl.
  rewrite Z.gtb_ltb. destruct (Z.ltb_spec 0 (zlen bs)) as [Hpos|Hpos].
  2:{ apply wp_ret. destruct bs; [by rewrite app_nil_r|]. unfold zlen in Hpos; simpl in Hpos. lia. }
  destruct (buf_data b) as [l|] eqn:Hd; simpl in *.
  2:{ unfold zlen in Hb; simpl in Hb. lia. }
  apply wp_bind, wp_ret. pose proof (write_at_Some l (buf_size_bytes b) bs) as Hw.
  apply wp_bind. eapply wp_lift_opt; [apply Hw; lia|].
  specialize (Hw ltac:(lia) ltac:(lia)).
  unfold wp, put; simpl. split_and!; [|unfold buf_content; simpl|done].
  - constructor; simpl; auto; [lia|..].
    + by erewrite write_at_len.
    + by eapply write_at_byte.
  - rewrite Hd; simpl. by erewrite write_at_take.
Qed.

(** Appending extends the contents by exactly the bytes given, or reports [ENOMEM] and
    leaves an empty buffer when the platform refuses the larger block. *)
Lemma append_spec b bs :
  buffer_ok b -> Forall is_byte bs -> zlen bs <= 2 ^ 62 ->
  wp (ArrowBufferAppend bs)
    (fun _ b' => buffer_ok b' /\ buf_content b' = buf_content b ++ bs)
    (fun c b' => c = ENOMEM /\ b' = lost_buffer /\
       malloc_ok (grown_capacity b (zlen bs)) = false) b.
Proof.
  intros Hok Hbs Hn. unfold ArrowBufferAppend. apply wp_bind.
  eapply wp_conseq; [apply reserve_spec; [done|pose proof (zlen_nonneg bs); lia]| |done].
  intros _ b' (Hok' & Hc & Hs & Hcap & _); simpl. rewrite <- Hc.
  eapply wp_conseq; [apply (append_unsafe_spec _ _ (fun _ _ => False)); auto; lia|by intros ?? (? & ? & ?)|done].
Qed.

Lemma append_fill_spec b v n :
  buffer_ok b -> 0 <= n <= 2 ^ 62 ->
  wp (ArrowBufferAppendFill v n)
    (fun _ b' => buffer_ok b' /\
       buf_content b' = buf_content b ++ replicate (Z.to_nat n) (v mod 256))
    (fun c b' => c = ENOMEM /\ b' = lost_buffer /\ malloc_ok (grown_capacity b n) = false) b.
Proof.
  intros Hok Hn. unfold ArrowBufferAppendFill. apply wp_bind.
  eapply wp_conseq; [apply reserve_spec; done| |done].
  intros _ b' (Hok' & Hc & Hs & Hcap & _); simpl. rewrite <- Hc.
  eapply wp_conseq; [apply (append_unsafe_spec _ _ (fun _ _ => False)); auto|by intros ?? (? & ? & ?)|done].
  - apply Forall_replicate. unfold is_byte. apply Z.mod_pos_bound. lia.
  - rewrite zlen_replicate. lia.
Qed.

(** After a reservation no append of at most the reserved size can fail, which is what
    lets the callers use the unchecked append. *)
Lemma reset_ok b : buffer_ok b -> ArrowBufferReset b = Ret tt lost_buffer.
Proof. intros [Ha _ _ _ _]. unfold ArrowBufferReset. cbv [mbind M_bind gets id]. rewrite Ha. by destruct (buf_data b). Qed.
End buffer_facts.

(** * Bit-level facts *)

(** Bit [i] of a block, in the least-significant-first order of Arrow bitmaps. *)
Definition bit_of (l : list Z) (i : Z) : bool :=
  Z.testbit (default 0 (l !! Z.to_nat (i / 8))) (i mod 8).

Lemma write_at_lookup l off bs l' j :
  write_at l off bs = Some l' -> 0 <= j ->
  l' !! Z.to_nat j =
    if (off <=? j) && (j <? off + zlen bs) then bs !! Z.to_nat (j - off) else l !! Z.to_nat j.
Proof.
  unfold write_at. destruct (_ && _) eqn:E; [|done]. intros [= <-] Hj.
  apply andb_prop in E as [E1 E2]. apply Z.leb_le in E1, E2. unfold zlen in *.
  destruct (Z.leb_spec off j) as [Hoj|Hoj]; simpl.
  - rewrite lookup_app_r by (rewrite length_take; lia).
    rewrite length_take. replace (Z.to_nat j - _)%nat with (Z.to_nat (j - off)) by lia.
    destruct (Z.ltb_spec j (off + Z.of_nat (length bs))).
    + by rewrite lookup_app_l by lia.
    + rewrite lookup_app_r by lia. rewrite lookup_drop. f_equal. lia.
  - rewrite lookup_app_l by (rewrite length_take; lia). apply lookup_take_lt. lia.
Qed.

Lemma bit_of_write_at l off bs l' j :
  write_at l off bs = Some l' -> 0 <= j ->
  bit_of l' j =
    if (off <=? j / 8) && (j / 8 <? off + zlen bs)
    then Z.testbit (default 0 (bs !! Z.to_nat (j / 8 - off))) (j mod 8) else bit_of l j.
Proof.
  intros Hw Hj. unfold bit_of.
  rewrite (write_at_lookup _ _ _ _ _ Hw) by (by apply Z.div_pos).
  by case_match.
Qed.

Lemma eight_cases k : 0 <= k < 8 ->
  k = 0 \/ k = 1 \/ k = 2 \/ k = 3 \/ k = 4 \/ k = 5 \/ k = 6 \/ k = 7.
Proof. lia. Qed.
Lemma preceding_bit k j : 0 <= k < 8 -> 0 <= j < 8 ->
  Z.testbit (mask_at _ArrowkPrecedingBitmask k) j = (j <? k).
Proof.
  intros Hk%eight_cases Hj%eight_cases.
  destruct_or! Hk; destruct_or! Hj; subst; reflexivity.
Qed.
Lemma trailing_bit k j : 0 <= k < 8 -> 0 <= j < 8 ->
  Z.testbit (mask_at _ArrowkTrailingBitmask k) j = (k <=? j).
Proof.
  intros Hk%eight_cases Hj%eight_cases.
  destruct_or! Hk; destruct_or! Hj; subst; reflexivity.
Qed.

Definition fill_of (v : bool) : Z := to_unsigned 8 (- Z.b2z v).
Lemma fill_bit v j : 0 <= j < 8 -> Z.testbit (fill_of v) j = v.
Proof. intros Hj%eight_cases. destruct v; destruct_or! Hj; subst; reflexivity. Qed.
Lemma fill_byte v : is_byte (fill_of v).
Proof. unfold is_byte. destruct v; vm_compute; split; congruence. Qed.

Lemma is_byte_ones a : is_byte a <-> Z.land a (Z.ones 8) = a.
Proof.
  rewrite Z.land_ones by lia. unfold is_byte. split; intros Ha.
  - by apply Z.mod_small.
  - rewrite <- Ha. by apply Z.mod_pos_bound.
Qed.
Lemma byte_land a m : is_byte a -> is_byte (Z.land a m).
Proof.
  rewrite !is_byte_ones. intros Ha.
  by rewrite <- Z.land_assoc, (Z.land_comm m), Z.land_assoc, Ha.
Qed.
Lemma byte_lor a b : is_byte a -> is_byte b -> is_byte (Z.lor a b).
Proof. rewrite !is_byte_ones. intros Ha Hb. by rewrite Z.land_lor_distr_l, Ha, Hb. Qed.
Lemma to_unsigned_byte z : is_byte (to_unsigned 8 z).
Proof. unfold is_byte, to_unsigned. apply Z.mod_pos_bound. lia. Qed.
Lemma to_unsigned_bit z j : 0 <= j < 8 -> Z.testbit (to_unsigned 8 z) j = Z.testbit z j.
Proof. intros. unfold to_unsigned. apply Z.mod_pow2_bits_low. lia. Qed.

(** [bits[i] = (bits[i] & mask) | (fill & ~mask)] keeps the bits of the mask. *)
Lemma mask_byte_spec l i mask v :
  Forall is_byte l -> 0 <= i < zlen l ->
  exists l', mask_byte l i mask (fill_of v) = Some l' /\ zlen l' = zlen l /\
    Forall is_byte l' /\
    (forall j, 0 <= j -> bit_of l' j =
       if j / 8 =? i then (if Z.testbit mask (j mod 8) then bit_of l j else v)
       else bit_of l j).
Proof.
  intros Hl Hi. unfold mask_byte, byte_at. rewrite (proj2 (Z.leb_le _ _)) by lia.
  destruct (l !! Z.to_nat i) as [b|] eqn:Hb; [|apply lookup_ge_None in Hb; unfold zlen in *; lia].
  cbn [mbind option_bind]. pose proof (Forall_lookup_1 _ _ _ _ Hl Hb) as Hbyte. unfold set_byte.
  set (v' := Z.lor _ _).
  assert (zlen [v'] = 1) as H1 by done.
  rewrite write_at_Some by lia. eexists. split; [done|].
  pose proof (write_at_Some l i [v']) as Hw. specialize (Hw ltac:(lia) ltac:(lia)).
  split_and!.
  - by eapply write_at_len.
  - eapply write_at_byte; [done..|]. constructor; [|done]. subst v'.
    apply byte_lor; [by apply byte_land|apply to_unsigned_byte].
  - intros j Hj. rewrite (bit_of_write_at _ _ _ _ _ Hw Hj), H1.
    pose proof (Z.mod_pos_bound j 8 ltac:(lia)) as Hm.
    destruct (Z.eqb_spec (j / 8) i) as [Hji|Hne].
    + rewrite Hji, (proj2 (Z.leb_le _ _)), (proj2 (Z.ltb_lt _ _)), Z.sub_diag by lia. simpl.
      subst v'. rewrite Z.lor_spec, Z.land_spec, to_unsigned_bit, Z.land_spec, Z.lnot_spec by lia.
      rewrite fill_bit by lia. unfold bit_of. rewrite Hji, Hb. simpl.
      destruct (Z.testbit mask (j mod 8)), (Z.testbit b (j mod 8)), v; done.
    + case_match eqn:E; [|done]. apply andb_prop in E as [E1 E2].
      apply Z.leb_le in E1. apply Z.ltb_lt in E2. lia.
Qed.

Lemma fill_bytes_spec l off n v :
  Forall is_byte l -> 0 <= off -> 0 <= n -> off + n <= zlen l ->
  exists l', write_at l off (replicate (Z.to_nat n) (fill_of v)) = Some l' /\
    zlen l' = zlen l /\ Forall is_byte l' /\
    (forall j, 0 <= j -> bit_of l' j =
       if (off <=? j / 8) && (j / 8 <? off + n) then v else bit_of l j).
Proof.
  intros Hl Ho Hn Hle. pose proof (write_at_Some l off (replicate (Z.to_nat n) (fill_of v))) as Hw.
  rewrite zlen_replicate in Hw. specialize (Hw Ho ltac:(lia)). eexists. split; [done|]. split_and!.
  - by eapply write_at_len.
  - eapply write_at_byte; [done..|]. apply Forall_replicate, fill_byte.
  - intros j Hj. rewrite (bit_of_write_at _ _ _ _ _ Hw Hj), zlen_replicate.
    replace (Z.of_nat (Z.to_nat n)) with n by lia.
    case_match eqn:E; [|done]. apply andb_prop in E as [E1 E2].
    apply Z.leb_le in E1. apply Z.ltb_lt in E2.
    rewrite lookup_replicate_2 by lia. apply fill_bit, Z.mod_pos_bound. lia.
Qed.

Lemma quot_rem_8 z : 0 <= z -> z ÷ 8 = z / 8 /\ Z.rem z 8 = z mod 8.
Proof. intros. split; [by apply Z.quot_div_nonneg|by apply Z.rem_mod_nonneg]. Qed.

(** [ArrowBitsSetTo] sets exactly the bits [start .. start+len) and touches no other bit,
    for a non-empty range inside the block. *)
Lemma bits_set_to_spec l start len v :
  Forall is_byte l -> 0 <= start -> 0 < len -> start + len <= 8 * zlen l ->
  exists l', ArrowBitsSetTo l start len (Z.b2z v) = Some l' /\ zlen l' = zlen l /\
    Forall is_byte l' /\
    (forall j, 0 <= j ->
       bit_of l' j = if (start <=? j) && (j <? start + len) then v else bit_of l j).
Proof.
  intros Hl Hs Hlen Hin. unfold ArrowBitsSetTo. fold (fill_of v). cbv zeta.
  destruct (quot_rem_8 start) as [-> ->]; [lia|].
  destruct (quot_rem_8 (start + len)) as [-> ->]; [lia|].
  pose proof (Z.mod_pos_bound start 8 ltac:(lia)) as Hsm.
  pose proof (Z.mod_pos_bound (start + len) 8 ltac:(lia)) as Hem.
  pose proof (Z.div_mod start 8 ltac:(lia)) as Hsd.
  pose proof (Z.div_mod (start + len) 8 ltac:(lia)) as Hed.
  destruct (Z.eqb_spec ((start + len) / 8 + 1) (start / 8 + 1)) as [Hone|Hmany].
  - (* one byte *)
    rewrite (proj2 (Z.eqb_neq _ 0)) by lia.
    destruct (mask_byte_spec l (start / 8)
      (Z.lor (mask_at _ArrowkPrecedingBitmask (start mod 8))
             (mask_at _ArrowkTrailingBitmask ((start + len) mod 8))) v)
      as (l' & Hl' & ? & ? & Hbits); [done|lia|].
    exists l'. split_and!; [done..|]. intros j Hj. rewrite Hbits by done.
    pose proof (Z.mod_pos_bound j 8 ltac:(lia)). pose proof (Z.div_mod j 8 ltac:(lia)).
    rewrite Z.lor_spec, preceding_bit, trailing_bit by lia.
    repeat zcase; simpl; try done; lia.
  - (* the first byte, whole bytes, and the last byte *)
    destruct (mask_byte_spec l (start / 8) (mask_at _ArrowkPrecedingBitmask (start mod 8)) v)
      as (l1 & Hl1 & Hz1 & Hb1 & Hbits1); [done|lia|].
    rewrite Hl1. cbn [mbind option_bind].
    assert (exists l2,
      (if (start + len) / 8 + 1 - start / 8 >? 2
       then write_at l1 (start / 8 + 1)
              (replicate (Z.to_nat ((start + len) / 8 + 1 - start / 8 - 2)) (fill_of v))
       else Some l1) = Some l2 /\ zlen l2 = zlen l1 /\ Forall is_byte l2 /\
      forall j, 0 <= j -> bit_of l2 j =
        if (start / 8 + 1 <=? j / 8) && (j / 8 <? (start + len) / 8) then v else bit_of l1 j)
      as (l2 & Hl2 & Hz2 & Hb2 & Hbits2).
    { rewrite Z.gtb_ltb. destruct (Z.ltb_spec 2 ((start + len) / 8 + 1 - start / 8)).
      - destruct (fill_bytes_spec l1 (start / 8 + 1) ((start + len) / 8 + 1 - start / 8 - 2) v)
          as (l2 & Hl2 & ? & ? & Hbits2); [done|lia..|].
        exists l2. split_and!; [done..|]. intros j Hj. rewrite Hbits2 by done.
        by replace (start / 8 + 1 + _) with ((start + len) / 8) by lia.
      - exists l1. split_and!; [done..|]. intros j Hj. repeat zcase; simpl; try done; lia. }
    rewrite Hl2. cbn [mbind option_bind].
    assert (forall j, 0 <= j -> bit_of l2 j =
      if (start <=? j) && (j <? (start + len) / 8 * 8) then v else bit_of l j) as Hbits12.
    { intros j Hj. rewrite Hbits2, Hbits1 by done.
      pose proof (Z.mod_pos_bound j 8 ltac:(lia)). pose proof (Z.div_mod j 8 ltac:(lia)).
      rewrite preceding_bit by lia. repeat zcase; simpl; try done; lia. }
    destruct (Z.eqb_spec ((start + len) mod 8) 0) as [He0|He0].
    + exists l2. split_and!; [done|lia|done|]. intros j Hj. rewrite Hbits12 by done.
      by replace ((start + len) / 8 * 8) with (start + len) by lia.
    + destruct (mask_byte_spec l2 ((start + len) / 8 + 1 - 1)
        (mask_at _ArrowkTrailingBitmask ((start + len) mod 8)) v)
        as (l3 & Hl3 & ? & ? & Hbits3); [done|lia|].
      exists l3. split_and!; [done|lia|done|]. intros j Hj. rewrite Hbits3, Hbits12 by done.
      pose proof (Z.mod_pos_bound j 8 ltac:(lia)). pose proof (Z.div_mod j 8 ltac:(lia)).
      rewrite trailing_bit by lia. repeat zcase; simpl; try done; lia.
Qed.

(** A single-bit read agrees with the bit order used for writing. *)
Lemma bit_get_spec l i :
  0 <= i < 8 * zlen l -> ArrowBitGet l i = Some (Z.b2z (bit_of l i)).
Proof.
  intros Hi. unfold ArrowBitGet, byte_at, bit_of.
  rewrite Z.shiftr_div_pow2 by lia. change (2 ^ 3) with 8.
  rewrite (proj2 (Z.leb_le _ _)) by (apply Z.div_pos; lia).
  replace (Z.land i 7) with (i mod 8) by (symmetry; apply (Z.land_ones i 3); lia).
  destruct (l !! Z.to_nat (i / 8)) as [b|] eqn:Hb; cbn [mbind option_bind default from_option].
  - f_equal. change 1 with (Z.ones 1). rewrite Z.land_ones by lia. change (2 ^ 1) with 2.
    unfold id. rewrite <- Z.bit0_mod, Z.shiftr_spec by lia. by rewrite Z.add_0_l.
  - apply lookup_ge_None in Hb. unfold zlen in Hi.
    pose proof (Z.div_lt_upper_bound i 8 (Z.of_nat (length l)) ltac:(lia) ltac:(lia)).
    pose proof (Z.div_pos i 8). lia.
Qed.

Lemma bytes_for_bits_ceil n : 0 <= n -> _ArrowBytesForBits n = (n + 7) / 8.
Proof.
  intros. unfold _ArrowBytesForBits. rewrite Z.shiftr_div_pow2 by lia. change (2 ^ 3) with 8.
  replace (Z.land n 7) with (n mod 8) by (symmetry; apply (Z.land_ones n 3); lia).
  destruct (Z.eqb_spec (n mod 8) 0); Z.to_euclidean_division_equations; lia.
Qed.

(** * Bitmaps as lists of booleans *)
Record bitmap_ok (m : ArrowBitmap) : Prop := {
  bmok_buffer : buffer_ok (bm_buffer m);
  bmok_size : 0 <= bm_size_bits m;
  bmok_bytes : buf_size_bytes (bm_buffer m) = _ArrowBytesForBits (bm_size_bits m);
}.
Definition bitmap_bits (m : ArrowBitmap) : list bool :=
  (fun i => bit_of (block_of (buf_data (bm_buffer m))) (Z.of_nat i)) <$>
    seq 0 (Z.to_nat (bm_size_bits m)).

Lemma length_bitmap_bits m : length (bitmap_bits m) = Z.to_nat (bm_size_bits m).
Proof. unfold bitmap_bits. by rewrite length_fmap, length_seq. Qed.
Lemma bitmap_bits_lookup m i : 0 <= i < bm_size_bits m ->
  bitmap_bits m !! Z.to_nat i = Some (bit_of (block_of (buf_data (bm_buffer m))) i).
Proof.
  intros. unfold bitmap_bits. rewrite list_lookup_fmap, lookup_seq_lt by lia.
  simpl. f_equal. f_equal. lia.
Qed.
Lemma bitmap_init_ok : bitmap_ok ArrowBitmapInit.
Proof. constructor; [apply lost_buffer_ok|done..]. Qed.
#[export] Hint Resolve bitmap_init_ok : core.

Lemma content_bit_of b b' j :
  buf_content b' = buf_content b -> buf_size_bytes b' = buf_size_bytes b ->
  0 <= j < 8 * buf_size_bytes b ->
  bit_of (block_of (buf_data b')) j = bit_of (block_of (buf_data b)) j.
Proof.
  unfold buf_content, bit_of. intros Hc Hs Hj. rewrite Hs in Hc.
  assert (0 <= j / 8 < buf_size_bytes b) by (Z.to_euclidean_division_equations; lia).
  rewrite <- (lookup_take_lt _ (Z.to_nat (buf_size_bytes b))) by lia. rewrite Hc.
  by rewrite lookup_take_lt by lia.
Qed.

Section bitmap_facts.
Context `{Libc} {HB : LibcBound}.

Lemma bitmap_reserve_spec m n :
  bitmap_ok m -> 0 <= n <= 2 ^ 50 ->
  wp (ArrowBitmapReserve n)
    (fun _ m' => bitmap_ok m' /\ bitmap_bits m' = bitmap_bits m /\
       bm_size_bits m' = bm_size_bits m /\
       bm_size_bits m + n <= 8 * buf_capacity_bytes (bm_buffer m'))
    (fun c m' => c = ENOMEM /\ bm_buffer m' = lost_buffer /\
       malloc_ok (grown_capacity (bm_buffer m) (_ArrowBytesForBits n)) = false) m.
Proof.
  intros [Hok Hsz Hby] Hn. pose proof Hok as [_ Hs _ Hcap _].
  pose proof Hby as Hby'. rewrite bytes_for_bits_ceil in Hby' by done.
  assert (bm_size_bits m <= 8 * buf_size_bytes (bm_buffer m))
    by (rewrite Hby'; Z.to_euclidean_division_equations; lia).
  unfold ArrowBitmapReserve. apply wp_bind, wp_gets; simpl.
  apply wp_bind, wp_i64; [unfold INT64_MIN, INT64_MAX; lia|].
  apply wp_bind, wp_i64; [unfold INT64_MIN, INT64_MAX; lia|].
  destruct (Z.leb_spec (bm_size_bits m + n) (buf_capacity_bytes (bm_buffer m) * 8)).
  { apply wp_ret. split_and!; [by constructor|done..|lia]. }
  apply wp_zoom, wp_bind. simpl.
  pose proof (bytes_for_bits_ceil n ltac:(lia)) as Hceil.
  eapply wp_conseq; [apply reserve_spec; [done|rewrite Hceil; Z.to_euclidean_division_equations; lia]| |done].
  intros _ b' (Hok' & Hc' & Hs' & Hcap' & _); simpl.
  rewrite Hceil in Hcap'.
  apply wp_bind, wp_gets; simpl.
  pose proof Hok' as [Ha2 Hs2 Hb2 Hc2 Hy2].
  destruct (buf_data b') as [l|] eqn:Hd; simpl in Hb2.
  2:{ unfold zlen in Hb2; simpl in Hb2. Z.to_euclidean_division_equations; lia. }
  apply wp_bind, wp_ret. unfold set_byte.
  pose proof (write_at_Some l (buf_capacity_bytes b' - 1) [0]) as Hw.
  change (zlen [0]) with 1 in Hw. specialize (Hw ltac:(Z.to_euclidean_division_equations; lia) ltac:(lia)).
  apply wp_bind. eapply wp_lift_opt; [exact Hw|]. apply wp_modify.
  unfold set_data; simpl. split_and!.
  - constructor; simpl; [|done|by rewrite Hs'].
    constructor; simpl; auto; [by erewrite write_at_len|].
    eapply write_at_byte; [done..|]. by repeat constructor.
  - unfold bitmap_bits; simpl. apply list_fmap_ext. intros i x Hi%lookup_seq. 
    destruct Hi as [-> Hi]. rewrite (bit_of_write_at _ _ _ _ _ Hw) by lia.
    change (zlen [0]) with 1.
    assert (Z.of_nat (0 + i) < bm_size_bits m) by lia.
    rewrite (proj2 (Z.leb_gt _ _)).
    2:{ apply Z.div_lt_upper_bound; Z.to_euclidean_division_equations; lia. }
    simpl. change l with (block_of (Some l)). rewrite <- Hd.
    apply content_bit_of; [done..|lia].
  - done.
  - Z.to_euclidean_division_equations; lia.
Qed.

(** The unchecked append extends the bitmap inside its capacity. *)
Lemma bitmap_append_unsafe_spec m v n E :
  bitmap_ok m -> 0 < n -> bm_size_bits m + n <= 8 * buf_capacity_bytes (bm_buffer m) ->
  wp (ArrowBitmapAppendUnsafe (Z.b2z v) n)
    (fun _ m' => bitmap_ok m' /\ bitmap_bits m' = bitmap_bits m ++ replicate (Z.to_nat n) v /\
       buf_capacity_bytes (bm_buffer m') = buf_capacity_bytes (bm_buffer m)) E m.
Proof.
  intros [Hok Hsz Hby] Hn Hcap. pose proof Hok as [Ha Hs Hb Hc Hy].
  unfold ArrowBitmapAppendUnsafe. apply wp_bind, wp_gets; simpl.
  destruct (buf_data (bm_buffer m)) as [l|] eqn:Hd; simpl in Hb, Hy.
  2:{ unfold zlen in Hb; simpl in Hb. lia. }
  apply wp_bind, wp_ret.
  destruct (bits_set_to_spec l (bm_size_bits m) n v) as (l' & Hl' & Hz' & Hy' & Hbits);
    [done|lia..|].
  apply wp_bind. eapply wp_lift_opt; [exact Hl'|].
  apply wp_bind, wp_i64; [unfold INT64_MIN, INT64_MAX; lia|]. unfold wp, put.
  pose proof (bytes_for_bits_ceil (bm_size_bits m + n) ltac:(lia)) as Hceil.
  split_and!; [| |done].
  - constructor; simpl; [|lia|done].
    constructor; simpl; auto; [|by rewrite Hz'].
    rewrite Hceil. Z.to_euclidean_division_equations; lia.
  - apply list_eq_same_length with (n := Z.to_nat (bm_size_bits m + n)).
    { rewrite length_app, length_bitmap_bits, length_replicate. lia. }
    { by rewrite length_bitmap_bits. }
    intros i x y Hi Hx Hy2.
    replace i with (Z.to_nat (Z.of_nat i)) in Hx by lia.
    rewrite bitmap_bits_lookup in Hx by (simpl; lia). simpl in Hx. injection Hx as <-.
    rewrite Hbits by lia.
    destruct (Z.ltb_spec (Z.of_nat i) (bm_size_bits m + n)) as [_|?]; [|lia].
    destruct (Z.leb_spec (bm_size_bits m) (Z.of_nat i)) as [Hge|Hlt]; simpl.
    + rewrite lookup_app_r in Hy2 by (rewrite length_bitmap_bits; lia).
      apply lookup_replicate in Hy2 as [-> _]. done.
    + rewrite lookup_app_l in Hy2 by (rewrite length_bitmap_bits; lia).
      replace i with (Z.to_nat (Z.of_nat i)) in Hy2 by lia.
      rewrite bitmap_bits_lookup, Hd in Hy2 by lia. by injection Hy2.
Qed.

(** Appending to a bitmap appends the booleans. *)
Lemma bitmap_append_spec m v n :
  bitmap_ok m -> 0 < n <= 2 ^ 50 ->
  wp (ArrowBitmapAppend (Z.b2z v) n)
    (fun _ m' => bitmap_ok m' /\ bitmap_bits m' = bitmap_bits m ++ replicate (Z.to_nat n) v)
    (fun c m' => c = ENOMEM /\ bm_buffer m' = lost_buffer /\
       malloc_ok (grown_capacity (bm_buffer m) (_ArrowBytesForBits n)) = false) m.
Proof.
  intros Hok Hn. unfold ArrowBitmapAppend. apply wp_bind.
  eapply wp_conseq; [apply bitmap_reserve_spec; [done|lia]| |done].
  intros _ m' (Hok' & Hb & Hs & Hcap); simpl. rewrite <- Hb, <- Hs in *.
  eapply wp_conseq;
    [apply (bitmap_append_unsafe_spec _ _ _ (fun _ _ => False)); [done|lia..]| |done].
  by intros ?? (? & ? & ?).
Qed.
End bitmap_facts.

(** * Properties *)
Section properties.
Context `{Libc} `{!LibcBound}.

(** C40: Appending bytes to a well-formed buffer never writes outside its block and never
    overflows; it extends the contents by exactly those bytes and keeps the buffer
    well-formed, or, when the platform refuses the grown block, returns [ENOMEM] and leaves
    the empty buffer. *)
Theorem ArrowBufferAppend_correct (b : ArrowBuffer) (bs : list Z)
  (Hok : buffer_ok b) (Hbytes : Forall is_byte bs) (Hlen : zlen bs <= 2 ^ 62) :
  wp (ArrowBufferAppend bs)
    (fun _ b' => buffer_ok b' /\ buf_content b' = buf_content b ++ bs)
    (fun c b' => c = ENOMEM /\ b' = lost_buffer /\
       malloc_ok (grown_capacity b (zlen bs)) = false) b.
Proof. by apply append_spec. Qed.

(** After a successful reservation the unchecked append of at most the reserved number
    of bytes is defined (it stays inside the block) and cannot fail. *)
Theorem ArrowBufferReserve_covers_appends (b : ArrowBuffer) (add : Z) (bs : list Z)
  (Hok : buffer_ok b) (Hadd : 0 <= add <= 2 ^ 62)
  (Hbytes : Forall is_byte bs) (Hlen : zlen bs <= add) :
  wp (ArrowBufferReserve add)
    (fun _ b1 => wp (ArrowBufferAppendUnsafe bs)
       (fun _ b2 => buffer_ok b2 /\ buf_content b2 = buf_content b ++ bs /\
          buf_capacity_bytes b2 = buf_capacity_bytes b1) (fun _ _ => False) b1)
    (fun c b1 => c = ENOMEM /\ b1 = lost_buffer) b.
Proof.
  eapply wp_conseq; [by apply reserve_spec| |by intros c b1 (-> & -> & _)].
  intros _ b1 (Hok1 & Hc & Hs & Hcap & _). rewrite <- Hc. apply append_unsafe_spec; [done..|lia].
Qed.

(** [ArrowBitsSetTo] on a non-empty range inside a block sets exactly the bits of the
    range to the given value and leaves every other bit of the block as it was. *)
Theorem ArrowBitsSetTo_exact (l : list Z) (start len : Z) (v : bool)
  (Hl : Forall is_byte l) (Hstart : 0 <= start) (Hlen : 0 < len)
  (Hin : start + len <= 8 * zlen l) :
  exists l', ArrowBitsSetTo l start len (Z.b2z v) = Some l' /\ zlen l' = zlen l /\
    forall j, 0 <= j < 8 * zlen l ->
      ArrowBitGet l' j =
        if (start <=? j) && (j <? start + len) then Some (Z.b2z v) else ArrowBitGet l j.
Proof.
  destruct (bits_set_to_spec l start len v) as (l' & Hl' & Hz & _ & Hbits); [done|lia..|].
  exists l'. split_and!; [done..|]. intros j Hj.
  rewrite !bit_get_spec, Hbits by lia. by destruct (_ && _).
Qed.

(** An empty range starting at a byte boundary is not left alone: the byte after it is
    overwritten entirely (and a range ending at the end of the block is an access outside). *)
Theorem ArrowBitsSetTo_empty_range_clobbers :
  ArrowBitsSetTo [0; 0] 8 0 1 = Some [0; 255] /\ ArrowBitsSetTo [0; 0] 16 0 1 = None.
Proof. done. Qed.

(** Appending [n > 0] equal bits to a well-formed bitmap appends [n] booleans to the
    sequence it stands for (earlier bits are kept although bytes are shared), or reports
    [ENOMEM]. *)
Theorem ArrowBitmapAppend_correct (m : ArrowBitmap) (v : bool) (n : Z)
  (Hok : bitmap_ok m) (Hn : 0 < n <= 2 ^ 50) :
  wp (ArrowBitmapAppend (Z.b2z v) n)
    (fun _ m' => bitmap_ok m' /\ bitmap_bits m' = bitmap_bits m ++ replicate (Z.to_nat n) v)
    (fun c m' => c = ENOMEM /\ bm_buffer m' = lost_buffer) m.
Proof.
  eapply wp_conseq; [by apply bitmap_append_spec|done|by intros c m' (-> & ? & _)].
Qed.
End properties.

Section witnesses.
  #[local] Existing Instances host host_bound.

Lemma ArrowBufferAppend_witness :
  wp (ArrowBufferAppend [1; 2; 3])
    (fun _ b' => buffer_ok b' /\ buf_content b' = [1; 2; 3])
    (fun c b' => c = ENOMEM /\ b' = lost_buffer /\ malloc_ok 3 = false) ArrowBufferInit.
Proof.
  apply (ArrowBufferAppend_correct ArrowBufferInit [1; 2; 3]).
  - exact lost_buffer_ok.
  - repeat constructor; done.
  - vm_compute. done.
Defined.

Lemma ArrowBufferReserve_witness :
  wp (ArrowBufferReserve 8)
    (fun _ b1 => wp (ArrowBufferAppendUnsafe [7; 7])
       (fun _ b2 => buffer_ok b2 /\ buf_content b2 = [7; 7] /\
          buf_capacity_bytes b2 = buf_capacity_bytes b1) (fun _ _ => False) b1)
    (fun c b1 => c = ENOMEM /\ b1 = lost_buffer) ArrowBufferInit.
Proof.
  apply (ArrowBufferReserve_covers_appends ArrowBufferInit 8 [7; 7]).
  - exact lost_buffer_ok.
  - lia.
  - repeat constructor; done.
  - vm_compute. done.
Defined.

Lemma ArrowBitsSetTo_witness :
  exists l', ArrowBitsSetTo [0; 0; 0] 3 14 1 = Some l' /\ zlen l' = 3 /\
    forall j, 0 <= j < 24 ->
      ArrowBitGet l' j =
        if (3 <=? j) && (j <? 17) then Some 1 else ArrowBitGet [0; 0; 0] j.
Proof.
  apply (ArrowBitsSetTo_exact [0; 0; 0] 3 14 true).
  - repeat constructor; done.
  - lia.
  - lia.
  - vm_compute. done.
Defined.

Lemma ArrowBitmapAppend_witness :
  wp (ArrowBitmapAppend 1 11)
    (fun _ m' => bitmap_ok m' /\ bitmap_bits m' = replicate 11 true)
    (fun c m' => c = ENOMEM /\ bm_buffer m' = lost_buffer) ArrowBitmapInit.
Proof.
  apply (ArrowBitmapAppend_correct ArrowBitmapInit true 11).
  - exact bitmap_init_ok.
  - lia.
Defined.
End witnesses.
