(* ===== verification/Bitmap.v ===== *)
(** nanoarrow's operations on single bits, bit counting and the bulk appends of validity bitmaps
    (c/vendor/nanoarrow/nanoarrow.h).  The theorems give the bits after a bulk append and the
    count of a range, and the inputs on which each leaves its memory. *)
From stdpp Require Import base tactics list numbers option.
From Stdlib Require Import ZArith Lia.
From S2P Require Import Prelude CLib Buffer.

(** * Single bits *)
Definition _ArrowkBitmask : list Z := [1; 2; 4; 8; 16; 32; 64; 128].
Definition _ArrowkFlippedBitmask : list Z := [254; 253; 251; 247; 239; 223; 191; 127].
Definition _ArrowkBytePopcount : list Z :=
  [0; 1; 1; 2; 1; 2; 2; 3; 1; 2; 2; 3; 2; 3; 3; 4; 1; 2; 2; 3; 2; 3; 3; 4; 2; 3; 3; 4; 3; 4; 4;
   5; 1; 2; 2; 3; 2; 3; 3; 4; 2; 3; 3; 4; 3; 4; 4; 5; 2; 3; 3; 4; 3; 4; 4; 5; 3; 4; 4; 5; 4; 5;
   5; 6; 1; 2; 2; 3; 2; 3; 3; 4; 2; 3; 3; 4; 3; 4; 4; 5; 2; 3; 3; 4; 3; 4; 4; 5; 3; 4; 4; 5; 4;
   5; 5; 6; 2; 3; 3; 4; 3; 4; 4; 5; 3; 4; 4; 5; 4; 5; 5; 6; 3; 4; 4; 5; 4; 5; 5; 6; 4; 5; 5; 6;
   5; 6; 6; 7; 1; 2; 2; 3; 2; 3; 3; 4; 2; 3; 3; 4; 3; 4; 4; 5; 2; 3; 3; 4; 3; 4; 4; 5; 3; 4; 4;
   5; 4; 5; 5; 6; 2; 3; 3; 4; 3; 4; 4; 5; 3; 4; 4; 5; 4; 5; 5; 6; 3; 4; 4; 5; 4; 5; 5; 6; 4; 5;
   5; 6; 5; 6; 6; 7; 2; 3; 3; 4; 3; 4; 4; 5; 3; 4; 4; 5; 4; 5; 5; 6; 3; 4; 4; 5; 4; 5; 5; 6; 4;
   5; 5; 6; 5; 6; 6; 7; 3; 4; 4; 5; 4; 5; 5; 6; 4; 5; 5; 6; 5; 6; 6; 7; 4; 5; 5; 6; 5; 6; 6; 7;
   5; 6; 6; 7; 6; 7; 7; 8].

Definition _ArrowRoundDownToMultipleOf8 (value : Z) : Z := value ÷ 8 * 8.

(** [bits[i / 8] = f(bits[i / 8], i % 8)] *)
Definition change_byte (bits : list Z) (i : Z) (f : Z -> Z -> Z) : option (list Z) :=
  b ← byte_at bits (i ÷ 8); set_byte bits (i ÷ 8) (f b (Z.rem i 8)).
Definition ArrowBitSet (bits : list Z) (i : Z) : option (list Z) :=
  change_byte bits i (fun b k => Z.lor b (mask_at _ArrowkBitmask k)).
Definition ArrowBitClear (bits : list Z) (i : Z) : option (list Z) :=
  change_byte bits i (fun b k => Z.land b (mask_at _ArrowkFlippedBitmask k)).
(** The parameter is a [uint8_t]. *)
Definition ArrowBitSetTo (bits : list Z) (i bit_is_set : Z) : option (list Z) :=
  let bit_is_set := to_unsigned 8 bit_is_set in
  let flag := if bit_is_set =? 0 then 0 else 1 in
  change_byte bits i (fun b k =>
    Z.lxor b (Z.land (to_unsigned 8 (Z.lxor (- flag) b)) (mask_at _ArrowkBitmask k))).

(** * Counting *)
Definition popcount (b : Z) : Z := mask_at _ArrowkBytePopcount b.
Fixpoint count_bytes (n : nat) (bits : list Z) (i : Z) : option Z :=
  match n with
  | O => Some 0
  | S n' => b ← byte_at bits i; rest ← count_bytes n' bits (i + 1); Some (popcount b + rest)
  end.
Definition ArrowBitCountSet (bits : list Z) (start_offset length : Z) : option Z :=
  if length =? 0 then Some 0 else
  let i_begin := start_offset in
  let i_end := start_offset + length in
  let bytes_begin := i_begin ÷ 8 in
  let bytes_end := i_end ÷ 8 + 1 in
  if bytes_end =? bytes_begin + 1 then
    let first_byte_mask := mask_at _ArrowkPrecedingBitmask (Z.rem i_end 8) in
    let last_byte_mask := mask_at _ArrowkTrailingBitmask (Z.rem i_begin 8) in
    let only_byte_mask := if Z.rem i_end 8 =? 0 then first_byte_mask
                          else Z.land first_byte_mask last_byte_mask in
    b ← byte_at bits bytes_begin;
    Some (popcount (Z.land b only_byte_mask))
  else
    let first_byte_mask := mask_at _ArrowkPrecedingBitmask (Z.rem i_begin 8) in
    let last_byte_mask := mask_at _ArrowkTrailingBitmask (Z.rem i_end 8) in
    first ← byte_at bits bytes_begin;
    middle ← count_bytes (Z.to_nat (bytes_end - bytes_begin - 2)) bits (bytes_begin + 1);
    last ← byte_at bits (bytes_end - 1);
    Some (popcount (Z.land first (Z.lnot first_byte_mask)) + middle +
          popcount (Z.land last (Z.lnot last_byte_mask))).

(** * Bulk appends

    [values] is the memory at the pointer: reading past its end is undefined.  The two bulk
    appends differ in the width of the elements only. *)

(** [v << k] in [int]: undefined for a negative value or an overflow. *)
Definition shift_left (v k : Z) : option Z :=
  if (0 <=? v) && (Z.shiftl v k <=? INT32_MAX) then Some (Z.shiftl v k) else None.
Fixpoint shifted_from (k : Z) (values : list Z) : option Z :=
  match values with
  | [] => Some 0
  | v :: vs => a ← shift_left v k; b ← shifted_from (k + 1) vs; Some (Z.lor a b)
  end.
Definition _ArrowBitmapPackInt32 (values : list Z) : option Z :=
  match values with
  | v :: vs => rest ← shifted_from 1 vs; Some (to_unsigned 8 (Z.lor v rest))
  | [] => None
  end.
Definition _ArrowBitmapPackInt8 := _ArrowBitmapPackInt32.

(** [for (i = 0; i < n; i++) ArrowBitSetTo(bits, out_i++, values[i]);] *)
Fixpoint set_values (n : nat) (bits : list Z) (out_i : Z) (values : list Z) : option (list Z) :=
  match n with
  | O => Some bits
  | S n' =>
      match values with
      | v :: vs => bits ← ArrowBitSetTo bits out_i v; set_values n' bits (out_i + 1) vs
      | [] => None
      end
  end.
(** [for (i = 0; i < n; i++) { pack(values, out); values += 8; out++; }] *)
Fixpoint pack_values (pack : list Z -> option Z) (n : nat) (bits : list Z) (out : Z) (values : list Z)
    : option (list Z) :=
  match n with
  | O => Some bits
  | S n' =>
      eight ← (if (8 <=? length values)%nat then Some (take 8 values) else None);
      b ← pack eight;
      bits ← set_byte bits out b;
      pack_values pack n' bits (out + 1) (drop 8 values)
  end.
(** The middle bytes and the last byte, which is cleared first.  The result is the new block and
    the position of [out_cursor]. *)
Definition append_aligned (pack : list Z -> option Z) (bits : list Z) (out_cursor out_i : Z)
    (values : list Z) (n_remaining : Z) : option (list Z * Z) :=
  let n_full_bytes := n_remaining ÷ 8 in
  bits ← pack_values pack (Z.to_nat n_full_bytes) bits out_cursor values;
  let out_cursor := out_cursor + Z.max 0 n_full_bytes in
  let values := drop (8 * Z.to_nat n_full_bytes) values in
  let out_i := out_i + n_full_bytes * 8 in
  let n_remaining := n_remaining - n_full_bytes * 8 in
  if n_remaining >? 0 then
    bits ← set_byte bits out_cursor 0;
    bits ← set_values (Z.to_nat n_remaining) bits out_i values;
    Some (bits, out_cursor + 1)
  else Some (bits, out_cursor).
Definition append_values (pack : list Z -> option Z) (bits : list Z) (size_bits : Z)
    (values : list Z) (n_values : Z) : option (list Z * Z) :=
  let out_cursor := size_bits ÷ 8 in
  first ← (if Z.rem size_bits 8 =? 0 then Some (bits, size_bits, out_cursor, values, n_values)
           else
             let n_partial_bits := _ArrowRoundUpToMultipleOf8 size_bits - size_bits in
             bits ← set_values (Z.to_nat n_partial_bits) bits size_bits values;
             Some (bits, size_bits + n_partial_bits, out_cursor + 1,
                   drop (Z.to_nat n_partial_bits) values, n_values - n_partial_bits));
  let '(bits, out_i, out_cursor, values, n_remaining) := first in
  append_aligned pack bits out_cursor out_i values n_remaining.
Definition append_values_unsafe (pack : list Z -> option Z) (values : list Z) (n_values : Z)
    : M ArrowBitmap unit :=
  if n_values =? 0 then mret tt else
  m ← gets id;
  l ← lift_opt (buf_data (bm_buffer m));
  r ← lift_opt (append_values pack l (bm_size_bits m) values n_values);
  size_bits ← i64 (bm_size_bits m + n_values);
  put (mkBitmap (set_size r.2 (set_data (Some r.1) (bm_buffer m))) size_bits).
Definition ArrowBitmapAppendInt8Unsafe := append_values_unsafe _ArrowBitmapPackInt8.
Definition ArrowBitmapAppendInt32Unsafe := append_values_unsafe _ArrowBitmapPackInt32.

(** [ArrowBitmapMove(src, dst)]: the new (src, dst). *)
Definition ArrowBitmapMove (src dst : ArrowBitmap) : ArrowBitmap * ArrowBitmap :=
  let '(b, b') := ArrowBufferMove (bm_buffer src) (bm_buffer dst) in
  (mkBitmap b 0, mkBitmap b' (bm_size_bits src)).
Definition ArrowBitmapResize `{Libc} (new_capacity_bits : Z) (shrink_to_fit : bool)
    : M ArrowBitmap unit :=
  if new_capacity_bits <? 0 then exit EINVAL else
  zoom bm_buffer_lens (ArrowBufferResize (_ArrowBytesForBits new_capacity_bits) shrink_to_fit) ;;
  m ← gets id;
  when (new_capacity_bits <? bm_size_bits m) (put (mkBitmap (bm_buffer m) new_capacity_bits)).

(** * Facts *)

(** ** One bit *)
Lemma bit_of_set_byte l q b l' j : set_byte l q b = Some l' -> 0 <= j ->
  bit_of l' j = if j / 8 =? q then Z.testbit b (j mod 8) else bit_of l j.
Proof.
  intros Hw Hj. rewrite (bit_of_write_at _ _ _ _ _ Hw Hj). change (zlen [b]) with 1.
  destruct (Z.eqb_spec (j / 8) q) as [->|Hne].
  - rewrite Z.leb_refl, (proj2 (Z.ltb_lt _ _)) by lia. simpl. unfold bit_of.
    by rewrite Z.sub_diag.
  - destruct (Z.leb_spec q (j / 8)), (Z.ltb_spec (j / 8) (q + 1)); simpl; try done. lia.
Qed.
Lemma byte_at_block l q : 0 <= q < zlen l -> Forall is_byte l -> exists b, byte_at l q = Some b /\ is_byte b /\
  forall j, 0 <= j -> j / 8 = q -> bit_of l j = Z.testbit b (j mod 8).
Proof.
  intros Hq Hl. unfold byte_at. rewrite (proj2 (Z.leb_le _ _)) by lia.
  destruct (l !! Z.to_nat q) as [b|] eqn:Hb; [|apply lookup_ge_None in Hb; unfold zlen in *; lia].
  exists b. split_and!; [done|by eapply Forall_lookup_1|]. intros j Hj <-. unfold bit_of. by rewrite Hb.
Qed.
Lemma byte_at_end l : byte_at l (zlen l) = None.
Proof.
  unfold byte_at. destruct (0 <=? _); [|done]. apply lookup_ge_None. unfold zlen. lia.
Qed.
Lemma set_byte_block l q b : 0 <= q < zlen l -> Forall is_byte l -> is_byte b ->
  exists l', set_byte l q b = Some l' /\ zlen l' = zlen l /\ Forall is_byte l'.
Proof.
  intros Hq Hl Hb. unfold set_byte. pose proof (write_at_Some l q [b]) as Hw. change (zlen [b]) with 1 in Hw.
  specialize (Hw ltac:(lia) ltac:(lia)). eexists. split; [done|]. split; [by eapply write_at_len|].
  eapply write_at_byte; [done..|by constructor].
Qed.
Lemma bitmask_bit k j : 0 <= k < 8 -> 0 <= j < 8 -> Z.testbit (mask_at _ArrowkBitmask k) j = (j =? k).
Proof.
  intros Hk%eight_cases Hj%eight_cases. destruct_or! Hk; destruct_or! Hj; subst; reflexivity.
Qed.
Lemma lxor_byte a b : is_byte a -> is_byte b -> is_byte (Z.lxor a b).
Proof.
  rewrite !is_byte_ones. intros Ha Hb. apply Z.bits_inj'. intros n Hn.
  rewrite <- Ha, <- Hb, !Z.land_spec, !Z.lxor_spec, !Z.land_spec. by destruct (Z.testbit a n), (Z.testbit b n), (Z.testbit _ n).
Qed.
Lemma bit_set_to_spec l i v : Forall is_byte l -> 0 <= i < 8 * zlen l ->
  exists l', ArrowBitSetTo l i (Z.b2z v) = Some l' /\ zlen l' = zlen l /\ Forall is_byte l' /\
    forall j, 0 <= j -> bit_of l' j = if j =? i then v else bit_of l j.
Proof.
  intros Hl Hi. unfold ArrowBitSetTo, change_byte. destruct (quot_rem_8 i) as [-> ->]; [lia|].
  pose proof (Z.mod_pos_bound i 8 ltac:(lia)) as Hm.
  destruct (byte_at_block l (i / 8)) as (b & -> & Hb & Hbits); [Z.to_euclidean_division_equations; lia|done|].
  cbn [mbind option_bind]. set (b' := Z.lxor b _).
  assert (is_byte b') as Hb' by (apply lxor_byte; [done|]; apply byte_land, to_unsigned_byte).
  destruct (set_byte_block l (i / 8) b') as (l' & Hl' & Hz & Hy); [Z.to_euclidean_division_equations; lia|done..|].
  exists l'. split_and!; [done..|]. intros j Hj. rewrite (bit_of_set_byte _ _ _ _ _ Hl' Hj).
  pose proof (Z.mod_pos_bound j 8 ltac:(lia)).
  destruct (Z.eqb_spec (j / 8) (i / 8)) as [Hq|Hq].
  - unfold b'. rewrite Z.lxor_spec, Z.land_spec, bitmask_bit, to_unsigned_bit, Z.lxor_spec, <- (Hbits j) by done.
    replace (j mod 8 =? i mod 8) with (j =? i) by (apply eq_true_iff_eq; rewrite !Z.eqb_eq; Z.to_euclidean_division_equations; lia).
    destruct (j =? i); [|by rewrite andb_false_r, xorb_false_r].
    rewrite andb_true_r. destruct v; change (to_unsigned 8 (Z.b2z true)) with 1; change (to_unsigned 8 (Z.b2z false)) with 0; simpl Z.eqb; cbv iota.
    + change (- (1)) with (-1). rewrite Z.bits_m1 by lia. by destruct (bit_of l j).
    + change (- 0) with 0. rewrite Z.bits_0. by destruct (bit_of l j).
  - destruct (Z.eqb_spec j i) as [->|]; [lia|done].
Qed.

(** ** Writing a sequence of bits *)

(** [l'] is [l] with [bs] written at bit [start]; what comes after them may have changed. *)
Definition written (l : list Z) (start : Z) (bs : list bool) (l' : list Z) : Prop :=
  zlen l' = zlen l /\ Forall is_byte l' /\
  forall j, 0 <= j < start + zlen bs ->
    bit_of l' j = if j <? start then bit_of l j else default false (bs !! Z.to_nat (j - start)).
Lemma written_nil l start : Forall is_byte l -> written l start [] l.
Proof. intros Hl. split_and!; [done..|]. intros j. unfold zlen; simpl. intros ?. by rewrite (proj2 (Z.ltb_lt _ _)) by lia. Qed.
Lemma written_app l start bs bs' l1 l2 : written l start bs l1 -> 0 <= start -> written l1 (start + zlen bs) bs' l2 ->
  written l start (bs ++ bs') l2.
Proof.
  intros (Hz1 & _ & H1) Hs (Hz2 & Hb2 & H2). split_and!; [congruence|done|]. intros j. rewrite zlen_app. intros Hj.
  pose proof (zlen_nonneg bs). pose proof (zlen_nonneg bs'). rewrite H2 by lia.
  destruct (Z.ltb_spec j (start + zlen bs)) as [Hlt|Hge].
  - rewrite H1 by lia. destruct (Z.ltb_spec j start); [done|]. by rewrite lookup_app_l by (unfold zlen in *; lia).
  - rewrite (proj2 (Z.ltb_ge _ _)) by lia. rewrite lookup_app_r by (unfold zlen in *; lia). do 2 f_equal. unfold zlen. lia.
Qed.
(** The first loop and the last one. *)
Lemma set_values_spec bs : forall l start rest, Forall is_byte l -> 0 <= start -> start + zlen bs <= 8 * zlen l ->
  exists l', set_values (length bs) l start ((Z.b2z <$> bs) ++ rest) = Some l' /\ written l start bs l' /\
    forall j, start + zlen bs <= j -> bit_of l' j = bit_of l j.
Proof.
  induction bs as [|v bs IH]; intros l start rest Hl Hs Hin.
  - exists l. split_and!; [done|by apply written_nil|done].
  - assert (zlen (v :: bs) = 1 + zlen bs) as Hlen by (unfold zlen; simpl; lia). pose proof (zlen_nonneg bs).
    rewrite Hlen in *. rewrite fmap_cons. cbn [length set_values app]. destruct (bit_set_to_spec l start v) as (l1 & -> & Hz1 & Hl1 & Hb1); [done|lia|].
    cbn [mbind option_bind]. destruct (IH l1 (start + 1) rest) as (l2 & -> & Hw & Hafter); [done|lia|rewrite Hz1; lia|].
    exists l2. split_and!; [done| |].
    + apply (written_app _ _ [v] bs l1); [|done|exact Hw]. split_and!; [done..|].
      intros j. change (zlen [v]) with 1. intros Hj. rewrite Hb1 by lia.
      destruct (Z.eqb_spec j start) as [->|Hne]; [by rewrite Z.ltb_irrefl, Z.sub_diag|].
      by rewrite (proj2 (Z.ltb_lt _ _)) by lia.
    + intros j Hj. rewrite Hafter, Hb1 by lia. by rewrite (proj2 (Z.eqb_neq _ _)) by lia.
Qed.
(** Too few values: the loop reads past them. *)
Lemma set_values_short n : forall l start bs, (length bs < n)%nat -> set_values n l start (Z.b2z <$> bs) = None.
Proof.
  induction n as [|n IH]; intros l start [|v bs] Hn; simpl in Hn; [lia..|done|].
  rewrite fmap_cons. cbn [set_values]. destruct (ArrowBitSetTo l start (Z.b2z v)); [|done]. simpl. apply IH. lia.
Qed.
Lemma pack_spec bs : length bs = 8%nat -> exists b, _ArrowBitmapPackInt32 (Z.b2z <$> bs) = Some b /\ is_byte b /\
  forall k, 0 <= k < 8 -> Z.testbit b k = default false (bs !! Z.to_nat k).
Proof.
  intros Hl. do 8 (destruct bs as [|[] bs]; [done|..]); destruct bs; try done; clear Hl;
    (eexists; split; [vm_compute; reflexivity|]; split; [split; vm_compute; congruence|]);
    intros k Hk%eight_cases; destruct_or! Hk; subst; reflexivity.
Qed.
Lemma pack_values_spec n : forall l q bs rest, Forall is_byte l -> 0 <= q -> length bs = (8 * n)%nat ->
  q + Z.of_nat n <= zlen l ->
  exists l', pack_values _ArrowBitmapPackInt32 n l q ((Z.b2z <$> bs) ++ rest) = Some l' /\ written l (8 * q) bs l'.
Proof.
  induction n as [|n IH]; intros l q bs rest Hl Hq Hlen Hin.
  - destruct bs; [|done]. exists l. split; [done|by apply written_nil].
  - assert (bs = take 8 bs ++ drop 8 bs) as Hbs by by rewrite take_drop.
    set (b1 := take 8 bs) in *. set (b2 := drop 8 bs) in *.
    assert (length b1 = 8%nat) as H1 by (unfold b1; rewrite length_take; lia).
    assert (length b2 = (8 * n)%nat) as H2 by (unfold b2; rewrite length_drop; lia).
    rewrite Hbs, fmap_app, <- app_assoc. cbn [pack_values].
    rewrite (proj2 (Nat.leb_le _ _)) by (rewrite length_app, length_fmap; lia).
    rewrite take_app_length', drop_app_length' by (by rewrite length_fmap). cbn [mbind option_bind].
    destruct (pack_spec b1 H1) as (b & -> & Hb & Hbits). cbn [mbind option_bind].
    destruct (set_byte_block l q b) as (l1 & Hl1 & Hz1 & Hy1); [lia|done..|]. rewrite Hl1. cbn [mbind option_bind].
    destruct (IH l1 (q + 1) b2 rest) as (l2 & -> & Hw); [done|lia|done|rewrite Hz1; lia|].
    exists l2. split; [done|]. assert (zlen b1 = 8) as Hz by (unfold zlen; lia).
    apply (written_app _ _ b1 b2 l1); [|lia|by replace (8 * q + zlen b1) with (8 * (q + 1)) by lia].
    split_and!; [done..|]. intros j Hj. rewrite (bit_of_set_byte _ _ _ _ _ Hl1) by lia.
    destruct (Z.ltb_spec j (8 * q)) as [Hlt|Hge].
    + by rewrite (proj2 (Z.eqb_neq _ _)) by (Z.to_euclidean_division_equations; lia).
    + rewrite (proj2 (Z.eqb_eq _ _)) by (Z.to_euclidean_division_equations; lia).
      rewrite Hbits by (apply Z.mod_pos_bound; lia). do 2 f_equal. Z.to_euclidean_division_equations; lia.
Qed.
Lemma round_up_8 v : 0 <= v -> _ArrowRoundUpToMultipleOf8 v = 8 * ((v + 7) / 8).
Proof.
  intros Hv. unfold _ArrowRoundUpToMultipleOf8. rewrite <- Z.ldiff_land. change 7 with (Z.ones 3) at 2.
  rewrite Z.ldiff_ones_r, Z.shiftr_div_pow2, Z.shiftl_mul_pow2 by lia. change (2 ^ 3) with 8. lia.
Qed.

Lemma append_aligned_spec bs l q : Forall is_byte l -> 0 <= q -> 8 * q + zlen bs <= 8 * zlen l ->
  exists l', append_aligned _ArrowBitmapPackInt32 l q (8 * q) (Z.b2z <$> bs) (zlen bs) =
      Some (l', (8 * q + zlen bs + 7) / 8) /\ written l (8 * q) bs l'.
Proof.
  intros Hl Hq Hin. pose proof (zlen_nonneg bs) as Hn. unfold append_aligned.
  destruct (quot_rem_8 (zlen bs)) as [-> _]; [lia|]. set (n := Z.to_nat (zlen bs / 8)).
  assert (zlen bs / 8 = Z.of_nat n) as Hn8 by (unfold n; rewrite Z2Nat.id; [done|apply Z.div_pos; lia]).
  rewrite Hn8. rewrite Z.max_r by lia. set (b1 := take (8 * n) bs). set (b2 := drop (8 * n) bs).
  assert (bs = b1 ++ b2) as Hbs by (unfold b1, b2; by rewrite take_drop).
  assert (length b1 = (8 * n)%nat) as H1.
  { unfold b1. rewrite length_take. unfold zlen in *. Z.to_euclidean_division_equations; lia. }
  assert (zlen b1 = 8 * Z.of_nat n) as Hz1 by (unfold zlen; lia).
  assert (zlen bs = 8 * Z.of_nat n + zlen b2) as Hz by (rewrite Hbs, zlen_app; lia).
  assert (0 <= zlen b2 < 8) as Hr by (pose proof (zlen_nonneg b2); Z.to_euclidean_division_equations; lia).
  replace (Z.b2z <$> bs) with ((Z.b2z <$> b1) ++ (Z.b2z <$> b2)) by (by rewrite Hbs, fmap_app).
  destruct (pack_values_spec n l q b1 (Z.b2z <$> b2)) as (l1 & -> & Hw1); [done..|lia|]. cbn [mbind option_bind].
  rewrite drop_app_length' by (by rewrite length_fmap, H1).
  replace (zlen bs - Z.of_nat n * 8) with (zlen b2) by lia. rewrite Z.gtb_ltb.
  pose proof Hw1 as (Hzl & Hyl & _). destruct (Z.ltb_spec 0 (zlen b2)) as [Hpos|Hzero].
  - destruct (set_byte_block l1 (q + Z.of_nat n) 0) as (l2 & Hl2 & Hz2 & Hy2); [lia|done|by split|].
    rewrite Hl2. cbn [mbind option_bind].
    destruct (set_values_spec b2 l2 (8 * q + Z.of_nat n * 8) []) as (l3 & Hl3 & Hw3 & _); [done|lia..|].
    rewrite app_nil_r in Hl3. replace (Z.to_nat (zlen b2)) with (length b2) by (unfold zlen; lia). rewrite Hl3.
    exists l3. split; [cbn [mbind option_bind]; do 2 f_equal; Z.to_euclidean_division_equations; lia|].
    rewrite Hbs. apply (written_app _ _ b1 b2 l2); [|lia|by replace (8 * q + zlen b1) with (8 * q + Z.of_nat n * 8) by lia].
    destruct Hw1 as (_ & _ & Hb1). split_and!; [congruence|done|]. intros j Hj.
    rewrite (bit_of_set_byte _ _ _ _ _ Hl2), (proj2 (Z.eqb_neq _ _)) by (Z.to_euclidean_division_equations; lia).
    by apply Hb1.
  - exists l1. split; [do 2 f_equal; Z.to_euclidean_division_equations; lia|].
    destruct b2; [|unfold zlen in Hzero; simpl in Hzero; lia]. rewrite app_nil_r in Hbs. by rewrite Hbs.
Qed.
Lemma append_values_spec bs l size : Forall is_byte l -> 0 <= size -> size + zlen bs <= 8 * zlen l ->
  append_values _ArrowBitmapPackInt32 l size (Z.b2z <$> bs) (zlen bs) = None /\ size mod 8 <> 0 /\ zlen bs < 8 - size mod 8 \/
  (size mod 8 = 0 \/ 8 - size mod 8 <= zlen bs) /\
  exists l', append_values _ArrowBitmapPackInt32 l size (Z.b2z <$> bs) (zlen bs) = Some (l', (size + zlen bs + 7) / 8) /\
    written l size bs l'.
Proof.
  intros Hl Hs Hin. unfold append_values. destruct (quot_rem_8 size) as [-> ->]; [lia|].
  pose proof (Z.mod_pos_bound size 8 ltac:(lia)) as Hm. pose proof (Z.div_mod size 8 ltac:(lia)) as Hdm.
  destruct (Z.eqb_spec (size mod 8) 0) as [H0|H0].
  - right. split; [by left|]. cbn [mbind option_bind].
    destruct (append_aligned_spec bs l (size / 8)) as (l' & Hl' & Hw); [done|apply Z.div_pos; lia|lia|].
    replace (8 * (size / 8)) with size in * by lia. exists l'. split; [exact Hl'|done].
  - assert (_ArrowRoundUpToMultipleOf8 size - size = 8 - size mod 8) as -> by
      (rewrite round_up_8 by done; Z.to_euclidean_division_equations; lia).
    set (p := Z.to_nat (8 - size mod 8)). assert (8 - size mod 8 = Z.of_nat p) as Hp by lia.
    rewrite Hp. destruct (Z.ltb_spec (zlen bs) (Z.of_nat p)) as [Hlt|Hge].
    { left. rewrite set_values_short by (unfold zlen in Hlt; lia). done. }
    right. split; [by right|]. set (b1 := take p bs). set (b2 := drop p bs).
    assert (bs = b1 ++ b2) as Hbs by (unfold b1, b2; by rewrite take_drop).
    assert (length b1 = p) as H1 by (unfold b1; rewrite length_take; unfold zlen in Hge; lia).
    assert (zlen b1 = Z.of_nat p) as Hz1 by (unfold zlen; lia).
    assert (zlen bs = Z.of_nat p + zlen b2) as Hz by (rewrite Hbs, zlen_app; lia).
    pose proof (zlen_nonneg b2).
    destruct (set_values_spec b1 l size (Z.b2z <$> b2)) as (l1 & Hl1 & Hw1 & _); [done|lia..|].
    rewrite H1, <- fmap_app, <- Hbs in Hl1. rewrite Hl1. cbn [mbind option_bind].
    rewrite <- fmap_drop. change (drop p bs) with b2. pose proof Hw1 as (Hzl & Hyl & _).
    destruct (append_aligned_spec b2 l1 (size / 8 + 1)) as (l2 & Hl2 & Hw2); [done|Z.to_euclidean_division_equations; lia|lia|].
    replace (8 * (size / 8 + 1)) with (size + Z.of_nat p) in * by lia.
    exists l2. replace (zlen bs - Z.of_nat p) with (zlen b2) by lia. split.
    + rewrite (Hz : zlen bs = _), Z.add_assoc. exact Hl2.
    + rewrite Hbs. apply (written_app _ _ b1 b2 l1); [done|done|by rewrite Hz1].
Qed.

(** ** Counting *)

(** The bits [a .. a+n) that satisfy [f]. *)
Fixpoint count (f : Z -> bool) (a : Z) (n : nat) : Z :=
  match n with O => 0 | S n' => Z.b2z (f a) + count f (a + 1) n' end.
Lemma count_ext f g a n : (forall j, a <= j < a + Z.of_nat n -> f j = g j) -> count f a n = count g a n.
Proof.
  revert a. induction n as [|n IH]; intros a Hfg; simpl; [done|]. rewrite Hfg, (IH (a + 1)); [done| |lia].
  intros j Hj. apply Hfg. lia.
Qed.
Lemma count_app f a n m : count f a (n + m) = count f a n + count f (a + Z.of_nat n) m.
Proof.
  revert a. induction n as [|n IH]; intros a; simpl; [by rewrite Z.add_0_r|]. rewrite IH.
  replace (a + 1 + Z.of_nat n) with (a + Z.of_nat (S n)) by lia. lia.
Qed.
Lemma count_none f a n : (forall j, a <= j < a + Z.of_nat n -> f j = false) -> count f a n = 0.
Proof.
  revert a. induction n as [|n IH]; intros a Hf; simpl; [done|]. rewrite Hf, (IH (a + 1)); [done| |lia].
  intros j Hj. apply Hf. lia.
Qed.
Lemma popcount_count b : is_byte b -> popcount b = count (Z.testbit b) 0 8.
Proof.
  intros Hb. assert (forallb (fun n => popcount (Z.of_nat n) =? count (Z.testbit (Z.of_nat n)) 0 8) (seq 0 256) = true) as Hall
    by (vm_compute; reflexivity).
  rewrite forallb_forall in Hall. unfold is_byte in Hb. specialize (Hall (Z.to_nat b)). rewrite Z2Nat.id in Hall by lia.
  apply Z.eqb_eq, Hall, in_seq. lia.
Qed.
(** A masked byte counts the bits of the block the mask selects. *)
Lemma popcount_masked l q b m (f : Z -> bool) : is_byte b -> 0 <= q ->
  (forall j, 0 <= j -> j / 8 = q -> bit_of l j = Z.testbit b (j mod 8)) ->
  (forall k, 0 <= k < 8 -> Z.testbit m k = f (8 * q + k)) ->
  popcount (Z.land b m) = count (fun j => bit_of l j && f j) (8 * q) 8.
Proof.
  intros Hb Hq Hbits Hm. rewrite popcount_count by by apply byte_land.
  assert (forall n a, 0 <= a -> a + Z.of_nat n <= 8 ->
    count (Z.testbit (Z.land b m)) a n = count (fun j => bit_of l j && f j) (8 * q + a) n) as Hc.
  { induction n as [|n IH]; intros a Ha Han; simpl; [done|].
    rewrite Z.land_spec, Hm, (Hbits (8 * q + a)), IH by (Z.to_euclidean_division_equations; lia).
    replace ((8 * q + a) mod 8) with a by (Z.to_euclidean_division_equations; lia). by rewrite Z.add_assoc. }
  rewrite (Hc 8%nat 0) by lia. by rewrite Z.add_0_r.
Qed.
Lemma count_bytes_spec l n : forall q, Forall is_byte l -> 0 <= q -> q + Z.of_nat n <= zlen l ->
  count_bytes n l q = Some (count (bit_of l) (8 * q) (8 * n)).
Proof.
  induction n as [|n IH]; intros q Hl Hq Hin; [done|]. cbn [count_bytes].
  destruct (byte_at_block l q) as (b & -> & Hb & Hbits); [lia|done|]. cbn [mbind option_bind].
  rewrite IH by (done || lia). cbn [mbind option_bind]. f_equal.
  replace (8 * S n)%nat with (8 + 8 * n)%nat by lia. rewrite count_app. change (Z.of_nat 8) with 8.
  replace (8 * q + 8) with (8 * (q + 1)) by lia. f_equal.
  assert (b = Z.land b 255) as -> by (symmetry; by apply is_byte_ones).
  rewrite (popcount_masked l q b 255 (fun _ => true)); [|done..|].
  - apply count_ext. intros j _. by rewrite andb_true_r.
  - intros k Hk%eight_cases. destruct_or! Hk; by subst.
Qed.
Lemma lnot_mask_bit m k : 0 <= k -> Z.testbit (Z.lnot m) k = negb (Z.testbit m k).
Proof. intros. by rewrite Z.lnot_spec. Qed.
Definition within (a b j : Z) : bool := (a <=? j) && (j <? b).
Lemma count_within f a n s e : a <= s <= e -> e <= a + Z.of_nat n ->
  count (fun j => f j && within s e j) a n = count f s (Z.to_nat (e - s)).
Proof.
  intros Hs He. replace n with (Z.to_nat (s - a) + (Z.to_nat (e - s) + Z.to_nat (a + Z.of_nat n - e)))%nat by lia.
  rewrite !count_app, !Z2Nat.id by lia. replace (a + (s - a)) with s by lia. replace (s + (e - s)) with e by lia.
  rewrite (count_none _ a), (count_none _ e), (count_ext _ f s); [lia|..]; intros j Hj; unfold within;
    destruct (Z.leb_spec s j), (Z.ltb_spec j e); simpl; try lia; by rewrite ?andb_true_r, ?andb_false_r.
Qed.
Lemma count_halves f a n m : count f a n + count f (a + Z.of_nat n) m = count f a (n + m).
Proof. by rewrite count_app. Qed.
Lemma count_single l start len : Forall is_byte l -> 0 <= start -> 0 < len -> (start + len) / 8 = start / 8 ->
  start / 8 < zlen l ->
  exists b, byte_at l (start / 8) = Some b /\
    popcount (Z.land b (Z.land (mask_at _ArrowkPrecedingBitmask ((start + len) mod 8))
                              (mask_at _ArrowkTrailingBitmask (start mod 8)))) = count (bit_of l) start (Z.to_nat len).
Proof.
  intros Hl Hs Hn Hq Hin. destruct (byte_at_block l (start / 8)) as (b & Hb & Hy & Hbits);
    [pose proof (Z.div_pos start 8); lia|done|]. exists b. split; [done|].
  rewrite (popcount_masked l (start / 8) b _ (within start (start + len))); [|done|apply Z.div_pos; lia|done|].
  - rewrite count_within by (change (Z.of_nat 8) with 8; Z.to_euclidean_division_equations; lia). do 2 f_equal. lia.
  - intros k Hk. rewrite Z.land_spec, preceding_bit, trailing_bit by (done || apply Z.mod_pos_bound; lia).
    unfold within. rewrite andb_comm. f_equal; apply eq_true_iff_eq; rewrite ?Z.ltb_lt, ?Z.leb_le;
      Z.to_euclidean_division_equations; lia.
Qed.
Lemma count_first l start : Forall is_byte l -> 0 <= start -> start / 8 < zlen l ->
  exists b, byte_at l (start / 8) = Some b /\
    popcount (Z.land b (Z.lnot (mask_at _ArrowkPrecedingBitmask (start mod 8)))) =
      count (bit_of l) start (Z.to_nat (8 * (start / 8 + 1) - start)).
Proof.
  intros Hl Hs Hin. destruct (byte_at_block l (start / 8)) as (b & Hb & Hy & Hbits);
    [pose proof (Z.div_pos start 8); lia|done|]. exists b. split; [done|].
  rewrite (popcount_masked l (start / 8) b _ (within start (8 * (start / 8 + 1)))); [|done|apply Z.div_pos; lia|done|].
  - by rewrite count_within by (change (Z.of_nat 8) with 8; Z.to_euclidean_division_equations; lia).
  - intros k Hk. rewrite lnot_mask_bit, preceding_bit by (done || lia || apply Z.mod_pos_bound; lia). unfold within.
    rewrite (proj2 (Z.ltb_lt (8 * (start / 8) + k) _)), andb_true_r by lia.
    apply eq_true_iff_eq. rewrite negb_true_iff, Z.ltb_ge, Z.leb_le. Z.to_euclidean_division_equations; lia.
Qed.
Lemma count_last l e : Forall is_byte l -> 0 <= e -> e / 8 < zlen l ->
  exists b, byte_at l (e / 8) = Some b /\
    popcount (Z.land b (Z.lnot (mask_at _ArrowkTrailingBitmask (e mod 8)))) =
      count (bit_of l) (8 * (e / 8)) (Z.to_nat (e - 8 * (e / 8))).
Proof.
  intros Hl Hs Hin. destruct (byte_at_block l (e / 8)) as (b & Hb & Hy & Hbits);
    [pose proof (Z.div_pos e 8); lia|done|]. exists b. split; [done|].
  rewrite (popcount_masked l (e / 8) b _ (within (8 * (e / 8)) e)); [|done|apply Z.div_pos; lia|done|].
  - by rewrite count_within by (change (Z.of_nat 8) with 8; Z.to_euclidean_division_equations; lia).
  - intros k Hk. rewrite lnot_mask_bit, trailing_bit by (done || lia || apply Z.mod_pos_bound; lia). unfold within.
    rewrite (proj2 (Z.leb_le (8 * (e / 8)) _)), andb_true_l by lia.
    apply eq_true_iff_eq. rewrite negb_true_iff, Z.leb_gt, Z.ltb_lt. Z.to_euclidean_division_equations; lia.
Qed.

(** * Properties *)
(** Counting the set bits of a range inside a block is exact, except for a range that ends
    at the end of the block: then a byte behind the block is read. *)
Theorem ArrowBitCountSet_exact l start len (Hl : Forall is_byte l) (Hs : 0 <= start) (Hn : 0 <= len)
    (Hin : start + len <= 8 * zlen l) :
  ArrowBitCountSet l start len =
    if (0 <? len) && (start + len =? 8 * zlen l) then None
    else Some (count (bit_of l) start (Z.to_nat len)).
Proof.
  unfold ArrowBitCountSet. destruct (Z.eqb_spec len 0) as [->|Hne]; [done|].
  rewrite (proj2 (Z.ltb_lt 0 len)) by lia. simpl andb. cbv zeta.
  destruct (quot_rem_8 start) as [-> ->]; [lia|]. destruct (quot_rem_8 (start + len)) as [-> ->]; [lia|].
  assert (start / 8 < zlen l) as Hq by (Z.to_euclidean_division_equations; lia).
  destruct (Z.eqb_spec ((start + len) / 8 + 1) (start / 8 + 1)) as [Heq|Hneq].
  - rewrite (proj2 (Z.eqb_neq ((start + len) mod 8) 0)) by (Z.to_euclidean_division_equations; lia).
    destruct (count_single l start len) as (b & -> & Hb); [done..|lia|lia|done|]. cbn [mbind option_bind].
    rewrite Hb, (proj2 (Z.eqb_neq _ _)); [done|]. Z.to_euclidean_division_equations; lia.
  - destruct (count_first l start) as (b & -> & Hb); [done..|]. cbn [mbind option_bind].
    assert (start / 8 < (start + len) / 8) as Hlt by (Z.to_euclidean_division_equations; lia).
    rewrite count_bytes_spec; [|done|pose proof (Z.div_pos start 8); lia|Z.to_euclidean_division_equations; lia].
    cbn [mbind option_bind]. replace ((start + len) / 8 + 1 - 1) with ((start + len) / 8) by lia.
    destruct (Z.eqb_spec (start + len) (8 * zlen l)) as [He|He].
    + assert ((start + len) / 8 = zlen l) as -> by (Z.to_euclidean_division_equations; lia). by rewrite byte_at_end.
    + destruct (count_last l (start + len)) as (b' & -> & Hb'); [done|lia|Z.to_euclidean_division_equations; lia|].
      cbn [mbind option_bind]. f_equal. rewrite Hb, Hb'.
      set (n1 := Z.to_nat (8 * (start / 8 + 1) - start)). set (n2 := (8 * Z.to_nat ((start + len) / 8 + 1 - (start / 8) - 2))%nat).
      assert (8 * (start / 8 + 1) = start + Z.of_nat n1) as -> by (unfold n1; Z.to_euclidean_division_equations; lia).
      rewrite count_halves.
      assert (8 * ((start + len) / 8) = start + Z.of_nat (n1 + n2)) as E by (unfold n1, n2; Z.to_euclidean_division_equations; lia).
      rewrite E at 1. rewrite count_halves. f_equal. unfold n1, n2 in *. Z.to_euclidean_division_equations; lia.
Qed.

(** C33: The bulk append of boolean values (each 0 or 1) to a bitmap with enough room appends
    exactly those booleans and stays inside the block, unless the values are fewer than the
    bits left in the byte the bitmap ends in: then it reads past the end of the values. *)
Theorem ArrowBitmapAppendInt8Unsafe_exact (m : ArrowBitmap) (bs : list bool) (Hok : bitmap_ok m)
    (Hroom : bm_size_bits m + zlen bs <= 8 * buf_capacity_bytes (bm_buffer m)) :
  let r := ArrowBitmapAppendInt8Unsafe (Z.b2z <$> bs) (zlen bs) m in
  if (0 <? zlen bs) && negb (bm_size_bits m mod 8 =? 0) && (zlen bs <? 8 - bm_size_bits m mod 8) then r = Undef
  else exists m', r = Ret tt m' /\ bitmap_ok m' /\ bitmap_bits m' = bitmap_bits m ++ bs.
Proof.
  destruct Hok as [Hok Hsz Hby]. pose proof Hok as [Ha Hs Hb Hc Hy]. pose proof (zlen_nonneg bs) as Hn.
  unfold ArrowBitmapAppendInt8Unsafe, append_values_unsafe, _ArrowBitmapPackInt8. cbv zeta.
  destruct (Z.eqb_spec (zlen bs) 0) as [H0|H0].
  { rewrite H0. simpl. exists m. split; [done|]. split; [by constructor|].
    destruct bs; [by rewrite app_nil_r|]. unfold zlen in H0; simpl in H0; lia. }
  rewrite (proj2 (Z.ltb_lt 0 _)) by lia. cbn [andb].
  destruct (buf_data (bm_buffer m)) as [l|] eqn:Hd; simpl in Hb, Hy; [|unfold zlen in Hb; simpl in Hb; lia].
  assert (lift_opt (buf_data (bm_buffer m)) m = Ret l m) as Hlift by by rewrite Hd.
  rewrite (bind_ret (gets id) _ m m m), (bind_ret _ _ _ _ _ Hlift) by done.
  destruct (append_values_spec bs l (bm_size_bits m)) as [(-> & Hm & Hshort)|(Hlong & l' & -> & Hw)]; [done|lia|lia|..].
  - by rewrite (proj2 (Z.eqb_neq _ 0)), (proj2 (Z.ltb_lt _ _)) by lia.
  - assert (negb (bm_size_bits m mod 8 =? 0) && (zlen bs <? 8 - bm_size_bits m mod 8) = false) as ->.
    { destruct Hlong as [-> | Hlong]; [done|]. by rewrite (proj2 (Z.ltb_ge _ _)), andb_false_r by lia. }
    assert (in_i64 (bm_size_bits m + zlen bs) = true) as Hi.
    { unfold in_i64, INT64_MIN, INT64_MAX. apply andb_true_intro. rewrite !Z.leb_le. lia. }
    eexists. split; [unfold lift_opt, mbind, M_bind, i64; rewrite Hi; reflexivity|]. cbn [fst snd].
    destruct Hw as (Hz & Hy' & Hbits). pose proof (bytes_for_bits_ceil (bm_size_bits m + zlen bs) ltac:(lia)) as Hceil.
    split.
    + constructor; simpl; [|lia|by rewrite Hceil]. constructor; simpl; auto; [|by rewrite Hz].
      Z.to_euclidean_division_equations; lia.
    + apply (list_eq_same_length _ _ (Z.to_nat (bm_size_bits m + zlen bs))).
      { rewrite length_app, length_bitmap_bits. unfold zlen. lia. }
      { by rewrite length_bitmap_bits. }
      intros i x y Hlt Hx Hy2. replace i with (Z.to_nat (Z.of_nat i)) in Hx by lia.
      rewrite bitmap_bits_lookup in Hx by (simpl; lia). simpl in Hx. injection Hx as <-. rewrite Hbits by lia.
      destruct (Z.ltb_spec (Z.of_nat i) (bm_size_bits m)) as [Hl|Hge].
      * rewrite lookup_app_l in Hy2 by (rewrite length_bitmap_bits; lia).
        replace i with (Z.to_nat (Z.of_nat i)) in Hy2 by lia. rewrite bitmap_bits_lookup, Hd in Hy2 by lia. by injection Hy2.
      * rewrite lookup_app_r in Hy2 by (rewrite length_bitmap_bits; lia). rewrite length_bitmap_bits in Hy2.
        replace (Z.to_nat (Z.of_nat i - bm_size_bits m)) with (i - Z.to_nat (bm_size_bits m))%nat by lia. by rewrite Hy2.
Qed.

(** * Witnesses *)
Section witnesses.
Lemma bytes_ok l : forallb (fun b => (0 <=? b) && (b <? 256)) l = true -> Forall is_byte l.
Proof.
  intros Hl. rewrite forallb_forall in Hl. apply List.Forall_forall. intros b Hb.
  specialize (Hl b Hb). unfold is_byte. lia.
Qed.
Lemma ArrowBitCountSet_exact_witness :
  ArrowBitCountSet [255; 3; 0] 5 9 = Some 5 /\ ArrowBitCountSet [255; 3] 5 11 = None.
Proof.
  split.
  - refine (ArrowBitCountSet_exact [255; 3; 0] 5 9 _ _ _ _); [by apply bytes_ok|unfold zlen; simpl; lia..].
  - refine (ArrowBitCountSet_exact [255; 3] 5 11 _ _ _ _); [by apply bytes_ok|unfold zlen; simpl; lia..].
Defined.
(** Three bits in a block of two bytes. *)
Definition three_bits : ArrowBitmap := mkBitmap (mkBuffer (Some [5; 0]) 1 2 AllocatorMalloc) 3.
Lemma three_bits_ok : bitmap_ok three_bits.
Proof. constructor; [|done..]. constructor; try done. by apply bytes_ok. Qed.
Lemma ArrowBitmapAppendInt8Unsafe_exact_witness :
  ArrowBitmapAppendInt8Unsafe [1; 1] 2 three_bits = Undef /\
  exists m', ArrowBitmapAppendInt8Unsafe [1; 0; 0; 1; 1; 1] 6 three_bits = Ret tt m' /\ bitmap_ok m' /\
    bitmap_bits m' = [true; false; true; true; false; false; true; true; true].
Proof.
  split.
  - refine (ArrowBitmapAppendInt8Unsafe_exact three_bits [true; true] three_bits_ok _). vm_compute. discriminate.
  - refine (ArrowBitmapAppendInt8Unsafe_exact three_bits [true; false; false; true; true; true] three_bits_ok _).
    vm_compute. discriminate.
Defined.
End witnesses.
