(* ===== verification/Schema.v ===== *)
(** nanoarrow's [ArrowSchema] (the Arrow C data interface type description): the type
    enumeration, building a schema in place, metadata, deep copy and release
    (c/vendor/nanoarrow/nanoarrow.h and nanoarrow.c).  A struct whose fields hold no value
    yet, or any more, is indeterminate: reading them is undefined behaviour. *)
From stdpp Require Import base tactics list numbers option strings.
From Stdlib Require Import ZArith Lia Ascii.
From S2P Require Import Prelude CLib.

(** * Types *)
Inductive ArrowType :=
| TYPE_UNINITIALIZED | TYPE_NA | TYPE_BOOL | TYPE_UINT8 | TYPE_INT8 | TYPE_UINT16
| TYPE_INT16 | TYPE_UINT32 | TYPE_INT32 | TYPE_UINT64 | TYPE_INT64 | TYPE_HALF_FLOAT
| TYPE_FLOAT | TYPE_DOUBLE | TYPE_STRING | TYPE_BINARY | TYPE_FIXED_SIZE_BINARY
| TYPE_DATE32 | TYPE_DATE64 | TYPE_TIMESTAMP | TYPE_TIME32 | TYPE_TIME64
| TYPE_INTERVAL_MONTHS | TYPE_INTERVAL_DAY_TIME | TYPE_DECIMAL128 | TYPE_DECIMAL256
| TYPE_LIST | TYPE_STRUCT | TYPE_SPARSE_UNION | TYPE_DENSE_UNION | TYPE_DICTIONARY
| TYPE_MAP | TYPE_EXTENSION | TYPE_FIXED_SIZE_LIST | TYPE_DURATION | TYPE_LARGE_STRING
| TYPE_LARGE_BINARY | TYPE_LARGE_LIST | TYPE_INTERVAL_MONTH_DAY_NANO.
#[export] Instance ArrowType_eq_dec : EqDecision ArrowType.
Proof. solve_decision. Defined.
Definition type_eqb (a b : ArrowType) : bool := bool_decide (a = b).

(** The number of an enumerator. *)
Definition all_types : list ArrowType :=
  [TYPE_UNINITIALIZED; TYPE_NA; TYPE_BOOL; TYPE_UINT8; TYPE_INT8; TYPE_UINT16; TYPE_INT16;
   TYPE_UINT32; TYPE_INT32; TYPE_UINT64; TYPE_INT64; TYPE_HALF_FLOAT; TYPE_FLOAT; TYPE_DOUBLE;
   TYPE_STRING; TYPE_BINARY; TYPE_FIXED_SIZE_BINARY; TYPE_DATE32; TYPE_DATE64; TYPE_TIMESTAMP;
   TYPE_TIME32; TYPE_TIME64; TYPE_INTERVAL_MONTHS; TYPE_INTERVAL_DAY_TIME; TYPE_DECIMAL128;
   TYPE_DECIMAL256; TYPE_LIST; TYPE_STRUCT; TYPE_SPARSE_UNION; TYPE_DENSE_UNION;
   TYPE_DICTIONARY; TYPE_MAP; TYPE_EXTENSION; TYPE_FIXED_SIZE_LIST; TYPE_DURATION;
   TYPE_LARGE_STRING; TYPE_LARGE_BINARY; TYPE_LARGE_LIST; TYPE_INTERVAL_MONTH_DAY_NANO].
Definition type_code (t : ArrowType) : Z :=
  match list_find (eq t) all_types with Some (i, _) => Z.of_nat i | None => 0 end.

Definition ArrowTypeString (type : ArrowType) : option string :=
  match type with
  | TYPE_NA => Some "na" | TYPE_BOOL => Some "bool" | TYPE_UINT8 => Some "uint8"
  | TYPE_INT8 => Some "int8" | TYPE_UINT16 => Some "uint16" | TYPE_INT16 => Some "int16"
  | TYPE_UINT32 => Some "uint32" | TYPE_INT32 => Some "int32" | TYPE_UINT64 => Some "uint64"
  | TYPE_INT64 => Some "int64" | TYPE_HALF_FLOAT => Some "half_float"
  | TYPE_FLOAT => Some "float" | TYPE_DOUBLE => Some "double" | TYPE_STRING => Some "string"
  | TYPE_BINARY => Some "binary" | TYPE_FIXED_SIZE_BINARY => Some "fixed_size_binary"
  | TYPE_DATE32 => Some "date32" | TYPE_DATE64 => Some "date64"
  | TYPE_TIMESTAMP => Some "timestamp" | TYPE_TIME32 => Some "time32"
  | TYPE_TIME64 => Some "time64" | TYPE_INTERVAL_MONTHS => Some "interval_months"
  | TYPE_INTERVAL_DAY_TIME => Some "interval_day_time" | TYPE_DECIMAL128 => Some "decimal128"
  | TYPE_DECIMAL256 => Some "decimal256" | TYPE_LIST => Some "list"
  | TYPE_STRUCT => Some "struct" | TYPE_SPARSE_UNION => Some "sparse_union"
  | TYPE_DENSE_UNION => Some "dense_union" | TYPE_DICTIONARY => Some "dictionary"
  | TYPE_MAP => Some "map" | TYPE_EXTENSION => Some "extension"
  | TYPE_FIXED_SIZE_LIST => Some "fixed_size_list" | TYPE_DURATION => Some "duration"
  | TYPE_LARGE_STRING => Some "large_string" | TYPE_LARGE_BINARY => Some "large_binary"
  | TYPE_LARGE_LIST => Some "large_list"
  | TYPE_INTERVAL_MONTH_DAY_NANO => Some "interval_month_day_nano"
  | TYPE_UNINITIALIZED => None
  end%string.

Inductive ArrowTimeUnit :=
| TIME_UNIT_SECOND | TIME_UNIT_MILLI | TIME_UNIT_MICRO | TIME_UNIT_NANO.

Definition ARROW_FLAG_NULLABLE := 2.
(** [flags &= ~ARROW_FLAG_NULLABLE] *)
Definition clear_nullable (flags : Z) : Z := Z.land flags (Z.lnot ARROW_FLAG_NULLABLE).

(** * The schema tree

    [sc_children] is [None] for a null array, and an entry is [None] for a null child;
    [sc_release] tells whether the release callback is set. *)
Inductive ArrowSchema := mkSchema {
  sc_format : option string;
  sc_name : option string;
  sc_metadata : option (list Z);
  sc_flags : Z;
  sc_n_children : Z;
  sc_children : option (list (option ArrowSchema));
  sc_dictionary : option ArrowSchema;
  sc_release : bool;
  sc_indeterminate : bool;
}.

(** [memset] of the struct to 0. *)
Definition zero_schema : ArrowSchema := mkSchema None None None 0 0 None None false false.
(** Fresh memory with [release = NULL], and what a release callback leaves. *)
Definition indet_schema : ArrowSchema := mkSchema None None None 0 0 None None false true.

Definition set_format f (s : ArrowSchema) := mkSchema f (sc_name s) (sc_metadata s) (sc_flags s)
  (sc_n_children s) (sc_children s) (sc_dictionary s) (sc_release s) (sc_indeterminate s).
Definition set_name n (s : ArrowSchema) := mkSchema (sc_format s) n (sc_metadata s) (sc_flags s)
  (sc_n_children s) (sc_children s) (sc_dictionary s) (sc_release s) (sc_indeterminate s).
Definition set_metadata m (s : ArrowSchema) := mkSchema (sc_format s) (sc_name s) m (sc_flags s)
  (sc_n_children s) (sc_children s) (sc_dictionary s) (sc_release s) (sc_indeterminate s).
Definition set_flags f (s : ArrowSchema) := mkSchema (sc_format s) (sc_name s) (sc_metadata s) f
  (sc_n_children s) (sc_children s) (sc_dictionary s) (sc_release s) (sc_indeterminate s).
Definition set_n_children n (s : ArrowSchema) := mkSchema (sc_format s) (sc_name s)
  (sc_metadata s) (sc_flags s) n (sc_children s) (sc_dictionary s) (sc_release s)
  (sc_indeterminate s).
Definition set_children c (s : ArrowSchema) := mkSchema (sc_format s) (sc_name s)
  (sc_metadata s) (sc_flags s) (sc_n_children s) c (sc_dictionary s) (sc_release s)
  (sc_indeterminate s).
Definition set_dictionary d (s : ArrowSchema) := mkSchema (sc_format s) (sc_name s)
  (sc_metadata s) (sc_flags s) (sc_n_children s) (sc_children s) d (sc_release s)
  (sc_indeterminate s).

(** Code on [schema->children[i]]: undefined when there is no such child. *)
Definition on_child {A} (i : Z) (m : M ArrowSchema A) : M ArrowSchema A :=
  s ← gets id;
  cs ← lift_opt (sc_children s);
  c ← lift_opt (if 0 <=? i then cs !! Z.to_nat i else None);
  c ← lift_opt c;
  match m c with
  | Ret a c' => put (set_children (Some (<[Z.to_nat i := Some c']> cs)) s) ;; mret a
  | Exit e c' => put (set_children (Some (<[Z.to_nat i := Some c']> cs)) s) ;; exit e
  | Undef => undef
  | NoFuel => nofuel
  end.
(** Code on [schema->children[i1]->children[i2]...]. *)
Fixpoint on_path {A} (path : list Z) (m : M ArrowSchema A) : M ArrowSchema A :=
  match path with
  | [] => m
  | i :: p => on_child i (on_path p m)
  end.

(** [schema->release(schema)] *)
Definition ArrowSchemaRelease : M ArrowSchema unit :=
  s ← gets id; if sc_release s then put indet_schema else undef.

Definition ArrowSchemaInit : M ArrowSchema unit :=
  put (mkSchema None None None ARROW_FLAG_NULLABLE 0 None None true false).

(** Reading a field of an indeterminate struct is undefined. *)
Definition determinate : M ArrowSchema unit :=
  s ← gets id; if sc_indeterminate s then undef else mret tt.

(** * Metadata *)
Record ArrowMetadataReader := mkReader { mr_offset : Z; mr_remaining_keys : Z }.
Definition read_i32 (bs : list Z) (off : Z) : option Z := le_sint <$> read_at bs off 4.
Definition ArrowMetadataReaderInit (metadata : option (list Z)) : option ArrowMetadataReader :=
  match metadata with
  | None => Some (mkReader 0 0)
  | Some bs => n ← read_i32 bs 0; Some (mkReader 4 n)
  end.
(** A key or value: its offset in the blob and its size. *)
Record md_view := mkMdView { mv_offset : Z; mv_size_bytes : Z }.
(** [None] when the blob ends too early, [Some None] for [EINVAL]: no key remains. *)
Definition ArrowMetadataReaderRead (bs : list Z) (r : ArrowMetadataReader)
    : option (option (md_view * md_view * ArrowMetadataReader)) :=
  if mr_remaining_keys r <=? 0 then Some None else
  let pos := mr_offset r in
  key_size ← read_i32 bs pos;
  let pos := pos + 4 in
  let key := mkMdView pos key_size in
  let pos := pos + key_size in
  value_size ← read_i32 bs pos;
  let pos := pos + 4 in
  let value := mkMdView pos value_size in
  let pos := pos + value_size in
  Some (Some (key, value, mkReader pos (mr_remaining_keys r - 1))).
(** The loop reads at most the announced number of keys, plus the failing read. *)
Definition metadata_fuel (r : ArrowMetadataReader) : nat := S (Z.to_nat (mr_remaining_keys r)).
Fixpoint metadata_size_loop (fuel : nat) (bs : list Z) (r : ArrowMetadataReader) (size : Z)
    : option Z :=
  match fuel with
  | O => None
  | S fuel' =>
      next ← ArrowMetadataReaderRead bs r;
      match next with
      | None => Some size
      | Some (k, v, r') =>
          metadata_size_loop fuel' bs r' (size + (4 + mv_size_bytes k + 4 + mv_size_bytes v))
      end
  end.
Definition ArrowMetadataSizeOf (metadata : option (list Z)) : option Z :=
  match metadata with
  | None => Some 0
  | Some bs =>
      r ← ArrowMetadataReaderInit metadata;
      metadata_size_loop (metadata_fuel r) bs r 4
  end.
(** [ArrowMetadataGetValue]: the value of a key ([Some None]: absent; the out parameter is
    then left as it was). *)
Fixpoint metadata_find (fuel : nat) (bs : list Z) (r : ArrowMetadataReader) (key : list Z)
    : option (option (list Z)) :=
  match fuel with
  | O => None
  | S fuel' =>
      next ← ArrowMetadataReaderRead bs r;
      match next with
      | None => Some None
      | Some (k, v, r') =>
          if mv_size_bytes k =? zlen key then
            existing ← read_at bs (mv_offset k) (mv_size_bytes k);
            if strncmp_eq key existing
            then Some <$> read_at bs (mv_offset v) (mv_size_bytes v)
            else metadata_find fuel' bs r' key
          else metadata_find fuel' bs r' key
      end
  end.
Definition ArrowMetadataGetValue (metadata : option (list Z)) (key : list Z)
    : option (option (list Z)) :=
  r ← ArrowMetadataReaderInit metadata;
  metadata_find (metadata_fuel r) (default [] metadata) r key.

(** * Building *)
Definition ArrowSchemaFormatTemplate (type : ArrowType) : option string :=
  match type with
  | TYPE_UNINITIALIZED => None
  | TYPE_NA => Some "n" | TYPE_BOOL => Some "b"
  | TYPE_UINT8 => Some "C" | TYPE_INT8 => Some "c" | TYPE_UINT16 => Some "S"
  | TYPE_INT16 => Some "s" | TYPE_UINT32 => Some "I" | TYPE_INT32 => Some "i"
  | TYPE_UINT64 => Some "L" | TYPE_INT64 => Some "l"
  | TYPE_HALF_FLOAT => Some "e" | TYPE_FLOAT => Some "f" | TYPE_DOUBLE => Some "g"
  | TYPE_STRING => Some "u" | TYPE_LARGE_STRING => Some "U"
  | TYPE_BINARY => Some "z" | TYPE_LARGE_BINARY => Some "Z"
  | TYPE_DATE32 => Some "tdD" | TYPE_DATE64 => Some "tdm"
  | TYPE_INTERVAL_MONTHS => Some "tiM" | TYPE_INTERVAL_DAY_TIME => Some "tiD"
  | TYPE_INTERVAL_MONTH_DAY_NANO => Some "tin"
  | TYPE_LIST => Some "+l" | TYPE_LARGE_LIST => Some "+L" | TYPE_STRUCT => Some "+s"
  | TYPE_MAP => Some "+m"
  | _ => None
  end%string.

(** [sizeof] of the structs and pointers (LP64). *)
Definition sizeof_ptr := 8.
Definition sizeof_ArrowSchema := 72.

Section schema.
Context `{Libc}.

Definition ArrowSchemaSetFormat (format : option string) : M ArrowSchema unit :=
  determinate ;;
  match format with
  | Some f =>
      if malloc_ok (strlen f + 1) then modify (set_format (Some f))
      else modify (set_format None) ;; exit ENOMEM
  | None => modify (set_format None)
  end.

Definition ArrowSchemaSetName (name : option string) : M ArrowSchema unit :=
  determinate ;;
  match name with
  | Some n =>
      if malloc_ok (strlen n + 1) then modify (set_name (Some n))
      else modify (set_name None) ;; exit ENOMEM
  | None => modify (set_name None)
  end.

Definition ArrowSchemaSetMetadata (metadata : option (list Z)) : M ArrowSchema unit :=
  determinate ;;
  match metadata with
  | Some bs =>
      metadata_size ← lift_opt (ArrowMetadataSizeOf metadata);
      if malloc_ok metadata_size then
        copy ← lift_opt (read_at bs 0 metadata_size);
        modify (set_metadata (Some copy))
      else modify (set_metadata None) ;; exit ENOMEM
  | None => modify (set_metadata None)
  end.

Definition ArrowSchemaAllocateChildren (n_children : Z) : M ArrowSchema unit :=
  determinate ;;
  s ← gets id;
  if bool_decide (is_Some (sc_children s)) then exit EEXIST else
  if n_children >? 0 then
    if malloc_ok (n_children * sizeof_ptr) then
      modify (set_children (Some (replicate (Z.to_nat n_children) None))) ;;
      modify (set_n_children n_children) ;;
      for_range 0 n_children (fun i =>
        if malloc_ok sizeof_ArrowSchema then
          modify (fun s => set_children
            (list_insert (Z.to_nat i) (Some indet_schema) <$> sc_children s) s)
        else exit ENOMEM)
    else exit ENOMEM
  else mret tt.

Definition ArrowSchemaAllocateDictionary : M ArrowSchema unit :=
  determinate ;;
  s ← gets id;
  if bool_decide (is_Some (sc_dictionary s)) then exit EEXIST else
  if malloc_ok sizeof_ArrowSchema then modify (set_dictionary (Some indet_schema))
  else exit ENOMEM.

(** [schema->flags &= ~ARROW_FLAG_NULLABLE;] *)
Definition set_not_nullable : M ArrowSchema unit :=
  determinate ;; modify (fun s => set_flags (clear_nullable (sc_flags s)) s).

(** [init_struct] is [ArrowSchemaInitFromType(_, NANOARROW_TYPE_STRUCT)]. *)
Definition ArrowSchemaInitChildrenIfNeeded (init_struct : M ArrowSchema unit)
    (type : ArrowType) : M ArrowSchema unit :=
  match type with
  | TYPE_LIST | TYPE_LARGE_LIST | TYPE_FIXED_SIZE_LIST =>
      ArrowSchemaAllocateChildren 1 ;;
      on_child 0 ArrowSchemaInit ;;
      on_child 0 (ArrowSchemaSetName (Some "item"%string))
  | TYPE_MAP =>
      ArrowSchemaAllocateChildren 1 ;;
      on_child 0 init_struct ;;
      on_child 0 (ArrowSchemaSetName (Some "entries"%string)) ;;
      on_child 0 set_not_nullable ;;
      on_child 0 (ArrowSchemaAllocateChildren 2) ;;
      on_path [0; 0] ArrowSchemaInit ;;
      on_path [0; 1] ArrowSchemaInit ;;
      on_path [0; 0] (ArrowSchemaSetName (Some "key"%string)) ;;
      on_path [0; 0] set_not_nullable ;;
      on_path [0; 1] (ArrowSchemaSetName (Some "value"%string))
  | _ => mret tt
  end.

(** [ArrowSchemaSetType] and [ArrowSchemaInitFromType] call each other through
    [ArrowSchemaInitChildrenIfNeeded] (a map's entries are a struct, which has no implied
    children): [depth] 2 is enough. *)
Fixpoint set_type (depth : nat) (type : ArrowType) : M ArrowSchema unit :=
  match depth with
  | O => nofuel
  | S depth' =>
      let template_format := ArrowSchemaFormatTemplate type in
      when (bool_decide (template_format = None /\ type <> TYPE_UNINITIALIZED)) (exit EINVAL) ;;
      ArrowSchemaSetFormat template_format ;;
      ArrowSchemaInitChildrenIfNeeded
        (ArrowSchemaInit ;;
         code ← catch (set_type depth' TYPE_STRUCT);
         when (negb (code =? 0)) (ArrowSchemaRelease ;; exit code)) type
  end.
Definition ArrowSchemaSetType (type : ArrowType) : M ArrowSchema unit := set_type 2 type.

Definition ArrowSchemaInitFromType (type : ArrowType) : M ArrowSchema unit :=
  ArrowSchemaInit ;;
  result ← catch (ArrowSchemaSetType type);
  when (negb (result =? 0)) (ArrowSchemaRelease ;; exit result).

(** The [snprintf] targets below are long enough for every value of their arguments but
    the time zone, whose length is checked. *)
Definition ArrowSchemaSetTypeFixedSize (type : ArrowType) (fixed_size : Z)
    : M ArrowSchema unit :=
  if fixed_size <=? 0 then exit EINVAL else
  buffer ← match type with
           | TYPE_FIXED_SIZE_BINARY => mret (c_format "w:%d" [AInt fixed_size])
           | TYPE_FIXED_SIZE_LIST => mret (c_format "+w:%d" [AInt fixed_size])
           | _ => exit EINVAL
           end;
  ArrowSchemaSetFormat (Some buffer) ;;
  when (type_eqb type TYPE_FIXED_SIZE_LIST)
    (ArrowSchemaInitChildrenIfNeeded (ArrowSchemaInitFromType TYPE_STRUCT) type).

Definition ArrowSchemaSetTypeDecimal (type : ArrowType)
    (decimal_precision decimal_scale : Z) : M ArrowSchema unit :=
  if decimal_precision <=? 0 then exit EINVAL else
  buffer ← match type with
           | TYPE_DECIMAL128 =>
               mret (c_format "d:%d,%d" [AInt decimal_precision; AInt decimal_scale])
           | TYPE_DECIMAL256 =>
               mret (c_format "d:%d,%d,256" [AInt decimal_precision; AInt decimal_scale])
           | _ => exit EINVAL
           end;
  ArrowSchemaSetFormat (Some buffer).

Definition ArrowTimeUnitFormatString (time_unit : ArrowTimeUnit) : string :=
  match time_unit with
  | TIME_UNIT_SECOND => "s" | TIME_UNIT_MILLI => "m"
  | TIME_UNIT_MICRO => "u" | TIME_UNIT_NANO => "n"
  end%string.

Definition ArrowSchemaSetTypeDateTime (type : ArrowType) (time_unit : ArrowTimeUnit)
    (timezone : option string) : M ArrowSchema unit :=
  let time_unit_str := AStr (ArrowTimeUnitFormatString time_unit) in
  buffer ← match type with
           | TYPE_TIME32 | TYPE_TIME64 =>
               if bool_decide (timezone <> None) then exit EINVAL
               else mret (c_format "tt%s" [time_unit_str])
           | TYPE_TIMESTAMP =>
               mret (c_format "ts%s:%s" [time_unit_str; AStr (default "" timezone)])
           | TYPE_DURATION =>
               if bool_decide (timezone <> None) then exit EINVAL
               else mret (c_format "tD%s" [time_unit_str])
           | _ => exit EINVAL
           end;
  if strlen buffer >=? 128 then exit ERANGE else
  ArrowSchemaSetFormat (Some buffer).

Definition ArrowSchemaSetTypeStruct (n_children : Z) : M ArrowSchema unit :=
  ArrowSchemaSetType TYPE_STRUCT ;;
  ArrowSchemaAllocateChildren n_children ;;
  for_range 0 n_children (fun i => on_child i ArrowSchemaInit).

(** The format string of a union of [n] children: "+ud:0,1,...". *)
Definition union_format (prefix : string) (n_children : Z) : string :=
  (prefix +:+
   if Z.gtb n_children 0 then
     "0" +:+ fold_right (fun i acc => "," +:+ fmt_Z (Z.of_nat i) +:+ acc) ""
               (seq 1 (Z.to_nat n_children - 1))
   else "")%string.

Definition ArrowSchemaSetTypeUnion (type : ArrowType) (n_children : Z) : M ArrowSchema unit :=
  if (n_children <? 0) || (n_children >? 127) then exit EINVAL else
  prefix ← match type with
           | TYPE_SPARSE_UNION => mret "+us:"%string
           | TYPE_DENSE_UNION => mret "+ud:"%string
           | _ => exit EINVAL
           end;
  ArrowSchemaSetFormat (Some (union_format prefix n_children)) ;;
  ArrowSchemaAllocateChildren n_children ;;
  for_range 0 n_children (fun i => on_child i ArrowSchemaInit).

(** [if (result != NANOARROW_OK) { schema_out->release(schema_out); return result; }] *)
Definition or_release (m : M ArrowSchema unit) : M ArrowSchema unit :=
  result ← catch m;
  when (negb (result =? 0)) (ArrowSchemaRelease ;; exit result).

(** Code on [schema_out->dictionary]. *)
Definition on_dictionary (m : M ArrowSchema unit) : M ArrowSchema unit :=
  s ← gets id;
  d ← lift_opt (sc_dictionary s);
  match m d with
  | Ret a d' => put (set_dictionary (Some d') s)
  | Exit e d' => put (set_dictionary (Some d') s) ;; exit e
  | Undef => undef
  | NoFuel => nofuel
  end.

(** [for (; i < n; i++) ArrowSchemaDeepCopy(schema->children[i], schema_out->children[i])],
    where [cs] are the source children from [i] on. *)
Definition copy_children (copy : ArrowSchema -> M ArrowSchema unit) (n : Z) :=
  fix go (cs : list (option ArrowSchema)) (i : Z) {struct cs} : M ArrowSchema unit :=
    if n <=? i then mret tt else
    match cs with
    | Some c :: cs' => or_release (on_child i (copy c)) ;; go cs' (i + 1)
    | _ => undef
    end.

(** [ArrowSchemaDeepCopy(schema, schema_out)], on [schema_out]. *)
Fixpoint ArrowSchemaDeepCopy (schema : ArrowSchema) : M ArrowSchema unit :=
  ArrowSchemaInit ;;
  (if sc_indeterminate schema then undef else mret tt) ;;
  or_release (ArrowSchemaSetFormat (sc_format schema)) ;;
  modify (set_flags (sc_flags schema)) ;;
  or_release (ArrowSchemaSetName (sc_name schema)) ;;
  or_release (ArrowSchemaSetMetadata (sc_metadata schema)) ;;
  or_release (ArrowSchemaAllocateChildren (sc_n_children schema)) ;;
  (* for (i = 0; i < schema->n_children; i++) *)
  match sc_children schema with
  | Some cs => copy_children ArrowSchemaDeepCopy (sc_n_children schema) cs 0
  | None => if sc_n_children schema <=? 0 then mret tt else undef
  end ;;
  match sc_dictionary schema with
  | Some d =>
      or_release ArrowSchemaAllocateDictionary ;;
      or_release (on_dictionary (ArrowSchemaDeepCopy d))
  | None => mret tt
  end.

End schema.

(** * Well-formed schemas

    A schema a producer hands out: every struct of the tree is determinate and holds its
    release callback, the children are there, and the metadata blob has the size its own
    header announces. *)
Fixpoint schema_wf (s : ArrowSchema) : bool :=
  negb (sc_indeterminate s) && sc_release s &&
  match sc_metadata s with
  | None => true
  | Some bs => bool_decide (ArrowMetadataSizeOf (Some bs) = Some (zlen bs))
  end &&
  match sc_children s with
  | None => sc_n_children s =? 0
  | Some cs =>
      (0 <? sc_n_children s) && (sc_n_children s =? zlen cs) &&
      forallb (fun c => match c with Some c => schema_wf c | None => false end) cs
  end &&
  match sc_dictionary s with Some d => schema_wf d | None => true end.

(** Induction over the tree. *)
Section schema_ind.
Context (P : ArrowSchema -> Prop).
Context (step : forall s,
  (forall cs, sc_children s = Some cs -> Forall (fun c => forall x, c = Some x -> P x) cs) ->
  (forall d, sc_dictionary s = Some d -> P d) -> P s).
Fixpoint schema_tree_ind (s : ArrowSchema) : P s.
Proof.
  apply step.
  - intros cs Hcs. destruct s as [f n m fl nc ch dict r i]; simpl in Hcs. destruct ch as [l|]; [|discriminate Hcs].
    injection Hcs as <-.
    induction l as [|c l IH]; constructor; [|exact IH].
    destruct c as [x|]; intros y Hy; [|discriminate Hy].
    injection Hy as <-. apply schema_tree_ind.
  - intros d Hd. destruct s as [f n m fl nc ch dict r i]; simpl in Hd. destruct dict as [x|]; [|discriminate Hd].
    injection Hd as <-. apply schema_tree_ind.
Defined.
End schema_ind.

Section schema_facts.
Context `{Libc}.
Implicit Types s t : ArrowSchema.

(** An allocation the platform refused. *)
Definition refused : Prop := exists n, malloc_ok n = false.
Definition enomem {T} (c : Z) (_ : T) : Prop := c = ENOMEM /\ refused.

Lemma wp_determinate (Q : unit -> ArrowSchema -> Prop) E t :
  sc_indeterminate t = false -> Q tt t -> wp determinate Q E t.
Proof. intros Ht HQ. unfold wp, determinate, mbind, M_bind, gets; simpl. by rewrite Ht. Qed.

(** A field is replaced, or the platform refused the copy and the schema is still whole. *)
Lemma set_format_spec f t :
  sc_indeterminate t = false ->
  wp (ArrowSchemaSetFormat f) (fun _ t' => t' = set_format f t)
    (fun c t' => enomem c t' /\ t' = set_format None t) t.
Proof.
  intros Ht. unfold ArrowSchemaSetFormat. apply wp_bind, wp_determinate; [done|].
  destruct f as [f|]; [|by apply wp_modify].
  destruct (malloc_ok _) eqn:Hm; [by apply wp_modify|]. wp_steps. by split; [split; [|eexists]|].
Qed.
Lemma set_name_spec n t :
  sc_indeterminate t = false ->
  wp (ArrowSchemaSetName n) (fun _ t' => t' = set_name n t)
    (fun c t' => enomem c t' /\ t' = set_name None t) t.
Proof.
  intros Ht. unfold ArrowSchemaSetName. apply wp_bind, wp_determinate; [done|].
  destruct n as [n|]; [|by apply wp_modify].
  destruct (malloc_ok _) eqn:Hm; [by apply wp_modify|]. wp_steps. by split; [split; [|eexists]|].
Qed.
Lemma set_metadata_spec m t :
  sc_indeterminate t = false ->
  (forall bs, m = Some bs -> ArrowMetadataSizeOf (Some bs) = Some (zlen bs)) ->
  wp (ArrowSchemaSetMetadata m) (fun _ t' => t' = set_metadata m t)
    (fun c t' => enomem c t' /\ t' = set_metadata None t) t.
Proof.
  intros Ht Hm. unfold ArrowSchemaSetMetadata. apply wp_bind, wp_determinate; [done|].
  destruct m as [bs|]; [|by apply wp_modify]. rewrite (Hm bs eq_refl).
  apply wp_bind, wp_ret. destruct (malloc_ok _) eqn:Hok.
  - apply wp_bind. eapply wp_lift_opt.
    { unfold read_at. pose proof (zlen_nonneg bs).
      rewrite !(proj2 (Z.leb_le _ _)) by lia. done. }
    apply wp_modify. rewrite drop_0, take_ge; [done|]. unfold zlen. lia.
  - wp_steps. by split; [split; [|eexists]|].
Qed.

(** The children allocated so far are indeterminate and the rest are null. *)
Definition allocated (n : Z) (i : Z) : list (option ArrowSchema) :=
  replicate (Z.to_nat i) (Some indet_schema) ++ replicate (Z.to_nat (n - i)) None.

Lemma allocated_step n i :
  0 <= i < n -> <[Z.to_nat i := Some indet_schema]> (allocated n i) = allocated n (i + 1).
Proof.
  intros Hi. unfold allocated.
  replace (Z.to_nat (n - i)) with (S (Z.to_nat (n - (i + 1)))) by lia.
  replace (Z.to_nat (i + 1)) with (Z.to_nat i + 1)%nat by lia.
  rewrite insert_app_r_alt by (rewrite length_replicate; lia).
  rewrite length_replicate, Nat.sub_diag, replicate_add, <- app_assoc. done.
Qed.

Lemma allocate_children_spec n t :
  sc_indeterminate t = false -> sc_children t = None -> 0 <= n ->
  wp (ArrowSchemaAllocateChildren n)
    (fun _ t' => t' = if n =? 0 then t
       else set_n_children n (set_children (Some (allocated n n)) t))
    (fun c t' => enomem c t' /\ sc_indeterminate t' = false /\ sc_release t' = sc_release t) t.
Proof.
  intros Ht Hc Hn. unfold ArrowSchemaAllocateChildren. apply wp_bind, wp_determinate; [done|].
  wp_steps. rewrite Hc. simpl. rewrite Z.gtb_ltb.
  destruct (Z.ltb_spec 0 n); [|by replace n with 0 by lia].
  rewrite (proj2 (Z.eqb_neq _ _)) by lia.
  destruct (malloc_ok _) eqn:Hm; [|wp_steps; by split_and!; [split; [|eexists]|..]].
  wp_steps. unfold for_range.
  pose (I := fun (i : Z) t' => 0 <= i /\
    t' = set_n_children n (set_children (Some (allocated n i)) t)).
  eapply wp_conseq; [apply (wp_for_loop I) | |].
  - split; [done|]. unfold allocated. by rewrite Z.sub_0_r.
  - intros i u Hi [_ ->]. destruct (malloc_ok sizeof_ArrowSchema) eqn:Hm2.
    + apply wp_modify. split; [lia|]. simpl.
      unfold list_insert. by rewrite <- allocated_step by lia.
    + apply wp_exit. instantiate (1 := fun c t' => enomem c t' /\
        sc_indeterminate t' = false /\ sc_release t' = sc_release t).
      by split_and!; [split; [|eexists]|..].
  - intros [] t' [_ ->]. by replace (0 + Z.of_nat (Z.to_nat (n - 0))) with n by lia.
  - done.
Qed.

Lemma wp_or_release m (Q : unit -> ArrowSchema -> Prop) (E : Z -> ArrowSchema -> Prop) t :
  wp m Q (fun c t' => c <> 0 /\ sc_release t' = true /\ E c indet_schema) t ->
  wp (or_release m) Q E t.
Proof.
  unfold or_release, wp, catch, mbind, M_bind. destruct (m t) as [[] t'|c t'| |]; auto.
  intros (Hc & Hr & HE). rewrite (proj2 (Z.eqb_neq _ _)) by done. simpl.
  unfold ArrowSchemaRelease, mbind, M_bind, gets; simpl. by rewrite Hr.
Qed.

Lemma wp_on_child {A} i c cs (m : M ArrowSchema A) Q E t :
  0 <= i -> sc_children t = Some cs -> cs !! Z.to_nat i = Some (Some c) ->
  wp m (fun a c' => Q a (set_children (Some (<[Z.to_nat i := Some c']> cs)) t))
       (fun e c' => E e (set_children (Some (<[Z.to_nat i := Some c']> cs)) t)) c ->
  wp (on_child i m) Q E t.
Proof.
  intros Hi Hcs Hc Hm. unfold on_child, wp, mbind, M_bind, gets; simpl. rewrite Hcs.
  simpl. rewrite (proj2 (Z.leb_le _ _)) by done. rewrite Hc. simpl.
  unfold wp in Hm. by destruct (m c).
Qed.

(** The state of the copy after its first [i] children. *)
Definition copied (base : ArrowSchema) (cs : list (option ArrowSchema)) (i : Z) : ArrowSchema :=
  set_children (Some (take (Z.to_nat i) cs ++
    replicate (Z.to_nat (zlen cs - i)) (Some indet_schema))) base.

Definition deep_copies (c : ArrowSchema) : Prop :=
  schema_wf c = true -> forall t,
  wp (ArrowSchemaDeepCopy c) (fun _ t' => t' = c)
     (fun e t' => enomem e t' /\ t' = indet_schema) t.

Lemma copied_step base cs i c :
  0 <= i < zlen cs -> cs !! Z.to_nat i = Some c ->
  set_children (Some (<[Z.to_nat i := c]> (take (Z.to_nat i) cs ++
    replicate (Z.to_nat (zlen cs - i)) (Some indet_schema)))) base = copied base cs (i + 1).
Proof.
  intros Hi Hc. unfold copied, zlen in *. do 2 f_equal.
  replace (Z.to_nat (Z.of_nat (length cs) - i))
    with (S (Z.to_nat (Z.of_nat (length cs) - (i + 1)))) by lia.
  replace (Z.to_nat (i + 1)) with (S (Z.to_nat i)) by lia.
  rewrite (take_S_r _ _ _ Hc), <- app_assoc.
  rewrite insert_app_r_alt by (rewrite length_take; lia).
  rewrite length_take, Nat.min_l, Nat.sub_diag by lia. done.
Qed.

Lemma copy_children_spec base cs rest i :
  sc_release base = true -> 0 <= i -> drop (Z.to_nat i) cs = rest ->
  Forall (fun c => forall x, c = Some x -> deep_copies x) cs ->
  forallb (fun c => match c with Some c => schema_wf c | None => false end) cs = true ->
  wp (copy_children ArrowSchemaDeepCopy (zlen cs) rest i)
    (fun _ t' => t' = copied base cs (zlen cs))
    (fun e t' => enomem e t' /\ t' = indet_schema) (copied base cs i).
Proof.
  intros Hr Hi Hrest Hall Hwf. revert i Hi Hrest.
  induction rest as [|c rest IH]; intros i Hi Hrest; cbn [copy_children].
  { assert (zlen cs <= i) as Hle.
    { apply (f_equal length) in Hrest. rewrite length_drop in Hrest. simpl in Hrest.
      unfold zlen. lia. }
    rewrite (proj2 (Z.leb_le _ _)) by done. apply wp_ret. unfold copied, zlen in *.
    rewrite !take_ge by lia. do 3 f_equal.
    by replace (Z.to_nat (Z.of_nat (length cs) - i)) with (Z.to_nat (Z.of_nat (length cs) - Z.of_nat (length cs))) by lia. }
  assert (cs !! Z.to_nat i = Some c) as Hc.
  { rewrite <- (Nat.add_0_r (Z.to_nat i)), <- lookup_drop, Hrest. done. }
  apply lookup_lt_Some in Hc as Hlt.
  rewrite (proj2 (Z.leb_gt _ _)) by (unfold zlen; lia).
  rewrite Forall_forall in Hall. rewrite forallb_forall in Hwf.
  assert (c ∈ cs) as Hin by (by eapply list_elem_of_lookup_2).
  specialize (Hall c Hin). specialize (Hwf c (proj1 (list_elem_of_In _ _) Hin)).
  destruct c as [c|]; [|done].
  apply wp_bind, wp_or_release.
  eapply wp_on_child; [done|done| |].
  { rewrite lookup_app_r by (rewrite length_take; lia).
    rewrite length_take, Nat.min_l, Nat.sub_diag by lia.
    apply lookup_replicate. split; [done|]. unfold zlen. lia. }
  eapply wp_conseq; [apply (Hall c eq_refl Hwf)| |].
  - intros [] c' ->. simpl.
    replace (set_children _ _) with (copied base cs (i + 1))
      by (rewrite <- copied_step with (c := Some c) by (unfold zlen in *; auto; lia); done).
    apply IH; [lia|]. replace (Z.to_nat (i + 1)) with (1 + Z.to_nat i)%nat by lia.
    by rewrite <- skipn_skipn, Hrest.
  - intros e c' [[-> ?] ->]. simpl. by split_and!.
Qed.

Lemma wp_on_dictionary m Q E t d :
  sc_dictionary t = Some d ->
  wp m (fun _ d' => Q tt (set_dictionary (Some d') t))
       (fun e d' => E e (set_dictionary (Some d') t)) d ->
  wp (on_dictionary m) Q E t.
Proof.
  intros Hd Hm. unfold on_dictionary, wp, mbind, M_bind, gets; simpl. rewrite Hd. simpl.
  unfold wp in Hm. by destruct (m d).
Qed.

Lemma deep_copy_dictionary d t :
  schema_wf d = true -> deep_copies d -> sc_indeterminate t = false ->
  sc_release t = true -> sc_dictionary t = None ->
  wp (or_release ArrowSchemaAllocateDictionary ;;
      or_release (on_dictionary (ArrowSchemaDeepCopy d)))
    (fun _ t' => t' = set_dictionary (Some d) t)
    (fun e t' => enomem e t' /\ t' = indet_schema) t.
Proof.
  intros Hwf Hd Hi Hr Hnone. apply wp_bind, wp_or_release.
  unfold ArrowSchemaAllocateDictionary. apply wp_bind, wp_determinate; [done|].
  wp_steps. rewrite Hnone. simpl. destruct (malloc_ok _) eqn:Hm; wp_steps.
  - apply wp_or_release. eapply wp_on_dictionary; [done|].
    eapply wp_conseq; [apply (Hd Hwf)|..]; simpl.
    + by intros [] d' ->.
    + intros e d' [[-> ?] ->]. by split_and!.
  - by split_and!; [| |split; [|eexists]|].
Qed.

Lemma deep_copy_spec s : deep_copies s.
Proof.
  induction s as [s IHc IHd] using schema_tree_ind. intros Hwf t.
  destruct s as [f nm md fl nc ch dict r ind]. simpl in Hwf, IHc, IHd.
  apply andb_prop in Hwf as [[[[Hi Hr]%andb_prop Hm]%andb_prop Hch]%andb_prop Hdict].
  destruct ind; [done|]. destruct r; [|done].
  cbn [ArrowSchemaDeepCopy sc_format sc_name sc_metadata sc_flags sc_n_children sc_children
       sc_dictionary sc_indeterminate].
  unfold ArrowSchemaInit. wp_steps.
  apply wp_or_release. eapply wp_conseq; [by apply set_format_spec|..]; simpl.
  2:{ by intros e ? [[-> ?] ->]. }
  intros _ ? ->. wp_steps.
  apply wp_or_release. eapply wp_conseq; [by apply set_name_spec|..]; simpl.
  2:{ by intros e ? [[-> ?] ->]. }
  intros _ ? ->. wp_steps.
  apply wp_or_release. eapply wp_conseq; [apply set_metadata_spec; [done|]|..]; simpl.
  { intros bs ->. by apply bool_decide_eq_true in Hm. }
  2:{ by intros e ? [[-> ?] ->]. }
  intros _ ? ->. wp_steps.
  assert (0 <= nc) as Hnc.
  { destruct ch; [|apply Z.eqb_eq in Hch; lia].
    by apply andb_prop in Hch as [[Hch _]%andb_prop _]; apply Z.ltb_lt in Hch; lia. }
  apply wp_or_release. eapply wp_conseq; [by apply allocate_children_spec|..]; simpl.
  2:{ intros e ? ([-> ?] & _ & Hr'). by rewrite Hr'. }
  intros _ ? ->. wp_steps.
  eapply (wp_conseq _ (fun _ t' => t' = mkSchema f nm md fl nc ch None true false) _
            (fun e t' => enomem e t' /\ t' = indet_schema));
    [destruct ch as [cs|]| |done].
  - apply andb_prop in Hch as [[Hpos%Z.ltb_lt Hlen%Z.eqb_eq]%andb_prop Hall].
    rewrite (proj2 (Z.eqb_neq _ _)) by lia. subst nc.
    pose (base := mkSchema f nm md fl (zlen cs) (Some cs) None true false).
    match goal with |- wp _ _ _ ?u => replace u with (copied base cs 0) end.
    2:{ unfold copied, allocated. simpl. rewrite Z.sub_0_r, Z.sub_diag. simpl.
        by rewrite app_nil_r. }
    eapply wp_conseq; [by apply (copy_children_spec base); auto| |done].
    intros [] t' ->. unfold copied. rewrite Z.sub_diag, take_ge by (unfold zlen; lia).
    simpl. by rewrite app_nil_r.
  - apply Z.eqb_eq in Hch as ->. by apply wp_ret.
  - intros [] t' ->. destruct dict as [d|]; [|by apply wp_ret].
    eapply wp_conseq; [apply deep_copy_dictionary; auto|by intros [] ? ->|done].
Qed.

(** ** Structs under construction, and types that are their format *)
Definition fresh_schema : ArrowSchema := mkSchema None None None ARROW_FLAG_NULLABLE 0 None None true false.
Definition fresh_child : option ArrowSchema := Some fresh_schema.
Definition struct_with (children : list (option ArrowSchema)) : ArrowSchema :=
  mkSchema (Some "+s"%string) None None ARROW_FLAG_NULLABLE (zlen children)
    (match children with [] => None | _ => Some children end) None true false.
Lemma set_struct_spec n : 0 <= n ->
  wp (ArrowSchemaSetTypeStruct n) (fun _ t => t = struct_with (replicate (Z.to_nat n) fresh_child))
    (fun c _ => enomem c tt) fresh_schema.
Proof.
  intros Hn. unfold ArrowSchemaSetTypeStruct, ArrowSchemaSetType. cbn [set_type].
  apply wp_bind, wp_bind, wp_ret, wp_bind.
  eapply wp_conseq; [by apply set_format_spec| |by intros c t' [[-> ?] _]].
  intros [] t ->. apply wp_ret, wp_bind.
  eapply wp_conseq; [by apply allocate_children_spec| |by intros c t' [[-> ?] _]].
  intros [] t ->. destruct (Z.eqb_spec n 0) as [-> |Hz]; [done|].
  set (inited := fun i => set_n_children n (set_children
         (Some (replicate i fresh_child ++ replicate (Z.to_nat n - i) (Some indet_schema)))
         (set_format (Some "+s"%string) fresh_schema))).
  eapply wp_conseq; [apply (wp_for_loop (fun i t' => t' = inited (Z.to_nat i)) _ _ _ (fun c _ => enomem c tt))| |done].
  - unfold inited, allocated. rewrite Z.sub_diag. change (Z.to_nat 0) with 0%nat. cbn [replicate].
    by rewrite Nat.sub_0_r, app_nil_r.
  - intros i t Hi ->. eapply wp_on_child; [lia|done| |].
    + rewrite lookup_app_r by (rewrite length_replicate; lia). rewrite length_replicate, Nat.sub_diag.
      apply lookup_replicate_2. lia.
    + unfold ArrowSchemaInit. apply wp_put. unfold inited. unfold set_children, set_n_children. simpl.
      do 2 f_equal. rewrite (children_step _ _ _ (Z.to_nat i) (Z.to_nat n)) by (rewrite ?length_replicate; lia).
      replace (Z.to_nat (i + 1)) with (Z.to_nat i + 1)%nat by lia.
      by rewrite replicate_add, <- app_assoc, Nat.add_1_r.
  - intros [] t ->. replace (Z.to_nat (0 + _)) with (Z.to_nat n) by lia.
    unfold inited, struct_with. rewrite Nat.sub_diag, app_nil_r. unfold zlen. rewrite length_replicate, Z2Nat.id by lia.
    destruct (Z.to_nat n) eqn:E; [lia|]. done.
Qed.

(** Types without parameters and without implied children. *)
Definition flat_type (type : ArrowType) : bool :=
  match type with
  | TYPE_LIST | TYPE_LARGE_LIST | TYPE_MAP => false
  | _ => bool_decide (is_Some (ArrowSchemaFormatTemplate type))
  end.
Lemma set_flat_type type c : flat_type type = true -> sc_indeterminate c = false ->
  wp (ArrowSchemaSetType type) (fun _ c' => c' = set_format (ArrowSchemaFormatTemplate type) c)
    (fun code _ => enomem code tt) c.
Proof.
  intros Ht Hc. unfold ArrowSchemaSetType. cbn [set_type]. apply wp_bind.
  assert (exists f, ArrowSchemaFormatTemplate type = Some f) as [f Hf] by (destruct type; (discriminate Ht || by eexists)).
  rewrite Hf, bool_decide_false by by intros []. apply wp_ret, wp_bind.
  eapply wp_conseq; [by apply set_format_spec| |by intros code c' [[-> ?] _]].
  intros [] c' ->. by destruct type.
Qed.
End schema_facts.

(** * Properties *)

(** C39: Deep-copying a well-formed schema yields an equal, independent tree (format, name,
    metadata, flags, children and dictionary at every level, release callbacks set); the
    only other outcome is [ENOMEM] when the platform refuses an allocation, and then the
    half-made copy has been released. *)
Theorem ArrowSchemaDeepCopy_correct `{Libc} (schema schema_out : ArrowSchema)
  (Hwf : schema_wf schema = true) :
  wp (ArrowSchemaDeepCopy schema) (fun _ out => out = schema)
    (fun code out => code = ENOMEM /\ (exists n, malloc_ok n = false) /\ out = indet_schema)
    schema_out.
Proof.
  eapply wp_conseq; [by apply deep_copy_spec|done|]. by intros c t [[-> ?] ->].
Qed.

(** A record column with metadata, a nullable text field and a dictionary-encoded field. *)
Definition example_leaf (f n : string) (d : option ArrowSchema) : ArrowSchema :=
  mkSchema (Some f) (Some n) None 2 0 None d true false.
Definition example_schema : ArrowSchema :=
  mkSchema (Some "+s"%string) (Some "rec"%string)
    (Some (le_bytes 4 1 ++ le_bytes 4 1 ++ [107] ++ le_bytes 4 2 ++ [118; 49])) 0 2
    (Some [Some (example_leaf "u" "name" None);
           Some (example_leaf "i" "code" (Some (example_leaf "u" "" None)))]) None true false.

Lemma ArrowSchemaDeepCopy_witness :
  schema_wf example_schema = true /\
  wp (@ArrowSchemaDeepCopy host example_schema) (fun _ out => out = example_schema)
    (fun code out => code = ENOMEM /\ (exists n, @malloc_ok host n = false) /\ out = indet_schema)
    zero_schema.
Proof.
  split; [by vm_compute|]. apply (@ArrowSchemaDeepCopy_correct host). by vm_compute.
Defined.
