(* ===== verification/Metadata.v ===== *)
(** nanoarrow's metadata builder (c/vendor/nanoarrow/nanoarrow.c): key-value pairs encoded in a
    growable buffer.  The theorems relate the buffer to the list of its pairs. *)
From stdpp Require Import base tactics list numbers option.
From Stdlib Require Import ZArith Lia.
From S2P Require Import Prelude CLib Buffer Schema.

(** * The code *)

(** [struct ArrowStringView]: the readable memory at [data], and the size. *)
Record ArrowStringView := mkStringView { sv_data : list Z; sv_size_bytes : Z }.
Definition bytes_view (bytes : list Z) : ArrowStringView := mkStringView bytes (zlen bytes).
(** The [n] bytes that a [memcpy] copies. *)
Definition sized_bytes (v : ArrowStringView) (n : Z) : option (list Z) :=
  if n <=? 0 then Some [] else read_at (sv_data v) 0 n.
(** A key or value inside a blob. *)
Definition existing (bs : list Z) (v : md_view) : ArrowStringView :=
  mkStringView (drop (Z.to_nat (mv_offset v)) bs) (mv_size_bytes v).

Definition ArrowMetadataHasKey (metadata : option (list Z)) (key : list Z) : option bool :=
  value ← ArrowMetadataGetValue metadata key;
  Some (match value with Some _ => true | None => false end).

Section builder.
Context `{Libc}.

Definition ArrowMetadataBuilderInit (metadata : option (list Z)) : M ArrowBuffer unit :=
  put ArrowBufferInit ;;
  size ← lift_opt (ArrowMetadataSizeOf metadata);
  bytes ← lift_opt (read_at (default [] metadata) 0 size);
  ArrowBufferAppend bytes.

(** A null [value] appends nothing.  The sizes are cut to 32 bits. *)
Definition ArrowMetadataBuilderAppendInternal (key : ArrowStringView) (value : option ArrowStringView)
    : M ArrowBuffer unit :=
  match value with
  | None => mret tt
  | Some value =>
      b ← gets id;
      when (buf_capacity_bytes b =? 0) (ArrowBufferAppendInt32 0) ;;
      b ← gets id;
      if to_unsigned 64 (buf_capacity_bytes b) <? 4 then exit EINVAL else
      l ← lift_opt (buf_data b);
      n_keys ← lift_opt (read_i32 l 0);
      let key_size := to_signed 32 (sv_size_bytes key) in
      let value_size := to_signed 32 (sv_size_bytes value) in
      ArrowBufferReserve (4 + key_size + 4 + value_size) ;;
      ArrowBufferAppendUnsafe (le_bytes 4 key_size) ;;
      k ← lift_opt (sized_bytes key key_size);
      ArrowBufferAppendUnsafe k ;;
      ArrowBufferAppendUnsafe (le_bytes 4 value_size) ;;
      v ← lift_opt (sized_bytes value value_size);
      ArrowBufferAppendUnsafe v ;;
      n_keys ← i32 (n_keys + 1);
      b ← gets id;
      l ← lift_opt (buf_data b);
      l' ← lift_opt (write_at l 0 (le_bytes 4 n_keys));
      modify (set_data (Some l'))
  end.

(** Sizes equal and [strncmp] zero. *)
Definition same_key (bs : list Z) (k : md_view) (key : list Z) : option bool :=
  if mv_size_bytes k =? zlen key then
    e ← read_at bs (mv_offset k) (mv_size_bytes k); Some (strncmp_eq key e)
  else Some false.
(** The loop that copies the pairs of [bs] into a new buffer: the first pair with the key gets
    the new value, later ones none. *)
Fixpoint copy_pairs (fuel : nat) (bs : list Z) (reader : ArrowMetadataReader) (key : list Z)
    (value : option (list Z)) : M ArrowBuffer unit :=
  match fuel with
  | O => nofuel
  | S fuel' =>
      if mr_remaining_keys reader <=? 0 then mret tt else
      next ← lift_opt (ArrowMetadataReaderRead bs reader);
      match next with
      | None => exit EINVAL
      | Some (k, v, reader') =>
          same ← lift_opt (same_key bs k key);
          if same : bool then
            ArrowMetadataBuilderAppendInternal (bytes_view key) (bytes_view <$> value) ;;
            copy_pairs fuel' bs reader' key None
          else
            ArrowMetadataBuilderAppendInternal (existing bs k) (Some (existing bs v)) ;;
            copy_pairs fuel' bs reader' key value
      end
  end.
(** [new_buffer] is a local variable; on an error it is reset and the old one is kept. *)
Definition ArrowMetadataBuilderSetInternal (key : list Z) (value : option (list Z))
    : M ArrowBuffer unit :=
  b ← gets id;
  current_value ← lift_opt (ArrowMetadataGetValue (buf_data b) key);
  match current_value, value with
  | None, None => mret tt
  | None, Some v => ArrowMetadataBuilderAppendInternal (bytes_view key) (Some (bytes_view v))
  | Some _, _ =>
      reader ← lift_opt (ArrowMetadataReaderInit (buf_data b));
      (fun buffer =>
         match (ArrowMetadataBuilderInit None ;;
                copy_pairs (metadata_fuel reader) (default [] (buf_data b)) reader key value) zero_buffer with
         | Ret _ new_buffer => (ArrowBufferReset ;; put new_buffer) buffer
         | Exit c new_buffer =>
             match ArrowBufferReset new_buffer with Undef => Undef | _ => Exit c buffer end
         | Undef => Undef
         | NoFuel => NoFuel
         end) : M ArrowBuffer unit
  end.

Definition ArrowMetadataBuilderAppend (key value : list Z) : M ArrowBuffer unit :=
  ArrowMetadataBuilderAppendInternal (bytes_view key) (Some (bytes_view value)).
Definition ArrowMetadataBuilderSet (key value : list Z) : M ArrowBuffer unit :=
  ArrowMetadataBuilderSetInternal key (Some value).
Definition ArrowMetadataBuilderRemove (key : list Z) : M ArrowBuffer unit :=
  ArrowMetadataBuilderSetInternal key None.
End builder.

(** * Pairs and their encoding *)
Definition entry_bytes (p : list Z * list Z) : list Z :=
  le_bytes 4 (zlen p.1) ++ p.1 ++ le_bytes 4 (zlen p.2) ++ p.2.
Definition pairs_bytes (kvs : list (list Z * list Z)) : list Z := concat (map entry_bytes kvs).
Definition metadata_bytes (kvs : list (list Z * list Z)) : list Z :=
  le_bytes 4 (zlen kvs) ++ pairs_bytes kvs.
(** What the code takes for the same key: equal sizes, equal up to a null byte. *)
Fixpoint c_prefix (l : list Z) : list Z :=
  match l with x :: l' => if x =? 0 then [] else x :: c_prefix l' | [] => [] end.
Definition key_eq (a b : list Z) : Prop := length a = length b /\ c_prefix a = c_prefix b.
#[global] Instance key_eq_dec a b : Decision (key_eq a b).
Proof. unfold key_eq. apply _. Defined.
Lemma strncmp_prefix a b : length a = length b -> strncmp_eq a b = bool_decide (c_prefix a = c_prefix b).
Proof.
  revert b. induction a as [|x a IH]; intros [|y b] Hl; try done. simpl in *.
  destruct (Z.eqb_spec x y) as [->|Hne]; simpl.
  - rewrite IH by congruence. destruct (y =? 0) eqn:Hy; simpl; [done|].
    apply bool_decide_ext. split; congruence.
  - symmetry. apply bool_decide_eq_false. destruct (Z.eqb_spec x 0), (Z.eqb_spec y 0); congruence.
Qed.
Fixpoint pairs_find (key : list Z) (kvs : list (list Z * list Z)) : option (list Z) :=
  match kvs with
  | [] => None
  | (k, v) :: r => if decide (key_eq key k) then Some v else pairs_find key r
  end.
Fixpoint pairs_replace (key : list Z) (value : option (list Z)) (kvs : list (list Z * list Z))
    : list (list Z * list Z) :=
  match kvs with
  | [] => []
  | (k, v) :: r =>
      if decide (key_eq key k) then
        match value with Some x => [(key, x)] | None => [] end ++ pairs_replace key None r
      else (k, v) :: pairs_replace key value r
  end.
Definition pairs_set (key : list Z) (value : option (list Z)) (kvs : list (list Z * list Z))
    : list (list Z * list Z) :=
  match pairs_find key kvs, value with
  | None, Some v => kvs ++ [(key, v)]
  | None, None => kvs
  | Some _, _ => pairs_replace key value kvs
  end.

#[global] Instance key_eq_equivalence : Equivalence key_eq.
Proof. split; unfold key_eq; repeat intro; intuition congruence. Qed.
#[global] Instance pairs_find_proper : Proper (key_eq ==> eq ==> eq) pairs_find.
Proof.
  intros a b Hab kvs ? <-. induction kvs as [|[k v] kvs IH]; [done|]. simpl. rewrite IH.
  destruct (decide (key_eq a k)) as [Ha|Ha]; rewrite Hab in Ha; [by rewrite decide_True|by rewrite decide_False].
Qed.
Lemma pairs_find_app key l l' :
  pairs_find key (l ++ l') = match pairs_find key l with Some v => Some v | None => pairs_find key l' end.
Proof. induction l as [|[k v] l IH]; [done|]. simpl. by destruct (decide (key_eq key k)). Qed.
Lemma pairs_find_replace_ne key' key value kvs : ~ key_eq key' key ->
  pairs_find key' (pairs_replace key value kvs) = pairs_find key' kvs.
Proof.
  intros Hne. revert value. induction kvs as [|[k v] kvs IH]; intros value; [done|]. simpl.
  destruct (decide (key_eq key k)) as [Hd|Hd].
  - rewrite (decide_False (P := key_eq key' k)) by (rewrite <- Hd; done).
    destruct value; simpl; [rewrite decide_False by done|]; apply IH.
  - simpl. by rewrite IH.
Qed.
Lemma pairs_find_replace key value kvs :
  pairs_find key (pairs_replace key value kvs) = match pairs_find key kvs with Some _ => value | None => None end.
Proof.
  revert value. induction kvs as [|[k v] kvs IH]; intros value; [done|]. simpl.
  destruct (decide (key_eq key k)) as [Hd|Hd].
  - destruct value; simpl; [by rewrite decide_True|]. rewrite IH. by destruct (pairs_find key kvs).
  - simpl. by rewrite decide_False.
Qed.
(** Looking up in the list that a set or a removal leaves. *)
Lemma pairs_find_set key' key value kvs :
  pairs_find key' (pairs_set key value kvs) = if decide (key_eq key' key) then value else pairs_find key' kvs.
Proof.
  unfold pairs_set. destruct (decide (key_eq key' key)) as [Hd|Hd].
  - rewrite Hd. destruct (pairs_find key kvs) as [v|] eqn:Hf; [by rewrite pairs_find_replace, Hf|].
    destruct value; [|done]. rewrite pairs_find_app, Hf. simpl. by rewrite decide_True.
  - destruct (pairs_find key kvs) as [v|] eqn:Hf; [by apply pairs_find_replace_ne|].
    destruct value; [|done]. rewrite pairs_find_app. simpl. rewrite decide_False by done. by destruct (pairs_find key' kvs).
Qed.

Lemma zlen_entry p : zlen (entry_bytes p) = 8 + zlen p.1 + zlen p.2.
Proof. unfold entry_bytes. rewrite !zlen_app, !zlen_le_bytes. lia. Qed.
Lemma le_i32 n : 0 <= n <= INT32_MAX -> le_sint (le_bytes 4 n) = n.
Proof. intros Hn. apply le_sint_le_bytes; [lia|]. unfold INT32_MAX in Hn. change (8 * Z.of_nat 4 - 1) with 31. lia. Qed.
Lemma read_at_app pre x post : read_at (pre ++ x ++ post) (zlen pre) (zlen x) = Some x.
Proof.
  unfold read_at. pose proof (zlen_nonneg pre). pose proof (zlen_nonneg x). pose proof (zlen_nonneg post).
  rewrite !(proj2 (Z.leb_le _ _)) by (rewrite ?zlen_app; lia). simpl. f_equal. unfold zlen. rewrite !Nat2Z.id.
  rewrite drop_app_length. apply take_app_length.
Qed.
Lemma read_i32_app pre n post : 0 <= n <= INT32_MAX -> read_i32 (pre ++ le_bytes 4 n ++ post) (zlen pre) = Some n.
Proof.
  intros Hn. unfold read_i32. pose proof (read_at_app pre (le_bytes 4 n) post) as Hr. rewrite zlen_le_bytes in Hr.
  change (Z.of_nat 4) with 4 in Hr. rewrite Hr. cbn [fmap option_fmap option_map]. by rewrite le_i32.
Qed.

(** ** Reading *)
Definition pair_ok (p : list Z * list Z) : Prop :=
  Forall is_byte p.1 /\ Forall is_byte p.2 /\ zlen p.1 <= INT32_MAX /\ zlen p.2 <= INT32_MAX.
Lemma entry_byte p : pair_ok p -> Forall is_byte (entry_bytes p).
Proof. intros (? & ? & _). unfold entry_bytes. repeat apply Forall_app_2; auto using le_bytes_byte. Qed.
(** The first pair of what is left. *)
Lemma read_pair pre k v post n : pair_ok (k, v) -> 0 < n ->
  let l := pre ++ entry_bytes (k, v) ++ post in
  let kv := mkMdView (zlen pre + 4) (zlen k) in
  let vv := mkMdView (zlen pre + 4 + zlen k + 4) (zlen v) in
  ArrowMetadataReaderRead l (mkReader (zlen pre) n) =
    Some (Some (kv, vv, mkReader (zlen (pre ++ entry_bytes (k, v))) (n - 1))) /\
  read_at l (mv_offset kv) (zlen k) = Some k /\ read_at l (mv_offset vv) (zlen v) = Some v.
Proof.
  intros (_ & _ & Hk & Hv) Hn. cbv zeta. cbn [mv_offset]. simpl in Hk, Hv.
  pose proof (zlen_nonneg k). pose proof (zlen_nonneg v).
  set (pk := pre ++ le_bytes 4 (zlen k)). set (pv := pk ++ k ++ le_bytes 4 (zlen v)).
  assert (zlen pk = zlen pre + 4) as Hpk by (unfold pk; rewrite zlen_app, zlen_le_bytes; lia).
  assert (zlen pv = zlen pre + 4 + zlen k + 4) as Hpv by (unfold pv; rewrite !zlen_app, zlen_le_bytes; lia).
  assert (pre ++ entry_bytes (k, v) ++ post = pk ++ k ++ (le_bytes 4 (zlen v) ++ v ++ post)) as H1
    by (unfold pk, entry_bytes; cbn [fst snd]; by rewrite <- !app_assoc).
  assert (pre ++ entry_bytes (k, v) ++ post = pv ++ v ++ post) as H2
    by (unfold pv, pk, entry_bytes; cbn [fst snd]; by rewrite <- !app_assoc).
  split_and!.
  - unfold ArrowMetadataReaderRead. cbn [mr_remaining_keys mr_offset]. rewrite (proj2 (Z.leb_gt n 0)) by lia.
    assert (read_i32 (pre ++ entry_bytes (k, v) ++ post) (zlen pre) = Some (zlen k)) as ->.
    { unfold entry_bytes. cbn [fst snd]. rewrite <- !app_assoc. apply read_i32_app. lia. }
    cbn [mbind option_bind].
    assert (read_i32 (pre ++ entry_bytes (k, v) ++ post) (zlen pre + 4 + zlen k) = Some (zlen v)) as ->.
    { rewrite H1, app_assoc. replace (zlen pre + 4 + zlen k) with (zlen (pk ++ k)) by (rewrite zlen_app; lia).
      apply read_i32_app. lia. }
    cbn [mbind option_bind]. do 4 f_equal. rewrite zlen_app, zlen_entry. simpl. lia.
  - rewrite H1, <- Hpk. apply read_at_app.
  - rewrite H2, <- Hpv. apply read_at_app.
Qed.
Lemma key_test k key : (if zlen k =? zlen key then Some (strncmp_eq key k) else Some false) =
  Some (bool_decide (key_eq key k)).
Proof.
  destruct (Z.eqb_spec (zlen k) (zlen key)) as [Hz|Hz].
  - rewrite strncmp_prefix by (unfold zlen in Hz; lia). f_equal. apply bool_decide_ext. unfold key_eq, zlen in *. intuition lia.
  - f_equal. symmetry. apply bool_decide_eq_false. unfold key_eq, zlen in *. intuition lia.
Qed.
Lemma same_key_spec l off k key : read_at l off (zlen k) = Some k ->
  same_key l (mkMdView off (zlen k)) key = Some (bool_decide (key_eq key k)).
Proof. intros Hr. unfold same_key. simpl. rewrite Hr. cbn [mbind option_bind]. apply key_test. Qed.
Lemma find_spec key kvs : forall fuel pre post, Forall pair_ok kvs -> (length kvs < fuel)%nat ->
  metadata_find fuel (pre ++ pairs_bytes kvs ++ post) (mkReader (zlen pre) (zlen kvs)) key = Some (pairs_find key kvs).
Proof.
  induction kvs as [|[k v] kvs IH]; intros [|fuel] pre post Hok Hf; simpl in Hf; [lia|done|lia|].
  apply Forall_cons_1 in Hok as [Hp Hok].
  assert (pre ++ pairs_bytes ((k, v) :: kvs) ++ post = pre ++ entry_bytes (k, v) ++ (pairs_bytes kvs ++ post)) as Hl
    by (unfold pairs_bytes; simpl; by rewrite <- app_assoc).
  assert (zlen ((k, v) :: kvs) - 1 = zlen kvs) as Hz by (unfold zlen; simpl; lia).
  destruct (read_pair pre k v (pairs_bytes kvs ++ post) (zlen ((k, v) :: kvs)) Hp) as (Hr & Hk & Hv);
    [pose proof (zlen_nonneg kvs); lia|]. rewrite <- Hl in Hr, Hk, Hv. cbv zeta in Hr.
  cbn [metadata_find]. rewrite Hr, Hz. cbn [mbind option_bind]. cbn [mv_size_bytes mv_offset] in *. rewrite Hk.
  cbn [mbind option_bind]. pose proof (key_test k key) as Ht.
  assert (metadata_find fuel (pre ++ pairs_bytes ((k, v) :: kvs) ++ post)
      (mkReader (zlen (pre ++ entry_bytes (k, v))) (zlen kvs)) key = Some (pairs_find key kvs)) as Hrest.
  { rewrite Hl, app_assoc. apply IH; [done|lia]. }
  cbn [pairs_find]. destruct (zlen k =? zlen key); injection Ht as Ht; [rewrite Ht|].
  - rewrite Hv, Hrest. case_bool_decide as Hd; [by rewrite decide_True|by rewrite decide_False].
  - rewrite Hrest, decide_False; [done|]. symmetry in Ht. by apply bool_decide_eq_false in Ht.
Qed.
Lemma size_loop_spec kvs : forall fuel pre post size, Forall pair_ok kvs -> (length kvs < fuel)%nat ->
  metadata_size_loop fuel (pre ++ pairs_bytes kvs ++ post) (mkReader (zlen pre) (zlen kvs)) size =
    Some (size + zlen (pairs_bytes kvs)).
Proof.
  induction kvs as [|[k v] kvs IH]; intros [|fuel] pre post size Hok Hf; simpl in Hf; [lia| |lia|].
  { unfold pairs_bytes, zlen. simpl. by rewrite Z.add_0_r. }
  apply Forall_cons_1 in Hok as [Hp Hok].
  assert (pre ++ pairs_bytes ((k, v) :: kvs) ++ post = pre ++ entry_bytes (k, v) ++ (pairs_bytes kvs ++ post)) as Hl
    by (unfold pairs_bytes; simpl; by rewrite <- app_assoc).
  assert (zlen ((k, v) :: kvs) - 1 = zlen kvs) as Hz by (unfold zlen; simpl; lia).
  destruct (read_pair pre k v (pairs_bytes kvs ++ post) (zlen ((k, v) :: kvs)) Hp) as (Hr & _ & _);
    [pose proof (zlen_nonneg kvs); lia|]. rewrite <- Hl in Hr. cbv zeta in Hr.
  cbn [metadata_size_loop]. rewrite Hr, Hz. cbn [mbind option_bind mv_size_bytes]. rewrite Hl, app_assoc.
  rewrite IH by (done || lia). f_equal.
  change (pairs_bytes ((k, v) :: kvs)) with (entry_bytes (k, v) ++ pairs_bytes kvs).
  rewrite zlen_app, zlen_entry. cbn [fst snd]. lia.
Qed.

(** * Buffers that hold pairs *)
Record holds (b : ArrowBuffer) (kvs : list (list Z * list Z)) : Prop := {
  holds_buffer : buffer_ok b;
  holds_pairs : Forall pair_ok kvs;
  holds_count : zlen kvs <= INT32_MAX;
  holds_bytes : buf_data b = None /\ buf_capacity_bytes b = 0 /\ kvs = [] \/ buf_content b = metadata_bytes kvs;
}.
Lemma holds_init : holds ArrowBufferInit [].
Proof. constructor; [exact lost_buffer_ok|done|done|by left]. Qed.
(** The block begins with the contents. *)
Lemma holds_block b kvs : holds b kvs -> buf_data b = None /\ kvs = [] \/
  exists post, buf_data b = Some (metadata_bytes kvs ++ post) /\ 4 <= buf_capacity_bytes b.
Proof.
  intros [[_ Hs Hb _ _] _ _ [(? & _ & ?)|Hc]]; [by left|right].
  assert (zlen (metadata_bytes kvs) <= buf_capacity_bytes b) as Hle.
  { rewrite <- Hc. unfold buf_content. rewrite zlen_take. unfold zlen in *. lia. }
  assert (4 <= zlen (metadata_bytes kvs)).
  { unfold metadata_bytes. rewrite zlen_app, zlen_le_bytes. pose proof (zlen_nonneg (pairs_bytes kvs)). lia. }
  destruct (buf_data b) as [l|] eqn:Hd; [|unfold block_of, zlen in Hb; simpl in Hb; lia].
  exists (drop (Z.to_nat (buf_size_bytes b)) l). split; [|lia]. f_equal. rewrite <- Hc. unfold buf_content. rewrite Hd.
  symmetry. apply take_drop.
Qed.
Lemma init_spec l kvs post : l = metadata_bytes kvs ++ post -> zlen kvs <= INT32_MAX ->
  ArrowMetadataReaderInit (Some l) = Some (mkReader 4 (zlen kvs)).
Proof.
  intros -> Hn. unfold ArrowMetadataReaderInit, metadata_bytes. rewrite <- app_assoc.
  change 0 with (zlen (@nil Z)). change (le_bytes 4 (zlen kvs) ++ pairs_bytes kvs ++ post)
    with ([] ++ le_bytes 4 (zlen kvs) ++ (pairs_bytes kvs ++ post)).
  rewrite read_i32_app by (pose proof (zlen_nonneg kvs); lia). done.
Qed.
Lemma get_value_spec b kvs key : holds b kvs -> ArrowMetadataGetValue (buf_data b) key = Some (pairs_find key kvs).
Proof.
  intros Hh. destruct (holds_block _ _ Hh) as [[-> ->]|(post & Hd & _)]; [done|]. rewrite Hd.
  unfold ArrowMetadataGetValue. rewrite (init_spec _ kvs post eq_refl) by apply (holds_count _ _ Hh).
  cbn [mbind option_bind]. unfold metadata_bytes. rewrite <- app_assoc.
  apply (find_spec key kvs _ (le_bytes 4 (zlen kvs)) post); [apply (holds_pairs _ _ Hh)|].
  unfold metadata_fuel, zlen. simpl. lia.
Qed.
Lemma size_of_spec b kvs : holds b kvs ->
  ArrowMetadataSizeOf (buf_data b) = Some (match buf_data b with None => 0 | Some _ => zlen (metadata_bytes kvs) end).
Proof.
  intros Hh. destruct (holds_block _ _ Hh) as [[-> ->]|(post & Hd & _)]; [done|]. rewrite Hd.
  unfold ArrowMetadataSizeOf. rewrite (init_spec _ kvs post eq_refl) by apply (holds_count _ _ Hh).
  cbn [mbind option_bind]. unfold metadata_bytes. rewrite <- app_assoc.
  rewrite (size_loop_spec kvs _ (le_bytes 4 (zlen kvs)) post); [|apply (holds_pairs _ _ Hh)|unfold metadata_fuel, zlen; simpl; lia].
  by rewrite zlen_app, zlen_le_bytes.
Qed.

Lemma content_none b : buf_data b = None -> buf_content b = [].
Proof. intros Hd. unfold buf_content. rewrite Hd. apply take_nil. Qed.
Lemma size_of_content b kvs : holds b kvs -> ArrowMetadataSizeOf (buf_data b) = Some (zlen (buf_content b)).
Proof.
  intros Hh. rewrite (size_of_spec _ _ Hh). f_equal.
  destruct (buf_data b) as [l|] eqn:Hd; [|by rewrite content_none].
  destruct (holds_bytes _ _ Hh) as [(? & _ & _)|Hc]; [congruence|by rewrite Hc].
Qed.

(** ** Appending *)
Section append.
Context `{Libc} `{!LibcBound}.

(** What a [memcpy] of the view's bytes copies. *)
Definition shows (sv : ArrowStringView) (bytes : list Z) : Prop :=
  sv_size_bytes sv = zlen bytes /\ sized_bytes sv (zlen bytes) = Some bytes.
Lemma shows_view bytes : shows (bytes_view bytes) bytes.
Proof.
  split; [done|]. unfold sized_bytes. destruct (Z.leb_spec (zlen bytes) 0) as [Hz|Hz].
  - destruct bytes; [done|]. unfold zlen in Hz; simpl in Hz; lia.
  - pose proof (read_at_app [] bytes []) as Hr. rewrite app_nil_r in Hr. exact Hr.
Qed.
Lemma shows_existing bs off bytes : read_at bs off (zlen bytes) = Some bytes ->
  shows (existing bs (mkMdView off (zlen bytes))) bytes.
Proof.
  intros Hr. split; [done|]. unfold sized_bytes. destruct (Z.leb_spec (zlen bytes) 0) as [Hz|Hz].
  - destruct bytes; [done|]. unfold zlen in Hz; simpl in Hz; lia.
  - unfold existing, read_at in *. cbn [mv_offset mv_size_bytes sv_data]. revert Hr.
    destruct (Z.leb_spec 0 off); [|done]. destruct (Z.leb_spec 0 (zlen bytes)); [|done].
    destruct (Z.leb_spec (off + zlen bytes) (zlen bs)); [|done]. intros [= Hr].
    assert (zlen bytes <= zlen (drop (Z.to_nat off) bs)) by (rewrite zlen_drop; lia).
    destruct (Z.leb_spec (0 + zlen bytes) (zlen (drop (Z.to_nat off) bs))); [|lia]. simpl. f_equal. exact Hr.
Qed.
Lemma signed_id n : 0 <= n <= INT32_MAX -> to_signed 32 n = n.
Proof. intros Hn. unfold INT32_MAX in Hn. pose proof (to_signed_id 32 n) as Hs. unfold to_signed in *. rewrite Z.mod_mod in Hs by lia. apply Hs; lia. Qed.
Lemma append_unsafe_bind {A} b bs (k : unit -> M ArrowBuffer A) Q E :
  buffer_ok b -> Forall is_byte bs -> buf_size_bytes b + zlen bs <= buf_capacity_bytes b ->
  (forall b', buffer_ok b' -> buf_content b' = buf_content b ++ bs -> buf_capacity_bytes b' = buf_capacity_bytes b ->
     buf_size_bytes b' = buf_size_bytes b + zlen bs -> wp (k tt) Q E b') ->
  wp (ArrowBufferAppendUnsafe bs ≫= k) Q E b.
Proof.
  intros Hok Hbs Hcap Hk. apply wp_bind. eapply wp_conseq; [by apply (append_unsafe_spec b bs (fun _ _ => False))| |done].
  intros [] b' (Hok' & Hc & Hcap'). apply Hk; [done..|].
  rewrite <- (zlen_buf_content b'), <- (zlen_buf_content b), Hc, zlen_app by done. done.
Qed.
(** Storing the new count. *)
Lemma store_count b kvs p : buffer_ok b -> buf_content b = metadata_bytes kvs ++ entry_bytes p ->
  wp (b ← gets id; l ← lift_opt (buf_data b); l' ← lift_opt (write_at l 0 (le_bytes 4 (zlen kvs + 1)));
      modify (set_data (Some l')))
    (fun _ b' => buffer_ok b' /\ buf_content b' = metadata_bytes (kvs ++ [p])) (fun _ _ => False) b.
Proof.
  intros [Ha Hs Hb Hbd Hy] Hc. apply wp_bind, wp_gets. cbn [id].
  assert (zlen (buf_content b) = buf_size_bytes b) as Hz by by apply zlen_buf_content.
  assert (4 <= buf_size_bytes b).
  { rewrite <- Hz, Hc. unfold metadata_bytes. rewrite !zlen_app, zlen_le_bytes.
    pose proof (zlen_nonneg (pairs_bytes kvs)). pose proof (zlen_nonneg (entry_bytes p)). lia. }
  destruct (buf_data b) as [l|] eqn:Hd; simpl in Hb; [|unfold zlen in Hb; simpl in Hb; lia].
  apply wp_bind, wp_ret. pose proof (write_at_Some l 0 (le_bytes 4 (zlen kvs + 1))) as Hw. rewrite zlen_le_bytes in Hw.
  specialize (Hw ltac:(lia) ltac:(lia)). apply wp_bind. eapply wp_lift_opt; [exact Hw|]. apply wp_modify.
  cbn [Z.to_nat take app Nat.add] in *. rewrite length_le_bytes in *. split.
  - constructor; simpl; auto; [by erewrite write_at_len|]. eapply write_at_byte; [done|exact Hy|apply le_bytes_byte].
  - unfold buf_content, set_data; simpl. unfold buf_content in Hc. rewrite Hd in Hc. simpl in Hc.
    assert (take (Z.to_nat (buf_size_bytes b)) (le_bytes 4 (zlen kvs + 1) ++ drop 4 l) =
      le_bytes 4 (zlen kvs + 1) ++ drop 4 (take (Z.to_nat (buf_size_bytes b)) l)) as Ht.
    { rewrite take_app_ge by (rewrite length_le_bytes; lia). rewrite length_le_bytes. f_equal.
      rewrite skipn_firstn_comm. done. }
    simpl in Ht |- *. rewrite Ht, Hc. unfold metadata_bytes, pairs_bytes. rewrite map_app, concat_app. simpl.
    rewrite app_nil_r. replace (zlen (kvs ++ [p])) with (zlen kvs + 1) by (rewrite zlen_app; unfold zlen; simpl; lia). done.
Qed.

Definition lost (c : Z) (b' : ArrowBuffer) : Prop := c = ENOMEM /\ b' = lost_buffer.
(** The count of an empty builder. *)
Lemma start_spec b kvs : holds b kvs ->
  wp (when (buf_capacity_bytes b =? 0) (ArrowBufferAppendInt32 0))
    (fun _ b' => buffer_ok b' /\ buf_content b' = metadata_bytes kvs /\ 4 <= buf_capacity_bytes b') lost b.
Proof.
  intros Hh. pose proof (holds_buffer _ _ Hh) as Hok. unfold when.
  destruct (holds_block _ _ Hh) as [[Hd ->]|(post & Hd & Hcap)].
  - pose proof (bok_block _ Hok) as Hb. rewrite Hd in Hb. unfold zlen in Hb. simpl in Hb. rewrite <- Hb. simpl.
    eapply wp_conseq; [apply (append_spec b (le_bytes 4 0)); [done|apply le_bytes_byte|by rewrite zlen_le_bytes]| |].
    + intros [] b' [Hok' Hc]. assert (buf_content b = []) as Hnil by (unfold buf_content; rewrite Hd; apply take_nil).
      rewrite Hnil in Hc. split_and!; [done|done|]. pose proof (bok_size _ Hok'). rewrite <- (zlen_buf_content b') in * by done.
      rewrite Hc in *. rewrite zlen_app, zlen_le_bytes in *. unfold zlen in *. simpl in *. lia.
    + intros c b' (? & ? & _). by split.
  - destruct (Z.eqb_spec (buf_capacity_bytes b) 0); [lia|]. apply wp_ret.
    destruct (holds_bytes _ _ Hh) as [(? & ? & _)|Hc]; [lia|done].
Qed.
Lemma read_count b kvs : buffer_ok b -> buf_content b = metadata_bytes kvs -> zlen kvs <= INT32_MAX ->
  exists l, buf_data b = Some l /\ read_i32 l 0 = Some (zlen kvs).
Proof.
  intros Hok Hc Hn. pose proof (zlen_nonneg kvs). pose proof (zlen_buf_content b Hok) as Hz. unfold buf_content in Hc, Hz.
  destruct (buf_data b) as [l|] eqn:Hd; simpl in Hc, Hz.
  - exists l. split; [done|]. rewrite <- (take_drop (Z.to_nat (buf_size_bytes b)) l), Hc.
    unfold metadata_bytes. rewrite <- app_assoc. apply (read_i32_app []); lia.
  - rewrite take_nil in Hc. done.
Qed.
Lemma append_internal_spec b kvs sk sv k v : holds b kvs -> shows sk k -> shows sv v -> pair_ok (k, v) ->
  zlen kvs < INT32_MAX ->
  wp (ArrowMetadataBuilderAppendInternal sk (Some sv)) (fun _ b' => holds b' (kvs ++ [(k, v)])) lost b.
Proof.
  intros Hh [Hsk Hbk] [Hsv Hbv] Hp Hn. pose proof Hp as (Hk & Hv & Hzk & Hzv). simpl in Hk, Hv, Hzk, Hzv.
  pose proof (zlen_nonneg k). pose proof (zlen_nonneg v). pose proof (zlen_nonneg kvs).
  unfold ArrowMetadataBuilderAppendInternal. apply wp_bind, wp_gets. cbn [id]. apply wp_bind.
  eapply wp_conseq; [by apply start_spec| |done]. intros [] b1 (Hok1 & Hc1 & Hcap1).
  apply wp_bind, wp_gets. cbn [id].
  assert (to_unsigned 64 (buf_capacity_bytes b1) = buf_capacity_bytes b1) as ->
    by (unfold to_unsigned; apply Z.mod_small; pose proof (bok_bound _ Hok1); lia).
  destruct (Z.ltb_spec (buf_capacity_bytes b1) 4); [lia|].
  destruct (read_count b1 kvs Hok1 Hc1) as (l & Hd & Hr); [lia|].
  apply wp_bind. eapply wp_lift_opt; [exact Hd|]. apply wp_bind. eapply wp_lift_opt; [exact Hr|].
  cbv zeta. rewrite Hsk, Hsv, !signed_id by lia. apply wp_bind.
  eapply wp_conseq; [apply reserve_spec; [done|unfold INT32_MAX in *; lia]| |].
  2:{ intros c b' (? & ? & _). by split. }
  intros [] b2 (Hok2 & Hc2 & Hs2 & Hcap2 & _). rewrite <- Hs2 in Hcap2.
  apply append_unsafe_bind; [done|apply le_bytes_byte|rewrite zlen_le_bytes; lia|].
  intros b3 Hok3 Hc3 Hp3 Hs3. rewrite zlen_le_bytes in Hs3. apply wp_bind. eapply wp_lift_opt; [exact Hbk|].
  apply append_unsafe_bind; [done|done|lia|]. intros b4 Hok4 Hc4 Hp4 Hs4.
  apply append_unsafe_bind; [done|apply le_bytes_byte|rewrite zlen_le_bytes; lia|].
  intros b5 Hok5 Hc5 Hp5 Hs5. rewrite zlen_le_bytes in Hs5. apply wp_bind. eapply wp_lift_opt; [exact Hbv|].
  apply append_unsafe_bind; [done|done|lia|]. intros b6 Hok6 Hc6 _ _.
  apply wp_bind. unfold i32. rewrite (proj2 (andb_true_iff _ _)) by (split; apply Z.leb_le; unfold INT32_MIN, INT32_MAX in *; lia).
  apply wp_ret. eapply wp_conseq; [apply (store_count b6 kvs (k, v)); [done|]| |done].
  - rewrite Hc6, Hc5, Hc4, Hc3, Hc2, Hc1. unfold entry_bytes. simpl. by rewrite <- !app_assoc.
  - intros [] b' [Hok' Hc']. constructor; [done| | |by right].
    + apply Forall_app_2; [apply (holds_pairs _ _ Hh)|by repeat constructor].
    + rewrite zlen_app. unfold zlen in *. simpl. lia.
Qed.
Definition opt_pair (key : list Z) (value : option (list Z)) : list (list Z * list Z) :=
  match value with Some x => [(key, x)] | None => [] end.
Lemma append_opt_spec b kvs key value : holds b kvs -> Forall pair_ok (opt_pair key value) -> zlen kvs < INT32_MAX ->
  wp (ArrowMetadataBuilderAppendInternal (bytes_view key) (bytes_view <$> value))
    (fun _ b' => holds b' (kvs ++ opt_pair key value)) lost b.
Proof.
  intros Hh Hp Hn. destruct value as [v|]; simpl in Hp |- *.
  - apply Forall_cons_1 in Hp as [Hp _]. by apply append_internal_spec; [|apply shows_view..| |].
  - apply wp_ret. by rewrite app_nil_r.
Qed.
Lemma copy_pairs_spec key kvs : forall value fuel pre post acc b, Forall pair_ok kvs -> (length kvs < fuel)%nat ->
  holds b acc -> Forall pair_ok (opt_pair key value) -> zlen acc + zlen kvs <= INT32_MAX ->
  wp (copy_pairs fuel (pre ++ pairs_bytes kvs ++ post) (mkReader (zlen pre) (zlen kvs)) key value)
    (fun _ b' => holds b' (acc ++ pairs_replace key value kvs)) lost b.
Proof.
  induction kvs as [|[k v] kvs IH]; intros value [|fuel] pre post acc b Hok Hf Hh Hp Hn; simpl in Hf; [lia| |lia|].
  { cbn [copy_pairs mr_remaining_keys]. simpl. apply wp_ret. by rewrite app_nil_r. }
  apply Forall_cons_1 in Hok as [Hpair Hok].
  assert (pre ++ pairs_bytes ((k, v) :: kvs) ++ post = pre ++ entry_bytes (k, v) ++ (pairs_bytes kvs ++ post)) as Hl
    by (unfold pairs_bytes; simpl; by rewrite <- app_assoc).
  pose proof (zlen_nonneg kvs).
  assert (zlen ((k, v) :: kvs) = zlen kvs + 1) as Hz by (unfold zlen; simpl; lia). rewrite Hz in Hn |- *.
  destruct (read_pair pre k v (pairs_bytes kvs ++ post) (zlen kvs + 1) Hpair) as (Hr & Hk & Hv); [lia|].
  rewrite <- Hl in Hr, Hk, Hv. cbv zeta in Hr. cbn [mv_offset] in Hk, Hv. rewrite Z.add_simpl_r in Hr.
  cbn [copy_pairs mr_remaining_keys]. rewrite (proj2 (Z.leb_gt (zlen kvs + 1) 0)) by lia.
  apply wp_bind. eapply wp_lift_opt; [exact Hr|]. apply wp_bind. eapply wp_lift_opt; [by apply same_key_spec|].
  assert (forall value' acc' b', holds b' acc' -> Forall pair_ok (opt_pair key value') -> zlen acc' + zlen kvs <= INT32_MAX ->
    wp (copy_pairs fuel (pre ++ pairs_bytes ((k, v) :: kvs) ++ post) (mkReader (zlen (pre ++ entry_bytes (k, v))) (zlen kvs)) key value')
      (fun _ b'' => holds b'' (acc' ++ pairs_replace key value' kvs)) lost b') as Hrest.
  { intros value' acc' b' Hh' Hp' Hn'. rewrite Hl, app_assoc. apply IH; [done|lia|done..]. }
  cbn [pairs_replace]. case_bool_decide as Hd.
  - rewrite decide_True by done. apply wp_bind. eapply wp_conseq; [apply (append_opt_spec b acc); [done..|lia]| |done].
    intros [] b' Hh'. change (match value with Some x => [(key, x)] | None => [] end) with (opt_pair key value). rewrite (app_assoc acc). apply Hrest; [done|constructor|].
    destruct value; rewrite zlen_app; unfold zlen in *; simpl; lia.
  - rewrite decide_False by done. apply wp_bind.
    eapply wp_conseq; [apply (append_internal_spec b acc _ _ k v); [done|by apply shows_existing..|done|lia]| |done].
    intros [] b' Hh'. rewrite (cons_middle (k, v)), (app_assoc acc). apply Hrest; [done|done|].
    rewrite zlen_app. unfold zlen in *. simpl. lia.
Qed.
Lemma builder_init_spec : wp (ArrowMetadataBuilderInit None) (fun _ b' => holds b' []) lost zero_buffer.
Proof.
  unfold ArrowMetadataBuilderInit. apply wp_bind, wp_put. apply wp_bind. eapply wp_lift_opt; [done|].
  apply wp_bind. eapply wp_lift_opt; [done|]. exact holds_init.
Qed.
(** Taking over the new buffer, or keeping the old. *)
Lemma commit_spec b (build : M ArrowBuffer unit) Q : buffer_ok b -> wp build Q lost zero_buffer ->
  wp (fun buffer =>
        match build zero_buffer with
        | Ret _ new_buffer => (ArrowBufferReset ;; put new_buffer) buffer
        | Exit c new_buffer => match ArrowBufferReset new_buffer with Undef => Undef | _ => Exit c buffer end
        | Undef => Undef
        | NoFuel => NoFuel
        end) Q (fun c b' => c = ENOMEM /\ b' = b) b.
Proof.
  intros Hok Hb. unfold wp in *. destruct (build zero_buffer) as [[] b'|c b'| |]; [|destruct Hb as [-> ->]; by auto|done..].
  by rewrite (bind_ret _ _ _ _ _ (reset_ok b Hok)).
Qed.
Lemma set_internal_spec b kvs key value : holds b kvs -> Forall pair_ok (opt_pair key value) -> zlen kvs < INT32_MAX ->
  wp (ArrowMetadataBuilderSetInternal key value) (fun _ b' => holds b' (pairs_set key value kvs))
    (fun c b' => c = ENOMEM /\ (b' = b \/ b' = lost_buffer)) b.
Proof.
  intros Hh Hp Hn. unfold ArrowMetadataBuilderSetInternal. apply wp_bind, wp_gets. cbn [id].
  apply wp_bind. eapply wp_lift_opt; [by apply get_value_spec|]. unfold pairs_set.
  destruct (pairs_find key kvs) as [old|] eqn:Hf; [|destruct value as [v|]].
  - destruct (holds_block _ _ Hh) as [[_ ->]|(post & Hd & _)]; [done|].
    rewrite Hd. apply wp_bind. eapply wp_lift_opt; [apply (init_spec _ kvs post eq_refl); lia|].
    assert (wp (ArrowMetadataBuilderInit None ;; copy_pairs (metadata_fuel (mkReader 4 (zlen kvs)))
        (default [] (Some (metadata_bytes kvs ++ post))) (mkReader 4 (zlen kvs)) key value)
      (fun _ b' => holds b' (pairs_replace key value kvs)) lost zero_buffer) as Hcopy.
    { apply wp_bind. eapply wp_conseq; [by apply builder_init_spec| |done]. intros [] b' Hb'. cbn [default]. unfold metadata_bytes. rewrite <- app_assoc.
      apply (copy_pairs_spec key kvs value _ (le_bytes 4 (zlen kvs)) post []); [apply (holds_pairs _ _ Hh)| |exact Hb'|done|].
      - unfold metadata_fuel, zlen. simpl. lia.
      - unfold zlen in *. simpl. lia. }
    eapply wp_conseq; [apply (commit_spec b _ _ (holds_buffer _ _ Hh) Hcopy)|done|]. intros c b' [-> ->]. auto.
  - eapply wp_conseq; [apply (append_opt_spec b kvs key (Some v)); [done..|lia]|done|].
    intros c b' [-> ->]. auto.
  - apply wp_ret. exact Hh.
Qed.
End append.

(** * Theorems *)

(** C29: setting a key of a metadata builder changes what is found under that key (what the code
    takes for the same key: equal sizes and equal up to a null byte) and nothing else: the buffer
    then holds the pairs with the new value, the size computed from the bytes is the number of
    bytes written, and the only failure is a refused allocation, which keeps the old buffer or
    loses the block that could not grow. *)
Theorem metadata_set_get `{Libc} `{!LibcBound} b kvs key value :
  holds b kvs -> pair_ok (key, value) -> zlen kvs < INT32_MAX ->
  wp (ArrowMetadataBuilderSet key value)
    (fun _ b' =>
       holds b' (pairs_set key (Some value) kvs) /\
       ArrowMetadataSizeOf (buf_data b') = Some (zlen (buf_content b')) /\
       forall key', ArrowMetadataGetValue (buf_data b') key' =
         if decide (key_eq key' key) then Some (Some value) else ArrowMetadataGetValue (buf_data b) key')
    (fun c b' => c = ENOMEM /\ (b' = b \/ b' = lost_buffer)) b.
Proof.
  intros Hh Hp Hn. eapply wp_conseq; [apply (set_internal_spec b kvs key (Some value)); [done|by apply Forall_singleton|done]| |done].
  intros [] b' Hh'. split_and!; [done|by apply (size_of_content _ _ Hh')|].
  intros key'. rewrite (get_value_spec _ _ _ Hh'), (get_value_spec _ _ _ Hh), pairs_find_set.
  by destruct (decide (key_eq key' key)).
Qed.

(** removing a key of a metadata builder leaves no pair with that key and every other key as
    it was; removing an absent key does nothing. *)
Theorem metadata_remove_get `{Libc} `{!LibcBound} b kvs key :
  holds b kvs -> zlen kvs < INT32_MAX ->
  wp (ArrowMetadataBuilderRemove key)
    (fun _ b' =>
       (forall key', ArrowMetadataHasKey (buf_data b') key' =
          if decide (key_eq key' key) then Some false else ArrowMetadataHasKey (buf_data b) key') /\
       (ArrowMetadataHasKey (buf_data b) key = Some false -> holds b' kvs))
    (fun c b' => c = ENOMEM /\ (b' = b \/ b' = lost_buffer)) b.
Proof.
  intros Hh Hn. eapply wp_conseq; [apply (set_internal_spec b kvs key None); [done|constructor|done]| |done].
  intros [] b' Hh'. unfold ArrowMetadataHasKey. split.
  - intros key'. rewrite (get_value_spec _ _ _ Hh'), (get_value_spec _ _ _ Hh), pairs_find_set. simpl.
    by destruct (decide (key_eq key' key)).
  - rewrite (get_value_spec _ _ _ Hh). simpl. unfold pairs_set in Hh'. by destruct (pairs_find key kvs).
Qed.

(** A builder with a repeated key, set and removed. *)
Definition example_pairs : list (list Z * list Z) := [([97], [1]); ([98], [2; 3]); ([97], [4])].
Definition example_builder : ArrowBuffer :=
  mkBuffer (Some (metadata_bytes example_pairs)) (zlen (metadata_bytes example_pairs))
    (zlen (metadata_bytes example_pairs)) AllocatorMalloc.
Lemma example_holds : holds example_builder example_pairs.
Proof.
  constructor; [|repeat constructor; done|by vm_compute|by right].
  constructor; [done|by vm_compute|done|by vm_compute|repeat constructor; done].
Qed.
Example example_set :
  match ArrowMetadataBuilderSet (H := host) [97] [9; 9] example_builder with
  | Ret _ b => buf_content b = metadata_bytes [([97], [9; 9]); ([98], [2; 3])]
  | _ => False
  end.
Proof. vm_compute. done. Qed.
Lemma metadata_set_get_witness :
  wp (ArrowMetadataBuilderSet (H := host) [97] [9; 9])
    (fun _ b' =>
       holds b' (pairs_set [97] (Some [9; 9]) example_pairs) /\
       ArrowMetadataSizeOf (buf_data b') = Some (zlen (buf_content b')) /\
       forall key', ArrowMetadataGetValue (buf_data b') key' =
         if decide (key_eq key' [97]) then Some (Some [9; 9]) else ArrowMetadataGetValue (buf_data example_builder) key')
    (fun c b' => c = ENOMEM /\ (b' = example_builder \/ b' = lost_buffer)) example_builder.
Proof.
  apply (metadata_set_get (H := host) (H0 := host_bound) example_builder example_pairs [97] [9; 9]);
    [exact example_holds|repeat constructor; done|by vm_compute].
Defined.
Lemma metadata_remove_get_witness :
  wp (ArrowMetadataBuilderRemove (H := host) [98])
    (fun _ b' =>
       (forall key', ArrowMetadataHasKey (buf_data b') key' =
          if decide (key_eq key' [98]) then Some false else ArrowMetadataHasKey (buf_data example_builder) key') /\
       (ArrowMetadataHasKey (buf_data example_builder) [98] = Some false -> holds b' example_pairs))
    (fun c b' => c = ENOMEM /\ (b' = example_builder \/ b' = lost_buffer)) example_builder.
Proof.
  apply (metadata_remove_get (H := host) (H0 := host_bound) example_builder example_pairs [98]);
    [exact example_holds|by vm_compute].
Defined.
