(* ===== verification/SchemaView.v ===== *)
(** nanoarrow's schema views: parsing the format string of the Arrow C data interface,
    validating a schema, buffer layouts (c/vendor/nanoarrow/nanoarrow.c, nanoarrow.h). *)
From stdpp Require Import base tactics list numbers option strings.
From Stdlib Require Import ZArith Lia Ascii.
From S2P Require Import Prelude CLib Schema.

(** * Layouts *)
Inductive ArrowBufferType :=
| BUFFER_NONE | BUFFER_VALIDITY | BUFFER_TYPE_ID | BUFFER_UNION_OFFSET
| BUFFER_DATA_OFFSET | BUFFER_DATA.
#[export] Instance ArrowBufferType_eq_dec : EqDecision ArrowBufferType.
Proof. solve_decision. Defined.

(** The three buffers' roles and element sizes. *)
Record ArrowLayout := mkLayout {
  ly_buffer_type : list ArrowBufferType;
  ly_element_size_bits : list Z;
  ly_child_size_elements : Z;
}.
Definition layout1 size := mkLayout [BUFFER_VALIDITY; BUFFER_DATA; BUFFER_NONE] [1; size; 0] 0.
Definition layout_offsets size :=
  mkLayout [BUFFER_VALIDITY; BUFFER_DATA_OFFSET; BUFFER_NONE] [1; size; 0] 0.
Definition layout_var size :=
  mkLayout [BUFFER_VALIDITY; BUFFER_DATA_OFFSET; BUFFER_DATA] [1; size; 0] 0.

Definition ArrowLayoutInit (storage_type : ArrowType) : ArrowLayout :=
  match storage_type with
  | TYPE_UNINITIALIZED | TYPE_NA =>
      mkLayout [BUFFER_NONE; BUFFER_NONE; BUFFER_NONE] [0; 0; 0] 0
  | TYPE_LIST | TYPE_MAP => layout_offsets 32
  | TYPE_LARGE_LIST => layout_offsets 64
  | TYPE_BOOL => layout1 1
  | TYPE_UINT8 | TYPE_INT8 => layout1 8
  | TYPE_UINT16 | TYPE_INT16 | TYPE_HALF_FLOAT => layout1 16
  | TYPE_UINT32 | TYPE_INT32 | TYPE_FLOAT | TYPE_INTERVAL_MONTHS => layout1 32
  | TYPE_UINT64 | TYPE_INT64 | TYPE_DOUBLE | TYPE_INTERVAL_DAY_TIME => layout1 64
  | TYPE_DECIMAL128 | TYPE_INTERVAL_MONTH_DAY_NANO => layout1 128
  | TYPE_DECIMAL256 => layout1 256
  | TYPE_FIXED_SIZE_BINARY => layout1 0
  | TYPE_DENSE_UNION => mkLayout [BUFFER_TYPE_ID; BUFFER_UNION_OFFSET; BUFFER_NONE] [8; 32; 0] 0
  | TYPE_SPARSE_UNION => mkLayout [BUFFER_TYPE_ID; BUFFER_NONE; BUFFER_NONE] [8; 0; 0] 0
  | TYPE_STRING | TYPE_BINARY => layout_var 32
  | TYPE_LARGE_STRING | TYPE_LARGE_BINARY => layout_var 64
  | _ => mkLayout [BUFFER_VALIDITY; BUFFER_NONE; BUFFER_NONE] [1; 0; 0] 0
  end.

(** * Errors: [None] is a null [struct ArrowError*], otherwise its 1024-byte message *)
Definition ArrowError := option string.
Definition ArrowErrorSet (fmt : string) (args : list fmt_arg) (e : ArrowError) : ArrowError :=
  match e with
  | None => None
  | Some _ => Some (truncate_to 1024 (c_format fmt args))
  end.

(** * The view *)
Record ArrowSchemaView := mkView {
  sv_schema : option ArrowSchema;
  sv_type : ArrowType;
  sv_storage_type : ArrowType;
  sv_layout : ArrowLayout;
  sv_extension_name : option (list Z);
  sv_extension_metadata : option (list Z);
  sv_fixed_size : Z;
  sv_decimal_bitwidth : Z;
  sv_decimal_precision : Z;
  sv_decimal_scale : Z;
  sv_time_unit : ArrowTimeUnit;
  sv_timezone : option string;
  sv_union_type_ids : option string;
}.
Definition sv_update (sch : option ArrowSchema) ty st ly fs bw pr sc tu tz ui
    (v : ArrowSchemaView) : ArrowSchemaView :=
  mkView sch ty st ly (sv_extension_name v) (sv_extension_metadata v) fs bw pr sc tu tz ui.
Definition set_types type storage v := sv_update (sv_schema v) type storage (sv_layout v)
  (sv_fixed_size v) (sv_decimal_bitwidth v) (sv_decimal_precision v) (sv_decimal_scale v)
  (sv_time_unit v) (sv_timezone v) (sv_union_type_ids v) v.
Definition set_view_schema s v := sv_update s (sv_type v) (sv_storage_type v) (sv_layout v)
  (sv_fixed_size v) (sv_decimal_bitwidth v) (sv_decimal_precision v) (sv_decimal_scale v)
  (sv_time_unit v) (sv_timezone v) (sv_union_type_ids v) v.
Definition set_layout l v := sv_update (sv_schema v) (sv_type v) (sv_storage_type v) l
  (sv_fixed_size v) (sv_decimal_bitwidth v) (sv_decimal_precision v) (sv_decimal_scale v)
  (sv_time_unit v) (sv_timezone v) (sv_union_type_ids v) v.
Definition set_fixed_size n v := sv_update (sv_schema v) (sv_type v) (sv_storage_type v)
  (sv_layout v) n (sv_decimal_bitwidth v) (sv_decimal_precision v) (sv_decimal_scale v)
  (sv_time_unit v) (sv_timezone v) (sv_union_type_ids v) v.
Definition set_bitwidth n v := sv_update (sv_schema v) (sv_type v) (sv_storage_type v)
  (sv_layout v) (sv_fixed_size v) n (sv_decimal_precision v) (sv_decimal_scale v)
  (sv_time_unit v) (sv_timezone v) (sv_union_type_ids v) v.
Definition set_precision n v := sv_update (sv_schema v) (sv_type v) (sv_storage_type v)
  (sv_layout v) (sv_fixed_size v) (sv_decimal_bitwidth v) n (sv_decimal_scale v)
  (sv_time_unit v) (sv_timezone v) (sv_union_type_ids v) v.
Definition set_scale n v := sv_update (sv_schema v) (sv_type v) (sv_storage_type v)
  (sv_layout v) (sv_fixed_size v) (sv_decimal_bitwidth v) (sv_decimal_precision v) n
  (sv_time_unit v) (sv_timezone v) (sv_union_type_ids v) v.
Definition set_time_unit u v := sv_update (sv_schema v) (sv_type v) (sv_storage_type v)
  (sv_layout v) (sv_fixed_size v) (sv_decimal_bitwidth v) (sv_decimal_precision v)
  (sv_decimal_scale v) u (sv_timezone v) (sv_union_type_ids v) v.
Definition set_timezone z v := sv_update (sv_schema v) (sv_type v) (sv_storage_type v)
  (sv_layout v) (sv_fixed_size v) (sv_decimal_bitwidth v) (sv_decimal_precision v)
  (sv_decimal_scale v) (sv_time_unit v) z (sv_union_type_ids v) v.
Definition set_union_type_ids u v := sv_update (sv_schema v) (sv_type v) (sv_storage_type v)
  (sv_layout v) (sv_fixed_size v) (sv_decimal_bitwidth v) (sv_decimal_precision v)
  (sv_decimal_scale v) (sv_time_unit v) (sv_timezone v) u v.
Definition set_extension n m v := mkView (sv_schema v) (sv_type v) (sv_storage_type v)
  (sv_layout v) n m (sv_fixed_size v) (sv_decimal_bitwidth v) (sv_decimal_precision v)
  (sv_decimal_scale v) (sv_time_unit v) (sv_timezone v) (sv_union_type_ids v).

(** The code works on the view and the error. *)
Definition VS : Type := ArrowSchemaView * ArrowError.
Definition on_view (f : ArrowSchemaView -> ArrowSchemaView) : M VS unit :=
  modify (fun p => (f p.1, p.2)).
Definition error_set (fmt : string) (args : list fmt_arg) : M VS unit :=
  modify (fun p => (p.1, ArrowErrorSet fmt args p.2)).
(** [ArrowErrorSet(error, ...); return EINVAL;] *)
Definition invalid {A} (fmt : string) (args : list fmt_arg) : M VS A :=
  error_set fmt args ;; exit EINVAL.

(** [s[i]] in a null-terminated string, for [i] up to its length. *)
Definition char_at (s : string) (i : nat) : ascii := default "000"%char (String.get i s).
(** [s + i] *)
Definition str_drop (i : nat) (s : string) : string :=
  String.substring i (String.length s - i) s.
Definition is_char (s : string) (i : nat) (c : ascii) : bool := Ascii.eqb (char_at s i) c.
Definition at_end (s : string) (i : nat) : bool := is_char s i "000".

(** ** Union type ids

    The loop of [_ArrowParseUnionTypeIds]: the ids read, [None] when one is malformed.  The
    string gets shorter at every turn. *)
Fixpoint parse_type_ids (fuel : nat) (type_ids : string) : option (list Z) :=
  match fuel with
  | O => None
  | S fuel' =>
      let '(type_id, end_ptr, _) := strtol type_ids in
      if String.eqb end_ptr type_ids || (type_id <? 0) || (type_id >? 127) then None else
      match end_ptr with
      | EmptyString => Some [type_id]
      | String "," rest => cons type_id <$> parse_type_ids fuel' rest
      | _ => None
      end
  end.
Definition union_type_ids (type_ids : string) : option (list Z) :=
  match type_ids with
  | EmptyString => Some []
  | _ => parse_type_ids (S (String.length type_ids)) type_ids
  end.
(** [_ArrowParseUnionTypeIds(type_ids, NULL)]: the count is returned as an [int8_t]. *)
Definition _ArrowParseUnionTypeIds (type_ids : string) : Z :=
  match union_type_ids type_ids with
  | None => -1
  | Some ids => to_signed 8 (zlen ids)
  end.
(** With an output array of [capacity] elements: [None] when it is written past its end. *)
Fixpoint ids_written (fuel : nat) (type_ids : string) : list Z :=
  match fuel with
  | O => []
  | S fuel' =>
      let '(type_id, end_ptr, _) := strtol type_ids in
      if String.eqb end_ptr type_ids || (type_id <? 0) || (type_id >? 127) then [] else
      match end_ptr with
      | String "," rest => type_id :: ids_written fuel' rest
      | _ => [type_id]
      end
  end.
Definition parse_type_ids_into (type_ids : string) (capacity : Z) : option (Z * list Z) :=
  let out := match type_ids with
             | EmptyString => []
             | _ => ids_written (S (String.length type_ids)) type_ids
             end in
  if zlen out <=? capacity then Some (_ArrowParseUnionTypeIds type_ids, out) else None.
(** [type_ids] is a local array of 128 [int8_t]. *)
Definition _ArrowUnionTypeIdsWillEqualChildIndices (type_id_str : string) (n_children : Z)
    : option bool :=
  '(n_type_ids, type_ids) ← parse_type_ids_into type_id_str 128;
  if negb (n_type_ids =? n_children) then Some false else
  Some (bool_decide (take (Z.to_nat n_type_ids) type_ids =
                     Z.of_nat <$> seq 0 (Z.to_nat n_type_ids))).

(** * Parsing a format string

    The value is the offset of [*format_end_out]. *)
Definition ArrowSchemaViewSetPrimitive (type : ArrowType) : M VS unit :=
  on_view (set_types type type).
Definition primitive (type : ArrowType) (format_end : Z) : M VS Z :=
  ArrowSchemaViewSetPrimitive type ;; mret format_end.
(** A logical type stored as another one. *)
Definition datetime (storage type : ArrowType) : M VS unit :=
  ArrowSchemaViewSetPrimitive storage ;; on_view (fun v => set_types type (sv_storage_type v) v).

(** [(int32_t)strtol(s, &end, 10)] and the rest of the string. *)
Definition strtol_i32 (s : string) : Z * string :=
  let '(v, rest, _) := strtol s in (to_signed 32 v, rest).
Definition offset_of (format rest : string) : Z := strlen format - strlen rest.

Definition parse_decimal (format : string) : M VS Z :=
  if negb (is_char format 1 ":") || at_end format 2
  then invalid "Expected ':precision,scale[,bitwidth]' following 'd'" [] else
  let parse_start := str_drop 2 format in
  let '(precision, parse_end) := strtol_i32 parse_start in
  on_view (set_precision precision) ;;
  if String.eqb parse_end parse_start || negb (is_char parse_end 0 ",")
  then invalid "Expected 'precision,scale[,bitwidth]' following 'd:'" [] else
  let parse_start := str_drop 1 parse_end in
  let '(scale, parse_end) := strtol_i32 parse_start in
  on_view (set_scale scale) ;;
  if String.eqb parse_end parse_start
  then invalid "Expected 'scale[,bitwidth]' following 'd:precision,'" [] else
  parse_end ←
    (if negb (is_char parse_end 0 ",") then on_view (set_bitwidth 128) ;; mret parse_end else
     let parse_start := str_drop 1 parse_end in
     let '(bitwidth, parse_end) := strtol_i32 parse_start in
     on_view (set_bitwidth bitwidth) ;;
     if String.eqb parse_start parse_end
     then invalid "Expected precision following 'd:precision,scale,'" []
     else mret parse_end);
  let format_end_out := offset_of format parse_end in
  bitwidth ← gets (fun p => sv_decimal_bitwidth p.1);
  if bitwidth =? 128 then primitive TYPE_DECIMAL128 format_end_out
  else if bitwidth =? 256 then primitive TYPE_DECIMAL256 format_end_out
  else invalid "Expected decimal bitwidth of 128 or 256 but found %d" [AInt bitwidth].

Definition parse_fixed_size_binary (format : string) : M VS Z :=
  on_view (set_types TYPE_FIXED_SIZE_BINARY TYPE_FIXED_SIZE_BINARY) ;;
  if negb (is_char format 1 ":") || at_end format 2
  then invalid "Expected ':<width>' following 'w'" [] else
  let '(n, rest) := strtol_i32 (str_drop 2 format) in
  on_view (set_fixed_size n) ;; mret (offset_of format rest).

Definition parse_fixed_size_list (format : string) : M VS Z :=
  if negb (is_char format 2 ":") || at_end format 3
  then invalid "Expected ':<width>' following '+w'" [] else
  on_view (set_types TYPE_FIXED_SIZE_LIST TYPE_FIXED_SIZE_LIST) ;;
  let '(n, rest) := strtol_i32 (str_drop 3 format) in
  on_view (set_fixed_size n) ;; mret (offset_of format rest).

Definition union_format_error : string :=
  "Expected union format string +us:<type_ids> or +ud:<type_ids> but found '%s'".
Definition view_n_children (v : ArrowSchemaView) : Z :=
  match sv_schema v with Some s => sc_n_children s | None => 0 end.
Definition parse_union (format : string) : M VS Z :=
  match char_at format 2 with
  | "d"%char => on_view (set_types TYPE_DENSE_UNION TYPE_DENSE_UNION)
  | "s"%char => on_view (set_types TYPE_SPARSE_UNION TYPE_SPARSE_UNION)
  | _ => invalid union_format_error [AStr format]
  end ;;
  if is_char format 3 ":" then
    let ids := str_drop 4 format in
    on_view (set_union_type_ids (Some ids)) ;;
    n_children ← gets (fun p => view_n_children p.1);
    if negb (_ArrowParseUnionTypeIds ids =? n_children)
    then invalid ("Expected union type_ids parameter to be a comma-separated list of %ld " +:+
                  "values between 0 and 127 but found '%s'") [AInt n_children; AStr ids]
    else mret (strlen format)
  else invalid union_format_error [AStr format].

Definition parse_nested (format : string) : M VS Z :=
  match char_at format 1 with
  | "l"%char => primitive TYPE_LIST 2
  | "L"%char => primitive TYPE_LARGE_LIST 2
  | "w"%char => parse_fixed_size_list format
  | "s"%char => primitive TYPE_STRUCT 2
  | "m"%char => primitive TYPE_MAP 2
  | "u"%char => parse_union format
  | _ => invalid "Expected nested type format string but found '%s'" [AStr format]
  end.

(** A time unit letter: the storage type and the unit of it. *)
Definition timed (storage type : ArrowType) (time_unit : ArrowTimeUnit) : M VS unit :=
  datetime storage type ;; on_view (set_time_unit time_unit).
Definition parse_time (format : string) : M VS Z :=
  match char_at format 2 with
  | "s"%char => timed TYPE_INT32 TYPE_TIME32 TIME_UNIT_SECOND
  | "m"%char => timed TYPE_INT32 TYPE_TIME32 TIME_UNIT_MILLI
  | "u"%char => timed TYPE_INT64 TYPE_TIME64 TIME_UNIT_MICRO
  | "n"%char => timed TYPE_INT64 TYPE_TIME64 TIME_UNIT_NANO
  | _ => invalid "Expected 's', 'm', 'u', or 'n' following 'tt' but found '%s'"
           [AStr (str_drop 2 format)]
  end ;; mret 3.
Definition parse_timestamp (format : string) : M VS Z :=
  match char_at format 2 with
  | "s"%char => timed TYPE_INT32 TYPE_TIMESTAMP TIME_UNIT_SECOND
  | "m"%char => timed TYPE_INT32 TYPE_TIMESTAMP TIME_UNIT_MILLI
  | "u"%char => timed TYPE_INT64 TYPE_TIMESTAMP TIME_UNIT_MICRO
  | "n"%char => timed TYPE_INT64 TYPE_TIMESTAMP TIME_UNIT_NANO
  | _ => invalid "Expected 's', 'm', 'u', or 'n' following 'ts' but found '%s'"
           [AStr (str_drop 2 format)]
  end ;;
  if negb (is_char format 3 ":")
  then invalid "Expected ':' following '%.3s' but found '%s'"
         [AStr format; AStr (str_drop 3 format)]
  else on_view (set_timezone (Some (str_drop 4 format))) ;; mret (strlen format).
Definition parse_duration (format : string) : M VS Z :=
  match char_at format 2 with
  | "s"%char => timed TYPE_INT32 TYPE_DURATION TIME_UNIT_SECOND
  | "m"%char => timed TYPE_INT32 TYPE_DURATION TIME_UNIT_MILLI
  | "u"%char => timed TYPE_INT64 TYPE_DURATION TIME_UNIT_MICRO
  | "n"%char => timed TYPE_INT64 TYPE_DURATION TIME_UNIT_NANO
  | _ => invalid "Expected 's', 'm', u', or 'n' following 'tD' but found '%s'"
           [AStr (str_drop 2 format)]
  end ;; mret 3.
Definition parse_datetime (format : string) : M VS Z :=
  match char_at format 1 with
  | "d"%char =>
      match char_at format 2 with
      | "D"%char => datetime TYPE_INT32 TYPE_DATE32
      | "m"%char => datetime TYPE_INT64 TYPE_DATE64
      | _ => invalid "Expected 'D' or 'm' following 'td' but found '%s'"
               [AStr (str_drop 2 format)]
      end ;; mret 3
  | "t"%char => parse_time format
  | "s"%char => parse_timestamp format
  | "D"%char => parse_duration format
  | "i"%char =>
      match char_at format 2 with
      | "M"%char => primitive TYPE_INTERVAL_MONTHS 3
      | "D"%char => primitive TYPE_INTERVAL_DAY_TIME 3
      | "n"%char => primitive TYPE_INTERVAL_MONTH_DAY_NANO 3
      | _ => invalid "Expected 'M', 'D', or 'n' following 'ti' but found '%s'"
               [AStr (str_drop 2 format)]
      end
  | _ => invalid "Expected 'd', 't', 's', 'D', or 'i' following 't' but found '%s'"
           [AStr (str_drop 1 format)]
  end.

Definition ArrowSchemaViewParse (format : string) : M VS Z :=
  match char_at format 0 with
  | "n"%char => primitive TYPE_NA 1
  | "b"%char => primitive TYPE_BOOL 1
  | "c"%char => primitive TYPE_INT8 1
  | "C"%char => primitive TYPE_UINT8 1
  | "s"%char => primitive TYPE_INT16 1
  | "S"%char => primitive TYPE_UINT16 1
  | "i"%char => primitive TYPE_INT32 1
  | "I"%char => primitive TYPE_UINT32 1
  | "l"%char => primitive TYPE_INT64 1
  | "L"%char => primitive TYPE_UINT64 1
  | "e"%char => primitive TYPE_HALF_FLOAT 1
  | "f"%char => primitive TYPE_FLOAT 1
  | "g"%char => primitive TYPE_DOUBLE 1
  | "d"%char => parse_decimal format
  | "w"%char => parse_fixed_size_binary format
  | "z"%char => primitive TYPE_BINARY 1
  | "u"%char => primitive TYPE_STRING 1
  | "Z"%char => primitive TYPE_LARGE_BINARY 1
  | "U"%char => primitive TYPE_LARGE_STRING 1
  | "+"%char => parse_nested format
  | "t"%char => parse_datetime format
  | _ => invalid "Unknown format: '%s'" [AStr format]
  end.

(** * Validation *)
Definition the_schema : M VS ArrowSchema :=
  v ← gets fst; lift_opt (sv_schema v).
(** [schema->children[i]] *)
Definition child_at (s : ArrowSchema) (i : Z) : option (option ArrowSchema) :=
  cs ← sc_children s; if 0 <=? i then cs !! Z.to_nat i else None.
Definition ArrowSchemaViewValidateNChildren (n_children : Z) : M VS unit :=
  schema ← the_schema;
  if negb (n_children =? -1) && negb (sc_n_children schema =? n_children)
  then invalid "Expected schema with %d children but found %d children"
         [AInt n_children; AInt (sc_n_children schema)] else
  for_range 0 (sc_n_children schema) (fun i =>
    child ← lift_opt (child_at schema i);
    match child with
    | None => invalid "Expected valid schema at schema->children[%d] but found NULL" [AInt i]
    | Some c =>
        if sc_release c then mret tt
        else invalid ("Expected valid schema at schema->children[%d] but found a " +:+
                      "released schema") [AInt i]
    end).

Definition ArrowSchemaViewValidateUnion : M VS unit := ArrowSchemaViewValidateNChildren (-1).

(** [c->flags & ARROW_FLAG_NULLABLE] *)
Definition is_nullable (c : ArrowSchema) : bool :=
  negb (Z.land (sc_flags c) ARROW_FLAG_NULLABLE =? 0).
(** Dereferencing [schema->children[i]]. *)
Definition deref_child (s : ArrowSchema) (i : Z) : M VS ArrowSchema :=
  c ← lift_opt (child_at s i);
  c ← lift_opt c;
  if sc_indeterminate c then undef else mret c.
Definition ArrowSchemaViewValidateMap : M VS unit :=
  ArrowSchemaViewValidateNChildren 1 ;;
  schema ← the_schema;
  child ← deref_child schema 0;
  if negb (sc_n_children child =? 2)
  then invalid "Expected child of map type to have 2 children but found %d"
         [AInt (sc_n_children child)] else
  format ← lift_opt (sc_format child);
  if negb (String.eqb format "+s")
  then invalid "Expected format of child of map type to be '+s' but found '%s'"
         [AStr format] else
  if is_nullable child
  then invalid "Expected child of map type to be non-nullable but was nullable" [] else
  key ← deref_child child 0;
  if is_nullable key
  then invalid "Expected key of map type to be non-nullable but was nullable" []
  else mret tt.

(** [init_dictionary] is [ArrowSchemaViewInit(&dictionary_schema_view,
    schema_view->schema->dictionary, error)] on the error. *)
Definition ArrowSchemaViewValidateDictionary (init_dictionary : M ArrowError unit) : M VS unit :=
  v ← gets fst;
  match sv_storage_type v with
  | TYPE_UINT8 | TYPE_INT8 | TYPE_UINT16 | TYPE_INT16 | TYPE_UINT32 | TYPE_INT32
  | TYPE_UINT64 | TYPE_INT64 => mret tt
  | _ =>
      schema ← the_schema;
      invalid "Expected dictionary schema index type to be an integral type but found '%s'"
        [AStr (default "" (sc_format schema))]
  end ;;
  zoom snd_lens init_dictionary.

Definition ArrowSchemaViewValidate (init_dictionary : M ArrowError unit) (type : ArrowType)
    : M VS unit :=
  match type with
  | TYPE_NA | TYPE_BOOL | TYPE_UINT8 | TYPE_INT8 | TYPE_UINT16 | TYPE_INT16 | TYPE_UINT32
  | TYPE_INT32 | TYPE_UINT64 | TYPE_INT64 | TYPE_HALF_FLOAT | TYPE_FLOAT | TYPE_DOUBLE
  | TYPE_DECIMAL128 | TYPE_DECIMAL256 | TYPE_STRING | TYPE_LARGE_STRING | TYPE_BINARY
  | TYPE_LARGE_BINARY | TYPE_DATE32 | TYPE_DATE64 | TYPE_INTERVAL_MONTHS
  | TYPE_INTERVAL_DAY_TIME | TYPE_INTERVAL_MONTH_DAY_NANO | TYPE_TIMESTAMP | TYPE_TIME32
  | TYPE_TIME64 | TYPE_DURATION => ArrowSchemaViewValidateNChildren 0
  | TYPE_FIXED_SIZE_BINARY =>
      v ← gets fst;
      if sv_fixed_size v <=? 0
      then invalid "Expected size > 0 for fixed size binary but found size %d"
             [AInt (sv_fixed_size v)]
      else ArrowSchemaViewValidateNChildren 0
  | TYPE_LIST | TYPE_LARGE_LIST | TYPE_FIXED_SIZE_LIST => ArrowSchemaViewValidateNChildren 1
  | TYPE_STRUCT => ArrowSchemaViewValidateNChildren (-1)
  | TYPE_SPARSE_UNION | TYPE_DENSE_UNION => ArrowSchemaViewValidateUnion
  | TYPE_MAP => ArrowSchemaViewValidateMap
  | TYPE_DICTIONARY => ArrowSchemaViewValidateDictionary init_dictionary
  | TYPE_UNINITIALIZED | TYPE_EXTENSION =>
      v ← gets fst;
      invalid "Expected a valid enum ArrowType value but found %d"
        [AInt (match sv_type v with TYPE_EXTENSION => 32 | _ => 0 end)]
  end.

(** A local [struct ArrowSchemaView] before anything is stored in it; its content is never
    read before it is written. *)
Definition fresh_view : ArrowSchemaView :=
  mkView None TYPE_UNINITIALIZED TYPE_UNINITIALIZED (ArrowLayoutInit TYPE_UNINITIALIZED)
    None None 0 0 0 0 TIME_UNIT_SECOND None None.

Fixpoint ArrowSchemaViewInit (schema : ArrowSchema) : M VS unit :=
  if negb (sc_release schema) then invalid "Expected non-released schema" [] else
  (if sc_indeterminate schema then undef else mret tt) ;;
  on_view (set_view_schema (Some schema)) ;;
  match sc_format schema with
  | None =>
      invalid ("Error parsing schema->format: Expected a null-terminated string but " +:+
               "found NULL") []
  | Some format =>
      if strlen format =? 0
      then invalid "Error parsing schema->format: Expected a string with size > 0" [] else
      format_end_out ← (fun p =>
        match ArrowSchemaViewParse format p with
        | Exit result (v, error) =>
            Exit result (v, match error with
                            | None => None
                            | Some child_error =>
                                ArrowErrorSet "Error parsing schema->format: %s"
                                  [AStr child_error] error
                            end)
        | r => r
        end);
      if negb (strlen format =? format_end_out)
      then invalid "Error parsing schema->format '%s': parsed %d/%d characters"
             [AStr format; AInt format_end_out; AInt (strlen format)] else
      when (bool_decide (is_Some (sc_dictionary schema)))
        (on_view (fun v => set_types TYPE_DICTIONARY (sv_storage_type v) v)) ;;
      let init_dictionary : M ArrowError unit := fun error =>
        match sc_dictionary schema with
        | Some d =>
            match ArrowSchemaViewInit d (fresh_view, error) with
            | Ret _ (_, error') => Ret tt error'
            | Exit c (_, error') => Exit c error'
            | Undef => Undef
            | NoFuel => NoFuel
            end
        | None => Exit EINVAL (ArrowErrorSet "Expected non-NULL schema" [] error)
        end in
      v ← gets fst;
      ArrowSchemaViewValidate init_dictionary (sv_storage_type v) ;;
      when (negb (type_eqb (sv_storage_type v) (sv_type v)))
        (ArrowSchemaViewValidate init_dictionary (sv_type v)) ;;
      let layout := ArrowLayoutInit (sv_storage_type v) in
      (* [fixed_size * 8] is an [int32_t] *)
      size_bits ← (if type_eqb (sv_storage_type v) TYPE_FIXED_SIZE_BINARY then i32 (sv_fixed_size v * 8) else mret 0);
      on_view (set_layout
        match sv_storage_type v with
        | TYPE_FIXED_SIZE_BINARY =>
            mkLayout (ly_buffer_type layout)
              (<[1%nat := size_bits]> (ly_element_size_bits layout))
              (ly_child_size_elements layout)
        | TYPE_FIXED_SIZE_LIST =>
            mkLayout (ly_buffer_type layout) (ly_element_size_bits layout) (sv_fixed_size v)
        | _ => layout
        end) ;;
      name ← lift_opt (ArrowMetadataGetValue (sc_metadata schema) (string_bytes "ARROW:extension:name"));
      metadata ←
        lift_opt (ArrowMetadataGetValue (sc_metadata schema) (string_bytes "ARROW:extension:metadata"));
      on_view (set_extension name metadata)
  end.

(** * The types the schema builders write, and their formats read back *)
Inductive type_desc :=
| DTemplate (type : ArrowType)
| DFixedBinary (size : Z)
| DFixedList (size : Z)
| DDecimal128 (precision scale : Z)
| DDecimal256 (precision scale : Z)
| DTime32 (time_unit : ArrowTimeUnit)
| DTime64 (time_unit : ArrowTimeUnit)
| DTimestamp (time_unit : ArrowTimeUnit) (timezone : option string)
| DDuration (time_unit : ArrowTimeUnit)
| DSparseUnion (n_children : Z)
| DDenseUnion (n_children : Z).

Definition is_i32 (z : Z) : bool := (INT32_MIN <=? z) && (z <=? INT32_MAX).
Definition desc_ok (d : type_desc) : bool :=
  match d with
  | DTemplate type => bool_decide (is_Some (ArrowSchemaFormatTemplate type))
  | DFixedBinary n | DFixedList n => is_i32 n
  | DDecimal128 p s | DDecimal256 p s => is_i32 p && is_i32 s
  | DTime32 u => match u with TIME_UNIT_SECOND | TIME_UNIT_MILLI => true | _ => false end
  | DTime64 u => match u with TIME_UNIT_MICRO | TIME_UNIT_NANO => true | _ => false end
  | _ => true
  end.

(** The type an array of a logical type stores its values as. *)
Definition unit_storage (u : ArrowTimeUnit) : ArrowType :=
  match u with TIME_UNIT_SECOND | TIME_UNIT_MILLI => TYPE_INT32 | _ => TYPE_INT64 end.
Definition template_storage (type : ArrowType) : ArrowType :=
  match type with TYPE_DATE32 => TYPE_INT32 | TYPE_DATE64 => TYPE_INT64 | _ => type end.
Definition has_type (v : ArrowSchemaView) (type storage : ArrowType) : Prop :=
  sv_type v = type /\ sv_storage_type v = storage.
Definition describes (d : type_desc) (v : ArrowSchemaView) : Prop :=
  match d with
  | DTemplate type => has_type v type (template_storage type)
  | DFixedBinary n =>
      has_type v TYPE_FIXED_SIZE_BINARY TYPE_FIXED_SIZE_BINARY /\ sv_fixed_size v = n
  | DFixedList n => has_type v TYPE_FIXED_SIZE_LIST TYPE_FIXED_SIZE_LIST /\ sv_fixed_size v = n
  | DDecimal128 p s => has_type v TYPE_DECIMAL128 TYPE_DECIMAL128 /\
      sv_decimal_precision v = p /\ sv_decimal_scale v = s /\ sv_decimal_bitwidth v = 128
  | DDecimal256 p s => has_type v TYPE_DECIMAL256 TYPE_DECIMAL256 /\
      sv_decimal_precision v = p /\ sv_decimal_scale v = s /\ sv_decimal_bitwidth v = 256
  | DTime32 u => has_type v TYPE_TIME32 TYPE_INT32 /\ sv_time_unit v = u
  | DTime64 u => has_type v TYPE_TIME64 TYPE_INT64 /\ sv_time_unit v = u
  | DTimestamp u z => has_type v TYPE_TIMESTAMP (unit_storage u) /\ sv_time_unit v = u /\
      sv_timezone v = Some (default ""%string z)
  | DDuration u => has_type v TYPE_DURATION (unit_storage u) /\ sv_time_unit v = u
  | DSparseUnion _ => has_type v TYPE_SPARSE_UNION TYPE_SPARSE_UNION
  | DDenseUnion _ => has_type v TYPE_DENSE_UNION TYPE_DENSE_UNION
  end.

Section builders.
Context `{Libc}.
(** The builder call for a type. *)
Definition set_desc (d : type_desc) : M ArrowSchema unit :=
  match d with
  | DTemplate type => ArrowSchemaSetType type
  | DFixedBinary n => ArrowSchemaSetTypeFixedSize TYPE_FIXED_SIZE_BINARY n
  | DFixedList n => ArrowSchemaSetTypeFixedSize TYPE_FIXED_SIZE_LIST n
  | DDecimal128 p s => ArrowSchemaSetTypeDecimal TYPE_DECIMAL128 p s
  | DDecimal256 p s => ArrowSchemaSetTypeDecimal TYPE_DECIMAL256 p s
  | DTime32 u => ArrowSchemaSetTypeDateTime TYPE_TIME32 u None
  | DTime64 u => ArrowSchemaSetTypeDateTime TYPE_TIME64 u None
  | DTimestamp u z => ArrowSchemaSetTypeDateTime TYPE_TIMESTAMP u z
  | DDuration u => ArrowSchemaSetTypeDateTime TYPE_DURATION u None
  | DSparseUnion n => ArrowSchemaSetTypeUnion TYPE_SPARSE_UNION n
  | DDenseUnion n => ArrowSchemaSetTypeUnion TYPE_DENSE_UNION n
  end.
End builders.

(** ** The format each builder writes *)
Definition desc_format (d : type_desc) : string :=
  match d with
  | DTemplate type => default "" (ArrowSchemaFormatTemplate type)
  | DFixedBinary n => "w:" +:+ fmt_Z n
  | DFixedList n => "+w:" +:+ fmt_Z n
  | DDecimal128 p s => "d:" +:+ fmt_Z p +:+ "," +:+ fmt_Z s
  | DDecimal256 p s => "d:" +:+ fmt_Z p +:+ "," +:+ fmt_Z s +:+ ",256"
  | DTime32 u | DTime64 u => "tt" +:+ ArrowTimeUnitFormatString u
  | DTimestamp u z => "ts" +:+ ArrowTimeUnitFormatString u +:+ ":" +:+ default "" z
  | DDuration u => "tD" +:+ ArrowTimeUnitFormatString u
  | DSparseUnion n => union_format "+us:" n
  | DDenseUnion n => union_format "+ud:" n
  end%string.

Lemma str_drop_app a b : str_drop (String.length a) (a +:+ b) = b.
Proof.
  unfold str_drop. induction a as [|c a IH].
  - simpl. change ("" +:+ b)%string with b. by rewrite Nat.sub_0_r, substring_all.
  - rewrite string_app_cons. simpl. done.
Qed.
Lemma str_drop_eq a b n s : n = String.length a -> s = (a +:+ b)%string -> str_drop n s = b.
Proof. intros -> ->. apply str_drop_app. Qed.

Lemma strtol_i32_fmt z rest : is_i32 z = true -> no_digit rest ->
  strtol_i32 (fmt_Z z +:+ rest) = (z, rest).
Proof.
  unfold is_i32. intros [H1 H2]%andb_prop Hr. apply Z.leb_le in H1, H2.
  unfold INT32_MIN, INT32_MAX in *. unfold strtol_i32.
  rewrite strtol_fmt_Z; [|apply in_i64_intro; unfold INT64_MIN, INT64_MAX; lia|done].
  f_equal. trans (to_signed 32 (z mod 2 ^ 32)).
  - unfold to_signed. by rewrite Z.mod_mod.
  - apply to_signed_id; lia.
Qed.

(** Reading a number consumes something. *)
Lemma fmt_Z_app_neq z rest : String.eqb rest (fmt_Z z +:+ rest) = false.
Proof.
  apply String.eqb_neq. intros Heq%(f_equal String.length).
  assert (0 < String.length (fmt_Z z))%nat.
  { unfold fmt_Z, fmt_nat. destruct (Z.ltb_spec z 0); [simpl; lia|].
    destruct (dec_digits_head (S (Z.to_nat (Z.log2 z))) z "" ltac:(lia) ltac:(done))
      as (d & r & _ & ->). simpl. lia. }
  assert (strlen (fmt_Z z +:+ rest) = strlen (fmt_Z z) + strlen rest) as Hl by apply strlen_app.
  unfold strlen in Hl. lia.
Qed.
Lemma fmt_Z_not_nul z rest : at_end (fmt_Z z +:+ rest) 0 = false.
Proof.
  unfold fmt_Z, fmt_nat. destruct (Z.ltb_spec z 0); [done|].
  destruct (dec_digits_head (S (Z.to_nat (Z.log2 z))) z "" ltac:(lia) ltac:(done))
    as (d & r & Hd & ->).
  unfold at_end, is_char, char_at; simpl.
  apply Ascii.eqb_neq. intros Heq%(f_equal byte_of_ascii). rewrite byte_of_digit in Heq by done.
  change (byte_of_ascii "000") with 0 in Heq. lia.
Qed.

Lemma char_at_skip c s i : char_at (String c s) (S i) = char_at s i.
Proof. done. Qed.
Lemma str_drop_skip c s i : str_drop (S i) (String c s) = str_drop i s.
Proof. done. Qed.
Lemma str_drop_0 s : str_drop 0 s = s.
Proof. unfold str_drop. by rewrite Nat.sub_0_r, substring_all. Qed.
Lemma str_drop_1 c s : str_drop 1 (String c s) = s.
Proof. by rewrite str_drop_skip, str_drop_0. Qed.
Lemma offset_app a b : offset_of (a +:+ b) b = strlen a.
Proof. unfold offset_of. rewrite strlen_app. lia. Qed.
Lemma offset_end a : offset_of a "" = strlen a.
Proof. unfold offset_of. change (strlen "") with 0. lia. Qed.

(** What a parse must do: consume the whole format and describe the type. *)
Definition reads_back (d : type_desc) (v : ArrowSchemaView) (e : ArrowError)
    (r : result VS Z) : Prop :=
  exists v', r = Ret (strlen (desc_format d)) (v', e) /\ sv_schema v' = sv_schema v /\
    describes d v'.

Lemma primitive_eq type n p : primitive type n p = Ret n (set_types type type p.1, p.2).
Proof. done. Qed.

Lemma parse_decimal_fmt p s tail v e :
  is_i32 p = true -> is_i32 s = true -> tail = ""%string \/ tail = ",256"%string ->
  let format := ("d:" +:+ fmt_Z p +:+ "," +:+ fmt_Z s +:+ tail)%string in
  let type := if String.eqb tail "" then TYPE_DECIMAL128 else TYPE_DECIMAL256 in
  let bits := if String.eqb tail "" then 128 else 256 in
  parse_decimal format (v, e) =
    Ret (strlen format)
      (set_types type type (set_bitwidth bits (set_scale s (set_precision p v))), e).
Proof.
  intros Hp Hs Htail format type bits.
  unfold parse_decimal.
  assert (is_char format 1 ":" = true) as -> by done.
  assert (at_end format 2 = false) as -> by apply (fmt_Z_not_nul p ("," +:+ fmt_Z s +:+ tail)).
  cbn [negb orb].
  assert (str_drop 2 format = fmt_Z p +:+ "," +:+ fmt_Z s +:+ tail)%string as Hd
    by (by apply (str_drop_eq "d:")).
  rewrite Hd, strtol_i32_fmt by done. cbn [mbind M_bind on_view modify].
  unfold mbind, M_bind, on_view, modify.
  rewrite fmt_Z_app_neq. change (is_char ("," +:+ fmt_Z s +:+ tail) 0 ",") with true.
  cbn [negb orb].
  change (str_drop 1 ("," +:+ fmt_Z s +:+ tail)) with (str_drop 0 (fmt_Z s +:+ tail)).
  rewrite str_drop_0.
  rewrite strtol_i32_fmt by (by destruct Htail as [-> | ->]).
  rewrite fmt_Z_app_neq.
  assert (offset_of format "" = strlen format) as Hoff by apply offset_end.
  clearbody format. clear Hd.
  destruct Htail as [-> | ->]; subst type bits; simpl; [by rewrite primitive_eq, Hoff|].
  by rewrite primitive_eq, Hoff.
Qed.

Lemma parse_fixed_binary_fmt n v e :
  is_i32 n = true ->
  parse_fixed_size_binary ("w:" +:+ fmt_Z n) (v, e) =
    Ret (strlen ("w:" +:+ fmt_Z n))
      (set_fixed_size n (set_types TYPE_FIXED_SIZE_BINARY TYPE_FIXED_SIZE_BINARY v), e).
Proof.
  intros Hn. rewrite <- (string_app_nil (fmt_Z n)).
  set (format := ("w:" +:+ fmt_Z n +:+ "")%string). unfold parse_fixed_size_binary.
  assert (is_char format 1 ":" = true) as -> by done.
  assert (at_end format 2 = false) as -> by apply (fmt_Z_not_nul n "").
  assert (str_drop 2 format = (fmt_Z n +:+ "")%string) as -> by (by apply (str_drop_eq "w:")).
  rewrite strtol_i32_fmt by done. cbn -[offset_of strlen]. by rewrite offset_end.
Qed.
Lemma parse_fixed_list_fmt n v e :
  is_i32 n = true ->
  parse_fixed_size_list ("+w:" +:+ fmt_Z n) (v, e) =
    Ret (strlen ("+w:" +:+ fmt_Z n))
      (set_fixed_size n (set_types TYPE_FIXED_SIZE_LIST TYPE_FIXED_SIZE_LIST v), e).
Proof.
  intros Hn. rewrite <- (string_app_nil (fmt_Z n)).
  set (format := ("+w:" +:+ fmt_Z n +:+ "")%string). unfold parse_fixed_size_list.
  assert (is_char format 2 ":" = true) as -> by done.
  assert (at_end format 3 = false) as -> by apply (fmt_Z_not_nul n "").
  assert (str_drop 3 format = (fmt_Z n +:+ "")%string) as -> by (by apply (str_drop_eq "+w:")).
  rewrite strtol_i32_fmt by done. cbn -[offset_of strlen]. by rewrite offset_end.
Qed.

Lemma parse_timestamp_fmt u z v e :
  let format := ("ts" +:+ ArrowTimeUnitFormatString u +:+ ":" +:+ z)%string in
  parse_timestamp format (v, e) =
    Ret (strlen format)
      (set_timezone (Some z)
        (set_time_unit u (set_types TYPE_TIMESTAMP (unit_storage u) v)), e).
Proof.
  intros format. unfold format, parse_timestamp.
  assert (str_drop 4 ("ts" +:+ ArrowTimeUnitFormatString u +:+ ":" +:+ z) = z) as ->
    by (apply (str_drop_eq ("ts" +:+ ArrowTimeUnitFormatString u +:+ ":")%string); by destruct u).
  by destruct u.
Qed.

(** ** Union type ids *)
Definition comma_ids (from : Z) (n : nat) : string :=
  fold_right (fun i acc => ("," +:+ fmt_Z (from + Z.of_nat i) +:+ acc)%string) ""%string (seq 0 n).
Lemma comma_ids_S from n :
  comma_ids from (S n) = ("," +:+ fmt_Z from +:+ comma_ids (from + 1) n)%string.
Proof.
  unfold comma_ids. cbn [seq fold_right]. rewrite Z.add_0_r. do 2 f_equal.
  rewrite <- fmap_S_seq. generalize (seq 0 n) as l.
  induction l as [|i l IH]; [done|]. cbn [fmap list_fmap fold_right]. rewrite IH.
  by replace (from + Z.of_nat (S i)) with (from + 1 + Z.of_nat i) by lia.
Qed.
Lemma comma_ids_no_digit from n : no_digit (comma_ids from n).
Proof. destruct n; [done|]. by rewrite comma_ids_S. Qed.

Lemma parse_comma_ids n from fuel :
  0 <= from -> from + Z.of_nat n <= 127 -> (n < fuel)%nat ->
  parse_type_ids fuel (fmt_Z from +:+ comma_ids (from + 1) n) =
    Some ((fun i => from + Z.of_nat i) <$> seq 0 (S n)).
Proof.
  revert from fuel. induction n as [|n IH]; intros from fuel Hf Hn Hfuel;
    (destruct fuel as [|fuel]; [lia|]); cbn [parse_type_ids];
    (rewrite strtol_fmt_Z;
      [|apply in_i64_intro; unfold INT64_MIN, INT64_MAX; lia|apply comma_ids_no_digit]);
    rewrite fmt_Z_app_neq, (proj2 (Z.ltb_ge _ _)), Z.gtb_ltb, (proj2 (Z.ltb_ge _ _)) by lia;
    cbn [orb].
  { simpl. by rewrite Z.add_0_r. }
  rewrite comma_ids_S. cbn [String.append].
  change ("," +:+ fmt_Z (from + 1) +:+ comma_ids (from + 1 + 1) n)%string
    with (String "," (fmt_Z (from + 1) +:+ comma_ids (from + 1 + 1) n)).
  cbv iota beta. rewrite IH by lia. cbn [fmap option_fmap option_map].
  f_equal. cbn [seq fmap list_fmap]. f_equal; [lia|]. f_equal; [lia|].
  change (seq 2 n) with (seq (S 1) n). rewrite <- (fmap_S_seq 1 n), <- list_fmap_compose.
  apply list_fmap_ext. intros i x _. simpl. lia.
Qed.

Lemma union_format_ids prefix n : 0 < n ->
  union_format prefix n = (prefix +:+ fmt_Z 0 +:+ comma_ids 1 (Z.to_nat n - 1))%string.
Proof.
  intros Hn. unfold union_format. rewrite Z.gtb_ltb, (proj2 (Z.ltb_lt _ _)) by done.
  do 2 f_equal. unfold comma_ids. rewrite <- fmap_S_seq.
  generalize (seq 0 (Z.to_nat n - 1)) as l. induction l as [|i l IH]; [done|].
  cbn [fmap list_fmap fold_right]. rewrite IH.
  by replace (Z.of_nat (S i)) with (1 + Z.of_nat i) by lia.
Qed.

Lemma union_ids_fmt n : 0 <= n <= 127 ->
  exists ids, union_format "" n = ids /\ _ArrowParseUnionTypeIds ids = n.
Proof.
  intros Hn. eexists. split; [done|]. destruct (Z.eq_dec n 0) as [->|Hne]; [done|].
  rewrite union_format_ids by lia. change ("" +:+ ?s)%string with s.
  set (s := (fmt_Z 0 +:+ comma_ids 1 (Z.to_nat n - 1))%string).
  assert (parse_type_ids (S (String.length s)) s =
          Some ((fun i => 0 + Z.of_nat i) <$> seq 0 (S (Z.to_nat n - 1)))) as Hp.
  { apply (parse_comma_ids (Z.to_nat n - 1) 0); [lia..|].
    assert (forall k from, (k <= String.length (comma_ids from k))%nat) as Hlen.
    { induction k as [|k IHk]; intros from; [lia|]. rewrite comma_ids_S.
      pose proof (strlen_app "," (fmt_Z from +:+ comma_ids (from + 1) k)) as H1.
      pose proof (strlen_app (fmt_Z from) (comma_ids (from + 1) k)) as H2.
      unfold strlen in *. specialize (IHk (from + 1)).
      change (String.length ",") with 1%nat in H1. lia. }
    pose proof (strlen_app (fmt_Z 0) (comma_ids 1 (Z.to_nat n - 1))) as H2.
    specialize (Hlen (Z.to_nat n - 1)%nat 1). unfold strlen, s in *. lia. }
  unfold _ArrowParseUnionTypeIds, union_type_ids.
  assert (exists c r, s = String c r) as (c & r & Hs) by (eexists _, _; done).
  rewrite Hs in *. rewrite Hp. unfold zlen. rewrite length_fmap, length_seq.
  replace (Z.of_nat (S (Z.to_nat n - 1))) with n by lia.
  trans (to_signed 8 (n mod 2 ^ 8)); [unfold to_signed; by rewrite Z.mod_mod|].
  apply to_signed_id; lia.
Qed.

(** ** Round trip *)
Lemma parse_union_fmt (dense : bool) n v e :
  0 <= n <= 127 -> view_n_children v = n ->
  let type := if dense then TYPE_DENSE_UNION else TYPE_SPARSE_UNION in
  let format := union_format (if dense then "+ud:" else "+us:") n in
  exists ids, parse_union format (v, e) =
    Ret (strlen format) (set_union_type_ids (Some ids) (set_types type type v), e).
Proof.
  intros Hn Hv type format.
  destruct (union_ids_fmt n Hn) as (ids & Hids & Hcount). exists ids.
  assert (str_drop 4 format = ids) as Hd.
  { apply (str_drop_eq (if dense then "+ud:" else "+us:")); [by destruct dense|].
    by rewrite <- Hids. }
  unfold parse_union. rewrite Hd.
  unfold mbind, M_bind, on_view, modify, gets. rewrite Hcount.
  assert (forall ty x, view_n_children (set_union_type_ids x (set_types ty ty v)) = n) as Hvn
    by done.
  assert (char_at format 2 = if dense then "d"%char else "s"%char) as -> by (by destruct dense).
  assert (is_char format 3 ":" = true) as -> by (by destruct dense).
  destruct dense; cbn -[strlen view_n_children set_types set_union_type_ids];
    rewrite Hvn, Z.eqb_refl; done.
Qed.

Lemma parse_format d v e :
  desc_ok d = true ->
  match d with
  | DSparseUnion n | DDenseUnion n => 0 <= n <= 127 /\ view_n_children v = n
  | _ => True
  end ->
  reads_back d v e (ArrowSchemaViewParse (desc_format d) (v, e)).
Proof.
  intros Hok Hu. destruct d; cbn [desc_format].
  - destruct type; try (by apply bool_decide_eq_true in Hok as []);
      (eexists; split; [reflexivity|done]).
  - eexists. split; [by apply parse_fixed_binary_fmt|done].
  - eexists. split; [by apply parse_fixed_list_fmt|done].
  - apply andb_prop in Hok as [Hp Hs]. unfold reads_back; cbn [desc_format].
    rewrite <- (string_app_nil (fmt_Z scale)).
    eexists. split; [apply (parse_decimal_fmt precision scale ""); auto|done].
  - apply andb_prop in Hok as [Hp Hs].
    eexists. split; [apply (parse_decimal_fmt precision scale ",256"); auto|done].
  - destruct time_unit; try done; (eexists; split; [reflexivity|done]).
  - destruct time_unit; try done; (eexists; split; [reflexivity|done]).
  - eexists. split; [apply parse_timestamp_fmt|done].
  - destruct time_unit; (eexists; split; [reflexivity|done]).
  - destruct Hu as [Hn Hv]. destruct (parse_union_fmt false n_children v e Hn Hv) as [ids Hp].
    eexists. split; [apply Hp|done].
  - destruct Hu as [Hn Hv]. destruct (parse_union_fmt true n_children v e Hn Hv) as [ids Hp].
    eexists. split; [apply Hp|done].
Qed.

Section roundtrip.
Context `{Libc}.

(** What [ArrowSchemaInit] leaves. *)
Definition init_schema : ArrowSchema :=
  mkSchema None None None ARROW_FLAG_NULLABLE 0 None None true false.

Definition wrote (d : type_desc) (t : ArrowSchema) : Prop :=
  sc_format t = Some (desc_format d) /\
  match d with
  | DSparseUnion n | DDenseUnion n => 0 <= n <= 127 /\ sc_n_children t = n
  | _ => True
  end.

Lemma set_type_init type :
  wp (ArrowSchemaSetType type) (fun _ t => sc_format t = ArrowSchemaFormatTemplate type)
    (fun c _ => c <> 0) init_schema.
Proof.
  unfold wp. destruct type; cbv -[malloc_ok];
    repeat lazymatch goal with
      | |- context [malloc_ok ?n] => destruct (malloc_ok n); cbv -[malloc_ok]
      end; done.
Qed.

Lemma set_format_init f Q E :
  Q tt (set_format (Some f) init_schema) -> (forall t, E ENOMEM t) ->
  wp (ArrowSchemaSetFormat (Some f)) Q E init_schema.
Proof.
  intros HQ HE. eapply wp_conseq; [by apply set_format_spec|by intros [] ? ->|].
  by intros c t [[-> _] _].
Qed.

(** The children of a list are allocated and named without touching the format. *)
Lemma init_list_children f n :
  let t := set_format (Some f) init_schema in
  wp (ArrowSchemaInitChildrenIfNeeded n TYPE_FIXED_SIZE_LIST)
    (fun _ t' => sc_format t' = Some f) (fun c _ => c <> 0) t.
Proof.
  intros t. unfold wp, t. cbv -[malloc_ok];
    repeat lazymatch goal with
      | |- context [malloc_ok ?n] => destruct (malloc_ok n); cbv -[malloc_ok]
      end; done.
Qed.

Lemma union_children f n :
  0 <= n ->
  wp (ArrowSchemaAllocateChildren n ;; for_range 0 n (fun i => on_child i ArrowSchemaInit))
    (fun _ t => sc_format t = Some f /\ sc_n_children t = n) (fun c _ => c <> 0)
    (set_format (Some f) init_schema).
Proof.
  intros Hn. apply wp_bind.
  eapply wp_conseq; [by apply allocate_children_spec|..]; simpl.
  2:{ by intros c t [[-> _] _]. }
  intros _ t ->. unfold for_range. rewrite Z.sub_0_r.
  pose (I := fun (i : Z) (t : ArrowSchema) => 0 <= i /\ sc_format t = Some f /\
    sc_n_children t = n /\ (0 < n -> exists cs, sc_children t = Some cs /\ zlen cs = n /\
      forall k c, cs !! k = Some c -> is_Some c)).
  eapply wp_conseq; [apply (wp_for_loop I)| |by intros c t Hc; exact Hc].
  - split; [done|]. destruct (Z.eqb_spec n 0) as [->|]; simpl; [by split_and!|].
    split_and!; [done..|]. intros _. eexists. split; [done|]. unfold allocated.
    rewrite Z.sub_diag, zlen_app, !zlen_replicate. split; [lia|].
    intros k c Hc. rewrite app_nil_r in Hc. apply lookup_replicate in Hc as [-> _]. by eexists.
  - intros i u Hi (Hi0 & Hf & Hc & Hcs). destruct Hcs as (cs & Hcs & Hlen & Hall); [lia|].
    destruct (lookup_lt_is_Some_2 cs (Z.to_nat i)) as [c Hlk]; [unfold zlen in *; lia|].
    destruct (Hall _ _ Hlk) as [x ->]. eapply wp_on_child; [done..|].
    unfold ArrowSchemaInit. apply wp_put. split_and!; [lia|done|done|]. intros _.
    eexists. split; [done|]. split; [unfold zlen in *; by rewrite length_insert|].
    intros k c [(_ & <- & _)|[_ Hk]]%list_lookup_insert_Some; [by eexists|by eapply Hall].
  - by intros [] t (_ & ? & ? & _).
Qed.

Lemma set_union_spec (dense : bool) n :
  wp (ArrowSchemaSetTypeUnion (if dense then TYPE_DENSE_UNION else TYPE_SPARSE_UNION) n)
    (fun _ t => 0 <= n <= 127 /\ sc_n_children t = n /\
       sc_format t = Some (union_format (if dense then "+ud:" else "+us:") n))
    (fun c _ => c <> 0) init_schema.
Proof.
  unfold ArrowSchemaSetTypeUnion. rewrite Z.gtb_ltb.
  destruct (Z.ltb_spec n 0), (Z.ltb_spec 127 n); try done. simpl.
  apply wp_bind. destruct dense; apply wp_ret; simpl; apply wp_bind;
    (apply set_format_init; [|done]); simpl;
    (eapply wp_conseq; [by apply union_children; lia|by intros _ t [? ?]|done]).
Qed.

Lemma set_desc_spec d :
  desc_ok d = true ->
  wp (set_desc d) (fun _ t => wrote d t) (fun c _ => c <> 0) init_schema.
Proof.
  intros Hok. unfold wrote. destruct d; cbn [set_desc desc_format].
  - apply bool_decide_eq_true in Hok as [f Hf].
    eapply wp_conseq; [apply set_type_init| |done]. intros [] t Ht. split; [|done].
    by rewrite Ht, Hf.
  - unfold ArrowSchemaSetTypeFixedSize. destruct (size <=? 0); [done|].
    apply wp_bind, wp_ret. simpl. apply wp_bind. apply set_format_init; [|done].
    split; [|done]. simpl. by rewrite string_app_nil.
  - unfold ArrowSchemaSetTypeFixedSize. destruct (size <=? 0); [done|].
    apply wp_bind, wp_ret. simpl. apply wp_bind. apply set_format_init; [|done].
    simpl. eapply wp_conseq; [apply (init_list_children _ (ArrowSchemaInitFromType TYPE_STRUCT))| |done].
    intros [] t Ht.
    split; [|done]. rewrite Ht. simpl. by rewrite string_app_nil.
  - unfold ArrowSchemaSetTypeDecimal. destruct (precision <=? 0); [done|].
    apply wp_bind, wp_ret. apply set_format_init; [|done]. split; [|done]. simpl.
    by rewrite string_app_nil.
  - unfold ArrowSchemaSetTypeDecimal. destruct (precision <=? 0); [done|].
    apply wp_bind, wp_ret. apply set_format_init; [|done]. split; [|done]. simpl. done.
  - destruct time_unit; try done; apply set_format_init; done.
  - destruct time_unit; try done; apply set_format_init; done.
  - unfold ArrowSchemaSetTypeDateTime. apply wp_bind, wp_ret.
    destruct (_ >=? 128); [done|]. apply set_format_init; [|done]. split; [|done].
    simpl. by rewrite string_app_nil.
  - destruct time_unit; apply set_format_init; done.
  - eapply wp_conseq; [apply (set_union_spec false)| |done]. by intros _ t (? & ? & ?).
  - eapply wp_conseq; [apply (set_union_spec true)| |done]. by intros _ t (? & ? & ?).
Qed.
End roundtrip.

(** "0,0,...,0" with [n] zeros. *)
Definition zero_ids (n : nat) : string :=
  ("0" +:+ foldr (fun _ acc => ",0" +:+ acc) "" (seq 0 (n - 1)))%string.

(** * Properties *)
Section properties.
Context `{Libc}.

(** C36: Round trip of the type builders through the format parser.  For every type a
    builder can write (template types, fixed-size binary and list, decimals, times,
    timestamps with a time zone, durations, unions with up to 127 children), the builder
    either reports an error code or leaves a format string which [ArrowSchemaViewParse]
    accepts, consumes entirely, and maps back to the same type with the same parameters. *)
Theorem format_roundtrip (d : type_desc) (v : ArrowSchemaView) (e : ArrowError)
  (Hd : desc_ok d = true) :
  wp (set_desc d)
    (fun _ schema => exists format, sc_format schema = Some format /\
       exists v', ArrowSchemaViewParse format (set_view_schema (Some schema) v, e) =
                    Ret (strlen format) (v', e) /\ describes d v')
    (fun code _ => code <> 0) init_schema.
Proof.
  eapply wp_conseq; [by apply set_desc_spec| |done]. intros [] t [Hf Hu].
  eexists. split; [done|].
  destruct (parse_format d (set_view_schema (Some t) v) e Hd) as (v' & Hv & _ & Hdesc).
  - by destruct d.
  - eauto.
Qed.
End properties.

(** A timestamp or duration in seconds is viewed with 32-bit storage, although the
    other units, and the Arrow format, store timestamps and durations in 64 bits. *)
Theorem seconds_storage_is_int32 (tz : string) (v : ArrowSchemaView) (e : ArrowError) :
  exists v1 v2,
    ArrowSchemaViewParse ("tss:" +:+ tz) (v, e) = Ret (strlen ("tss:" +:+ tz)) (v1, e) /\
    has_type v1 TYPE_TIMESTAMP TYPE_INT32 /\
    ly_element_size_bits (ArrowLayoutInit (sv_storage_type v1)) = [1; 32; 0] /\
    ArrowSchemaViewParse "tDs" (v, e) = Ret 3 (v2, e) /\ has_type v2 TYPE_DURATION TYPE_INT32.
Proof. eexists _, _. by split_and!. Qed.

(** [_ArrowParseUnionTypeIds] counts ids in an [int8_t]: a format with 256 ids more
    than the union has children passes the count check of the parser, and the 128-element
    array of [_ArrowUnionTypeIdsWillEqualChildIndices] is then written past its end. *)
Theorem union_type_ids_overflow (v : ArrowSchemaView) (e : ArrowError) (schema : ArrowSchema)
  (Hn : sc_n_children schema = 1) :
  let ids := zero_ids 257 in
  (exists v', ArrowSchemaViewParse ("+us:" +:+ ids) (set_view_schema (Some schema) v, e) =
     Ret (strlen ("+us:" +:+ ids)) (v', e)) /\
  _ArrowUnionTypeIdsWillEqualChildIndices ids 1 = None.
Proof.
  intros ids. split; [|by vm_compute].
  assert (_ArrowParseUnionTypeIds ids = 1) as Hids by (by vm_compute).
  assert (str_drop 4 ("+us:" +:+ ids) = ids) as Hd by (by apply (str_drop_eq "+us:")).
  eexists. change (ArrowSchemaViewParse ("+us:" +:+ ids)) with (parse_union ("+us:" +:+ ids)).
  unfold parse_union. rewrite Hd. unfold mbind, M_bind, on_view, modify, gets.
  change (char_at ("+us:" +:+ ids) 2) with "s"%char.
  change (is_char ("+us:" +:+ ids) 3 ":") with true. cbv iota beta.
  rewrite Hids. unfold view_n_children. cbn -[strlen ids]. rewrite Hn. done.
Qed.

Section witnesses.
  #[local] Existing Instance host.

Lemma format_roundtrip_witness :
  wp (set_desc (DTimestamp TIME_UNIT_MICRO (Some "America/Halifax"%string)))
    (fun _ schema => exists format, sc_format schema = Some format /\
       exists v', ArrowSchemaViewParse format (set_view_schema (Some schema) fresh_view, None) =
                    Ret (strlen format) (v', None) /\
         describes (DTimestamp TIME_UNIT_MICRO (Some "America/Halifax"%string)) v')
    (fun code _ => code <> 0) init_schema.
Proof. apply format_roundtrip. reflexivity. Defined.

Lemma union_type_ids_overflow_witness :
  let ids := zero_ids 257 in
  (exists v', ArrowSchemaViewParse ("+us:" +:+ ids)
       (set_view_schema (Some (set_n_children 1 zero_schema)) fresh_view, None) =
     Ret (strlen ("+us:" +:+ ids)) (v', None)) /\
  _ArrowUnionTypeIdsWillEqualChildIndices ids 1 = None.
Proof. apply union_type_ids_overflow. reflexivity. Defined.
End witnesses.
