(* ===== verification/SchemaString.v ===== *)
(** nanoarrow's description of a schema (c/vendor/nanoarrow/nanoarrow.c, ArrowSchemaToString):
    text written piece by piece to a block of limited size.  The theorem: whatever the size, the
    block gets the beginning of one text, and the value is the length of that text. *)
From stdpp Require Import base tactics list numbers option strings.
From Stdlib Require Import ZArith Lia Ascii.
From S2P Require Import Prelude CLib Buffer Schema Metadata SchemaView.

(** * The code *)
Definition ArrowTimeUnitString (time_unit : ArrowTimeUnit) : string :=
  match time_unit with
  | TIME_UNIT_SECOND => "s" | TIME_UNIT_MILLI => "ms" | TIME_UNIT_MICRO => "us" | TIME_UNIT_NANO => "ns"
  end.

(** [snprintf(out + pos, n, ...)] of a text; the state is the block [out] points into.  The size
    is converted to [size_t].  Only bytes that are written must be inside the block. *)
Definition snprintf_at (pos n : Z) (text : string) : M (list Z) Z :=
  let size := to_unsigned 64 n in
  if size =? 0 then mret (strlen text) else
  l ← gets id;
  l' ← lift_opt (write_at l pos (string_bytes (truncate_to (Z.min size (strlen text + 1)) text) ++ [0]));
  put l' ;;
  mret (strlen text).

(** The text of [ArrowSchemaTypeToStringInternal]; undefined where a null pointer is printed. *)
Definition type_text (schema_view : ArrowSchemaView) : option string :=
  type_string ← ArrowTypeString (sv_type schema_view);
  match sv_type schema_view with
  | TYPE_DECIMAL128 | TYPE_DECIMAL256 =>
      Some (c_format "%s(%d, %d)" [AStr type_string; AInt (sv_decimal_precision schema_view);
                                   AInt (sv_decimal_scale schema_view)])
  | TYPE_TIMESTAMP =>
      timezone ← sv_timezone schema_view;
      Some (c_format "%s('%s', '%s')"
              [AStr type_string; AStr (ArrowTimeUnitString (sv_time_unit schema_view)); AStr timezone])
  | TYPE_TIME32 | TYPE_TIME64 | TYPE_DURATION =>
      Some (c_format "%s('%s')" [AStr type_string; AStr (ArrowTimeUnitString (sv_time_unit schema_view))])
  | TYPE_FIXED_SIZE_BINARY | TYPE_FIXED_SIZE_LIST =>
      Some (c_format "%s(%ld)" [AStr type_string; AInt (sv_fixed_size schema_view)])
  | TYPE_SPARSE_UNION | TYPE_DENSE_UNION =>
      union_type_ids ← sv_union_type_ids schema_view;
      Some (c_format "%s([%s])" [AStr type_string; AStr union_type_ids])
  | _ => Some type_string
  end.
Definition ArrowSchemaTypeToStringInternal (schema_view : ArrowSchemaView) (pos n : Z) : M (list Z) Z :=
  text ← lift_opt (type_text schema_view); snprintf_at pos n text.

(** [extension_name.size_bytes > 0], and what ["%.*s"] prints of it. *)
Definition is_extension (v : ArrowSchemaView) : bool :=
  match sv_extension_name v with Some name => 0 <? zlen name | None => false end.
Definition extension_text (v : ArrowSchemaView) : string :=
  bytes_string (c_prefix (default [] (sv_extension_name v))).
Definition is_dictionary (schema : ArrowSchema) : bool := bool_decide (is_Some (sc_dictionary schema)).
(** What is printed before and after the type, if anything. *)
Definition opening (schema : ArrowSchema) (v : ArrowSchemaView) : option (option string) :=
  match is_extension v, is_dictionary schema with
  | true, true =>
      storage ← ArrowTypeString (sv_storage_type v);
      Some (Some (c_format "%s{dictionary(%s)<" [AStr (extension_text v); AStr storage]))
  | true, false => Some (Some (c_format "%s{" [AStr (extension_text v)]))
  | false, true =>
      storage ← ArrowTypeString (sv_storage_type v);
      Some (Some (c_format "dictionary(%s)<" [AStr storage]))
  | false, false => Some None
  end.
Definition closing (schema : ArrowSchema) (v : ArrowSchemaView) : option string :=
  match is_extension v, is_dictionary schema with
  | true, true => Some ">}"%string
  | true, false => Some "}"%string
  | false, true => Some ">"%string
  | false, false => None
  end.

(** [n_chars] and [n] after something of [last] characters was printed. *)
Definition advance (last : Z) (st : Z * Z) : Z * Z := (st.1 + last, Z.max 0 (st.2 - last)).
(** Printing at [out + n_chars]. *)
Definition print_step (writer : Z -> Z -> M (list Z) Z) (out : Z) (st : Z * Z) : M (list Z) (Z * Z) :=
  n_chars_last ← writer (out + st.1) st.2; mret (advance n_chars_last st).
Definition put_text (text : string) (out : Z) (st : Z * Z) : M (list Z) (Z * Z) :=
  print_step (fun pos n => snprintf_at pos n text) out st.
Definition put_opt (text : option string) (out : Z) (st : Z * Z) : M (list Z) (Z * Z) :=
  match text with Some t => put_text t out st | None => mret st end.

(** A pointer to a schema. *)
Definition schema_ptr (to_string : ArrowSchema -> Z -> Z -> M (list Z) Z) (schema : option ArrowSchema)
    (out n : Z) : M (list Z) Z :=
  match schema with
  | None => snprintf_at out n "[invalid: pointer is null]"
  | Some s => to_string s out n
  end.
(** The name printed before a child. *)
Definition child_name (child : option ArrowSchema) : option string :=
  s ← child; if sc_release s then name ← sc_name s; Some (c_format "%s: " [AStr name]) else None.
(** The loop over the children, where [cs] are those from [i] on. *)
Definition put_children (to_string : ArrowSchema -> Z -> Z -> M (list Z) Z) (n_children out : Z) :=
  fix go (cs : list (option ArrowSchema)) (i : Z) (st : Z * Z) {struct cs} : M (list Z) (Z * Z) :=
    if n_children <=? i then mret st else
    match cs with
    | [] => undef
    | c :: cs' =>
        st ← (if 0 <? i then put_text ", " out st else mret st);
        st ← put_opt (child_name c) out st;
        st ← print_step (schema_ptr to_string c) out st;
        go cs' (i + 1) st
    end.
(** [schema->format[0] == '+'] *)
Definition is_nested (schema : ArrowSchema) : bool :=
  match sc_format schema with Some (String "+" _) => true | _ => false end.

Section to_string.
Context (recursive : bool).

(** A schema that is not null. *)
Fixpoint schema_to_string (schema : ArrowSchema) (out n : Z) : M (list Z) Z :=
  if negb (sc_release schema) then snprintf_at out n "[invalid: schema is released]" else
  match ArrowSchemaViewInit schema (fresh_view, Some ""%string) with
  | Exit _ (_, error) => snprintf_at out n (c_format "[invalid: %s]" [AStr (default "" error)])
  | Undef => undef
  | NoFuel => nofuel
  | Ret _ (schema_view, _) =>
      first ← lift_opt (opening schema schema_view);
      st ← match first with Some t => put_text t out (0, n) | None => mret (advance 0 (0, n)) end;
      st ← match sc_dictionary schema with
           | None => print_step (ArrowSchemaTypeToStringInternal schema_view) out st
           | Some d => print_step (schema_to_string d) out st
           end;
      st ← (if recursive && is_nested schema then
              st ← put_text "<" out st;
              st ← match sc_children schema with
                   | Some cs => put_children schema_to_string (sc_n_children schema) out cs 0 st
                   | None => if sc_n_children schema <=? 0 then mret st else undef
                   end;
              put_text ">" out st
            else mret st);
      st ← put_opt (closing schema schema_view) out st;
      mret st.1
  end.
Definition ArrowSchemaToString : option ArrowSchema -> Z -> Z -> M (list Z) Z := schema_ptr schema_to_string.
End to_string.

(** * The text

    The same recursion without a block. *)
Definition join (a b : option string) : option string := x ← a; y ← b; Some (x +:+ y)%string.
Definition children_text (text : ArrowSchema -> option string) (n_children : Z) :=
  fix go (cs : list (option ArrowSchema)) (i : Z) {struct cs} : option string :=
    if n_children <=? i then Some ""%string else
    match cs with
    | [] => None
    | c :: cs' =>
        join (Some (if (0 <? i)%Z then ", " else "")%string)
          (join (Some (default "" (child_name c))%string)
             (join (match c with None => Some "[invalid: pointer is null]"%string | Some s => text s end)
                (go cs' (i + 1))))
    end.
Fixpoint schema_text (recursive : bool) (schema : ArrowSchema) : option string :=
  if negb (sc_release schema) then Some "[invalid: schema is released]"%string else
  match ArrowSchemaViewInit schema (fresh_view, Some ""%string) with
  | Exit _ (_, error) => Some (c_format "[invalid: %s]" [AStr (default "" error)])
  | Undef | NoFuel => None
  | Ret _ (schema_view, _) =>
      join (default ""%string <$> opening schema schema_view)
        (join (match sc_dictionary schema with
               | None => type_text schema_view
               | Some d => schema_text recursive d
               end)
           (join (if recursive && is_nested schema then
                    join (Some "<"%string)
                      (join (match sc_children schema with
                             | Some cs => children_text (schema_text recursive) (sc_n_children schema) cs 0
                             | None => if sc_n_children schema <=? 0 then Some ""%string else None
                             end) (Some ">"%string))
                  else Some ""%string)
              (Some (default ""%string (closing schema schema_view)))))
  end.

(** * Blocks with the beginning of a text *)
Definition room (n : Z) (bs : list Z) : list Z := take (Z.to_nat (n - 1)) bs ++ [0].
Definition printed (out n : Z) (bs l : list Z) : list Z :=
  if n =? 0 then l else
  take (Z.to_nat out) l ++ room n bs ++ drop (Z.to_nat out + length (room n bs)) l.

Lemma printed_app out n a b l : 0 <= out -> 0 <= n -> n = 0 \/ out + n <= zlen l ->
  printed (out + zlen a) (Z.max 0 (n - zlen a)) b (printed out n a l) = printed out n (a ++ b) l.
Proof.
  intros Ho Hn Hl. unfold printed, zlen in *. destruct (Z.eqb_spec n 0) as [->|Hn0].
  { destruct (Z.eqb_spec (Z.max 0 (0 - Z.of_nat (length a))) 0); [done|lia]. }
  destruct Hl as [|Hl]; [done|].
  destruct (Z.eqb_spec (Z.max 0 (n - Z.of_nat (length a))) 0) as [Hz|Hz].
  - unfold room. by rewrite !take_app_le by lia.
  - assert (Z.of_nat (length a) < n) as Ha by lia. replace (Z.max 0 (n - Z.of_nat (length a))) with (n - Z.of_nat (length a)) by lia.
    assert (room n a = a ++ [0]) as Hra by (unfold room; by rewrite take_ge by lia).
    set (rb := take (Z.to_nat (n - Z.of_nat (length a) - 1)) b).
    assert (room n (a ++ b) = a ++ rb ++ [0]) as ->.
    { unfold room, rb. rewrite take_app_ge by lia. rewrite <- app_assoc. do 2 f_equal. f_equal. lia. }
    assert (room (n - Z.of_nat (length a)) b = rb ++ [0]) as -> by done. rewrite Hra.
    set (pre := take (Z.to_nat out) l). assert (Z.to_nat out = length pre) as Hpre by (unfold pre; rewrite length_take; lia).
    assert (Z.to_nat (out + Z.of_nat (length a)) = length (pre ++ a)) as -> by (rewrite length_app; lia).
    rewrite Hpre. set (d := drop (length pre + length (a ++ [0])) l).
    assert (pre ++ (a ++ [0]) ++ d = (pre ++ a) ++ 0 :: d) as -> by by rewrite <- !app_assoc.
    rewrite take_app_length, drop_app_add, <- !app_assoc. do 4 f_equal.
    rewrite length_app, Nat.add_1_r. simpl. unfold d. rewrite drop_drop. f_equal. rewrite !length_app. simpl. lia.
Qed.
Lemma string_bytes_app a b : string_bytes (a +:+ b) = string_bytes a ++ string_bytes b.
Proof. induction a as [|c a IH]; [done|]. simpl. by rewrite IH. Qed.
Lemma string_bytes_substring k s : string_bytes (String.substring 0 k s) = take k (string_bytes s).
Proof. revert k. induction s as [|c s IH]; intros [|k]; simpl; try done. by rewrite IH. Qed.

(** ** Writers *)
Definition stuck {S A} (r : result S A) : Prop := r = Undef \/ r = NoFuel.
Definition fits (out n : Z) (l : list Z) : Prop := 0 <= out /\ 0 <= n < 2 ^ 63 /\ (n = 0 \/ out + n <= zlen l).
(** A text printed to a block. *)
Definition text_at (out n : Z) (t : string) (l : list Z) : list Z := printed out n (string_bytes t) l.
Definition writes (m : Z -> Z -> M (list Z) Z) (text : option string) : Prop := forall out n l, fits out n l ->
  match text with Some t => m out n l = Ret (strlen t) (text_at out n t l) | None => stuck (m out n l) end.
(** The counters after [t0]. *)
Definition counters (n : Z) (t0 : string) : Z * Z := (strlen t0, Z.max 0 (n - strlen t0)).
(** Code that goes on printing. *)
Definition continues (f : Z -> Z * Z -> M (list Z) (Z * Z)) (text : option string) : Prop :=
  forall out n l t0, fits out n l ->
  match text with
  | Some t => f out (counters n t0) (text_at out n t0 l) = Ret (counters n (t0 +:+ t)) (text_at out n (t0 +:+ t) l)
  | None => stuck (f out (counters n t0) (text_at out n t0 l))
  end.

Lemma stuck_bind {S A B} (m : M S A) (k : A -> M S B) s : stuck (m s) -> stuck ((m ≫= k) s).
Proof. unfold stuck, mbind, M_bind. intros [-> | ->]; auto. Qed.
Lemma zlen_text_at out n t l : fits out n l -> zlen (text_at out n t l) = zlen l.
Proof.
  intros (Ho & Hn & Hl). unfold text_at, printed. destruct (Z.eqb_spec n 0); [done|].
  assert (Z.of_nat (length (room n (string_bytes t))) <= n).
  { unfold room. rewrite length_app, length_take. simpl. lia. }
  unfold zlen in *. rewrite !length_app, length_take, length_drop. lia.
Qed.
Lemma strlen_nonneg s : 0 <= strlen s.
Proof. unfold strlen. lia. Qed.
Lemma snprintf_writes t : writes (fun pos n => snprintf_at pos n t) (Some t).
Proof.
  intros out n l (Ho & Hn & Hl). unfold snprintf_at, text_at, printed. cbv zeta. pose proof (strlen_nonneg t).
  assert (to_unsigned 64 n = n) as -> by (unfold to_unsigned; apply Z.mod_small; lia).
  destruct (Z.eqb_spec n 0) as [|Hn0]; [done|]. cbv [mbind M_bind gets id lift_opt].
  assert (string_bytes (truncate_to (Z.min n (strlen t + 1)) t) ++ [0] = room n (string_bytes t)) as ->.
  { unfold room, truncate_to. rewrite string_bytes_substring. f_equal. rewrite <- zlen_string_bytes in *.
    destruct (Z.le_gt_cases n (zlen (string_bytes t) + 1)); [by rewrite Z.min_l by lia|].
    rewrite Z.min_r by lia. unfold zlen in *. by rewrite !take_ge by lia. }
  rewrite write_at_Some; [done|done|].
  assert (Z.of_nat (length (room n (string_bytes t))) <= n) by (unfold room; rewrite length_app, length_take; simpl; lia).
  unfold zlen in *. lia.
Qed.
Lemma advance_counters n t0 t : 0 <= n -> advance (strlen t) (counters n t0) = counters n (t0 +:+ t).
Proof. intros Hn. unfold advance, counters. simpl. rewrite strlen_app. pose proof (strlen_nonneg t). f_equal. lia. Qed.
Lemma text_at_app out n t0 t l : fits out n l ->
  text_at (out + strlen t0) (Z.max 0 (n - strlen t0)) t (text_at out n t0 l) = text_at out n (t0 +:+ t) l.
Proof.
  intros (? & ? & ?). unfold text_at. rewrite string_bytes_app, <- zlen_string_bytes. apply printed_app; lia.
Qed.
Lemma fits_rest out n t0 l : fits out n l ->
  fits (out + strlen t0) (Z.max 0 (n - strlen t0)) (text_at out n t0 l).
Proof.
  intros Hf. pose proof (strlen_nonneg t0). pose proof (zlen_text_at out n t0 l Hf) as Hz.
  destruct Hf as (Ho & Hn & Hl). unfold fits. rewrite Hz. lia.
Qed.
Lemma fits_start out n l : fits out n l -> fits (out + 0) (Z.max 0 (n - 0)) l.
Proof. unfold fits. lia. Qed.

(** ** Composition *)
Lemma step_continues w t : writes w t -> continues (print_step w) t.
Proof.
  intros Hw out n l t0 Hf. specialize (Hw _ _ _ (fits_rest out n t0 l Hf)). unfold print_step.
  change (out + strlen t0) with (out + (counters n t0).1) in Hw.
  change (Z.max 0 (n - strlen t0)) with (counters n t0).2 in Hw.
  destruct t as [t|]; [|by apply stuck_bind].
  rewrite (bind_ret _ _ _ _ _ Hw), advance_counters by apply Hf. unfold mret, M_ret. f_equal. by apply text_at_app.
Qed.
Lemma put_text_continues t : continues (put_text t) (Some t).
Proof. unfold put_text. exact (step_continues _ _ (snprintf_writes t)). Qed.
Lemma nothing_continues : continues (fun _ st => mret st) (Some ""%string).
Proof. intros out n l t0 _. by rewrite string_app_nil. Qed.
Lemma put_opt_continues o : continues (put_opt o) (Some (default "" o)%string).
Proof. destruct o; [apply put_text_continues|apply nothing_continues]. Qed.
Lemma continues_bind f g a b : continues f a -> continues g b ->
  continues (fun out st => f out st ≫= g out) (join a b).
Proof.
  intros Hf Hg out n l t0 Hfit. specialize (Hf out n l t0 Hfit). destruct a as [a|]; simpl.
  - rewrite (bind_ret _ _ _ _ _ Hf). specialize (Hg out n l (t0 +:+ a) Hfit).
    destruct b as [b|]; simpl; [|done]. by rewrite <- string_app_assoc.
  - by apply stuck_bind.
Qed.
Lemma stuck_continues {f} : (forall out st l, stuck (f out st l)) -> continues f None.
Proof. intros Hs out n l t0 _. apply Hs. Qed.
Lemma schema_ptr_writes w text c : (forall s, c = Some s -> writes (w s) (text s)) ->
  writes (schema_ptr w c) (match c with None => Some "[invalid: pointer is null]"%string | Some s => text s end).
Proof. intros Hw. destruct c as [s|]; [by apply Hw|]. apply snprintf_writes. Qed.
Lemma children_continue w text n cs : Forall (fun c => forall s, c = Some s -> writes (w s) (text s)) cs ->
  forall i, continues (fun out st => put_children w n out cs i st) (children_text text n cs i).
Proof.
  induction 1 as [|c cs Hc _ IH]; intros i; cbn [put_children children_text]; destruct (n <=? i).
  - apply nothing_continues.
  - apply stuck_continues. by left.
  - apply nothing_continues.
  - apply continues_bind; [destruct (0 <? i); [apply put_text_continues|apply nothing_continues]|].
    apply continues_bind; [apply put_opt_continues|].
    apply continues_bind; [by apply step_continues, schema_ptr_writes|]. apply IH.
Qed.
(** The first piece, and the end. *)
Definition starts (f : Z -> Z * Z -> M (list Z) (Z * Z)) (text : option string) : Prop := forall out n l, fits out n l ->
  match text with
  | Some t => f out (advance 0 (0, n)) l = Ret (counters n t) (text_at out n t l)
  | None => stuck (f out (advance 0 (0, n)) l)
  end.
Definition finishes (f : Z -> Z * Z -> M (list Z) Z) (text : option string) : Prop := forall out n l t0, fits out n l ->
  match text with
  | Some t => f out (counters n t0) (text_at out n t0 l) = Ret (strlen (t0 +:+ t)) (text_at out n (t0 +:+ t) l)
  | None => stuck (f out (counters n t0) (text_at out n t0 l))
  end.
Lemma step_starts w t : writes w t -> starts (print_step w) t.
Proof.
  intros Hw out n l Hf. specialize (Hw (out + 0) (Z.max 0 (n - 0)) l (fits_start out n l Hf)). unfold print_step.
  cbn [advance fst snd]. destruct t as [t|]; [|by apply stuck_bind].
  rewrite (bind_ret _ _ _ _ _ Hw). unfold mret, M_ret. destruct Hf as (_ & Hn & _).
  replace (Z.max 0 (n - 0)) with n by lia. f_equal; [unfold advance, counters; simpl; f_equal; lia|]. by rewrite Z.add_0_r.
Qed.
Lemma starts_bind f g a b : starts f a -> continues g b -> starts (fun out st => f out st ≫= g out) (join a b).
Proof.
  intros Hf Hg out n l Hfit. specialize (Hf out n l Hfit). destruct a as [a|]; simpl; [|by apply stuck_bind].
  rewrite (bind_ret _ _ _ _ _ Hf). specialize (Hg out n l a Hfit). by destruct b.
Qed.
Lemma finishes_bind f g a b : continues f a -> finishes g b -> finishes (fun out st => f out st ≫= g out) (join a b).
Proof.
  intros Hf Hg out n l t0 Hfit. specialize (Hf out n l t0 Hfit). destruct a as [a|]; simpl; [|by apply stuck_bind].
  rewrite (bind_ret _ _ _ _ _ Hf). specialize (Hg out n l (t0 +:+ a) Hfit). destruct b as [b|]; simpl; [|done].
  by rewrite <- string_app_assoc.
Qed.
Lemma writes_bind f g a b : starts f a -> finishes g b ->
  writes (fun out n => f out (advance 0 (0, n)) ≫= g out) (join a b).
Proof.
  intros Hf Hg out n l Hfit. specialize (Hf out n l Hfit). destruct a as [a|]; simpl; [|by apply stuck_bind].
  rewrite (bind_ret _ _ _ _ _ Hf). specialize (Hg out n l a Hfit). by destruct b.
Qed.
Lemma closing_finishes o : finishes (fun out st => put_opt o out st ≫= fun st => mret st.1) (Some (default "" o)%string).
Proof.
  intros out n l t0 Hfit. pose proof (put_opt_continues o out n l t0 Hfit) as Hc. simpl in Hc.
  by rewrite (bind_ret _ _ _ _ _ Hc).
Qed.
Lemma type_writes v : writes (ArrowSchemaTypeToStringInternal v) (type_text v).
Proof.
  intros out n l Hf. unfold ArrowSchemaTypeToStringInternal. destruct (type_text v) as [t|]; [|by left].
  exact (snprintf_writes t out n l Hf).
Qed.
Lemma join_empty b : join (Some ""%string) b = b.
Proof. by destruct b. Qed.
Lemma kids_continue recursive schema w text :
  (forall cs, sc_children schema = Some cs -> Forall (fun c => forall s, c = Some s -> writes (w s) (text s)) cs) ->
  continues (fun out st =>
    if recursive && is_nested schema then
      put_text "<" out st ≫= fun st =>
      (match sc_children schema with
       | Some cs => put_children w (sc_n_children schema) out cs 0 st
       | None => if sc_n_children schema <=? 0 then mret st else undef
       end) ≫= fun st => put_text ">" out st
    else mret st)
  (if recursive && is_nested schema then
     join (Some "<"%string)
       (join (match sc_children schema with
              | Some cs => children_text text (sc_n_children schema) cs 0
              | None => if sc_n_children schema <=? 0 then Some ""%string else None
              end) (Some ">"%string))
   else Some ""%string).
Proof.
  intros Hcs. destruct (recursive && is_nested schema); [|apply nothing_continues].
  apply continues_bind; [apply put_text_continues|]. apply continues_bind; [|apply put_text_continues].
  destruct (sc_children schema) as [cs|]; [by apply children_continue, Hcs|].
  destruct (sc_n_children schema <=? 0); [apply nothing_continues|apply stuck_continues; by left].
Qed.
(** An opening, a type and the rest. *)
Lemma described_writes o w t rest r : writes w t -> finishes rest r ->
  writes (fun out n => (match o with Some t => put_text t out (0, n) | None => mret (advance 0 (0, n)) end)
                         ≫= fun st => print_step w out st ≫= rest out)
    (join (Some (default "" o)%string) (join t r)).
Proof.
  intros Hw Hr. destruct o as [f|].
  - pose proof (writes_bind _ _ _ _ (step_starts _ _ (snprintf_writes f))
      (finishes_bind _ _ _ _ (step_continues _ _ Hw) Hr)) as Hall.
    intros out n l Hfit. specialize (Hall out n l Hfit). unfold put_text.
    assert ((0, n) = advance 0 (0, n)) as -> by (unfold advance; simpl; f_equal; destruct Hfit as (_ & ? & _); lia).
    exact Hall.
  - cbn [default]. rewrite join_empty. exact (writes_bind _ _ _ _ (step_starts _ _ Hw) Hr).
Qed.
Lemma schema_writes recursive s : writes (schema_to_string recursive s) (schema_text recursive s).
Proof.
  induction s as [s IHc IHd] using schema_tree_ind.
  intros out n l Hfit. destruct s as [f nm md fl nc ch dict r ind]. cbn [schema_to_string schema_text].
  set (s := mkSchema f nm md fl nc ch dict r ind) in *. fold s.
  destruct (negb (sc_release s)); [by apply snprintf_writes|].
  destruct (ArrowSchemaViewInit s _) as [[] [v e]|c [v e]| |]; [|by apply snprintf_writes|by left|by right].
  destruct (opening s v) as [o|]; [|by left]. cbn [fmap option_fmap option_map].
  (* the type or the dictionary *)
  set (w := match sc_dictionary s with Some d => schema_to_string recursive d | None => ArrowSchemaTypeToStringInternal v end).
  set (t := match sc_dictionary s with None => type_text v | Some d => schema_text recursive d end).
  assert (writes w t) as Hw by (unfold w, t; destruct (sc_dictionary s) as [d|]; [by apply IHd|apply type_writes]).
  pose proof (finishes_bind _ _ _ _ (kids_continue recursive s _ _ IHc) (closing_finishes (closing s v))) as Hrest.
  pose proof (described_writes o w t _ _ Hw Hrest out n l Hfit) as Hall. subst w t. clear Hw.
  destruct (sc_dictionary s); exact Hall.
Qed.

(** * The theorem *)

(** C32: describing a schema writes the beginning of one text, whatever the size of the block: of
    a size [n > 0] the first [n - 1] characters and a null byte and nothing outside, of size 0
    nothing; the value is the length of the whole text, so that a second call with a block of
    that length and one more byte prints all of it. *)
Theorem ArrowSchemaToString_truncates recursive schema out n l t :
  fits out n l -> schema_text recursive schema = Some t ->
  ArrowSchemaToString recursive (Some schema) out n l = Ret (strlen t) (text_at out n t l) /\
  (forall l', zlen l' = strlen t + 1 -> strlen t + 1 < 2 ^ 63 ->
     ArrowSchemaToString recursive (Some schema) 0 (strlen t + 1) l' = Ret (strlen t) (string_bytes t ++ [0])).
Proof.
  intros Hf Ht. split.
  - pose proof (schema_writes recursive schema out n l Hf) as Hw. by rewrite Ht in Hw.
  - intros l' Hl Hb. pose proof (strlen_nonneg t).
    pose proof (schema_writes recursive schema 0 (strlen t + 1) l') as Hw. rewrite Ht in Hw.
    unfold ArrowSchemaToString, schema_ptr. rewrite Hw by (unfold fits; lia). f_equal.
    unfold text_at, printed, room. rewrite <- zlen_string_bytes in *.
    destruct (Z.eqb_spec (zlen (string_bytes t) + 1) 0); [lia|]. unfold zlen in *.
    rewrite (take_ge (string_bytes t)) by lia. rewrite drop_ge by (rewrite length_app; simpl; lia).
    simpl. by rewrite app_nil_r.
Qed.
Lemma ArrowSchemaToString_truncates_witness :
  ArrowSchemaToString true (Some example_schema) 0 8 (replicate 10 7) = Ret 53 (string_bytes "struct<" ++ [0; 7; 7]).
Proof.
  refine (proj1 (ArrowSchemaToString_truncates true example_schema 0 8 (replicate 10 7)
    "struct<name: string, code: dictionary(int32)<string>>" _ _)); [unfold fits|]; vm_compute; intuition congruence.
Defined.
