(* ===== verification/Array.v ===== *)
(** nanoarrow arrays (the Arrow C data interface): the array tree with its builder state,
    creating an array for a type, appending values, nulls and nested elements
    (c/vendor/nanoarrow/nanoarrow.h and nanoarrow.c). *)
From stdpp Require Import base tactics list numbers option strings.
From Stdlib Require Import ZArith Lia.
From S2P Require Import Prelude CLib Buffer Schema SchemaView.

(** * Data

    [ArrowArrayPrivateData]: the growing buffers behind an array under construction. *)
Record ArrowArrayPrivateData := mkPrivate {
  pd_bitmap : ArrowBitmap;
  pd_buffers : ArrowBuffer * ArrowBuffer;
  pd_storage_type : ArrowType;
  pd_layout : ArrowLayout;
  pd_union_type_id_is_child_index : bool;
}.
(** [ar_buffers] are the blocks [array->buffers] points at ([None]: a null pointer); a
    builder sets them from its buffers when it flushes its pointers.  [ar_private] is
    [None] for a null pointer and for arrays made by another producer. *)
Inductive ArrowArray := mkArray {
  ar_length : Z;
  ar_null_count : Z;
  ar_offset : Z;
  ar_n_buffers : Z;
  ar_n_children : Z;
  ar_buffers : list (option (list Z));
  ar_children : option (list (option ArrowArray));
  ar_dictionary : option ArrowArray;
  ar_release : bool;
  ar_private : option ArrowArrayPrivateData;
  ar_indeterminate : bool;
}.
(** [memset] of the struct to 0, and a struct of which only [release] was set to null. *)
Definition zero_array : ArrowArray :=
  mkArray 0 0 0 0 0 [] None None false None false.
Definition indet_array : ArrowArray :=
  mkArray 0 0 0 0 0 [] None None false None true.

Definition set_length n (a : ArrowArray) := mkArray n (ar_null_count a) (ar_offset a)
  (ar_n_buffers a) (ar_n_children a) (ar_buffers a) (ar_children a) (ar_dictionary a)
  (ar_release a) (ar_private a) (ar_indeterminate a).
Definition set_null_count n (a : ArrowArray) := mkArray (ar_length a) n (ar_offset a)
  (ar_n_buffers a) (ar_n_children a) (ar_buffers a) (ar_children a) (ar_dictionary a)
  (ar_release a) (ar_private a) (ar_indeterminate a).
Definition set_n_buffers n (a : ArrowArray) := mkArray (ar_length a) (ar_null_count a)
  (ar_offset a) n (ar_n_children a) (ar_buffers a) (ar_children a) (ar_dictionary a)
  (ar_release a) (ar_private a) (ar_indeterminate a).
Definition set_buffers bs (a : ArrowArray) := mkArray (ar_length a) (ar_null_count a)
  (ar_offset a) (ar_n_buffers a) (ar_n_children a) bs (ar_children a) (ar_dictionary a)
  (ar_release a) (ar_private a) (ar_indeterminate a).
Definition set_array_children n cs (a : ArrowArray) := mkArray (ar_length a)
  (ar_null_count a) (ar_offset a) (ar_n_buffers a) n (ar_buffers a) cs (ar_dictionary a)
  (ar_release a) (ar_private a) (ar_indeterminate a).
Definition set_array_dictionary d (a : ArrowArray) := mkArray (ar_length a)
  (ar_null_count a) (ar_offset a) (ar_n_buffers a) (ar_n_children a) (ar_buffers a)
  (ar_children a) d (ar_release a) (ar_private a) (ar_indeterminate a).
Definition set_array_release r (a : ArrowArray) := mkArray (ar_length a) (ar_null_count a)
  (ar_offset a) (ar_n_buffers a) (ar_n_children a) (ar_buffers a) (ar_children a)
  (ar_dictionary a) r (ar_private a) (ar_indeterminate a).
Definition set_private p (a : ArrowArray) := mkArray (ar_length a) (ar_null_count a)
  (ar_offset a) (ar_n_buffers a) (ar_n_children a) (ar_buffers a) (ar_children a)
  (ar_dictionary a) (ar_release a) p (ar_indeterminate a).

Definition set_bitmap m (p : ArrowArrayPrivateData) := mkPrivate m (pd_buffers p)
  (pd_storage_type p) (pd_layout p) (pd_union_type_id_is_child_index p).
Definition set_pd_buffers b (p : ArrowArrayPrivateData) := mkPrivate (pd_bitmap p) b
  (pd_storage_type p) (pd_layout p) (pd_union_type_id_is_child_index p).
Definition set_storage t (p : ArrowArrayPrivateData) := mkPrivate (pd_bitmap p)
  (pd_buffers p) t (pd_layout p) (pd_union_type_id_is_child_index p).
Definition set_pd_layout l (p : ArrowArrayPrivateData) := mkPrivate (pd_bitmap p)
  (pd_buffers p) (pd_storage_type p) l (pd_union_type_id_is_child_index p).
Definition set_union_index b (p : ArrowArrayPrivateData) := mkPrivate (pd_bitmap p)
  (pd_buffers p) (pd_storage_type p) (pd_layout p) b.

(** * Access

    Dereferencing [array->private_data]: undefined when it is null. *)
Definition private : M ArrowArray ArrowArrayPrivateData :=
  a ← gets id;
  if ar_indeterminate a then undef else lift_opt (ar_private a).
Definition put_private {A} (r : result ArrowArrayPrivateData A) : M ArrowArray A := fun a =>
  match r with
  | Ret x p => Ret x (set_private (Some p) a)
  | Exit c p => Exit c (set_private (Some p) a)
  | Undef => Undef
  | NoFuel => NoFuel
  end.
Definition on_private {A} (m : M ArrowArrayPrivateData A) : M ArrowArray A :=
  p ← private; put_private (m p).
Definition bitmap_lens : Lens ArrowArrayPrivateData ArrowBitmap := mkLens pd_bitmap set_bitmap.
(** [ArrowArrayBuffer(array, i)] *)
Definition buffer_lens (i : Z) : Lens ArrowArrayPrivateData ArrowBuffer :=
  if i =? 0 then lens_comp bitmap_lens bm_buffer_lens
  else if i =? 1 then mkLens (fun p => (pd_buffers p).1)
                        (fun b p => set_pd_buffers (b, (pd_buffers p).2) p)
  else mkLens (fun p => (pd_buffers p).2) (fun b p => set_pd_buffers ((pd_buffers p).1, b) p).
Definition ArrowArrayBuffer {A} (i : Z) (m : M ArrowBuffer A) : M ArrowArray A :=
  on_private (zoom (buffer_lens i) m).
Definition ArrowArrayValidityBitmap {A} (m : M ArrowBitmap A) : M ArrowArray A :=
  on_private (zoom bitmap_lens m).

(** [array->children[i]] *)
Definition get_child (a : ArrowArray) (i : Z) : option ArrowArray :=
  cs ← ar_children a; if 0 <=? i then mjoin (cs !! Z.to_nat i) else None.
Definition put_child (i : Z) (c : ArrowArray) (a : ArrowArray) : ArrowArray :=
  set_array_children (ar_n_children a)
    (<[Z.to_nat i := Some c]> <$> ar_children a) a.
(** What code did to [array->children[i]]. *)
Definition child_result {A} (i : Z) (r : result ArrowArray A) : M ArrowArray A := fun a =>
  match r with
  | Ret x c => Ret x (put_child i c a)
  | Exit e c => Exit e (put_child i c a)
  | Undef => Undef
  | NoFuel => NoFuel
  end.
Definition on_array_child {A} (i : Z) (m : M ArrowArray A) : M ArrowArray A :=
  a ← gets id; c ← lift_opt (get_child a i); child_result i (m c).
Fixpoint on_array_path {A} (path : list Z) (m : M ArrowArray A) : M ArrowArray A :=
  match path with
  | [] => m
  | i :: p => on_array_child i (on_array_path p m)
  end.
(** [for (i = 0; i < array->n_children; i++) f(array->children[i]);], where [cs] are the
    children from [i] on. *)
Definition for_children (f : Z -> ArrowArray -> result ArrowArray unit) (n : Z) :=
  fix go (cs : list (option ArrowArray)) (i : Z) {struct cs} : M ArrowArray unit :=
    if n <=? i then mret tt else
    match cs with
    | Some c :: cs' => child_result i (f i c) ;; go cs' (i + 1)
    | _ => undef
    end.

(** [array->release(array)]: undefined when the callback is null. *)
Definition ArrowArrayRelease : M ArrowArray unit :=
  a ← gets id; if ar_release a then put indet_array else undef.

(** * Creating arrays *)
Definition ArrowArraySetStorageType (storage_type : ArrowType) : M ArrowArray unit :=
  n_buffers ← match storage_type with
    | TYPE_UNINITIALIZED | TYPE_NA => mret 0
    | TYPE_FIXED_SIZE_LIST | TYPE_STRUCT | TYPE_SPARSE_UNION => mret 1
    | TYPE_LIST | TYPE_LARGE_LIST | TYPE_MAP | TYPE_BOOL | TYPE_UINT8 | TYPE_INT8
    | TYPE_UINT16 | TYPE_INT16 | TYPE_UINT32 | TYPE_INT32 | TYPE_UINT64 | TYPE_INT64
    | TYPE_HALF_FLOAT | TYPE_FLOAT | TYPE_DOUBLE | TYPE_DECIMAL128 | TYPE_DECIMAL256
    | TYPE_INTERVAL_MONTHS | TYPE_INTERVAL_DAY_TIME | TYPE_INTERVAL_MONTH_DAY_NANO
    | TYPE_FIXED_SIZE_BINARY | TYPE_DENSE_UNION => mret 2
    | TYPE_STRING | TYPE_LARGE_STRING | TYPE_BINARY | TYPE_LARGE_BINARY => mret 3
    | _ => exit EINVAL
    end;
  modify (set_n_buffers n_buffers) ;;
  on_private (modify (set_storage storage_type)).

(** [sizeof(struct ArrowArrayPrivateData)] and [sizeof(struct ArrowArray)] (LP64). *)
Definition sizeof_private := 240.
Definition sizeof_ArrowArray := 80.

Section array.
  Context `{Libc}.

Definition ArrowArrayInitFromType (storage_type : ArrowType) : M ArrowArray unit :=
  put (mkArray 0 0 0 0 0 [] None None true None false) ;;
  if negb (malloc_ok sizeof_private)
  then modify (set_array_release false) ;; exit ENOMEM else
  modify (fun a => set_buffers [None; None; None]
    (set_private (Some (mkPrivate ArrowBitmapInit (ArrowBufferInit, ArrowBufferInit)
       TYPE_UNINITIALIZED (ArrowLayoutInit TYPE_UNINITIALIZED) false)) a)) ;;
  result ← catch (ArrowArraySetStorageType storage_type);
  if negb (result =? 0) then ArrowArrayRelease ;; exit result else
  on_private (modify (fun p =>
    set_union_index true (set_pd_layout (ArrowLayoutInit storage_type) p))).

Definition ArrowArrayAllocateChildren (n_children : Z) : M ArrowArray unit :=
  a ← gets id;
  if bool_decide (is_Some (ar_children a)) then exit EINVAL else
  if n_children =? 0 then mret tt else
  if negb (malloc_ok (n_children * sizeof_ptr)) then exit ENOMEM else
  modify (set_array_children (ar_n_children a)
            (Some (replicate (Z.to_nat n_children) None))) ;;
  for_range 0 n_children (fun i =>
    if malloc_ok sizeof_ArrowArray then modify (put_child i indet_array) else exit ENOMEM) ;;
  modify (fun a => set_array_children n_children (ar_children a) a).

Definition ArrowArraySetValidityBitmap (bitmap : ArrowBitmap) : M ArrowArray ArrowBitmap :=
  let '(src, dst) := ArrowBufferMove (bm_buffer bitmap) ArrowBufferInit in
  on_private (modify (set_bitmap (mkBitmap dst (bm_size_bits bitmap)))) ;;
  modify (fun a => set_buffers (<[0%nat := buf_data dst]> (ar_buffers a)) a) ;;
  modify (set_null_count (-1)) ;;
  mret (mkBitmap src 0).

(** [ArrowArraySetBuffer(array, i, buffer)]: the value is what is left in [buffer]. *)
Definition ArrowArraySetBuffer (i : Z) (buffer : ArrowBuffer) : M ArrowArray ArrowBuffer :=
  if (0 <=? i) && (i <=? 2) then
    let '(src, dst) := ArrowBufferMove buffer ArrowBufferInit in
    ArrowArrayBuffer i (put dst) ;;
    modify (fun a => set_buffers (<[Z.to_nat i := buf_data dst]> (ar_buffers a)) a) ;;
    mret src
  else exit EINVAL.

(** * Appending *)
Definition is_offset (layout : ArrowLayout) (i : nat) (bits : Z) : bool :=
  bool_decide (ly_buffer_type layout !! i = Some BUFFER_DATA_OFFSET) &&
  bool_decide (ly_element_size_bits layout !! i = Some bits).

Fixpoint ArrowArrayStartAppending (array : ArrowArray) : result ArrowArray unit :=
  (private_data ← private;
   match pd_storage_type private_data with
   | TYPE_UNINITIALIZED => exit EINVAL
   | TYPE_SPARSE_UNION | TYPE_DENSE_UNION =>
       if pd_union_type_id_is_child_index private_data then mret tt else exit EINVAL
   | _ => mret tt
   end ;;
   for_range 0 3 (fun i =>
     if is_offset (pd_layout private_data) (Z.to_nat i) 64
     then ArrowArrayBuffer i (ArrowBufferAppendInt64 0)
     else if is_offset (pd_layout private_data) (Z.to_nat i) 32
     then ArrowArrayBuffer i (ArrowBufferAppendInt32 0)
     else mret tt) ;;
   match ar_children array with
   | Some cs => for_children (fun _ => ArrowArrayStartAppending) (ar_n_children array) cs 0
   | None => if ar_n_children array <=? 0 then mret tt else undef
   end) array.

(** [ArrowBitsSetTo(buffer->data, start_offset, length, value)] *)
Definition set_bits (start_offset length value : Z) : M ArrowBuffer unit :=
  b ← gets id;
  l ← lift_opt (buf_data b);
  l' ← lift_opt (ArrowBitsSetTo l start_offset length value);
  put (mkBuffer (Some l') (buf_size_bytes b) (buf_capacity_bytes b) (buf_allocator b)).

Definition element_bits (layout : ArrowLayout) (i : Z) : Z :=
  default 0 (ly_element_size_bits layout !! Z.to_nat i).

Definition _ArrowArrayAppendBits (buffer_i value n : Z) : M ArrowArray unit :=
  private_data ← private;
  array_length ← gets ar_length;
  let bytes_required :=
    _ArrowRoundUpToMultipleOf8
      (element_bits (pd_layout private_data) buffer_i * (array_length + 1)) ÷ 8 in
  ArrowArrayBuffer buffer_i
    (b ← gets id;
     when (bytes_required >? buf_size_bytes b)
       (ArrowBufferAppendFill 0 (bytes_required - buf_size_bytes b)) ;;
     set_bits array_length n value).

Definition add_length (n : Z) : M ArrowArray unit :=
  a ← gets id; l ← i64 (ar_length a + n); modify (set_length l).

(** The validity bits of [n] appended elements: the bitmap is created with the first null. *)
Definition append_validity (n : Z) (is_valid : bool) : M ArrowArray unit :=
  private_data ← private;
  array_length ← gets ar_length;
  match buf_data (bm_buffer (pd_bitmap private_data)) with
  | None =>
      when (negb is_valid)
        (ArrowArrayValidityBitmap
           (ArrowBitmapReserve (array_length + n) ;;
            ArrowBitmapAppendUnsafe 1 array_length ;;
            ArrowBitmapAppendUnsafe (Z.b2z is_valid) n))
  | Some _ =>
      ArrowArrayValidityBitmap
        (ArrowBitmapReserve n ;; ArrowBitmapAppendUnsafe (Z.b2z is_valid) n)
  end.

(** Re-append the last offset [n] times. *)
Definition append_offsets (i size_bytes n : Z) : M ArrowArray unit :=
  array_length ← gets ar_length;
  ArrowArrayBuffer i
    (ArrowBufferReserve (size_bytes * n) ;;
     for_range 0 n (fun j =>
       b ← gets id;
       l ← lift_opt (buf_data b);
       bytes ← lift_opt (read_at l (size_bytes * (array_length + j)) size_bytes);
       ArrowBufferAppendUnsafe bytes)).

(** The buffers of [n] empty elements; an offset buffer is followed by a data buffer, which
    is skipped. *)
Definition append_buffers (layout : ArrowLayout) (n : Z) : M ArrowArray unit :=
  (fix go (types : list ArrowBufferType) (i : Z) {struct types} : M ArrowArray unit :=
     let size_bytes := element_bits layout i ÷ 8 in
     match types with
     | [] => mret tt
     | BUFFER_NONE :: r | BUFFER_VALIDITY :: r => go r (i + 1)
     | BUFFER_DATA_OFFSET :: r =>
         append_offsets i size_bytes n ;;
         match r with [] => mret tt | _ :: r' => go r' (i + 2) end
     | BUFFER_DATA :: r =>
         (if Z.rem (element_bits layout i) 8 =? 0
          then ArrowArrayBuffer i (ArrowBufferAppendFill 0 (size_bytes * n))
          else _ArrowArrayAppendBits i 0 n) ;;
         go r (i + 1)
     | BUFFER_TYPE_ID :: _ | BUFFER_UNION_OFFSET :: _ => exit EINVAL
     end) (ly_buffer_type layout) 0.

Fixpoint _ArrowArrayAppendEmptyInternal (n : Z) (is_valid : bool) (array : ArrowArray)
    {struct array} : result ArrowArray unit :=
  (let empty n := _ArrowArrayAppendEmptyInternal n true in
   let all_children (f : Z -> ArrowArray -> result ArrowArray unit) : M ArrowArray unit :=
     match ar_children array with
     | Some cs => for_children f (ar_n_children array) cs 0
     | None => if ar_n_children array <=? 0 then mret tt else undef
     end in
   let first_child (f : ArrowArray -> result ArrowArray unit) : M ArrowArray unit :=
     match ar_children array with
     | Some (Some c :: _) => child_result 0 (f c)
     | _ => undef
     end in
   private_data ← private;
   if n =? 0 then mret tt else
   let leaf :=
     append_validity n is_valid ;;
     append_buffers (pd_layout private_data) n ;;
     add_length n ;;
     modify (fun a => set_null_count (ar_null_count a + n * Z.b2z (negb is_valid)) a) in
   match pd_storage_type private_data with
   | TYPE_NA =>
       modify (fun a => set_null_count (ar_null_count a + n) a) ;; add_length n
   | TYPE_DENSE_UNION =>
       first_child (_ArrowArrayAppendEmptyInternal 1 is_valid) ;;
       ArrowArrayBuffer 0 (ArrowBufferAppendFill 0 n) ;;
       a ← gets id;
       child ← lift_opt (get_child a 0);
       for_range 0 n (fun _ =>
         ArrowArrayBuffer 1 (ArrowBufferAppendInt32 (ar_length child - 1))) ;;
       add_length n
   | TYPE_SPARSE_UNION =>
       when (ar_n_children array <=? 0) undef ;; (* there is no [children[0]] *)
       all_children (fun i => if i =? 0 then _ArrowArrayAppendEmptyInternal n is_valid
                              else empty n) ;;
       ArrowArrayBuffer 0 (ArrowBufferAppendFill 0 n) ;;
       add_length n
   | TYPE_FIXED_SIZE_LIST =>
       first_child (empty (n * ly_child_size_elements (pd_layout private_data))) ;; leaf
   | TYPE_STRUCT => all_children (fun _ => empty n) ;; leaf
   | _ => leaf
   end) array.

Definition ArrowArrayAppendNull (n : Z) : M ArrowArray unit :=
  _ArrowArrayAppendEmptyInternal n false.
Definition ArrowArrayAppendEmpty (n : Z) : M ArrowArray unit :=
  _ArrowArrayAppendEmptyInternal n true.

(** [_NANOARROW_CHECK_RANGE] *)
Definition check_range {S} (x min max : Z) : M S unit :=
  if (min <=? x) && (x <=? max) then mret tt else exit EINVAL.

(** The end of the append functions: a valid bit, if there is a bitmap, and the length. *)
Definition finish_append : M ArrowArray unit :=
  private_data ← private;
  when (bool_decide (is_Some (buf_data (bm_buffer (pd_bitmap private_data)))))
    (ArrowArrayValidityBitmap (ArrowBitmapAppend 1 1)) ;;
  add_length 1.

(** [ArrowArrayAppendInt] for the types that store the value themselves; an unsigned
    storage type calls [ArrowArrayAppendUInt] and conversely, once. *)
Definition append_int (value : Z) : M ArrowArray unit :=
  let data := ArrowArrayBuffer 1 in
  private_data ← private;
  match pd_storage_type private_data with
  | TYPE_INT64 => data (ArrowBufferAppend (le_bytes 8 value))
  | TYPE_INT32 => check_range value INT32_MIN INT32_MAX ;; data (ArrowBufferAppendInt32 value)
  | TYPE_INT16 => check_range value INT16_MIN INT16_MAX ;; data (ArrowBufferAppendInt16 value)
  | TYPE_INT8 => check_range value INT8_MIN INT8_MAX ;; data (ArrowBufferAppendInt8 value)
  | TYPE_DOUBLE => data (ArrowBufferAppendDouble (Float.f64_of_Z value))
  | TYPE_FLOAT => data (ArrowBufferAppendFloat (Float.f32_of_Z value))
  | TYPE_BOOL => _ArrowArrayAppendBits 1 (Z.b2z (negb (value =? 0))) 1
  | _ => exit EINVAL
  end ;;
  finish_append.
Definition append_uint (value : Z) : M ArrowArray unit :=
  let data := ArrowArrayBuffer 1 in
  private_data ← private;
  match pd_storage_type private_data with
  | TYPE_UINT64 => data (ArrowBufferAppend (le_bytes 8 value))
  | TYPE_UINT32 => check_range value 0 UINT32_MAX ;; data (ArrowBufferAppendUInt32 value)
  | TYPE_UINT16 => check_range value 0 UINT16_MAX ;; data (ArrowBufferAppendUInt16 value)
  | TYPE_UINT8 => check_range value 0 UINT8_MAX ;; data (ArrowBufferAppendUInt8 value)
  | TYPE_DOUBLE => data (ArrowBufferAppendDouble (Float.f64_of_Z value))
  | TYPE_FLOAT => data (ArrowBufferAppendFloat (Float.f32_of_Z value))
  | TYPE_BOOL => _ArrowArrayAppendBits 1 (Z.b2z (negb (value =? 0))) 1
  | _ => exit EINVAL
  end ;;
  finish_append.
Definition ArrowArrayAppendInt (value : Z) : M ArrowArray unit :=
  private_data ← private;
  match pd_storage_type private_data with
  | TYPE_UINT64 | TYPE_UINT32 | TYPE_UINT16 | TYPE_UINT8 =>
      check_range value 0 INT64_MAX ;; append_uint value
  | _ => append_int value
  end.
Definition ArrowArrayAppendUInt (value : Z) : M ArrowArray unit :=
  private_data ← private;
  match pd_storage_type private_data with
  | TYPE_INT64 | TYPE_INT32 | TYPE_INT16 | TYPE_INT8 =>
      check_range value 0 INT64_MAX ;; append_int value
  | _ => append_uint value
  end.
(** [value] is the bit pattern of the double. *)
Definition ArrowArrayAppendDouble (value : Z) : M ArrowArray unit :=
  private_data ← private;
  match pd_storage_type private_data with
  | TYPE_DOUBLE => ArrowArrayBuffer 1 (ArrowBufferAppend (le_bytes 8 value))
  | TYPE_FLOAT => ArrowArrayBuffer 1 (ArrowBufferAppendFloat (Float.f32_of_f64 value))
  | _ => exit EINVAL
  end ;;
  finish_append.

(** [buffer->data] read as an array of signed integers of some size. *)
Definition read_elem (bytes : Z) (i : Z) : M ArrowBuffer Z :=
  b ← gets id;
  l ← lift_opt (buf_data b);
  bs ← lift_opt (read_at l (bytes * i) bytes);
  mret (le_sint bs).

Definition ArrowArrayAppendBytes (value : list Z) : M ArrowArray unit :=
  private_data ← private;
  array_length ← gets ar_length;
  match pd_storage_type private_data with
  | TYPE_STRING | TYPE_BINARY =>
      offset ← ArrowArrayBuffer 1 (read_elem 4 array_length);
      if offset + zlen value >? INT32_MAX then exit EINVAL else
      ArrowArrayBuffer 1 (ArrowBufferAppend (le_bytes 4 (offset + zlen value))) ;;
      ArrowArrayBuffer 2 (ArrowBufferAppend value)
  | TYPE_LARGE_STRING | TYPE_LARGE_BINARY =>
      large_offset ← ArrowArrayBuffer 1 (read_elem 8 array_length);
      large_offset ← i64 (large_offset + zlen value);
      ArrowArrayBuffer 1 (ArrowBufferAppend (le_bytes 8 large_offset)) ;;
      ArrowArrayBuffer 2 (ArrowBufferAppend value)
  | TYPE_FIXED_SIZE_BINARY =>
      if negb (zlen value =? element_bits (pd_layout private_data) 1 ÷ 8) then exit EINVAL
      else ArrowArrayBuffer 1 (ArrowBufferAppend value)
  | _ => exit EINVAL
  end ;;
  finish_append.
Definition ArrowArrayAppendString (value : string) : M ArrowArray unit :=
  private_data ← private;
  match pd_storage_type private_data with
  | TYPE_STRING | TYPE_LARGE_STRING => ArrowArrayAppendBytes (string_bytes value)
  | _ => exit EINVAL
  end.

Definition ArrowArrayFinishElement : M ArrowArray unit :=
  private_data ← private;
  array ← gets id;
  match pd_storage_type private_data with
  | TYPE_LIST | TYPE_MAP =>
      child ← lift_opt (get_child array 0);
      if ar_length child >? INT32_MAX then exit EINVAL else
      ArrowArrayBuffer 1 (ArrowBufferAppendInt32 (ar_length child))
  | TYPE_LARGE_LIST =>
      child ← lift_opt (get_child array 0);
      ArrowArrayBuffer 1 (ArrowBufferAppendInt64 (ar_length child))
  | TYPE_FIXED_SIZE_LIST =>
      child ← lift_opt (get_child array 0);
      if ar_length child =? (ar_length array + 1) *
                            ly_child_size_elements (pd_layout private_data)
      then mret tt else exit EINVAL
  | TYPE_STRUCT =>
      for_range 0 (ar_n_children array) (fun i =>
        child ← lift_opt (get_child array i);
        if ar_length child =? ar_length array + 1 then mret tt else exit EINVAL)
  | _ => exit EINVAL
  end ;;
  finish_append.

Definition ArrowArrayFinishUnionElement (type_id : Z) : M ArrowArray unit :=
  private_data ← private;
  array ← gets id;
  let child_index := type_id in
  if (child_index <? 0) || (child_index >=? ar_n_children array) then exit EINVAL else
  match pd_storage_type private_data with
  | TYPE_DENSE_UNION =>
      child ← lift_opt (get_child array child_index);
      check_range (ar_length child) 0 INT32_MAX ;;
      ArrowArrayBuffer 1 (ArrowBufferAppendInt32 (ar_length child - 1))
  | TYPE_SPARSE_UNION =>
      for_range 0 (ar_n_children array) (fun i =>
        child ← lift_opt (get_child array i);
        if (i =? child_index) || (ar_length child =? ar_length array + 1) then mret tt else
        if negb (ar_length child =? ar_length array) then exit EINVAL else
        on_array_child i (ArrowArrayAppendEmpty 1))
  | _ => exit EINVAL
  end ;;
  ArrowArrayBuffer 0 (ArrowBufferAppendInt8 type_id) ;;
  add_length 1.

End array.
