(* ===== verification/ArrayView.v ===== *)
(** nanoarrow array views: reading the values of an array made by any producer, and the
    parts of array building that use views (creating an array for a schema, the checks of
    [ArrowArrayFinishBuilding]) (c/vendor/nanoarrow/nanoarrow.c, nanoarrow.h). *)
From stdpp Require Import base tactics list numbers option strings.
From Stdlib Require Import ZArith Lia.
From S2P Require Import Prelude CLib Buffer Schema SchemaView Array.

(** * Data *)
Record ArrowBufferView := mkBV { bv_data : option (list Z); bv_size_bytes : Z }.
(** [av_array] is the array being viewed; arrays are not changed while a view reads them.
    [av_union_type_id_map] is the 256-byte map of a union. *)
Inductive ArrowArrayView := mkAV {
  av_array : option ArrowArray;
  av_storage_type : ArrowType;
  av_layout : ArrowLayout;
  av_buffer_views : list ArrowBufferView;
  av_n_children : Z;
  av_children : option (list (option ArrowArrayView));
  av_union_type_id_map : option (list Z);
}.
Definition null_views : list ArrowBufferView := [mkBV None 0; mkBV None 0; mkBV None 0].
Definition ArrowArrayViewInitFromType (storage_type : ArrowType) : ArrowArrayView :=
  mkAV None storage_type (ArrowLayoutInit storage_type) null_views 0 None None.
(** [ArrowArrayViewReset]: what it leaves. *)
Definition ArrowArrayViewReset : ArrowArrayView := ArrowArrayViewInitFromType TYPE_UNINITIALIZED.
(** [memset] of an [ArrowArrayView]; a zeroed storage type is UNINITIALIZED. *)
Definition zero_view : ArrowArrayView :=
  mkAV None TYPE_UNINITIALIZED (mkLayout [BUFFER_NONE; BUFFER_NONE; BUFFER_NONE] [0; 0; 0] 0)
    null_views 0 None None.
(** [array_view->children[i]] *)
Definition view_child (v : ArrowArrayView) (i : Z) : option ArrowArrayView :=
  cs ← av_children v; if 0 <=? i then mjoin (cs !! Z.to_nat i) else None.

Definition set_av_array a (v : ArrowArrayView) := mkAV a (av_storage_type v) (av_layout v)
  (av_buffer_views v) (av_n_children v) (av_children v) (av_union_type_id_map v).
Definition set_av_layout l (v : ArrowArrayView) := mkAV (av_array v) (av_storage_type v) l
  (av_buffer_views v) (av_n_children v) (av_children v) (av_union_type_id_map v).
Definition set_views b (v : ArrowArrayView) := mkAV (av_array v) (av_storage_type v)
  (av_layout v) b (av_n_children v) (av_children v) (av_union_type_id_map v).
Definition set_view_children n c (v : ArrowArrayView) := mkAV (av_array v)
  (av_storage_type v) (av_layout v) (av_buffer_views v) n c (av_union_type_id_map v).
Definition set_type_map m (v : ArrowArrayView) := mkAV (av_array v) (av_storage_type v)
  (av_layout v) (av_buffer_views v) (av_n_children v) (av_children v) m.

(** The code works on a view and an error. *)
Definition VE : Type := ArrowArrayView * ArrowError.
Definition on_av (f : ArrowArrayView -> ArrowArrayView) : M VE unit :=
  modify (fun p => (f p.1, p.2)).
Definition view_invalid {A} (fmt : string) (args : list fmt_arg) : M VE A :=
  modify (fun p => (p.1, ArrowErrorSet fmt args p.2)) ;; exit EINVAL.
(** Code on [array_view->children[i]] (and the same error). *)
Definition on_view_child {A} (i : Z) (m : M VE A) : M VE A := fun p =>
  match av_children p.1 with
  | None => Undef
  | Some cs =>
      match (if 0 <=? i then mjoin (cs !! Z.to_nat i) else None) with
      | None => Undef
      | Some c =>
          let back q := (set_view_children (av_n_children p.1)
                           (Some (<[Z.to_nat i := Some q.1]> cs)) p.1, q.2) in
          match m (c, p.2) with
          | Ret x q => Ret x (back q)
          | Exit e q => Exit e (back q)
          | Undef => Undef
          | NoFuel => NoFuel
          end
      end
  end.
(** [for (i = 0; i < n; i++) f(array_view->children[i], cs[i]);] *)
Definition for_view_children {A} (f : A -> M VE unit) (n : Z) :=
  fix go (cs : list (option A)) (i : Z) {struct cs} : M VE unit :=
    if n <=? i then mret tt else
    match cs with
    | Some c :: cs' => on_view_child i (f c) ;; go cs' (i + 1)
    | _ => undef
    end.
Definition all_children {A} (f : A -> M VE unit) (n : Z) (children : option (list (option A)))
    : M VE unit :=
  match children with
  | Some cs => for_view_children f n cs 0
  | None => if n <=? 0 then mret tt else undef
  end.
(** [if (result != NANOARROW_OK) { ArrowArrayViewReset(array_view); return result; }] *)
Definition or_reset (m : M VE unit) : M VE unit :=
  result ← catch m;
  when (negb (result =? 0)) (on_av (fun _ => ArrowArrayViewReset) ;; exit result).

(** [sizeof(struct ArrowArrayView)] (LP64). *)
Definition sizeof_view := 144.

Section view.
  Context `{Libc}.

Definition ArrowArrayViewAllocateChildren (n_children : Z) : M VE unit :=
  v ← gets fst;
  if bool_decide (is_Some (av_children v)) then exit EINVAL else
  if negb (malloc_ok (n_children * sizeof_ptr)) then exit ENOMEM else
  on_av (set_view_children n_children (Some (replicate (Z.to_nat n_children) None))) ;;
  for_range 0 n_children (fun i =>
    if malloc_ok sizeof_view then
      on_av (fun v => set_view_children n_children
        (<[Z.to_nat i := Some (ArrowArrayViewInitFromType TYPE_UNINITIALIZED)]> <$>
           av_children v) v)
    else exit ENOMEM).

(** [ArrowSchemaViewInit(&schema_view, schema, error)] into a local view. *)
Definition view_schema (schema : ArrowSchema) : M VE ArrowSchemaView := fun p =>
  match ArrowSchemaViewInit schema (fresh_view, p.2) with
  | Ret _ (v, e) => Ret v (p.1, e)
  | Exit c (_, e) => Exit c (p.1, e)
  | Undef => Undef
  | NoFuel => NoFuel
  end.

(** The map of a union: type id to child index, and child index to type id from 128 on. *)
Definition union_map (ids : list Z) (n_type_ids : Z) : list Z :=
  let base := replicate 128 (-1) ++ ids ++ replicate (128 - length ids) (-1) in
  fold_left (fun m child_index =>
      match m !! (128 + child_index)%nat with
      | Some type_id => <[Z.to_nat type_id := Z.of_nat child_index]> m
      | None => m
      end) (seq 0 (Z.to_nat n_type_ids)) base.

Fixpoint ArrowArrayViewInitFromSchema (schema : ArrowSchema) : M VE unit :=
  schema_view ← view_schema schema;
  on_av (fun _ => set_av_layout (sv_layout schema_view)
                    (ArrowArrayViewInitFromType (sv_storage_type schema_view))) ;;
  or_reset (ArrowArrayViewAllocateChildren (sc_n_children schema)) ;;
  or_reset (all_children ArrowArrayViewInitFromSchema (sc_n_children schema)
              (sc_children schema)) ;;
  match sv_storage_type schema_view with
  | TYPE_SPARSE_UNION | TYPE_DENSE_UNION =>
      if negb (malloc_ok 256) then exit ENOMEM else
      type_ids ← lift_opt (sv_union_type_ids schema_view);
      '(n_type_ids, ids) ← lift_opt (parse_type_ids_into type_ids 128);
      on_av (set_type_map (Some (union_map ids n_type_ids)))
  | _ => mret tt
  end.

(** ** Sizes

    The products are [int64_t]: [None] on overflow. *)
Definition i64_opt (z : Z) : option Z := if in_i64 z then Some z else None.
Definition view_size (layout : ArrowLayout) (length : Z) (i : Z) : option Z :=
  let bits := element_bits layout i in
  let element_size_bytes := bits ÷ 8 in
  match default BUFFER_NONE (ly_buffer_type layout !! Z.to_nat i) with
  | BUFFER_VALIDITY => Some (_ArrowBytesForBits length)
  | BUFFER_DATA_OFFSET =>
      i64_opt ((if length =? 0 then 0 else 1) * element_size_bytes * (length + 1))
  | BUFFER_DATA =>
      n ← i64_opt (bits * length);
      _ ← i64_opt (n + 7);
      Some (_ArrowRoundUpToMultipleOf8 n ÷ 8)
  | BUFFER_TYPE_ID | BUFFER_UNION_OFFSET => i64_opt (element_size_bytes * length)
  | BUFFER_NONE => Some 0
  end.
Fixpoint ArrowArrayViewSetLength (v : ArrowArrayView) (length : Z) : option ArrowArrayView :=
  s0 ← view_size (av_layout v) length 0;
  s1 ← view_size (av_layout v) length 1;
  s2 ← view_size (av_layout v) length 2;
  let v' := set_views [mkBV None s0; mkBV None s1; mkBV None s2] v in
  let children_from (cs : list (option ArrowArrayView)) (n length : Z) :=
    (fix go (cs : list (option ArrowArrayView)) (i : Z) {struct cs}
         : option (list (option ArrowArrayView)) :=
       if n <=? i then Some cs else
       match cs with
       | Some c :: cs' =>
           c' ← ArrowArrayViewSetLength c length; rest ← go cs' (i + 1); Some (Some c' :: rest)
       | _ => None
       end) cs 0 in
  match av_storage_type v, av_children v with
  | (TYPE_STRUCT | TYPE_SPARSE_UNION), Some cs =>
      cs' ← children_from cs (av_n_children v) length;
      Some (set_view_children (av_n_children v) (Some cs') v')
  | (TYPE_STRUCT | TYPE_SPARSE_UNION), None =>
      if av_n_children v <=? 0 then Some v' else None
  | TYPE_FIXED_SIZE_LIST, cs =>
      if av_n_children v >=? 1 then
        match cs with
        | Some cs =>
            n ← i64_opt (length * ly_child_size_elements (av_layout v));
            cs' ← children_from cs 1 n;
            Some (set_view_children (av_n_children v) (Some cs') v')
        | None => None
        end
      else Some v'
  | _, _ => Some v'
  end.
Definition set_view_length (length : Z) : M VE unit :=
  v ← gets fst; v' ← lift_opt (ArrowArrayViewSetLength v length); on_av (fun _ => v').

(** ** Reading *)
Definition buffer_view (v : ArrowArrayView) (i : Z) : ArrowBufferView :=
  default (mkBV None 0) (av_buffer_views v !! Z.to_nat i).
(** [buffer_views[b].data.as_intN[i]]: the bytes of an element, if they are in the block. *)
Definition elem_bytes (v : ArrowArrayView) (b bytes i : Z) : option (list Z) :=
  l ← bv_data (buffer_view v b); read_at l (bytes * i) bytes.
Definition as_int (v : ArrowArrayView) (b bytes i : Z) : option Z :=
  le_sint <$> elem_bytes v b bytes i.
Definition as_uint (v : ArrowArrayView) (b bytes i : Z) : option Z :=
  le_uint <$> elem_bytes v b bytes i.

(** ** [ArrowArrayViewSetArray] *)
Definition count_buffers (layout : ArrowLayout) : Z :=
  (fix go (ts : list ArrowBufferType) : Z :=
     match ts with [] | BUFFER_NONE :: _ => 0 | _ :: r => 1 + go r end) (ly_buffer_type layout).
(** The data pointers of the first [n] buffers; [array->buffers] has an entry for each. *)
Definition set_buffer_data (array : ArrowArray) (v : ArrowArrayView) (i : Z)
    : option ArrowArrayView :=
  data ← ar_buffers array !! Z.to_nat i;
  let absent := bool_decide (ly_buffer_type (av_layout v) !! Z.to_nat i = Some BUFFER_VALIDITY)
                && (ar_null_count array =? 0) && bool_decide (data = None) in
  let size := if absent then 0 else bv_size_bytes (buffer_view v i) in
  Some (set_views (<[Z.to_nat i := mkBV data size]> (av_buffer_views v)) v).
Fixpoint set_buffer_views (array : ArrowArray) (v : ArrowArrayView) (n : nat) (i : Z)
    : option ArrowArrayView :=
  match n with
  | O => Some v
  | S n' => v' ← set_buffer_data array v i; set_buffer_views array v' n' (i + 1)
  end.

Definition child_length (array : ArrowArray) (i : Z) : option Z :=
  ar_length <$> get_child array i.
(** The element of the offset buffer after the last one, when the buffer is needed. *)
Definition last_offset (v : ArrowArrayView) (bytes i : Z) : option (option Z) :=
  if bv_size_bytes (buffer_view v 1) =? 0 then Some None
  else Some <$> as_int v 1 bytes i.
Definition set_data_size (n : Z) (v : ArrowArrayView) : ArrowArrayView :=
  set_views (<[2%nat := mkBV (bv_data (buffer_view v 2)) n]> (av_buffer_views v)) v.

(** A list's child must reach the last offset. *)
Definition check_list_child (array : ArrowArray) (bytes : Z) (type_name : string) : M VE unit :=
  if negb (ar_n_children array =? 1)
  then view_invalid "Expected 1 child of %s array but found %d child arrays"
         [AStr type_name; AInt (ar_n_children array)] else
  v ← gets fst;
  last ← lift_opt (last_offset v bytes (ar_offset array + ar_length array));
  match last with
  | None => mret tt
  | Some last_offset =>
      n ← lift_opt (child_length array 0);
      if n <? last_offset
      then view_invalid ("Expected child of %s array with length >= %ld but found array " +:+
                         "with length %ld") [AStr type_name; AInt last_offset; AInt n]
      else mret tt
  end.

Fixpoint ArrowArrayViewSetArray (array : ArrowArray) : M VE unit :=
  (if ar_indeterminate array then undef else mret tt) ;;
  end_ ← i64 (ar_offset array + ar_length array);
  on_av (set_av_array (Some array)) ;;
  set_view_length end_ ;;
  v ← gets fst;
  let buffers_required := count_buffers (av_layout v) in
  v ← lift_opt (set_buffer_views array v (Z.to_nat buffers_required) 0);
  on_av (fun _ => v) ;;
  if negb (buffers_required =? ar_n_buffers array)
  then view_invalid "Expected array with %d buffer(s) but found %d buffer(s)"
         [AInt buffers_required; AInt (ar_n_buffers array)] else
  if negb (av_n_children v =? ar_n_children array) then exit EINVAL else
  match av_storage_type v with
  | TYPE_STRING | TYPE_BINARY =>
      last ← lift_opt (last_offset v 4 end_);
      match last with Some n => on_av (set_data_size n) | None => mret tt end
  | TYPE_LARGE_STRING | TYPE_LARGE_BINARY =>
      last ← lift_opt (last_offset v 8 end_);
      match last with Some n => on_av (set_data_size n) | None => mret tt end
  | TYPE_STRUCT =>
      for_range 0 (av_n_children v) (fun i =>
        n ← lift_opt (child_length array i);
        if n <? end_
        then view_invalid ("Expected struct child %d to have length >= %ld but found " +:+
                           "child with length %ld") [AInt (i + 1); AInt end_; AInt n]
        else mret tt)
  | TYPE_LIST => check_list_child array 4 "list"
  | TYPE_MAP => check_list_child array 4 "map"
  | TYPE_LARGE_LIST => check_list_child array 8 "large list"
  | TYPE_FIXED_SIZE_LIST =>
      if negb (ar_n_children array =? 1)
      then view_invalid "Expected 1 child of fixed-size array but found %d child arrays"
             [AInt (ar_n_children array)] else
      last ← i64 (end_ * ly_child_size_elements (av_layout v));
      n ← lift_opt (child_length array 0);
      if n <? last
      then view_invalid ("Expected child of fixed-size list array with length >= %ld but " +:+
                         "found array with length %ld") [AInt last; AInt n]
      else mret tt
  | _ => mret tt
  end ;;
  all_children ArrowArrayViewSetArray (av_n_children v) (ar_children array).

(** ** Values

    The index is relative to the array's offset. *)
Definition view_index (v : ArrowArrayView) (i : Z) : option Z :=
  a ← av_array v; Some (i + ar_offset a).
(** [None] when a null pointer is dereferenced or a read is outside its block. *)
Definition ArrowArrayViewIsNull (v : ArrowArrayView) (i : Z) : option bool :=
  i ← view_index v i;
  match av_storage_type v with
  | TYPE_NA => Some true
  | TYPE_DENSE_UNION | TYPE_SPARSE_UNION => Some false
  | _ =>
      match bv_data (buffer_view v 0) with
      | None => Some false
      | Some l => b ← ArrowBitGet l i; Some (b =? 0)
      end
  end.
Definition ArrowArrayViewGetIntUnsafe (v : ArrowArrayView) (i : Z) : option Z :=
  i ← view_index v i;
  match av_storage_type v with
  | TYPE_INT64 => as_int v 1 8 i
  | TYPE_UINT64 => to_signed 64 <$> as_uint v 1 8 i
  | TYPE_INT32 => as_int v 1 4 i
  | TYPE_UINT32 => as_uint v 1 4 i
  | TYPE_INT16 => as_int v 1 2 i
  | TYPE_UINT16 => as_uint v 1 2 i
  | TYPE_INT8 => as_int v 1 1 i
  | TYPE_UINT8 => as_uint v 1 1 i
  | TYPE_DOUBLE => d ← as_uint v 1 8 i; Float.Z_of_f64 d
  | TYPE_FLOAT => f ← as_uint v 1 4 i; Float.Z_of_f64 (Float.f64_of_f32 f)
  | TYPE_BOOL => l ← bv_data (buffer_view v 1); ArrowBitGet l i
  | _ => Some INT64_MAX
  end.
Definition ArrowArrayViewGetUIntUnsafe (v : ArrowArrayView) (i : Z) : option Z :=
  i ← view_index v i;
  match av_storage_type v with
  | TYPE_INT64 => to_unsigned 64 <$> as_int v 1 8 i
  | TYPE_UINT64 => as_uint v 1 8 i
  | TYPE_INT32 => to_unsigned 64 <$> as_int v 1 4 i
  | TYPE_UINT32 => as_uint v 1 4 i
  | TYPE_INT16 => to_unsigned 64 <$> as_int v 1 2 i
  | TYPE_UINT16 => as_uint v 1 2 i
  | TYPE_INT8 => to_unsigned 64 <$> as_int v 1 1 i
  | TYPE_UINT8 => as_uint v 1 1 i
  | TYPE_DOUBLE => d ← as_uint v 1 8 i; Float.u64_of_f64 d
  | TYPE_FLOAT => f ← as_uint v 1 4 i; Float.u64_of_f64 (Float.f64_of_f32 f)
  | TYPE_BOOL => l ← bv_data (buffer_view v 1); ArrowBitGet l i
  | _ => Some UINT64_MAX
  end.
(** The bit pattern of the double; [DBL_MAX] for the other types. *)
Definition DBL_MAX : Z := 9218868437227405311.
Definition ArrowArrayViewGetDoubleUnsafe (v : ArrowArrayView) (i : Z) : option Z :=
  i ← view_index v i;
  match av_storage_type v with
  | TYPE_INT64 => Float.f64_of_Z <$> as_int v 1 8 i
  | TYPE_UINT64 => Float.f64_of_Z <$> as_uint v 1 8 i
  | TYPE_INT32 => Float.f64_of_Z <$> as_int v 1 4 i
  | TYPE_UINT32 => Float.f64_of_Z <$> as_uint v 1 4 i
  | TYPE_INT16 => Float.f64_of_Z <$> as_int v 1 2 i
  | TYPE_UINT16 => Float.f64_of_Z <$> as_uint v 1 2 i
  | TYPE_INT8 => Float.f64_of_Z <$> as_int v 1 1 i
  | TYPE_UINT8 => Float.f64_of_Z <$> as_uint v 1 1 i
  | TYPE_DOUBLE => as_uint v 1 8 i
  | TYPE_FLOAT => Float.f64_of_f32 <$> as_uint v 1 4 i
  | TYPE_BOOL => l ← bv_data (buffer_view v 1); Float.f64_of_Z <$> ArrowBitGet l i
  | _ => Some DBL_MAX
  end.
(** The bytes between two offsets of the data buffer. *)
Definition bytes_between (v : ArrowArrayView) (from to_ : Z) : option (list Z) :=
  match bv_data (buffer_view v 2) with
  | Some l => read_at l from (to_ - from)
  | None => if from =? to_ then Some [] else None
  end.
Definition ArrowArrayViewGetBytesUnsafe (v : ArrowArrayView) (i : Z) : option (list Z) :=
  i ← view_index v i;
  match av_storage_type v with
  | TYPE_STRING | TYPE_BINARY =>
      from ← as_int v 1 4 i; to_ ← as_int v 1 4 (i + 1); bytes_between v from to_
  | TYPE_LARGE_STRING | TYPE_LARGE_BINARY =>
      from ← as_int v 1 8 i; to_ ← as_int v 1 8 (i + 1); bytes_between v from to_
  | TYPE_FIXED_SIZE_BINARY =>
      let size := element_bits (av_layout v) 1 ÷ 8 in
      l ← bv_data (buffer_view v 1); read_at l (i * size) size
  | _ => Some []
  end.
End view.

(** * Building with views *)
Section build.
  Context `{Libc}.

(** [ArrowArrayInitFromArrayView]; the code of [ArrowArrayInitFromType] is not looked at,
    and a failure there leaves a null [private_data], which is dereferenced. *)
Fixpoint ArrowArrayInitFromArrayView (array_view : ArrowArrayView) : M ArrowArray unit :=
  ignore (ArrowArrayInitFromType (av_storage_type array_view)) ;;
  result ← catch (ArrowArrayAllocateChildren (av_n_children array_view));
  when (negb (result =? 0)) (ArrowArrayRelease ;; exit result) ;;
  on_private (modify (set_pd_layout (av_layout array_view))) ;;
  match av_children array_view with
  | Some cs =>
      (fix go (cs : list (option ArrowArrayView)) (i : Z) {struct cs} : M ArrowArray unit :=
         if av_n_children array_view <=? i then mret tt else
         match cs with
         | Some c :: cs' =>
             result ← catch (on_array_child i (ArrowArrayInitFromArrayView c));
             when (negb (result =? 0)) (ArrowArrayRelease ;; exit result) ;;
             go cs' (i + 1)
         | _ => undef
         end) cs 0
  | None => if av_n_children array_view <=? 0 then mret tt else undef
  end.

(** Code on an array that fills in an error. *)
Definition AE : Type := ArrowArray * ArrowError.
(** A local view, initialised from a schema; the value is the view. *)
Definition local_view (init : M VE unit) : M AE ArrowArrayView := fun p =>
  match init (ArrowArrayViewReset, p.2) with
  | Ret _ (v, e) => Ret v (p.1, e)
  | Exit c (_, e) => Exit c (p.1, e)
  | Undef => Undef
  | NoFuel => NoFuel
  end.

Definition ArrowArrayInitFromSchema (schema : ArrowSchema) : M AE unit :=
  array_view ← local_view (ArrowArrayViewInitFromSchema schema);
  zoom fst_lens (ArrowArrayInitFromArrayView array_view) ;;
  match av_storage_type array_view with
  | TYPE_DENSE_UNION | TYPE_SPARSE_UNION =>
      format ← lift_opt (sc_format schema);
      b ← lift_opt (_ArrowUnionTypeIdsWillEqualChildIndices (str_drop 4 format)
                      (sc_n_children schema));
      zoom fst_lens (on_private (modify (set_union_index b)))
  | _ => mret tt
  end.

(** ** [ArrowArrayFinishBuilding] *)
Fixpoint ArrowArrayFinalizeBuffers (array : ArrowArray) : result ArrowArray unit :=
  (private_data ← private;
   match pd_storage_type private_data with
   | TYPE_BINARY | TYPE_STRING | TYPE_LARGE_BINARY | TYPE_LARGE_STRING =>
       ArrowArrayBuffer 2
         (b ← gets id;
          when (bool_decide (buf_data b = None)) (ignore (ArrowBufferAppendUInt8 0)))
   | _ => mret tt
   end ;;
   match ar_children array with
   | Some cs => for_children (fun _ => ArrowArrayFinalizeBuffers) (ar_n_children array) cs 0
   | None => if ar_n_children array <=? 0 then mret tt else undef
   end) array.

Fixpoint ArrowArrayFlushInternalPointers (array : ArrowArray) : result ArrowArray unit :=
  (p ← private;
   modify (set_buffers [buf_data (bm_buffer (pd_bitmap p));
                        buf_data (pd_buffers p).1; buf_data (pd_buffers p).2]) ;;
   match ar_children array with
   | Some cs =>
       for_children (fun _ => ArrowArrayFlushInternalPointers) (ar_n_children array) cs 0
   | None => if ar_n_children array <=? 0 then mret tt else undef
   end) array.

Fixpoint ArrowArrayViewInitFromArray (array : ArrowArray) : M VE unit :=
  p ← lift_opt (ar_private array);
  on_av (fun _ => set_av_array (Some array)
    (set_av_layout (pd_layout p) (ArrowArrayViewInitFromType (pd_storage_type p)))) ;;
  or_reset (ArrowArrayViewAllocateChildren (ar_n_children array)) ;;
  or_reset (all_children ArrowArrayViewInitFromArray (ar_n_children array)
              (ar_children array)).

(** The checks of a builder's buffers against the sizes of the view. *)
Fixpoint ArrowArrayCheckInternalBufferSizes (set_length : bool) (array : ArrowArray)
    {struct array} : M VE unit :=
  when set_length
    (n ← i64 (ar_offset array + ar_length array); set_view_length n) ;;
  for_range 0 (ar_n_buffers array) (fun i =>
    v ← gets fst;
    data ← lift_opt (ar_buffers array !! Z.to_nat i);
    if bool_decide (ly_buffer_type (av_layout v) !! Z.to_nat i = Some BUFFER_VALIDITY) &&
       (ar_null_count array =? 0) && bool_decide (data = None)
    then mret tt else
    p ← lift_opt (ar_private array);
    let expected_size := bv_size_bytes (buffer_view v i) in
    let actual_size := buf_size_bytes (view (buffer_lens i) p) in
    if actual_size <? expected_size
    then view_invalid
           "Expected buffer %d to size >= %ld bytes but found buffer with %ld bytes"
           [AInt i; AInt expected_size; AInt actual_size]
    else mret tt) ;;
  all_children (ArrowArrayCheckInternalBufferSizes set_length) (ar_n_children array)
    (ar_children array).

Definition ArrowArrayFinishBuilding : M AE unit :=
  zoom fst_lens ArrowArrayFinalizeBuffers ;;
  zoom fst_lens ArrowArrayFlushInternalPointers ;;
  array ← gets fst;
  _ ← local_view
        (ArrowArrayViewInitFromArray array ;;
         ArrowArrayCheckInternalBufferSizes true array ;;
         ArrowArrayViewSetArray array ;;
         ArrowArrayCheckInternalBufferSizes false array);
  mret tt.
End build.
