(* ===== verification/ArrowFormat.v ===== *)
(** The Arrow columnar format, read from an array's buffers: what the values of a flat column
    are according to the format's specification, written without the array views of ArrayView.v,
    and the proof that the views of a column read exactly these values.  The binders of the two
    drivers are specified against it. *)
From stdpp Require Import base tactics list numbers option strings.
From Stdlib Require Import ZArith Lia.
From S2P Require Import Prelude CLib Buffer Schema SchemaView Array ArrayView.

(** * The format

    A value of a flat column.  A floating-point number is the bit pattern of a double. *)
Inductive scalar := ScNull | ScInt (value : Z) | ScDouble (bits : Z) | ScText (bytes : list Z).

(** The format strings of the types read here. *)
Definition format_types : list (string * ArrowType) :=
  [("c", TYPE_INT8); ("C", TYPE_UINT8); ("s", TYPE_INT16); ("S", TYPE_UINT16);
   ("i", TYPE_INT32); ("I", TYPE_UINT32); ("l", TYPE_INT64); ("L", TYPE_UINT64);
   ("f", TYPE_FLOAT); ("g", TYPE_DOUBLE); ("u", TYPE_STRING); ("U", TYPE_LARGE_STRING)]%string.
Definition format_type (format : string) : option ArrowType :=
  snd <$> List.find (fun p => String.eqb p.1 format) format_types.
(** A column that is not dictionary-encoded. *)
Definition column_type (schema : ArrowSchema) : option ArrowType :=
  match sc_dictionary schema with
  | None => format ← sc_format schema; format_type format
  | Some _ => None
  end.
(** The columns of a record batch. *)
Definition column_types (schema : ArrowSchema) : option (list ArrowType) :=
  cs ← sc_children schema; mapM (fun c => c ← c; column_type c) cs.

(** How a type is laid out: the sign and the width of its integers, the width of its offsets. *)
Definition integer_layout (type : ArrowType) : option (bool * Z) :=
  match type with
  | TYPE_INT8 => Some (true, 1) | TYPE_UINT8 => Some (false, 1)
  | TYPE_INT16 => Some (true, 2) | TYPE_UINT16 => Some (false, 2)
  | TYPE_INT32 => Some (true, 4) | TYPE_UINT32 => Some (false, 4)
  | TYPE_INT64 => Some (true, 8) | TYPE_UINT64 => Some (false, 8)
  | _ => None
  end.
Definition offset_width (type : ArrowType) : option Z :=
  match type with TYPE_STRING => Some 4 | TYPE_LARGE_STRING => Some 8 | _ => None end.

(** Bit [i] of a bitmap: least significant bit first. *)
Definition bitmap_bit (bits : list Z) (i : Z) : option bool :=
  if (0 <=? i) && (i <? 8 * zlen bits) then byte ← bits !! Z.to_nat (i / 8); Some (Z.testbit byte (i mod 8))
  else None.
(** Element [i] of a buffer of elements of [width] bytes. *)
Definition element (width : Z) (block : list Z) (i : Z) : option (list Z) :=
  read_at block (width * i) width.
Definition block_of (a : ArrowArray) (i : nat) : option (list Z) := mjoin (ar_buffers a !! i).

(** Slot [k] of the buffers: a value is null when its validity bit is cleared, and only then.  A
    missing validity bitmap means that no value is null; a missing block of text bytes that all
    texts are empty. *)
Definition slot_valid (a : ArrowArray) (k : Z) : option bool :=
  validity ← ar_buffers a !! 0%nat;
  match validity with None => Some true | Some bits => bitmap_bit bits k end.
Definition text_between (block : option (list Z)) (from upto : Z) : option (list Z) :=
  match block with
  | Some l => read_at l from (upto - from)
  | None => if from =? upto then Some [] else None
  end.
Definition slot_value (type : ArrowType) (a : ArrowArray) (k : Z) : option scalar :=
  data ← block_of a 1;
  match integer_layout type, offset_width type, type with
  | Some (signed, width), _, _ =>
      bytes ← element width data k; Some (ScInt (if signed then le_sint bytes else le_uint bytes))
  | None, Some width, _ =>
      from ← element width data k; upto ← element width data (k + 1);
      ScText <$> text_between (block_of a 2) (le_sint from) (le_sint upto)
  | None, None, TYPE_DOUBLE => bytes ← element 8 data k; Some (ScDouble (le_uint bytes))
  | None, None, TYPE_FLOAT => bytes ← element 4 data k; Some (ScDouble (Float.f64_of_f32 (le_uint bytes)))
  | _, _, _ => None
  end.
(** Value [i] of a column: the array's offset comes first. *)
Definition column_slot (type : ArrowType) (a : ArrowArray) (i : Z) : option scalar :=
  let k := ar_offset a + i in
  valid ← slot_valid a k;
  if valid : bool then slot_value type a k else Some ScNull.
(** Row [row] of a record batch, whose own offset shifts the rows of all its columns. *)
Definition batch_cell (batch : ArrowArray) (row : Z) (col : nat) (type : ArrowType) : option scalar :=
  a ← get_child batch (Z.of_nat col); column_slot type a (ar_offset batch + row).
Definition batch_row (types : list ArrowType) (batch : ArrowArray) (row : Z) : option (list scalar) :=
  mapM id (imap (batch_cell batch row) types).
Definition batch_rows_from (types : list ArrowType) (batch : ArrowArray) (from : Z)
    : option (list (list scalar)) :=
  mapM (batch_row types batch) (seqZ from (ar_length batch - from)).

(** Which values a type has. *)
Lemma slot_value_kind type a k x :
  slot_value type a k = Some x ->
  match x with
  | ScNull => False
  | ScInt _ => is_Some (integer_layout type)
  | ScDouble _ => type = TYPE_DOUBLE \/ type = TYPE_FLOAT
  | ScText _ => is_Some (offset_width type)
  end.
Proof.
  intros (data & _ & Hx)%bind_Some. destruct (integer_layout type) as [[signed width]|] eqn:Ei.
  { apply bind_Some in Hx as (? & _ & [= <-]). by eexists. }
  destruct (offset_width type) as [width|] eqn:Ew.
  { apply bind_Some in Hx as (? & _ & (? & _ & (? & _ & ->)%fmap_Some)%bind_Some). by eexists. }
  destruct type; try done; apply bind_Some in Hx as (? & _ & [= <-]); auto.
Qed.

(** * The views of a column *)
Section views.
  Context `{Libc}.

(** ** The type and the layout of a column's view *)
Definition shape (v : ArrowArrayView) : ArrowType * ArrowLayout := (av_storage_type v, av_layout v).
Definition child_shape (v : ArrowArrayView) (i : Z) : option (ArrowType * ArrowLayout) :=
  shape <$> view_child v i.

(** [yields E m Q s]: where [m] returns, [Q] holds, and where it leaves with a code, [E] does. *)
Definition yields {S A} (E : Z -> Prop) (m : M S A) (Q : A -> S -> Prop) (s : S) : Prop :=
  match m s with Ret a s' => Q a s' | Exit c _ => E c | Undef | NoFuel => True end.
Definition failure (c : Z) : Prop := c <> 0.
Definition any_code (c : Z) : Prop := True.
Section rules.
Context {S : Type} {E : Z -> Prop}.
Lemma yields_run {A} (m : M S A) Q s a s' : yields E m Q s -> m s = Ret a s' -> Q a s'.
Proof. unfold yields. intros Hm Hr. by rewrite Hr in Hm. Qed.
Lemma yields_bind {A B} (m : M S A) (k : A -> M S B) Q s :
  yields E m (fun a s' => yields E (k a) Q s') s -> yields E (m ≫= k) Q s.
Proof. unfold yields, mbind, M_bind. by destruct (m s). Qed.
Lemma yields_conseq {A} (m : M S A) (Q Q' : A -> S -> Prop) s :
  yields E m Q s -> (forall a s', Q a s' -> Q' a s') -> yields E m Q' s.
Proof. unfold yields. destruct (m s); auto. Qed.
Lemma yields_codes {A} (E' : Z -> Prop) (m : M S A) (Q : A -> S -> Prop) s :
  yields E' m Q s -> (forall c, E' c -> E c) -> yields E m Q s.
Proof. unfold yields. destruct (m s); auto. Qed.
Lemma yields_ret {A} (a : A) (Q : A -> S -> Prop) s : Q a s -> yields E (mret a) Q s.
Proof. done. Qed.
Lemma yields_exit {A} c (Q : A -> S -> Prop) s : E c -> yields E (exit c) Q s.
Proof. done. Qed.
Lemma yields_gets {A} (f : S -> A) (Q : A -> S -> Prop) s : Q (f s) s -> yields E (gets f) Q s.
Proof. done. Qed.
Lemma yields_modify f (Q : unit -> S -> Prop) s : Q tt (f s) -> yields E (modify f) Q s.
Proof. done. Qed.
Lemma yields_lift {A} (o : option A) (Q : A -> S -> Prop) s :
  (forall a, o = Some a -> Q a s) -> yields E (lift_opt o) Q s.
Proof. destruct o; simpl; [|done]. intros HQ. by apply HQ. Qed.
Lemma yields_any {A} (m : M S A) s : yields any_code m (fun _ _ => True) s.
Proof. unfold yields. by destruct (m s). Qed.
Lemma yields_for (body : Z -> M S unit) n i s (P : S -> Prop) :
  P s -> (forall j s, P s -> yields E (body j) (fun _ s' => P s') s) ->
  yields E (for_loop n i body) (fun _ s' => P s') s.
Proof.
  intros Hs Hb. revert i s Hs. induction n as [|n IH]; intros i s Hs; [by apply yields_ret|].
  apply yields_bind. eapply yields_conseq; [by apply Hb|]. intros [] s' Hs'. by apply IH.
Qed.
End rules.

Lemma yields_no_children p schema :
  sv_schema p.1 = Some schema ->
  yields failure (ArrowSchemaViewValidateNChildren 0) (fun _ p' => p' = p /\ sc_n_children schema = 0) p.
Proof.
  intros Hs. apply yields_bind, yields_bind, yields_gets, yields_lift. intros schema' Hs'.
  rewrite Hs in Hs'. injection Hs' as <-. destruct (Z.eqb_spec (sc_n_children schema) 0) as [Hn|]; [|done].
  simpl. rewrite Hn. by apply yields_ret.
Qed.

Lemma view_init_type (schema : ArrowSchema) (type : ArrowType) p :
  column_type schema = Some type ->
  yields failure (ArrowSchemaViewInit schema) (fun _ p => sv_type p.1 = type /\
    sv_storage_type p.1 = type /\ sv_layout p.1 = ArrowLayoutInit type /\ sc_n_children schema = 0) p.
Proof.
  destruct schema as [format name metadata flags n children dict release indet].
  unfold column_type. cbn [sc_dictionary sc_format]. destruct dict; [done|].
  destruct format as [format|]; [|done]. cbn [mbind option_bind]. unfold format_type.
  intros ([f t] & [Hin Heq]%List.find_some & [= Ht])%fmap_Some. simpl in Ht. subst t.
  apply String.eqb_eq in Heq. simpl in Heq. subst f.
  assert ((forall p, ArrowSchemaViewParse format p = Ret 1 (set_types type type p.1, p.2)) /\
          strlen format = 1 /\
          (forall m, ArrowSchemaViewValidate m type = ArrowSchemaViewValidateNChildren 0) /\
          type_eqb type type = true /\ type_eqb type TYPE_FIXED_SIZE_BINARY = false /\
          type <> TYPE_FIXED_SIZE_LIST) as (Hparse & Hlen & Hval & Heq & Hf & Hl).
  { simpl in Hin. by repeat match type of Hin with _ \/ _ => destruct Hin as [[= <- <-]|Hin] end. }
  cbn [ArrowSchemaViewInit sc_release sc_indeterminate sc_format sc_dictionary].
  destruct release; [|done]. cbn [negb]. apply yields_bind. destruct indet; [done|].
  apply yields_ret, yields_bind, yields_modify. rewrite Hlen. cbn [Z.eqb].
  apply yields_bind. unfold yields at 1. rewrite Hparse.
  change (negb (1 =? 1)) with false. cbn iota. apply yields_bind, yields_ret.
  apply yields_bind, yields_gets. cbn [sv_storage_type sv_type set_types sv_update fst]. rewrite Heq. cbn [negb when].
  apply yields_bind. rewrite Hval. eapply yields_conseq; [by apply yields_no_children|]. intros [] ? [-> Hn].
  apply yields_bind, yields_ret, yields_bind. rewrite Hf.
  apply yields_ret, yields_bind, yields_modify, yields_bind, yields_lift. intros x _.
  apply yields_bind, yields_lift. intros y _. apply yields_modify. simpl. split_and!; [done..| |done].
  destruct type; done.
Qed.

(** Running code on the children of a view, one after the other. *)
Lemma for_children_yields {A} E (f : A -> M VE unit) n (cs : list (option A)) i0 p :
  (forall a c e, Some a ∈ cs -> yields E (f a) (fun _ _ => True) (c, e)) ->
  yields E (for_view_children f n cs i0) (fun _ p' =>
    shape p'.1 = shape p.1 /\ av_array p'.1 = av_array p.1 /\
    av_buffer_views p'.1 = av_buffer_views p.1 /\ av_n_children p'.1 = av_n_children p.1 /\
    (forall i, i < i0 \/ n <= i -> view_child p'.1 i = view_child p.1 i) /\
    (forall i, i0 <= i < n -> exists c a c' e e', cs !! Z.to_nat (i - i0) = Some (Some a) /\
       view_child p.1 i = Some c /\ view_child p'.1 i = Some c' /\ f a (c, e) = Ret tt (c', e'))) p.
Proof.
  intros Hf. revert i0 p. induction cs as [|[a|] cs IH]; intros i0 p; simpl.
  - destruct (Z.leb_spec n i0); [|done]. apply yields_ret. split_and!; try done. lia.
  - destruct (Z.leb_spec n i0); [apply yields_ret; split_and!; try done; lia|].
    apply yields_bind. unfold yields at 1, on_view_child.
    destruct (av_children p.1) as [vs|] eqn:Hvs; [|done].
    destruct (if 0 <=? i0 then _ else _) as [c|] eqn:Hc; [|done].
    pose proof (Hf a c p.2 ltac:(left)) as Hfa. unfold yields in Hfa.
    destruct (f a (c, p.2)) as [[] [c' e']|? []| |] eqn:Hrun; try done. simpl.
    eapply yields_conseq; [apply IH; intros; apply Hf; by right|]. intros [] p' (? & ? & ? & ? & Hout & Hin). simpl in *.
    assert (0 <= i0) as Hi0 by (destruct (Z.leb_spec 0 i0); [done|discriminate]).
    rewrite (proj2 (Z.leb_le _ _) Hi0) in Hc.
    assert (view_child p.1 i0 = Some c) as Hc0.
    { unfold view_child. rewrite Hvs. simpl. by rewrite (proj2 (Z.leb_le _ _) Hi0). }
    assert (Z.to_nat i0 < length vs)%nat as Hlt.
    { apply lookup_lt_is_Some. destruct (vs !! Z.to_nat i0); [by eexists|done]. }
    assert (forall i, i <> i0 -> view_child (set_view_children (av_n_children p.1)
              (Some (<[Z.to_nat i0:=Some c']> vs)) p.1) i = view_child p.1 i) as Hne.
    { intros i Hi. unfold view_child. rewrite Hvs. simpl. destruct (Z.leb_spec 0 i); [|done].
      by rewrite list_lookup_insert_ne by lia. }
    split_and!; try done.
    + intros i Hi. rewrite Hout by lia. apply Hne. lia.
    + intros i Hi. destruct (decide (i = i0)) as [->|Hd].
      * exists c, a, c', p.2, e'. rewrite Z.sub_diag. split_and!; try done.
        rewrite Hout by lia. unfold view_child. simpl. rewrite (proj2 (Z.leb_le _ _) Hi0).
        by rewrite list_lookup_insert_eq.
      * destruct (Hin i ltac:(lia)) as (c1 & a1 & c1' & e1 & e1' & Ha & Hc1 & Hc1' & Hf1).
        exists c1, a1, c1', e1, e1'. rewrite Hne in Hc1 by done. split_and!; try done.
        replace (Z.to_nat (i - i0)) with (S (Z.to_nat (i - (i0 + 1)))) by lia. done.
  - destruct (Z.leb_spec n i0); [|done]. apply yields_ret; split_and!; try done; lia.
Qed.
Lemma all_children_yields {A} E (f : A -> M VE unit) n (cs : option (list (option A))) p :
  (forall l a c e, cs = Some l -> Some a ∈ l -> yields E (f a) (fun _ _ => True) (c, e)) ->
  yields E (all_children f n cs) (fun _ p' =>
    shape p'.1 = shape p.1 /\ av_array p'.1 = av_array p.1 /\
    av_buffer_views p'.1 = av_buffer_views p.1 /\ av_n_children p'.1 = av_n_children p.1 /\
    (forall i, 0 <= i < n -> exists c a c' e e', cs ≫= (fun cs => mjoin (cs !! Z.to_nat i)) = Some a /\
       view_child p.1 i = Some c /\ view_child p'.1 i = Some c' /\ f a (c, e) = Ret tt (c', e'))) p.
Proof.
  intros Hf. destruct cs as [cs|]; simpl.
  - eapply yields_conseq; [apply for_children_yields; intros; by eapply Hf|]. intros [] p' (? & ? & ? & ? & _ & Hin).
    split_and!; try done. intros i Hi. destruct (Hin i Hi) as (c & a & c' & e & e' & Ha & ?).
    exists c, a, c', e, e'. rewrite Z.sub_0_r in Ha. by rewrite Ha.
  - destruct (Z.leb_spec n 0); [|done]. apply yields_ret. split_and!; try done. lia.
Qed.
Lemma or_reset_yields m Q p : yields failure m Q p -> yields failure (or_reset m) Q p.
Proof.
  unfold yields, or_reset, mbind, M_bind, catch, failure. destruct (m p) as [[] ?|c ?| |]; [done| |done..].
  intros Hc. rewrite (proj2 (Z.eqb_neq _ _) Hc). done.
Qed.

(** ** The view for a schema *)
Lemma from_schema_eq schema :
  ArrowArrayViewInitFromSchema schema =
  (schema_view ← view_schema schema;
   on_av (fun _ => set_av_layout (sv_layout schema_view)
                     (ArrowArrayViewInitFromType (sv_storage_type schema_view))) ;;
   or_reset (ArrowArrayViewAllocateChildren (sc_n_children schema)) ;;
   or_reset (all_children ArrowArrayViewInitFromSchema (sc_n_children schema)
               (sc_children schema)) ;;
   match sv_storage_type schema_view with
   | TYPE_SPARSE_UNION | TYPE_DENSE_UNION =>
       if negb (malloc_ok 256) then exit ENOMEM else
       type_ids ← lift_opt (sv_union_type_ids schema_view);
       '(n_type_ids, ids) ← lift_opt (parse_type_ids_into type_ids 128);
       on_av (set_type_map (Some (union_map ids n_type_ids)))
   | _ => mret tt
   end).
Proof. by destruct schema. Qed.
Lemma allocate_children_yields n p :
  yields failure (ArrowArrayViewAllocateChildren n) (fun _ p' =>
    shape p'.1 = shape p.1 /\ av_n_children p'.1 = n) p.
Proof.
  apply yields_bind, yields_gets. destruct (bool_decide _); [done|]. destruct (negb _); [done|].
  apply yields_bind, yields_modify.
  apply (yields_for _ _ _ _ (fun p' => shape p'.1 = shape p.1 /\ av_n_children p'.1 = n)); [done|].
  intros j p' [Hp' _]. destruct (malloc_ok sizeof_view); [|done]. by by apply yields_modify.
Qed.
Lemma union_map_yields (schema_view : ArrowSchemaView) p :
  yields failure match sv_storage_type schema_view with
   | TYPE_SPARSE_UNION | TYPE_DENSE_UNION =>
       if negb (malloc_ok 256) then exit ENOMEM else
       type_ids ← lift_opt (sv_union_type_ids schema_view);
       '(n_type_ids, ids) ← lift_opt (parse_type_ids_into type_ids 128);
       on_av (set_type_map (Some (union_map ids n_type_ids)))
   | _ => mret tt
   end (fun _ p' => shape p'.1 = shape p.1 /\ av_n_children p'.1 = av_n_children p.1 /\
     forall i, child_shape p'.1 i = child_shape p.1 i) p.
Proof.
  destruct (sv_storage_type schema_view); try by apply yields_ret.
  all: destruct (negb _); [done|]; apply yields_bind, yields_lift; intros ? _;
    apply yields_bind, yields_lift; intros [] _; by apply yields_modify.
Qed.
Lemma column_view_init (schema : ArrowSchema) (type : ArrowType) p :
  column_type schema = Some type ->
  yields failure (ArrowArrayViewInitFromSchema schema)
    (fun _ p' => shape p'.1 = (type, ArrowLayoutInit type)) p.
Proof.
  intros Hc. rewrite from_schema_eq. apply yields_bind.
  pose proof (view_init_type schema type (fresh_view, p.2) Hc) as Hv. unfold yields in *. unfold view_schema.
  destruct (ArrowSchemaViewInit _ _) as [[] [v e]|? []| |]; try done. destruct Hv as (_ & Hst & Hl & Hn).
  simpl in Hst, Hl. subst type. rewrite Hl, Hn. apply yields_bind, yields_modify, yields_bind.
  eapply yields_conseq; [apply or_reset_yields, allocate_children_yields|]. intros [] p1 [H1 _]. simpl in H1.
  apply yields_bind. eapply (yields_conseq _ (fun _ p' => shape p'.1 = shape p1.1)).
  { apply or_reset_yields. destruct (sc_children schema) as [[|[]]|]; by apply yields_ret. }
  intros [] p2 H2. rewrite H1 in H2. eapply yields_conseq; [apply (union_map_yields v)|].
  intros [] p3 [H3 _]. by rewrite H3.
Qed.
(** A record batch's schema: the views of the columns. *)
Lemma batch_view_init (schema : ArrowSchema) (types : list ArrowType) p :
  column_types schema = Some types -> sc_n_children schema = zlen types ->
  yields any_code (ArrowArrayViewInitFromSchema schema) (fun _ p' =>
    av_n_children p'.1 = zlen types /\
    forall i t, types !! i = Some t -> child_shape p'.1 (Z.of_nat i) = Some (t, ArrowLayoutInit t)) p.
Proof.
  intros (cs & Hcs & Hm%mapM_Some)%bind_Some Hn. rewrite from_schema_eq. apply yields_bind.
  unfold yields at 1, view_schema. destruct (ArrowSchemaViewInit _ _) as [[] [v e]|? []| |]; try done.
  apply yields_bind, yields_modify, yields_bind.
  eapply yields_codes; [|done]. eapply yields_conseq; [apply or_reset_yields, allocate_children_yields|].
  intros [] p1 [_ Hn1]. apply yields_bind. eapply yields_codes; [|done].
  assert (forall c, Some c ∈ cs -> exists t, column_type c = Some t) as Hplain.
  { intros c [i Hi]%list_elem_of_lookup. destruct (Forall2_lookup_l _ _ _ _ _ Hm Hi) as (t & _ & Ht).
    by exists t. }
  eapply yields_conseq.
  { apply or_reset_yields, all_children_yields. intros l a c e' Hl Hin. rewrite Hcs in Hl. injection Hl as <-.
    destruct (Hplain a Hin) as [t Ht]. eapply yields_conseq; [by eapply column_view_init|done]. }
  intros [] p2 (_ & _ & _ & Hn2 & Hch). eapply yields_codes; [|done].
  eapply yields_conseq; [apply (union_map_yields v)|]. intros [] p3 (_ & Hn3 & Hshape).
  split; [congruence|]. intros i t Hi. rewrite Hshape.
  destruct (Hch (Z.of_nat i)) as (c & a & c' & e1 & e2 & Ha & _ & Hc' & Hrun).
  { apply lookup_lt_Some in Hi. unfold zlen in Hn. lia. }
  rewrite Hcs in Ha. simpl in Ha. rewrite Nat2Z.id in Ha.
  destruct (Forall2_lookup_r _ _ _ _ _ Hm Hi) as (a' & Ha' & Ht). rewrite Ha' in Ha. simpl in Ha. subst a'.
  unfold child_shape. rewrite Hc'. simpl. f_equal.
  exact (yields_run _ _ _ _ _ (column_view_init a t (c, e1) Ht) Hrun).
Qed.

(** ** The view of an array *)
Lemma set_length_eq v length :
  ArrowArrayViewSetLength v length =
  (s0 ← view_size (av_layout v) length 0;
   s1 ← view_size (av_layout v) length 1;
   s2 ← view_size (av_layout v) length 2;
   let v' := set_views [mkBV None s0; mkBV None s1; mkBV None s2] v in
   let children_from (cs : list (option ArrowArrayView)) (n length : Z) :=
     (fix go (cs : list (option ArrowArrayView)) (i : Z) {struct cs}
          : option (list (option ArrowArrayView)) :=
        if n <=? i then Some cs else
        match cs with
        | Some c :: cs' =>
            c' ← ArrowArrayViewSetLength c length; rest ← go cs' (i + 1); Some (Some c' :: rest)
        | _ => None
        end) cs 0 in
   match av_storage_type v, av_children v with
   | (TYPE_STRUCT | TYPE_SPARSE_UNION), Some cs =>
       cs' ← children_from cs (av_n_children v) length;
       Some (set_view_children (av_n_children v) (Some cs') v')
   | (TYPE_STRUCT | TYPE_SPARSE_UNION), None =>
       if av_n_children v <=? 0 then Some v' else None
   | TYPE_FIXED_SIZE_LIST, cs =>
       if av_n_children v >=? 1 then
         match cs with
         | Some cs =>
             n ← i64_opt (length * ly_child_size_elements (av_layout v));
             cs' ← children_from cs 1 n;
             Some (set_view_children (av_n_children v) (Some cs') v')
         | None => None
         end
       else Some v'
   | _, _ => Some v'
   end).
Proof. by destruct v. Qed.
(** What the sizes leave alone. *)
Definition same_view (v v' : ArrowArrayView) : Prop :=
  shape v' = shape v /\ av_array v' = av_array v /\ length (av_buffer_views v') = 3%nat /\
  av_n_children v' = av_n_children v.
Lemma set_length_same v n v' : ArrowArrayViewSetLength v n = Some v' -> same_view v v'.
Proof.
  rewrite set_length_eq. intros (s0 & _ & (s1 & _ & (s2 & _ & Hv)%bind_Some)%bind_Some)%bind_Some.
  revert Hv. destruct (av_storage_type v), (av_children v); cbv zeta;
    try (by intros [= <-]); try (by destruct (_ <=? _); try done; intros [= <-]);
    try (by intros (? & _ & [= <-])%bind_Some);
    destruct (_ >=? _); try (by intros [= <-]); try done;
    by intros (? & _ & (? & _ & [= <-])%bind_Some)%bind_Some.
Qed.
Lemma set_length_list n length cs : forall i cs',
  (fix go (cs : list (option ArrowArrayView)) (i : Z) {struct cs} : option (list (option ArrowArrayView)) :=
     if n <=? i then Some cs else
     match cs with
     | Some c :: cs' =>
         c' ← ArrowArrayViewSetLength c length; rest ← go cs' (i + 1); Some (Some c' :: rest)
     | _ => None
     end) cs i = Some cs' ->
  forall j, shape <$> mjoin (cs' !! j) = shape <$> mjoin (cs !! j).
Proof.
  induction cs as [|[c|] cs IH]; intros i cs'; simpl; destruct (n <=? i); try (by intros [= <-]); try done.
  intros (c' & Hc & (rest & Hr & [= <-])%bind_Some)%bind_Some [|j]; simpl; [|by eapply IH].
  by destruct (set_length_same _ _ _ Hc) as (-> & _).
Qed.
Lemma set_length_shape v n v' :
  ArrowArrayViewSetLength v n = Some v' -> forall i, child_shape v' i = child_shape v i.
Proof.
  rewrite set_length_eq. intros (s0 & _ & (s1 & _ & (s2 & _ & Hv)%bind_Some)%bind_Some)%bind_Some i.
  assert (forall cs cs' n0 len (w : ArrowArrayView), av_children v = Some cs ->
    (fix go (cs : list (option ArrowArrayView)) (i : Z) {struct cs} : option (list (option ArrowArrayView)) :=
     if n0 <=? i then Some cs else
     match cs with
     | Some c :: cs' =>
         c' ← ArrowArrayViewSetLength c len; rest ← go cs' (i + 1); Some (Some c' :: rest)
     | _ => None
     end) cs 0 = Some cs' ->
    child_shape (set_view_children (av_n_children v) (Some cs') w) i = child_shape v i) as Hch.
  { intros cs cs' n0 len w Hcs Hgo. unfold child_shape, view_child. rewrite Hcs. simpl.
    destruct (0 <=? i); [|done]. by eapply set_length_list. }
  revert Hv. destruct (av_storage_type v), (av_children v) as [cs|]; cbv zeta;
    try (by intros [= <-]); try (by destruct (_ <=? _); try done; intros [= <-]);
    try (intros (? & Hgo & [= <-])%bind_Some; by eapply Hch);
    destruct (_ >=? _); try (by intros [= <-]); try done;
    intros (? & _ & (? & Hgo & [= <-])%bind_Some)%bind_Some; by eapply Hch.
Qed.
(** Setting an array: what its type asks for is only checked. *)
Definition type_checks (array : ArrowArray) (end_ : Z) (v : ArrowArrayView) : M VE unit :=
  match av_storage_type v with
  | TYPE_STRING | TYPE_BINARY =>
      last ← lift_opt (last_offset v 4 end_);
      match last with Some n => on_av (set_data_size n) | None => mret tt end
  | TYPE_LARGE_STRING | TYPE_LARGE_BINARY =>
      last ← lift_opt (last_offset v 8 end_);
      match last with Some n => on_av (set_data_size n) | None => mret tt end
  | TYPE_STRUCT =>
      for_range 0 (av_n_children v) (fun i =>
        n ← lift_opt (child_length array i);
        if n <? end_
        then view_invalid ("Expected struct child %d to have length >= %ld but found " +:+
                           "child with length %ld") [AInt (i + 1); AInt end_; AInt n]
        else mret tt)
  | TYPE_LIST => check_list_child array 4 "list"
  | TYPE_MAP => check_list_child array 4 "map"
  | TYPE_LARGE_LIST => check_list_child array 8 "large list"
  | TYPE_FIXED_SIZE_LIST =>
      if negb (ar_n_children array =? 1)
      then view_invalid "Expected 1 child of fixed-size array but found %d child arrays"
             [AInt (ar_n_children array)] else
      last ← i64 (end_ * ly_child_size_elements (av_layout v));
      n ← lift_opt (child_length array 0);
      if n <? last
      then view_invalid ("Expected child of fixed-size list array with length >= %ld but " +:+
                         "found array with length %ld") [AInt last; AInt n]
      else mret tt
  | _ => mret tt
  end.
Lemma set_array_eq array :
  ArrowArrayViewSetArray array =
  ((if ar_indeterminate array then undef else mret tt) ;;
   end_ ← i64 (ar_offset array + ar_length array);
   on_av (set_av_array (Some array)) ;;
   set_view_length end_ ;;
   v ← gets fst;
   let buffers_required := count_buffers (av_layout v) in
   v ← lift_opt (set_buffer_views array v (Z.to_nat buffers_required) 0);
   on_av (fun _ => v) ;;
   if negb (buffers_required =? ar_n_buffers array)
   then view_invalid "Expected array with %d buffer(s) but found %d buffer(s)"
          [AInt buffers_required; AInt (ar_n_buffers array)] else
   if negb (av_n_children v =? ar_n_children array) then exit EINVAL else
   type_checks array end_ v ;;
   all_children ArrowArrayViewSetArray (av_n_children v) (ar_children array)).
Proof. by destruct array. Qed.

(** Nothing but the sizes of the buffers has changed. *)
Definition same_data (v v' : ArrowArrayView) : Prop :=
  shape v' = shape v /\ av_array v' = av_array v /\ av_n_children v' = av_n_children v /\
  (forall i, child_shape v' i = child_shape v i) /\
  (forall i, bv_data (buffer_view v' i) = bv_data (buffer_view v i)).
Lemma same_data_refl v : same_data v v.
Proof. by split_and!. Qed.
Lemma set_data_size_same n v : same_data v (set_data_size n v).
Proof.
  split_and!; try done. intros i. unfold buffer_view, set_data_size, set_views. simpl.
  destruct (decide (Z.to_nat i = 2%nat)) as [E|E]; [|by rewrite list_lookup_insert_ne].
  rewrite E. destruct (decide (2 < length (av_buffer_views v))%nat).
  - by rewrite list_lookup_insert_eq.
  - by rewrite list_insert_ge by lia.
Qed.
Lemma check_list_same array bytes name v e :
  yields any_code (check_list_child array bytes name) (fun _ p' => same_data v p'.1) (v, e).
Proof.
  unfold check_list_child. destruct (negb _); [done|]. apply yields_bind, yields_gets, yields_bind, yields_lift.
  intros [last|] _; [|apply yields_ret, same_data_refl]. apply yields_bind, yields_lift. intros n _.
  destruct (_ <? _); [done|]. apply yields_ret, same_data_refl.
Qed.
Lemma type_checks_same array end_ v e :
  yields any_code (type_checks array end_ v) (fun _ p' => same_data v p'.1) (v, e).
Proof.
  unfold type_checks. destruct (av_storage_type v); lazymatch goal with
    | |- yields _ (check_list_child _ _ _) _ _ => apply check_list_same
    | |- yields _ (mret _) _ _ => apply yields_ret, same_data_refl
    | |- yields _ (lift_opt _ ≫= _) _ _ => apply yields_bind, yields_lift; intros [last|] _;
        [apply yields_modify, set_data_size_same|apply yields_ret, same_data_refl]
    | _ => idtac
    end.
  - apply (yields_for _ _ _ _ (fun p' => same_data v p'.1)); [apply same_data_refl|]. intros j p' Hp'.
    apply yields_bind, yields_lift. intros n _. by destruct (_ <? _).
  - destruct (negb _); [done|]. apply yields_bind. unfold i64. destruct (in_i64 _); [|done].
    apply yields_ret, yields_bind, yields_lift. intros n _. destruct (_ <? _); [done|].
    apply yields_ret, same_data_refl.
Qed.
Lemma set_buffer_views_spec array n : forall v i v',
  0 <= i -> length (av_buffer_views v) = 3%nat -> set_buffer_views array v n i = Some v' ->
  shape v' = shape v /\ av_array v' = av_array v /\ av_n_children v' = av_n_children v /\
  (forall i, child_shape v' i = child_shape v i) /\
  (forall j, (j < 3)%nat ->
     if bool_decide (Z.to_nat i <= j < Z.to_nat i + n)%nat
     then ar_buffers array !! j = Some (bv_data (buffer_view v' (Z.of_nat j)))
     else buffer_view v' (Z.of_nat j) = buffer_view v (Z.of_nat j)).
Proof.
  induction n as [|n IH]; intros v i v' Hi Hlen; simpl.
  { intros [= <-]. split_and!; try done. intros j _. by rewrite bool_decide_eq_false_2 by lia. }
  intros (v1 & Hv1 & Hv')%bind_Some. unfold set_buffer_data in Hv1.
  apply bind_Some in Hv1 as (data & Hd & [= <-]).
  apply IH in Hv'; [|lia|simpl; by rewrite length_insert]. destruct Hv' as (? & ? & ? & ? & Hb).
  split_and!; try done. intros j Hj. specialize (Hb j Hj). unfold buffer_view in Hb at 3. simpl in Hb.
  rewrite Nat2Z.id in Hb.
  destruct (decide (j = Z.to_nat i)) as [->|Hne].
  - rewrite bool_decide_eq_true_2 by lia. rewrite bool_decide_eq_false_2 in Hb by lia.
    rewrite list_lookup_insert_eq in Hb by lia. simpl in Hb. by rewrite Hb.
  - rewrite list_lookup_insert_ne in Hb by lia.
    destruct (decide (Z.to_nat i <= j < Z.to_nat i + S n)%nat).
    + rewrite bool_decide_eq_true_2 by lia. by rewrite bool_decide_eq_true_2 in Hb by lia.
    + rewrite bool_decide_eq_false_2 by lia. rewrite bool_decide_eq_false_2 in Hb by lia.
      unfold buffer_view at 2. by rewrite Nat2Z.id.
Qed.

(** A view set to an array reads its blocks, and its children are set to the array's. *)
Lemma set_array_yields array v e :
  yields any_code (ArrowArrayViewSetArray array) (fun _ p' =>
    shape p'.1 = shape v /\ av_array p'.1 = Some array /\ av_n_children p'.1 = av_n_children v /\
    (forall j, (j < 3)%nat -> Z.of_nat j < count_buffers (av_layout v) ->
       ar_buffers array !! j = Some (bv_data (buffer_view p'.1 (Z.of_nat j)))) /\
    (forall i, 0 <= i < av_n_children v -> exists c a c' e e',
       get_child array i = Some a /\ Some (shape c) = child_shape v i /\
       view_child p'.1 i = Some c' /\ ArrowArrayViewSetArray a (c, e) = Ret tt (c', e'))) (v, e).
Proof.
  rewrite set_array_eq. apply yields_bind. destruct (ar_indeterminate array); [done|].
  apply yields_ret, yields_bind. unfold i64. destruct (in_i64 _); [|done].
  apply yields_ret, yields_bind. unfold on_av at 1. apply yields_modify, yields_bind.
  unfold set_view_length. apply yields_bind, yields_gets, yields_bind, yields_lift. cbn [fst snd].
  intros v1 Hv1. unfold on_av at 1. apply yields_modify, yields_bind, yields_gets. cbv zeta. cbn [fst snd].
  pose proof (set_length_shape _ _ _ Hv1) as Hc1. destruct (set_length_same _ _ _ Hv1) as (Hs1 & Ha1 & Hl1 & Hn1).
  change (shape v1 = shape v) in Hs1. change (av_array v1 = Some array) in Ha1.
  change (av_n_children v1 = av_n_children v) in Hn1.
  change (forall i, child_shape v1 i = child_shape v i) in Hc1.
  apply yields_bind, yields_lift. intros v2 Hv2. apply yields_bind, yields_modify. cbn [fst snd].
  destruct (set_buffer_views_spec _ _ _ _ _ ltac:(done) Hl1 Hv2) as (Hs2 & Ha2 & Hn2 & Hc2 & Hb2).
  destruct (negb _); [done|]. destruct (negb _); [done|]. apply yields_bind.
  eapply yields_conseq; [apply type_checks_same|]. intros [] [v3 e3] (Hs3 & Ha3 & Hn3 & Hc3 & Hb3). cbn [fst] in *.
  eapply yields_conseq; [apply all_children_yields; intros; apply yields_any|]. intros [] [v4 e4] (Hs4 & Ha4 & Hb4 & Hn4 & Hc4).
  cbn [fst] in *. split_and!.
  - congruence.
  - congruence.
  - congruence.
  - intros j Hj Hcount. pose proof (Hb2 j Hj) as Hb. rewrite bool_decide_eq_true_2 in Hb.
    2:{ replace (av_layout v1) with (av_layout v) by (unfold shape in Hs1; by injection Hs1). lia. }
    rewrite Hb. f_equal. unfold buffer_view. rewrite Hb4. symmetry. apply Hb3.
  - intros i Hi.
    destruct (Hc4 i ltac:(rewrite Hn2, Hn1; exact Hi)) as (c & a & c' & e1 & e2 & Ha & Hc & Hc' & Hrun).
    exists c, a, c', e1, e2. split_and!; try done.
    + unfold get_child. destruct (ar_children array) as [cs|]; [|done]. simpl in *.
      by rewrite (proj2 (Z.leb_le _ _)) by lia.
    + transitivity (child_shape v3 i); [unfold child_shape; by rewrite Hc|]. by rewrite Hc3, Hc2, Hc1.
Qed.

(** ** A column's view

    The view of a column reads the blocks of its array. *)
Record reads (c : ArrowArrayView) (a : ArrowArray) (type : ArrowType) : Prop := {
  rd_view_array : av_array c = Some a;
  rd_type : av_storage_type c = type;
  rd_blocks : forall j, (j < 3)%nat -> Z.of_nat j < count_buffers (ArrowLayoutInit type) ->
    ar_buffers a !! j = Some (bv_data (buffer_view c (Z.of_nat j)));
}.
Lemma batch_reads (schema : ArrowSchema) (types : list ArrowType) (batch : ArrowArray) p v0 e1 e v e' :
  column_types schema = Some types -> sc_n_children schema = zlen types ->
  ArrowArrayViewInitFromSchema schema p = Ret tt (v0, e1) ->
  ArrowArrayViewSetArray batch (v0, e) = Ret tt (v, e') ->
  av_n_children v = zlen types /\
  forall i t, types !! i = Some t -> exists c a,
    view_child v (Z.of_nat i) = Some c /\ get_child batch (Z.of_nat i) = Some a /\ reads c a t.
Proof.
  intros Ht Hn Hinit Hset.
  destruct (yields_run _ _ _ _ _ (batch_view_init schema types p Ht Hn) Hinit) as [Hn0 Hshape].
  destruct (yields_run _ _ _ _ _ (set_array_yields batch v0 e) Hset) as (_ & _ & Hnv & _ & Hch).
  simpl in Hnv, Hn0. split; [congruence|]. intros i t Hi.
  pose proof (lookup_lt_Some _ _ _ Hi).
  destruct (Hch (Z.of_nat i)) as (c & a & c' & e2 & e3 & Ha & Hc & Hc' & Hrun);
    [simpl in Hn0; unfold zlen in Hn0; lia|].
  exists c', a. split_and!; [done..|]. simpl in Hshape. rewrite (Hshape i t Hi) in Hc. injection Hc as Hty Hlay.
  destruct (yields_run _ _ _ _ _ (set_array_yields a c e2) Hrun) as (Hs & Harr & _ & Hb & _).
  simpl in *. rewrite Hlay in Hb. unfold shape in Hs. injection Hs as Hs _. by split; [|congruence|].
Qed.

Lemma bitmap_bit_get l i b : bitmap_bit l i = Some b -> ArrowBitGet l i = Some (Z.b2z b).
Proof.
  unfold bitmap_bit. destruct (Z.leb_spec 0 i), (Z.ltb_spec i (8 * zlen l)); simpl; try done.
  intros (byte & Hb & [= <-])%bind_Some. rewrite bit_get_spec by done. unfold bit_of. by rewrite Hb.
Qed.
(** The types of the format above. *)
Definition plain_type (type : ArrowType) : Prop := type ∈ map snd format_types.
Lemma plain_types schema types i t : column_types schema = Some types -> types !! i = Some t -> plain_type t.
Proof.
  intros (cs & _ & Hm%mapM_Some)%bind_Some Hi. destruct (Forall2_lookup_r _ _ _ _ _ Hm Hi) as (c & _ & Hc).
  apply bind_Some in Hc as (s & _ & Hc). unfold column_type in Hc. destruct (sc_dictionary s); [done|].
  apply bind_Some in Hc as (f & _ & Hc). apply fmap_Some in Hc as ([f' t'] & [Hin _]%List.find_some & ->).
  apply list_elem_of_In, in_map_iff. by exists (f', t').
Qed.
Ltac plain_cases Ht := unfold plain_type in Ht; simpl in Ht; repeat (apply elem_of_cons in Ht as [->|Ht]); [..|by apply elem_of_nil in Ht].

Section column.
Context (c : ArrowArrayView) (a : ArrowArray) (type : ArrowType) (row : Z).
Context (Hreads : reads c a type) (Hplain : plain_type type).
Let k := ar_offset a + row.

Lemma reads_index : view_index c row = Some k.
Proof. unfold view_index. rewrite (rd_view_array _ _ _ Hreads). simpl. f_equal. unfold k. lia. Qed.
Lemma reads_block j : (j < 3)%nat -> Z.of_nat j < count_buffers (ArrowLayoutInit type) ->
  block_of a j = bv_data (buffer_view c (Z.of_nat j)).
Proof. intros Hj Hc. unfold block_of. by rewrite (rd_blocks _ _ _ Hreads j Hj Hc). Qed.
Lemma reads_null valid : slot_valid a k = Some valid -> ArrowArrayViewIsNull c row = Some (negb valid).
Proof.
  intros (validity & Hv & Hbit)%bind_Some. unfold ArrowArrayViewIsNull. rewrite reads_index. simpl.
  rewrite (rd_type _ _ _ Hreads).
  rewrite (rd_blocks _ _ _ Hreads 0 ltac:(lia)) in Hv by (plain_cases Hplain; done).
  change (Z.of_nat 0) with 0 in Hv. injection Hv as ->.
  assert ((match validity with None => Some false | Some l => b ← ArrowBitGet l k; Some (b =? 0) end) = Some (negb valid)) as He.
  { destruct validity as [l|]; [|by injection Hbit as <-]. rewrite (bitmap_bit_get _ _ _ Hbit). by destruct valid. }
  clear Hreads. plain_cases Hplain; exact He.
Qed.
Lemma reads_element j width : (j < 3)%nat -> Z.of_nat j < count_buffers (ArrowLayoutInit type) ->
  forall l i bs, block_of a j = Some l -> element width l i = Some bs ->
  elem_bytes c (Z.of_nat j) width i = Some bs.
Proof. intros Hj Hc l i bs Hl Hb. unfold elem_bytes. by rewrite <- (reads_block j), Hl. Qed.
(** An integer, according to the sign of the type. *)
Lemma reads_int z signed width :
  integer_layout type = Some (signed, width) -> slot_value type a k = Some (ScInt z) ->
  if signed : bool then ArrowArrayViewGetIntUnsafe c row = Some z else ArrowArrayViewGetUIntUnsafe c row = Some z.
Proof.
  intros Hl (data & Hd & Hv)%bind_Some. rewrite Hl in Hv. apply bind_Some in Hv as (bs & Hb & [= <-]).
  assert (elem_bytes c 1 width k = Some bs) as He.
  { apply (reads_element 1) with data; [lia| |done..]. clear Hreads. by plain_cases Hplain. }
  unfold ArrowArrayViewGetIntUnsafe, ArrowArrayViewGetUIntUnsafe. rewrite reads_index, (rd_type _ _ _ Hreads).
  unfold as_int, as_uint. clear Hreads. plain_cases Hplain; simpl in Hl; try done; injection Hl as <- <-; simpl in *; by rewrite He.
Qed.
Lemma reads_double bits :
  slot_value type a k = Some (ScDouble bits) -> ArrowArrayViewGetDoubleUnsafe c row = Some bits.
Proof.
  intros (data & Hd & Hv)%bind_Some.
  assert (forall width bs, element width data k = Some bs -> elem_bytes c 1 width k = Some bs) as He.
  { intros width bs. apply (reads_element 1); [lia| |done]. clear Hreads. by plain_cases Hplain. }
  unfold ArrowArrayViewGetDoubleUnsafe. rewrite reads_index, (rd_type _ _ _ Hreads).
  unfold as_int, as_uint. clear Hreads. plain_cases Hplain; simpl in Hv.
  all: try (by apply bind_Some in Hv as (? & _ & ?)); try (by apply bind_Some in Hv as (? & _ & (? & _ & (? & _ & ?)%fmap_Some)%bind_Some)).
  all: apply bind_Some in Hv as (bs & Hb & [= <-]); simpl; by rewrite (He _ _ Hb).
Qed.
Lemma reads_text bytes :
  slot_value type a k = Some (ScText bytes) -> ArrowArrayViewGetBytesUnsafe c row = Some bytes.
Proof.
  intros (data & Hd & Hv)%bind_Some.
  assert (forall width i bs, element width data i = Some bs -> elem_bytes c 1 width i = Some bs) as He.
  { intros width i bs. apply (reads_element 1); [lia| |done]. clear Hreads. by plain_cases Hplain. }
  assert (forall width, offset_width type = Some width -> block_of a 2 = bv_data (buffer_view c 2)) as H2.
  { intros width Hw. apply (reads_block 2); [lia|]. clear Hreads. revert Hw. by plain_cases Hplain. }
  unfold ArrowArrayViewGetBytesUnsafe. rewrite reads_index, (rd_type _ _ _ Hreads).
  unfold as_int, bytes_between. clear Hreads. plain_cases Hplain; simpl in Hv.
  all: try (by apply bind_Some in Hv as (? & _ & ?)).
  all: apply bind_Some in Hv as (b1 & Hb1 & (b2 & Hb2 & (bs & Hbs & [= <-])%fmap_Some)%bind_Some); simpl;
    rewrite (He _ _ _ Hb1), (He _ _ _ Hb2); simpl; rewrite (H2 _ eq_refl) in Hbs; exact Hbs.
Qed.
End column.
End views.
