(* ===== verification/Reserve.v ===== *)
(** The rest of nanoarrow's array building (c/vendor/nanoarrow/nanoarrow.c, nanoarrow.h):
    dictionaries, room for elements to come, giving back what is not needed.  The theorems: what
    reserving promises for the appends that follow, and what shrinking does to an array without
    nulls. *)
From stdpp Require Import base tactics list numbers option strings.
From Stdlib Require Import ZArith Lia.
From S2P Require Import Prelude CLib Buffer Schema SchemaView Array ArrayView.

(** * The code *)
Section reserve.
Context `{Libc}.

Definition ArrowArrayAllocateDictionary : M ArrowArray unit :=
  array ← gets id;
  if bool_decide (is_Some (ar_dictionary array)) then exit EINVAL else
  if negb (malloc_ok sizeof_ArrowArray) then exit ENOMEM else
  modify (set_array_dictionary (Some indet_array)).

(** One buffer of the loop. *)
Definition reserve_buffer (array_view : ArrowArrayView) (i : Z) : M ArrowArray unit :=
  private_data ← private;
  let buffer := view (buffer_lens i) private_data in
  if bool_decide (ly_buffer_type (av_layout array_view) !! Z.to_nat i = Some BUFFER_VALIDITY) &&
     bool_decide (buf_data buffer = None)
  then mret tt else
  additional_size_bytes ← i64 (bv_size_bytes (buffer_view array_view i) - buf_size_bytes buffer);
  when (0 <? additional_size_bytes) (ArrowArrayBuffer i (ArrowBufferReserve additional_size_bytes)).
Fixpoint ArrowArrayReserveInternal (array : ArrowArray) (array_view : ArrowArrayView)
    {struct array} : result ArrowArray unit :=
  (for_range 0 (ar_n_buffers array) (reserve_buffer array_view) ;;
   match ar_children array with
   | Some cs =>
       for_children (fun i child =>
           match view_child array_view i with
           | Some child_view => ArrowArrayReserveInternal child child_view
           | None => Undef
           end) (ar_n_children array) cs 0
   | None => if ar_n_children array <=? 0 then mret tt else undef
   end) array.
(** The view is a local variable. *)
Definition ArrowArrayReserve (additional_size_elements : Z) : M ArrowArray unit :=
  array ← gets id;
  array_view ← (fun a : ArrowArray =>
    match ArrowArrayViewInitFromArray array (ArrowArrayViewReset, None) with
    | Ret _ (v, _) => Ret v a
    | Exit c _ => Exit c a
    | Undef => Undef
    | NoFuel => NoFuel
    end : result ArrowArray ArrowArrayView);
  length ← i64 (ar_length array + additional_size_elements);
  array_view ← lift_opt (ArrowArrayViewSetLength array_view length);
  ((fun a => ArrowArrayReserveInternal a array_view) : M ArrowArray unit).

Fixpoint ArrowArrayShrinkToFit (array : ArrowArray) : result ArrowArray unit :=
  (for_range 0 3 (fun i =>
     ArrowArrayBuffer i (b ← gets id; ArrowBufferResize (buf_size_bytes b) true)) ;;
   match ar_children array with
   | Some cs => for_children (fun _ => ArrowArrayShrinkToFit) (ar_n_children array) cs 0
   | None => if ar_n_children array <=? 0 then mret tt else undef
   end) array.
End reserve.

(** * Arrays of 64-bit integers without nulls *)
Definition int_array (length : Z) (buffers : list (option (list Z))) (bitmap : ArrowBitmap)
    (data rest : ArrowBuffer) : ArrowArray :=
  mkArray length 0 0 2 0 buffers None None true
    (Some (mkPrivate bitmap (data, rest) TYPE_INT64 (ArrowLayoutInit TYPE_INT64) true)) false.
Definition int_bytes (values : list Z) : list Z := concat (map (le_bytes 8) values).
(** Under construction, with room for [room] bytes of values. *)
Definition int_leaf (a : ArrowArray) (values : list Z) (room : Z) : Prop := exists buffers data,
  a = int_array (zlen values) buffers ArrowBitmapInit data ArrowBufferInit /\
  buffer_ok data /\ buf_content data = int_bytes values /\ room <= buf_capacity_bytes data.
Fixpoint append_ints `{Libc} (values : list Z) : M ArrowArray unit :=
  match values with
  | [] => mret tt
  | v :: vs => ArrowArrayAppendInt v ;; append_ints vs
  end.

Lemma int_bytes_snoc vs v : int_bytes (vs ++ [v]) = int_bytes vs ++ le_bytes 8 v.
Proof. unfold int_bytes. rewrite map_app, concat_app. simpl. done. Qed.
Lemma zlen_int_bytes vs : zlen (int_bytes vs) = 8 * zlen vs.
Proof.
  induction vs as [|v vs IH]; [done|]. change (int_bytes (v :: vs)) with (le_bytes 8 v ++ int_bytes vs).
  rewrite zlen_app, IH, zlen_le_bytes. unfold zlen. simpl. lia.
Qed.
Lemma int_size vs data : buffer_ok data -> buf_content data = int_bytes vs -> buf_size_bytes data = 8 * zlen vs.
Proof. intros Hok Hc. by rewrite <- (zlen_buf_content data Hok), Hc, zlen_int_bytes. Qed.

Section leaf.
Context {A : Type}.
Implicit Types (m : M ArrowBuffer A) (Q : A -> ArrowArray -> Prop) (E : Z -> ArrowArray -> Prop).
Lemma wp_buffer_0 m Q E n bs bm b1 b2 :
  wp m (fun x b => Q x (int_array n bs (mkBitmap b (bm_size_bits bm)) b1 b2))
    (fun c b => E c (int_array n bs (mkBitmap b (bm_size_bits bm)) b1 b2)) (bm_buffer bm) ->
  wp (ArrowArrayBuffer 0 m) Q E (int_array n bs bm b1 b2).
Proof. unfold wp, ArrowArrayBuffer, on_private, private, mbind, M_bind, zoom. simpl. by destruct (m (bm_buffer bm)). Qed.
Lemma wp_buffer_1 m Q E n bs bm b1 b2 :
  wp m (fun x b => Q x (int_array n bs bm b b2)) (fun c b => E c (int_array n bs bm b b2)) b1 ->
  wp (ArrowArrayBuffer 1 m) Q E (int_array n bs bm b1 b2).
Proof. unfold wp, ArrowArrayBuffer, on_private, private, mbind, M_bind, zoom. simpl. by destruct (m b1). Qed.
Lemma wp_buffer_2 m Q E n bs bm b1 b2 :
  wp m (fun x b => Q x (int_array n bs bm b1 b)) (fun c b => E c (int_array n bs bm b1 b)) b2 ->
  wp (ArrowArrayBuffer 2 m) Q E (int_array n bs bm b1 b2).
Proof. unfold wp, ArrowArrayBuffer, on_private, private, mbind, M_bind, zoom. simpl. by destruct (m b2). Qed.
End leaf.
Lemma wp_private {B} (k : ArrowArrayPrivateData -> M ArrowArray B) Q E n bs bm b1 b2 :
  wp (k (mkPrivate bm (b1, b2) TYPE_INT64 (ArrowLayoutInit TYPE_INT64) true)) Q E (int_array n bs bm b1 b2) ->
  wp (private ≫= k) Q E (int_array n bs bm b1 b2).
Proof. done. Qed.

(** An append that finds room asks for no memory. *)
Lemma append_room `{Libc} data bs E : buffer_ok data -> Forall is_byte bs ->
  buf_size_bytes data + zlen bs <= buf_capacity_bytes data ->
  wp (ArrowBufferAppend bs) (fun _ b => buffer_ok b /\ buf_content b = buf_content data ++ bs /\
    buf_capacity_bytes b = buf_capacity_bytes data) E data.
Proof.
  intros Hok Hb Hr. pose proof Hok as [_ Hs _ Hc _]. pose proof (zlen_nonneg bs).
  unfold ArrowBufferAppend. apply wp_bind. unfold ArrowBufferReserve. apply wp_bind, wp_gets. cbn [id].
  apply wp_bind, wp_i64; [unfold INT64_MIN, INT64_MAX; lia|]. rewrite (proj2 (Z.leb_le _ _)) by lia.
  apply wp_ret. by apply append_unsafe_spec.
Qed.
Lemma append_int_room `{Libc} a vs v room : int_leaf a vs room -> 8 * (zlen vs + 1) <= room ->
  wp (ArrowArrayAppendInt v) (fun _ a' => int_leaf a' (vs ++ [v]) room) (fun _ _ => False) a.
Proof.
  intros (bs & data & Ha & Hok & Hc & Hr) Hroom. pose proof (int_size _ _ Hok Hc) as Hs. subst a.
  pose proof (bok_bound _ Hok). pose proof (zlen_nonneg vs).
  unfold ArrowArrayAppendInt. apply wp_private. cbn [pd_storage_type]. unfold append_int. apply wp_private.
  cbn [pd_storage_type]. apply wp_bind, wp_buffer_1.
  eapply wp_conseq; [apply (append_room data (le_bytes 8 v) (fun _ _ => False)); [done|apply le_bytes_byte|rewrite zlen_le_bytes; lia]| |done].
  intros [] b (Hok' & Hc' & Hcap). unfold finish_append. apply wp_private. apply wp_bind, wp_ret.
  unfold add_length. apply wp_bind, wp_gets. cbn [id int_array ar_length].
  apply wp_bind, wp_i64; [unfold INT64_MIN, INT64_MAX; lia|]. apply wp_modify.
  exists bs, b. split_and!; [|done|by rewrite Hc', Hc, int_bytes_snoc|lia].
  unfold int_array, set_length. cbn. by rewrite zlen_app.
Qed.
Lemma append_ints_room `{Libc} xs : forall a vs room, int_leaf a vs room -> 8 * (zlen vs + zlen xs) <= room ->
  wp (append_ints xs) (fun _ a' => int_leaf a' (vs ++ xs) room) (fun _ _ => False) a.
Proof.
  induction xs as [|x xs IH]; intros a vs room Hl Hr; cbn [append_ints].
  - apply wp_ret. by rewrite app_nil_r.
  - assert (zlen (x :: xs) = zlen xs + 1) as Hz by (unfold zlen; simpl; lia). pose proof (zlen_nonneg xs).
    apply wp_bind. eapply wp_conseq; [apply (append_int_room a vs x room Hl); lia| |done].
    intros [] a' Hl'. rewrite (cons_middle x), app_assoc. apply IH; [done|]. rewrite zlen_app. unfold zlen in *. simpl. lia.
Qed.

(** ** The view *)
Definition int_view (a : ArrowArray) (sizes : list Z) : ArrowArrayView :=
  mkAV (Some a) TYPE_INT64 (ArrowLayoutInit TYPE_INT64) (map (mkBV None) sizes) 0 (Some []) None.
Lemma init_view `{Libc} n bs data (a := int_array n bs ArrowBitmapInit data ArrowBufferInit) :
  ArrowArrayViewInitFromArray a (ArrowArrayViewReset, None) =
    if malloc_ok 0 then Ret tt (int_view a [0; 0; 0], None) else Exit ENOMEM (ArrowArrayViewReset, None).
Proof. unfold a. cbv -[malloc_ok]. by destruct (malloc_ok 0). Qed.
Lemma round_up_bytes n : 0 <= n -> _ArrowRoundUpToMultipleOf8 (64 * n) ÷ 8 = 8 * n.
Proof.
  intros Hn. unfold _ArrowRoundUpToMultipleOf8. change 7 with (Z.ones 3). rewrite <- Z.ldiff_land, Z.ldiff_ones_r by lia.
  rewrite Z.shiftr_div_pow2, Z.shiftl_mul_pow2 by lia. change (Z.ones 3) with 7. change (2 ^ 3) with 8.
  replace ((64 * n + 7) / 8) with (8 * n) by (Z.to_euclidean_division_equations; lia).
  Z.to_euclidean_division_equations; lia.
Qed.
Lemma view_length a n : 0 <= n <= 2 ^ 50 ->
  ArrowArrayViewSetLength (int_view a [0; 0; 0]) n = Some (int_view a [_ArrowBytesForBits n; 8 * n; 0]).
Proof.
  intros Hn. assert (view_size (ArrowLayoutInit TYPE_INT64) n 1 = Some (8 * n)) as H1.
  { unfold view_size. change (element_bits _ 1) with 64. simpl. unfold i64_opt.
    rewrite !(in_i64_intro) by (unfold INT64_MIN, INT64_MAX; lia). cbn [mbind option_bind].
    rewrite in_i64_intro by (unfold INT64_MIN, INT64_MAX; lia). cbn [mbind option_bind]. by rewrite round_up_bytes by lia. }
  change (ArrowArrayViewSetLength (int_view a [0; 0; 0]) n) with (
    s0 ← view_size (ArrowLayoutInit TYPE_INT64) n 0; s1 ← view_size (ArrowLayoutInit TYPE_INT64) n 1;
    s2 ← view_size (ArrowLayoutInit TYPE_INT64) n 2; Some (int_view a [s0; s1; s2])).
  by rewrite H1.
Qed.
(** The loop over the buffers. *)
Lemma reserve_leaf `{Libc} `{!LibcBound} n bs data a0 size0 size : buffer_ok data -> 0 <= size <= 2 ^ 60 ->
  wp (fun a => ArrowArrayReserveInternal a (int_view a0 [size0; size; 0]))
    (fun _ a' => exists data', a' = int_array n bs ArrowBitmapInit data' ArrowBufferInit /\ buffer_ok data' /\
       buf_content data' = buf_content data /\ size <= buf_capacity_bytes data')
    (fun c _ => c = ENOMEM) (int_array n bs ArrowBitmapInit data ArrowBufferInit).
Proof.
  intros Hok Hz. pose proof Hok as [_ Hs _ Hc _].
  assert (wp (for_range 0 2 (reserve_buffer (int_view a0 [size0; size; 0])))
    (fun _ a' => exists data', a' = int_array n bs ArrowBitmapInit data' ArrowBufferInit /\ buffer_ok data' /\
       buf_content data' = buf_content data /\ size <= buf_capacity_bytes data')
    (fun c _ => c = ENOMEM) (int_array n bs ArrowBitmapInit data ArrowBufferInit)) as Hloop.
  { unfold for_range. change (Z.to_nat (2 - 0)) with 2%nat. cbn [for_loop]. apply wp_bind.
    unfold reserve_buffer at 1. apply wp_private. apply wp_ret. apply wp_bind. unfold reserve_buffer. apply wp_private.
    change (view (buffer_lens (0 + 1)) _) with data. change (bv_size_bytes (buffer_view _ (0 + 1))) with size. simpl (_ && _).
    apply wp_bind, wp_i64; [unfold INT64_MIN, INT64_MAX; lia|]. unfold when.
    destruct (Z.ltb_spec 0 (size - buf_size_bytes data)).
    - apply wp_buffer_1. eapply wp_conseq; [apply reserve_spec; [done|lia]| |].
      + intros [] b (Hok' & Hc' & Hs' & Hr & _). apply wp_ret. exists b. split_and!; [done..|lia].
      + by intros c b (-> & _).
    - apply wp_ret, wp_ret. exists data. split_and!; [done..|lia]. }
  change (wp (for_range 0 2 (reserve_buffer (int_view a0 [size0; size; 0])) ;; mret tt)
    (fun _ a' => exists data', a' = int_array n bs ArrowBitmapInit data' ArrowBufferInit /\ buffer_ok data' /\
       buf_content data' = buf_content data /\ size <= buf_capacity_bytes data')
    (fun c _ => c = ENOMEM) (int_array n bs ArrowBitmapInit data ArrowBufferInit)).
  apply wp_bind. eapply wp_conseq; [exact Hloop| |done]. intros [] a' Ha. by apply wp_ret.
Qed.

(** ** Shrinking *)
Lemma resize_fit `{Libc} `{!LibcBound} b : buffer_ok b ->
  wp (b ← gets id; ArrowBufferResize (buf_size_bytes b) true)
    (fun _ b' => buffer_ok b' /\ buf_content b' = buf_content b) (fun c _ => c = ENOMEM) b.
Proof.
  intros [Ha Hs Hb Hc Hy]. unfold ArrowBufferResize, wp, mbind, M_bind, gets; simpl.
  rewrite (proj2 (Z.ltb_ge (buf_size_bytes b) 0)), orb_true_r, Ha by lia. simpl.
  destruct (realloc (buf_data b) (buf_size_bytes b)) as [l|] eqn:Hr; simpl.
  - apply realloc_Some in Hr as (Hm & _ & Hz & Ht & Hl). unfold when. simpl. rewrite Z.ltb_irrefl. simpl.
    specialize (Hl Hy). split; [constructor; simpl; auto; lia|].
    unfold buf_content. simpl. rewrite <- Ht. f_equal. unfold zlen in *. lia.
  - rewrite Z.gtb_ltb. destruct (Z.ltb_spec 0 (buf_size_bytes b)); simpl; [done|].
    unfold when. simpl. rewrite Z.ltb_irrefl. simpl. assert (buf_size_bytes b = 0) as Hz by lia.
    split; [constructor; simpl; auto; unfold zlen; simpl; lia|]. unfold buf_content. simpl. by rewrite Hz.
Qed.
(** What is left of the two empty buffers: blocks of no bytes. *)
Definition empty_block : ArrowBuffer := mkBuffer (Some []) 0 0 AllocatorMalloc.
Lemma resize_nothing `{Libc} : malloc_ok 0 = true ->
  (b ← gets id; ArrowBufferResize (buf_size_bytes b) true) ArrowBufferInit = Ret tt empty_block.
Proof.
  intros Hm. unfold ArrowBufferResize, mbind, M_bind, gets. simpl. unfold realloc. simpl. by rewrite Hm.
Qed.
Lemma shrink_leaf `{Libc} `{!LibcBound} a vs room : int_leaf a vs room -> malloc_ok 0 = true ->
  wp (fun a => ArrowArrayShrinkToFit a)
    (fun _ a' => exists buffers data, a' = int_array (zlen vs) buffers (mkBitmap empty_block 0) data empty_block /\
       buffer_ok data /\ buf_content data = int_bytes vs)
    (fun c _ => c = ENOMEM) a.
Proof.
  intros (bs & data & -> & Hok & Hc & _) Hm.
  change (wp (for_range 0 3 (fun i => ArrowArrayBuffer i (b ← gets id; ArrowBufferResize (buf_size_bytes b) true)) ;; mret tt)
    (fun _ a' => exists buffers data, a' = int_array (zlen vs) buffers (mkBitmap empty_block 0) data empty_block /\
       buffer_ok data /\ buf_content data = int_bytes vs)
    (fun c _ => c = ENOMEM) (int_array (zlen vs) bs ArrowBitmapInit data ArrowBufferInit)).
  unfold for_range. change (Z.to_nat (3 - 0)) with 3%nat. cbn [for_loop].
  apply wp_bind, wp_bind, wp_buffer_0. unfold wp at 1. cbn [bm_buffer ArrowBitmapInit]. rewrite resize_nothing by done.
  apply wp_bind, wp_buffer_1. eapply wp_conseq; [by apply resize_fit| |done]. intros [] data' [Hok' Hc'].
  apply wp_bind, wp_buffer_2. unfold wp at 1. rewrite resize_nothing by done.
  apply wp_ret, wp_ret. exists bs, data'. split_and!; [done..|]. by rewrite Hc'.
Qed.

(** * Theorems *)

(** C28: reserving room for [n] elements of an array of 64-bit integers keeps the elements, and
    the appends of up to [n] integers that follow succeed whatever the platform then refuses;
    reserving itself fails only with ENOMEM. *)
Theorem ArrowArrayReserve_room `{Libc} `{!LibcBound} a vs n :
  int_leaf a vs 0 -> 0 <= n -> zlen vs + n <= 2 ^ 50 ->
  wp (ArrowArrayReserve n)
    (fun _ a' => int_leaf a' vs (8 * (zlen vs + n)) /\
       forall (later : Libc) xs, zlen xs <= n ->
         wp (append_ints (H := later) xs) (fun _ a'' => int_leaf a'' (vs ++ xs) (8 * (zlen vs + n))) (fun _ _ => False) a')
    (fun c _ => c = ENOMEM) a.
Proof.
  intros (bs & data & -> & Hok & Hc & _) Hn Hb. pose proof (zlen_nonneg vs). unfold ArrowArrayReserve.
  apply wp_bind, wp_gets. cbn [id]. apply wp_bind. unfold wp at 1. rewrite init_view.
  destruct (malloc_ok 0); [|done]. apply wp_bind, wp_i64; [simpl; unfold INT64_MIN, INT64_MAX; lia|].
  apply wp_bind. eapply wp_lift_opt; [apply view_length; simpl; lia|].
  eapply wp_conseq; [by apply reserve_leaf; [|simpl; lia]| |done]. intros [] a' (data' & -> & Hok' & Hc' & Hr).
  assert (int_leaf (int_array (zlen vs) bs ArrowBitmapInit data' ArrowBufferInit) vs (8 * (zlen vs + n))) as Hl.
  { exists bs, data'. split_and!; [done..|congruence|exact Hr]. }
  split; [done|]. intros later xs Hxs. apply append_ints_room; [done|lia].
Qed.

(** shrinking an array without nulls gives it a validity bitmap of no bits (a block that
    [realloc] made of a null pointer): the next value appended is the bitmap's first bit, so that
    the array has one bit for all its elements, and the others are null or not covered. *)
Theorem ArrowArrayShrinkToFit_loses_validity `{Libc} `{!LibcBound} a vs v :
  int_leaf a vs 0 -> zlen vs < 2 ^ 40 -> malloc_ok 0 = true ->
  wp ((fun a => ArrowArrayShrinkToFit a) ;; ArrowArrayAppendInt v)
    (fun _ a' => exists buffers bitmap data rest, a' = int_array (zlen vs + 1) buffers bitmap data rest /\
       buf_content data = int_bytes (vs ++ [v]) /\ bitmap_bits bitmap = [true])
    (fun c _ => c = ENOMEM) a.
Proof.
  intros Hl Hb Hm. apply wp_bind. eapply wp_conseq; [by apply (shrink_leaf a vs 0)| |done].
  intros [] a' (bs & data & -> & Hok & Hc). pose proof (zlen_nonneg vs).
  unfold ArrowArrayAppendInt. apply wp_private. cbn [pd_storage_type]. unfold append_int. apply wp_private.
  cbn [pd_storage_type]. apply wp_bind, wp_buffer_1.
  eapply wp_conseq; [apply append_spec; [done|apply le_bytes_byte|rewrite zlen_le_bytes; lia]| |by intros c b (-> & _)].
  intros [] b (Hok' & Hc'). unfold finish_append. apply wp_private. apply wp_bind. unfold when.
  rewrite bool_decide_true by done. unfold ArrowArrayValidityBitmap.
  assert (wp (on_private (zoom bitmap_lens (ArrowBitmapAppend 1 1)))
    (fun _ a' => exists bm, a' = int_array (zlen vs) bs bm b empty_block /\ bitmap_bits bm = [true])
    (fun c _ => c = ENOMEM) (int_array (zlen vs) bs (mkBitmap empty_block 0) b empty_block)) as Hbm.
  { pose proof (bitmap_append_spec (mkBitmap empty_block 0) true 1) as Ha.
    specialize (Ha ltac:(by constructor) ltac:(lia)). unfold wp, on_private, private, mbind, M_bind, zoom in *. simpl in *.
    destruct (ArrowBitmapAppend 1 1 _) as [[] bm|c bm| |]; simpl; [|by destruct Ha as [-> _]|done..].
    destruct Ha as [_ Ha]. by exists bm. }
  eapply wp_conseq; [exact Hbm| |done]. intros [] a' (bm & -> & Hbits).
  unfold add_length. apply wp_bind, wp_gets. cbn [id int_array ar_length].
  apply wp_bind, wp_i64; [unfold INT64_MIN, INT64_MAX; lia|]. apply wp_modify.
  exists bs, bm, b, empty_block. split_and!; [done|by rewrite Hc', Hc, int_bytes_snoc|done].
Qed.

(** * Examples *)
(** 7 and 8, shrunk, 9, finished: 8 and 9 are read as null. *)
Definition finished (shrink : bool) : result (ArrowArray * ArrowError) unit :=
  (zoom fst_lens (ArrowArrayInitFromType (H := host) TYPE_INT64 ;;
     append_ints (H := host) [7; 8] ;;
     (if shrink then (fun a => ArrowArrayShrinkToFit (H := host) a) else mret tt) ;;
     append_ints (H := host) [9]) ;;
   ArrowArrayFinishBuilding (H := host)) (zero_array, Some ""%string).
Definition nulls (r : result (ArrowArray * ArrowError) unit) : option (list (option bool)) :=
  match r with
  | Ret _ (a, _) =>
      match (ArrowArrayViewInitFromArray (H := host) a ;; ArrowArrayViewSetArray a) (ArrowArrayViewReset, None) with
      | Ret _ (v, _) => Some (map (ArrowArrayViewIsNull v) [0; 1; 2])
      | _ => None
      end
  | _ => None
  end.
Example not_shrunk : nulls (finished false) = Some [Some false; Some false; Some false].
Proof. vm_compute. reflexivity. Qed.
Example shrunk : nulls (finished true) = Some [Some false; Some true; Some true].
Proof. vm_compute. reflexivity. Qed.

Definition example_ints : ArrowArray :=
  int_array 2 [None; None; None] ArrowBitmapInit (mkBuffer (Some (int_bytes [7; 8])) 16 16 AllocatorMalloc) ArrowBufferInit.
Lemma example_leaf_ok : int_leaf example_ints [7; 8] 0.
Proof.
  eexists _, _. split; [reflexivity|]. split_and!; [|done|done].
  constructor; [done|by vm_compute|done|by vm_compute|repeat constructor; done].
Qed.
Lemma ArrowArrayReserve_room_witness :
  wp (ArrowArrayReserve (H := host) 3)
    (fun _ a' => int_leaf a' [7; 8] 40 /\
       forall (later : Libc) xs, zlen xs <= 3 ->
         wp (append_ints (H := later) xs) (fun _ a'' => int_leaf a'' ([7; 8] ++ xs) 40) (fun _ _ => False) a')
    (fun c _ => c = ENOMEM) example_ints.
Proof.
  apply (ArrowArrayReserve_room (H := host) (H0 := host_bound) example_ints [7; 8] 3); [exact example_leaf_ok|lia|by vm_compute].
Defined.
Lemma ArrowArrayShrinkToFit_loses_validity_witness :
  wp ((fun a => ArrowArrayShrinkToFit (H := host) a) ;; ArrowArrayAppendInt (H := host) 9)
    (fun _ a' => exists buffers bitmap data rest, a' = int_array 3 buffers bitmap data rest /\
       buf_content data = int_bytes ([7; 8] ++ [9]) /\ bitmap_bits bitmap = [true])
    (fun c _ => c = ENOMEM) example_ints.
Proof.
  apply (ArrowArrayShrinkToFit_loses_validity (H := host) (H0 := host_bound) example_ints [7; 8] 9);
    [exact example_leaf_ok|by vm_compute|reflexivity].
Defined.
