(* ===== verification/Adbc.v ===== *)
(** The ADBC API header (adbc.h): status codes, errors, option and info constants, the
    driver table; and the Arrow C stream interface. *)
From stdpp Require Import base tactics list numbers option strings.
From Stdlib Require Import ZArith Lia.
From S2P Require Import Prelude CLib Schema Array.

(** * Status codes *)
Definition AdbcStatusCode := Z.
Definition ADBC_STATUS_OK := 0.
Definition ADBC_STATUS_UNKNOWN := 1.
Definition ADBC_STATUS_NOT_IMPLEMENTED := 2.
Definition ADBC_STATUS_NOT_FOUND := 3.
Definition ADBC_STATUS_ALREADY_EXISTS := 4.
Definition ADBC_STATUS_INVALID_ARGUMENT := 5.
Definition ADBC_STATUS_INVALID_STATE := 6.
Definition ADBC_STATUS_INVALID_DATA := 7.
Definition ADBC_STATUS_INTEGRITY := 8.
Definition ADBC_STATUS_INTERNAL := 9.
Definition ADBC_STATUS_IO := 10.
Definition ADBC_STATUS_CANCELLED := 11.
Definition ADBC_STATUS_TIMEOUT := 12.
Definition ADBC_STATUS_UNAUTHENTICATED := 13.
Definition ADBC_STATUS_UNAUTHORIZED := 14.

(** * Errors

    [err_release] tells whether the release callback is set. *)
Record AdbcError := mkError {
  err_message : option string;
  err_vendor_code : Z;
  err_sqlstate : string;
  err_release : bool;
}.
Definition zero_error : AdbcError := mkError None 0 "" false.
(** [struct AdbcError*]: [None] is the null pointer. *)
Definition ErrorPtr := option AdbcError.

(** * Structs

    The types of the API's structs and of the Arrow C data interface. *)
Inductive struct_type :=
| TError | TDriver | TDatabase | TConnection | TStatement | TArrayStream | TArray | TSchema.
#[export] Instance struct_type_eq_dec : EqDecision struct_type.
Proof. solve_decision. Defined.

(** * Constants *)
Definition ADBC_VERSION_1_0_0 := 1000000.
Definition ADBC_OPTION_VALUE_ENABLED : string := "true".
Definition ADBC_OPTION_VALUE_DISABLED : string := "false".
Definition ADBC_INFO_VENDOR_NAME := 0.
Definition ADBC_INFO_VENDOR_VERSION := 1.
Definition ADBC_INFO_VENDOR_ARROW_VERSION := 2.
Definition ADBC_INFO_DRIVER_NAME := 100.
Definition ADBC_INFO_DRIVER_VERSION := 101.
Definition ADBC_INFO_DRIVER_ARROW_VERSION := 102.
Definition ADBC_OBJECT_DEPTH_ALL := 0.
Definition ADBC_OBJECT_DEPTH_CATALOGS := 1.
Definition ADBC_OBJECT_DEPTH_DB_SCHEMAS := 2.
Definition ADBC_OBJECT_DEPTH_TABLES := 3.
Definition ADBC_OBJECT_DEPTH_COLUMNS := ADBC_OBJECT_DEPTH_ALL.
Definition ADBC_CONNECTION_OPTION_AUTOCOMMIT : string := "adbc.connection.autocommit".
Definition ADBC_INGEST_OPTION_TARGET_TABLE : string := "adbc.ingest.target_table".
Definition ADBC_INGEST_OPTION_MODE : string := "adbc.ingest.mode".
Definition ADBC_INGEST_OPTION_MODE_CREATE : string := "adbc.ingest.mode.create".
Definition ADBC_INGEST_OPTION_MODE_APPEND : string := "adbc.ingest.mode.append".

(** * The driver table: one slot per callback *)
Inductive driver_slot :=
| S_DatabaseInit | S_DatabaseNew | S_DatabaseSetOption | S_DatabaseRelease
| S_ConnectionCommit | S_ConnectionGetInfo | S_ConnectionGetObjects
| S_ConnectionGetTableSchema | S_ConnectionGetTableTypes | S_ConnectionInit
| S_ConnectionNew | S_ConnectionSetOption | S_ConnectionReadPartition
| S_ConnectionRelease | S_ConnectionRollback
| S_StatementBind | S_StatementBindStream | S_StatementExecuteQuery
| S_StatementExecutePartitions | S_StatementGetParameterSchema | S_StatementNew
| S_StatementPrepare | S_StatementRelease | S_StatementSetOption | S_StatementSetSqlQuery
| S_StatementSetSubstraitPlan.
#[export] Instance driver_slot_eq_dec : EqDecision driver_slot.
Proof. solve_decision. Defined.
Definition all_slots : list driver_slot :=
  [S_DatabaseInit; S_DatabaseNew; S_DatabaseSetOption; S_DatabaseRelease;
   S_ConnectionCommit; S_ConnectionGetInfo; S_ConnectionGetObjects;
   S_ConnectionGetTableSchema; S_ConnectionGetTableTypes; S_ConnectionInit;
   S_ConnectionNew; S_ConnectionSetOption; S_ConnectionReadPartition;
   S_ConnectionRelease; S_ConnectionRollback;
   S_StatementBind; S_StatementBindStream; S_StatementExecuteQuery;
   S_StatementExecutePartitions; S_StatementGetParameterSchema; S_StatementNew;
   S_StatementPrepare; S_StatementRelease; S_StatementSetOption; S_StatementSetSqlQuery;
   S_StatementSetSubstraitPlan].

(** * Streams

    A stream another producer made: what its callbacks will answer.  [fs_next] lists the
    remaining results of [get_next]; after them the stream is at its end. *)
Record ForeignStream := mkForeign {
  fs_schema : Z * ArrowSchema;
  fs_next : list (Z * ArrowArray);
  fs_last_error : option string;
}.
(** [R] is the private data of the streams a driver exports. *)
Inductive ArrowArrayStream (R : Type) :=
| StreamReleased
| StreamSingleBatch (schema : ArrowSchema) (batch : ArrowArray)
| StreamForeign (f : ForeignStream)
| StreamReader (r : R).
Arguments StreamReleased {R}.
Arguments StreamSingleBatch {R} schema batch.
Arguments StreamForeign {R} f.
Arguments StreamReader {R} r.
(** [stream->release != NULL] *)
Definition stream_live {R} (s : ArrowArrayStream R) : bool :=
  match s with StreamReleased => false | _ => true end.
(** Streams given to a driver are not its own readers. *)
Definition InputStream := ArrowArrayStream Empty_set.
