(* ===== verification/Utils.v ===== *)
(** The SQLite driver's utilities (c/driver/sqlite/utils.c, utils.h): error messages, the
    one-batch stream, the string builder, the status-checking macros. *)
From stdpp Require Import base tactics list numbers option strings.
From Stdlib Require Import ZArith Lia Ascii.
From S2P Require Import Prelude CLib Buffer Schema Array Adbc.

(** * Errors *)
Definition kErrorBufferSize := 256.
Definition kErrorPrefix : string := "[SQLite] ".

Section errors.
  Context `{Libc}.

Definition ReleaseError (error : AdbcError) : AdbcError :=
  mkError None (err_vendor_code error) (err_sqlstate error) false.

(** [vsnprintf] writes after the prefix, in what is left of the 256 bytes. *)
Definition SetError (format : string) (args : list fmt_arg) : M ErrorPtr unit :=
  error ← gets id;
  match error with
  | None => mret tt
  | Some e =>
      let e := if err_release e then ReleaseError e else e in
      if malloc_ok kErrorBufferSize then
        put (Some (mkError
          (Some (kErrorPrefix +:+
                 truncate_to (kErrorBufferSize - strlen kErrorPrefix) (c_format format args)))
          (err_vendor_code e) (err_sqlstate e) true))
      else put (Some (mkError None (err_vendor_code e) (err_sqlstate e) (err_release e)))
  end.
End errors.

(** States that hold the caller's error. *)
Class HasError (S : Type) := error_lens : Lens S ErrorPtr.
#[export] Hint Mode HasError ! : typeclass_instances.
#[export] Instance HasError_error : HasError ErrorPtr := mkLens id (fun e _ => e).
#[export] Instance HasError_pair {S T} `{HasError S} : HasError (S * T) :=
  lens_comp fst_lens error_lens.

Section checks.
  Context `{Libc} {S : Type} `{!HasError S}.

Definition set_error (format : string) (args : list fmt_arg) : M S unit :=
  zoom error_lens (SetError format args).
(** [SetError(error, ...); return code;] *)
Definition fail {A} (code : Z) (format : string) (args : list fmt_arg) : M S A :=
  set_error format args ;; exit code.

Definition newline : string := String "010" "".
(** [CHECK_NA(code, expr, error)]: [expr] is the text of the expression, [m] its effect. *)
Definition CHECK_NA (code : Z) (file : string) (line : Z) (expr : string) (m : M S unit)
    : M S unit :=
  arrow_error_code ← catch m;
  if arrow_error_code =? 0 then mret tt else
  fail code ("%s failed: (%d) %s" +:+ newline +:+ "Detail: %s:%d")
    [AStr expr; AInt arrow_error_code; AStr (strerror arrow_error_code); AStr (FILE_ file);
     AInt line].
(** [CHECK_NA_DETAIL]: [detail] reads the nanoarrow message. *)
Definition CHECK_NA_DETAIL (code : Z) (file : string) (line : Z) (expr : string)
    (detail : S -> string) (m : M S unit) : M S unit :=
  arrow_error_code ← catch m;
  if arrow_error_code =? 0 then mret tt else
  message ← gets detail;
  fail code ("%s failed: (%d) %s: %s" +:+ newline +:+ "Detail: %s:%d")
    [AStr expr; AInt arrow_error_code; AStr (strerror arrow_error_code); AStr message;
     AStr (FILE_ file); AInt line].
Definition RAISE (code : Z) (file : string) (line : Z) (expr : string) (ok : bool)
    (errmsg : string) : M S unit :=
  if ok then mret tt else
  fail code ("%s failed: %s" +:+ newline +:+ "Detail: %s:%d")
    [AStr expr; AStr errmsg; AStr (FILE_ file); AInt line].
End checks.

(** * The one-batch stream

    A released stream has no private data; [StreamSingleBatch] holds both structs.  The
    functions are those a consumer calls through the stream. *)
Section stream.
  Context `{Libc} {R : Type}.

(** The value is what was written to [*batch]. *)
Definition SingleBatchArrayStreamGetNext : M (ArrowArrayStream R) ArrowArray :=
  stream ← gets id;
  match stream with
  | StreamSingleBatch schema batch =>
      put (StreamSingleBatch schema zero_array) ;; mret batch
  | StreamReleased => exit EINVAL
  | _ => undef
  end.

Definition SingleBatchArrayStreamGetSchema (out : ArrowSchema)
    : M (ArrowArrayStream R * ArrowSchema) unit :=
  stream ← gets fst;
  match stream with
  | StreamSingleBatch schema _ => zoom snd_lens (ArrowSchemaDeepCopy schema)
  | StreamReleased => exit EINVAL
  | _ => undef
  end.

Definition SingleBatchArrayStreamGetLastError : option string := None.

Definition SingleBatchArrayStreamRelease : M (ArrowArrayStream R) unit :=
  stream ← gets id;
  match stream with
  | StreamSingleBatch schema batch =>
      (* impl->schema.release(&impl->schema) *)
      if sc_release schema then put StreamReleased else undef
  | StreamReleased => mret tt
  | _ => undef
  end.

Definition sizeof_SingleBatch := 152.
(** The caller's structs and the stream. *)
Record BatchArgs := mkBatchArgs {
  ba_error : ErrorPtr;
  ba_values : ArrowArray;
  ba_schema : ArrowSchema;
  ba_stream : ArrowArrayStream R;
}.
#[export] Instance HasError_BatchArgs : HasError BatchArgs :=
  mkLens ba_error (fun e b => mkBatchArgs e (ba_values b) (ba_schema b) (ba_stream b)).
Definition BatchToArrayStream : M BatchArgs unit :=
  b ← gets id;
  if negb (ar_release (ba_values b))
  then fail ADBC_STATUS_INTERNAL "ArrowArray is not initialized" [] else
  if negb (sc_release (ba_schema b))
  then fail ADBC_STATUS_INTERNAL "ArrowSchema is not initialized" [] else
  if stream_live (ba_stream b)
  then fail ADBC_STATUS_INTERNAL "ArrowArrayStream is already initialized" [] else
  malloc_unchecked sizeof_SingleBatch ;;
  put (mkBatchArgs (ba_error b) zero_array zero_schema
         (StreamSingleBatch (ba_schema b) (ba_values b))).
End stream.
Arguments BatchArgs R : clear implicits.

(** * The string builder

    [sb_buffer] is the allocated block ([None]: a null pointer); [sb_capacity] is what the
    code believes its size to be. *)
Record StringBuilder := mkBuilder {
  sb_buffer : option (list Z);
  sb_size : Z;
  sb_capacity : Z;
}.
Section builder.
  Context `{Libc}.

Definition StringBuilderInit (initial_size : Z) : StringBuilder :=
  mkBuilder (realloc None initial_size) 0 initial_size.

(** A negative [new_capacity] would be a huge [size_t]: that allocation fails. *)
Definition StringBuilderAppend (value : string) : M StringBuilder unit :=
  b ← gets id;
  let length := strlen value in
  let new_size := sb_size b + length in
  b ← (if new_size >? sb_capacity b then
         let new_capacity := sb_size b + length - sb_capacity b in
         let new_capacity := if sb_size b =? 0 then new_capacity + 1 else new_capacity in
         mret (mkBuilder (realloc (sb_buffer b) new_capacity) (sb_size b) new_capacity)
       else mret b);
  (* memcpy and the terminator *)
  block ← lift_opt (sb_buffer b);
  block ← lift_opt (write_at block (sb_size b) (string_bytes value));
  block ← lift_opt (write_at block new_size [0]);
  put (mkBuilder (Some block) new_size (sb_capacity b)).

Definition StringBuilderReset : M StringBuilder unit := put (mkBuilder None 0 0).

(** The C string in the buffer. *)
Definition builder_text (b : StringBuilder) : string :=
  bytes_string (take (Z.to_nat (sb_size b)) (block_of (sb_buffer b))).
Fixpoint append_all (values : list string) : M StringBuilder unit :=
  match values with
  | [] => mret tt
  | v :: r => StringBuilderAppend v ;; append_all r
  end.
End builder.

(** * Facts *)
Section error_facts.
  Context `{Libc}.

Lemma set_error_returns format args e : exists e', SetError format args e = Ret tt e'.
Proof.
  unfold SetError, mbind, M_bind, gets, put, id. destruct e as [e|]; [|by eexists].
  destruct (malloc_ok _); by eexists.
Qed.

Context {S : Type} `{!HasError S}.

(** Reporting an error ends with its code, and changes nothing but the error. *)
Lemma fail_exit {A} code format args (s : S) :
  exists e, fail (A := A) code format args s = Exit code (over error_lens e s).
Proof.
  unfold fail, set_error, zoom, mbind, M_bind.
  destruct (set_error_returns format args (view error_lens s)) as [e ->]. by eexists.
Qed.
Lemma set_error_run format args (s : S) :
  exists e, set_error format args s = Ret tt (over error_lens e s).
Proof.
  unfold set_error, zoom. destruct (set_error_returns format args (view error_lens s)) as [e ->].
  by eexists.
Qed.
Lemma fail_not_ret {A} code format args (s : S) (a : A) t : fail code format args s <> Ret a t.
Proof. by destruct (fail_exit (A := A) code format args s) as [e ->]. Qed.
Lemma wp_fail {A} code format args (Q : A -> S -> Prop) E s :
  (forall e, E code (over error_lens e s)) -> wp (fail code format args) Q E s.
Proof.
  intros HE. unfold wp. destruct (fail_exit (A := A) code format args s) as [e ->]. apply HE.
Qed.
Lemma wp_set_error format args (Q : unit -> S -> Prop) E s :
  (forall e, Q tt (over error_lens e s)) -> wp (set_error format args) Q E s.
Proof.
  intros HQ. unfold wp, set_error, zoom.
  destruct (set_error_returns format args (view error_lens s)) as [e ->]. apply HQ.
Qed.
Lemma wp_CHECK_NA code file line expr (m : M S unit) Q E s :
  wp m Q (fun c s' => c <> 0 /\ forall e, E code (over error_lens e s')) s ->
  wp (CHECK_NA code file line expr m) Q E s.
Proof.
  intros Hm. unfold CHECK_NA. apply wp_bind, wp_catch.
  eapply wp_conseq; [exact Hm|by intros [] s'|].
  intros c s' [Hc HE]. rewrite (proj2 (Z.eqb_neq _ _)) by done. by apply wp_fail.
Qed.
End error_facts.

Section builder_facts.
  Context `{Libc}.

(** The block has the size the builder believes. *)
Definition builder_ok (b : StringBuilder) : Prop :=
  0 <= sb_size b <= sb_capacity b /\ 0 < sb_capacity b /\
  exists l, sb_buffer b = Some l /\ zlen l = sb_capacity b /\ Forall is_byte l.

Lemma builder_init_ok n : 0 < n -> malloc_ok n = true -> builder_ok (StringBuilderInit n).
Proof.
  intros Hn Hm. unfold builder_ok, StringBuilderInit; simpl. split_and!; [lia|lia|lia|].
  destruct (realloc_grows None n) as (l & Hl & Hz & _); [unfold zlen; simpl; lia|done..|].
  exists l. split_and!; [done..|]. apply realloc_Some in Hl as (_ & _ & _ & _ & Hb).
  by apply Hb.
Qed.

(** An append that leaves room for the terminator extends the text. *)
Lemma builder_append_fits b v E :
  builder_ok b -> sb_size b + strlen v < sb_capacity b ->
  wp (StringBuilderAppend v)
    (fun _ b' => builder_ok b' /\ sb_capacity b' = sb_capacity b /\
       sb_size b' = sb_size b + strlen v /\ builder_text b' = (builder_text b +:+ v)%string) E b.
Proof.
  intros (Hs & Hc & l & Hl & Hz & Hb) Hfit. unfold StringBuilderAppend.
  assert (0 <= strlen v) by (unfold strlen; lia).
  wp_steps. rewrite Z.gtb_ltb, (proj2 (Z.ltb_ge _ _)) by lia. wp_steps.
  eapply wp_lift_opt; [exact Hl|].
  pose proof (write_at_Some l (sb_size b) (string_bytes v)) as Hw1.
  rewrite zlen_string_bytes in Hw1. specialize (Hw1 ltac:(lia) ltac:(lia)).
  apply wp_bind. eapply wp_lift_opt; [exact Hw1|].
  match type of Hw1 with _ = Some ?x => set (l1 := x) in * end.
  pose proof (write_at_len _ _ _ _ Hw1) as Hz1.
  pose proof (write_at_Some l1 (sb_size b + strlen v) [0]) as Hw2.
  change (zlen [0]) with 1 in Hw2. specialize (Hw2 ltac:(lia) ltac:(lia)).
  apply wp_bind. eapply wp_lift_opt; [exact Hw2|]. apply wp_put.
  match type of Hw2 with _ = Some ?x => set (l2 := x) in * end.
  pose proof (write_at_len _ _ _ _ Hw2) as Hz2.
  assert (Forall is_byte l1) as Hb1 by (eapply write_at_byte; eauto using string_bytes_byte).
  split_and!; simpl; auto.
  - split_and!; simpl; [lia..|]. exists l2. split_and!; [done|lia|].
    eapply write_at_byte; [exact Hw2|done|by repeat constructor].
  - unfold builder_text; simpl. rewrite Hl. simpl.
    assert (take (Z.to_nat (sb_size b + strlen v)) l2 =
            take (Z.to_nat (sb_size b)) l ++ string_bytes v) as ->.
    { rewrite <- zlen_string_bytes, <- (write_at_take _ _ _ _ Hw1), zlen_string_bytes.
      pose proof (write_at_take _ _ _ _ Hw2) as Ht.
      apply (f_equal (take (Z.to_nat (sb_size b + strlen v)))) in Ht.
      change (zlen [0]) with 1 in Ht. rewrite take_take in Ht.
      rewrite Nat.min_l in Ht by lia. rewrite Ht.
      rewrite take_app_le by (rewrite length_take; unfold zlen in *; lia).
      by rewrite take_take, Nat.min_id. }
    generalize (take (Z.to_nat (sb_size b)) l) as p. intros p.
    induction p as [|c p IH]; simpl; [by rewrite bytes_string_bytes|].
    by rewrite string_app_cons, <- IH.
Qed.

(** Any other append writes outside the block. *)
Lemma builder_append_overflows b v :
  builder_ok b -> sb_capacity b <= sb_size b + strlen v ->
  StringBuilderAppend v b = Undef.
Proof.
  intros (Hs & Hc & l & Hl & Hz & Hb) Hover. unfold StringBuilderAppend.
  assert (0 <= strlen v) by (unfold strlen; lia).
  unfold mbind, M_bind, gets, id. rewrite Z.gtb_ltb.
  destruct (Z.ltb_spec (sb_capacity b) (sb_size b + strlen v)) as [Hgrow|Hfull].
  - (* the new block is too small *)
    cbn -[realloc]. set (n := if sb_size b =? 0 then _ else _).
    destruct (realloc (sb_buffer b) n) as [l'|] eqn:Hr; [|done]. cbn -[write_at].
    apply realloc_Some in Hr as (_ & Hn & Hz' & _ & _).
    unfold write_at. rewrite zlen_string_bytes.
    destruct ((0 <=? sb_size b) && _) eqn:E1; [|done]. cbn -[write_at].
    apply andb_prop in E1 as [_ E1%Z.leb_le].
    assert (write_at l' (sb_size b) (string_bytes v) = Some
      (take (Z.to_nat (sb_size b)) l' ++ string_bytes v ++
       drop (Z.to_nat (sb_size b) + length (string_bytes v)) l')) as Hw
      by (apply write_at_Some; rewrite ?zlen_string_bytes; lia).
    apply write_at_len in Hw. unfold write_at. rewrite Hw. change (zlen [0]) with 1.
    rewrite (proj2 (Z.leb_gt (sb_size b + strlen v + 1) _)); [by rewrite andb_false_r|].
    unfold n in *. destruct (Z.eqb_spec (sb_size b) 0); lia.
  - (* the terminator lies one past the end *)
    cbn -[write_at]. rewrite Hl. cbn -[write_at].
    rewrite write_at_Some by (rewrite ?zlen_string_bytes; lia).
    cbn -[write_at]. unfold write_at.
    assert (write_at l (sb_size b) (string_bytes v) = Some
      (take (Z.to_nat (sb_size b)) l ++ string_bytes v ++
       drop (Z.to_nat (sb_size b) + length (string_bytes v)) l)) as Hw
      by (apply write_at_Some; rewrite ?zlen_string_bytes; lia).
    apply write_at_len in Hw. rewrite Hw. change (zlen [0]) with 1.
    rewrite (proj2 (Z.leb_gt (sb_size b + strlen v + 1) _)) by lia. by rewrite andb_false_r.
Qed.

(** A sequence of appends. *)
Definition joined (values : list string) : string := fold_right String.append ""%string values.
Lemma append_all_spec values b :
  builder_ok b -> sb_size b < sb_capacity b ->
  if sb_size b + strlen (joined values) <? sb_capacity b
  then exists b', append_all values b = Ret tt b' /\
         builder_text b' = (builder_text b +:+ joined values)%string
  else append_all values b = Undef.
Proof.
  revert b. induction values as [|v values IH]; intros b Hok Hroom; simpl.
  - change (strlen "") with 0. rewrite Z.add_0_r, (proj2 (Z.ltb_lt _ _)) by done.
    exists b. by rewrite string_app_nil.
  - rewrite strlen_app, Z.add_assoc. assert (0 <= strlen (joined values)) by (unfold strlen; lia).
    destruct (Z.ltb_spec (sb_size b + strlen v) (sb_capacity b)) as [Hfit|Hover].
    + pose proof (builder_append_fits b v (fun _ _ => False) Hok Hfit) as Hw. unfold wp in Hw.
      destruct (StringBuilderAppend v b) as [[] b1| | |] eqn:Hv; try done.
      destruct Hw as (Hok1 & Hcap & Hsize & Htext).
      specialize (IH b1 Hok1 ltac:(lia)). rewrite Hcap, Hsize in IH.
      destruct (_ <? _).
      * destruct IH as (b' & Hb' & Ht). exists b'. erewrite bind_ret by exact Hv.
        split; [done|]. by rewrite Ht, Htext, string_app_assoc.
      * by erewrite bind_ret by exact Hv.
    + rewrite (proj2 (Z.ltb_ge _ _)) by lia.
      apply bind_undef. by apply builder_append_overflows.
Qed.
(** All appends together, on a fresh builder. *)
Lemma append_all_fresh values n :
  0 < n -> malloc_ok n = true ->
  if strlen (joined values) <? n
  then exists b, append_all values (StringBuilderInit n) = Ret tt b /\ builder_text b = joined values
  else append_all values (StringBuilderInit n) = Undef.
Proof.
  intros Hn Hm. exact (append_all_spec values (StringBuilderInit n) (builder_init_ok n Hn Hm) Hn).
Qed.
End builder_facts.

(** * Properties *)
Section properties.
  Context `{Libc} {R : Type}.
  Implicit Types (b : BatchArgs R) (stream : ArrowArrayStream R).

(** C35: [StringBuilderAppend] is correct exactly when the text and its terminator fit the
    block: then it appends the value; as soon as the builder would have to grow, or would be
    exactly full, it writes outside the block (the new capacity is computed as
    [size + length - capacity], and the terminator is not counted). *)
Theorem StringBuilderAppend_exact (sb : StringBuilder) (value : string)
  (Hok : builder_ok sb) :
  if sb_size sb + strlen value <? sb_capacity sb
  then exists sb', StringBuilderAppend value sb = Ret tt sb' /\ builder_ok sb' /\
         builder_text sb' = (builder_text sb +:+ value)%string
  else StringBuilderAppend value sb = Undef.
Proof.
  destruct (Z.ltb_spec (sb_size sb + strlen value) (sb_capacity sb)).
  - pose proof (builder_append_fits sb value (fun _ _ => False) Hok) as Hw.
    specialize (Hw ltac:(done)). unfold wp in Hw.
    destruct (StringBuilderAppend value sb) as [[] sb'| | |]; try done.
    exists sb'. by destruct Hw as (? & _ & _ & ?).
  - by apply builder_append_overflows.
Qed.

(** [SetError] never writes past its 256-byte buffer: the stored message is the prefix
    followed by the formatted text cut to fit with its terminator; a previous error is
    released first, the callback is set exactly when there is a message, the vendor code
    and SQLSTATE are kept, and a null error is left alone. *)
Theorem SetError_bounded (format : string) (args : list fmt_arg) (error : ErrorPtr) :
  match error with
  | None => SetError format args error = Ret tt None
  | Some e =>
      exists e', SetError format args error = Ret tt (Some e') /\
        err_vendor_code e' = err_vendor_code e /\ err_sqlstate e' = err_sqlstate e /\
        (err_release e' = true -> malloc_ok kErrorBufferSize = true /\
           exists text, err_message e' = Some (kErrorPrefix +:+ text)%string /\
             text = String.substring 0 246 (c_format format args) /\
             strlen (kErrorPrefix +:+ text) < kErrorBufferSize) /\
        (err_release e' = false -> err_message e' = None)
  end.
Proof.
  destruct error as [e|]; [|done].
  unfold SetError, mbind, M_bind, gets, put, id.
  destruct (malloc_ok kErrorBufferSize) eqn:Hm.
  - eexists. split; [done|]. destruct (err_release e) eqn:Hr; simpl;
      (split_and!; [done..|intros _; split; [done|]|done]);
      (eexists; split_and!; [done..|]; rewrite strlen_app;
       pose proof (truncate_to_length (kErrorBufferSize - strlen kErrorPrefix)
                     (c_format format args)) as Hl;
       specialize (Hl ltac:(done)); change (strlen kErrorPrefix) with 9 in *; lia).
  - eexists. split; [done|]. destruct (err_release e) eqn:Hr; simpl; rewrite ?Hr; by split_and!.
Qed.

(** [BatchToArrayStream] moves a live array and a live schema into a released stream
    (the caller's structs are zeroed, so nothing is released twice); otherwise it reports
    INTERNAL and leaves all three structs as they were. *)
Theorem BatchToArrayStream_moves b (Hmalloc : malloc_ok sizeof_SingleBatch = true) :
  if ar_release (ba_values b) && sc_release (ba_schema b) && negb (stream_live (ba_stream b))
  then BatchToArrayStream b =
    Ret tt (mkBatchArgs (ba_error b) zero_array zero_schema
              (StreamSingleBatch (ba_schema b) (ba_values b)))
  else exists e, BatchToArrayStream b =
    Exit ADBC_STATUS_INTERNAL (mkBatchArgs e (ba_values b) (ba_schema b) (ba_stream b)).
Proof.
  destruct b as [e v s st]. unfold BatchToArrayStream. simpl.
  assert (forall text, exists e', fail (A := unit) ADBC_STATUS_INTERNAL text []
            (mkBatchArgs e v s st) = Exit ADBC_STATUS_INTERNAL (mkBatchArgs e' v s st)) as Hfail
    by (intros text; destruct (fail_exit (S := BatchArgs R) (A := unit)
          ADBC_STATUS_INTERNAL text [] (mkBatchArgs e v s st)) as [e' He]; exists e'; exact He).
  unfold mbind, M_bind, gets, id; simpl.
  destruct (ar_release v); [|apply Hfail]. destruct (sc_release s); [|apply Hfail].
  destruct (stream_live st); [apply Hfail|]. simpl.
  unfold malloc_unchecked. by rewrite Hmalloc.
Qed.

(** The one-batch stream follows the Arrow stream protocol: the schema can be read any
    number of times and is an equal copy, [get_next] yields the batch once and then the end
    of the stream, and release leaves a released stream on which further calls fail with
    [EINVAL] or do nothing. *)
Theorem SingleBatch_protocol (schema out : ArrowSchema) (batch : ArrowArray)
  (Hwf : schema_wf schema = true) :
  let s0 : ArrowArrayStream R := StreamSingleBatch schema batch in
  let s1 : ArrowArrayStream R := StreamSingleBatch schema zero_array in
  SingleBatchArrayStreamGetNext s0 = Ret batch s1 /\
  (exists last, SingleBatchArrayStreamGetNext s1 = Ret last s1 /\ ar_release last = false) /\
  wp (SingleBatchArrayStreamGetSchema out) (fun _ p => p = (s0, schema))
    (fun c p => c = ENOMEM /\ p.1 = s0 /\ sc_release p.2 = false) (s0, out) /\
  SingleBatchArrayStreamRelease s1 = Ret tt StreamReleased /\
  SingleBatchArrayStreamGetNext (StreamReleased (R := R)) = Exit EINVAL StreamReleased /\
  SingleBatchArrayStreamRelease (StreamReleased (R := R)) = Ret tt StreamReleased.
Proof.
  intros s0 s1. split_and!; [done|by eexists| | |done|done].
  - unfold SingleBatchArrayStreamGetSchema. wp_steps.
    eapply wp_conseq; [by apply deep_copy_spec|by intros [] t ->|].
    by intros c t [[-> _] ->].
  - unfold SingleBatchArrayStreamRelease, s1, mbind, M_bind, gets; simpl.
    destruct schema as [? ? ? ? ? ? ? r i]. simpl in Hwf.
    destruct r; [done|]. by rewrite andb_false_r in Hwf.
Qed.
End properties.

Section witnesses.
  #[local] Existing Instance host.

Definition small_builder : StringBuilder := StringBuilderInit 64.
Lemma StringBuilderAppend_witness :
  (exists sb', StringBuilderAppend "SELECT * FROM " small_builder = Ret tt sb' /\
     builder_ok sb' /\ builder_text sb' = "SELECT * FROM "%string) /\
  StringBuilderAppend
    "SELECT * FROM a_table_with_a_name_of_fifty_characters_0123456789" small_builder = Undef.
Proof.
  split.
  - refine (StringBuilderAppend_exact small_builder "SELECT * FROM " _).
    by apply builder_init_ok.
  - refine (StringBuilderAppend_exact small_builder
      "SELECT * FROM a_table_with_a_name_of_fifty_characters_0123456789" _).
    by apply builder_init_ok.
Defined.

Lemma BatchToArrayStream_witness :
  BatchToArrayStream (R := Empty_set)
    (mkBatchArgs None (set_array_release true zero_array) example_schema StreamReleased) =
  Ret tt (mkBatchArgs None zero_array zero_schema
    (StreamSingleBatch example_schema (set_array_release true zero_array))).
Proof.
  refine (BatchToArrayStream_moves (R := Empty_set)
    (mkBatchArgs None (set_array_release true zero_array) example_schema StreamReleased) _).
  reflexivity.
Defined.

Lemma SingleBatch_protocol_witness :
  SingleBatchArrayStreamGetNext (R := Empty_set) (StreamSingleBatch example_schema zero_array) =
    Ret zero_array (StreamSingleBatch example_schema zero_array).
Proof. apply (SingleBatch_protocol example_schema zero_schema zero_array). by vm_compute. Defined.
End witnesses.
