(* ===== verification/Validation.v ===== *)
(** The validation suite (c/validation/adbc_validation.cc, adbc_validation.h,
    adbc_validation_util.cc): the tests of the objects' lifecycle, of the autocommit option and of
    the errors of statements, as programs over an interface that every driver implements.

    [Driver] is what a test calls; [spec] is the protocol of databases, connections and statements
    as an executable abstract machine; a driver that [Conforms] simulates it.  Every conforming
    driver passes every test of [suite], whatever the memory of the fixtures held before, and
    leaves no object alive.  Conformance.v shows that the SQLite and the PostgreSQL driver
    conform. *)
From stdpp Require Import base tactics list numbers option strings.
From Stdlib Require Import ZArith Lia.
From S2P Require Import Prelude CLib Adbc.

(** * The interface of a driver

    The fixture's [connection], and the [connection2] a test declares. *)
Inductive slot := First | Second.
#[export] Instance slot_eq_dec : EqDecision slot.
Proof. solve_decision. Defined.
Inductive object := ODatabase | OConnection (c : slot) | OStatement.

Definition not_a_query : string := "this is not a query".
Inductive api_call :=
| ApiDatabaseNew | ApiSetupDatabase | ApiDatabaseInit | ApiDatabaseRelease
| ApiConnectionNew (c : slot) | ApiConnectionInit (c : slot) | ApiConnectionRelease (c : slot)
| ApiConnectionCommit (c : slot) | ApiConnectionRollback (c : slot)
| ApiConnectionSetOption (c : slot) (key value : string)
| ApiStatementNew (c : slot) | ApiStatementRelease | ApiStatementPrepare
| ApiStatementSetSqlQuery (query : string)
| ApiStatementExecuteQuery.        (** with null pointers for the stream and the row count *)

(** [D] holds the objects of a fixture, its error and what the driver depends on.  [SetupDatabase]
    and [supports_transactions] are those of the driver's [DriverQuirks]. *)
Class Driver (D : Type) := {
  api : api_call -> M D unit;
  memset_object : object -> D -> D;       (** [std::memset(&object, 0, sizeof(object));] *)
  private_data : object -> D -> bool;     (** is [object.private_data] set? *)
  the_error : Lens D AdbcError;
  release_error : AdbcError -> AdbcError; (** [error.release(&error);] *)
  supports_transactions : bool;
}.

(** * Tests

    A test runs on a driver and records whether something failed or the test was skipped.
    [ASSERT_*] leaves the function that holds it, with [Exit]; [EXPECT_*] goes on. *)
Record Run (D : Type) := mkRun { r_driver : D; r_failed : bool; r_skipped : bool }.
Arguments mkRun {D} r_driver r_failed r_skipped.
Arguments r_driver {D} r.
Arguments r_failed {D} r.
Arguments r_skipped {D} r.

Section tests.
  Context {D : Type} `{!Driver D}.

Definition driver_lens : Lens (Run D) D :=
  mkLens r_driver (fun d r => mkRun d (r_failed r) (r_skipped r)).
Definition add_failure : M (Run D) unit :=
  modify (fun r => mkRun (r_driver r) true (r_skipped r)).
Definition fatal_failure : M (Run D) unit := add_failure ;; exit 0.
Definition GTEST_SKIP : M (Run D) unit :=
  modify (fun r => mkRun (r_driver r) (r_failed r) true) ;; exit 0.

(** The status code of an API call, and [memset]. *)
Definition call_api (call : api_call) : M (Run D) Z := zoom driver_lens (catch (api call)).
Definition memset (o : object) : M (Run D) unit :=
  zoom driver_lens (modify (memset_object o)).
Definition memset_error : M (Run D) unit :=
  zoom driver_lens (zoom the_error (put zero_error)).
(** [if (error.release) error.release(&error);] *)
Definition if_error_release : M (Run D) unit :=
  zoom driver_lens (zoom the_error (
    error ← gets id; when (err_release error) (put (release_error error)))).

(** A matcher of status codes; [os] tells whether the mismatch is to be explained, which prints
    the error's message and releases the error. *)
Definition matcher : Type := bool -> Z -> M (Run D) bool.
Definition IsStatus (expected : Z) : matcher := fun os actual =>
  if negb (actual =? expected) then when os if_error_release ;; mret false else mret true.
Definition IsOkStatus : matcher := IsStatus ADBC_STATUS_OK.
Definition Not (m : matcher) : matcher := fun os actual => b ← m os actual; mret (negb b).

(** gtest asks the matcher first, and for an explanation only when it does not match. *)
Definition check_that (e : M (Run D) Z) (m : matcher) (otherwise : M (Run D) unit) : M (Run D) unit :=
  actual ← e;
  matches ← m false actual;
  if matches : bool then mret tt else _ ← m true actual; otherwise.
Definition ASSERT_THAT (e : M (Run D) Z) (m : matcher) : M (Run D) unit :=
  check_that e m fatal_failure.
Definition EXPECT_THAT (e : M (Run D) Z) (m : matcher) : M (Run D) unit :=
  check_that e m add_failure.
Definition has_private_data (o : object) : M (Run D) bool :=
  gets (fun r => private_data o (r_driver r)).
(** [ASSERT_EQ(nullptr, object.private_data)] and [ASSERT_NE] of the same. *)
Definition ASSERT_NULL (o : object) : M (Run D) unit :=
  set ← has_private_data o; when set fatal_failure.
Definition ASSERT_NOT_NULL (o : object) : M (Run D) unit :=
  set ← has_private_data o; when (negb set) fatal_failure.

(** ** Tests of AdbcDatabase *)
Definition DatabaseTest_SetUpTest : M (Run D) unit := memset_error ;; memset ODatabase.
Definition DatabaseTest_TearDownTest : M (Run D) unit :=
  set ← has_private_data ODatabase;
  when set (ASSERT_THAT (call_api ApiDatabaseRelease) IsOkStatus) ;;
  if_error_release.
Definition DatabaseTest_TestNewInit : M (Run D) unit :=
  ASSERT_THAT (call_api ApiDatabaseNew) IsOkStatus ;;
  ASSERT_THAT (call_api ApiSetupDatabase) IsOkStatus ;;
  ASSERT_THAT (call_api ApiDatabaseInit) IsOkStatus ;;
  ASSERT_NOT_NULL ODatabase ;;
  ASSERT_THAT (call_api ApiDatabaseRelease) IsOkStatus ;;
  ASSERT_NULL ODatabase ;;
  ASSERT_THAT (call_api ApiDatabaseRelease) (IsStatus ADBC_STATUS_INVALID_STATE).
Definition DatabaseTest_TestRelease : M (Run D) unit :=
  ASSERT_THAT (call_api ApiDatabaseRelease) (IsStatus ADBC_STATUS_INVALID_STATE) ;;
  ASSERT_THAT (call_api ApiDatabaseNew) IsOkStatus ;;
  ASSERT_THAT (call_api ApiDatabaseRelease) IsOkStatus ;;
  ASSERT_NULL ODatabase.

(** ** Tests of AdbcConnection *)
Definition ConnectionTest_SetUpTest : M (Run D) unit :=
  memset_error ;; memset ODatabase ;; memset (OConnection First) ;;
  ASSERT_THAT (call_api ApiDatabaseNew) IsOkStatus ;;
  ASSERT_THAT (call_api ApiSetupDatabase) IsOkStatus ;;
  ASSERT_THAT (call_api ApiDatabaseInit) IsOkStatus.
Definition ConnectionTest_TearDownTest : M (Run D) unit :=
  set ← has_private_data (OConnection First);
  when set (ASSERT_THAT (call_api (ApiConnectionRelease First)) IsOkStatus) ;;
  ASSERT_THAT (call_api ApiDatabaseRelease) IsOkStatus ;;
  if_error_release.
(** The two lines most tests begin with. *)
Definition new_init (c : slot) : M (Run D) unit :=
  ASSERT_THAT (call_api (ApiConnectionNew c)) IsOkStatus ;;
  ASSERT_THAT (call_api (ApiConnectionInit c)) IsOkStatus.
Definition ConnectionTest_TestNewInit : M (Run D) unit :=
  new_init First ;;
  ASSERT_THAT (call_api (ApiConnectionRelease First)) IsOkStatus ;;
  ASSERT_NULL (OConnection First) ;;
  ASSERT_THAT (call_api (ApiConnectionRelease First)) (IsStatus ADBC_STATUS_INVALID_STATE).
Definition ConnectionTest_TestRelease : M (Run D) unit :=
  ASSERT_THAT (call_api (ApiConnectionRelease First)) (IsStatus ADBC_STATUS_INVALID_STATE) ;;
  ASSERT_THAT (call_api (ApiConnectionNew First)) IsOkStatus ;;
  ASSERT_THAT (call_api (ApiConnectionRelease First)) IsOkStatus ;;
  ASSERT_NULL (OConnection First).
Definition ConnectionTest_TestConcurrent : M (Run D) unit :=
  memset (OConnection Second) ;;
  new_init First ;;
  new_init Second ;;
  ASSERT_THAT (call_api (ApiConnectionRelease First)) IsOkStatus ;;
  ASSERT_THAT (call_api (ApiConnectionRelease Second)) IsOkStatus.
Definition set_autocommit (value : string) : M (Run D) Z :=
  call_api (ApiConnectionSetOption First ADBC_CONNECTION_OPTION_AUTOCOMMIT value).
Definition ConnectionTest_TestAutocommitDefault : M (Run D) unit :=
  new_init First ;;
  ASSERT_THAT (call_api (ApiConnectionCommit First)) (IsStatus ADBC_STATUS_INVALID_STATE) ;;
  ASSERT_THAT (call_api (ApiConnectionRollback First)) (IsStatus ADBC_STATUS_INVALID_STATE) ;;
  ASSERT_THAT (set_autocommit "invalid") (Not IsOkStatus).
Definition ConnectionTest_TestAutocommitToggle : M (Run D) unit :=
  new_init First ;;
  when (negb supports_transactions) GTEST_SKIP ;;
  ASSERT_THAT (set_autocommit ADBC_OPTION_VALUE_ENABLED) IsOkStatus ;;
  ASSERT_THAT (set_autocommit ADBC_OPTION_VALUE_DISABLED) IsOkStatus ;;
  ASSERT_THAT (set_autocommit ADBC_OPTION_VALUE_DISABLED) IsOkStatus.
Definition ConnectionTest_TestMetadataGetObjectsConstraints : M (Run D) unit := mret tt.

(** ** Tests of AdbcStatement *)
Definition StatementTest_SetUpTest : M (Run D) unit :=
  memset_error ;; memset ODatabase ;; memset (OConnection First) ;; memset OStatement ;;
  ASSERT_THAT (call_api ApiDatabaseNew) IsOkStatus ;;
  ASSERT_THAT (call_api ApiSetupDatabase) IsOkStatus ;;
  ASSERT_THAT (call_api ApiDatabaseInit) IsOkStatus ;;
  new_init First.
Definition StatementTest_TearDownTest : M (Run D) unit :=
  set ← has_private_data OStatement;
  when set (EXPECT_THAT (call_api ApiStatementRelease) IsOkStatus) ;;
  EXPECT_THAT (call_api (ApiConnectionRelease First)) IsOkStatus ;;
  EXPECT_THAT (call_api ApiDatabaseRelease) IsOkStatus ;;
  if_error_release.
Definition StatementTest_TestNewInit : M (Run D) unit :=
  ASSERT_THAT (call_api (ApiStatementNew First)) IsOkStatus ;;
  ASSERT_THAT (call_api ApiStatementRelease) IsOkStatus ;;
  ASSERT_NULL OStatement ;;
  ASSERT_THAT (call_api ApiStatementRelease) (IsStatus ADBC_STATUS_INVALID_STATE) ;;
  ASSERT_THAT (call_api (ApiStatementNew First)) IsOkStatus ;;
  ASSERT_THAT (call_api ApiStatementExecuteQuery) (IsStatus ADBC_STATUS_INVALID_STATE).
Definition StatementTest_TestRelease : M (Run D) unit :=
  ASSERT_THAT (call_api ApiStatementRelease) (IsStatus ADBC_STATUS_INVALID_STATE) ;;
  ASSERT_THAT (call_api (ApiStatementNew First)) IsOkStatus ;;
  ASSERT_THAT (call_api ApiStatementRelease) IsOkStatus ;;
  ASSERT_NULL OStatement.
Definition StatementTest_TestSqlPrepareErrorNoQuery : M (Run D) unit :=
  ASSERT_THAT (call_api (ApiStatementNew First)) IsOkStatus ;;
  ASSERT_THAT (call_api ApiStatementPrepare) (IsStatus ADBC_STATUS_INVALID_STATE) ;;
  if_error_release.
Definition StatementTest_TestSqlQueryErrors : M (Run D) unit :=
  ASSERT_THAT (call_api (ApiStatementNew First)) IsOkStatus ;;
  code ← call_api (ApiStatementSetSqlQuery not_a_query);
  code ← (if code =? ADBC_STATUS_OK then call_api ApiStatementExecuteQuery else mret code);
  when (code =? ADBC_STATUS_OK) fatal_failure.

(** ** Running them

    [TEST_F(FIXTURE, Name) { TestName(); }]: the test is not run when [SetUp] failed, and
    [TearDown] always is. *)
Definition run_test (SetUp Test TearDown : M (Run D) unit) : M (Run D) unit :=
  ignore SetUp ;;
  r ← gets id;
  when (negb (r_failed r) && negb (r_skipped r)) (ignore Test) ;;
  ignore TearDown.
Definition database_test (test : M (Run D) unit) : M (Run D) unit :=
  run_test DatabaseTest_SetUpTest test DatabaseTest_TearDownTest.
Definition connection_test (test : M (Run D) unit) : M (Run D) unit :=
  run_test ConnectionTest_SetUpTest test ConnectionTest_TearDownTest.
Definition statement_test (test : M (Run D) unit) : M (Run D) unit :=
  run_test StatementTest_SetUpTest test StatementTest_TearDownTest.
Definition suite : list (M (Run D) unit) :=
  map database_test [DatabaseTest_TestNewInit; DatabaseTest_TestRelease] ++
  map connection_test
    [ConnectionTest_TestNewInit; ConnectionTest_TestRelease; ConnectionTest_TestConcurrent;
     ConnectionTest_TestAutocommitDefault; ConnectionTest_TestAutocommitToggle;
     ConnectionTest_TestMetadataGetObjectsConstraints] ++
  map statement_test
    [StatementTest_TestNewInit; StatementTest_TestRelease;
     StatementTest_TestSqlPrepareErrorNoQuery; StatementTest_TestSqlQueryErrors].
End tests.

(** * The protocol

    [Junk] objects have not been zeroed yet; the others are told apart by what has been done to
    them.  [COpen] and [CClosed..] hold whether the connection is in autocommit mode. *)
Inductive database_state := DJunk | DUnset | DNew | DSet | DReady.
Inductive connection_state := CJunk | CUnset | CNew | COpen (autocommit : bool).
Inductive statement_state := SJunk | SUnset | SNew | SQuery.
Record lifecycle := mkLife {
  l_database : database_state;
  l_first : connection_state;
  l_second : connection_state;
  l_statement : statement_state;
}.
Definition l_connection (c : slot) (l : lifecycle) : connection_state :=
  match c with First => l_first l | Second => l_second l end.
Definition set_database (d : database_state) (l : lifecycle) : lifecycle :=
  mkLife d (l_first l) (l_second l) (l_statement l).
Definition set_connection (c : slot) (s : connection_state) (l : lifecycle) : lifecycle :=
  match c with
  | First => mkLife (l_database l) s (l_second l) (l_statement l)
  | Second => mkLife (l_database l) (l_first l) s (l_statement l)
  end.
Definition set_stmt (s : statement_state) (l : lifecycle) : lifecycle :=
  mkLife (l_database l) (l_first l) (l_second l) s.

Definition is_open (c : connection_state) : bool := match c with COpen _ => true | _ => false end.
Definition live_statement (s : statement_state) : bool :=
  match s with SNew | SQuery => true | _ => false end.
Definition live_connection (c : connection_state) : bool :=
  match c with CNew | COpen _ => true | _ => false end.
Definition live_database (d : database_state) : bool :=
  match d with DNew | DSet | DReady => true | _ => false end.
(** Is the object allocated? *)
Definition live (o : object) (l : lifecycle) : bool :=
  match o with
  | ODatabase => live_database (l_database l)
  | OConnection c => live_connection (l_connection c l)
  | OStatement => live_statement (l_statement l)
  end.
(** Has it been zeroed? *)
Definition known (o : object) (l : lifecycle) : bool :=
  match o with
  | ODatabase => match l_database l with DJunk => false | _ => true end
  | OConnection c => match l_connection c l with CJunk => false | _ => true end
  | OStatement => match l_statement l with SJunk => false | _ => true end
  end.
Definition nothing_live (l : lifecycle) : bool :=
  negb (live ODatabase l || live (OConnection First) l || live (OConnection Second) l
        || live OStatement l).
(** What a fixture's memory is before [SetUp]. *)
Definition all_junk : lifecycle := mkLife DJunk CJunk CJunk SJunk.

(** What a call must answer. *)
Inductive outcome := Answers (code : Z) | Refuses.
Definition OK : outcome := Answers ADBC_STATUS_OK.
Definition INVALID_STATE : outcome := Answers ADBC_STATUS_INVALID_STATE.
Definition allows (o : outcome) (code : Z) : Prop :=
  match o with Answers c => code = c | Refuses => code <> ADBC_STATUS_OK end.

(** The answer to a call, and the state after it; [None] where the protocol says nothing (an
    object used before it is initialised, a database released under its connections). *)
Definition spec (call : api_call) (l : lifecycle) : option (outcome * lifecycle) :=
  match call with
  | ApiDatabaseNew =>
      match l_database l with
      | DUnset => Some (OK, set_database DNew l)
      | DNew | DSet | DReady => Some (INVALID_STATE, l)
      | DJunk => None
      end
  | ApiSetupDatabase =>
      match l_database l with DNew => Some (OK, set_database DSet l) | _ => None end
  | ApiDatabaseInit =>
      match l_database l with DSet => Some (OK, set_database DReady l) | _ => None end
  | ApiDatabaseRelease =>
      match l_database l with
      | DUnset => Some (INVALID_STATE, l)
      | DNew | DSet => Some (OK, set_database DUnset l)
      | DReady =>
          if is_open (l_first l) || is_open (l_second l) then None
          else Some (OK, set_database DUnset l)
      | DJunk => None
      end
  | ApiConnectionNew c =>
      match l_connection c l with CUnset => Some (OK, set_connection c CNew l) | _ => None end
  | ApiConnectionInit c =>
      match l_connection c l, l_database l with
      | CNew, DReady => Some (OK, set_connection c (COpen true) l)
      | _, _ => None
      end
  | ApiConnectionRelease c =>
      match l_connection c l with
      | CUnset => Some (INVALID_STATE, l)
      | CNew => Some (OK, set_connection c CUnset l)
      | COpen _ =>
          if live_statement (l_statement l) then None else Some (OK, set_connection c CUnset l)
      | CJunk => None
      end
  | ApiConnectionCommit c | ApiConnectionRollback c =>
      match l_connection c l with
      | CUnset | COpen true => Some (INVALID_STATE, l)
      | COpen false => Some (OK, l)
      | _ => None
      end
  | ApiConnectionSetOption c key value =>
      match l_connection c l with
      | COpen _ =>
          if String.eqb key ADBC_CONNECTION_OPTION_AUTOCOMMIT then
            if String.eqb value ADBC_OPTION_VALUE_ENABLED then
              Some (OK, set_connection c (COpen true) l)
            else if String.eqb value ADBC_OPTION_VALUE_DISABLED then
              Some (OK, set_connection c (COpen false) l)
            else Some (Refuses, l)
          else Some (Refuses, l)
      | _ => None
      end
  | ApiStatementNew c =>
      match l_statement l, l_connection c l with
      | SUnset, COpen _ => Some (OK, set_stmt SNew l)
      | _, _ => None
      end
  | ApiStatementRelease =>
      match l_statement l with
      | SUnset => Some (INVALID_STATE, l)
      | SNew | SQuery => Some (OK, set_stmt SUnset l)
      | SJunk => None
      end
  | ApiStatementPrepare =>
      match l_statement l with SUnset | SNew => Some (INVALID_STATE, l) | _ => None end
  | ApiStatementSetSqlQuery query =>
      match l_statement l with
      | SNew => if String.eqb query not_a_query then Some (OK, set_stmt SQuery l) else None
      | _ => None
      end
  | ApiStatementExecuteQuery =>
      match l_statement l with
      | SUnset | SNew => Some (INVALID_STATE, l)
      | SQuery => Some (Refuses, l)
      | SJunk => None
      end
  end.
(** Zeroing an object that is not alive. *)
Definition zeroed (o : object) (l : lifecycle) : option lifecycle :=
  if live o l then None else Some
    match o with
    | ODatabase => set_database DUnset l
    | OConnection c => set_connection c CUnset l
    | OStatement => set_stmt SUnset l
    end.

(** The code of a call is what [o] allows, and it leaves state [l]. *)
Definition answered {D} (in_state : lifecycle -> D -> Prop) (m : M D unit) (o : outcome)
    (l : lifecycle) (d : D) : Prop :=
  exists code d', finish (m d) = Some (code, d') /\ allows o code /\ in_state l d'.
Lemma answered_wp {D} (in_state : lifecycle -> D -> Prop) m o l d :
  wp m (fun _ d' => allows o 0 /\ in_state l d') (fun c d' => allows o c /\ in_state l d') d ->
  answered in_state m o l d.
Proof. unfold wp, answered. destruct (m d) as [[] d'|c d'| |]; simpl; [eauto..|done|done]. Qed.

(** A driver simulates the protocol. *)
Class Conforms {D} `{!Driver D} (in_state : lifecycle -> D -> Prop) : Prop := {
  answers call l o l' d : in_state l d -> spec call l = Some (o, l') ->
    answered in_state (api call) o l' d;
  zeroes o l l' d : in_state l d -> zeroed o l = Some l' -> in_state l' (memset_object o d);
  tells_live o l d : in_state l d -> known o l = true -> private_data o d = live o l;
  any_error l e d : in_state l d -> in_state l (over the_error e d);
}.

(** * Sequences of calls

    What the protocol says of a sequence, and the codes a driver answers. *)
Fixpoint spec_calls (calls : list api_call) (l : lifecycle) : option (list outcome * lifecycle) :=
  match calls with
  | [] => Some ([], l)
  | call :: rest =>
      '(o, l') ← spec call l;
      '(os, l'') ← spec_calls rest l';
      Some (o :: os, l'')
  end.
Fixpoint run_calls {D} `{!Driver D} (calls : list api_call) (d : D) : option (list Z * D) :=
  match calls with
  | [] => Some ([], d)
  | call :: rest =>
      '(code, d') ← finish (api call d);
      '(codes, d'') ← run_calls rest d';
      Some (code :: codes, d'')
  end.
Lemma conforming_calls {D} `{!Driver D} {in_state} `{!Conforms in_state} calls l os l' d :
  in_state l d -> spec_calls calls l = Some (os, l') ->
  exists codes d', run_calls calls d = Some (codes, d') /\ Forall2 allows os codes /\ in_state l' d'.
Proof.
  revert l os d. induction calls as [|call calls IH]; intros l os d Hd Hs; simpl in *.
  - injection Hs as <- <-. by exists [], d.
  - destruct (spec call l) as [[o l1]|] eqn:Hcall; [|done]. simpl in Hs.
    destruct (spec_calls calls l1) as [[os1 l2]|] eqn:Hrest; [|done]. injection Hs as <- <-.
    destruct (answers _ _ _ _ _ Hd Hcall) as (code & d1 & -> & Ho & Hd1).
    destruct (IH _ _ _ Hd1 Hrest) as (codes & d2 & Hrun & Hos & Hd2). simpl. rewrite Hrun.
    exists (code :: codes), d2. split_and!; [done|by constructor|done].
Qed.

(** * Running tests on the protocol *)
Create HintDb suite.
Section conforming.
  Context {D : Type} `{!Driver D} {in_state : lifecycle -> D -> Prop} `{!Conforms in_state}.

(** The run has not failed, and the driver is in state [l]; [sk]: was the test skipped? *)
Definition good (l : lifecycle) (sk : bool) (r : Run D) : Prop :=
  in_state l (r_driver r) /\ r_failed r = false /\ r_skipped r = sk.

Lemma wp_call_api call o l l' sk (Q : Z -> Run D -> Prop) E r :
  good l sk r -> spec call l = Some (o, l') ->
  (forall code r', allows o code -> good l' sk r' -> Q code r') -> wp (call_api call) Q E r.
Proof.
  intros (Hin & Hf & Hs) Hspec HQ.
  destruct (answers _ _ _ _ _ Hin Hspec) as (code & d' & Hfin & Hallow & Hin').
  unfold call_api, zoom, catch, wp; simpl.
  destruct (api call (r_driver r)) as [[] d|c d| |]; simpl in Hfin; try done;
    injection Hfin as <- <-; by apply HQ.
Qed.
Lemma wp_memset o l l' sk (Q : unit -> Run D -> Prop) E r :
  good l sk r -> zeroed o l = Some l' -> (forall r', good l' sk r' -> Q tt r') ->
  wp (memset o) Q E r.
Proof.
  intros (Hin & Hf & Hs) Hz HQ. unfold memset. wp_steps. apply HQ. split_and!; [|done..]. simpl.
  by eapply zeroes.
Qed.
Lemma wp_memset_error l sk (Q : unit -> Run D -> Prop) E r :
  good l sk r -> (forall r', good l sk r' -> Q tt r') -> wp memset_error Q E r.
Proof.
  intros (Hin & Hf & Hs) HQ. unfold memset_error. wp_steps. apply HQ. split_and!; [|done..]. simpl.
  by apply any_error.
Qed.
Lemma wp_if_error_release l sk (Q : unit -> Run D -> Prop) E r :
  good l sk r -> (forall r', good l sk r' -> Q tt r') -> wp if_error_release Q E r.
Proof.
  intros (Hin & Hf & Hs) HQ. unfold if_error_release. wp_steps.
  destruct (err_release _); simpl; wp_steps; apply HQ; (split_and!; [|done..]); simpl; by apply any_error.
Qed.
Lemma wp_has_private o l sk (Q : bool -> Run D -> Prop) E r :
  good l sk r -> known o l = true -> Q (live o l) r -> wp (has_private_data o) Q E r.
Proof.
  intros (Hin & _ & _) Hk HQ. unfold has_private_data. wp_steps. by rewrite (tells_live o l).
Qed.

(** An assertion on a call whose answer the protocol fixes. *)
Lemma wp_check call c l l' sk otherwise (Q : unit -> Run D -> Prop) E r :
  good l sk r -> spec call l = Some (Answers c, l') -> (forall r', good l' sk r' -> Q tt r') ->
  wp (check_that (call_api call) (IsStatus c) otherwise) Q E r.
Proof.
  intros Hr Hspec HQ. apply wp_bind. eapply wp_call_api; [done..|]. intros code r' -> Hr'.
  unfold IsStatus. rewrite Z.eqb_refl. simpl. by apply HQ.
Qed.
Lemma wp_check_refused call l l' sk otherwise (Q : unit -> Run D -> Prop) E r :
  good l sk r -> spec call l = Some (Refuses, l') -> (forall r', good l' sk r' -> Q tt r') ->
  wp (check_that (call_api call) (Not IsOkStatus) otherwise) Q E r.
Proof.
  intros Hr Hspec HQ. apply wp_bind. eapply wp_call_api; [done..|]. intros code r' Hcode Hr'.
  unfold Not, IsOkStatus, IsStatus. simpl in Hcode. apply Z.eqb_neq in Hcode. rewrite Hcode. simpl.
  by apply HQ.
Qed.

(** One statement of a test; the hypothesis on the run is replaced by the one after it. *)
#[local] Ltac test_step :=
  match goal with
  | |- wp (mbind _ _) _ _ _ => apply wp_bind
  | |- wp (mret _) _ _ _ => apply wp_ret
  | |- wp (memset _) _ _ _ => eapply wp_memset
  | |- wp memset_error _ _ _ => eapply wp_memset_error
  | |- wp if_error_release _ _ _ => eapply wp_if_error_release
  | |- wp (has_private_data _) _ _ _ => eapply wp_has_private
  | |- wp (check_that _ (Not _) _) _ _ _ => eapply wp_check_refused
  | |- wp (check_that _ _ _) _ _ _ => eapply wp_check
  | H : good _ _ ?r |- good _ _ ?r => exact H
  | |- spec _ _ = _ => reflexivity
  | |- zeroed _ _ = _ => reflexivity
  | |- known _ _ = _ => reflexivity
  end.

(** Where a test of each fixture starts. *)
Definition start_database := set_database DUnset all_junk.
Definition start_connection := set_database DReady (set_connection First CUnset all_junk).
Definition start_statement :=
  set_stmt SUnset (set_database DReady (set_connection First (COpen true) all_junk)).

(** A function of a fixture takes the driver from state [l] to [l'] without a failure. *)
Definition takes (m : M (Run D) unit) (l : lifecycle) (sk : bool) (l' : lifecycle) (sk' : bool) : Prop :=
  forall r, good l sk r -> wp m (fun _ => good l' sk') (fun _ => good l' sk') r.
#[local] Hint Unfold ASSERT_THAT EXPECT_THAT ASSERT_NULL ASSERT_NOT_NULL new_init set_autocommit
  DatabaseTest_SetUpTest DatabaseTest_TearDownTest DatabaseTest_TestNewInit DatabaseTest_TestRelease
  ConnectionTest_SetUpTest ConnectionTest_TearDownTest ConnectionTest_TestNewInit
  ConnectionTest_TestRelease ConnectionTest_TestConcurrent ConnectionTest_TestAutocommitDefault
  ConnectionTest_TestMetadataGetObjectsConstraints
  StatementTest_SetUpTest StatementTest_TearDownTest StatementTest_TestNewInit
  StatementTest_TestRelease StatementTest_TestSqlPrepareErrorNoQuery
  StatementTest_TestSqlQueryErrors : suite.
#[local] Ltac test_steps := repeat (test_step || (progress cbn [when live live_database live_connection
  live_statement l_database l_connection l_first l_second l_statement set_database set_connection
  set_stmt negb start_database start_connection start_statement all_junk]) || intros ? ?).
#[local] Ltac takes := intros ? ?; autounfold with suite; test_steps.

Lemma run_test_takes SetUp Test TearDown l0 l1 l2 l3 sk :
  takes SetUp l0 false l1 false -> takes Test l1 false l2 sk -> takes TearDown l2 sk l3 sk ->
  forall d, in_state l0 d ->
  exists d', run_test SetUp Test TearDown (mkRun d false false) = Ret tt (mkRun d' false sk) /\
    in_state l3 d'.
Proof.
  intros HS HT HD d Hin.
  assert (wp (run_test SetUp Test TearDown) (fun _ => good l3 sk) (fun _ _ => False)
    (mkRun d false false)) as Hw.
  { unfold run_test, ignore.
    assert (good l0 false (mkRun d false false)) as Hr0 by done. wp_steps.
    eapply wp_conseq; [by apply HS|intros ?|intros ?].
    all: intros r1 Hr1; pose proof Hr1 as (_ & Hf & Hs); simpl; wp_steps; rewrite Hf, Hs; simpl; wp_steps.
    all: eapply wp_conseq; [by apply HT|intros ?|intros ?]; intros r2 Hr2; wp_steps.
    all: eapply wp_conseq; [by apply HD|intros ?|intros ?]; intros r3 Hr3; by wp_steps. }
  unfold wp in Hw. destruct (run_test _ _ _ _) as [[] [d' f s]|? ?| |]; try done.
  destruct Hw as (Hin' & Hf & Hs). simpl in *. subst f s. by eexists.
Qed.

Lemma DatabaseTest_SetUp_takes : takes DatabaseTest_SetUpTest all_junk false start_database false.
Proof. takes. Qed.
Lemma ConnectionTest_SetUp_takes : takes ConnectionTest_SetUpTest all_junk false start_connection false.
Proof. takes. Qed.
Lemma StatementTest_SetUp_takes : takes StatementTest_SetUpTest all_junk false start_statement false.
Proof. takes. Qed.

(** What [TearDown] leaves. *)
Lemma DatabaseTest_TearDown_takes sk : takes DatabaseTest_TearDownTest start_database sk start_database sk.
Proof. takes. Qed.
Lemma ConnectionTest_TearDown_takes c1 c2 sk : c1 <> CJunk -> is_open c2 = false ->
  takes ConnectionTest_TearDownTest (mkLife DReady c1 c2 SJunk) sk (mkLife DUnset CUnset c2 SJunk) sk.
Proof. intros H1 H2. by destruct c1, c2; takes. Qed.
Lemma StatementTest_TearDown_takes s sk : s <> SJunk ->
  takes StatementTest_TearDownTest (mkLife DReady (COpen true) CJunk s) sk
    (mkLife DUnset CUnset CJunk SUnset) sk.
Proof. intros Hs. by destruct s; takes. Qed.

Lemma AutocommitToggle_takes : exists a sk, (sk = true -> supports_transactions = false) /\
  takes ConnectionTest_TestAutocommitToggle start_connection false (mkLife DReady (COpen a) CJunk SJunk) sk.
Proof.
  destruct supports_transactions eqn:Hsup.
  - exists false, false. split; [done|]. unfold ConnectionTest_TestAutocommitToggle. rewrite Hsup. takes.
  - exists true, true. split; [done|]. unfold ConnectionTest_TestAutocommitToggle. rewrite Hsup.
    takes. unfold GTEST_SKIP. wp_steps. destruct H1 as (? & ? & ?). done.
Qed.
Lemma SqlQueryErrors_takes :
  takes StatementTest_TestSqlQueryErrors start_statement false (set_stmt SQuery start_statement) false.
Proof.
  takes. eapply wp_call_api; [done..|]. intros ? r1 -> Hr1. simpl. test_steps.
  eapply wp_call_api; [done..|]. intros ? r2 Hc Hr2. simpl in Hc. rewrite (proj2 (Z.eqb_neq _ _) Hc).
  by test_steps.
Qed.

(** A test passes: from a fixture that holds anything it runs to the end without a failure, leaves
    no object alive, and is skipped only by a driver without transactions. *)
Definition passes (test : M (Run D) unit) : Prop :=
  forall d, in_state all_junk d -> exists d' l sk,
    test (mkRun d false false) = Ret tt (mkRun d' false sk) /\ in_state l d' /\
    nothing_live l = true /\ (sk = true -> supports_transactions = false).

Lemma takes_passes SetUp Test TearDown l1 l2 l3 sk :
  takes SetUp all_junk false l1 false -> takes Test l1 false l2 sk -> takes TearDown l2 sk l3 sk ->
  nothing_live l3 = true -> (sk = true -> supports_transactions = false) ->
  passes (run_test SetUp Test TearDown).
Proof.
  intros HS HT HD Hl Hsk d Hd. destruct (run_test_takes _ _ _ _ _ _ _ _ HS HT HD d Hd) as (d' & Hr & Hin).
  exists d', l3, sk. done.
Qed.
Lemma database_test_passes test : takes test start_database false start_database false ->
  passes (database_test test).
Proof.
  intros Ht.
  eapply takes_passes; [apply DatabaseTest_SetUp_takes|exact Ht|apply DatabaseTest_TearDown_takes|done..].
Qed.
Lemma connection_test_passes test c1 c2 sk :
  takes test start_connection false (mkLife DReady c1 c2 SJunk) sk ->
  c1 <> CJunk -> live_connection c2 = false -> (sk = true -> supports_transactions = false) ->
  passes (connection_test test).
Proof.
  intros Ht H1 H2 Hsk.
  eapply takes_passes; [apply ConnectionTest_SetUp_takes|exact Ht|apply ConnectionTest_TearDown_takes| |exact Hsk];
    [done|by destruct c2..].
Qed.
Lemma statement_test_passes test s :
  takes test start_statement false (set_stmt s start_statement) false -> s <> SJunk ->
  passes (statement_test test).
Proof.
  intros Ht Hs.
  by eapply takes_passes; [apply StatementTest_SetUp_takes|exact Ht|apply StatementTest_TearDown_takes|..].
Qed.

(** Whatever driver conforms to the protocol passes every test of the suite: no assertion fails,
    nothing undefined is reached, and every object is released in the end. *)
Lemma suite_passes : Forall passes suite.
Proof.
  destruct AutocommitToggle_takes as (a & sk & Hsk & Htoggle).
  repeat apply Forall_cons_2; [..|apply Forall_nil_2].
  1,2: apply database_test_passes; takes.
  5: by eapply connection_test_passes; [exact Htoggle| | |].
  1-5: eapply connection_test_passes; [takes|..]; done.
  4: by eapply statement_test_passes; [apply SqlQueryErrors_takes|].
  all: eapply statement_test_passes; [takes|]; done.
Qed.
End conforming.
Arguments passes {D _} in_state test.
