(* ===== verification/Sqlite3.v ===== *)
(** What the driver uses of SQLite's C interface (sqlite3.h): the interface as a class over
    the library's own state, the documented behaviour the proofs rely on as separate
    classes, and a small concrete library on which the driver can be run. *)
From stdpp Require Import base tactics list numbers option strings.
From Stdlib Require Import ZArith Lia.
From S2P Require Import Prelude CLib.

(** * Result codes, types, flags *)
Definition SQLITE_OK := 0.
Definition SQLITE_ERROR := 1.
Definition SQLITE_BUSY := 5.
Definition SQLITE_MISUSE := 21.
Definition SQLITE_ROW := 100.
Definition SQLITE_DONE := 101.
Definition SQLITE_INTEGER := 1.
Definition SQLITE_FLOAT := 2.
Definition SQLITE_TEXT := 3.
Definition SQLITE_BLOB := 4.
Definition SQLITE_NULL := 5.
Definition SQLITE_OPEN_READWRITE := 2.
Definition SQLITE_OPEN_CREATE := 4.
Definition SQLITE_OPEN_URI := 64.

(** Values given to the bind functions; a double is its bit pattern. *)
Inductive bind_value :=
| BindNull | BindInt64 (v : Z) | BindDouble (bits : Z) | BindText (text : list Z).

(** * The interface

    Handles are integers, 0 the null pointer.  [column_text] may convert the value in
    place, so it changes the state. *)
Class Sqlite3 := {
  sqlite : Type;
  sqlite3_open_v2 : string -> Z -> sqlite -> Z * Z * sqlite;   (** rc, connection *)
  sqlite3_close : Z -> sqlite -> Z * sqlite;
  sqlite3_errmsg : Z -> sqlite -> string;
  sqlite3_prepare_v2 : Z -> string -> Z -> sqlite -> Z * Z * sqlite;   (** rc, statement *)
  sqlite3_step : Z -> sqlite -> Z * sqlite;
  sqlite3_reset : Z -> sqlite -> Z * sqlite;
  sqlite3_clear_bindings : Z -> sqlite -> Z * sqlite;
  sqlite3_finalize : Z -> sqlite -> Z * sqlite;
  sqlite3_bind : Z -> Z -> bind_value -> sqlite -> Z * sqlite;
  sqlite3_bind_parameter_count : Z -> sqlite -> Z;
  sqlite3_bind_parameter_name : Z -> Z -> sqlite -> option string;
  sqlite3_column_count : Z -> sqlite -> Z;
  sqlite3_column_name : Z -> Z -> sqlite -> option string;
  sqlite3_column_type : Z -> Z -> sqlite -> Z;
  sqlite3_column_int64 : Z -> Z -> sqlite -> Z;
  sqlite3_column_double : Z -> Z -> sqlite -> Z;
  sqlite3_column_text : Z -> Z -> sqlite -> option (list Z) * sqlite;
  sqlite3_column_bytes : Z -> Z -> sqlite -> Z;
  sqlite3_libversion : string;
}.

(** The driver's surroundings: the library, how often the driver holds the connection
    mutex, and [errno]. *)
Record World `{Sqlite3} := mkWorld { w_db : sqlite; w_held : Z; w_errno : Z }.
Arguments mkWorld {_} w_db w_held w_errno.

Class HasWorld `{Sqlite3} (S : Type) := world_lens : Lens S World.
#[export] Hint Mode HasWorld - ! : typeclass_instances.
#[export] Instance HasWorld_world `{Sqlite3} : HasWorld World := mkLens id (fun w _ => w).
#[export] Instance HasWorld_pair `{Sqlite3} {S T} `{!HasWorld S} : HasWorld (S * T) :=
  lens_comp fst_lens world_lens.

Section calls.
  Context `{Sqlite3} {S : Type} `{!HasWorld S}.

Definition db_of (s : S) : sqlite := w_db (view world_lens s).
Definition set_db (d : sqlite) (s : S) : S :=
  let w := view world_lens s in over world_lens (mkWorld d (w_held w) (w_errno w)) s.
(** A call that returns a value and changes the library's state. *)
Definition call {A} (f : sqlite -> A * sqlite) : M S A := fun s =>
  let '(a, d) := f (db_of s) in Ret a (set_db d s).
(** A call that only reads it. *)
Definition ask {A} (f : sqlite -> A) : M S A := gets (fun s => f (db_of s)).

Definition errmsg (db : Z) : M S string := ask (sqlite3_errmsg db).

(** [sqlite3_mutex_enter(sqlite3_db_mutex(db))] and its counterpart; leaving a mutex that
    is not held is undefined. *)
Definition mutex_enter : M S unit :=
  modify (fun s => let w := view world_lens s in
    over world_lens (mkWorld (w_db w) (w_held w + 1) (w_errno w)) s).
Definition mutex_leave : M S unit :=
  s ← gets id;
  let w := view world_lens s in
  if 0 <? w_held w
  then put (over world_lens (mkWorld (w_db w) (w_held w - 1) (w_errno w)) s)
  else undef.

Lemma call_run {A} (f : sqlite -> A * sqlite) a d s :
  f (db_of s) = (a, d) -> call f s = Ret a (set_db d s).
Proof. unfold call. by intros ->. Qed.
Lemma wp_call {A} (f : sqlite -> A * sqlite) a d (Q : A -> S -> Prop) E s :
  f (db_of s) = (a, d) -> Q a (set_db d s) -> wp (call f) Q E s.
Proof. intros Hf HQ. unfold wp, call. by rewrite Hf. Qed.
Lemma wp_ask {A} (f : sqlite -> A) (Q : A -> S -> Prop) E s : Q (f (db_of s)) s -> wp (ask f) Q E s.
Proof. done. Qed.
End calls.

(** * Documented behaviour *)

(** Reading the columns of the current row: an integer converts to the nearest double, text
    is handed out with its size, and reading one column does not affect the others. *)
Class Sqlite3Columns `{Sqlite3} := {
  column_int64_range s c d : in_i64 (sqlite3_column_int64 s c d) = true;
  column_float_range s c d : sqlite3_column_type s c d = SQLITE_FLOAT ->
    0 <= sqlite3_column_double s c d < 2 ^ 64;
  column_int_double s c d : sqlite3_column_type s c d = SQLITE_INTEGER ->
    sqlite3_column_double s c d = Float.f64_of_Z (sqlite3_column_int64 s c d);
  column_text_text s c d : sqlite3_column_type s c d = SQLITE_TEXT ->
    exists bs d', sqlite3_column_text s c d = (Some bs, d') /\ Forall is_byte bs /\
      sqlite3_column_bytes s c d' = zlen bs;
  column_text_other s c d c' : c' <> c ->
    let d' := (sqlite3_column_text s c d).2 in
    sqlite3_column_type s c' d' = sqlite3_column_type s c' d /\
    sqlite3_column_int64 s c' d' = sqlite3_column_int64 s c' d /\
    sqlite3_column_double s c' d' = sqlite3_column_double s c' d /\
    (sqlite3_column_text s c' d').1 = (sqlite3_column_text s c' d).1;
}.

(** Calls on a null connection or statement report misuse and change nothing. *)
Class Sqlite3Null `{Sqlite3} := {
  prepare_null q n d : sqlite3_prepare_v2 0 q n d = (SQLITE_MISUSE, 0, d);
  step_null d : sqlite3_step 0 d = (SQLITE_MISUSE, d);
  finalize_null d : sqlite3_finalize 0 d = (SQLITE_OK, d);
}.

(** * A concrete library

    Queries are answered from a script; a statement holds its rows and a position. *)
Module Mock.
Inductive value :=
| VNull | VInteger (z : Z) | VFloat (bits : Z) | VText (bs : list Z) | VBlob (bs : list Z).
Record stmt := mkStmt {
  st_columns : list string;
  st_params : Z;
  st_rows : list (list value);
  st_pos : nat;                      (** rows stepped over; 0 before the first step *)
  st_bound : list (Z * bind_value);
}.
(** What a query text answers: column names, number of parameters, rows. *)
Definition script := list (string * (list string * Z * list (list value))).
Record state := mkState {
  m_script : script;
  m_stmts : list (option stmt);      (** statement [h] is entry [h - 1] *)
  m_conns : Z;                       (** connections opened so far *)
  m_busy : list Z;                   (** connections that refuse to close *)
  m_log : list (list (Z * bind_value));  (** the bindings at each first step *)
}.

Definition get (h : Z) (d : state) : option stmt :=
  if 0 <? h then mjoin (m_stmts d !! Z.to_nat (h - 1)) else None.
Definition set (h : Z) (s : option stmt) (d : state) : state :=
  mkState (m_script d) (<[Z.to_nat (h - 1) := s]> (m_stmts d)) (m_conns d) (m_busy d) (m_log d).
Definition lookup (q : string) (l : script) : option (list string * Z * list (list value)) :=
  snd <$> find (fun e => String.eqb (fst e) q) l.
Definition current (h c : Z) (d : state) : value :=
  match get h d with
  | Some s =>
      match st_pos s with
      | O => VNull
      | Datatypes.S k => default VNull (r ← st_rows s !! k; r !! Z.to_nat c)
      end
  | None => VNull
  end.

Definition open_v2 (uri : string) (flags : Z) (d : state) : Z * Z * state :=
  if String.eqb uri "unopenable" then (14, 0, d)
  else (SQLITE_OK, m_conns d + 1,
        mkState (m_script d) (m_stmts d) (m_conns d + 1) (m_busy d) (m_log d)).
Definition close (db : Z) (d : state) : Z * state :=
  if existsb (Z.eqb db) (m_busy d) then (SQLITE_BUSY, d) else (SQLITE_OK, d).
Definition prepare (db : Z) (q : string) (n : Z) (d : state) : Z * Z * state :=
  if db =? 0 then (SQLITE_MISUSE, 0, d) else
  match lookup q (m_script d) with
  | None => (SQLITE_ERROR, 0, d)
  | Some (cols, params, rows) =>
      (SQLITE_OK, zlen (m_stmts d) + 1,
       mkState (m_script d) (m_stmts d ++ [Some (mkStmt cols params rows 0 [])]) (m_conns d)
         (m_busy d) (m_log d))
  end.
Definition step (h : Z) (d : state) : Z * state :=
  match get h d with
  | None => (SQLITE_MISUSE, d)
  | Some s =>
      let d := match st_pos s with
               | O => mkState (m_script d) (m_stmts d) (m_conns d) (m_busy d)
                        (m_log d ++ [st_bound s])
               | _ => d
               end in
      if (st_pos s <? length (st_rows s))%nat
      then (SQLITE_ROW, set h (Some (mkStmt (st_columns s) (st_params s) (st_rows s)
                                       (Datatypes.S (st_pos s)) (st_bound s))) d)
      else (SQLITE_DONE, set h (Some (mkStmt (st_columns s) (st_params s) (st_rows s) 0
                                        (st_bound s))) d)
  end.
Definition reset (h : Z) (d : state) : Z * state :=
  match get h d with
  | None => (SQLITE_OK, d)
  | Some s => (SQLITE_OK, set h (Some (mkStmt (st_columns s) (st_params s) (st_rows s) 0
                                         (st_bound s))) d)
  end.
Definition clear_bindings (h : Z) (d : state) : Z * state :=
  match get h d with
  | None => (SQLITE_OK, d)
  | Some s => (SQLITE_OK, set h (Some (mkStmt (st_columns s) (st_params s) (st_rows s)
                                         (st_pos s) [])) d)
  end.
Definition finalize (h : Z) (d : state) : Z * state :=
  if h =? 0 then (SQLITE_OK, d) else (SQLITE_OK, set h None d).
Definition bind (h i : Z) (v : bind_value) (d : state) : Z * state :=
  match get h d with
  | None => (SQLITE_MISUSE, d)
  | Some s => (SQLITE_OK, set h (Some (mkStmt (st_columns s) (st_params s) (st_rows s)
                                         (st_pos s) (st_bound s ++ [(i, v)]))) d)
  end.
Definition type_code (v : value) : Z :=
  match v with
  | VNull => SQLITE_NULL | VInteger _ => SQLITE_INTEGER | VFloat _ => SQLITE_FLOAT
  | VText _ => SQLITE_TEXT | VBlob _ => SQLITE_BLOB
  end.
(** Conversions: only the ones the interface documents exactly. *)
Definition to_int64 (v : value) : Z :=
  match v with VInteger z => if in_i64 z then z else 0 | _ => 0 end.
Definition to_double (v : value) : Z :=
  match v with VFloat b => b mod 2 ^ 64 | _ => Float.f64_of_Z (to_int64 v) end.
Definition to_text (v : value) : option (list Z) :=
  match v with
  | VText bs | VBlob bs => Some (map (fun b => b mod 256) bs)
  | VInteger z => Some (string_bytes (fmt_Z z))
  | VFloat b => Some (string_bytes (Float.fmt_e b))
  | VNull => None
  end.

#[export] Instance mock : Sqlite3 := {|
  sqlite := state;
  sqlite3_open_v2 := open_v2;
  sqlite3_close := close;
  sqlite3_errmsg _ _ := "mock error"%string;
  sqlite3_prepare_v2 := prepare;
  sqlite3_step := step;
  sqlite3_reset := reset;
  sqlite3_clear_bindings := clear_bindings;
  sqlite3_finalize := finalize;
  sqlite3_bind := bind;
  sqlite3_bind_parameter_count h d := default 0 (st_params <$> get h d);
  sqlite3_bind_parameter_name _ _ _ := None;
  sqlite3_column_count h d := default 0 ((fun s => zlen (st_columns s)) <$> get h d);
  sqlite3_column_name h c d := s ← get h d; st_columns s !! Z.to_nat c;
  sqlite3_column_type h c d := type_code (current h c d);
  sqlite3_column_int64 h c d := to_int64 (current h c d);
  sqlite3_column_double h c d := to_double (current h c d);
  sqlite3_column_text h c d := (to_text (current h c d), d);
  sqlite3_column_bytes h c d := zlen (default [] (to_text (current h c d)));
  sqlite3_libversion := "3.39.2"%string;
|}.

Lemma mock_columns : Sqlite3Columns.
Proof.
  split; simpl.
  - intros s c d. unfold to_int64. destruct (current s c d) as [|z| | |]; try done.
    destruct (in_i64 z) eqn:Hz; [exact Hz|done].
  - intros s c d. destruct (current s c d) as [| |b| |]; try done. intros _.
    apply Z.mod_pos_bound. done.
  - intros s c d. by destruct (current s c d).
  - intros s c d. destruct (current s c d) as [| | |bs|] eqn:Hc; try done. intros _.
    eexists _, _. split_and!; [done| |by rewrite Hc]. apply Forall_forall.
    intros b Hin. apply list_elem_of_In, in_map_iff in Hin as (x & <- & _).
    unfold is_byte. apply Z.mod_pos_bound. lia.
  - done.
Qed.
Lemma mock_null : Sqlite3Null.
Proof. by split. Qed.

Definition empty : state := mkState [] [] 0 [] [].
Definition world_of (l : script) : World := mkWorld (mkState l [] 0 [] []) 0 0.
End Mock.
