(* ===== verification/Binder.v ===== *)
(** The parameter binder (c/driver/sqlite/statement_reader.c, statement_reader.h): the rows
    of a stream of record batches bound one after another to a prepared statement. *)
From stdpp Require Import base tactics list numbers option strings.
From Stdlib Require Import ZArith Lia.
From S2P Require Import Prelude CLib Buffer Schema SchemaView Array ArrayView ArrowFormat Adbc Utils Sqlite3.

(** * The parameter stream's callbacks

    Dispatch on who made the stream; the callbacks of a zeroed stream are null. *)
Section input.
  Context `{Libc}.

Definition stream_get_schema (out : ArrowSchema) : M (InputStream * ArrowSchema) unit :=
  stream ← gets fst;
  match stream with
  | StreamSingleBatch _ _ => SingleBatchArrayStreamGetSchema out
  | StreamForeign f =>
      if fst (fs_schema f) =? 0 then modify (fun p => (p.1, snd (fs_schema f)))
      else exit (fst (fs_schema f))
  | StreamReleased => undef
  | StreamReader r => match r : Empty_set with end
  end.
(** [get_next(stream, out)]: a successful call replaces [*out]. *)
Definition stream_get_next : M (InputStream * ArrowArray) unit :=
  stream ← gets fst;
  match stream with
  | StreamSingleBatch _ _ =>
      batch ← zoom fst_lens SingleBatchArrayStreamGetNext; modify (fun p => (p.1, batch))
  | StreamForeign f =>
      match fs_next f with
      | [] => modify (fun p => (p.1, set_array_release false p.2))
      | (code, batch) :: rest =>
          modify (fun p => (StreamForeign (mkForeign (fs_schema f) rest (fs_last_error f)), p.2)) ;;
          if code =? 0 then modify (fun p => (p.1, batch)) else exit code
      end
  | StreamReleased => undef
  | StreamReader r => match r : Empty_set with end
  end.
Definition stream_last_error (stream : InputStream) : option string :=
  match stream with
  | StreamForeign f => fs_last_error f
  | _ => None
  end.
Definition stream_release : M InputStream unit :=
  stream ← gets id;
  match stream with
  | StreamSingleBatch _ _ => SingleBatchArrayStreamRelease
  | StreamForeign _ => put StreamReleased
  | StreamReleased => undef
  | StreamReader r => match r : Empty_set with end
  end.
(** How often [get_next] can still yield a batch. *)
Definition stream_remaining (stream : InputStream) : nat :=
  match stream with
  | StreamSingleBatch _ batch => if ar_release batch then 1 else 0
  | StreamForeign f => length (fs_next f)
  | _ => 0
  end.
End input.

(** * The binder

    [bd_types] is the malloc'ed array, its entries indeterminate until written. *)
Record AdbcSqliteBinder := mkBinder {
  bd_schema : ArrowSchema;
  bd_params : InputStream;
  bd_types : option (list (option ArrowType));
  bd_array : ArrowArray;
  bd_batch : ArrowArrayView;
  bd_next_row : Z;
}.
Definition zero_binder : AdbcSqliteBinder :=
  mkBinder zero_schema StreamReleased None zero_array zero_view 0.

(** What the binder's functions work on. *)
Record BS `{Sqlite3} := mkBS { bs_error : ErrorPtr; bs_world : World; bs_binder : AdbcSqliteBinder }.
Arguments mkBS {_} bs_error bs_world bs_binder.
#[export] Instance HasError_BS `{Sqlite3} : HasError BS :=
  mkLens bs_error (fun e s => mkBS e (bs_world s) (bs_binder s)).
#[export] Instance HasWorld_BS `{Sqlite3} : HasWorld BS :=
  mkLens bs_world (fun w s => mkBS (bs_error s) w (bs_binder s)).

Section binder.
  Context `{Libc} `{Sqlite3}.

Definition the_binder : M BS AdbcSqliteBinder := gets bs_binder.
Definition set_binder (b : AdbcSqliteBinder) : M BS unit :=
  modify (fun s => mkBS (bs_error s) (bs_world s) b).
Definition params_schema_lens : Lens BS (InputStream * ArrowSchema) :=
  mkLens (fun s => (bd_params (bs_binder s), bd_schema (bs_binder s)))
    (fun p s => let b := bs_binder s in mkBS (bs_error s) (bs_world s)
       (mkBinder p.2 p.1 (bd_types b) (bd_array b) (bd_batch b) (bd_next_row b))).
Definition params_array_lens : Lens BS (InputStream * ArrowArray) :=
  mkLens (fun s => (bd_params (bs_binder s), bd_array (bs_binder s)))
    (fun p s => let b := bs_binder s in mkBS (bs_error s) (bs_world s)
       (mkBinder (bd_schema b) p.1 (bd_types b) p.2 (bd_batch b) (bd_next_row b))).
Definition params_lens : Lens BS InputStream := lens_comp params_array_lens fst_lens.
Definition array_lens : Lens BS ArrowArray := lens_comp params_array_lens snd_lens.
Definition schema_lens : Lens BS ArrowSchema := lens_comp params_schema_lens snd_lens.
Definition set_batch (v : ArrowArrayView) : M BS unit :=
  b ← the_binder;
  set_binder (mkBinder (bd_schema b) (bd_params b) (bd_types b) (bd_array b) v (bd_next_row b)).
Definition set_types (t : option (list (option ArrowType))) : M BS unit :=
  b ← the_binder;
  set_binder (mkBinder (bd_schema b) (bd_params b) t (bd_array b) (bd_batch b) (bd_next_row b)).
Definition set_next_row (n : Z) : M BS unit :=
  b ← the_binder;
  set_binder (mkBinder (bd_schema b) (bd_params b) (bd_types b) (bd_array b) (bd_batch b) n).
(** Code on [binder->batch] and the local [arrow_error]: its status and the message. *)
Definition on_batch (arrow_error : ArrowError) (m : M VE unit) : M BS (Z * ArrowError) := fun s =>
  let b := bs_binder s in
  let back (v : ArrowArrayView) := mkBS (bs_error s) (bs_world s)
    (mkBinder (bd_schema b) (bd_params b) (bd_types b) (bd_array b) v (bd_next_row b)) in
  match m (bd_batch b, arrow_error) with
  | Ret _ (v, e) => Ret (0, e) (back v)
  | Exit c (v, e) => Ret (c, e) (back v)
  | Undef => Undef
  | NoFuel => NoFuel
  end.
Definition message_of (arrow_error : ArrowError) : fmt_arg := AStr (default "" arrow_error).

Definition AdbcSqliteBinderRelease : M BS unit :=
  b ← the_binder;
  when (sc_release (bd_schema b)) (zoom schema_lens ArrowSchemaRelease) ;;
  when (stream_live (bd_params b)) (zoom params_lens stream_release) ;;
  when (ar_release (bd_array b)) (zoom array_lens ArrowArrayRelease) ;;
  set_batch ArrowArrayViewReset ;;
  set_binder zero_binder.

(** The type of one column of the parameters. *)
Definition bind_column_type (i : Z) (arrow_error : ArrowError) : M BS ArrowType :=
  b ← the_binder;
  child ← lift_opt (mjoin (child_at (bd_schema b) i));
  match ArrowSchemaViewInit child (fresh_view, arrow_error) with
  | Ret _ (view, _) =>
      if type_eqb (sv_type view) TYPE_UNINITIALIZED
      then fail ADBC_STATUS_INTERNAL "Column %d has UNINITIALIZED type" [AInt i]
      else mret (sv_type view)
  | Exit status (_, arrow_error) =>
      fail ADBC_STATUS_INVALID_ARGUMENT "Failed to parse schema for column %d: %s (%d): %s"
        [AInt i; AStr (strerror status); AInt status; message_of arrow_error]
  | Undef => undef
  | NoFuel => nofuel
  end.

Definition AdbcSqliteBinderSet : M BS unit :=
  status ← catch (b ← the_binder; zoom params_schema_lens (stream_get_schema (bd_schema b)));
  b ← the_binder;
  if negb (status =? 0) then
    fail ADBC_STATUS_INVALID_ARGUMENT "Failed to get parameter schema: (%d) %s: %s"
      [AInt status; AStr (strerror status);
       AStr (default "(unknown error)"%string (stream_last_error (bd_params b)))]
  else
  '(status, arrow_error) ← on_batch (Some ""%string) (ArrowArrayViewInitFromSchema (bd_schema b));
  if negb (status =? 0) then
    fail ADBC_STATUS_INVALID_ARGUMENT "Failed to initialize array view: (%d) %s: %s"
      [AInt status; AStr (strerror status); message_of arrow_error]
  else
  b ← the_binder;
  if negb (type_eqb (av_storage_type (bd_batch b)) TYPE_STRUCT) then
    fail ADBC_STATUS_INVALID_ARGUMENT "Bind parameters do not have root type STRUCT" []
  else
  let n_children := sc_n_children (bd_schema b) in
  when (0 <? n_children) (malloc_unchecked (n_children * 4)) ;;
  set_types (Some (replicate (Z.to_nat n_children) None)) ;;
  for_range 0 n_children (fun i =>
    type ← bind_column_type i arrow_error;
    b ← the_binder;
    set_types (<[Z.to_nat i := Some type]> <$> bd_types b)).

(** The caller's structs are moved from. *)
Definition AdbcSqliteBinderSetArray : M (BS * (ArrowArray * ArrowSchema)) unit :=
  zoom fst_lens AdbcSqliteBinderRelease ;;
  '(s, (values, schema)) ← gets id;
  let back (a : BatchArgs Empty_set) : BS * (ArrowArray * ArrowSchema) :=
    let b := bs_binder s in
    (mkBS (ba_error a) (bs_world s)
       (mkBinder (bd_schema b) (ba_stream a) (bd_types b) (bd_array b) (bd_batch b)
          (bd_next_row b)),
     (ba_values a, ba_schema a)) in
  match BatchToArrayStream (mkBatchArgs (bs_error s) values schema (bd_params (bs_binder s))) with
  | Ret _ a => put (back a)
  | Exit c a => put (back a) ;; exit c
  | Undef => undef
  | NoFuel => nofuel
  end ;;
  zoom fst_lens AdbcSqliteBinderSet.

Definition AdbcSqliteBinderSetArrayStream : M (BS * InputStream) unit :=
  zoom fst_lens AdbcSqliteBinderRelease ;;
  values ← gets snd;
  zoom fst_lens (zoom params_lens (put values)) ;;
  modify (fun p => (p.1, StreamReleased)) ;;
  zoom fst_lens AdbcSqliteBinderSet.

(** ** Binding a row *)

(** [sqlite3_bind_text(stmt, i, data, n, SQLITE_STATIC)], [n] narrowed to [int]: a null
    pointer binds NULL, a negative length means up to the terminator. *)
Definition text_value (data : option (list Z)) (bytes : list Z) : option bind_value :=
  match data with
  | None => Some BindNull
  | Some _ =>
      let n := to_signed 32 (zlen bytes) in
      if 0 <=? n then Some (BindText (take (Z.to_nat n) bytes))
      else
        (fix upto (bs : list Z) (acc : list Z) : option bind_value :=
           match bs with
           | [] => None
           | 0 :: _ => Some (BindText (reverse acc))
           | b :: r => upto r (b :: acc)
           end) bytes []
  end.

(** The value bound for a cell: [None] where the read is undefined, an error where the code
    reports one. *)
Definition cell_value (col : Z) (type : ArrowType) (view : ArrowArrayView) (row : Z)
    : option ((Z * string * list fmt_arg) + bind_value) :=
  is_null ← ArrowArrayViewIsNull view row;
  if is_null : bool then Some (inr BindNull) else
  match type with
  | TYPE_BINARY | TYPE_LARGE_BINARY | TYPE_STRING | TYPE_LARGE_STRING =>
      value ← ArrowArrayViewGetBytesUnsafe view row;
      inr <$> text_value (bv_data (buffer_view view 2)) value
  | TYPE_UINT8 | TYPE_UINT16 | TYPE_UINT32 | TYPE_UINT64 =>
      value ← ArrowArrayViewGetUIntUnsafe view row;
      Some (if value >? INT64_MAX
            then inl (ADBC_STATUS_INVALID_ARGUMENT,
                      "Column %d has unsigned integer value %luout of range of int64_t"%string,
                      [AInt col; AInt value])
            else inr (BindInt64 value))
  | TYPE_INT8 | TYPE_INT16 | TYPE_INT32 | TYPE_INT64 =>
      value ← ArrowArrayViewGetIntUnsafe view row; Some (inr (BindInt64 value))
  | TYPE_FLOAT | TYPE_DOUBLE =>
      (* int64_t value = ...; *)
      d ← ArrowArrayViewGetDoubleUnsafe view row;
      value ← Float.Z_of_f64 d;
      Some (inr (BindDouble (Float.f64_of_Z value)))
  | _ =>
      Some (inl (ADBC_STATUS_NOT_IMPLEMENTED, "Column %d has unsupported type %s"%string,
                 [AInt col; AStr (default "(null)"%string (ArrowTypeString type))]))
  end.

Definition bind_column (conn stmt col : Z) : M BS unit :=
  b ← the_binder;
  view ← lift_opt (view_child (bd_batch b) col);
  (* binder->types[col] is read only for values that are not null *)
  is_null ← lift_opt (ArrowArrayViewIsNull view (bd_next_row b));
  type ← (if is_null : bool then mret TYPE_NA
          else lift_opt (ts ← bd_types b; mjoin (ts !! Z.to_nat col)));
  value ← lift_opt (cell_value col type view (bd_next_row b));
  match value with
  | inl (code, format, args) => fail code format args
  | inr v =>
      status ← call (sqlite3_bind stmt (col + 1) v);
      if status =? SQLITE_OK then mret tt else
      msg ← errmsg conn;
      fail ADBC_STATUS_INTERNAL "Failed to clear statement bindings: %s" [AStr msg]
  end.

(** Dropping the current array before the next batch is read. *)
Definition drop_array (arrow_error : ArrowError) : M BS ArrowError :=
  b ← the_binder;
  if ar_release (bd_array b) then
    set_batch ArrowArrayViewReset ;;
    zoom array_lens ArrowArrayRelease ;;
    '(status, arrow_error) ← on_batch arrow_error (ArrowArrayViewInitFromSchema (bd_schema b));
    if status =? 0 then mret arrow_error else
    fail ADBC_STATUS_INTERNAL "Failed to initialize array view: (%d) %s: %s"
      [AInt status; AStr (strerror status); message_of arrow_error]
  else mret arrow_error.

(** One iteration of the loop that finds a batch with a row left; the value says whether to
    go on.  [None]: the stream is at its end. *)
Definition next_batch (arrow_error : ArrowError) : M BS (option bool * ArrowError) :=
  b ← the_binder;
  if ar_release (bd_array b) && (bd_next_row b <? ar_length (bd_array b))
  then mret (Some false, arrow_error) else
  arrow_error ← drop_array arrow_error;
  status ← catch (zoom params_array_lens stream_get_next);
  b ← the_binder;
  if negb (status =? 0) then
    fail ADBC_STATUS_IO "Failed to get next parameter batch: (%d) %s: %s"
      [AInt status; AStr (strerror status);
       AStr (default "(unknown error)"%string (stream_last_error (bd_params b)))]
  else
  if negb (ar_release (bd_array b)) then
    AdbcSqliteBinderRelease ;; mret (None, arrow_error)
  else
  '(status, arrow_error) ← on_batch arrow_error (ArrowArrayViewSetArray (bd_array b));
  if negb (status =? 0) then
    fail ADBC_STATUS_INTERNAL "Failed to initialize array view: (%d) %s: %s"
      [AInt status; AStr (strerror status); message_of arrow_error]
  else set_next_row 0 ;; mret (Some true, arrow_error).
(** The value says whether a row was found. *)
Fixpoint find_row (fuel : nat) (arrow_error : ArrowError) : M BS bool :=
  match fuel with
  | O => nofuel
  | S fuel' =>
      '(go, arrow_error) ← next_batch arrow_error;
      match go with
      | None => mret false
      | Some false => mret true
      | Some true => find_row fuel' arrow_error
      end
  end.

(** The value is [*finished]. *)
Definition AdbcSqliteBinderBindNext (conn stmt : Z) : M BS bool :=
  b ← the_binder;
  found ← find_row (2 + stream_remaining (bd_params b)) (Some ""%string);
  if negb found then mret true else
  rc ← call (sqlite3_reset stmt);
  if negb (rc =? SQLITE_OK) then
    msg ← errmsg conn; fail ADBC_STATUS_INTERNAL "Failed to reset statement: %s" [AStr msg]
  else
  rc ← call (sqlite3_clear_bindings stmt);
  if negb (rc =? SQLITE_OK) then
    msg ← errmsg conn;
    fail ADBC_STATUS_INTERNAL "Failed to clear statement bindings: %s" [AStr msg]
  else
  b ← the_binder;
  for_range 0 (sc_n_children (bd_schema b)) (bind_column conn stmt) ;;
  b ← the_binder;
  n ← i64 (bd_next_row b + 1);
  set_next_row n ;;
  mret false.
End binder.

(** * What a binder has left to bind

    The values of one row, column by column: [None] where a read is undefined or the code
    reports an error. *)
Section pending.
  Context `{Libc}.

Definition column_value (types : option (list (option ArrowType))) (v : ArrowArrayView)
    (row col : Z) : option bind_value :=
  view ← view_child v col;
  is_null ← ArrowArrayViewIsNull view row;
  type ← (if is_null : bool then Some TYPE_NA else ts ← types; mjoin (ts !! Z.to_nat col));
  value ← cell_value col type view row;
  match value with inl _ => None | inr x => Some x end.
Definition row_values (n : Z) types (v : ArrowArrayView) (row : Z) : option (list bind_value) :=
  mapM (column_value types v row) (seqZ 0 n).

(** The batches a well-behaved stream yields before its end. *)
Fixpoint foreign_batches (l : list (Z * ArrowArray)) : option (list ArrowArray) :=
  match l with
  | [] => Some []
  | (code, batch) :: rest =>
      if negb (code =? 0) then None
      else if negb (ar_release batch) then Some []
      else cons batch <$> foreign_batches rest
  end.
Definition stream_batches (stream : InputStream) : option (list ArrowArray) :=
  match stream with
  | StreamSingleBatch schema batch =>
      if sc_release schema then Some (if ar_release batch then [batch] else []) else None
  | StreamForeign f => foreign_batches (fs_next f)
  | _ => None
  end.
(** The batches with rows left: the current one, then those to come. *)
Definition current_batch (b : AdbcSqliteBinder) : list ArrowArray :=
  if ar_release (bd_array b) then [bd_array b] else [].
Definition batches_left (b : AdbcSqliteBinder) : list ArrowArray :=
  current_batch b ++ default [] (stream_batches (bd_params b)).

(** The schema's view, and a view of a batch; the error text plays no role. *)
Definition opens (schema : ArrowSchema) (v0 : ArrowArrayView) : Prop :=
  forall e, exists e', ArrowArrayViewInitFromSchema schema (ArrowArrayViewReset, e) = Ret tt (v0, e').
Definition loads (v0 : ArrowArrayView) (batch : ArrowArray) (v : ArrowArrayView) : Prop :=
  forall e, exists e', ArrowArrayViewSetArray batch (v0, e) = Ret tt (v, e').

(** The rows of the current batch from [next_row] on, then those of the batches to come, where
    [read] reads a row of a batch and its view, and [linked] relates the current batch to its
    view. *)
Section tracking.
  Context (read : ArrowArray -> ArrowArrayView -> Z -> option (list bind_value)).
  Context (linked : ArrowArrayView -> ArrowArray -> ArrowArrayView -> Prop).

Definition rows_between (batch : ArrowArray) (v : ArrowArrayView) (from upto : Z)
    : option (list (list bind_value)) :=
  mapM (read batch v) (seqZ from (upto - from)).
Definition batch_rows v0 (batch : ArrowArray) (rows : list (list bind_value)) : Prop :=
  exists v, loads v0 batch v /\ rows_between batch v 0 (ar_length batch) = Some rows /\
    ar_length batch <= INT64_MAX.
Record tracks (b : AdbcSqliteBinder) (v0 : ArrowArrayView) (batches : list ArrowArray)
    (cur : list (list bind_value)) (later : list (list (list bind_value))) : Prop := {
  pd_schema : sc_release (bd_schema b) = true;
  pd_view : opens (bd_schema b) v0;
  pd_batches : stream_batches (bd_params b) = Some batches;
  pd_later : Forall2 (batch_rows v0) batches later;
  pd_cur : if ar_release (bd_array b)
    then linked v0 (bd_array b) (bd_batch b) /\
         rows_between (bd_array b) (bd_batch b) (bd_next_row b) (ar_length (bd_array b)) = Some cur /\
         0 <= bd_next_row b /\ ar_length (bd_array b) <= INT64_MAX
    else bd_batch b = v0 /\ cur = [];
}.
End tracking.

(** The rows as the code reads them. *)
Definition pending (b : AdbcSqliteBinder) :=
  tracks (fun _ => row_values (sc_n_children (bd_schema b)) (bd_types b)) (fun _ _ _ => True) b.
Definition pending_rows (b : AdbcSqliteBinder) (rows : list (list bind_value)) : Prop :=
  exists v0 batches cur later, pending b v0 batches cur later /\ rows = cur ++ concat later.

(** The rows as the Arrow format defines them: the types are those of the schema's format
    strings, and the values are read from the buffers of the batches.  SQLite's integers are
    signed and have 64 bits, so larger unsigned integers stand for no SQLite value. *)
Definition bound_value (x : scalar) : option bind_value :=
  match x with
  | ScNull => Some BindNull
  | ScInt z => if z <=? INT64_MAX then Some (BindInt64 z) else None
  | ScDouble bits => Some (BindDouble bits)
  | ScText bytes => Some (BindText bytes)
  end.
Definition parameter_row (types : list ArrowType) (batch : ArrowArray) (row : Z) : option (list bind_value) :=
  batch_row types batch row ≫= mapM bound_value.
Record parameter_rows (types : list ArrowType) (b : AdbcSqliteBinder) (rows : list (list bind_value)) : Prop := {
  pr_types : column_types (bd_schema b) = Some types;
  pr_columns : sc_n_children (bd_schema b) = zlen types;
  pr_binder_types : bd_types b = Some (Some <$> types);
  pr_rows : exists v0 batches cur later,
    tracks (fun batch _ => parameter_row types batch) loads b v0 batches cur later /\ rows = cur ++ concat later;
}.
(** What the binder handles: a batch that is not a slice, whose text columns have a block of
    text; numbers that survive [int64_t], and texts whose length fits an [int]. *)
Definition text_blocks (types : list ArrowType) (batch : ArrowArray) : Prop :=
  forall i t a, types !! i = Some t -> is_Some (offset_width t) -> get_child batch (Z.of_nat i) = Some a ->
    is_Some (block_of a 2).
Definition servable (types : list ArrowType) (batch : ArrowArray) : Prop :=
  ar_offset batch = 0 /\ text_blocks types batch.
Definition exact (v : bind_value) : Prop :=
  match v with
  | BindDouble bits => exists z, Float.Z_of_f64 bits = Some z /\ Float.f64_of_Z z = bits
  | BindText bytes => zlen bytes <= INT32_MAX
  | _ => True
  end.
End pending.

(** The library's effect of binding values to the parameters from [col + 1] on. *)
Fixpoint bind_all `{Sqlite3} (stmt col : Z) (vs : list bind_value) (d : sqlite) : option sqlite :=
  match vs with
  | [] => Some d
  | v :: r =>
      let '(rc, d) := sqlite3_bind stmt (col + 1) v d in
      if rc =? SQLITE_OK then bind_all stmt (col + 1) r d else None
  end.

Section binder_facts.
  Context `{Libc} `{Sqlite3}.

Definition with_batch (b : AdbcSqliteBinder) p a v n : AdbcSqliteBinder :=
  mkBinder (bd_schema b) p (bd_types b) a v n.

(** Taking the next batch from the stream. *)
Lemma get_next_batch p a batch rest :
  stream_batches p = Some (batch :: rest) ->
  exists p', stream_get_next (p, a) = Ret tt (p', batch) /\ stream_batches p' = Some rest /\
    (stream_remaining p' < stream_remaining p)%nat /\ ar_release batch = true.
Proof.
  destruct p as [|schema b|f|[]]; simpl; [done|..].
  - destruct (sc_release schema) eqn:Hs; [|done].
    destruct (ar_release b) eqn:Hb; [|done]. intros [= <- <-].
    exists (StreamSingleBatch schema zero_array). split_and!; [done| |simpl|done].
    + simpl. by rewrite Hs.
    + lia.
  - destruct f as [sch [|[code b] next] err]; simpl; [done|].
    destruct (code =? 0) eqn:Hc; simpl; [|done]. destruct (ar_release b) eqn:Hb; simpl; [|done].
    destruct (foreign_batches next) as [bs|] eqn:Hf; simpl; [|done]. intros [= <- <-].
    exists (StreamForeign (mkForeign sch next err)). split_and!; [|done|simpl; lia|done].
    unfold stream_get_next, mbind, M_bind, gets, modify; simpl. by rewrite Hc.
Qed.
Lemma get_next_end p a :
  stream_batches p = Some [] ->
  exists p' a', stream_get_next (p, a) = Ret tt (p', a') /\ ar_release a' = false /\
    stream_live p' = true /\ exists q, stream_release p' = Ret tt q.
Proof.
  destruct p as [|schema b|f|[]]; simpl; [done|..].
  - destruct (sc_release schema) eqn:Hs; [|done].
    destruct (ar_release b) eqn:Hb; [done|]. intros _. exists (StreamSingleBatch schema zero_array), b.
    split_and!; [done..|]. exists StreamReleased.
    unfold stream_release, SingleBatchArrayStreamRelease, mbind, M_bind, gets, id. by rewrite Hs.
  - destruct f as [sch [|[code b] next] err]; simpl.
    + intros _. eexists _, _. split_and!; [done..|]. by eexists.
    + destruct (code =? 0) eqn:Hc; simpl; [|done]. destruct (ar_release b) eqn:Hb; simpl.
      * by destruct (foreign_batches next).
      * intros _. exists (StreamForeign (mkForeign sch next err)), b.
        split_and!; [|done..|by eexists].
        unfold stream_get_next, mbind, M_bind, gets, modify; simpl. by rewrite Hc.
Qed.

Lemma on_batch_run e (m : M VE unit) (s : BS) v e' :
  m (bd_batch (bs_binder s), e) = Ret tt (v, e') ->
  on_batch e m s = Ret (0, e') (mkBS (bs_error s) (bs_world s)
    (with_batch (bs_binder s) (bd_params (bs_binder s)) (bd_array (bs_binder s)) v
       (bd_next_row (bs_binder s)))).
Proof. unfold on_batch. by intros ->. Qed.

(** ** The loop that finds a row *)
Section tracking_facts.
  Context (read : ArrowArray -> ArrowArrayView -> Z -> option (list bind_value)).
  Context (linked : ArrowArrayView -> ArrowArray -> ArrowArrayView -> Prop).
  Context (Hlinked : forall v0 batch v, loads v0 batch v -> linked v0 batch v).

Lemma drop_array_spec e (s : BS) v0 batches cur later :
  tracks read linked (bs_binder s) v0 batches cur later ->
  exists e' a, drop_array e s = Ret e' (mkBS (bs_error s) (bs_world s)
    (with_batch (bs_binder s) (bd_params (bs_binder s)) a v0 (bd_next_row (bs_binder s)))).
Proof.
  intros [Hsch Hopen _ _ Hcur]. destruct s as [err w [sch p t a v n]]; simpl in *.
  unfold drop_array. erewrite bind_ret by done. simpl.
  destruct (ar_release a) eqn:Ha.
  - destruct (Hopen e) as [e' He']. exists e', indet_array.
    erewrite bind_ret by done. erewrite bind_ret; [|unfold zoom, ArrowArrayRelease, mbind, M_bind, gets, id; simpl; by rewrite Ha].
    erewrite bind_ret; [|by apply on_batch_run]. done.
  - destruct Hcur as [-> _]. by exists e, a.
Qed.

Definition exhausted (b : AdbcSqliteBinder) : Prop :=
  ar_release (bd_array b) && (bd_next_row b <? ar_length (bd_array b)) = false.
Lemma exhausted_cur b v0 batches cur later :
  tracks read linked b v0 batches cur later -> exhausted b -> cur = [].
Proof.
  intros [_ _ _ _ Hc] Hx. unfold exhausted in Hx. destruct (ar_release (bd_array b)); [|by destruct Hc].
  simpl in Hx. apply Z.ltb_ge in Hx. destruct Hc as (_ & Hc & _). unfold rows_between in Hc.
  rewrite seqZ_nil in Hc by lia. by injection Hc as <-.
Qed.
Lemma unexhausted_cur b v0 batches cur later :
  tracks read linked b v0 batches cur later -> ar_release (bd_array b) = true ->
  bd_next_row b < ar_length (bd_array b) ->
  exists vs cur', cur = vs :: cur' /\ linked v0 (bd_array b) (bd_batch b) /\
    read (bd_array b) (bd_batch b) (bd_next_row b) = Some vs /\
    tracks read linked (with_batch b (bd_params b) (bd_array b) (bd_batch b) (bd_next_row b + 1))
      v0 batches cur' later.
Proof.
  intros [H1 H2 H3 H4 Hc] Ha Hn. rewrite Ha in Hc. destruct Hc as (Hk & Hc & Hn0 & Hl).
  unfold rows_between in Hc. rewrite seqZ_cons in Hc by lia. simpl in Hc.
  destruct (read _ _ _) as [vs|]; simpl in Hc; [|done].
  destruct (mapM _ _) as [cur'|] eqn:Hm; simpl in Hc; [|done]. injection Hc as <-.
  exists vs, cur'. split_and!; [done..|]. split; simpl; try done. rewrite Ha.
  split_and!; [done| |lia|done]. unfold rows_between. rewrite <- Hm. do 2 f_equal; lia.
Qed.

Lemma next_batch_found e s :
  ar_release (bd_array (bs_binder s)) = true ->
  bd_next_row (bs_binder s) < ar_length (bd_array (bs_binder s)) ->
  next_batch e s = Ret (Some false, e) s.
Proof.
  intros Ha Hn. unfold next_batch. erewrite bind_ret by done.
  by rewrite Ha, (proj2 (Z.ltb_lt _ _) Hn).
Qed.

Lemma next_batch_more e (s : BS) v0 batch batches cur later :
  tracks read linked (bs_binder s) v0 (batch :: batches) cur later -> exhausted (bs_binder s) ->
  exists e' p v cur' later',
    let b' := with_batch (bs_binder s) p batch v 0 in
    later = cur' :: later' /\
    next_batch e s = Ret (Some true, e') (mkBS (bs_error s) (bs_world s) b') /\
    tracks read linked b' v0 batches cur' later' /\
    (stream_remaining p < stream_remaining (bd_params (bs_binder s)))%nat.
Proof.
  intros Hp Hx. destruct (drop_array_spec e _ _ _ _ _ Hp) as (e1 & a & Hdrop).
  destruct Hp as [Hsch Hopen Hb Hlater _].
  inversion Hlater as [|? cur' ? later' (v & Hload & Hrows & Hmax) Hrest]; subst.
  destruct (get_next_batch _ a _ _ Hb) as (p' & Hg & Hb' & Hlt & Hlive).
  destruct (Hload e1) as [e2 He2].
  exists e2, p', v, cur', later'. split; [done|].
  split; [|split].
  - unfold next_batch. erewrite bind_ret by done. rewrite Hx.
    erewrite bind_ret by exact Hdrop.
    erewrite bind_ret; [|apply catch_ret; unfold zoom; simpl; by rewrite Hg].
    erewrite bind_ret by done. simpl. rewrite Hlive. simpl.
    erewrite bind_ret; [|by apply on_batch_run]. done.
  - split; simpl; try done. rewrite Hlive. split; [by apply Hlinked|done].
  - done.
Qed.

Lemma next_batch_end e (s : BS) v0 cur later :
  tracks read linked (bs_binder s) v0 [] cur later -> exhausted (bs_binder s) ->
  exists e', next_batch e s = Ret (None, e') (mkBS (bs_error s) (bs_world s) zero_binder).
Proof.
  intros Hp Hx. destruct (drop_array_spec e _ _ _ _ _ Hp) as (e1 & a & Hdrop).
  destruct Hp as [Hsch _ Hb _ _].
  destruct (get_next_end _ a Hb) as (p' & a' & Hg & Ha' & Hlive & q & Hq).
  exists e1. unfold next_batch. erewrite bind_ret by done. rewrite Hx.
  erewrite bind_ret by exact Hdrop.
  erewrite bind_ret; [|apply catch_ret; unfold zoom; simpl; by rewrite Hg].
  erewrite bind_ret by done. simpl. rewrite Ha'. simpl.
  erewrite bind_ret; [done|]. unfold AdbcSqliteBinderRelease.
  erewrite bind_ret by done. simpl. rewrite Hsch, Hlive, Ha'. simpl.
  erewrite bind_ret.
  2:{ unfold zoom, ArrowSchemaRelease, mbind, M_bind, gets, id. simpl. by rewrite Hsch. }
  erewrite bind_ret; [|unfold zoom; simpl; by rewrite Hq]. done.
Qed.

(** The row found: of which batch, and what is left after it. *)
Definition found_row (b0 : AdbcSqliteBinder) v0 (vs : list bind_value) (rest : list (list bind_value))
    (b : AdbcSqliteBinder) : Prop :=
  bd_schema b = bd_schema b0 /\ bd_types b = bd_types b0 /\ bd_array b ∈ batches_left b0 /\
  linked v0 (bd_array b) (bd_batch b) /\ read (bd_array b) (bd_batch b) (bd_next_row b) = Some vs /\
  bd_next_row b < INT64_MAX /\ 0 <= bd_next_row b /\
  exists batches cur later, rest = cur ++ concat later /\
    tracks read linked (with_batch b (bd_params b) (bd_array b) (bd_batch b) (bd_next_row b + 1))
      v0 batches cur later.
(** The loop that looks for a row finds it, however many empty batches come first. *)
Lemma find_row_spec fuel e (s : BS) v0 batches cur later :
  tracks read linked (bs_binder s) v0 batches cur later ->
  (stream_remaining (bd_params (bs_binder s)) + 1 < fuel)%nat ->
  match cur ++ concat later with
  | [] => find_row fuel e s = Ret false (mkBS (bs_error s) (bs_world s) zero_binder)
  | vs :: rest => exists b, find_row fuel e s = Ret true (mkBS (bs_error s) (bs_world s) b) /\
      found_row (bs_binder s) v0 vs rest b
  end.
Proof.
  revert e s batches cur later. induction fuel as [|fuel IH]; intros e s batches cur later Hp Hf; [lia|].
  cbn [find_row].
  destruct (ar_release (bd_array (bs_binder s)) &&
            (bd_next_row (bs_binder s) <? ar_length (bd_array (bs_binder s)))) eqn:Hx.
  - apply andb_prop in Hx as [Ha Hn%Z.ltb_lt].
    destruct (unexhausted_cur _ _ _ _ _ Hp Ha Hn) as (vs & cur' & -> & Hk & Hv & Hp'). simpl.
    exists (bs_binder s). split; [erewrite bind_ret by (by apply next_batch_found); by destruct s|].
    destruct Hp as [_ _ _ _ Hc]. rewrite Ha in Hc. split_and!; try done; try lia.
    + unfold batches_left, current_batch. rewrite Ha. by left.
    + by exists batches, cur', later.
  - rewrite (exhausted_cur _ _ _ _ _ Hp Hx). simpl. destruct batches as [|batch batches].
    + pose proof (pd_later _ _ _ _ _ _ _ Hp) as Hl. inversion Hl; subst. simpl.
      destruct (next_batch_end e _ _ _ _ Hp Hx) as [e' He']. by erewrite bind_ret by exact He'.
    + pose proof (pd_batches _ _ _ _ _ _ _ Hp) as Hb.
      destruct (next_batch_more e _ _ _ _ _ _ Hp Hx) as (e' & p & v & cur' & later' & -> & Hnb & Hp' & Hlt).
      simpl. specialize (IH e' (mkBS (bs_error s) (bs_world s) (with_batch (bs_binder s) p batch v 0)) batches cur' later' Hp').
      simpl in IH. specialize (IH ltac:(lia)). erewrite bind_ret by exact Hnb.
      destruct (cur' ++ concat later') as [|vs rest]; [exact IH|]. destruct IH as (b & Hfind & Hs & Ht & Hin & Hrest).
      exists b. split; [exact Hfind|]. split; [done|]. split; [done|]. split; [|exact Hrest].
      pose proof (pd_batches _ _ _ _ _ _ _ Hp') as Hb'. unfold batches_left, current_batch in *. simpl in *.
      rewrite Hb. rewrite Hb' in Hin. simpl in *. apply elem_of_app. right.
      destruct (ar_release batch); simpl in Hin; [exact Hin|by right].
Qed.
End tracking_facts.

(** Binding the columns of a row changes nothing but the library. *)
Lemma bind_columns_spec conn stmt n col e w b vs d :
  mapM (column_value (bd_types b) (bd_batch b) (bd_next_row b)) (seqZ col (Z.of_nat n)) = Some vs ->
  bind_all stmt col vs (w_db w) = Some d ->
  for_loop n col (bind_column conn stmt) (mkBS e w b) =
    Ret tt (mkBS e (mkWorld d (w_held w) (w_errno w)) b).
Proof.
  revert col w vs. induction n as [|n IH]; intros col w vs Hv Hd.
  { rewrite seqZ_nil in Hv by lia. injection Hv as <-. injection Hd as <-. by destruct w. }
  rewrite seqZ_cons in Hv by lia. replace (Z.pred (Z.of_nat (S n))) with (Z.of_nat n) in Hv by lia.
  simpl in Hv. destruct (column_value _ _ _ _) as [v|] eqn:Hcv; [|done]. simpl in Hv.
  destruct (mapM _ _) as [vs'|] eqn:Hm; [|done]. injection Hv as <-. simpl in Hd.
  destruct (sqlite3_bind stmt (col + 1) v (w_db w)) as [rc d1] eqn:Hb.
  destruct (rc =? SQLITE_OK) eqn:Hrc; [|done]. cbn [for_loop].
  erewrite bind_ret; [exact (IH (col + 1) (mkWorld d1 (w_held w) (w_errno w)) vs' Hm Hd)|].
  unfold column_value in Hcv. unfold bind_column. erewrite bind_ret by done. simpl.
  destruct (view_child (bd_batch b) col) as [v1|]; [|done]. simpl in Hcv.
  erewrite bind_ret by done. destruct (ArrowArrayViewIsNull v1 (bd_next_row b)) as [null|]; [|done].
  simpl in Hcv. erewrite bind_ret by done.
  destruct (if null then Some TYPE_NA else _) as [ty|] eqn:Hty; [|done]. simpl in Hcv.
  destruct (cell_value col ty v1 (bd_next_row b)) as [[x|x]|] eqn:Hx; [done| |done].
  injection Hcv as ->. erewrite bind_ret.
  2:{ destruct null; [by injection Hty as <-|]. rewrite Hty. done. }
  erewrite bind_ret by (by rewrite Hx). cbn iota.
  erewrite bind_ret; [|unfold call; simpl; unfold db_of; simpl; by rewrite Hb].
  by rewrite Hrc.
Qed.

(** One call, whatever reads the rows, where the code reads the same row. *)
Lemma bind_found_row read linked (conn stmt : Z) (e : ErrorPtr) (w : World) (b : AdbcSqliteBinder)
  v0 batches cur later (vs : list bind_value) (rest : list (list bind_value)) (d1 d2 d3 : sqlite) :
  (forall v0 batch v, loads v0 batch v -> linked v0 batch v) ->
  tracks read linked b v0 batches cur later -> cur ++ concat later = vs :: rest ->
  (forall batch v row, batch ∈ batches_left b -> linked v0 batch v -> read batch v row = Some vs ->
     row_values (sc_n_children (bd_schema b)) (bd_types b) v row = Some vs) ->
  sqlite3_reset stmt (w_db w) = (SQLITE_OK, d1) ->
  sqlite3_clear_bindings stmt d1 = (SQLITE_OK, d2) ->
  bind_all stmt 0 vs d2 = Some d3 ->
  exists b', AdbcSqliteBinderBindNext conn stmt (mkBS e w b) =
      Ret false (mkBS e (mkWorld d3 (w_held w) (w_errno w)) b') /\
    bd_schema b' = bd_schema b /\ bd_types b' = bd_types b /\
    exists batches' cur' later', rest = cur' ++ concat later' /\ tracks read linked b' v0 batches' cur' later'.
Proof.
  intros Hlinked Hp Heq Href Hreset Hclear Hbind.
  pose proof (find_row_spec read linked Hlinked (2 + stream_remaining (bd_params b)) (Some ""%string)
    (mkBS e w b) _ _ _ _ Hp ltac:(simpl; lia)) as Hf.
  rewrite Heq in Hf. destruct Hf as (b1 & Hf & Hs1 & Ht1 & Hin & Hk & Hread & Hmax & Hn & Hrest).
  simpl in Hs1, Ht1, Hin. pose proof (Href _ _ _ Hin Hk Hread) as Hv.
  exists (with_batch b1 (bd_params b1) (bd_array b1) (bd_batch b1) (bd_next_row b1 + 1)).
  split; [|split; [exact Hs1|split; [exact Ht1|]]].
  2:{ destruct Hrest as (batches' & cur' & later' & Hr & Htr). by exists batches', cur', later'. }
  unfold AdbcSqliteBinderBindNext.
  erewrite bind_ret by done. erewrite bind_ret by exact Hf. cbn [negb].
  erewrite bind_ret; [|apply call_run; exact Hreset]. cbn [negb Z.eqb SQLITE_OK].
  erewrite bind_ret; [|apply call_run; exact Hclear]. cbn [negb Z.eqb SQLITE_OK].
  erewrite bind_ret by done. simpl. erewrite bind_ret.
  2:{ unfold for_range. rewrite Z.sub_0_r. eapply (bind_columns_spec _ _ _ _ _ _ b1 vs).
      - revert Hv. unfold row_values. rewrite Ht1, Hs1. intros <-. f_equal.
        destruct (Z.le_gt_cases 0 (sc_n_children (bd_schema b))); [by rewrite Z2Nat.id|].
        rewrite !seqZ_nil; [done|lia..].
      - exact Hbind. }
  erewrite bind_ret by done. simpl. erewrite bind_ret.
  2:{ rewrite i64_ok; [done|]. apply in_i64_intro; unfold INT64_MIN, INT64_MAX in *; lia. }
  done.
Qed.
Lemma bind_no_row read linked (conn stmt : Z) (e : ErrorPtr) (w : World) (b : AdbcSqliteBinder)
  v0 batches cur later :
  (forall v0 batch v, loads v0 batch v -> linked v0 batch v) ->
  tracks read linked b v0 batches cur later -> cur ++ concat later = [] ->
  AdbcSqliteBinderBindNext conn stmt (mkBS e w b) = Ret true (mkBS e w zero_binder).
Proof.
  intros Hlinked Hp Heq.
  pose proof (find_row_spec read linked Hlinked (2 + stream_remaining (bd_params b)) (Some ""%string)
    (mkBS e w b) _ _ _ _ Hp ltac:(simpl; lia)) as Hf.
  rewrite Heq in Hf. unfold AdbcSqliteBinderBindNext. erewrite bind_ret by done.
  by erewrite bind_ret by exact Hf.
Qed.

(** The rows as the code reads them. *)
Lemma bind_next_row (conn stmt : Z) (e : ErrorPtr) (w : World) (b : AdbcSqliteBinder)
  (vs : list bind_value) (rest : list (list bind_value)) (d1 d2 d3 : sqlite)
  (Hrows : pending_rows b (vs :: rest))
  (Hreset : sqlite3_reset stmt (w_db w) = (SQLITE_OK, d1))
  (Hclear : sqlite3_clear_bindings stmt d1 = (SQLITE_OK, d2))
  (Hbind : bind_all stmt 0 vs d2 = Some d3) :
  exists b', AdbcSqliteBinderBindNext conn stmt (mkBS e w b) =
      Ret false (mkBS e (mkWorld d3 (w_held w) (w_errno w)) b') /\
    pending_rows b' rest.
Proof.
  destruct Hrows as (v0 & batches & cur & later & Hp & Heq).
  destruct (bind_found_row _ (fun _ _ _ => True) conn stmt e w b v0 batches cur later vs rest d1 d2 d3
    ltac:(done) Hp (eq_sym Heq) ltac:(done) Hreset Hclear Hbind) as (b' & Hrun & Hs & Ht & batches' & cur' & later' & -> & Hp').
  exists b'. split; [done|]. exists v0, batches', cur', later'. split; [|done].
  unfold pending. by rewrite Hs, Ht.
Qed.
Lemma bind_next_end (conn stmt : Z) (e : ErrorPtr) (w : World) (b : AdbcSqliteBinder)
  (Hrows : pending_rows b []) :
  AdbcSqliteBinderBindNext conn stmt (mkBS e w b) = Ret true (mkBS e w zero_binder).
Proof.
  destruct Hrows as (v0 & batches & cur & later & Hp & Heq). by eapply bind_no_row; [|exact Hp|].
Qed.

(** ** The values of the format

    The code reads a column's value as the format defines it, but for the batch's offset. *)
Lemma column_value_format (types : list ArrowType) (batch : ArrowArray) (v c : ArrowArrayView)
  (a : ArrowArray) (row : Z) (i : nat) (t : ArrowType) (x : scalar) (b : bind_value) :
  types !! i = Some t -> view_child v (Z.of_nat i) = Some c -> get_child batch (Z.of_nat i) = Some a ->
  reads c a t -> plain_type t -> text_blocks types batch ->
  batch_cell batch (row - ar_offset batch) i t = Some x -> bound_value x = Some b -> exact b ->
  column_value (Some (Some <$> types)) v row (Z.of_nat i) = Some b.
Proof.
  intros Ht Hc Ha Hr Hpl Hblock Hx Hb Hex. unfold column_value. rewrite Hc. simpl.
  unfold batch_cell in Hx. rewrite Ha in Hx. simpl in Hx.
  rewrite Zplus_minus in Hx.
  unfold column_slot in Hx. apply bind_Some in Hx as (valid & Hvalid & Hx).
  rewrite (reads_null c a t row Hr Hpl valid Hvalid). simpl.
  destruct valid; simpl.
  2:{ injection Hx as <-. injection Hb as <-. unfold cell_value.
      by rewrite (reads_null c a t row Hr Hpl false Hvalid). }
  rewrite Nat2Z.id, list_lookup_fmap, Ht. simpl. unfold cell_value.
  rewrite (reads_null c a t row Hr Hpl true Hvalid). simpl.
  pose proof (slot_value_kind _ _ _ _ Hx) as Hkind. destruct x as [|z|bits|bytes]; [done|..]; simpl in Hb.
  - destruct Hkind as [[signed width] Hl]. pose proof (reads_int c a t row Hr Hpl z signed width Hl Hx) as Hz.
    destruct (Z.leb_spec z INT64_MAX); [|done]. injection Hb as <-.
    destruct signed; destruct t; try done; rewrite Hz; simpl; try done;
      by rewrite Z.gtb_ltb, (proj2 (Z.ltb_ge _ _)) by done.
  - injection Hb as <-. destruct Hex as (z & Hz1 & Hz2).
    pose proof (reads_double c a t row Hr Hpl bits Hx) as Hd.
    destruct Hkind as [-> | ->]; rewrite Hd; simpl; rewrite Hz1; simpl; by rewrite Hz2.
  - injection Hb as <-. simpl in Hex. pose proof (reads_text c a t row Hr Hpl bytes Hx) as Hd.
    destruct Hkind as [width Hw]. destruct (Hblock i t a Ht ltac:(by eexists) Ha) as [l Hl].
    rewrite (reads_block c a t Hr 2) in Hl; [|lia|by destruct t].
    pose proof (zlen_nonneg bytes). unfold INT32_MAX in Hex.
    assert (text_value (bv_data (buffer_view c 2)) bytes = Some (BindText bytes)) as Htv.
    { change (Z.of_nat 2) with 2 in Hl. unfold text_value. rewrite Hl.
      replace (to_signed 32 (zlen bytes)) with (zlen bytes).
      2:{ symmetry. rewrite <- (Z.mod_small (zlen bytes) (2 ^ 32)) at 1 by lia. apply to_signed_id; lia. }
      rewrite (proj2 (Z.leb_le _ _)) by done. rewrite take_ge; [done|]. unfold zlen. lia. }
    destruct t; try done; rewrite Hd; simpl; by rewrite Htv.
Qed.
Lemma row_values_format (schema : ArrowSchema) (types : list ArrowType) (v0 v : ArrowArrayView)
  (batch : ArrowArray) (row : Z) (vs : list bind_value) :
  column_types schema = Some types -> sc_n_children schema = zlen types ->
  opens schema v0 -> loads v0 batch v -> text_blocks types batch -> Forall exact vs ->
  parameter_row types batch (row - ar_offset batch) = Some vs ->
  row_values (sc_n_children schema) (Some (Some <$> types)) v row = Some vs.
Proof.
  intros Ht Hn Hopen Hload Hserve Hex (xs & Hxs & Hvs)%bind_Some.
  destruct (Hopen None) as [e1 He1]. destruct (Hload None) as [e2 He2].
  destruct (batch_reads schema types batch _ _ _ _ _ _ Ht Hn He1 He2) as [_ Hreads].
  apply mapM_Some in Hxs, Hvs. unfold row_values. rewrite Hn. apply mapM_Some.
  pose proof (Forall2_length _ _ _ Hxs) as Hl1. rewrite length_imap in Hl1. pose proof (Forall2_length _ _ _ Hvs) as Hl2.
  apply Forall2_same_length_lookup_2; [rewrite length_seqZ; unfold zlen; lia|].
  intros i j b Hj Hb. apply lookup_seqZ in Hj as [-> Hj].
  destruct (lookup_lt_is_Some_2 types i) as [t Hti]; [unfold zlen in Hj; lia|].
  destruct (Forall2_lookup_r _ _ _ _ _ Hvs Hb) as (x & Hx & Hbx).
  pose proof (Forall2_lookup_lr _ _ _ i _ _ Hxs ltac:(rewrite list_lookup_imap, Hti; reflexivity) Hx) as Hcell.
  destruct (Hreads i t Hti) as (c & a & Hc & Ha & Hr).
  eapply (column_value_format types batch v c a row i t x b); try done.
  - by eapply plain_types.
  - by eapply Forall_lookup_1.
Qed.

(** * Properties *)

(** C4: Parameter rows are bound in order, across batches and however many empty batches lie
    between: when the rows [vs :: rest] are left, one call resets the statement, clears its
    bindings, binds exactly the values [vs] to the parameters 1, 2, ..., reports a row, and
    leaves [rest].  The rows are those of the Arrow format: null exactly where the validity
    bitmap says so, integers by their width and sign, texts between their offsets, read from
    the batches' buffers under the types of the schema's format strings.  The batches are not
    slices, their text columns have a block and none is BINARY, and doubles of the row are whole
    numbers that survive [int64_t]; the other cases are findings. *)
Theorem BindNext_next_row (conn stmt : Z) (e : ErrorPtr) (w : World) (b : AdbcSqliteBinder)
  (types : list ArrowType) (vs : list bind_value) (rest : list (list bind_value)) (d1 d2 d3 : sqlite)
  (Hrows : parameter_rows types b (vs :: rest))
  (Hbatches : Forall (servable types) (batches_left b)) (Hexact : Forall exact vs)
  (Hreset : sqlite3_reset stmt (w_db w) = (SQLITE_OK, d1))
  (Hclear : sqlite3_clear_bindings stmt d1 = (SQLITE_OK, d2))
  (Hbind : bind_all stmt 0 vs d2 = Some d3) :
  exists b', AdbcSqliteBinderBindNext conn stmt (mkBS e w b) =
      Ret false (mkBS e (mkWorld d3 (w_held w) (w_errno w)) b') /\
    parameter_rows types b' rest.
Proof.
  destruct Hrows as [Ht Hn Hbt (v0 & batches & cur & later & Hp & Heq)].
  destruct (bind_found_row _ loads conn stmt e w b v0 batches cur later vs rest d1 d2 d3
    ltac:(done) Hp (eq_sym Heq)) as (b' & Hrun & Hs' & Ht' & batches' & cur' & later' & -> & Hp'); [|done..|].
  - intros batch v row Hin Hload Hrow. rewrite Hbt.
    rewrite Forall_forall in Hbatches. destruct (Hbatches _ Hin) as [Hoff Hblocks].
    apply (row_values_format (bd_schema b) types v0 v batch row); try done; [by destruct Hp|].
    by rewrite Hoff, Z.sub_0_r.
  - exists b'. split; [done|]. rewrite <- Hs' in Ht, Hn. rewrite <- Ht' in Hbt. split; [done..|].
    by exists v0, batches', cur', later'.
Qed.

(** When no row is left, a call reports the end, touches neither the statement nor the
    caller's error, and releases schema, stream and array: the binder is zeroed. *)
Theorem BindNext_end (conn stmt : Z) (e : ErrorPtr) (w : World) (b : AdbcSqliteBinder)
  (Hrows : pending_rows b []) :
  AdbcSqliteBinderBindNext conn stmt (mkBS e w b) = Ret true (mkBS e w zero_binder).
Proof. by apply bind_next_end. Qed.

(** The offset of a sliced batch is ignored: at row [row] the code reads the values that are
    the batch's row [row - offset]. *)
Theorem batch_offset_ignored (schema : ArrowSchema) (types : list ArrowType) (v0 v : ArrowArrayView)
  (batch : ArrowArray) (row : Z) (vs : list bind_value)
  (Htypes : column_types schema = Some types) (Hcolumns : sc_n_children schema = zlen types)
  (Hopen : opens schema v0) (Hload : loads v0 batch v) (Hblocks : text_blocks types batch)
  (Hexact : Forall exact vs)
  (Hother : parameter_row types batch (row - ar_offset batch) = Some vs) :
  row_values (sc_n_children schema) (Some (Some <$> types)) v row = Some vs.
Proof. by eapply row_values_format. Qed.

(** A text that is empty is bound as NULL when its column has no block of text, which is how
    a column of empty texts may come. *)
Theorem empty_text_bound_null (col row : Z) (view : ArrowArrayView)
  (Hvalid : ArrowArrayViewIsNull view row = Some false)
  (Hempty : ArrowArrayViewGetBytesUnsafe view row = Some [])
  (Hdata : bv_data (buffer_view view 2) = None) :
  cell_value col TYPE_STRING view row = Some (inr BindNull).
Proof. unfold cell_value. rewrite Hvalid. simpl. rewrite Hempty. simpl. by rewrite Hdata. Qed.

(** A DOUBLE parameter is bound through an [int64_t]: every value strictly between zero
    and one is bound as zero. *)
Theorem fraction_bound_as_zero (col row bits : Z) (view : ArrowArrayView)
  (Hvalid : ArrowArrayViewIsNull view row = Some false)
  (Hread : ArrowArrayViewGetDoubleUnsafe view row = Some bits)
  (Hbits : 0 < bits < 1023 * 2 ^ 52) :
  cell_value col TYPE_DOUBLE view row = Some (inr (BindDouble 0)) /\ bits <> 0.
Proof.
  split; [|lia]. unfold cell_value. rewrite Hvalid. simpl. rewrite Hread. simpl.
  by rewrite Z_of_fraction by lia.
Qed.

(** An unsigned parameter above the range of [int64_t] is refused with
    INVALID_ARGUMENT before anything is bound for it; smaller ones are bound exactly.  (The
    message lacks a space.) *)
Theorem unsigned_parameter_range (conn stmt col : Z) (s : BS) (view : ArrowArrayView) (value : Z)
  (Hview : view_child (bd_batch (bs_binder s)) col = Some view)
  (Htype : exists ts, bd_types (bs_binder s) = Some ts /\ ts !! Z.to_nat col = Some (Some TYPE_UINT64))
  (Hvalid : ArrowArrayViewIsNull view (bd_next_row (bs_binder s)) = Some false)
  (Hread : ArrowArrayViewGetUIntUnsafe view (bd_next_row (bs_binder s)) = Some value) :
  if value <=? INT64_MAX
  then column_value (bd_types (bs_binder s)) (bd_batch (bs_binder s)) (bd_next_row (bs_binder s)) col
       = Some (BindInt64 value)
  else exists e, bind_column conn stmt col s =
         Exit ADBC_STATUS_INVALID_ARGUMENT (mkBS e (bs_world s) (bs_binder s)) /\
       SetError "Column %d has unsigned integer value %luout of range of int64_t"
         [AInt col; AInt value] (bs_error s) = Ret tt e.
Proof.
  destruct Htype as (ts & Hts & Hty).
  destruct (Z.leb_spec value INT64_MAX) as [Hle|Hgt].
  - unfold column_value. rewrite Hview. simpl. rewrite Hvalid. simpl. rewrite Hts. simpl.
    rewrite Hty. simpl. unfold cell_value. rewrite Hvalid. simpl. rewrite Hread. simpl.
    by rewrite Z.gtb_ltb, (proj2 (Z.ltb_ge _ _)) by lia.
  - destruct (set_error_returns "Column %d has unsigned integer value %luout of range of int64_t"
      [AInt col; AInt value] (bs_error s)) as [e He].
    exists e. split; [|exact He]. unfold bind_column. erewrite bind_ret by done.
    erewrite bind_ret by (by rewrite Hview). erewrite bind_ret by (by rewrite Hvalid). cbn iota.
    erewrite bind_ret by (by rewrite Hts; simpl; rewrite Hty). erewrite bind_ret.
    2:{ unfold cell_value. rewrite Hvalid. simpl. rewrite Hread. simpl.
        by rewrite Z.gtb_ltb, (proj2 (Z.ltb_lt _ _)) by lia. }
    unfold fail. erewrite bind_ret; [done|]. unfold set_error, zoom.
    change (Prelude.view error_lens s) with (bs_error s). revert He. by intros ->.
Qed.
End binder_facts.

Section witnesses.
#[local] Existing Instance host.
#[local] Existing Instance Mock.mock.

(** A batch with a BIGINT column 7, NULL and a STRING column ab, empty. *)
Definition leaf (name format : string) : ArrowSchema :=
  mkSchema (Some format) (Some name) None ARROW_FLAG_NULLABLE 0 None None true false.
Definition two_columns : ArrowSchema :=
  mkSchema (Some "+s"%string) (Some ""%string) None 0 2
    (Some [Some (leaf "a" "l"); Some (leaf "b" "u")]) None true false.
Definition ints_array : ArrowArray :=
  mkArray 2 1 0 2 0 [Some [1]; Some (le_bytes 8 7 ++ le_bytes 8 0)] None None true None false.
Definition texts_array : ArrowArray :=
  mkArray 2 0 0 3 0 [None; Some (le_bytes 4 0 ++ le_bytes 4 2 ++ le_bytes 4 2); Some [97; 98]]
    None None true None false.
Definition two_rows : ArrowArray :=
  mkArray 2 0 0 1 2 [None] (Some [Some ints_array; Some texts_array]) None true None false.
(** What [AdbcSqliteBinderSet] leaves. *)
Definition schema_view : ArrowArrayView :=
  match ArrowArrayViewInitFromSchema two_columns (ArrowArrayViewReset, None) with
  | Ret _ (v, _) => v | _ => ArrowArrayViewReset
  end.
Definition batch_view : ArrowArrayView :=
  match ArrowArrayViewSetArray two_rows (schema_view, None) with
  | Ret _ (v, _) => v | _ => ArrowArrayViewReset
  end.
Definition fresh_binder (stream : InputStream) : AdbcSqliteBinder :=
  mkBinder two_columns stream (Some [Some TYPE_INT64; Some TYPE_STRING]) zero_array schema_view 0.
Definition the_rows : list (list bind_value) :=
  [[BindInt64 7; BindText [97; 98]]; [BindNull; BindText []]].
(** An empty batch comes first. *)
Definition two_batches : InputStream :=
  StreamForeign (mkForeign (0, two_columns)
    [(0, mkArray 0 0 0 1 2 [None] (Some [Some ints_array; Some texts_array]) None true None false);
     (0, two_rows)] None).

Lemma schema_opens : opens two_columns schema_view.
Proof. intros e. exists e. vm_compute. reflexivity. Defined.
Lemma rows_pending : pending_rows (fresh_binder two_batches) the_rows.
Proof.
  exists schema_view. eexists. exists []. exists [[]; the_rows]. split; [|reflexivity].
  split; [reflexivity|exact schema_opens|reflexivity| |by split].
  constructor; [|constructor; [|constructor]]; eexists;
    (split; [intros e; exists e; vm_compute; reflexivity
            |split; [vm_compute; reflexivity|discriminate]]).
Defined.
Definition param_world : World :=
  mkWorld (Mock.mkState [] [Some (Mock.mkStmt [] 2 [] 0 [])] 1 [] []) 0 0.

Lemma rows_parameters : parameter_rows [TYPE_INT64; TYPE_STRING] (fresh_binder two_batches) the_rows.
Proof.
  split; [reflexivity..|].
  exists schema_view. eexists. exists []. exists [[]; the_rows]. split; [|reflexivity].
  split; [reflexivity|exact schema_opens|reflexivity| |by split].
  constructor; [|constructor; [|constructor]]; eexists;
    (split; [intros e; exists e; vm_compute; reflexivity
            |split; [vm_compute; reflexivity|discriminate]]).
Defined.
Lemma batches_servable : Forall (servable [TYPE_INT64; TYPE_STRING]) (batches_left (fresh_binder two_batches)).
Proof.
  repeat constructor; intros [|[|i]] t a; simpl; try done; [by intros [= <-] []|by intros [= <-] _ [= <-]|
    by intros [= <-] []|by intros [= <-] _ [= <-]].
Defined.
Lemma BindNext_next_row_witness :
  exists b', AdbcSqliteBinderBindNext 1 1 (mkBS None param_world (fresh_binder two_batches)) =
    Ret false (mkBS None
      (mkWorld (Mock.mkState [] [Some (Mock.mkStmt [] 2 [] 0
                                 [(1, BindInt64 7); (2, BindText [97; 98])])] 1 [] []) 0 0) b') /\
    parameter_rows [TYPE_INT64; TYPE_STRING] b' [[BindNull; BindText []]].
Proof.
  refine (BindNext_next_row 1 1 None param_world (fresh_binder two_batches) _ _ _ _ _ _ rows_parameters
    batches_servable _ _ _ _); [|reflexivity..].
  constructor; [exact I|constructor; [discriminate|constructor]].
Defined.

(** The second of the two rows above, bound for the first row of a slice. *)
Definition sliced_batch : ArrowArray :=
  mkArray 1 0 1 1 2 [None] (Some [Some ints_array; Some texts_array]) None true None false.
Definition sliced_view : ArrowArrayView :=
  match ArrowArrayViewSetArray sliced_batch (schema_view, None) with
  | Ret _ (v, _) => v | _ => ArrowArrayViewReset
  end.
Lemma batch_offset_ignored_witness :
  row_values 2 (Some (Some <$> [TYPE_INT64; TYPE_STRING])) sliced_view 0 = Some [BindInt64 7; BindText [97; 98]] /\
  parameter_row [TYPE_INT64; TYPE_STRING] sliced_batch 0 = Some [BindNull; BindText []].
Proof.
  split; [|vm_compute; reflexivity].
  apply (batch_offset_ignored two_columns [TYPE_INT64; TYPE_STRING] schema_view sliced_view sliced_batch 0
    [BindInt64 7; BindText [97; 98]]);
    [reflexivity|reflexivity|exact schema_opens|intros e; exists e; vm_compute; reflexivity| | |vm_compute; reflexivity].
  - intros [|[|i]] t a; simpl; try done; [by intros [= <-] []|by intros [= <-] _ [= <-]].
  - constructor; [exact I|constructor; [discriminate|constructor]].
Defined.
Definition empty_text_view : ArrowArrayView :=
  mkAV (Some (mkArray 1 0 0 3 0 [None; Some (le_bytes 4 0 ++ le_bytes 4 0); None] None None true None false))
    TYPE_STRING (ArrowLayoutInit TYPE_STRING)
    [mkBV None 0; mkBV (Some (le_bytes 4 0 ++ le_bytes 4 0)) 8; mkBV None 0] 0 None None.
Lemma empty_text_bound_null_witness : cell_value 0 TYPE_STRING empty_text_view 0 = Some (inr BindNull).
Proof. apply empty_text_bound_null; reflexivity. Defined.

Lemma BindNext_end_witness :
  AdbcSqliteBinderBindNext 1 1 (mkBS None param_world
    (fresh_binder (StreamSingleBatch two_columns zero_array))) =
  Ret true (mkBS None param_world zero_binder).
Proof.
  apply (BindNext_end 1 1 None param_world). exists schema_view, [], [], [].
  split; [|reflexivity].
  split; [reflexivity|exact schema_opens|reflexivity|constructor|by split].
Defined.

(** 0.5 and a column of one UINT64. *)
Definition one_value (type : ArrowType) (bits : Z) : ArrowArrayView :=
  mkAV (Some (mkArray 1 0 0 2 0 [None; Some (le_bytes 8 bits)] None None true None false)) type
    (ArrowLayoutInit type) [mkBV None 0; mkBV (Some (le_bytes 8 bits)) 8; mkBV None 0] 0 None None.
Lemma fraction_bound_as_zero_witness :
  cell_value 0 TYPE_DOUBLE (one_value TYPE_DOUBLE (1022 * 2 ^ 52)) 0 = Some (inr (BindDouble 0)) /\
  1022 * 2 ^ 52 <> 0.
Proof.
  apply (fraction_bound_as_zero 0 0 (1022 * 2 ^ 52)); [reflexivity..|].
  split; [reflexivity|reflexivity].
Defined.

Definition unsigned_binder : AdbcSqliteBinder :=
  mkBinder two_columns StreamReleased (Some [Some TYPE_UINT64]) zero_array
    (mkAV None TYPE_STRUCT (ArrowLayoutInit TYPE_STRUCT) null_views 1
       (Some [Some (one_value TYPE_UINT64 (2 ^ 63))]) None) 0.
Lemma unsigned_parameter_range_witness :
  exists e, bind_column 1 1 0 (mkBS None param_world unsigned_binder) =
      Exit ADBC_STATUS_INVALID_ARGUMENT (mkBS e param_world unsigned_binder) /\
    SetError "Column %d has unsigned integer value %luout of range of int64_t"
      [AInt 0; AInt (2 ^ 63)] None = Ret tt e.
Proof.
  refine (unsigned_parameter_range 1 1 0 (mkBS None param_world unsigned_binder)
    (one_value TYPE_UINT64 (2 ^ 63)) (2 ^ 63) _ _ _ _); [reflexivity| |reflexivity..].
  eexists. split; reflexivity.
Defined.
End witnesses.
