(* ===== verification/ArrayStream.v ===== *)
(** nanoarrow's array stream (c/vendor/nanoarrow/nanoarrow.c, the ArrowBasicArrayStream functions): a stream
    over arrays that are set in advance.  The theorems: it serves what was put in, in order, as
    the streams of Adbc.v do, and every array is handed out or released once. *)
From stdpp Require Import base tactics list numbers option strings.
From Stdlib Require Import ZArith Lia.
From S2P Require Import Prelude CLib Buffer Schema SchemaView Array ArrayView Adbc Utils Sqlite3 Binder.

(** * The code *)
Record BasicArrayStreamPrivate := mkBasic {
  bs_schema : ArrowSchema;
  bs_n_arrays : Z;
  bs_arrays : option (list ArrowArray);
  bs_arrays_i : Z;
}.
(** [struct ArrowArrayStream *array_stream]: a null pointer, a struct that was never written,
    one whose [release] is null, or a stream of this kind. *)
Inductive BasicArrayStream :=
| BsNull
| BsIndeterminate
| BsReleased
| BsLive (private : BasicArrayStreamPrivate).

(** What [ArrowSchemaMove] and [ArrowArrayMove] leave in the source. *)
Definition moved_schema (s : ArrowSchema) : ArrowSchema :=
  mkSchema (sc_format s) (sc_name s) (sc_metadata s) (sc_flags s) (sc_n_children s)
    (sc_children s) (sc_dictionary s) false (sc_indeterminate s).
Definition moved_array : ArrowArray -> ArrowArray := set_array_release false.
(** [private->arrays[i]] *)
Definition array_at (p : BasicArrayStreamPrivate) (i : Z) : option ArrowArray :=
  l ← bs_arrays p; if 0 <=? i then l !! Z.to_nat i else None.
Definition put_array (i : Z) (a : ArrowArray) (p : BasicArrayStreamPrivate) : BasicArrayStreamPrivate :=
  mkBasic (bs_schema p) (bs_n_arrays p) (<[Z.to_nat i := a]> <$> bs_arrays p) (bs_arrays_i p).
Definition set_arrays_i (i : Z) (p : BasicArrayStreamPrivate) : BasicArrayStreamPrivate :=
  mkBasic (bs_schema p) (bs_n_arrays p) (bs_arrays p) i.

(** [array_stream->private_data], behind the test of the callbacks. *)
Definition live_private (s : BasicArrayStream) : M BasicArrayStream BasicArrayStreamPrivate :=
  match s with
  | BsNull | BsReleased => exit EINVAL
  | BsIndeterminate => undef
  | BsLive p => mret p
  end.
(** The same without a test. *)
Definition private_data (s : BasicArrayStream) : option BasicArrayStreamPrivate :=
  match s with BsLive p => Some p | _ => None end.

Section stream.
Context `{Libc}.

Definition ArrowBasicArrayStreamGetSchema : M (BasicArrayStream * ArrowSchema) unit :=
  p ← zoom fst_lens (s ← gets id; live_private s);
  zoom snd_lens (ArrowSchemaDeepCopy (bs_schema p)).

Definition ArrowBasicArrayStreamGetNext : M (BasicArrayStream * ArrowArray) unit :=
  p ← zoom fst_lens (s ← gets id; live_private s);
  if bs_arrays_i p =? bs_n_arrays p then modify (fun q => (q.1, moved_array q.2)) else
  let i := bs_arrays_i p in
  a ← lift_opt (array_at p i);
  i' ← i64 (i + 1);
  put (BsLive (set_arrays_i i' (put_array i (moved_array a) p)), a).

Definition ArrowBasicArrayStreamGetLastError : option string := None.

(** [for (i = 0; i < n_arrays; i++) if (arrays[i].release != NULL) arrays[i].release(&arrays[i]);]:
    the arrays that are released. *)
Fixpoint release_arrays (fuel : nat) (p : BasicArrayStreamPrivate) (i : Z) : option (list ArrowArray) :=
  match fuel with
  | O => Some []
  | S fuel' =>
      a ← array_at p i;
      rest ← release_arrays fuel' p (i + 1);
      Some (if ar_release a then a :: rest else rest)
  end.
(** The value, which C does not return, is what was released: the schema, if its callback was
    set, and the arrays. *)
Definition ArrowBasicArrayStreamRelease : M BasicArrayStream (option ArrowSchema * list ArrowArray) :=
  s ← gets id;
  match s with
  | BsNull | BsReleased => mret (None, [])
  | BsIndeterminate => undef
  | BsLive p =>
      let schema := if sc_release (bs_schema p) then Some (bs_schema p) else None in
      arrays ← lift_opt (release_arrays (Z.to_nat (bs_n_arrays p)) p 0);
      put BsReleased ;;
      mret (schema, arrays)
  end.

(** Sizes (LP64). *)
Definition sizeof_BasicArrayStreamPrivate := 96.
(** On the caller's stream and schema.  A product that wraps makes the loop over [arrays] leave
    its block. *)
Definition ArrowBasicArrayStreamInit (n_arrays : Z) : M (BasicArrayStream * ArrowSchema) unit :=
  if negb (malloc_ok sizeof_BasicArrayStreamPrivate) then exit ENOMEM else
  schema ← gets snd;
  modify (fun q => (q.1, moved_schema q.2)) ;;
  arrays ← (if 0 <? n_arrays then
    let size := to_unsigned 64 (n_arrays * sizeof_ArrowArray) in
    if malloc_ok (to_signed 64 size) then
      if size =? n_arrays * sizeof_ArrowArray
      then mret (Some (replicate (Z.to_nat n_arrays) indet_array)) else undef
    else zoom fst_lens ArrowBasicArrayStreamRelease ;; exit ENOMEM
  else mret None);
  modify (fun q => (BsLive (mkBasic schema n_arrays arrays 0), q.2)).

Definition ArrowBasicArrayStreamSetArray (i : Z) : M (BasicArrayStream * ArrowArray) unit :=
  q ← gets id;
  p ← lift_opt (private_data q.1);
  _ ← lift_opt (array_at p i);
  put (BsLive (put_array i q.2 p), moved_array q.2).

(** The local view is reset on every path. *)
Definition ArrowBasicArrayStreamValidate : M (BasicArrayStream * ArrowError) unit := fun q =>
  match private_data q.1 with
  | None => Undef
  | Some p =>
      match (ArrowArrayViewInitFromSchema (bs_schema p) ;;
             for_range 0 (bs_n_arrays p) (fun i =>
               a ← lift_opt (array_at p i);
               when (ar_release a) (ArrowArrayViewSetArray a))) (ArrowArrayViewReset, q.2) with
      | Ret _ (_, e) => Ret tt (q.1, e)
      | Exit c (_, e) => Exit c (q.1, e)
      | Undef => Undef
      | NoFuel => NoFuel
      end
  end.
End stream.

(** * Invariant *)
(** The block has a slot for every array, and the cursor stays in it. *)
Record basic_ok (p : BasicArrayStreamPrivate) : Prop := {
  bo_slots : zlen (default [] (bs_arrays p)) = bs_n_arrays p;
  bo_n : 0 <= bs_n_arrays p < 2 ^ 60;
  bo_cursor : 0 <= bs_arrays_i p <= bs_n_arrays p;
}.
Definition slots (p : BasicArrayStreamPrivate) : list ArrowArray := default [] (bs_arrays p).
(** The arrays that have not been served. *)
Definition pending (p : BasicArrayStreamPrivate) : list ArrowArray :=
  drop (Z.to_nat (bs_arrays_i p)) (slots p).
(** The stream of Adbc.v with the same schema and the same arrays to come. *)
Definition as_foreign (p : BasicArrayStreamPrivate) : InputStream :=
  StreamForeign (mkForeign (0, bs_schema p) (map (pair 0) (pending p)) ArrowBasicArrayStreamGetLastError).
(** The arrays a release would free. *)
Definition live : list ArrowArray -> list ArrowArray := filter (fun a => Is_true (ar_release a)).
Definition owned (p : BasicArrayStreamPrivate) : list ArrowArray := live (slots p).

(** ** Slots *)
Lemma basic_slots p : basic_ok p -> 0 < bs_n_arrays p -> bs_arrays p = Some (slots p).
Proof. intros [Hs _ _] Hn. unfold slots in *. destruct (bs_arrays p); [done|]. unfold zlen in Hs. simpl in Hs. lia. Qed.
Lemma array_at_slots p i : basic_ok p -> 0 <= i < bs_n_arrays p -> exists a, array_at p i = Some a /\ slots p !! Z.to_nat i = Some a.
Proof.
  intros Hok Hi. destruct (lookup_lt_is_Some_2 (slots p) (Z.to_nat i)) as [a Ha].
  { pose proof (bo_slots _ Hok). unfold slots, zlen in *. lia. }
  exists a. split; [|done]. unfold array_at. rewrite (basic_slots p) by (done || lia). cbn [mbind option_bind].
  by rewrite (proj2 (Z.leb_le 0 i)) by lia.
Qed.
Lemma slots_put i a p : slots (put_array i a p) = <[Z.to_nat i := a]> (slots p).
Proof. unfold slots, put_array. simpl. by destruct (bs_arrays p). Qed.
Lemma put_ok i a p : basic_ok p -> basic_ok (put_array i a p).
Proof.
  intros [Hs Hn Hc]. constructor; [|done..]. fold (slots (put_array i a p)). rewrite slots_put.
  unfold zlen in *. rewrite length_insert. exact Hs.
Qed.
Lemma pending_cons p a : basic_ok p -> slots p !! Z.to_nat (bs_arrays_i p) = Some a ->
  pending p = a :: pending (set_arrays_i (bs_arrays_i p + 1) (put_array (bs_arrays_i p) (moved_array a) p)).
Proof.
  intros [_ _ Hc] Ha. unfold pending, set_arrays_i. cbn [bs_arrays_i].
  change (slots (mkBasic ?s ?n ?l ?i)) with (default [] l).
  fold (slots (put_array (bs_arrays_i p) (moved_array a) p)). rewrite slots_put.
  replace (Z.to_nat (bs_arrays_i p + 1)) with (S (Z.to_nat (bs_arrays_i p))) by lia.
  rewrite (drop_S _ _ _ Ha). f_equal. by rewrite drop_insert_lt by lia.
Qed.
(** The arrays with a release callback, after a slot changed. *)
Definition if_live (a : ArrowArray) : list ArrowArray := if ar_release a then [a] else [].
Lemma live_cons a l : live (a :: l) = if_live a ++ live l.
Proof. unfold live. rewrite filter_cons. unfold if_live. by destruct (ar_release a). Qed.
Lemma live_insert (l : list ArrowArray) i a b : l !! i = Some b ->
  if_live b ++ live (<[i := a]> l) ≡ₚ if_live a ++ live l.
Proof.
  revert i. induction l as [|x l IH]; intros [|i] Hb; try done.
  - injection Hb as ->. simpl. rewrite !live_cons. apply Permutation_app_swap_app.
  - simpl. rewrite !live_cons, (Permutation_app_swap_app (if_live b)), (IH i Hb). apply Permutation_app_swap_app.
Qed.
Lemma owned_put i a b p : slots p !! Z.to_nat i = Some b ->
  if_live b ++ owned (put_array i a p) ≡ₚ if_live a ++ owned p.
Proof. intros Hb. unfold owned. rewrite slots_put. by apply live_insert. Qed.
Lemma release_arrays_spec p : basic_ok p -> forall fuel i, 0 <= i -> i + Z.of_nat fuel = bs_n_arrays p ->
  release_arrays fuel p i = Some (live (drop (Z.to_nat i) (slots p))).
Proof.
  intros Hok. induction fuel as [|fuel IH]; intros i Hi Hf; cbn [release_arrays].
  - rewrite drop_ge; [done|]. pose proof (bo_slots _ Hok). unfold slots, zlen in *. lia.
  - destruct (array_at_slots p i Hok) as (a & Ha & Hs); [lia|]. rewrite Ha. cbn [mbind option_bind].
    rewrite (IH (i + 1)) by lia. rewrite (drop_S _ _ _ Hs), live_cons.
    replace (Z.to_nat (i + 1)) with (S (Z.to_nat i)) by lia. unfold if_live. by destruct (ar_release a).
Qed.

(** * What the functions do *)
Section facts.
Context `{Libc}.

Lemma get_next_spec p out : basic_ok p ->
  match pending p with
  | [] => ArrowBasicArrayStreamGetNext (BsLive p, out) = Ret tt (BsLive p, moved_array out)
  | a :: rest => exists p', ArrowBasicArrayStreamGetNext (BsLive p, out) = Ret tt (BsLive p', a) /\
      basic_ok p' /\ pending p' = rest /\ bs_schema p' = bs_schema p /\ bs_n_arrays p' = bs_n_arrays p /\
      if_live a ++ owned p' ≡ₚ owned p
  end.
Proof.
  intros Hok. pose proof Hok as [Hs Hn Hc]. unfold ArrowBasicArrayStreamGetNext.
  destruct (decide (bs_arrays_i p = bs_n_arrays p)) as [He|He].
  - assert (pending p = []) as -> by (unfold pending; apply drop_ge; unfold slots, zlen in *; lia).
    cbv [mbind M_bind zoom gets id live_private mret M_ret]. simpl. by rewrite He, Z.eqb_refl.
  - destruct (array_at_slots p (bs_arrays_i p) Hok) as (a & Ha & Hsl); [lia|].
    rewrite (pending_cons p a Hok Hsl). set (p' := set_arrays_i _ _). exists p'. split_and!; [..|done|done|done|].
    + cbv [mbind M_bind zoom gets id live_private mret M_ret]. simpl.
      destruct (Z.eqb_spec (bs_arrays_i p) (bs_n_arrays p)); [done|]. rewrite Ha. simpl.
      by rewrite i64_ok by (apply in_i64_intro; unfold INT64_MIN, INT64_MAX; lia).
    + pose proof (put_ok (bs_arrays_i p) (moved_array a) p Hok) as [? _ _]. constructor; simpl in *; [done|done|lia].
    + exact (owned_put (bs_arrays_i p) (moved_array a) a p Hsl).
Qed.
Lemma set_array_spec p i a : basic_ok p -> 0 <= i < bs_n_arrays p -> exists p' old,
  ArrowBasicArrayStreamSetArray i (BsLive p, a) = Ret tt (BsLive p', moved_array a) /\ p' = put_array i a p /\
  slots p !! Z.to_nat i = Some old /\ basic_ok p' /\ if_live old ++ owned p' ≡ₚ if_live a ++ owned p.
Proof.
  intros Hok Hi. destruct (array_at_slots p i Hok Hi) as (old & Ha & Hs).
  exists (put_array i a p), old. split_and!; [|done|done|by apply put_ok|by apply owned_put].
  unfold ArrowBasicArrayStreamSetArray. cbv [mbind M_bind gets id lift_opt]. simpl. by rewrite Ha.
Qed.
Lemma release_spec p : basic_ok p -> ArrowBasicArrayStreamRelease (BsLive p) =
  Ret (if sc_release (bs_schema p) then Some (bs_schema p) else None, owned p) BsReleased.
Proof.
  intros Hok. pose proof (bo_n _ Hok). unfold ArrowBasicArrayStreamRelease. cbv [mbind M_bind gets id lift_opt].
  by rewrite (release_arrays_spec p Hok) by lia.
Qed.
Lemma basic_init_spec n st schema q : 0 <= n -> ArrowBasicArrayStreamInit n (st, schema) = Ret tt q ->
  exists p, q = (BsLive p, moved_schema schema) /\ basic_ok p /\ bs_schema p = schema /\ bs_n_arrays p = n /\
    bs_arrays_i p = 0 /\ owned p = [].
Proof.
  intros Hn. unfold ArrowBasicArrayStreamInit. destruct (malloc_ok sizeof_BasicArrayStreamPrivate); [|done].
  cbv [negb mbind M_bind gets modify mret M_ret fst snd]. unfold sizeof_ArrowArray. destruct (Z.ltb_spec 0 n) as [Hp|Hp].
  - destruct (malloc_ok _); [|by destruct (zoom _ _ _)].
    destruct (Z.eqb_spec (to_unsigned 64 (n * 80)) (n * 80)) as [He|He]; [|done].
    assert (n * 80 < 2 ^ 64) by (rewrite <- He; unfold to_unsigned; apply Z.mod_pos_bound; lia).
    intros [= <-]. eexists. split; [done|]. split_and!; try done.
    + constructor; simpl; [unfold zlen; rewrite length_replicate; lia|lia|lia].
    + unfold owned, slots. simpl. generalize (Z.to_nat n). clear. induction n as [|n IH]; [done|exact IH].
  - intros [= <-]. eexists. split; [done|]. split_and!; try done. constructor; simpl; [unfold zlen; simpl; lia|lia|lia].
Qed.

(** What a client does with a stream of [n] slots: it fills empty slots with arrays that hold
    their release callback, and asks for the next array, in any order.  The lists are the arrays
    put in and the arrays obtained. *)
Inductive basic_session (schema : ArrowSchema) (n : Z) :
    BasicArrayStreamPrivate -> list ArrowArray -> list ArrowArray -> Prop :=
| SessionInit st p moved :
    ArrowBasicArrayStreamInit n (st, schema) = Ret tt (BsLive p, moved) ->
    basic_session schema n p [] []
| SessionSet p p' i a old moved given served :
    basic_session schema n p given served ->
    ar_release a = true -> 0 <= i < n -> array_at p i = Some old -> ar_release old = false ->
    ArrowBasicArrayStreamSetArray i (BsLive p, a) = Ret tt (BsLive p', moved) ->
    basic_session schema n p' (a :: given) served
| SessionNext p p' out a given served :
    basic_session schema n p given served ->
    ArrowBasicArrayStreamGetNext (BsLive p, out) = Ret tt (BsLive p', a) ->
    basic_session schema n p' given (if_live a ++ served).

Lemma session_inv schema n p given served : 0 <= n -> basic_session schema n p given served ->
  basic_ok p /\ bs_schema p = schema /\ bs_n_arrays p = n /\ given ≡ₚ served ++ owned p.
Proof.
  intros Hn. induction 1 as [st p moved Hi|p p' i a old moved given served _ (Hok & Hsc & Hna & Hp) Hl Hr Ho Hol Hs
                            |p p' out a given served _ (Hok & Hsc & Hna & Hp) Hg].
  - destruct (basic_init_spec _ _ _ _ Hn Hi) as (? & [= <- _] & ? & ? & ? & _ & Hw). by rewrite Hw.
  - rewrite <- Hna in Hr. destruct (set_array_spec p i a Hok Hr) as (p1 & old' & Hs1 & -> & Hsl & Hok' & Hperm).
    rewrite Hs in Hs1. injection Hs1 as -> _.
    destruct (array_at_slots p i Hok Hr) as (o & Ho1 & Ho2). rewrite Ho in Ho1. injection Ho1 as <-.
    rewrite Hsl in Ho2. injection Ho2 as ->. unfold if_live in Hperm. rewrite Hol, Hl in Hperm. simpl in Hperm.
    split_and!; [done|done|done|]. rewrite Hperm, Hp. apply Permutation_middle.
  - pose proof (get_next_spec p out Hok) as Hn'. destruct (pending p) as [|b rest].
    + rewrite Hg in Hn'. injection Hn' as -> ->. split_and!; [done..|]. exact Hp.
    + destruct Hn' as (p1 & Hg1 & Hok1 & _ & Hsc1 & Hn1 & Hperm). rewrite Hg in Hg1. injection Hg1 as -> ->.
      split_and!; [done|congruence|congruence|].
      rewrite Hp, <- Hperm, <- app_assoc. apply Permutation_app_swap_app.
Qed.

(** C30: a basic array stream is a stream of its schema and of the arrays set in it: it answers
    [get_next] and [get_schema] as the stream whose remaining answers are those arrays, up to the
    allocations of the schema's copy, and goes on as that stream. *)
Theorem basic_stream_refines p out sch : basic_ok p -> schema_wf (bs_schema p) = true ->
  (exists p' out', ArrowBasicArrayStreamGetNext (BsLive p, out) = Ret tt (BsLive p', out') /\
     stream_get_next (as_foreign p, out) = Ret tt (as_foreign p', out') /\
     basic_ok p' /\ bs_schema p' = bs_schema p /\ pending p' = tail (pending p)) /\
  wp ArrowBasicArrayStreamGetSchema
    (fun _ q => q = (BsLive p, bs_schema p) /\ stream_get_schema sch (as_foreign p, sch) = Ret tt (as_foreign p, q.2))
    (fun code q => code = ENOMEM /\ q.1 = BsLive p) (BsLive p, sch).
Proof.
  intros Hok Hwf. split.
  - pose proof (get_next_spec p out Hok) as Hn. unfold stream_get_next, as_foreign.
    destruct (pending p) as [|a rest] eqn:Hp.
    + exists p, (moved_array out). split_and!; [exact Hn| |done|done|done].
      cbv [mbind M_bind gets modify fst snd]. simpl. by rewrite Hp.
    + destruct Hn as (p' & Hg & Hok' & Hp' & Hsc & _). exists p', a. split_and!; [done| |done|done|done].
      cbv [mbind M_bind gets modify fst snd]. simpl. by rewrite Hp', Hsc.
  - unfold ArrowBasicArrayStreamGetSchema. apply wp_bind, wp_zoom, wp_bind, wp_gets. cbn [id]. apply wp_ret, wp_zoom.
    eapply wp_conseq; [by apply deep_copy_spec| |].
    + intros [] t ->. done.
    + intros c t [[-> _] _]. done.
Qed.

(** C31: nothing put into a basic array stream is lost or freed twice: after any sequence of
    settings and reads, releasing the stream releases its schema and exactly the arrays put in
    that were not handed out. *)
Theorem basic_stream_conserves schema n p given served : 0 <= n -> basic_session schema n p given served ->
  exists freed, given ≡ₚ served ++ freed /\
    ArrowBasicArrayStreamRelease (BsLive p) =
      Ret (if sc_release schema then Some schema else None, freed) BsReleased.
Proof.
  intros Hn Hs. destruct (session_inv _ _ _ _ _ Hn Hs) as (Hok & <- & _ & Hp).
  exists (owned p). split; [done|]. by apply release_spec.
Qed.

(** when the block of a new stream's arrays is refused, initialisation calls the release
    function on the caller's struct before anything was stored there: on a struct that was never
    written this is undefined, and on a zeroed one the caller has lost the schema, which nobody
    releases. *)
Theorem basic_stream_init_refused n schema :
  0 < n -> n * sizeof_ArrowArray < 2 ^ 63 ->
  malloc_ok sizeof_BasicArrayStreamPrivate = true -> malloc_ok (n * sizeof_ArrowArray) = false ->
  ArrowBasicArrayStreamInit n (BsIndeterminate, schema) = Undef /\
  ArrowBasicArrayStreamInit n (BsReleased, schema) = Exit ENOMEM (BsReleased, moved_schema schema).
Proof.
  intros Hn Hb Hm Hf. unfold ArrowBasicArrayStreamInit. rewrite Hm. unfold sizeof_ArrowArray in *.
  assert (to_unsigned 64 (n * 80) = n * 80) as -> by (unfold to_unsigned; apply Z.mod_small; lia).
  assert (to_signed 64 (n * 80) = n * 80) as ->.
  { unfold to_signed. rewrite Z.mod_small by lia. by destruct (Z.ltb_spec (n * 80) (2 ^ (64 - 1))); [|lia]. }
  rewrite (proj2 (Z.ltb_lt 0 n)), Hf by lia. done.
Qed.
End facts.

(** * Examples *)
Definition one_row : ArrowArray := mkArray 1 0 0 1 0 [None] None None true None false.
Definition two_rows : ArrowArray := mkArray 2 0 0 1 0 [None] None None true None false.
Definition example_basic : BasicArrayStreamPrivate := mkBasic example_schema 2 (Some [one_row; two_rows]) 0.
Lemma basic_stream_refines_witness :
  exists p' out', ArrowBasicArrayStreamGetNext (BsLive example_basic, zero_array) = Ret tt (BsLive p', out') /\ out' = one_row.
Proof.
  destruct (basic_stream_refines (H := host) example_basic zero_array zero_schema) as ((p' & out' & Hg & _) & _);
    [by constructor; vm_compute|reflexivity|].
  exists p', out'. split; [exact Hg|]. vm_compute in Hg. injection Hg as _ <-. reflexivity.
Defined.
(** Two arrays put in, one of them read. *)
Definition after_init := mkBasic example_schema 2 (Some [indet_array; indet_array]) 0.
Definition after_read := mkBasic example_schema 2 (Some [moved_array one_row; two_rows]) 1.
Lemma example_session : basic_session (H := host) example_schema 2 after_read [two_rows; one_row] [one_row].
Proof.
  apply (SessionNext (H := host) _ _ example_basic after_read zero_array one_row _ []); [|reflexivity].
  apply (SessionSet (H := host) _ _ (put_array 0 one_row after_init) example_basic 1 two_rows indet_array
    (moved_array two_rows)); [|done|done|reflexivity|done|reflexivity].
  apply (SessionSet (H := host) _ _ after_init (put_array 0 one_row after_init) 0 one_row indet_array
    (moved_array one_row)); [|done|done|reflexivity|done|reflexivity].
  apply (SessionInit (H := host) _ _ BsIndeterminate after_init (moved_schema example_schema)). reflexivity.
Defined.
Lemma basic_stream_conserves_witness : exists freed, [two_rows; one_row] ≡ₚ [one_row] ++ freed /\
  ArrowBasicArrayStreamRelease (BsLive after_read) = Ret (Some example_schema, freed) BsReleased.
Proof.
  exact (basic_stream_conserves (H := host) example_schema 2 after_read _ _ ltac:(lia) example_session).
Defined.
Lemma basic_stream_init_refused_witness :
  ArrowBasicArrayStreamInit (H := host) (2 ^ 44) (BsIndeterminate, example_schema) = Undef.
Proof. apply (basic_stream_init_refused (H := host) (2 ^ 44) example_schema); by vm_compute. Defined.
