(* ===== verification/Columns.v ===== *)
(** Columns: nanoarrow arrays of 64-bit numbers and of texts (Array.v), from the first append
    to the reader's view (ArrayView.v).  A column stands for a list of values some of which are
    null; the validity bitmap, which is created with the first null, the offsets and the data
    buffer are its representation. *)
From stdpp Require Import base tactics list numbers option strings.
From Stdlib Require Import ZArith Lia.
From S2P Require Import Prelude CLib Buffer Schema SchemaView Array ArrayView.

(** * Arrays without children *)
Definition n_buffers (t : ArrowType) : Z := match t with TYPE_STRING => 3 | _ => 2 end.
Definition leaf_array (t : ArrowType) (n nulls : Z) (buffers : list (option (list Z)))
    (bitmap : ArrowBitmap) (b1 b2 : ArrowBuffer) : ArrowArray :=
  mkArray n nulls 0 (n_buffers t) 0 buffers None None true
    (Some (mkPrivate bitmap (b1, b2) t (ArrowLayoutInit t) true)) false.
Definition word_type (t : ArrowType) : Prop := t = TYPE_INT64 \/ t = TYPE_DOUBLE.

Section rules.
Context {t : ArrowType} {n nulls : Z} {bs : list (option (list Z))} {bm : ArrowBitmap} {b1 b2 : ArrowBuffer}.
Context {A : Type}.
Implicit Types (Q : A -> ArrowArray -> Prop) (E : Z -> ArrowArray -> Prop).

Lemma wp_leaf_private (k : ArrowArrayPrivateData -> M ArrowArray A) Q E :
  wp (k (mkPrivate bm (b1, b2) t (ArrowLayoutInit t) true)) Q E (leaf_array t n nulls bs bm b1 b2) ->
  wp (private ≫= k) Q E (leaf_array t n nulls bs bm b1 b2).
Proof. done. Qed.
Lemma wp_leaf_data m Q E :
  wp m (fun x b => Q x (leaf_array t n nulls bs bm b b2)) (fun c b => E c (leaf_array t n nulls bs bm b b2)) b1 ->
  wp (ArrowArrayBuffer 1 m) Q E (leaf_array t n nulls bs bm b1 b2).
Proof. unfold wp, ArrowArrayBuffer, on_private, private, mbind, M_bind, zoom. simpl. by destruct (m b1). Qed.
Lemma wp_leaf_texts m Q E :
  wp m (fun x b => Q x (leaf_array t n nulls bs bm b1 b)) (fun c b => E c (leaf_array t n nulls bs bm b1 b)) b2 ->
  wp (ArrowArrayBuffer 2 m) Q E (leaf_array t n nulls bs bm b1 b2).
Proof. unfold wp, ArrowArrayBuffer, on_private, private, mbind, M_bind, zoom. simpl. by destruct (m b2). Qed.
Lemma wp_leaf_bitmap m Q E :
  wp m (fun x b => Q x (leaf_array t n nulls bs b b1 b2)) (fun c b => E c (leaf_array t n nulls bs b b1 b2)) bm ->
  wp (ArrowArrayValidityBitmap m) Q E (leaf_array t n nulls bs bm b1 b2).
Proof. unfold wp, ArrowArrayValidityBitmap, on_private, private, mbind, M_bind, zoom. simpl. by destruct (m bm). Qed.
End rules.

(** * What a column stands for

    The validity bits of its elements, and what its two other buffers contain. *)
Fixpoint count_null (valid : list bool) : Z :=
  match valid with [] => 0 | v :: r => Z.b2z (negb v) + count_null r end.
Lemma count_null_snoc valid v : count_null (valid ++ [v]) = count_null valid + Z.b2z (negb v).
Proof. induction valid as [|x valid IH]; simpl; [|rewrite IH]; lia. Qed.
Lemma count_null_nonneg valid : 0 <= count_null valid.
Proof. induction valid as [|[] valid IH]; simpl; lia. Qed.
Lemma count_null_all valid : count_null valid = 0 -> valid = replicate (length valid) true.
Proof.
  induction valid as [|[] valid IH]; simpl; [done| |].
  - intros H. f_equal. by apply IH.
  - pose proof (count_null_nonneg valid). lia.
Qed.

(** Without a null there is no bitmap. *)
Definition validity (valid : list bool) (bm : ArrowBitmap) : Prop :=
  (bm = ArrowBitmapInit /\ count_null valid = 0) \/
  (bitmap_ok bm /\ bitmap_bits bm = valid /\ 0 < count_null valid).
Definition leaf (t : ArrowType) (valid : list bool) (c1 c2 : list Z) (a : ArrowArray) : Prop :=
  exists bs bm b1 b2, a = leaf_array t (zlen valid) (count_null valid) bs bm b1 b2 /\
    buffer_ok b1 /\ buffer_ok b2 /\ buf_content b1 = c1 /\ buf_content b2 = c2 /\ validity valid bm.

(** A bitmap with bits has a block. *)
Lemma bits_block bm valid : bitmap_ok bm -> bitmap_bits bm = valid -> 0 < count_null valid ->
  is_Some (buf_data (bm_buffer bm)).
Proof.
  intros [[_ Hs Hb _ _] Hz Hby] Hv Hc. destruct (buf_data (bm_buffer bm)); [done|].
  assert (bm_size_bits bm = 0) as Hz0.
  { rewrite bytes_for_bits_ceil in Hby by done. unfold block_of, zlen in Hb. simpl in Hb.
    assert ((bm_size_bits bm + 7) / 8 = 0) by lia. Z.to_euclidean_division_equations; lia. }
  unfold bitmap_bits in Hv. rewrite Hz0 in Hv. simpl in Hv. subst valid. done.
Qed.
Lemma bits_size bm valid : bitmap_ok bm -> bitmap_bits bm = valid -> bm_size_bits bm = zlen valid.
Proof. intros [_ Hz _] <-. unfold zlen. rewrite length_bitmap_bits. lia. Qed.

Section append.
Context `{Libc} `{!LibcBound}.

(** The empty range at the start of a bitmap: the first byte is overwritten, no bit is there yet. *)
Lemma append_no_bits bm E : bitmap_ok bm -> bm_size_bits bm = 0 -> 1 <= 8 * buf_capacity_bytes (bm_buffer bm) ->
  wp (ArrowBitmapAppendUnsafe 1 0) (fun _ m => bitmap_ok m /\ bitmap_bits m = [] /\ bm_size_bits m = 0 /\
    buf_capacity_bytes (bm_buffer m) = buf_capacity_bytes (bm_buffer bm)) E bm.
Proof.
  intros [Hok _ Hby] Hz Hc. pose proof Hok as [Ha Hs Hb Hc' Hy]. unfold ArrowBitmapAppendUnsafe.
  apply wp_bind, wp_gets. cbn [id]. destruct (buf_data (bm_buffer bm)) as [l|] eqn:Hd.
  2:{ simpl in Hb. unfold zlen in Hb. simpl in Hb. lia. }
  apply wp_bind, wp_ret. rewrite Hz. simpl in Hb, Hy.
  destruct l as [|x l]; [unfold zlen in Hb; simpl in Hb; lia|].
  assert (ArrowBitsSetTo (x :: l) 0 0 1 = set_byte (x :: l) 0 (Z.lor (Z.land x 0) (to_unsigned 8 (Z.land 255 (-1))))) as ->
    by reflexivity.
  pose proof (write_at_Some (x :: l) 0 [Z.lor (Z.land x 0) (to_unsigned 8 (Z.land 255 (-1)))]) as Hw.
  change (zlen [_]) with 1 in Hw. specialize (Hw ltac:(lia) ltac:(unfold zlen; simpl; lia)).
  apply wp_bind. eapply wp_lift_opt; [exact Hw|]. apply wp_bind, wp_i64; [done|]. apply wp_put.
  change (_ArrowBytesForBits (0 + 0)) with 0. split_and!; [|done..]. constructor; cbn [bm_buffer bm_size_bits]; [|done|done].
  constructor; cbn [buf_allocator buf_size_bytes buf_capacity_bytes buf_data set_size set_data block_of default];
    [done|lia| |done|].
  - rewrite <- Hb. exact (write_at_len _ _ _ _ Hw).
  - eapply write_at_byte; [exact Hw|done|]. rewrite Z.land_0_r. by repeat constructor.
Qed.

(** The bit of one more element: nothing is stored for valid elements before the first null. *)
Definition no_memory {S} (c : Z) (_ : S) : Prop := c = ENOMEM.
Lemma append_bit valid v bm : bitmap_ok bm -> bitmap_bits bm = valid -> 0 < count_null (valid ++ [v]) ->
  wp (ArrowBitmapAppend (Z.b2z v) 1) (fun _ m => validity (valid ++ [v]) m) no_memory bm.
Proof.
  intros Hok <- Hc. eapply wp_conseq; [by apply bitmap_append_spec|intros [] m [Hok' Hb]; by right|by intros c m [-> _]].
Qed.
Lemma finish_append_spec t valid bs bm b1 b2 : validity valid bm -> zlen valid < 2 ^ 48 ->
  wp finish_append (fun _ a => exists bm', a = leaf_array t (zlen (valid ++ [true])) (count_null (valid ++ [true])) bs bm' b1 b2 /\
      validity (valid ++ [true]) bm') no_memory
    (leaf_array t (zlen valid) (count_null valid) bs bm b1 b2).
Proof.
  intros Hv Hn. pose proof (zlen_nonneg valid). unfold finish_append. apply wp_leaf_private. cbn [pd_bitmap].
  assert (count_null (valid ++ [true]) = count_null valid) as Hcn by (rewrite count_null_snoc; simpl; lia).
  assert (wp (when (bool_decide (is_Some (buf_data (bm_buffer bm)))) (ArrowArrayValidityBitmap (ArrowBitmapAppend 1 1)))
    (fun _ a => exists bm', a = leaf_array t (zlen valid) (count_null valid) bs bm' b1 b2 /\ validity (valid ++ [true]) bm')
    no_memory (leaf_array t (zlen valid) (count_null valid) bs bm b1 b2)) as Hbit.
  { destruct Hv as [[-> Hc]|(Hok & Hb & Hc)].
    - apply wp_ret. exists ArrowBitmapInit. split; [done|]. left. by rewrite Hcn.
    - rewrite bool_decide_true by by eapply bits_block. apply wp_leaf_bitmap.
      eapply wp_conseq; [by apply (append_bit valid true); rewrite ?Hcn| |done]. intros [] m Hm. by exists m. }
  apply wp_bind. eapply wp_conseq; [exact Hbit| |done]. intros [] a (bm' & -> & Hv').
  unfold add_length. apply wp_bind, wp_gets, wp_bind. cbn [id leaf_array ar_length].
  apply wp_i64; [unfold INT64_MIN, INT64_MAX; lia|]. apply wp_modify. exists bm'. split; [|done].
  unfold leaf_array, set_length. cbn. by rewrite Hcn, zlen_app.
Qed.
Lemma append_validity_spec t valid bs bm b1 b2 : validity valid bm -> zlen valid < 2 ^ 48 ->
  wp (append_validity 1 false)
    (fun _ a => exists bm', a = leaf_array t (zlen valid) (count_null valid) bs bm' b1 b2 /\ validity (valid ++ [false]) bm')
    no_memory (leaf_array t (zlen valid) (count_null valid) bs bm b1 b2).
Proof.
  intros Hv Hn. pose proof (zlen_nonneg valid) as Hn0. pose proof (count_null_nonneg valid).
  assert (0 < count_null (valid ++ [false])) as Hcn by (rewrite count_null_snoc; simpl; lia).
  unfold append_validity. apply wp_leaf_private. cbn [pd_bitmap]. apply wp_bind, wp_gets. cbn [leaf_array ar_length].
  destruct Hv as [[-> Hc]|(Hok & Hb & Hc)].
  - cbn [ArrowBitmapInit bm_buffer ArrowBufferInit buf_data when negb]. apply wp_leaf_bitmap, wp_bind.
    eapply wp_conseq; [apply bitmap_reserve_spec; [done|lia]| |by intros c m [-> _]].
    intros [] m (Hok & Hb & Hs & Hcap). cbn [bm_size_bits ArrowBitmapInit] in Hs, Hcap. apply wp_bind.
    assert (wp (ArrowBitmapAppendUnsafe 1 (zlen valid))
      (fun _ m' => bitmap_ok m' /\ bitmap_bits m' = valid /\ buf_capacity_bytes (bm_buffer m') = buf_capacity_bytes (bm_buffer m))
      no_memory m) as Hones.
    { destruct (decide (zlen valid = 0)) as [Hz|Hz].
      - rewrite Hz. eapply wp_conseq; [apply append_no_bits with (E := no_memory); [done|done|lia]| |done].
        intros [] m' (Hok' & Hb' & _ & Hcap'). destruct valid; [done|]. unfold zlen in Hz. simpl in Hz. lia.
      - eapply wp_conseq; [apply (bitmap_append_unsafe_spec m true) with (E := no_memory); [done|lia|lia]| |done].
        intros [] m' (Hok' & Hb' & Hcap'). split_and!; [done| |done]. rewrite Hb', Hb, (count_null_all valid Hc).
        unfold zlen. by rewrite length_replicate, Nat2Z.id. }
    eapply wp_conseq; [exact Hones| |done]. intros [] m' (Hok' & Hb' & Hcap').
    pose proof (bits_size m' valid Hok' Hb') as Hsz.
    eapply wp_conseq; [apply (bitmap_append_unsafe_spec m' false) with (E := no_memory); [done|lia|lia]| |done].
    intros [] m2 (Hok2 & Hb2 & _). exists m2. split; [done|]. right. split_and!; [done| |done]. by rewrite Hb2, Hb'.
  - destruct (bits_block _ _ Hok Hb Hc) as [l Hl]. rewrite Hl. apply wp_leaf_bitmap.
    change (wp (ArrowBitmapAppend (Z.b2z false) 1)
      (fun _ b => exists bm', leaf_array t (zlen valid) (count_null valid) bs b b1 b2 =
         leaf_array t (zlen valid) (count_null valid) bs bm' b1 b2 /\ validity (valid ++ [false]) bm') no_memory bm).
    eapply wp_conseq; [by apply (append_bit valid false)| |done]. intros [] m Hm. by exists m.
Qed.
End append.

(** * Columns of values *)
Definition is_value {A} (o : option A) : bool := match o with Some _ => true | None => false end.
Definition word_bytes (ws : list (option Z)) : list Z := flat_map (le_bytes 8) (map (default 0) ws).
Definition text_list (ts : list (option (list Z))) : list (list Z) := map (default []) ts.
Definition offset_bytes (ts : list (option (list Z))) : list Z :=
  flat_map (le_bytes 4) (offsets_from 0 (text_list ts)).
Definition text_bytes (ts : list (option (list Z))) : list Z := concat (text_list ts).
Definition words (t : ArrowType) (ws : list (option Z)) : ArrowArray -> Prop :=
  leaf t (map is_value ws) (word_bytes ws) [].
Definition texts (ts : list (option (list Z))) : ArrowArray -> Prop :=
  leaf TYPE_STRING (map is_value ts) (offset_bytes ts) (text_bytes ts).

Lemma zlen_map {A B} (f : A -> B) l : zlen (map f l) = zlen l.
Proof. unfold zlen. by rewrite length_map. Qed.
Lemma zlen_cons {A} (x : A) l : zlen (x :: l) = 1 + zlen l.
Proof. unfold zlen. simpl. lia. Qed.
Lemma zlen_snoc {A} (x : A) l : zlen (l ++ [x]) = zlen l + 1.
Proof. by rewrite zlen_app. Qed.
Lemma zlen_word_bytes ws : zlen (word_bytes ws) = 8 * zlen ws.
Proof. unfold word_bytes, zlen. rewrite flat_map_length, length_map. lia. Qed.
Lemma zlen_offset_bytes ts : zlen (offset_bytes ts) = 4 * (zlen ts + 1).
Proof. unfold offset_bytes, text_list, zlen. rewrite flat_map_length, offsets_length, length_map. lia. Qed.
Lemma word_bytes_snoc ws w : word_bytes (ws ++ [w]) = word_bytes ws ++ le_bytes 8 (default 0 w).
Proof. unfold word_bytes. rewrite map_app. apply flat_map_snoc. Qed.
Lemma text_bytes_snoc ts t : text_bytes (ts ++ [t]) = text_bytes ts ++ default [] t.
Proof. unfold text_bytes, text_list. rewrite map_app, concat_app. simpl. by rewrite app_nil_r. Qed.
Lemma offset_bytes_snoc ts t :
  offset_bytes (ts ++ [t]) = offset_bytes ts ++ le_bytes 4 (zlen (text_bytes (ts ++ [t]))).
Proof.
  unfold offset_bytes, text_bytes, text_list. rewrite map_app. cbn [map]. by rewrite offsets_snoc, flat_map_snoc.
Qed.
(** The content of a buffer bounds the column. *)
Lemma content_bound b c : buffer_ok b -> buf_content b = c -> zlen c = buf_size_bytes b /\ zlen c < 2 ^ 48.
Proof. intros Hok <-. rewrite zlen_buf_content by done. destruct Hok as [_ ? _ ? _]. lia. Qed.

(** ** Appending *)
Section values.
Context `{Libc} `{!LibcBound}.

Lemma append_data t valid bs bm b1 b2 bytes : buffer_ok b1 -> Forall is_byte bytes -> zlen bytes <= 2 ^ 62 ->
  wp (ArrowArrayBuffer 1 (ArrowBufferAppend bytes))
    (fun _ a => exists b, a = leaf_array t (zlen valid) (count_null valid) bs bm b b2 /\ buffer_ok b /\
       buf_content b = buf_content b1 ++ bytes) no_memory
    (leaf_array t (zlen valid) (count_null valid) bs bm b1 b2).
Proof.
  intros Hok Hb Hz. apply wp_leaf_data. eapply wp_conseq; [by apply append_spec| |by intros c b [-> _]].
  intros [] b [Hok' Hc]. by exists b.
Qed.

(** The two functions that append a number. *)
Definition append_word (t : ArrowType) (v : Z) : M ArrowArray unit :=
  match t with TYPE_INT64 => ArrowArrayAppendInt v | _ => ArrowArrayAppendDouble v end.
Lemma word_appended t ws v a : word_type t -> words t ws a ->
  wp (append_word t v) (fun _ => words t (ws ++ [Some v])) no_memory a.
Proof.
  intros Ht (bs & bm & b1 & b2 & -> & Hok1 & Hok2 & Hc1 & Hc2 & Hv).
  destruct (content_bound b1 _ Hok1 Hc1) as [_ Hn]. rewrite zlen_word_bytes in Hn.
  set (valid := map is_value ws) in *. assert (zlen valid = zlen ws) as Hz by apply zlen_map.
  assert (wp (ArrowArrayBuffer 1 (ArrowBufferAppend (le_bytes 8 v)) ;; finish_append)
    (fun _ => words t (ws ++ [Some v])) no_memory (leaf_array t (zlen valid) (count_null valid) bs bm b1 b2)) as Hw.
  { apply wp_bind. eapply wp_conseq; [apply append_data; [done|apply le_bytes_byte|by rewrite zlen_le_bytes]| |done].
    intros [] a (b & -> & Hok & Hc). eapply wp_conseq; [by apply finish_append_spec; [|lia]| |done].
    intros [] a (bm' & -> & Hv'). exists bs, bm', b, b2.
    assert (map is_value (ws ++ [Some v]) = valid ++ [true]) as -> by by rewrite map_app.
    split_and!; [done..| |done|done]. by rewrite Hc, Hc1, word_bytes_snoc. }
  by destruct Ht as [-> | ->].
Qed.

Lemma empty_word bs t n bm b1 b2 nulls Q E : word_type t ->
  wp (ArrowBufferAppendFill 0 8) (fun _ b => Q tt (leaf_array t n nulls bs bm b b2))
    (fun c b => E c (leaf_array t n nulls bs bm b b2)) b1 ->
  wp (append_buffers (ArrowLayoutInit t) 1) Q E (leaf_array t n nulls bs bm b1 b2).
Proof.
  intros Ht Hw. assert (wp (ArrowArrayBuffer 1 (ArrowBufferAppendFill 0 8) ;; mret tt) Q E (leaf_array t n nulls bs bm b1 b2)) as Hg.
  { apply wp_bind, wp_leaf_data. eapply wp_conseq; [exact Hw| |done]. by intros [] b HQ. }
  by destruct Ht as [-> | ->].
Qed.
(** A null of a leaf type: its bit, its place in the buffers, its count. *)
Definition null_leaf (t : ArrowType) : M ArrowArray unit :=
  append_validity 1 false ;;
  append_buffers (ArrowLayoutInit t) 1 ;;
  add_length 1 ;;
  modify (fun a => set_null_count (ar_null_count a + 1) a).
Lemma append_null_leaf t valid bs bm b1 b2 Q E : word_type t \/ t = TYPE_STRING ->
  wp (null_leaf t) Q E (leaf_array t (zlen valid) (count_null valid) bs bm b1 b2) ->
  wp (ArrowArrayAppendNull 1) Q E (leaf_array t (zlen valid) (count_null valid) bs bm b1 b2).
Proof. intros Ht Hw. by destruct Ht as [[-> | ->] | ->]. Qed.
Lemma null_leaf_spec t valid c1 c2 d1 Q : zlen valid < 2 ^ 48 ->
  (forall a, leaf t (valid ++ [false]) (c1 ++ d1) c2 a -> Q tt a) ->
  (forall bs bm b1 b2, buffer_ok b1 -> buffer_ok b2 -> buf_content b1 = c1 -> buf_content b2 = c2 ->
     wp (append_buffers (ArrowLayoutInit t) 1)
       (fun _ a => exists b, a = leaf_array t (zlen valid) (count_null valid) bs bm b b2 /\ buffer_ok b /\
          buf_content b = c1 ++ d1) no_memory (leaf_array t (zlen valid) (count_null valid) bs bm b1 b2)) ->
  forall a, leaf t valid c1 c2 a -> wp (null_leaf t) Q no_memory a.
Proof.
  intros Hn HQ Hbuf a (bs & bm & b1 & b2 & -> & Hok1 & Hok2 & Hc1 & Hc2 & Hv). pose proof (zlen_nonneg valid).
  unfold null_leaf. apply wp_bind. eapply wp_conseq; [by apply append_validity_spec| |done].
  intros [] a (bm' & -> & Hv'). apply wp_bind. eapply wp_conseq; [by apply Hbuf| |done].
  intros [] a (b & -> & Hok & Hc). apply wp_bind. unfold add_length. apply wp_bind, wp_gets, wp_bind.
  cbn [id leaf_array ar_length]. apply wp_i64; [unfold INT64_MIN, INT64_MAX; lia|]. apply wp_modify, wp_modify.
  apply HQ. exists bs, bm', b, b2. split_and!; [|done..].
  unfold leaf_array, set_length, set_null_count. cbn. by rewrite count_null_snoc, zlen_app.
Qed.

Lemma append_null_word t ws a : word_type t -> words t ws a ->
  wp (ArrowArrayAppendNull 1) (fun _ => words t (ws ++ [None])) no_memory a.
Proof.
  intros Ht Hw. pose proof Hw as (bs & bm & b1 & b2 & -> & Hok1 & _ & Hc1 & _).
  destruct (content_bound b1 _ Hok1 Hc1) as [_ Hn]. rewrite zlen_word_bytes in Hn.
  assert (zlen (map is_value ws) = zlen ws) as Hz by apply zlen_map.
  apply append_null_leaf; [by left|].
  eapply (null_leaf_spec t (map is_value ws) (word_bytes ws) [] (replicate 8 0)); [lia| | |exact Hw].
  - intros a Ha. unfold words. rewrite map_app, word_bytes_snoc. exact Ha.
  - intros bs' bm' b1' b2' Ho1 Ho2 Hb1 Hb2. apply empty_word; [done|].
    eapply wp_conseq; [by apply append_fill_spec|intros [] b [Hok Hc]|by intros c b [-> _]].
    exists b. split_and!; [done..|]. by rewrite Hc, Hb1.
Qed.

(** *** Texts *)
Lemma last_offset_read ts b : buffer_ok b -> buf_content b = offset_bytes ts ->
  zlen (text_bytes ts) <= INT32_MAX ->
  exists l, buf_data b = Some l /\ read_at l (4 * zlen ts) 4 = Some (le_bytes 4 (zlen (text_bytes ts))) /\
    le_sint (le_bytes 4 (zlen (text_bytes ts))) = zlen (text_bytes ts).
Proof.
  intros Hok Hc Hz. pose proof (zlen_nonneg ts). pose proof (zlen_nonneg (text_bytes ts)).
  destruct (content_bound b _ Hok Hc) as [Hs _]. rewrite zlen_offset_bytes in Hs.
  destruct (read_content b (4 * zlen ts) 4 Hok) as (l & Hl & Hr); [lia..|].
  exists l. split_and!; [done| |]. 2:{ apply le_sint_le_bytes; [lia|]. unfold INT32_MAX in Hz. simpl. lia. }
  rewrite Hr, Hc. f_equal. replace (Z.to_nat (4 * zlen ts)) with (4 * length ts)%nat by (unfold zlen; lia).
  change (Z.to_nat 4) with 4%nat. apply flat_map_lookup. pose proof (offsets_last 0 (text_list ts)) as Hlast.
  assert (length (text_list ts) = length ts) as Hlen by apply length_map. rewrite Hlen in Hlast. exact Hlast.
Qed.
Lemma text_appended ts v a : texts ts a -> zlen (text_bytes (ts ++ [Some v])) <= INT32_MAX -> Forall is_byte v ->
  wp (ArrowArrayAppendBytes v) (fun _ => texts (ts ++ [Some v])) no_memory a.
Proof.
  intros (bs & bm & b1 & b2 & -> & Hok1 & Hok2 & Hc1 & Hc2 & Hv) Hmax Hby.
  destruct (content_bound b1 _ Hok1 Hc1) as [_ Hn]. rewrite zlen_offset_bytes in Hn.
  assert (zlen (map is_value ts) = zlen ts) as Hz by apply zlen_map.
  assert (zlen (text_bytes (ts ++ [Some v])) = zlen (text_bytes ts) + zlen v) as Hsum by
    (rewrite text_bytes_snoc; apply zlen_app).
  pose proof (zlen_nonneg v). pose proof (zlen_nonneg ts). pose proof (zlen_nonneg (text_bytes ts)).
  destruct (last_offset_read ts b1 Hok1 Hc1) as (l & Hl & Hread & Hint); [lia|].
  unfold ArrowArrayAppendBytes. apply wp_leaf_private. apply wp_bind, wp_gets. cbn [leaf_array ar_length pd_storage_type].
  rewrite Hz. apply wp_bind, wp_bind, wp_leaf_data. unfold read_elem. apply wp_bind, wp_gets. cbn [id].
  apply wp_bind. eapply wp_lift_opt; [exact Hl|]. apply wp_bind. eapply wp_lift_opt; [exact Hread|].
  apply wp_ret. rewrite Hint, Z.gtb_ltb.
  rewrite (proj2 (Z.ltb_ge INT32_MAX _)) by lia. rewrite <- Hz.
  apply wp_bind. eapply wp_conseq; [apply append_data; [done|apply le_bytes_byte|by rewrite zlen_le_bytes]| |done].
  intros [] a (b1' & -> & Hok1' & Hc1'). apply wp_leaf_texts.
  eapply wp_conseq; [apply append_spec; [done..|unfold INT32_MAX in *; lia]| |by intros c b [-> _]].
  intros [] b2' [Hok2' Hc2']. eapply wp_conseq; [by apply finish_append_spec; [|lia]| |done].
  intros [] a (bm' & -> & Hv'). exists bs, bm', b1', b2'. rewrite map_app. split_and!; [done..| | |done].
  - by rewrite Hc1', Hc1, offset_bytes_snoc, Hsum.
  - by rewrite Hc2', Hc2, text_bytes_snoc.
Qed.
Lemma append_null_text ts a : texts ts a -> zlen (text_bytes ts) <= INT32_MAX ->
  wp (ArrowArrayAppendNull 1) (fun _ => texts (ts ++ [None])) no_memory a.
Proof.
  intros Hw Hmax. pose proof Hw as (bs & bm & b1 & b2 & -> & Hok1 & _ & Hc1 & _).
  destruct (content_bound b1 _ Hok1 Hc1) as [_ Hn]. rewrite zlen_offset_bytes in Hn.
  assert (zlen (map is_value ts) = zlen ts) as Hz by apply zlen_map. pose proof (zlen_nonneg ts).
  assert (text_bytes (ts ++ [None]) = text_bytes ts) as Hnone by (rewrite text_bytes_snoc; apply app_nil_r).
  apply append_null_leaf; [by right|].
  eapply (null_leaf_spec TYPE_STRING (map is_value ts) (offset_bytes ts) (text_bytes ts)
            (le_bytes 4 (zlen (text_bytes ts)))); [lia| | |exact Hw].
  - intros a Ha. unfold texts. by rewrite map_app, offset_bytes_snoc, Hnone.
  - intros bs' bm' b1' b2' Ho1 Ho2 Hb1 Hb2.
    change (wp (append_offsets 1 4 1 ;; mret tt)
      (fun _ a => exists b, a = leaf_array TYPE_STRING (zlen (map is_value ts)) (count_null (map is_value ts)) bs' bm' b b2' /\
         buffer_ok b /\ buf_content b = offset_bytes ts ++ le_bytes 4 (zlen (text_bytes ts))) no_memory
      (leaf_array TYPE_STRING (zlen (map is_value ts)) (count_null (map is_value ts)) bs' bm' b1' b2')).
    apply wp_bind. unfold append_offsets. apply wp_bind, wp_gets. cbn [leaf_array ar_length].
    apply wp_leaf_data, wp_bind. eapply wp_conseq; [by apply reserve_spec| |by intros c b [-> _]].
    intros [] b (Hok & Hc & Hs & Hcap & _). rewrite Hb1 in Hc. unfold for_range. change (Z.to_nat (1 - 0)) with 1%nat.
    cbn [for_loop]. apply wp_bind, wp_bind, wp_gets. cbn [id].
    destruct (last_offset_read ts b Hok Hc Hmax) as (l & Hl & Hread & _).
    apply wp_bind. eapply wp_lift_opt; [exact Hl|]. apply wp_bind. eapply wp_lift_opt; [rewrite Z.add_0_r, Hz; exact Hread|].
    eapply wp_conseq; [apply (append_unsafe_spec b) with (E := no_memory); [done|apply le_bytes_byte|rewrite zlen_le_bytes; lia]| |done].
    intros [] b' (Hok' & Hc' & _). apply wp_ret, wp_ret. exists b'. split_and!; [done..|]. by rewrite Hc', Hc.
Qed.
End values.

(** * Finished columns and their views *)
(** The block of the texts may hold more than them. *)
Definition built (t : ArrowType) (valid : list bool) (c1 c2 : list Z) (a : ArrowArray) : Prop :=
  exists bm b1 b2, a = leaf_array t (zlen valid) (count_null valid)
      [buf_data (bm_buffer bm); buf_data b1; buf_data b2] bm b1 b2 /\
    buffer_ok b1 /\ buffer_ok b2 /\ buf_content b1 = c1 /\ c2 `prefix_of` buf_content b2 /\ validity valid bm.
Definition leaf_view (t : ArrowType) (v : ArrowArrayView) : Prop :=
  exists array views, v = mkAV array t (ArrowLayoutInit t) views 0 (Some []) None.
Definition leaf_type (t : ArrowType) : Prop := word_type t \/ t = TYPE_STRING.
(** How many bytes a view of [n] elements expects in the second buffer. *)
Definition data_size (t : ArrowType) (n : Z) : Z :=
  match t with TYPE_STRING => if n =? 0 then 0 else 4 * (n + 1) | _ => 8 * n end.
Definition sized_view (t : ArrowType) (array : option ArrowArray) (n : Z) : ArrowArrayView :=
  mkAV array t (ArrowLayoutInit t) [mkBV None (_ArrowBytesForBits n); mkBV None (data_size t n); mkBV None 0] 0
    (Some []) None.

Lemma round_up_words n : 0 <= n -> _ArrowRoundUpToMultipleOf8 (64 * n) ÷ 8 = 8 * n.
Proof.
  intros Hn. unfold _ArrowRoundUpToMultipleOf8. change 7 with (Z.ones 3).
  rewrite <- Z.ldiff_land, Z.ldiff_ones_r, Z.shiftr_div_pow2, Z.shiftl_mul_pow2 by lia.
  change (Z.ones 3) with 7. change (2 ^ 3) with 8. Z.to_euclidean_division_equations; lia.
Qed.
Lemma leaf_sizes t n : leaf_type t -> 0 <= n < 2 ^ 48 ->
  view_size (ArrowLayoutInit t) n 0 = Some (_ArrowBytesForBits n) /\
  view_size (ArrowLayoutInit t) n 1 = Some (data_size t n) /\
  view_size (ArrowLayoutInit t) n 2 = Some 0.
Proof.
  intros Ht Hn. assert (forall z, 0 <= z < 2 ^ 60 -> i64_opt z = Some z) as Hi.
  { intros z Hz. unfold i64_opt. by rewrite in_i64_intro by (unfold INT64_MIN, INT64_MAX; lia). }
  assert (view_size (ArrowLayoutInit TYPE_INT64) n 1 = Some (8 * n)) as Hw.
  { unfold view_size. change (element_bits _ 1) with 64. change (default _ _) with BUFFER_DATA. cbv iota.
    rewrite Hi by lia. cbn [mbind option_bind]. rewrite Hi by lia. cbn [mbind option_bind].
    by rewrite round_up_words by lia. }
  destruct Ht as [[-> | ->] | ->]; (split_and!; [done| |done]); [exact Hw|exact Hw|].
  unfold view_size. change (element_bits _ 1) with 32. change (default _ _) with BUFFER_DATA_OFFSET. cbv iota.
  change (32 ÷ 8) with 4. unfold data_size. destruct (Z.eqb_spec n 0) as [-> |Hz]; [done|].
  by rewrite Hi by lia.
Qed.
Lemma leaf_set_length t v n : leaf_type t -> leaf_view t v -> 0 <= n < 2 ^ 48 ->
  ArrowArrayViewSetLength v n = Some (sized_view t (av_array v) n).
Proof.
  intros Ht (a & vs & ->) Hn. destruct (leaf_sizes t n Ht Hn) as (H0 & H1 & H2).
  assert (ArrowArrayViewSetLength (mkAV a t (ArrowLayoutInit t) vs 0 (Some []) None) n =
    (s0 ← view_size (ArrowLayoutInit t) n 0; s1 ← view_size (ArrowLayoutInit t) n 1;
     s2 ← view_size (ArrowLayoutInit t) n 2;
     Some (mkAV a t (ArrowLayoutInit t) [mkBV None s0; mkBV None s1; mkBV None s2] 0 (Some []) None))) as ->
    by by destruct Ht as [[-> | ->] | ->].
  by rewrite H0, H1, H2.
Qed.

(** Any of the two kinds of columns. *)
Inductive content := Words (t : ArrowType) (ws : list (option Z)) | Texts (ts : list (option (list Z))).
Definition type_of (c : content) : ArrowType := match c with Words t _ => t | Texts _ => TYPE_STRING end.
Definition valid_of (c : content) : list bool :=
  match c with Words _ ws => map is_value ws | Texts ts => map is_value ts end.
Definition data_of (c : content) : list Z :=
  match c with Words _ ws => word_bytes ws | Texts ts => offset_bytes ts end.
Definition texts_of (c : content) : list Z := match c with Words _ _ => [] | Texts ts => text_bytes ts end.
(** Texts have offsets of 32 bits. *)
Definition content_ok (c : content) : Prop :=
  match c with Words t _ => word_type t | Texts ts => zlen (text_bytes ts) <= INT32_MAX end.
Definition holds (c : content) : ArrowArray -> Prop := leaf (type_of c) (valid_of c) (data_of c) (texts_of c).
Definition finished (c : content) : ArrowArray -> Prop := built (type_of c) (valid_of c) (data_of c) (texts_of c).
Definition rows (c : content) : Z := zlen (valid_of c).
(** The sizes a view expects are there. *)
Definition fits (c : content) (v : ArrowArrayView) : Prop :=
  exists a d0 d1 d2 s0 s1 s2,
    v = mkAV a (type_of c) (ArrowLayoutInit (type_of c)) [mkBV d0 s0; mkBV d1 s1; mkBV d2 s2] 0 (Some []) None /\
    s0 <= _ArrowBytesForBits (rows c) /\ s1 <= zlen (data_of c) /\ s2 <= zlen (texts_of c).
Definition viewed (c : content) (a : ArrowArray) (v : ArrowArrayView) : Prop :=
  exists bm b1 b2 s0 s1 d2 s2,
    a = leaf_array (type_of c) (rows c) (count_null (valid_of c))
      [buf_data (bm_buffer bm); buf_data b1; buf_data b2] bm b1 b2 /\
    buffer_ok b1 /\ buffer_ok b2 /\ buf_content b1 = data_of c /\ texts_of c `prefix_of` buf_content b2 /\
    validity (valid_of c) bm /\
    v = mkAV (Some a) (type_of c) (ArrowLayoutInit (type_of c))
      [mkBV (buf_data (bm_buffer bm)) s0; mkBV (buf_data b1) s1; mkBV d2 s2] 0 (Some []) None /\
    (type_of c = TYPE_STRING -> d2 = buf_data b2) /\
    s0 <= _ArrowBytesForBits (rows c) /\ s1 <= zlen (data_of c) /\ s2 <= zlen (texts_of c).

Lemma content_type c : content_ok c -> leaf_type (type_of c).
Proof. destruct c; [by left|by right]. Qed.
Lemma content_data_size c : content_ok c -> data_size (type_of c) (rows c) <= zlen (data_of c).
Proof.
  unfold rows. destruct c as [t ws|ts]; simpl; rewrite zlen_map.
  - intros Ht. rewrite zlen_word_bytes. destruct Ht as [-> | ->]; simpl; lia.
  - intros _. rewrite zlen_offset_bytes. pose proof (zlen_nonneg ts). destruct (_ =? 0); lia.
Qed.
Lemma content_rows c b : content_ok c -> buffer_ok b -> buf_content b = data_of c -> 0 <= rows c < 2 ^ 48.
Proof.
  intros _ Hok Hc. split; [apply zlen_nonneg|]. destruct (content_bound b _ Hok Hc) as [_ Hn]. unfold rows.
  destruct c as [t ws|ts]; simpl in *; rewrite zlen_map.
  - rewrite zlen_word_bytes in Hn. pose proof (zlen_nonneg ws). lia.
  - rewrite zlen_offset_bytes in Hn. pose proof (zlen_nonneg ts). lia.
Qed.
Lemma viewed_finished c a v : viewed c a v -> finished c a /\ fits c v.
Proof.
  intros (bm & b1 & b2 & s0 & s1 & d2 & s2 & -> & ? & ? & ? & ? & ? & -> & ? & ? & ? & ?). split.
  - by exists bm, b1, b2.
  - by repeat eexists.
Qed.
Lemma fits_leaf c v : fits c v -> leaf_view (type_of c) v.
Proof. intros (a & d0 & d1 & d2 & s0 & s1 & s2 & -> & _). by repeat eexists. Qed.
Lemma sized_fits c a : content_ok c -> fits c (sized_view (type_of c) a (rows c)).
Proof.
  intros Hc. pose proof (content_data_size c Hc). pose proof (zlen_nonneg (texts_of c)).
  do 7 eexists. split_and!; [done|lia..].
Qed.

Section views.
Context `{Libc} `{!LibcBound}.

Lemma wp_set_view_length t v e n Q E : leaf_type t -> leaf_view t v -> 0 <= n < 2 ^ 48 ->
  Q tt (sized_view t (av_array v) n, e) -> wp (set_view_length n) Q E (v, e).
Proof.
  intros Ht Hv Hn HQ. unfold set_view_length. apply wp_bind, wp_gets, wp_bind. cbn [fst].
  eapply wp_lift_opt; [by apply leaf_set_length|]. unfold on_av. by apply wp_modify.
Qed.
(** One buffer of the check. *)
Lemma validity_size valid bm : validity valid bm -> buf_data (bm_buffer bm) = None /\ count_null valid = 0 \/
  is_Some (buf_data (bm_buffer bm)) /\ 0 < count_null valid /\ bitmap_ok bm /\ bitmap_bits bm = valid /\
  buf_size_bytes (bm_buffer bm) = _ArrowBytesForBits (zlen valid).
Proof.
  intros [[-> Hc]|(Hok & Hb & Hc)]; [by left|]. right. split_and!; [by eapply bits_block|done..|].
  rewrite (bmok_bytes _ Hok). by rewrite (bits_size bm valid).
Qed.

(** What the check does for a buffer of a leaf. *)
Definition check_buffer (a : ArrowArray) (i : Z) : M VE unit :=
  v ← gets fst;
  data ← lift_opt (ar_buffers a !! Z.to_nat i);
  if bool_decide (ly_buffer_type (av_layout v) !! Z.to_nat i = Some BUFFER_VALIDITY) &&
     (ar_null_count a =? 0) && bool_decide (data = None)
  then mret tt else
  p ← lift_opt (ar_private a);
  let expected_size := bv_size_bytes (buffer_view v i) in
  let actual_size := buf_size_bytes (view (buffer_lens i) p) in
  if actual_size <? expected_size
  then view_invalid "Expected buffer %d to size >= %ld bytes but found buffer with %ld bytes"
         [AInt i; AInt expected_size; AInt actual_size]
  else mret tt.
Lemma check_buffer_fits c a v e E i : content_ok c -> finished c a -> fits c v -> 0 <= i < n_buffers (type_of c) ->
  wp (check_buffer a i) (fun _ q => q = (v, e)) E (v, e).
Proof.
  intros Hc (bm & b1 & b2 & -> & Hok1 & Hok2 & Hc1 & Hc2 & Hv) (x & d0 & d1 & d2 & s0 & s1 & s2 & -> & Hf0 & Hf1 & Hf2) Hi.
  destruct (content_bound b1 _ Hok1 Hc1) as [Hs1 _]. pose proof (prefix_length _ _ Hc2) as Hs2.
  pose proof (zlen_buf_content b2 Hok2) as Hz2. unfold check_buffer. apply wp_bind, wp_gets. cbn [fst].
  assert (i = 0 \/ i = 1 \/ i = 2 /\ type_of c = TYPE_STRING) as Hcase.
  { destruct (decide (i = 0)); [by left|]. destruct (decide (i = 1)); [by right; left|]. right; right.
    destruct (content_type c Hc) as [[Ht | Ht] | Ht]; rewrite Ht in Hi; simpl in Hi; [lia..|]. by split; [lia|]. }
  destruct Hcase as [-> |[-> |[-> Ht]]]; apply wp_bind; (eapply wp_lift_opt; [reflexivity|]).
  - cbn [leaf_array ar_null_count av_layout]. destruct (validity_size _ _ Hv) as [[-> ->]|([l Hl] & _ & _ & _ & Hsz)].
    + rewrite !bool_decide_true by by destruct (content_type c Hc) as [[-> | ->] | ->]. by apply wp_ret.
    + rewrite Hl, (bool_decide_false (Some l = None)), andb_false_r by done. apply wp_bind, wp_ret.
      cbn [buffer_view av_buffer_views]. change (buf_size_bytes (view (buffer_lens 0) _)) with (buf_size_bytes (bm_buffer bm)).
      rewrite Hsz. change (bv_size_bytes _) with s0. rewrite (proj2 (Z.ltb_ge _ _)) by exact Hf0. by apply wp_ret.
  - rewrite (bool_decide_false (_ !! _ = _)) by by destruct (content_type c Hc) as [[-> | ->] | ->].
    apply wp_bind, wp_ret. change (buf_size_bytes (view (buffer_lens 1) _)) with (buf_size_bytes b1).
    change (bv_size_bytes _) with s1. rewrite (proj2 (Z.ltb_ge _ _)) by lia. by apply wp_ret.
  - rewrite (bool_decide_false (_ !! _ = _)) by by rewrite Ht.
    apply wp_bind, wp_ret. change (buf_size_bytes (view (buffer_lens 2) _)) with (buf_size_bytes b2).
    change (bv_size_bytes _) with s2. unfold zlen in Hf2, Hz2. rewrite (proj2 (Z.ltb_ge _ _)) by lia. by apply wp_ret.
Qed.
Lemma check_leaf c a sl v e E : content_ok c -> finished c a -> leaf_view (type_of c) v -> (sl = true \/ fits c v) ->
  wp (ArrowArrayCheckInternalBufferSizes sl a) (fun _ q => fits c q.1) E (v, e).
Proof.
  intros Hc Hf Hv Hsl. pose proof Hf as (bm & b1 & b2 & Ha & Hok1 & _ & Hc1 & _).
  pose proof (content_rows c b1 Hc Hok1 Hc1) as Hn. pose proof (content_type c Hc) as Ht.
  assert (wp (when sl (n ← i64 (0 + rows c); set_view_length n) ;;
              for_range 0 (n_buffers (type_of c)) (check_buffer a) ;; mret tt) (fun _ q => fits c q.1) E (v, e)) as Hw.
  { apply wp_bind.
    assert (wp (when sl (n ← i64 (0 + rows c); set_view_length n)) (fun _ q => fits c q.1) E (v, e)) as Hlen.
    { destruct sl; [|by destruct Hsl; [|apply wp_ret]].
      apply wp_bind, wp_i64; [unfold INT64_MIN, INT64_MAX; lia|]. rewrite Z.add_0_l.
      eapply wp_set_view_length; [exact Ht|exact Hv|done|]. by apply sized_fits. }
    eapply wp_conseq; [exact Hlen| |done]. intros [] [v' e'] Hfit. cbn [fst] in Hfit. apply wp_bind.
    eapply wp_conseq; [apply (wp_for_loop (fun _ q => q = (v', e')) _ 0 _ E)| |done]; [done| |].
    - intros i q Hi ->. eapply check_buffer_fits; [done..|]. rewrite Z2Nat.id in Hi; [lia|].
      by destruct Ht as [[-> | ->] | ->].
    - intros [] q ->. by apply wp_ret. }
  subst a. exact Hw.
Qed.

(** The offset after the last text. *)
Lemma last_text_offset ts bm b1 b2 : content_ok (Texts ts) -> buffer_ok b1 -> buf_content b1 = offset_bytes ts -> forall a,
  last_offset (mkAV a TYPE_STRING (ArrowLayoutInit TYPE_STRING)
      [bm; mkBV (buf_data b1) (data_size TYPE_STRING (zlen ts)); b2] 0 (Some []) None) 4 (zlen ts) =
    Some (if zlen ts =? 0 then None else Some (zlen (text_bytes ts))).
Proof.
  intros Hok Hb Hc a. unfold last_offset. cbn [buffer_view av_buffer_views]. change (bv_size_bytes _) with (data_size TYPE_STRING (zlen ts)).
  unfold data_size. pose proof (zlen_nonneg ts). destruct (Z.eqb_spec (zlen ts) 0) as [Hz|Hz]; [done|].
  rewrite (proj2 (Z.eqb_neq _ _)) by lia. destruct (last_offset_read ts b1 Hb Hc Hok) as (l & Hl & Hr & Hi).
  unfold as_int, elem_bytes. change (bv_data _) with (buf_data b1). rewrite Hl. cbn [mbind option_bind]. rewrite Hr.
  unfold fmap, option_fmap, option_map. by rewrite Hi.
Qed.
Lemma set_array_leaf c a v e E : content_ok c -> finished c a -> leaf_view (type_of c) v ->
  wp (fun q => ArrowArrayViewSetArray a q) (fun _ q => viewed c a q.1) E (v, e).
Proof.
  intros Hc (bm & b1 & b2 & -> & Hok1 & Hok2 & Hc1 & Hc2 & Hv) (x & vs & ->).
  pose proof (content_rows c b1 Hc Hok1 Hc1) as Hn. pose proof (content_type c Hc) as Ht.
  pose proof (content_data_size c Hc) as Hds. pose proof (zlen_nonneg (texts_of c)) as Htx.
  set (n := rows c) in *. set (t := type_of c) in *.
  set (a := leaf_array t n (count_null (valid_of c)) [buf_data (bm_buffer bm); buf_data b1; buf_data b2] bm b1 b2).
  set (d0 := buf_data (bm_buffer bm)).
  set (s0 := if (count_null (valid_of c) =? 0) && bool_decide (d0 = None) then 0 else _ArrowBytesForBits n).
  assert (0 <= _ArrowBytesForBits n) as Hbits by (rewrite bytes_for_bits_ceil by lia; apply Z.div_pos; lia).
  assert (s0 <= _ArrowBytesForBits n) as Hs0 by (unfold s0; destruct (_ && _); lia).
  set (d2 := if decide (t = TYPE_STRING) then buf_data b2 else None).
  set (final := fun s2 => mkAV (Some a) t (ArrowLayoutInit t)
    [mkBV d0 s0; mkBV (buf_data b1) (data_size t n); mkBV d2 s2] 0 (Some []) None).
  assert (forall s2, s2 <= zlen (texts_of c) -> viewed c a (final s2)) as Hfinal.
  { intros s2 Hs2. exists bm, b1, b2, s0, (data_size t n), d2, s2. split_and!; try done.
    intros Hs. unfold d2. by rewrite decide_True. }
  unfold leaf_array at 1. cbn [ArrowArrayViewSetArray ar_indeterminate ar_offset ar_length].
  change (zlen (valid_of c)) with n. fold (leaf_array t n (count_null (valid_of c)) [buf_data (bm_buffer bm); buf_data b1; buf_data b2] bm b1 b2).
  fold a. apply wp_bind, wp_ret.
  apply wp_bind, wp_i64; [unfold INT64_MIN, INT64_MAX; lia|]. rewrite Z.add_0_l. unfold on_av at 1.
  apply wp_bind, wp_modify, wp_bind. eapply wp_set_view_length; [exact Ht|by repeat eexists|done|].
  apply wp_bind, wp_gets, wp_bind. cbn [fst set_av_array av_array].
  eapply (wp_lift_opt _ _ _ _ (final 0)).
  { subst final. unfold d2, s0, sized_view. cbn [av_layout]. destruct Ht as [[-> | ->] | ->]; reflexivity. }
  unfold on_av at 1. apply wp_bind, wp_modify. cbn [fst snd].
  assert (count_buffers (av_layout (sized_view t (Some a) n)) = n_buffers t) as Hcount
    by by destruct Ht as [[-> | ->] | ->].
  match goal with |- context [count_buffers ?l =? _] => change (count_buffers l) with
    (count_buffers (av_layout (sized_view t (Some a) n))) end. rewrite Hcount, Z.eqb_refl.
  cbn [negb av_n_children av_storage_type final ar_n_children Z.eqb].
  destruct c as [t' ws|ts].
  - assert (t = TYPE_INT64 \/ t = TYPE_DOUBLE) as Hty by by destruct Ht.
    apply wp_bind. destruct Hty as [-> | ->]; apply wp_ret, wp_ret; by apply Hfinal.
  - subst t n. cbn [type_of]. apply wp_bind, wp_bind. eapply wp_lift_opt.
    { unfold final, rows. cbn [valid_of type_of]. rewrite zlen_map. by apply last_text_offset. }
    destruct (zlen ts =? 0).
    + apply wp_ret, wp_ret. by apply Hfinal.
    + apply wp_modify, wp_ret. by apply (Hfinal (zlen (text_bytes ts))).
Qed.
End views.

(** * The life of a column *)
Definition finalized (c : content) (a : ArrowArray) : Prop :=
  exists bs bm b1 b2, a = leaf_array (type_of c) (rows c) (count_null (valid_of c)) bs bm b1 b2 /\
    buffer_ok b1 /\ buffer_ok b2 /\ buf_content b1 = data_of c /\ texts_of c `prefix_of` buf_content b2 /\
    validity (valid_of c) bm.
(** What [ArrowArrayInitFromArrayView] leaves. *)
Definition fresh_leaf (t : ArrowType) : ArrowArray :=
  leaf_array t 0 0 [None; None; None] ArrowBitmapInit ArrowBufferInit ArrowBufferInit.
Definition no_values (t : ArrowType) : content := match t with TYPE_STRING => Texts [] | _ => Words t [] end.

Section life.
Context `{Libc} `{!LibcBound}.

Lemma init_leaf t v a E : leaf_type t -> leaf_view t v -> malloc_ok sizeof_private = true ->
  wp (ArrowArrayInitFromArrayView v) (fun _ a => a = fresh_leaf t) E a.
Proof.
  intros Ht (x & vs & ->) Hm. unfold wp. cbn [ArrowArrayInitFromArrayView].
  unfold ArrowArrayInitFromType. rewrite Hm. by destruct Ht as [[-> | ->] | ->].
Qed.
Lemma start_leaf t : leaf_type t ->
  wp (fun a => ArrowArrayStartAppending a) (fun _ => holds (no_values t)) no_memory (fresh_leaf t).
Proof.
  intros Ht.
  assert (forall t, word_type t -> holds (Words t []) (fresh_leaf t)) as Hfresh.
  { intros t' _. exists [None; None; None], ArrowBitmapInit, ArrowBufferInit, ArrowBufferInit. split_and!; try done. by left. }
  destruct Ht as [[-> | ->] | ->]; [by apply Hfresh; left|by apply Hfresh; right|].
  change (wp ((ArrowArrayBuffer 1 (ArrowBufferAppend (le_bytes 4 0)) ;; mret tt) ;; mret tt)
    (fun _ => holds (Texts [])) no_memory (fresh_leaf TYPE_STRING)).
  apply wp_bind, wp_bind. eapply wp_conseq; [apply (append_data TYPE_STRING [])| |done]; [done|apply le_bytes_byte|done|].
  intros [] a (b & -> & Hok & Hc). apply wp_ret, wp_ret.
  exists [None; None; None], ArrowBitmapInit, b, ArrowBufferInit. split_and!; try done. by left.
Qed.

Lemma finalize_leaf c a E : content_ok c -> holds c a ->
  wp (fun a => ArrowArrayFinalizeBuffers a) (fun _ => finalized c) E a.
Proof.
  intros Hc (bs & bm & b1 & b2 & -> & Hok1 & Hok2 & Hc1 & Hc2 & Hv).
  assert (forall b, buffer_ok b -> texts_of c `prefix_of` buf_content b ->
    finalized c (leaf_array (type_of c) (rows c) (count_null (valid_of c)) bs bm b1 b)) as Hfin
    by (intros b Hb Hp; by exists bs, bm, b1, b).
  destruct c as [t ws|ts].
  - assert (finalized (Words t ws) (leaf_array t (rows (Words t ws)) (count_null (map is_value ws)) bs bm b1 b2)) as Hw
      by (apply Hfin; [done|]; apply prefix_nil).
    by destruct Hc as [-> | ->].
  - change (wp (ArrowArrayBuffer 2 (b ← gets id; when (bool_decide (buf_data b = None)) (ignore (ArrowBufferAppendUInt8 0))) ;; mret tt)
      (fun _ => finalized (Texts ts)) E (leaf_array TYPE_STRING (rows (Texts ts)) (count_null (map is_value ts)) bs bm b1 b2)).
    apply wp_bind, wp_leaf_texts, wp_bind, wp_gets. cbn [id].
    destruct (decide (buf_data b2 = None)) as [Hd|Hd].
    2:{ rewrite bool_decide_false by done. apply wp_ret, wp_ret, Hfin; [done|]. simpl in Hc2 |- *. by rewrite Hc2. }
    rewrite bool_decide_true by done. unfold when, ignore. apply wp_bind, wp_catch.
    assert (text_bytes ts = []) as Ht.
    { simpl in Hc2. rewrite <- Hc2. unfold buf_content. rewrite Hd. apply take_nil. }
    eapply wp_conseq; [apply append_spec; [done|repeat constructor; done|done]|intros [] b [Hok _]|intros e b (_ & -> & _)];
      apply wp_ret, wp_ret, Hfin; (done || (simpl; rewrite Ht; apply prefix_nil)).
Qed.
Lemma flush_leaf c a E : content_ok c -> finalized c a ->
  wp (fun a => ArrowArrayFlushInternalPointers a) (fun _ => finished c) E a.
Proof.
  intros Hc (bs & bm & b1 & b2 & -> & Hok1 & Hok2 & Hc1 & Hc2 & Hv). unfold wp. cbn. by exists bm, b1, b2.
Qed.

(** [ArrowArrayViewAllocateChildren], and the reset of the view when it fails. *)
Lemma wp_or_reset m (Q : unit -> VE -> Prop) v : wp m Q no_memory v -> wp (or_reset m) Q no_memory v.
Proof.
  intros Hm. unfold or_reset. apply wp_bind, wp_catch. eapply wp_conseq; [exact Hm|intros [] q HQ; by apply wp_ret|].
  by intros c q ->.
Qed.
Lemma wp_allocate_children n v e (Q : unit -> VE -> Prop) : av_children v = None -> 0 <= n ->
  Q tt (set_view_children n (Some (replicate (Z.to_nat n) (Some (ArrowArrayViewInitFromType TYPE_UNINITIALIZED)))) v, e) ->
  wp (or_reset (ArrowArrayViewAllocateChildren n)) Q no_memory (v, e).
Proof.
  intros Hv Hn HQ. apply wp_or_reset. unfold ArrowArrayViewAllocateChildren. apply wp_bind, wp_gets. cbn [fst].
  rewrite Hv, bool_decide_false by by intros []. destruct (malloc_ok _); [|done]. unfold on_av.
  apply wp_bind, wp_modify. cbn [negb fst snd].
  set (fresh := Some (ArrowArrayViewInitFromType TYPE_UNINITIALIZED)) in *.
  set (upto := fun i => (set_view_children n (Some (replicate i fresh ++ replicate (Z.to_nat n - i) None)) v, e)).
  eapply wp_conseq; [apply (wp_for_loop (fun i q => q = upto (Z.to_nat i)) _ 0 _ no_memory)| |done].
  - unfold upto. by rewrite Nat.sub_0_r.
  - intros i q Hi ->. rewrite Z2Nat.id, Z.add_0_l, Z.sub_0_r in Hi by lia.
    destruct (malloc_ok sizeof_view); [|done]. apply wp_modify. unfold upto, set_view_children. cbn. do 2 f_equal.
    rewrite (children_step _ _ _ (Z.to_nat i) (Z.to_nat n)) by (rewrite ?length_replicate; lia).
    replace (Z.to_nat (i + 1)) with (Z.to_nat i + 1)%nat by lia.
    by rewrite replicate_add, <- app_assoc, Nat.add_1_r.
  - intros [] q ->. unfold upto. rewrite Z.sub_0_r, Z.add_0_l, Nat2Z.id, Nat.sub_diag, app_nil_r. exact HQ.
Qed.
Lemma view_leaf c a v e : content_ok c -> finished c a ->
  wp (ArrowArrayViewInitFromArray a) (fun _ q => leaf_view (type_of c) q.1) no_memory (v, e).
Proof.
  intros Hc (bm & b1 & b2 & -> & _). unfold leaf_array. cbn [ArrowArrayViewInitFromArray ar_private].
  apply wp_bind, wp_ret, wp_bind, wp_modify, wp_bind. cbn [fst snd].
  apply wp_allocate_children; [done|done|]. apply wp_or_reset, wp_ret. by repeat eexists.
Qed.
End life.

(** * Reading a column back *)
Section read.
Context (c : content) (a : ArrowArray) (v : ArrowArrayView) (Hc : content_ok c) (Hv : viewed c a v).

Lemma viewed_is_null i b : valid_of c !! Z.to_nat i = Some b -> 0 <= i ->
  ArrowArrayViewIsNull v i = Some (negb b).
Proof.
  intros Hb Hi. destruct Hv as (bm & b1 & b2 & s0 & s1 & d2 & s2 & Ha & _ & _ & _ & _ & Hbits & -> & _).
  assert (ArrowArrayViewIsNull (mkAV (Some a) (type_of c) (ArrowLayoutInit (type_of c))
      [mkBV (buf_data (bm_buffer bm)) s0; mkBV (buf_data b1) s1; mkBV d2 s2] 0 (Some []) None) i =
    match buf_data (bm_buffer bm) with
    | None => Some false
    | Some l => b ← ArrowBitGet l (i + 0); Some (b =? 0)
    end) as -> by (rewrite Ha; by destruct (content_type c Hc) as [[-> | ->] | ->]).
  rewrite Z.add_0_r. destruct (validity_size _ _ Hbits) as [[-> Hz]|([l Hl] & _ & Hok & Hbs & Hsz)].
  - rewrite (count_null_all _ Hz) in Hb. apply lookup_replicate in Hb as [-> _]. done.
  - rewrite Hl. pose proof (lookup_lt_Some _ _ _ Hb) as Hlt. pose proof (bits_size _ _ Hok Hbs) as Hn.
    rewrite <- Hbs in Hb. rewrite bitmap_bits_lookup, Hl in Hb by (rewrite Hn; unfold zlen; lia). injection Hb as <-.
    destruct (bmok_buffer _ Hok) as [_ Hs Hblk _ _]. rewrite Hl in Hblk. simpl in Hblk.
    rewrite bit_get_spec.
    { cbn [mbind option_bind]. by destruct (bit_of _ i). }
    rewrite Hblk. rewrite bytes_for_bits_ceil in Hsz by apply zlen_nonneg.
    assert (i < zlen (valid_of c)) by (unfold zlen; lia). Z.to_euclidean_division_equations; lia.
Qed.
Lemma viewed_length : av_array v = Some a /\ ar_length a = rows c /\ is_Some (av_array v).
Proof. destruct Hv as (bm & b1 & b2 & s0 & s1 & d2 & s2 & -> & _ & _ & _ & _ & _ & -> & _). by repeat split. Qed.
End read.

(** A word of a buffer. *)
Lemma flat_map_read n b ws i w : buffer_ok b -> buf_content b = flat_map (le_bytes n) ws -> (0 < n)%nat ->
  ws !! i = Some w ->
  exists l, buf_data b = Some l /\ read_at l (Z.of_nat n * Z.of_nat i) (Z.of_nat n) = Some (le_bytes n w).
Proof.
  intros Hok Hc Hn Hw. pose proof (lookup_lt_Some _ _ _ Hw) as Hi. destruct (content_bound b _ Hok Hc) as [Hs _].
  unfold zlen in Hs. rewrite flat_map_length in Hs.
  destruct (read_content b (Z.of_nat n * Z.of_nat i) (Z.of_nat n) Hok) as (l & Hl & Hr); [nia..|].
  exists l. split; [done|]. rewrite Hr, Hc. f_equal. rewrite Nat2Z.id.
  replace (Z.to_nat (Z.of_nat n * Z.of_nat i)) with (n * i)%nat by lia. by apply flat_map_lookup.
Qed.
Lemma viewed_word t ws a v i w : viewed (Words t ws) a v -> ws !! Z.to_nat i = Some w -> 0 <= i ->
  is_Some (bv_data (buffer_view v 1)) /\ elem_bytes v 1 8 i = Some (le_bytes 8 (default 0 w)).
Proof.
  intros (bm & b1 & b2 & s0 & s1 & d2 & s2 & -> & Hok & _ & Hc & _ & _ & -> & _) Hw Hi. simpl in Hc.
  destruct (flat_map_read 8 b1 (map (default 0) ws) (Z.to_nat i) (default 0 w) Hok Hc) as (l & Hl & Hr);
    [lia|by rewrite list_lookup_fmap, Hw|].
  unfold elem_bytes. change (bv_data _) with (buf_data b1). rewrite Hl. split; [done|]. cbn [mbind option_bind].
  rewrite Z2Nat.id in Hr by done. exact Hr.
Qed.

(** The offsets around a text. *)
Lemma offsets_lookup o ts i t : ts !! i = Some t ->
  offsets_from o ts !! i = Some (o + zlen (concat (take i ts))) /\
  offsets_from o ts !! S i = Some (o + zlen (concat (take i ts)) + zlen t).
Proof.
  revert o i. induction ts as [|x ts IH]; intros o [|i] Ht; try done.
  - injection Ht as ->. split; [simpl; f_equal; unfold zlen; simpl; lia|]. destruct ts; simpl; f_equal; unfold zlen; simpl; lia.
  - destruct (IH (o + zlen x) i Ht) as [H1 H2]. change (offsets_from o (x :: ts) !! S i) with (offsets_from (o + zlen x) ts !! i).
    change (offsets_from o (x :: ts) !! S (S i)) with (offsets_from (o + zlen x) ts !! S i). rewrite H1, H2. simpl.
    split; f_equal; rewrite zlen_app; lia.
Qed.
Lemma concat_lookup (ts : list (list Z)) i t : ts !! i = Some t ->
  take (length t) (drop (length (concat (take i ts))) (concat ts)) = t.
Proof.
  revert i. induction ts as [|x ts IH]; intros [|i] Ht; try done.
  - injection Ht as ->. simpl. by rewrite drop_0, take_app_length.
  - simpl. rewrite length_app, <- drop_drop, drop_app_length. by apply IH.
Qed.
Lemma viewed_text ts a v i t : zlen (text_bytes ts) <= INT32_MAX -> viewed (Texts ts) a v ->
  ts !! Z.to_nat i = Some t -> 0 <= i -> ArrowArrayViewGetBytesUnsafe v i = Some (default [] t).
Proof.
  intros Hmax (bm & b1 & b2 & s0 & s1 & d2 & s2 & -> & Hok & Hok2 & Hc & Hc2 & _ & -> & Hd & _) Ht Hi.
  rewrite (Hd eq_refl). simpl in Hc, Hc2.
  assert (text_list ts !! Z.to_nat i = Some (default [] t)) as Hl by (unfold text_list; by rewrite list_lookup_fmap, Ht).
  destruct (offsets_lookup 0 _ _ _ Hl) as [Ho1 Ho2]. rewrite Z.add_0_l in Ho1, Ho2.
  pose proof (concat_lookup _ _ _ Hl) as Hsub. set (from := zlen (concat (take (Z.to_nat i) (text_list ts)))) in *.
  assert (0 <= from /\ from + zlen (default [] t) <= zlen (text_bytes ts)) as [Hf0 Hf1].
  { split; [apply zlen_nonneg|]. unfold text_bytes. rewrite <- (take_drop_middle _ _ _ Hl) at 1.
    rewrite concat_app, zlen_app. simpl. rewrite zlen_app. pose proof (zlen_nonneg (concat (drop (S (Z.to_nat i)) (text_list ts)))). subst from. lia. }
  pose proof (zlen_nonneg (default [] t)) as Hz.
  destruct (flat_map_read 4 b1 _ _ _ Hok Hc ltac:(lia) Ho1) as (l & Hd1 & Hr1).
  destruct (flat_map_read 4 b1 _ _ _ Hok Hc ltac:(lia) Ho2) as (l' & Hd1' & Hr2). rewrite Hd1 in Hd1'. injection Hd1' as <-.
  unfold ArrowArrayViewGetBytesUnsafe. cbn [view_index av_array mbind option_bind av_storage_type leaf_array ar_offset].
  change (Z.of_nat 4) with 4 in Hr1, Hr2. rewrite Nat2Z.inj_succ, !Z2Nat.id in * by done.
  unfold as_int, elem_bytes. change (bv_data _) with (buf_data b1). rewrite Hd1. cbn [mbind option_bind].
  rewrite Z.add_0_r. unfold Z.succ in Hr2. rewrite Hr1, Hr2. cbn [fmap option_fmap option_map].
  unfold INT32_MAX in Hmax. rewrite !le_sint_le_bytes by (simpl; lia).
  cbn [type_of mbind option_bind]. unfold bytes_between. change (bv_data _) with (buf_data b2). replace (from + zlen (default [] t) - from) with (zlen (default [] t)) by lia.
  destruct Hc2 as [pad Hc2]. pose proof (content_bound b2 _ Hok2 eq_refl) as [Hs2 _].
  destruct (decide (zlen (default [] t) = 0)) as [He|He].
  - assert (default [] t = []) as Hnil by (apply nil_length_inv; unfold zlen in He; lia). rewrite He, Hnil, Z.add_0_r.
    destruct (buf_data b2) as [l2|] eqn:Hb2; [|by rewrite Z.eqb_refl]. unfold read_at. destruct Hok2 as [_ Hs2' Hblk _ _].
    rewrite Hb2 in Hblk. simpl in Hblk. rewrite Hc2, zlen_app in Hs2. pose proof (zlen_nonneg pad).
    rewrite !(proj2 (Z.leb_le _ _)) by lia. done.
  - rewrite (proj2 (Z.eqb_neq _ _)) by lia.
    destruct (read_content b2 from (zlen (default [] t)) Hok2) as (l2 & Hb2 & Hr); [lia|lia| |].
    { rewrite <- Hs2, Hc2, zlen_app. pose proof (zlen_nonneg pad). lia. }
    rewrite Hb2, Hr, Hc2. f_equal. unfold text_bytes. subst from. unfold zlen. rewrite !Nat2Z.id.
    rewrite <- Hsub at 2. rewrite drop_app_le by (unfold text_bytes, zlen in *; lia).
    rewrite take_app_le; [done|]. rewrite length_drop. unfold text_bytes, zlen in *. lia.
Qed.
