(* ===== verification/ValidationUtil.v ===== *)
(** Helpers of the validation suite (c/validation/adbc_validation_util.h and
    adbc_validation_util.cc): schemas and batches made from C++ values, the comparison of schemas
    and arrays with expected values, a stream over batches, and the reader of streams.  Batches.v
    shows that what the makers make is what the comparisons accept. *)
From stdpp Require Import base tactics list numbers option strings.
From Stdlib Require Import ZArith Lia SpecFloat.
From S2P Require Import Prelude CLib Buffer Schema SchemaView Array ArrayView Adbc Utils Sqlite3 Binder ArrayStream.

(** * Status codes *)
Definition StatusCodeToString (code : AdbcStatusCode) : string :=
  if code =? ADBC_STATUS_OK then "0 (OK)"
  else if code =? ADBC_STATUS_UNKNOWN then "1 (UNKNOWN)"
  else if code =? ADBC_STATUS_NOT_IMPLEMENTED then "2 (NOT_IMPLEMENTED)"
  else if code =? ADBC_STATUS_NOT_FOUND then "3 (NOT_FOUND)"
  else if code =? ADBC_STATUS_ALREADY_EXISTS then "4 (ALREADY_EXISTS)"
  else if code =? ADBC_STATUS_INVALID_ARGUMENT then "5 (INVALID_ARGUMENT)"
  else if code =? ADBC_STATUS_INVALID_STATE then "6 (INVALID_STATE)"
  else if code =? ADBC_STATUS_INVALID_DATA then "7 (INVALID_DATA)"
  else if code =? ADBC_STATUS_INTEGRITY then "8 (INTEGRITY)"
  else if code =? ADBC_STATUS_INTERNAL then "9 (INTERNAL)"
  else if code =? ADBC_STATUS_IO then "10 (IO)"
  else if code =? ADBC_STATUS_CANCELLED then "11 (CANCELLED)"
  else if code =? ADBC_STATUS_TIMEOUT then "12 (TIMEOUT)"
  else if code =? ADBC_STATUS_UNAUTHENTICATED then "13 (UNAUTHENTICATED)"
  else if code =? ADBC_STATUS_UNAUTHORIZED then "14 (UNAUTHORIZED)"
  else "(unknown code)".

(** * Assertions

    The state tells whether the test has failed; a failed assertion leaves the function. *)
Definition ASSERT_TRUE (b : bool) : M bool unit := if b then mret tt else put true ;; exit 0.

(** * Making schemas *)
Record SchemaField := mkField {
  field_name : string;
  field_type : ArrowType;
  field_nullable : bool;
}.

Section make.
Context `{Libc}.

Fixpoint make_fields (fields : list SchemaField) (i : Z) : M ArrowSchema unit :=
  match fields with
  | [] => mret tt
  | field :: rest =>
      on_child i (ArrowSchemaSetType (field_type field)) ;;
      (* [c_str()]: a name has no NUL byte *)
      on_child i (ArrowSchemaSetName (Some (field_name field))) ;;
      when (negb (field_nullable field)) (on_child i set_not_nullable) ;;
      make_fields rest (i + 1)
  end.
Definition MakeSchema (fields : list SchemaField) : M ArrowSchema unit :=
  ArrowSchemaInit ;;
  ArrowSchemaSetTypeStruct (zlen fields) ;;
  make_fields fields 0.

(** * Making arrays

    [append] is the branch of the [if constexpr] for the values' type.  Doubles are bit patterns. *)
Fixpoint MakeArray {T} (append : T -> M ArrowArray unit) (values : list (option T)) : M ArrowArray unit :=
  match values with
  | [] => mret tt
  | Some v :: rest => append v ;; MakeArray append rest
  | None :: rest => ArrowArrayAppendNull 1 ;; MakeArray append rest
  end.
(** A column: its C++ type and its values. *)
Inductive column :=
| Ints (values : list (option Z))
| Doubles (values : list (option Z))
| Strings (values : list (option string)).
Definition MakeColumn (c : column) : M ArrowArray unit :=
  match c with
  | Ints values => MakeArray ArrowArrayAppendInt values
  | Doubles values => MakeArray ArrowArrayAppendDouble values
  | Strings values => MakeArray ArrowArrayAppendString values
  end.
Fixpoint MakeBatchImpl (i : Z) (columns : list column) : M ArrowArray unit :=
  match columns with
  | [] => mret tt
  | first :: rest => on_array_child i (MakeColumn first) ;; MakeBatchImpl (i + 1) rest
  end.

(** A batch with the caller's error, and whether the test has failed. *)
Definition BatchState : Type := AE * bool.
Definition on_array {A} (m : M ArrowArray A) : M BatchState A := zoom fst_lens (zoom fst_lens m).
Definition ADD_FAILURE : M BatchState unit := zoom snd_lens (put true).
(** [batch->length = batch->children[i]->length] for every child, unless they differ. *)
Definition take_length (i : Z) : M BatchState unit :=
  batch ← gets (fun s => s.1.1);
  child ← lift_opt (get_child batch i);
  if (0 <? ar_length batch) && negb (ar_length child =? ar_length batch)
  then ADD_FAILURE ;; exit EINVAL
  else on_array (modify (set_length (ar_length child))).
Definition MakeBatch (columns : list column) : M BatchState unit :=
  on_array (fun a => ArrowArrayStartAppending a) ;;
  on_array (MakeBatchImpl 0 columns) ;;
  batch ← gets (fun s => s.1.1);
  for_range 0 (ar_n_children batch) take_length ;;
  zoom fst_lens ArrowArrayFinishBuilding.
(** The overload that takes a schema. *)
Definition MakeBatch_schema (schema : ArrowSchema) (columns : list column) : M BatchState unit :=
  zoom fst_lens (ArrowArrayInitFromSchema schema) ;;
  MakeBatch columns.
End make.

(** * Comparing schemas

    [ArrowSchemaViewInit] into a local view, with [ASSERT_THAT(..., IsOkErrno(&na_error))]. *)
Definition assert_view (schema : ArrowSchema) : M bool ArrowSchemaView := fun failed =>
  match ArrowSchemaViewInit schema (fresh_view, Some ""%string) with
  | Ret _ (v, _) => Ret v failed
  | Exit c (v, _) => if c =? 0 then Ret v failed else Exit 0 true
  | Undef => Undef
  | NoFuel => NoFuel
  end.
Definition expected_field : Type := option string * ArrowType * bool.
Fixpoint compare_fields (schema : ArrowSchema) (fields : list expected_field) (i : Z) : M bool unit :=
  match fields with
  | [] => mret tt
  | (name, type, nullable) :: rest =>
      child ← lift_opt (mjoin (child_at schema i));
      field_view ← assert_view child;
      ASSERT_TRUE (type_eqb type (sv_type field_view)) ;;
      ASSERT_TRUE (eqb nullable (is_nullable child)) ;;
      match name with
      | Some n => actual ← lift_opt (sc_name child); ASSERT_TRUE (String.eqb n actual)
      | None => mret tt
      end ;;
      compare_fields schema rest (i + 1)
  end.
Definition CompareSchema (schema : ArrowSchema) (fields : list expected_field) : M bool unit :=
  view ← assert_view schema;
  ASSERT_TRUE (bool_decide (sv_type view ∈ [TYPE_LIST; TYPE_MAP; TYPE_STRUCT; TYPE_DENSE_UNION])) ;;
  ASSERT_TRUE (zlen fields =? sc_n_children schema) ;;
  compare_fields schema fields 0.

(** * Comparing arrays *)
Definition same_double (a b : Z) : bool := SFeqb (Float.decode 53 1024 a) (Float.decode 53 1024 b).
Definition same_float (a b : Z) : bool := SFeqb (Float.decode 24 128 a) (Float.decode 24 128 b).
(** The expected values, with their C++ type. *)
Inductive expected_values :=
| ExpectDoubles (values : list (option Z))
| ExpectFloats (values : list (option Z))
| ExpectInt32s (values : list (option Z))
| ExpectInt64s (values : list (option Z))
| ExpectStrings (values : list (option string)).

Section compare.
Context (array : ArrowArrayView).

(** [ArrowArrayViewGetStringUnsafe]; the model of the bytes is the same. *)
Definition ArrowArrayViewGetStringUnsafe (i : Z) : option (list Z) := ArrowArrayViewGetBytesUnsafe array i.
(** A number: [read] is the access to [buffer_views[1]]. *)
Definition compare_number (eq : Z -> Z -> bool) (read : Z -> option Z) (v i : Z) : M bool unit :=
  ASSERT_TRUE (bool_decide (is_Some (bv_data (buffer_view array 1)))) ;;
  actual ← lift_opt (read i);
  ASSERT_TRUE (eq v actual).
Definition compare_string (v : string) (i : Z) : M bool unit :=
  bytes ← lift_opt (ArrowArrayViewGetStringUnsafe i);
  ASSERT_TRUE (String.eqb v (bytes_string bytes)).
Fixpoint compare_values {T} (compare : T -> Z -> M bool unit) (values : list (option T)) (i : Z)
    : M bool unit :=
  match values with
  | [] => mret tt
  | v :: rest =>
      null ← lift_opt (ArrowArrayViewIsNull array i);
      match v with
      | Some v => ASSERT_TRUE (negb null) ;; compare v i
      | None => ASSERT_TRUE null
      end ;;
      compare_values compare rest (i + 1)
  end.
Definition compare_all {T} (compare : T -> Z -> M bool unit) (values : list (option T)) : M bool unit :=
  a ← lift_opt (av_array array);
  ASSERT_TRUE (zlen values =? ar_length a) ;;
  compare_values compare values 0.
Definition CompareArray (values : expected_values) : M bool unit :=
  match values with
  | ExpectDoubles vs => compare_all (compare_number same_double (as_uint array 1 8)) vs
  | ExpectFloats vs => compare_all (compare_number same_float (as_uint array 1 4)) vs
  | ExpectInt32s vs => compare_all (compare_number Z.eqb (as_int array 1 4)) vs
  | ExpectInt64s vs => compare_all (compare_number Z.eqb (as_int array 1 8)) vs
  | ExpectStrings vs => compare_all compare_string vs
  end.
Definition ArrowArrayViewGetOffsetUnsafe (i : Z) : option Z :=
  i ← view_index array i;
  match av_storage_type array with
  | TYPE_LIST | TYPE_MAP => as_int array 1 4 i
  | TYPE_LARGE_LIST => as_int array 1 8 i
  | _ => Some INT64_MAX
  end.
End compare.

(** * A stream over batches

    The struct is the caller's; [None] is a null [private_data].  [out] is not null. *)
Record ConstantArrayStream := mkConstant {
  cs_schema : ArrowSchema;
  cs_batches : list ArrowArray;
  cs_next_index : Z;
}.
Definition ConstantStream : Type := option ConstantArrayStream.
Definition self : M ConstantStream ConstantArrayStream :=
  stream ← gets id;
  match stream with Some s => mret s | None => exit EINVAL end.

Section constant.
Context `{Libc}.

Definition ConstantArrayStream_GetLastError : option string := None.
Definition ConstantArrayStream_GetNext : M (ConstantStream * ArrowArray) unit :=
  s ← zoom fst_lens self;
  if cs_next_index s >=? zlen (cs_batches s) then modify (fun q => (q.1, set_array_release false q.2)) else
  batch ← lift_opt (cs_batches s !! Z.to_nat (cs_next_index s));
  put (Some (mkConstant (cs_schema s) (<[Z.to_nat (cs_next_index s) := zero_array]> (cs_batches s))
               (cs_next_index s + 1)), batch).
Definition ConstantArrayStream_GetSchema : M (ConstantStream * ArrowSchema) unit :=
  s ← zoom fst_lens self;
  zoom snd_lens (ArrowSchemaDeepCopy (cs_schema s)).
(** The value, which C++ does not return, is what was released. *)
Definition ConstantArrayStream_Release : M ConstantStream (option ArrowSchema * list ArrowArray) :=
  stream ← gets id;
  match stream with
  | None => mret (None, [])
  | Some s =>
      if sc_release (cs_schema s) then
        put None ;;
        mret (Some (cs_schema s), filter (fun a => Is_true (ar_release a)) (cs_batches s))
      else undef
  end.
(** On the caller's struct and schema, which is moved out. *)
Definition MakeStream (batches : list ArrowArray) : M (ConstantStream * ArrowSchema) unit :=
  modify (fun q => (Some (mkConstant q.2 batches 0), zero_schema)).
End constant.

(** * Reading a stream *)
Record StreamReader := mkReader {
  rd_stream : InputStream;
  rd_schema : ArrowSchema;
  rd_array : ArrowArray;
  rd_array_view : ArrowArrayView;
  rd_fields : list ArrowSchemaView;
  rd_na_error : ArrowError;
}.
(** The members are zeroed; [na_error] is an empty message. *)
Definition new_stream_reader (stream : InputStream) : StreamReader :=
  mkReader stream zero_schema zero_array zero_view [] (Some "").
Definition reader_next_lens : Lens StreamReader (InputStream * ArrowArray) :=
  mkLens (fun r => (rd_stream r, rd_array r)) (fun q r => mkReader q.1 (rd_schema r) q.2
    (rd_array_view r) (rd_fields r) (rd_na_error r)).
Definition reader_schema_lens : Lens StreamReader (InputStream * ArrowSchema) :=
  mkLens (fun r => (rd_stream r, rd_schema r)) (fun q r => mkReader q.1 q.2 (rd_array r)
    (rd_array_view r) (rd_fields r) (rd_na_error r)).
Definition reader_view_lens : Lens StreamReader VE :=
  mkLens (fun r => (rd_array_view r, rd_na_error r)) (fun q r => mkReader (rd_stream r) (rd_schema r)
    (rd_array r) q.1 (rd_fields r) q.2).

Section read.
Context `{Libc}.

Definition MaybeNext : M StreamReader unit :=
  r ← gets id;
  when (ar_release (rd_array r))
    (zoom reader_view_lens (on_av (fun _ => ArrowArrayViewReset)) ;;
     zoom (lens_comp reader_next_lens snd_lens) ArrowArrayRelease) ;;
  zoom reader_next_lens stream_get_next ;;
  r ← gets id;
  when (ar_release (rd_array r))
    (zoom reader_view_lens (ArrowArrayViewInitFromSchema (rd_schema r)) ;;
     zoom reader_view_lens (ArrowArrayViewSetArray (rd_array r))).
(** The value tells whether an assertion failed. *)
Definition Next : M StreamReader bool := code ← catch MaybeNext; mret (negb (code =? 0)).
Fixpoint view_fields (schema : ArrowSchema) (n : nat) (i : Z) (r : StreamReader)
    : result StreamReader bool :=
  match n with
  | O => Ret false r
  | S n' =>
      match mjoin (child_at schema i) with
      | None => Undef
      | Some child =>
          match ArrowSchemaViewInit child (fresh_view, rd_na_error r) with
          | Ret _ (v, e) =>
              view_fields schema n' (i + 1)
                (mkReader (rd_stream r) (rd_schema r) (rd_array r) (rd_array_view r)
                   (<[Z.to_nat i := v]> (rd_fields r)) e)
          | Exit _ (v, e) =>
              Ret true (mkReader (rd_stream r) (rd_schema r) (rd_array r) (rd_array_view r)
                          (<[Z.to_nat i := v]> (rd_fields r)) e)
          | Undef => Undef
          | NoFuel => NoFuel
          end
      end
  end.
Definition StreamReader_GetSchema : M StreamReader bool :=
  r ← gets id;
  if negb (stream_live (rd_stream r)) then mret true else
  code ← catch (zoom reader_schema_lens (stream_get_schema (rd_schema r)));
  if negb (code =? 0) then mret true else
  modify (fun r => mkReader (rd_stream r) (rd_schema r) (rd_array r) (rd_array_view r)
    (replicate (Z.to_nat (sc_n_children (rd_schema r))) fresh_view) (rd_na_error r)) ;;
  r ← gets id;
  view_fields (rd_schema r) (Z.to_nat (sc_n_children (rd_schema r))) 0.
End read.
