(* ===== verification/Batches.v ===== *)
(** Batches of the validation suite (ValidationUtil.v): [MakeSchema] and [CompareSchema],
    [MakeBatch] and [CompareArray].  What the makers build, through nanoarrow's schema and array
    builders, is what a reader views and what the comparisons accept, and nothing else; the
    stream over batches hands each one over once. *)
From stdpp Require Import base tactics list numbers option strings.
From Stdlib Require Import ZArith Lia.
From S2P Require Import Prelude CLib Buffer Schema SchemaView Array ArrayView Adbc Utils Sqlite3 Binder ArrayStream Columns ValidationUtil.

(** * Columns *)
Definition content_of (c : column) : content :=
  match c with
  | Ints values => Words TYPE_INT64 values
  | Doubles values => Words TYPE_DOUBLE values
  | Strings values => Texts (map (fmap string_bytes) values)
  end.

Section columns.
Context `{Libc} `{!LibcBound}.

Lemma MakeArray_words t vs : word_type t -> forall ws a, words t ws a ->
  wp (MakeArray (append_word t) vs) (fun _ => words t (ws ++ vs)) no_memory a.
Proof.
  intros Ht. induction vs as [|[v|] vs IH]; intros ws a Hw; cbn [MakeArray].
  { apply wp_ret. by rewrite app_nil_r. }
  all: apply wp_bind; eapply wp_conseq; [first [by apply word_appended|by apply append_null_word]| |done].
  all: intros [] a' Hw'; rewrite cons_middle, app_assoc; by apply IH.
Qed.
Lemma MakeArray_texts vs : forall ts a, texts ts a ->
  zlen (text_bytes (ts ++ map (fmap string_bytes) vs)) <= INT32_MAX ->
  wp (MakeArray ArrowArrayAppendString vs) (fun _ => texts (ts ++ map (fmap string_bytes) vs)) no_memory a.
Proof.
  assert (forall ts ts', zlen (text_bytes ts) <= zlen (text_bytes (ts ++ ts'))) as Hmono.
  { intros ts ts'. unfold text_bytes, text_list. rewrite map_app, concat_app, zlen_app.
    pose proof (zlen_nonneg (concat (map (default []) ts'))). lia. }
  induction vs as [|v vs IH]; intros ts a Hw Hmax; cbn [MakeArray map].
  { apply wp_ret. by rewrite app_nil_r. }
  cbn [map] in Hmax. rewrite cons_middle, app_assoc in Hmax |- *.
  pose proof (Hmono (ts ++ [string_bytes <$> v]) (map (fmap string_bytes) vs)).
  destruct v as [v|]; apply wp_bind.
  - assert (wp (ArrowArrayAppendBytes (string_bytes v)) (fun _ => texts (ts ++ [Some (string_bytes v)])) no_memory a) as Ha.
    { apply text_appended; [done|etrans; [eassumption|exact Hmax]|apply string_bytes_byte]. }
    apply (wp_conseq _ (fun _ => texts (ts ++ [Some (string_bytes v)])) _ no_memory); [|intros [] a' Hw'; by apply IH|done].
    destruct Hw as (bs & bm & b1 & b2 & -> & _). exact Ha.
  - change (string_bytes <$> None) with (@None (list Z)) in *. pose proof (Hmono ts [None]).
    eapply wp_conseq; [apply (append_null_text ts); [done|lia]| |done].
    intros [] a' Hw'. by apply IH.
Qed.
Lemma MakeColumn_spec c a : content_ok (content_of c) -> holds (no_values (type_of (content_of c))) a ->
  wp (MakeColumn c) (fun _ => holds (content_of c)) no_memory a.
Proof.
  destruct c as [vs|vs|vs]; intros Hc Ha.
  - by apply (MakeArray_words TYPE_INT64 vs ltac:(by left) []).
  - by apply (MakeArray_words TYPE_DOUBLE vs ltac:(by right) []).
  - by apply (MakeArray_texts vs []).
Qed.
End columns.

(** * Loops over children *)
Definition batch_array (n : Z) (bs : list (option (list Z))) (children : list ArrowArray) : ArrowArray :=
  mkArray n 0 0 1 (zlen children) bs (Some (map Some children)) None true
    (Some (mkPrivate ArrowBitmapInit (ArrowBufferInit, ArrowBufferInit) TYPE_STRUCT (ArrowLayoutInit TYPE_STRUCT) true)) false.
Lemma put_child_batch n bs cs0 c c' cs :
  put_child (zlen cs0) c' (batch_array n bs (cs0 ++ c :: cs)) = batch_array n bs (cs0 ++ c' :: cs).
Proof.
  unfold put_child, batch_array, set_array_children. cbn. unfold zlen. rewrite Nat2Z.id, !length_app. cbn [length].
  do 2 f_equal. rewrite !map_app. cbn [map]. rewrite insert_app_r_alt by (by rewrite length_map).
  by rewrite length_map, Nat.sub_diag.
Qed.
Lemma get_child_batch n bs cs0 c cs : get_child (batch_array n bs (cs0 ++ c :: cs)) (zlen cs0) = Some c.
Proof.
  unfold get_child. cbn [batch_array ar_children mbind option_bind]. rewrite (proj2 (Z.leb_le 0 (zlen cs0))) by apply zlen_nonneg.
  unfold zlen. rewrite Nat2Z.id, map_app. cbn [map].
  rewrite lookup_app_r, length_map, Nat.sub_diag by (by rewrite length_map). done.
Qed.
Lemma wp_child_result {S} i (r : result ArrowArray S) (Q : S -> ArrowArray -> Prop) E a :
  match r with Ret x c => Q x (put_child i c a) | Exit e c => E e (put_child i c a) | Undef | NoFuel => False end ->
  wp (child_result i r) Q E a.
Proof. unfold wp, child_result. by destruct r. Qed.
Lemma wp_for_children {X} (f : Z -> ArrowArray -> result ArrowArray unit) (P P' : X -> ArrowArray -> Prop) xs :
  (forall i x c, P x c -> wp (f i) (fun _ => P' x) no_memory c) ->
  forall n bs cs0 cs, Forall2 P xs cs ->
  wp (for_children f (zlen (cs0 ++ cs)) (map Some cs) (zlen cs0))
    (fun _ a => exists cs', a = batch_array n bs (cs0 ++ cs') /\ Forall2 P' xs cs') no_memory
    (batch_array n bs (cs0 ++ cs)).
Proof.
  intros Hf n bs cs0 cs Hcs. revert cs0. induction Hcs as [|x c xs cs Hx _ IH]; intros cs0.
  - cbn [map for_children]. rewrite app_nil_r, Z.leb_refl. apply wp_ret. exists [].
    by rewrite app_nil_r.
  - cbn [map for_children]. rewrite (proj2 (Z.leb_gt _ _)) by (rewrite zlen_app, zlen_cons; pose proof (zlen_nonneg cs); lia).
    apply wp_bind, wp_child_result. specialize (Hf (zlen cs0) x c Hx). unfold wp in Hf.
    destruct (f (zlen cs0) c) as [[] c'|e c'| |]; [|done..]. rewrite put_child_batch.
    specialize (IH (cs0 ++ [c'])). rewrite zlen_snoc, <- app_assoc in IH. cbn [app] in IH.
    assert (zlen (cs0 ++ c' :: cs) = zlen (cs0 ++ c :: cs)) as Hz by (rewrite !zlen_app, !zlen_cons; done).
    rewrite Hz in IH. fold (for_children f). eapply wp_conseq; [exact IH| |done].
    intros [] a (cs' & -> & Hcs'). exists (c' :: cs'). split; [by rewrite <- app_assoc|by constructor].
Qed.
Lemma wp_on_child_batch {A} (m : M ArrowArray A) (Q : A -> ArrowArray -> Prop) E n bs cs0 c cs :
  wp m (fun x c' => Q x (batch_array n bs (cs0 ++ c' :: cs))) (fun e c' => E e (batch_array n bs (cs0 ++ c' :: cs))) c ->
  wp (on_array_child (zlen cs0) m) Q E (batch_array n bs (cs0 ++ c :: cs)).
Proof.
  intros Hm. unfold on_array_child. apply wp_bind, wp_gets. cbn [id]. apply wp_bind.
  eapply wp_lift_opt; [apply get_child_batch|]. apply wp_child_result. unfold wp in Hm.
  destruct (m c); [by rewrite put_child_batch..|done|done].
Qed.

(** * Schemas *)
Definition made_child (field : SchemaField) : ArrowSchema :=
  mkSchema (ArrowSchemaFormatTemplate (field_type field)) (Some (field_name field)) None
    (if field_nullable field then ARROW_FLAG_NULLABLE else 0) 0 None None true false.
Definition made_children (fields : list SchemaField) : list (option ArrowSchema) :=
  map (fun f => Some (made_child f)) fields.
Definition made_schema (fields : list SchemaField) : ArrowSchema := struct_with (made_children fields).
Definition flat_field (field : SchemaField) : Prop := flat_type (field_type field) = true.
Definition matches (field : SchemaField) (expected : expected_field) : bool :=
  type_eqb expected.1.2 (field_type field) && eqb expected.2 (field_nullable field) &&
  match expected.1.1 with Some name => String.eqb name (field_name field) | None => true end.

Section schemas.
Context `{Libc}.

(** The schema while its fields are filled in. *)
Lemma struct_with_child cs0 c c' cs :
  set_children (Some (<[Z.to_nat (zlen cs0) := c']> (cs0 ++ c :: cs))) (struct_with (cs0 ++ c :: cs)) =
  struct_with (cs0 ++ c' :: cs).
Proof.
  unfold struct_with, set_children. cbn. unfold zlen. rewrite Nat2Z.id, insert_app_r_alt, Nat.sub_diag by lia.
  cbn [list_insert]. rewrite !length_app. cbn [length]. f_equal. by destruct cs0.
Qed.
Lemma wp_struct_child {A} (m : M ArrowSchema A) (Q : A -> ArrowSchema -> Prop) (E : Z -> ArrowSchema -> Prop) cs0 c cs :
  wp m (fun x c' => Q x (struct_with (cs0 ++ Some c' :: cs))) (fun e c' => E e (struct_with (cs0 ++ Some c' :: cs))) c ->
  wp (Schema.on_child (zlen cs0) m) Q E (struct_with (cs0 ++ Some c :: cs)).
Proof.
  intros Hm. eapply (Schema.wp_on_child _ c (cs0 ++ Some c :: cs)); [apply zlen_nonneg|by destruct cs0| |].
  - unfold zlen. rewrite Nat2Z.id. by apply list_lookup_middle.
  - eapply wp_conseq; [exact Hm|intros x c' HQ|intros e c' HE]; by rewrite struct_with_child.
Qed.
Lemma make_fields_spec fields : Forall flat_field fields -> forall cs0,
  wp (make_fields fields (zlen cs0)) (fun _ s => s = struct_with (cs0 ++ made_children fields))
    (fun c _ => enomem c tt) (struct_with (cs0 ++ replicate (length fields) fresh_child)).
Proof.
  induction fields as [|field fields IH]; intros Hf cs0; cbn [make_fields length replicate made_children map].
  { by apply wp_ret. }
  apply Forall_cons in Hf as [Hflat Hf]. apply wp_bind, wp_struct_child.
  eapply wp_conseq; [by apply set_flat_type| |by intros c t [-> ?]]. intros [] c ->. apply wp_bind, wp_struct_child.
  eapply wp_conseq; [by apply set_name_spec| |by intros c t [[-> ?] _]]. intros [] c ->.
  assert (wp (when (negb (field_nullable field)) (Schema.on_child (zlen cs0) set_not_nullable))
    (fun _ s => s = struct_with (cs0 ++ Some (made_child field) :: replicate (length fields) fresh_child))
    (fun c _ => enomem c tt)
    (struct_with (cs0 ++ Some (set_name (Some (field_name field)) (set_format (ArrowSchemaFormatTemplate (field_type field)) fresh_schema))
       :: replicate (length fields) fresh_child))) as Hn.
  { unfold made_child. destruct (field_nullable field); [by apply wp_ret|].
    apply wp_struct_child, wp_bind, wp_determinate; [done|]. by apply wp_modify. }
  apply wp_bind. eapply wp_conseq; [exact Hn| |done]. intros [] s ->.
  specialize (IH Hf (cs0 ++ [Some (made_child field)])). rewrite zlen_snoc, <- !app_assoc in IH. exact IH.
Qed.
Lemma MakeSchema_spec fields s : Forall flat_field fields ->
  wp (MakeSchema fields) (fun _ s => s = made_schema fields) (fun c _ => enomem c tt) s.
Proof.
  intros Hf. unfold MakeSchema, ArrowSchemaInit. apply wp_bind, wp_put, wp_bind.
  eapply wp_conseq; [apply set_struct_spec, zlen_nonneg| |done]. intros [] t ->.
  assert (Z.to_nat (zlen fields) = length fields) as -> by (unfold zlen; lia).
  exact (make_fields_spec fields Hf []).
Qed.
End schemas.

(** ** The views of these schemas *)
Lemma view_child field e : flat_field field -> exists v,
  ArrowSchemaViewInit (made_child field) (fresh_view, e) = Ret tt (v, e) /\ sv_type v = field_type field /\
  (leaf_type (field_type field) ->
     sv_storage_type v = field_type field /\ sv_layout v = ArrowLayoutInit (field_type field)).
Proof.
  destruct field as [name type nullable]. unfold flat_field, made_child. cbn [field_type field_name field_nullable].
  intros Ht. set (s := mkSchema _ _ _ _ _ _ _ _ _).
  exists (match ArrowSchemaViewInit s (fresh_view, e) with Ret _ q => q.1 | _ => fresh_view end).
  destruct type; try discriminate Ht;
    (split; [reflexivity|split; [reflexivity|intros [[? | ?] | ?]; (discriminate || by split)]]).
Qed.
Lemma view_struct fields e : exists v,
  ArrowSchemaViewInit (made_schema fields) (fresh_view, e) = Ret tt (v, e) /\ sv_type v = TYPE_STRUCT /\
  sv_storage_type v = TYPE_STRUCT /\ sv_layout v = ArrowLayoutInit TYPE_STRUCT.
Proof.
  set (s := made_schema fields).
  set (v := SchemaView.set_types TYPE_STRUCT TYPE_STRUCT (set_view_schema (Some s) fresh_view)).
  assert (ArrowSchemaViewValidateNChildren (-1) (v, e) = Ret tt (v, e)) as Hv.
  { assert (forall n k, for_loop n k (fun i =>
        child ← lift_opt (child_at s i);
        match child with
        | None => invalid "Expected valid schema at schema->children[%d] but found NULL" [AInt i]
        | Some c =>
            if sc_release c then mret tt
            else invalid ("Expected valid schema at schema->children[%d] but found a " +:+
                          "released schema") [AInt i]
        end) (v, e) = Ret tt (v, e) \/ k < 0 \/ zlen fields < k + Z.of_nat n) as Hloop.
    { induction n as [|n IH]; intros k; [by left|]. destruct (decide (k < 0)); [by right; left|].
      destruct (decide (zlen fields < k + Z.of_nat (S n))); [by right; right|]. left. cbn [for_loop].
      destruct (lookup_lt_is_Some_2 fields (Z.to_nat k)) as [f Hf]; [unfold zlen in *; lia|].
      assert (child_at s k = Some (Some (made_child f))) as Hc.
      { unfold child_at. destruct fields as [|f0 fs]; [done|]. cbn [s made_schema struct_with made_children map sc_children mbind option_bind].
        rewrite (proj2 (Z.leb_le 0 k)) by lia. change (Some (made_child f0) :: map _ fs) with (made_children (f0 :: fs)).
        unfold made_children. by rewrite list_lookup_fmap, Hf. }
      unfold mbind at 1, M_bind. unfold mbind at 1, M_bind. rewrite Hc. cbn [lift_opt mret M_ret made_child sc_release].
      destruct (IH (k + 1)) as [IH'|[?|?]]; [exact IH'|lia|lia]. }
    destruct (Hloop (Z.to_nat (zlen fields)) 0) as [Hl|[?|?]]; [|lia|pose proof (zlen_nonneg fields); lia].
    unfold ArrowSchemaViewValidateNChildren, the_schema, for_range.
    cbv [mbind M_bind gets fst lift_opt mret M_ret]. cbn [v sv_schema SchemaView.set_types set_view_schema sv_update].
    cbn [Z.eqb negb andb]. rewrite Z.sub_0_r. cbn [s made_schema struct_with sc_n_children]. unfold made_children.
    rewrite zlen_map. exact Hl. }
  exists (set_extension None None (set_layout (ArrowLayoutInit TYPE_STRUCT) v)).
  split; [|split; [reflexivity|split; reflexivity]].
  transitivity ((ArrowSchemaViewValidateNChildren (-1) ;; on_view (set_layout (ArrowLayoutInit TYPE_STRUCT)) ;;
                 on_view (set_extension None None)) (v, e)); [reflexivity|].
  unfold mbind at 1, M_bind. by rewrite Hv.
Qed.

(** ** Comparing them *)
Lemma made_child_at fields i f : fields !! i = Some f ->
  child_at (made_schema fields) (Z.of_nat i) = Some (Some (made_child f)).
Proof.
  intros Hf. unfold child_at. destruct fields as [|f0 fs]; [done|].
  cbn [made_schema struct_with made_children map sc_children mbind option_bind].
  rewrite (proj2 (Z.leb_le 0 (Z.of_nat i))), Nat2Z.id by lia.
  change (Some (made_child f0) :: map _ fs) with (made_children (f0 :: fs)).
  unfold made_children. by rewrite list_lookup_fmap, Hf.
Qed.
Lemma made_nullable f : is_nullable (made_child f) = field_nullable f.
Proof. unfold is_nullable, made_child. by destruct (field_nullable f). Qed.
Definition all_match (fields : list SchemaField) (expected : list expected_field) : bool :=
  forallb (fun p => matches p.1 p.2) (zip fields expected).
Lemma compare_fields_exact fields0 fields expected failed : Forall flat_field fields ->
  length expected = length fields ->
  compare_fields (made_schema (fields0 ++ fields)) expected (Z.of_nat (length fields0)) failed =
    if all_match fields expected then Ret tt failed else Exit 0 true.
Proof.
  intros Hf. revert fields0 expected. induction Hf as [|f fields Hflat _ IH]; intros fields0 [|[[name type] nullable] expected] Hl;
    try done. injection Hl as Hl. cbn [compare_fields].
  rewrite (made_child_at _ _ f) by by apply list_lookup_middle.
  destruct (view_child f (Some ""%string) Hflat) as (v & Hv & Ht & _). unfold ArrowError in Hv.
  cbv [mbind M_bind lift_opt mret M_ret mjoin option_join assert_view]. rewrite Hv.
  unfold all_match. cbn [zip_with forallb]. unfold matches at 1. cbn [fst snd].
  unfold ASSERT_TRUE. rewrite Ht, made_nullable.
  destruct (type_eqb type (field_type f)); [|done]. destruct (eqb nullable (field_nullable f)); [|done]. simpl andb.
  specialize (IH (fields0 ++ [f]) expected Hl). rewrite <- app_assoc, length_app, Nat2Z.inj_add in IH. cbn [app length] in IH.
  destruct name as [n|]; [|exact IH]. cbn [made_child sc_name].
  destruct (String.eqb n (field_name f)); [exact IH|done].
Qed.
Lemma CompareSchema_exact fields expected failed : Forall flat_field fields ->
  CompareSchema (made_schema fields) expected failed =
    if (zlen expected =? zlen fields) && all_match fields expected then Ret tt failed else Exit 0 true.
Proof.
  intros Hf. unfold CompareSchema. destruct (view_struct fields (Some ""%string)) as (v & Hv & Ht & _).
  unfold ArrowError in Hv.
  unfold mbind at 1, M_bind, assert_view at 1. rewrite Hv. rewrite Ht, bool_decide_true by by vm_compute; repeat constructor.
  unfold mbind at 1, M_bind, ASSERT_TRUE at 1. cbn [mret M_ret].
  assert (sc_n_children (made_schema fields) = zlen fields) as -> by
    (cbn [made_schema struct_with sc_n_children]; apply zlen_map).
  destruct (Z.eqb_spec (zlen expected) (zlen fields)) as [Hl|Hl]; [|done].
  exact (compare_fields_exact [] fields expected failed Hf ltac:(unfold zlen in Hl; lia)).
Qed.

(** * Views of batches *)
Definition struct_view (a : option ArrowArray) (bvs : list ArrowBufferView) (vs : list ArrowArrayView) : ArrowArrayView :=
  mkAV a TYPE_STRUCT (ArrowLayoutInit TYPE_STRUCT) bvs (zlen vs) (Some (map Some vs)) None.
Lemma wp_for_view_children {X A} (g : X -> A) (f : A -> M VE unit) (P P' : X -> ArrowArrayView -> Prop) xs :
  (forall x v e, P x v -> wp (f (g x)) (fun _ q => P' x q.1) no_memory (v, e)) ->
  forall a bvs vs vs0 e, Forall2 P xs vs ->
  wp (for_view_children f (zlen (vs0 ++ vs)) (map (fun x => Some (g x)) xs) (zlen vs0))
    (fun _ q => exists vs', q.1 = struct_view a bvs (vs0 ++ vs') /\ Forall2 P' xs vs') no_memory
    (struct_view a bvs (vs0 ++ vs), e).
Proof.
  intros Hf a bvs vs vs0 e Hvs. revert vs0 e. induction Hvs as [|x v xs vs Hx _ IH]; intros vs0 e.
  - cbn [map for_view_children]. rewrite app_nil_r, Z.leb_refl. apply wp_ret. exists []. by rewrite app_nil_r.
  - cbn [map for_view_children]. rewrite (proj2 (Z.leb_gt _ _)) by (rewrite zlen_app, zlen_cons; pose proof (zlen_nonneg vs); lia).
    apply wp_bind. unfold wp at 1, on_view_child. cbn [fst struct_view av_children].
    rewrite (proj2 (Z.leb_le 0 (zlen vs0))) by apply zlen_nonneg. unfold zlen at 1. rewrite Nat2Z.id, map_app. cbn [map].
    assert ((map Some vs0 ++ Some v :: map Some vs) !! length vs0 = Some (Some v)) as Hl
      by (apply list_lookup_middle; by rewrite length_map).
    rewrite Hl. cbn [mjoin option_join snd]. specialize (Hf x v e Hx). unfold wp in Hf.
    assert (forall v', set_view_children (zlen (vs0 ++ v :: vs))
        (Some (<[Z.to_nat (zlen vs0) := Some v']> (map Some vs0 ++ Some v :: map Some vs)))
        (struct_view a bvs (vs0 ++ v :: vs)) = struct_view a bvs ((vs0 ++ [v']) ++ vs)) as Hback.
    { intros v'. unfold struct_view, set_view_children. cbn. unfold zlen.
      rewrite Nat2Z.id, insert_app_r_alt, length_map, Nat.sub_diag by (by rewrite length_map). cbn [list_insert].
      rewrite <- app_assoc. f_equal; [by rewrite !length_app|]. by rewrite !map_app. }
    destruct (f (g x) (v, e)) as [[] [v' e']|c [v' e']| |]; [|done..]. cbn [fst snd] in Hf |- *.
    assert (zlen (map Some vs0 ++ Some v :: map Some vs) = zlen (vs0 ++ v :: vs)) as Hz by
      (rewrite !zlen_app, !zlen_cons, !zlen_map; done).
    change (av_n_children (struct_view a bvs (vs0 ++ v :: vs))) with (zlen (vs0 ++ v :: vs)).
    rewrite Hback. specialize (IH (vs0 ++ [v']) e'). rewrite zlen_snoc in IH.
    assert (zlen ((vs0 ++ [v']) ++ vs) = zlen (vs0 ++ v :: vs)) as Hz' by (rewrite !zlen_app, !zlen_cons; unfold zlen; simpl; lia).
    rewrite Hz' in IH. eapply wp_conseq; [exact IH| |done].
    intros [] q (vs' & -> & Hvs'). exists (v' :: vs'). split; [by rewrite <- app_assoc|by constructor].
Qed.

Definition leaf_field (field : SchemaField) : Prop := leaf_type (field_type field).
Lemma leaf_flat field : leaf_field field -> flat_field field.
Proof. unfold leaf_field, flat_field. by intros [[-> | ->] | ->]. Qed.

Section views.
Context `{Libc} `{!LibcBound}.

Lemma wp_view_schema s v0 (v : ArrowArrayView) e (Q : ArrowSchemaView -> VE -> Prop) E :
  ArrowSchemaViewInit s (fresh_view, e) = Ret tt (v0, e) -> Q v0 (v, e) -> wp (view_schema s) Q E (v, e).
Proof. intros Hs HQ. unfold wp, view_schema. cbn [fst snd]. by rewrite Hs. Qed.
Lemma leaf_from_schema field v e : leaf_field field ->
  wp (ArrowArrayViewInitFromSchema (made_child field)) (fun _ q => leaf_view (field_type field) q.1) no_memory (v, e).
Proof.
  intros Hf. destruct (view_child field e (leaf_flat _ Hf)) as (v0 & Hv & _ & Hs). destruct (Hs Hf) as [Hst Hly].
  unfold made_child. cbn [ArrowArrayViewInitFromSchema]. fold (made_child field).
  apply wp_bind. eapply wp_view_schema; [exact Hv|]. unfold on_av. apply wp_bind, wp_modify, wp_bind.
  cbn [fst snd sc_n_children made_child sc_children]. rewrite Hst, Hly.
  apply wp_allocate_children; [done|done|]. apply wp_bind, wp_or_reset, wp_ret.
  assert (leaf_view (field_type field) (set_view_children 0 (Some (replicate (Z.to_nat 0) (Some (ArrowArrayViewInitFromType TYPE_UNINITIALIZED))))
    (set_av_layout (ArrowLayoutInit (field_type field)) (ArrowArrayViewInitFromType (field_type field))))) as Hl by by repeat eexists.
  unfold leaf_field in Hf. destruct Hf as [[Ht | Ht] | Ht]; rewrite Ht in *; by apply wp_ret.
Qed.
Lemma batch_from_schema fields v e : Forall leaf_field fields -> fields <> [] ->
  wp (ArrowArrayViewInitFromSchema (made_schema fields))
    (fun _ q => exists vs, q.1 = struct_view None null_views vs /\ Forall2 (fun f => leaf_view (field_type f)) fields vs)
    no_memory (v, e).
Proof.
  intros Hf Hne. destruct (view_struct fields e) as (v0 & Hv & _ & Hst & Hly).
  assert (sc_children (made_schema fields) = Some (made_children fields)) as Hc by by destruct fields.
  assert (sc_n_children (made_schema fields) = zlen fields) as Hn by apply zlen_map.
  assert (exists s, made_schema fields = s) as [s Hs] by by eexists. rewrite Hs in *.
  assert (wp (schema_view ← view_schema s;
    on_av (fun _ => set_av_layout (sv_layout schema_view) (ArrowArrayViewInitFromType (sv_storage_type schema_view))) ;;
    or_reset (ArrowArrayViewAllocateChildren (zlen fields)) ;;
    or_reset (for_view_children ArrowArrayViewInitFromSchema (zlen fields) (made_children fields) 0) ;;
    match sv_storage_type schema_view with
    | TYPE_SPARSE_UNION | TYPE_DENSE_UNION =>
        if negb (malloc_ok 256) then exit ENOMEM else
        type_ids ← lift_opt (sv_union_type_ids schema_view);
        '(n_type_ids, ids) ← lift_opt (parse_type_ids_into type_ids 128);
        on_av (set_type_map (Some (union_map ids n_type_ids)))
    | _ => mret tt
    end) (fun _ q => exists vs, q.1 = struct_view None null_views vs /\ Forall2 (fun f => leaf_view (field_type f)) fields vs)
    no_memory (v, e)) as Hw.
  { apply wp_bind. eapply wp_view_schema; [exact Hv|]. unfold on_av. apply wp_bind, wp_modify, wp_bind. cbn [fst snd].
    rewrite Hst, Hly. apply wp_allocate_children; [done|apply zlen_nonneg|]. apply wp_bind, wp_or_reset.
    set (fresh := ArrowArrayViewInitFromType TYPE_UNINITIALIZED).
    assert (set_view_children (zlen fields) (Some (replicate (Z.to_nat (zlen fields)) (Some fresh)))
        (set_av_layout (ArrowLayoutInit TYPE_STRUCT) (ArrowArrayViewInitFromType TYPE_STRUCT)) =
      struct_view None null_views ([] ++ replicate (length fields) fresh)) as ->.
    { unfold struct_view, set_view_children. cbn. unfold zlen. by rewrite Nat2Z.id, length_replicate, <- fmap_replicate. }
    assert (zlen fields = zlen ([] ++ replicate (length fields) fresh)) as Hz by (unfold zlen; simpl; by rewrite length_replicate).
    rewrite Hz. eapply wp_conseq; [apply (wp_for_view_children made_child ArrowArrayViewInitFromSchema
        (fun f _ => leaf_field f) (fun f => leaf_view (field_type f)) fields)| |done].
    - intros f v' e' Hl. by apply leaf_from_schema.
    - clear -Hf. induction Hf; simpl; by constructor.
    - intros [] q Hq. by apply wp_ret. }
  destruct s as [sf sn smd sfl snc sch sd sr si]. cbn in Hc, Hn. subst sch snc. exact Hw.
Qed.
End views.

(** * Building a batch *)
Section build.
Context `{Libc} `{!LibcBound}.

Definition null_blocks : list (option (list Z)) := [None; None; None].
Definition childless : ArrowArray :=
  mkArray 0 0 0 1 0 null_blocks None None true
    (Some (mkPrivate ArrowBitmapInit (ArrowBufferInit, ArrowBufferInit) TYPE_STRUCT (ArrowLayoutInit TYPE_STRUCT) true)) false.
Lemma allocate_array_children k : 0 < k ->
  wp (ArrowArrayAllocateChildren k)
    (fun _ a => a = batch_array 0 null_blocks (replicate (Z.to_nat k) indet_array))
    (fun c a => c = ENOMEM /\ ar_release a = true) childless.
Proof.
  intros Hk. unfold ArrowArrayAllocateChildren. apply wp_bind, wp_gets. cbn [id childless ar_children].
  rewrite bool_decide_false by by intros []. rewrite (proj2 (Z.eqb_neq k 0)) by lia.
  destruct (malloc_ok (k * sizeof_ptr)); [|done]. cbn [negb]. apply wp_bind, wp_modify, wp_bind.
  set (upto := fun i => set_array_children 0 (Some (replicate i (Some indet_array) ++ replicate (Z.to_nat k - i) None)) childless).
  eapply wp_conseq; [apply (wp_for_loop (fun i a => a = upto (Z.to_nat i)) _ 0 _ (fun c a => c = ENOMEM /\ ar_release a = true))| |done].
  - unfold upto. by rewrite Nat.sub_0_r.
  - intros i a Hi ->. rewrite Z2Nat.id, Z.add_0_l, Z.sub_0_r in Hi by lia.
    destruct (malloc_ok sizeof_ArrowArray); [|done]. apply wp_modify. unfold upto, put_child, set_array_children. cbn. do 2 f_equal.
    rewrite (children_step _ _ _ (Z.to_nat i) (Z.to_nat k)) by (rewrite ?length_replicate; lia).
    replace (Z.to_nat (i + 1)) with (Z.to_nat i + 1)%nat by lia.
    by rewrite replicate_add, <- app_assoc, Nat.add_1_r.
  - intros [] a ->. apply wp_modify. rewrite Z.sub_0_r, Z.add_0_l, Nat2Z.id. unfold upto, batch_array, set_array_children. cbn.
    rewrite Nat.sub_diag, app_nil_r. unfold zlen. rewrite length_replicate, Z2Nat.id by lia. by rewrite <- fmap_replicate.
Qed.

(** The loop over the children of [ArrowArrayInitFromArrayView]. *)
Definition init_children (n : Z) : list (option ArrowArrayView) -> Z -> M ArrowArray unit :=
  fix go (cs : list (option ArrowArrayView)) (i : Z) {struct cs} : M ArrowArray unit :=
    if n <=? i then mret tt else
    match cs with
    | Some c :: cs' =>
        result ← catch (on_array_child i (ArrowArrayInitFromArrayView c));
        when (negb (result =? 0)) (ArrowArrayRelease ;; exit result) ;;
        go cs' (i + 1)
    | _ => undef
    end.
Lemma init_children_spec types vs : malloc_ok sizeof_private = true -> Forall leaf_type types -> Forall2 leaf_view types vs ->
  forall done,
  wp (init_children (zlen (done ++ map fresh_leaf types)) (map Some vs) (zlen done))
    (fun _ a => a = batch_array 0 null_blocks (done ++ map fresh_leaf types)) no_memory
    (batch_array 0 null_blocks (done ++ replicate (length types) indet_array)).
Proof.
  intros Hm Ht Hvs. induction Hvs as [|t v types vs Hv _ IH]; intros done; cbn [init_children map length replicate].
  - rewrite app_nil_r, Z.leb_refl. by apply wp_ret.
  - apply Forall_cons in Ht as [Ht Hts]. fold (init_children (zlen (done ++ fresh_leaf t :: map fresh_leaf types))).
    rewrite (proj2 (Z.leb_gt _ _)) by (rewrite zlen_app, zlen_cons; pose proof (zlen_nonneg (map fresh_leaf types)); lia).
    apply wp_bind, wp_catch, wp_on_child_batch. eapply wp_conseq; [by apply (init_leaf t) with (E := fun _ _ => False)| |done].
    intros [] a ->. apply wp_bind, wp_ret.
    specialize (IH Hts (done ++ [fresh_leaf t])). rewrite zlen_snoc, <- !app_assoc in IH. exact IH.
Qed.
Lemma init_batch types vs a : malloc_ok sizeof_private = true -> Forall leaf_type types -> Forall2 leaf_view types vs ->
  types <> [] ->
  wp (ArrowArrayInitFromArrayView (struct_view None null_views vs))
    (fun _ a => a = batch_array 0 null_blocks (map fresh_leaf types)) no_memory a.
Proof.
  intros Hm Ht Hvs Hne. pose proof (Forall2_length _ _ _ Hvs) as Hl.
  assert (0 < zlen vs) as Hk by (destruct types; [done|]; unfold zlen; simpl in Hl; lia).
  assert (wp (put childless ;;
      result ← catch (ArrowArrayAllocateChildren (zlen vs));
      when (negb (result =? 0)) (ArrowArrayRelease ;; exit result) ;;
      on_private (modify (set_pd_layout (ArrowLayoutInit TYPE_STRUCT))) ;;
      init_children (zlen vs) (map Some vs) 0)
    (fun _ a => a = batch_array 0 null_blocks (map fresh_leaf types)) no_memory a) as Hw.
  { apply wp_bind, wp_put, wp_bind, wp_catch. eapply wp_conseq; [by apply allocate_array_children| |].
    2:{ intros c a' [-> Hr]. apply wp_bind. unfold when. cbn [negb Z.eqb ENOMEM]. apply wp_bind.
        unfold ArrowArrayRelease. apply wp_bind, wp_gets. cbn [id]. rewrite Hr. by apply wp_put, wp_exit. }
    intros [] a' ->. apply wp_bind, wp_ret, wp_bind.
    assert (Z.to_nat (zlen vs) = length types) as -> by (unfold zlen; lia).
    assert (zlen vs = zlen ([] ++ map fresh_leaf types)) as -> by (unfold zlen; simpl; rewrite length_map; lia).
    exact (init_children_spec types vs Hm Ht Hvs []). }
  unfold wp in Hw |- *. cbn [ArrowArrayInitFromArrayView struct_view]. unfold ArrowArrayInitFromType. rewrite Hm. exact Hw.
Qed.
End build.

(** A batch whose children stand for these columns. *)
Definition batch_of (P : content -> ArrowArray -> Prop) (n : Z) (cs : list content) (a : ArrowArray) : Prop :=
  exists children, a = batch_array n null_blocks children /\ Forall2 P cs children.
Lemma wp_batch_children (f : Z -> ArrowArray -> result ArrowArray unit) (P P' : content -> ArrowArray -> Prop) cs n :
  Forall content_ok cs -> (forall i c x, content_ok c -> P c x -> wp (f i) (fun _ => P' c) no_memory x) ->
  forall children, Forall2 P cs children ->
  wp (for_children f (zlen children) (map Some children) 0) (fun _ => batch_of P' n cs) no_memory
    (batch_array n null_blocks children).
Proof.
  intros Hok Hf children Hc.
  eapply wp_conseq; [apply (wp_for_children f (fun c x => content_ok c /\ P c x) P' cs) with (cs0 := []) (cs := children)| |done].
  - intros i c x [Hc1 Hc2]. by apply Hf.
  - clear -Hok Hc. induction Hc; [constructor|]. apply Forall_cons in Hok as [? ?]. constructor; auto.
  - intros [] a (children' & -> & Hc'). by exists children'.
Qed.
Lemma batch_children_length P n cs a : batch_of P n cs a -> ar_n_children a = zlen cs.
Proof. intros (children & -> & Hc). unfold zlen. cbn. unfold zlen. by rewrite (Forall2_length _ _ _ Hc). Qed.

Section assemble.
Context `{Libc} `{!LibcBound}.

Lemma start_batch cs : Forall content_ok cs ->
  wp (fun a => ArrowArrayStartAppending a) (fun _ => batch_of (fun c => holds (no_values (type_of c))) 0 cs) no_memory
    (batch_array 0 null_blocks (map (fun c => fresh_leaf (type_of c)) cs)).
Proof.
  intros Hok. set (children := map (fun c => fresh_leaf (type_of c)) cs).
  change (wp (for_children (fun _ => ArrowArrayStartAppending) (zlen children) (map Some children) 0)
    (fun _ => batch_of (fun c => holds (no_values (type_of c))) 0 cs) no_memory (batch_array 0 null_blocks children)).
  apply (wp_batch_children _ (fun c x => x = fresh_leaf (type_of c))); [done| |].
  - intros i c x Hc ->. by apply start_leaf, content_type.
  - subst children. clear Hok. induction cs; simpl; by constructor.
Qed.
Lemma MakeBatchImpl_spec columns : Forall (fun c => content_ok (content_of c)) columns ->
  forall children done, Forall2 (fun c => holds (no_values (type_of (content_of c)))) columns children ->
  wp (MakeBatchImpl (zlen done) columns)
    (fun _ a => exists children', a = batch_array 0 null_blocks (done ++ children') /\
       Forall2 (fun c => holds (content_of c)) columns children') no_memory
    (batch_array 0 null_blocks (done ++ children)).
Proof.
  intros Hok children done Hc. revert done. induction Hc as [|c x columns children Hx Hc IH]; intros done; cbn [MakeBatchImpl].
  { apply wp_ret. by exists []. }
  apply Forall_cons in Hok as [Hc1 Hok]. apply wp_bind, wp_on_child_batch.
  eapply wp_conseq; [by apply MakeColumn_spec| |done]. intros [] x' Hx'.
  specialize (IH Hok (done ++ [x'])). rewrite zlen_snoc, <- app_assoc in IH. cbn [app] in IH.
  eapply wp_conseq; [exact IH| |done]. intros [] a (children' & -> & Hc'). exists (x' :: children').
  split; [by rewrite <- app_assoc|by constructor].
Qed.

Lemma holds_length c a : holds c a -> ar_length a = rows c.
Proof. by intros (bs & bm & b1 & b2 & -> & _). Qed.
(** All columns have [n] rows. *)
Lemma take_length_spec n children e failed : 0 <= n -> Forall (fun x => ar_length x = n) children ->
  wp (for_range 0 (zlen children) take_length)
    (fun _ s => s = ((batch_array (if zlen children =? 0 then 0 else n) null_blocks children, e), failed)) no_memory
    ((batch_array 0 null_blocks children, e), failed).
Proof.
  intros Hn Hc. set (at_ := fun i => ((batch_array (if i =? 0 then 0 else n) null_blocks children, e), failed)).
  eapply wp_conseq; [apply (wp_for_loop (fun i s => s = at_ i) _ 0 _ no_memory)| |done]; [done| |].
  - intros i s Hi ->. rewrite Z2Nat.id, Z.add_0_l, Z.sub_0_r in Hi by (pose proof (zlen_nonneg children); lia).
    destruct (lookup_lt_is_Some_2 children (Z.to_nat i)) as [x Hx]; [unfold zlen in *; lia|].
    rewrite Forall_lookup in Hc. pose proof (Hc _ _ Hx) as Hlen.
    unfold take_length. apply wp_bind, wp_gets. cbn [at_ fst]. apply wp_bind. eapply (wp_lift_opt _ _ _ _ x).
    { unfold get_child. cbn [batch_array ar_children mbind option_bind]. rewrite (proj2 (Z.leb_le 0 i)) by lia.
      by rewrite list_lookup_fmap, Hx. }
    cbn [batch_array ar_length]. rewrite Hlen. unfold at_. rewrite (proj2 (Z.eqb_neq (i + 1) 0)) by lia.
    destruct (Z.eqb_spec i 0) as [-> |Hi0]; [|rewrite Z.eqb_refl, andb_false_r]; done.
  - intros [] s ->. unfold at_. replace (0 + _) with (zlen children); [done|]. pose proof (zlen_nonneg children). lia.
Qed.
End assemble.

(** ** Finishing and viewing *)
Section finish.
Context `{Libc} `{!LibcBound}.

Lemma finalize_batch n cs a : Forall content_ok cs -> batch_of holds n cs a ->
  wp (fun a => ArrowArrayFinalizeBuffers a) (fun _ => batch_of finalized n cs) no_memory a.
Proof.
  intros Hok (children & -> & Hc).
  change (wp (for_children (fun _ => ArrowArrayFinalizeBuffers) (zlen children) (map Some children) 0)
    (fun _ => batch_of finalized n cs) no_memory (batch_array n null_blocks children)).
  apply (wp_batch_children _ holds); [done| |done]. intros i c x Hcc Hx. by apply finalize_leaf.
Qed.
Lemma flush_batch n cs a : Forall content_ok cs -> batch_of finalized n cs a ->
  wp (fun a => ArrowArrayFlushInternalPointers a) (fun _ => batch_of finished n cs) no_memory a.
Proof.
  intros Hok (children & -> & Hc).
  change (wp (for_children (fun _ => ArrowArrayFlushInternalPointers) (zlen children) (map Some children) 0)
    (fun _ => batch_of finished n cs) no_memory (batch_array n null_blocks children)).
  apply (wp_batch_children _ finalized); [done| |done]. intros i c x Hcc Hx. by apply flush_leaf.
Qed.

(** The view's children, one for each column and its array. *)
Definition batch_view_of (P : content -> ArrowArray -> ArrowArrayView -> Prop) (cs : list content)
    (children : list ArrowArray) (v : ArrowArrayView) : Prop :=
  exists a bvs vs, v = struct_view a bvs vs /\ Forall2 (fun p => P p.1 p.2) (zip cs children) vs.
Lemma wp_view_batch_children (f : ArrowArray -> M VE unit) (P P' : content -> ArrowArray -> ArrowArrayView -> Prop) cs children a bvs vs e :
  Forall content_ok cs -> Forall2 finished cs children ->
  (forall c x v e, content_ok c -> finished c x -> P c x v -> wp (f x) (fun _ q => P' c x q.1) no_memory (v, e)) ->
  Forall2 (fun p => P p.1 p.2) (zip cs children) vs ->
  wp (for_view_children f (zlen vs) (map Some children) 0)
    (fun _ q => exists vs', q.1 = struct_view a bvs vs' /\ Forall2 (fun p => P' p.1 p.2) (zip cs children) vs') no_memory
    (struct_view a bvs vs, e).
Proof.
  intros Hok Hfin Hf Hvs.
  assert (map Some children = map (fun p => Some p.2) (zip cs children)) as Hzip.
  { clear -Hfin. induction Hfin; simpl; [done|]. by f_equal. }
  rewrite Hzip.
  eapply wp_conseq; [apply (wp_for_view_children (fun p : content * ArrowArray => p.2) f
     (fun p v => content_ok p.1 /\ finished p.1 p.2 /\ P p.1 p.2 v) (fun p v => P' p.1 p.2 v) (zip cs children)) with (vs0 := [])| |done].
  - intros [c x] v e' (H1 & H2 & H3). by apply Hf.
  - clear -Hok Hfin Hvs. revert vs Hvs. induction Hfin; intros vs Hvs; cbn [zip_with] in *.
    + inversion Hvs. constructor.
    + apply Forall_cons in Hok as [? ?]. inversion Hvs; subst. constructor; [done|auto].
  - intros [] q Hq. exact Hq.
Qed.

Lemma view_batch n cs children v e : Forall content_ok cs -> Forall2 finished cs children -> cs <> [] ->
  wp (ArrowArrayViewInitFromArray (batch_array n null_blocks children))
    (fun _ q => batch_view_of (fun c _ => leaf_view (type_of c)) cs children q.1) no_memory (v, e).
Proof.
  intros Hok Hfin Hne. pose proof (Forall2_length _ _ _ Hfin) as Hl. unfold batch_array. cbn [ArrowArrayViewInitFromArray ar_private].
  apply wp_bind, wp_ret, wp_bind, wp_modify, wp_bind. cbn [fst snd]. set (b := mkArray _ _ _ _ _ _ _ _ _ _ _).
  apply wp_allocate_children; [done|apply zlen_nonneg|].
  apply wp_or_reset. cbn [all_children ar_children ar_n_children].
  set (fresh := ArrowArrayViewInitFromType TYPE_UNINITIALIZED).
  assert (set_view_children (zlen children) (Some (replicate (Z.to_nat (zlen children)) (Some fresh)))
     (set_av_array (Some b) (set_av_layout (ArrowLayoutInit TYPE_STRUCT) (ArrowArrayViewInitFromType TYPE_STRUCT))) =
     struct_view (Some b) null_views (replicate (length children) fresh)) as Hstart.
  { unfold struct_view, set_view_children. cbn. unfold zlen. by rewrite Nat2Z.id, length_replicate, <- fmap_replicate. }
  cbn [pd_layout pd_storage_type]. change (ar_n_children b) with (zlen children). rewrite Hstart.
  assert (zlen children = zlen (replicate (length children) fresh)) as -> by (unfold zlen; by rewrite length_replicate).
  eapply wp_conseq; [apply (wp_view_batch_children _ (fun _ _ _ => True) (fun c _ => leaf_view (type_of c)) cs children)| |done]; [done..| | |].
  - intros c x v' e' Hc Hx _. by apply view_leaf.
  - clear -Hl. revert children Hl. induction cs as [|c cs IH]; intros [|x children] Hl; simpl; try done. constructor; auto.
  - intros [] q (vs & Hq & Hvs). exists (Some b), null_views, vs. done.
Qed.
Lemma finished_rows c x : content_ok c -> finished c x -> 0 <= rows c < 2 ^ 48 /\ ar_length x = rows c.
Proof.
  intros Hc (bm & b1 & b2 & -> & Hok1 & _ & Hc1 & _). split; [|done]. by eapply content_rows.
Qed.
Lemma struct_set_length n (cs : list content) (children : list ArrowArray) a bvs vs : 0 <= n < 2 ^ 48 ->
  Forall2 (fun p : content * ArrowArray => leaf_view (type_of p.1)) (zip cs children) vs -> Forall content_ok cs ->
  exists vs', ArrowArrayViewSetLength (struct_view a bvs vs) n =
      Some (struct_view a [mkBV None (_ArrowBytesForBits n); mkBV None 0; mkBV None 0] vs') /\
    Forall2 (fun p : content * ArrowArray => leaf_view (type_of p.1)) (zip cs children) vs'.
Proof.
  intros Hn Hvs Hok.
  set (go := fix go (cs : list (option ArrowArrayView)) (i : Z) {struct cs} : option (list (option ArrowArrayView)) :=
    if zlen vs <=? i then Some cs else
    match cs with
    | Some c :: cs' =>
        c' ← ArrowArrayViewSetLength c n; rest ← go cs' (i + 1); Some (Some c' :: rest)
    | _ => None
    end).
  assert (forall ps us, Forall (fun p : content * ArrowArray => content_ok p.1) ps ->
    Forall2 (fun p : content * ArrowArray => leaf_view (type_of p.1)) ps us -> forall i, i + zlen us = zlen vs ->
    exists us', go (map Some us) i = Some (map Some us') /\
      Forall2 (fun p : content * ArrowArray => leaf_view (type_of p.1)) ps us') as Hgo.
  { intros ps us Hps Hus. revert Hps. induction Hus as [|p u ps us Hu _ IH]; intros Hps i Hi.
    - exists []. split; [|constructor]. change ((if zlen vs <=? i then Some [] else None) = Some (@nil (option ArrowArrayView))).
      rewrite (proj2 (Z.leb_le _ _)); [done|]. unfold zlen in *. simpl in Hi. lia.
    - rewrite zlen_cons in Hi. pose proof (zlen_nonneg us). apply Forall_cons in Hps as [Hp Hps].
      destruct (IH Hps (i + 1)) as (us' & He & Hus'); [lia|]. change (exists us', (if zlen vs <=? i then Some (map Some (u :: us)) else
        c' ← ArrowArrayViewSetLength u n; rest ← go (map Some us) (i + 1); Some (Some c' :: rest)) = Some (map Some us') /\
        Forall2 (fun p : content * ArrowArray => leaf_view (type_of p.1)) (p :: ps) us').
      rewrite (proj2 (Z.leb_gt _ _)) by lia.
      rewrite (leaf_set_length (type_of p.1) u n (content_type _ Hp) Hu Hn).
      cbn [mbind option_bind]. rewrite He. eexists (_ :: us'). split; [done|]. constructor; [by repeat eexists|done]. }
  destruct (Hgo (zip cs children) vs) with (i := 0) as (vs' & He & Hvs'); [|done|lia|].
  { apply Forall_forall. intros [c x] Hin. apply elem_of_zip_l in Hin. rewrite Forall_forall in Hok. by apply Hok. }
  exists vs'. split; [|done].
  transitivity (cs' ← go (map Some vs) 0;
    Some (set_view_children (zlen vs) (Some cs')
      (set_views [mkBV None (_ArrowBytesForBits n); mkBV None 0; mkBV None 0] (struct_view a bvs vs)))); [reflexivity|].
  rewrite He. cbn [mbind option_bind]. unfold struct_view, set_view_children. cbn. do 2 f_equal.
  apply Forall2_length in Hvs, Hvs'. unfold zlen. lia.
Qed.
Lemma check_batch sl n cs children a bvs vs e : 0 <= n < 2 ^ 48 -> Forall content_ok cs -> Forall2 finished cs children ->
  Forall2 (fun p v => leaf_view (type_of p.1) v /\ (sl = true \/ fits p.1 v)) (zip cs children) vs ->
  wp (ArrowArrayCheckInternalBufferSizes sl (batch_array n null_blocks children))
    (fun _ q => batch_view_of (fun c _ => fits c) cs children q.1) no_memory (struct_view a bvs vs, e).
Proof.
  intros Hn Hok Hfin Hvs. set (b := batch_array n null_blocks children).
  set (before := fun p : content * ArrowArray => fun v => leaf_view (type_of p.1) v /\ (sl = true \/ fits p.1 v)) in *.
  assert (zlen vs = zlen children) as Hz.
  { apply Forall2_length in Hvs, Hfin. rewrite length_zip in Hvs. unfold zlen. lia. }
  assert (wp (when sl (m ← i64 (0 + n); set_view_length m) ;; for_range 0 1 (check_buffer b) ;;
     for_view_children (ArrowArrayCheckInternalBufferSizes sl) (zlen children) (map Some children) 0)
    (fun _ q => batch_view_of (fun c _ => fits c) cs children q.1) no_memory (struct_view a bvs vs, e)) as Hw.
  { apply wp_bind.
    assert (wp (when sl (m ← i64 (0 + n); set_view_length m))
      (fun _ q => exists bvs' vs', q = (struct_view a bvs' vs', e) /\ Forall2 before (zip cs children) vs') no_memory
      (struct_view a bvs vs, e)) as Hlen.
    { destruct sl; [|apply wp_ret; by exists bvs, vs]. cbn [when].
      apply wp_bind, wp_i64; [unfold INT64_MIN, INT64_MAX; lia|]. rewrite Z.add_0_l.
      destruct (struct_set_length n cs children a bvs vs Hn) as (vs' & He & Hvs'); [|done|].
      { eapply Forall2_impl; [exact Hvs|]. by intros p v []. }
      unfold set_view_length. apply wp_bind, wp_gets, wp_bind. cbn [fst]. eapply wp_lift_opt; [exact He|].
      unfold on_av. apply wp_modify. eexists _, vs'. split; [done|].
      eapply Forall2_impl; [exact Hvs'|]. intros p v Hv. split; [done|by left]. }
    eapply wp_conseq; [exact Hlen| |done]. intros [] q (bvs' & vs' & -> & Hvs'). apply wp_bind, wp_bind.
    unfold check_buffer at 1. apply wp_bind, wp_gets, wp_bind. cbn [fst]. eapply wp_lift_opt; [reflexivity|].
    apply wp_ret, wp_ret. assert (zlen vs' = zlen children) as <-.
    { rewrite <- Hz. apply Forall2_length in Hvs, Hvs'. unfold zlen. lia. }
    eapply wp_conseq; [apply (wp_view_batch_children _ (fun c x => before (c, x)) (fun c _ => fits c) cs children)| |done]; [done..| | |].
    - intros c x v e' Hc Hx [Hl Hs]. by apply check_leaf.
    - eapply Forall2_impl; [exact Hvs'|]. by intros [c x] v Hv.
    - intros [] q (vs2 & Hq & Hvs2). by exists a, bvs', vs2. }
  exact Hw.
Qed.
Lemma set_array_batch n cs children a bvs vs e : 0 <= n < 2 ^ 48 -> Forall content_ok cs -> Forall2 finished cs children ->
  Forall2 (fun p v => leaf_view (type_of p.1) v) (zip cs children) vs -> Forall (fun c => rows c = n) cs ->
  wp (fun q => ArrowArrayViewSetArray (batch_array n null_blocks children) q)
    (fun _ q => batch_view_of viewed cs children q.1) no_memory (struct_view a bvs vs, e).
Proof.
  intros Hn Hok Hfin Hvs Hrows. set (b := batch_array n null_blocks children).
  destruct (struct_set_length n cs children (Some b) bvs vs Hn Hvs Hok) as (vs' & He & Hvs').
  set (sized := struct_view (Some b) [mkBV None 0; mkBV None 0; mkBV None 0] vs').
  assert (zlen vs' = zlen children) as Hz.
  { apply Forall2_length in Hvs', Hfin. rewrite length_zip in Hvs'. unfold zlen. lia. }
  assert (forall i x, 0 <= i -> children !! Z.to_nat i = Some x -> child_length b i = Some n) as Hlen.
  { intros i x Hi Hx. unfold child_length, get_child. cbn [b batch_array ar_children mbind option_bind].
    rewrite (proj2 (Z.leb_le 0 i)), list_lookup_fmap, Hx by done. cbn [fmap option_fmap option_map mjoin option_join]. f_equal.
    destruct (Forall2_lookup_r _ _ _ _ _ Hfin Hx) as (c & Hc & Hfc). rewrite Forall_lookup in Hok, Hrows.
    rewrite <- (Hrows _ _ Hc). by apply finished_rows; [eapply Hok|]. }
  unfold wp. cbn [ArrowArrayViewSetArray b batch_array ar_indeterminate ar_offset ar_length].
  fold b.
  match goal with |- match ?m _ with _ => _ end => change (wp m (fun _ q => batch_view_of viewed cs children q.1) no_memory (struct_view a bvs vs, e)) end.
  apply wp_bind, wp_ret, wp_bind, wp_i64; [unfold INT64_MIN, INT64_MAX; lia|]. rewrite Z.add_0_l.
  unfold on_av at 1. apply wp_bind, wp_modify, wp_bind. unfold set_view_length. apply wp_bind, wp_gets, wp_bind. cbn [fst snd].
  eapply wp_lift_opt; [exact He|]. unfold on_av at 1. apply wp_modify, wp_bind, wp_gets, wp_bind. cbn [fst snd].
  eapply (wp_lift_opt _ _ _ _ sized); [reflexivity|]. unfold on_av at 1. apply wp_bind, wp_modify.
  cbn [fst snd].
  set (each := fun i => m ← lift_opt (child_length b i);
    if m <? n
    then view_invalid ("Expected struct child %d to have length >= %ld but found " +:+
                       "child with length %ld") [AInt (i + 1); AInt n; AInt m]
    else mret tt).
  change (wp (if negb (zlen vs' =? zlen children) then exit EINVAL else
      for_range 0 (zlen vs') each ;;
      for_view_children (fun a q => ArrowArrayViewSetArray a q) (zlen vs') (map Some children) 0)
    (fun _ q => batch_view_of viewed cs children q.1) no_memory (sized, e)).
  rewrite (proj2 (Z.eqb_eq _ _) Hz). apply wp_bind.
  eapply wp_conseq; [apply (wp_for_loop (fun _ q => q = (sized, e)) _ 0 _ no_memory)| |done]; [done| |].
  - intros i q Hi ->. rewrite Z2Nat.id, Z.add_0_l, Z.sub_0_r in Hi by (pose proof (zlen_nonneg vs'); lia).
    destruct (lookup_lt_is_Some_2 children (Z.to_nat i)) as [x Hx]; [unfold zlen in *; lia|].
    unfold each. apply wp_bind. eapply wp_lift_opt; [by eapply Hlen; [lia|]|].
    rewrite Z.ltb_irrefl. by apply wp_ret.
  - intros [] q ->. eapply wp_conseq; [apply (wp_view_batch_children _ (fun c _ => leaf_view (type_of c)) viewed cs children)| |done]; [done..| |exact Hvs'|].
    + intros c x v e' Hc Hx Hl. by apply set_array_leaf.
    + intros [] q (vs2 & Hq & Hvs2). by eexists _, _, vs2.
Qed.
Lemma wp_local_view (init : M VE unit) (P : ArrowArrayView -> Prop) a e :
  (forall v, wp init (fun _ q => P q.1) no_memory (v, e)) ->
  wp (local_view init) (fun v q => P v /\ q.1 = a) no_memory (a, e).
Proof.
  intros Hi. unfold wp, local_view. cbn [fst snd]. specialize (Hi ArrowArrayViewReset). unfold wp in Hi.
  by destruct (init (ArrowArrayViewReset, e)) as [[] [v e']|c [v e']| |].
Qed.
Lemma finish_batch n cs a e : 0 <= n -> Forall content_ok cs -> Forall (fun c => rows c = n) cs -> cs <> [] ->
  batch_of holds n cs a ->
  wp ArrowArrayFinishBuilding (fun _ q => batch_of finished n cs q.1) no_memory (a, e).
Proof.
  intros Hn Hok Hrows Hne Ha. unfold ArrowArrayFinishBuilding.
  apply wp_bind, wp_zoom. eapply wp_conseq; [by apply finalize_batch| |done]. intros [] a1 Ha1.
  apply wp_bind, wp_zoom. eapply wp_conseq; [by apply flush_batch| |done]. intros [] a2 (children & -> & Hfin).
  apply wp_bind, wp_gets. cbn [fst_lens view over fst snd]. apply wp_bind.
  assert (n < 2 ^ 48) as Hlt.
  { destruct Hfin as [|c x cs children Hx _]; [done|]. apply Forall_cons in Hok as [Hc _].
    apply Forall_cons in Hrows as [<- _]. by destruct (finished_rows c x Hc Hx) as [[_ ?] _]. }
  eapply wp_conseq; [apply (wp_local_view _ (fun _ => True))| |done].
  2:{ intros v q [_ Hq]. apply wp_ret. rewrite Hq. by exists children. }
  intros v. apply wp_bind. eapply wp_conseq; [by apply (view_batch n cs)| |done].
  intros [] [v1 e1] (x1 & bvs1 & vs1 & Hv1 & Hvs1). cbn [fst] in Hv1. subst v1. apply wp_bind.
  eapply wp_conseq; [apply (check_batch true n cs)| |done]; [done..| |].
  { eapply Forall2_impl; [exact Hvs1|]. intros p u Hu. split; [done|by left]. }
  intros [] [v2 e2] (x2 & bvs2 & vs2 & Hv2 & Hvs2). cbn [fst] in Hv2. subst v2. apply wp_bind.
  eapply wp_conseq; [apply (set_array_batch n cs)| |done]; [done..| |done|].
  { eapply Forall2_impl; [exact Hvs2|]. intros p u Hu. by apply fits_leaf. }
  intros [] [v3 e3] (x3 & bvs3 & vs3 & Hv3 & Hvs3). cbn [fst] in Hv3. subst v3.
  eapply wp_conseq; [apply (check_batch false n cs)| |done]; [done..| |done].
  eapply Forall2_impl; [exact Hvs3|]. intros p u Hu. apply viewed_finished in Hu as [_ Hu].
  split; [by apply fits_leaf|by right].
Qed.
Lemma wp_on_array {A} (m : M ArrowArray A) (Q : A -> BatchState -> Prop) E a e failed :
  wp m (fun x a' => Q x ((a', e), failed)) (fun c a' => E c ((a', e), failed)) a -> wp (on_array m) Q E ((a, e), failed).
Proof. intros Hm. unfold on_array. by apply wp_zoom, wp_zoom. Qed.

(** A batch built from columns with [n] values each. *)
Lemma MakeBatch_spec fields columns n s : Forall leaf_field fields ->
  Forall2 (fun f c => field_type f = type_of (content_of c)) fields columns -> fields <> [] ->
  Forall (fun c => content_ok (content_of c) /\ rows (content_of c) = n) columns -> malloc_ok sizeof_private = true ->
  wp (MakeBatch_schema (made_schema fields) columns)
    (fun _ s' => s'.2 = s.2 /\ batch_of finished n (map content_of columns) s'.1.1) no_memory s.
Proof.
  intros Hf Htypes Hne Hcols Hm. destruct s as [[a e] failed]. unfold MakeBatch_schema.
  set (cs := map content_of columns).
  assert (Forall content_ok cs) as Hok by (apply Forall_map; eapply Forall_impl; [exact Hcols|by intros c []]).
  assert (Forall (fun c => rows c = n) cs) as Hrows by (apply Forall_map; eapply Forall_impl; [exact Hcols|by intros c []]).
  assert (map field_type fields = map type_of cs) as Ht.
  { unfold cs. rewrite map_map. clear -Htypes. induction Htypes; simpl; [done|by f_equal]. }
  assert (cs <> []) as Hcs by by destruct fields, cs.
  assert (0 <= n) as Hn by (destruct cs as [|c cs']; [done|]; apply Forall_cons in Hrows as [<- _]; apply zlen_nonneg).
  apply wp_bind, wp_zoom. cbn [fst_lens view over fst snd]. unfold ArrowArrayInitFromSchema at 1. apply wp_bind.
  eapply wp_conseq; [apply (wp_local_view _ (fun v => exists vs, v = struct_view None null_views vs /\
     Forall2 (fun f => leaf_view (field_type f)) fields vs))| |done].
  { intros v. eapply wp_conseq; [by apply batch_from_schema| |done]. intros [] q (vs & Hq & Hvs). by exists vs. }
  intros v [a1 e1] [(vs & -> & Hvs) _]. apply wp_bind, wp_zoom. cbn [fst_lens view over fst snd].
  eapply wp_conseq; [apply (init_batch (map field_type fields))| |done]; [done|by apply Forall_map| |by destruct fields|].
  { clear -Hvs. induction Hvs; simpl; by constructor. }
  intros [] a2 ->. cbn [struct_view av_storage_type]. apply wp_ret. cbn [fst_lens view over fst snd].
  rewrite Ht, map_map. unfold MakeBatch.
  apply wp_bind, wp_on_array. eapply wp_conseq; [by apply start_batch| |done]. intros [] a3 (children & -> & Hc3).
  apply wp_bind, wp_on_array. eapply wp_conseq; [apply (MakeBatchImpl_spec columns) with (done := [])| |done].
  { eapply Forall_impl; [exact Hcols|by intros c []]. }
  { clear -Hc3. subst cs. revert children Hc3. induction columns; intros children Hc3; inversion Hc3; subst; constructor; auto. }
  intros [] a4 (children' & -> & Hc4). cbn [app]. apply wp_bind, wp_gets, wp_bind. cbn [fst batch_array ar_n_children].
  assert (Forall2 holds cs children') as Hholds by (clear -Hc4; subst cs; induction Hc4; simpl; by constructor).
  eapply wp_conseq; [apply (take_length_spec n)| |done]; [done| |].
  { apply Forall_lookup. intros i x Hx.
    destruct (Forall2_lookup_r _ _ _ _ _ Hholds Hx) as (c & Hc & Hh). rewrite (holds_length _ _ Hh).
    rewrite Forall_lookup in Hrows. by eapply Hrows. }
  intros [] s' ->. assert ((zlen children' =? 0) = false) as ->.
  { apply Z.eqb_neq. apply Forall2_length in Hholds. unfold zlen. destruct cs; [done|]. simpl in Hholds. lia. }
  apply wp_zoom. cbn [fst_lens view over fst snd]. eapply wp_conseq; [apply (finish_batch n cs)| |done]; [done..| |].
  - by exists children'.
  - intros [] q Hq. done.
Qed.
End finish.

(** * Comparing arrays *)
(** Two columns agree: nulls at the same places, and equal values elsewhere. *)
Definition same_value {T} (eq : T -> T -> bool) (made expected : option T) : bool :=
  match made, expected with
  | Some v, Some w => eq w v
  | None, None => true
  | _, _ => false
  end.
Definition same_values {T} (eq : T -> T -> bool) (made expected : list (option T)) : bool :=
  (length expected =? length made)%nat && forallb (fun p => same_value eq p.1 p.2) (zip made expected).
(** [None] when [CompareArray] reads the column as one of another type. *)
Definition agreement (c : column) (e : expected_values) : option bool :=
  match c, e with
  | Ints vs, ExpectInt64s es => Some (same_values Z.eqb vs es)
  | Doubles vs, ExpectDoubles es => Some (same_values same_double vs es)
  | Strings vs, ExpectStrings es => Some (same_values String.eqb vs es)
  | _, _ => None
  end.
(** The values are of the C++ types, and the strings of a column have at most [INT32_MAX] bytes. *)
Definition column_ok (c : column) : Prop :=
  match c with
  | Ints vs => forall v, Some v ∈ vs -> in_i64 v = true
  | Doubles vs => forall v, Some v ∈ vs -> 0 <= v < 2 ^ 64
  | Strings vs => zlen (text_bytes (map (fmap string_bytes) vs)) <= INT32_MAX
  end.
Definition verdict (agree failed : bool) : result bool unit := if agree then Ret tt failed else Exit 0 true.
Lemma column_content_ok c : column_ok c -> content_ok (content_of c).
Proof. destruct c; [by left|by right|done]. Qed.

Lemma compare_values_exact {T} (eq : T -> T -> bool) (compare : T -> Z -> M bool unit) v vs :
  (forall i o, vs !! i = Some o -> ArrowArrayViewIsNull v (Z.of_nat i) = Some (negb (is_value o))) ->
  (forall i w x failed, vs !! i = Some (Some w) -> compare x (Z.of_nat i) failed = verdict (eq x w) failed) ->
  forall vs0 vs1 es failed, vs = vs0 ++ vs1 -> length es = length vs1 ->
  compare_values v compare es (Z.of_nat (length vs0)) failed =
    verdict (forallb (fun p => same_value eq p.1 p.2) (zip vs1 es)) failed.
Proof.
  intros Hnull Hcmp vs0 vs1. revert vs0. induction vs1 as [|w vs1 IH]; intros vs0 [|x es] failed Hvs Hl; try done.
  injection Hl as Hl. assert (vs !! length vs0 = Some w) as Hw by (rewrite Hvs; by apply list_lookup_middle).
  specialize (IH (vs0 ++ [w]) es). rewrite length_app, <- app_assoc, Nat2Z.inj_add in IH. cbn [length app] in IH.
  cbn [compare_values zip_with forallb fst snd]. unfold mbind, M_bind. rewrite (Hnull _ _ Hw). cbn [lift_opt mret M_ret].
  destruct w as [w|], x as [x|]; cbn [is_value negb same_value ASSERT_TRUE]; [|done|done|].
  - change ((compare x (Z.of_nat (length vs0)) ;; compare_values v compare es (Z.of_nat (length vs0) + 1)) failed =
      verdict (eq x w && forallb (fun p => same_value eq p.1 p.2) (zip vs1 es)) failed).
    unfold mbind, M_bind. rewrite (Hcmp _ _ x failed Hw). unfold verdict at 1. destruct (eq x w); [|done]. by apply IH.
  - by apply IH.
Qed.
Lemma compare_all_exact {T} (eq : T -> T -> bool) (compare : T -> Z -> M bool unit) v a vs es failed :
  av_array v = Some a -> ar_length a = zlen vs ->
  (forall i o, vs !! i = Some o -> ArrowArrayViewIsNull v (Z.of_nat i) = Some (negb (is_value o))) ->
  (forall i w x failed, vs !! i = Some (Some w) -> compare x (Z.of_nat i) failed = verdict (eq x w) failed) ->
  compare_all v compare es failed = verdict (same_values eq vs es) failed.
Proof.
  intros Ha Hn Hnull Hcmp. unfold compare_all, same_values, mbind at 1, M_bind. rewrite Ha. cbn [lift_opt mret M_ret].
  unfold mbind, M_bind, ASSERT_TRUE. rewrite Hn. assert ((zlen es =? zlen vs) = (length es =? length vs)%nat) as ->.
  { unfold zlen. destruct (Nat.eqb_spec (length es) (length vs)); [apply Z.eqb_eq|apply Z.eqb_neq]; lia. }
  destruct (Nat.eqb_spec (length es) (length vs)) as [Hl|]; [|done].
  by apply (compare_values_exact eq compare v vs Hnull Hcmp []).
Qed.
Lemma viewed_null c a v {T} (vs : list (option T)) i o : content_ok c -> viewed c a v -> valid_of c = map is_value vs ->
  vs !! i = Some o -> ArrowArrayViewIsNull v (Z.of_nat i) = Some (negb (is_value o)).
Proof.
  intros Hc Hv Hvs Ho. apply (viewed_is_null c a v Hc Hv); [|lia]. by rewrite Nat2Z.id, Hvs, list_lookup_fmap, Ho.
Qed.
Lemma compare_word t eq read ws a v : word_type t -> viewed (Words t ws) a v ->
  (forall i w b, ws !! i = Some (Some w) -> elem_bytes v 1 8 (Z.of_nat i) = Some b -> b = le_bytes 8 w -> read (Z.of_nat i) = Some w) ->
  forall es failed, compare_all v (compare_number v eq read) es failed = verdict (same_values eq ws es) failed.
Proof.
  intros Ht Hv Hread es failed. destruct (viewed_length (Words t ws) a v Hv) as (Ha & Hn & _).
  eapply compare_all_exact; [exact Ha| | |].
  - rewrite Hn. apply zlen_map.
  - intros i o Ho. by eapply (viewed_null (Words t ws)).
  - intros i w x failed' Hw. destruct (viewed_word t ws a v (Z.of_nat i) (Some w) Hv) as [Hd Hb]; [by rewrite Nat2Z.id|lia|].
    unfold compare_number, mbind, M_bind, ASSERT_TRUE. rewrite bool_decide_true by done. cbn [mret M_ret].
    rewrite (Hread i w _ Hw Hb eq_refl). cbn [lift_opt mret M_ret]. by destruct (eq x w).
Qed.
(** On a column, the assertions of [CompareArray] hold for what was appended, and for nothing else. *)
Lemma CompareArray_exact c e a v agree failed : column_ok c -> viewed (content_of c) a v ->
  agreement c e = Some agree -> CompareArray v e failed = verdict agree failed.
Proof.
  intros Hc Hv He. destruct c as [vs|vs|vs], e as [es|es|es|es|es]; try done; injection He as <-; cbn [CompareArray].
  - apply (compare_word TYPE_INT64 _ _ _ a); [by left|done|]. intros i w b Hw Hb ->. unfold as_int. rewrite Hb.
    cbn [fmap option_fmap option_map]. rewrite le_sint_le_bytes; [done|lia|]. 
    assert (in_i64 w = true) as Hi by (apply Hc; by eapply list_elem_of_lookup_2).
    apply andb_prop in Hi as [?%Z.leb_le ?%Z.leb_le]. unfold INT64_MIN, INT64_MAX in *. simpl Z.of_nat. lia.
  - apply (compare_word TYPE_DOUBLE _ _ _ a); [by right|done|]. intros i w b Hw Hb ->. unfold as_uint. rewrite Hb.
    cbn [fmap option_fmap option_map]. rewrite le_uint_le_bytes_id; [done|]. apply Hc. by eapply list_elem_of_lookup_2.
  - set (ts := map (fmap string_bytes) vs) in *. destruct (viewed_length (Texts ts) a v Hv) as (Ha & Hn & _).
    eapply compare_all_exact; [exact Ha| | |].
    + rewrite Hn. unfold rows. cbn [valid_of]. unfold ts. by rewrite !zlen_map.
    + intros i o Ho. eapply (viewed_null (Texts ts)); [done|exact Hv| |exact Ho]. cbn [valid_of].
      unfold ts. rewrite map_map. apply map_ext. by intros [].
    + intros i w x failed' Hw. unfold compare_string, mbind, M_bind, ArrowArrayViewGetStringUnsafe.
      rewrite (viewed_text ts a v (Z.of_nat i) (Some (string_bytes w)));
        [|done..|by rewrite Nat2Z.id; unfold ts; rewrite list_lookup_fmap, Hw|lia].
      change (ASSERT_TRUE (String.eqb x (bytes_string (string_bytes w))) failed' = verdict (String.eqb x w) failed').
      rewrite bytes_string_bytes. by unfold ASSERT_TRUE; destruct (String.eqb x w).
Qed.

(** * What the suite builds is what it compares *)
Section theorems.
Context `{Libc} `{!LibcBound}.

(** C18: a schema made by [MakeSchema] from fields of flat types passes [CompareSchema] exactly when
    there are as many expected fields, with the same types, the same nullability and, where one is
    expected, the same names; running out of memory is the only error of making it. *)
Theorem MakeSchema_CompareSchema fields expected failed s : Forall flat_field fields ->
  wp (MakeSchema fields)
    (fun _ schema => CompareSchema schema expected failed =
       verdict ((zlen expected =? zlen fields) && all_match fields expected) failed)
    (fun c _ => c = ENOMEM) s.
Proof.
  intros Hf. eapply wp_conseq; [by apply MakeSchema_spec| |by intros c t [-> ?]].
  intros [] t ->. by apply CompareSchema_exact.
Qed.

Lemma view_made_batch fields columns n a v e : Forall leaf_field fields -> fields <> [] ->
  Forall2 (fun f c => field_type f = type_of (content_of c)) fields columns ->
  Forall (fun c => content_ok (content_of c) /\ rows (content_of c) = n) columns ->
  batch_of finished n (map content_of columns) a ->
  wp (ArrowArrayViewInitFromSchema (made_schema fields) ;; ArrowArrayViewSetArray a)
    (fun _ q => exists vs, av_children q.1 = Some (map Some vs) /\
       Forall2 (fun c u => exists x, viewed (content_of c) x u) columns vs) no_memory (v, e).
Proof.
  intros Hf Hne Ht Hcols (children & -> & Hfin). set (cs := map content_of columns) in *.
  assert (Forall content_ok cs) as Hok by (apply Forall_map; eapply Forall_impl; [exact Hcols|by intros c []]).
  assert (Forall (fun c => rows c = n) cs) as Hrows by (apply Forall_map; eapply Forall_impl; [exact Hcols|by intros c []]).
  apply wp_bind. eapply wp_conseq; [by apply batch_from_schema| |done].
  intros [] [v1 e1] (vs & Hv & Hvs). cbn [fst] in Hv. subst v1.
  assert (0 <= n < 2 ^ 48) as Hn.
  { destruct Ht as [|f c fields columns _ _]; [done|]. inversion Hfin as [|c0 x ? ? Hx]; subst.
    apply Forall_cons in Hok as [Hc _]. apply Forall_cons in Hrows as [<- _]. by destruct (finished_rows _ x Hc Hx). }
  eapply wp_conseq; [apply (set_array_batch n cs)| |done]; [done..| |done|].
  - clear -Ht Hvs Hfin. subst cs. revert vs children Hvs Hfin.
    induction Ht as [|f c fields columns Hfc _ IH]; intros vs children Hvs Hfin; inversion Hvs; inversion Hfin; subst;
      cbn [map zip_with]; constructor; [cbn [fst]; by rewrite <- Hfc|by apply IH].
  - intros [] q (x & bvs & vs' & -> & Hvs'). exists vs'. split; [done|]. clear -Hvs' Hfin. subst cs. revert vs' children Hvs' Hfin.
    induction columns as [|c columns IH]; intros vs' children Hvs' Hfin; inversion Hfin; subst; cbn [map zip_with] in Hvs';
      inversion Hvs'; subst; constructor; [by eexists|by eapply IH].
Qed.

(** C17: a batch that [MakeBatch] fills, through the builder of the schema that [MakeSchema] made, with
    equally long columns of 64-bit integers, doubles and strings, is viewed by a reader of that schema;
    on the view of each column [CompareArray] passes exactly when the expected values are null where
    the values are, and equal elsewhere.  Running out of memory is the only error. *)
Theorem MakeBatch_CompareArray fields columns n s b v e : Forall leaf_field fields -> fields <> [] ->
  Forall2 (fun f c => field_type f = type_of (content_of c)) fields columns ->
  Forall (fun c => column_ok c /\ rows (content_of c) = n) columns -> malloc_ok sizeof_private = true ->
  wp (MakeSchema fields)
    (fun _ schema => wp (MakeBatch_schema schema columns)
       (fun _ b' => b'.2 = b.2 /\ wp (ArrowArrayViewInitFromSchema schema ;; ArrowArrayViewSetArray b'.1.1)
          (fun _ q => exists vs, av_children q.1 = Some (map Some vs) /\
             Forall2 (fun c u => forall expected agree failed, agreement c expected = Some agree ->
               CompareArray u expected failed = verdict agree failed) columns vs)
          no_memory (v, e))
       no_memory b)
    no_memory s.
Proof.
  intros Hf Hne Ht Hcols Hm.
  assert (Forall (fun c => content_ok (content_of c) /\ rows (content_of c) = n) columns) as Hcols'.
  { eapply Forall_impl; [exact Hcols|]. intros c [? ?]. split; [by apply column_content_ok|done]. }
  eapply wp_conseq; [apply MakeSchema_spec| |by intros c t [-> ?]].
  { eapply Forall_impl; [exact Hf|]. by apply leaf_flat. }
  intros [] schema ->. eapply wp_conseq; [by apply (MakeBatch_spec fields columns n)| |done].
  intros [] b' [Hb Ha]. split; [done|].
  eapply wp_conseq; [by apply (view_made_batch fields columns n)| |done].
  intros [] q (vs & Hq & Hvs). exists vs. split; [done|]. clear -Hvs Hcols. revert vs Hvs.
  induction Hcols as [|c columns [Hc _] _ IH]; intros vs Hvs; inversion Hvs as [|? u ? ? [x Hx]]; subst; constructor; [|by apply IH].
  intros expected agree failed He. by eapply CompareArray_exact.
Qed.
End theorems.

(** * The stream over batches *)
(** [k] calls of [GetNext], each with a fresh array; the value is the arrays it set. *)
Fixpoint get_nexts (k : nat) : M ConstantStream (list ArrowArray) :=
  match k with
  | O => mret []
  | S k' => fun stream =>
      match ConstantArrayStream_GetNext (stream, zero_array) with
      | Ret _ (stream, array) => (rest ← get_nexts k'; mret (array :: rest)) stream
      | Exit c (stream, _) => Exit c stream
      | Undef => Undef
      | NoFuel => NoFuel
      end
  end.
Definition serving (schema : ArrowSchema) (k : nat) (batches : list ArrowArray) : ConstantStream :=
  Some (mkConstant schema (replicate k zero_array ++ drop k batches) (Z.of_nat k)).
Lemma get_next_serving schema batches k b : batches !! k = Some b ->
  ConstantArrayStream_GetNext (serving schema k batches, zero_array) = Ret tt (serving schema (S k) batches, b).
Proof.
  intros Hb. pose proof (lookup_lt_Some _ _ _ Hb) as Hk.
  assert (zlen (replicate k zero_array ++ drop k batches) = zlen batches) as Hz
    by (unfold zlen; rewrite length_app, length_replicate, length_drop; lia).
  unfold ConstantArrayStream_GetNext, serving. cbv [mbind M_bind zoom fst_lens view fst self gets mret M_ret id cs_next_index cs_batches].
  rewrite Hz, Z.geb_leb, (proj2 (Z.leb_gt _ _)) by (unfold zlen; lia). cbn [over snd].
  rewrite Nat2Z.id, lookup_app_r, length_replicate, Nat.sub_diag, lookup_drop, Nat.add_0_r, Hb by (by rewrite length_replicate).
  cbv [lift_opt mret M_ret put cs_schema]. do 3 f_equal. unfold serving. do 2 f_equal; [|lia].
  rewrite insert_app_r_alt, length_replicate, Nat.sub_diag by (by rewrite length_replicate).
  rewrite (drop_S _ _ _ Hb). cbn [list_insert]. rewrite replicate_S_end, <- app_assoc. done.
Qed.
Lemma get_nexts_serving schema batches n : forall k, (k + n <= length batches)%nat ->
  get_nexts n (serving schema k batches) = Ret (take n (drop k batches)) (serving schema (k + n) batches).
Proof.
  induction n as [|n IH]; intros k Hk; cbn [get_nexts]; [by rewrite Nat.add_0_r|].
  destruct (lookup_lt_is_Some_2 batches k) as [b Hb]; [lia|]. rewrite (get_next_serving _ _ _ b Hb).
  unfold mbind, M_bind. rewrite IH by lia. rewrite (drop_S _ _ _ Hb). cbn [take mret M_ret].
  by replace (k + S n)%nat with (S k + n)%nat by lia.
Qed.
(** C19: the stream that [MakeStream] makes serves its batches in their order; at every moment
    [release] releases the schema and exactly the batches that were not handed over, and after the
    last one [get_next] answers with a released array and leaves the stream as it is. *)
Theorem ConstantArrayStream_owns batches schema out k : (k <= length batches)%nat ->
  sc_release schema = true -> Forall (fun b => ar_release b = true) batches ->
  exists made rest,
    MakeStream batches (out, schema) = Ret tt (made, zero_schema) /\
    get_nexts k made = Ret (take k batches) rest /\
    ConstantArrayStream_Release rest = Ret (Some schema, drop k batches) None /\
    (k = length batches -> forall a, ConstantArrayStream_GetNext (rest, a) = Ret tt (rest, set_array_release false a)).
Proof.
  intros Hk Hs Hb. exists (serving schema 0 batches), (serving schema k batches). split_and!.
  - unfold serving. by rewrite drop_0.
  - rewrite (get_nexts_serving schema batches k 0 Hk). by rewrite drop_0.
  - unfold ConstantArrayStream_Release, serving. cbv [mbind M_bind gets mret M_ret id cs_schema]. rewrite Hs. cbv [put].
    cbn [cs_batches]. do 2 f_equal. rewrite filter_app.
    assert (forall n, filter (fun a => Is_true (ar_release a)) (replicate n zero_array) = []) as -> by by induction n.
    cbn [app]. assert (Forall (fun b => ar_release b = true) (drop k batches)) as Hd by by apply Forall_drop.
    induction Hd as [|b bs Hbt _ IH]; [done|]. rewrite filter_cons_True by by rewrite Hbt. by rewrite IH.
  - intros -> a. unfold ConstantArrayStream_GetNext, serving.
    cbv [mbind M_bind zoom fst_lens view fst self gets mret M_ret id cs_next_index cs_batches].
    rewrite drop_all, app_nil_r, Z.geb_leb, (proj2 (Z.leb_le _ _)); [done|]. unfold zlen. rewrite length_replicate. lia.
Qed.

(** ** Tests *)
Section tests.
#[local] Instance libc : Libc := host.
#[local] Instance libc_bound : LibcBound := host_bound.

Definition test_fields : list SchemaField := [mkField "ints" TYPE_INT64 true; mkField "strs" TYPE_STRING false].
Definition test_columns : list column := [Ints [Some (-7); None]; Strings [Some "a"%string; None]].
Lemma MakeSchema_CompareSchema_witness : Forall flat_field test_fields /\
  wp (MakeSchema test_fields)
    (fun _ schema => CompareSchema schema [(Some "ints"%string, TYPE_INT64, true); (None, TYPE_STRING, false)] false = Ret tt false)
    (fun c _ => c = ENOMEM) zero_schema.
Proof.
  assert (Forall flat_field test_fields) as Hf by by repeat constructor.
  split; [done|]. exact (MakeSchema_CompareSchema _ _ false _ Hf).
Defined.
Lemma MakeBatch_CompareArray_witness : Forall leaf_field test_fields /\
  wp (MakeSchema test_fields)
    (fun _ schema => wp (MakeBatch_schema schema test_columns)
       (fun _ b' => b'.2 = false /\ wp (ArrowArrayViewInitFromSchema schema ;; ArrowArrayViewSetArray b'.1.1)
          (fun _ q => exists vs, av_children q.1 = Some (map Some vs) /\
             Forall2 (fun c u => forall expected agree failed, agreement c expected = Some agree ->
               CompareArray u expected failed = verdict agree failed) test_columns vs)
          no_memory (zero_view, Some ""%string))
       no_memory (zero_array, Some ""%string, false))
    no_memory zero_schema.
Proof.
  assert (Forall leaf_field test_fields) as Hf by (constructor; [by left; left|]; constructor; [by right|constructor]).
  split; [done|]. apply (MakeBatch_CompareArray test_fields test_columns 2); [done|done|by repeat constructor| |done].
  constructor; [|constructor; [|constructor]]; (split; [|done]); [|by vm_compute].
  intros v [Hv|[Hv|[]%elem_of_nil]%elem_of_cons]%elem_of_cons; [injection Hv as ->; done|done].
Defined.
(** The same run, computed: the comparison with the values passes, with others it fails. *)
Definition run_test (expected : expected_values) : option bool :=
  match MakeSchema test_fields zero_schema with
  | Ret _ schema =>
      match MakeBatch_schema schema test_columns (zero_array, Some ""%string, false) with
      | Ret _ b =>
          match (ArrowArrayViewInitFromSchema schema ;; ArrowArrayViewSetArray b.1.1) (zero_view, Some ""%string) with
          | Ret _ (v, _) =>
              child ← mjoin (children ← av_children v; children !! 1%nat);
              match CompareArray child expected false with Ret _ f => Some (negb f) | _ => Some false end
          | _ => None
          end
      | _ => None
      end
  | _ => None
  end.
Example batch_compares : run_test (ExpectStrings [Some "a"; None]%string) = Some true /\
  run_test (ExpectStrings [Some "b"; None]%string) = Some false.
Proof. by vm_compute. Qed.
Definition some_array (n : Z) : ArrowArray := set_length n (set_array_release true zero_array).
Lemma ConstantArrayStream_owns_witness : exists made rest,
    MakeStream [some_array 1; some_array 2; some_array 3] (None, fresh_schema) = Ret tt (made, zero_schema) /\
    get_nexts 1 made = Ret [some_array 1] rest /\
    ConstantArrayStream_Release rest = Ret (Some fresh_schema, [some_array 2; some_array 3]) None /\
    (1%nat = 3%nat -> forall a, ConstantArrayStream_GetNext (rest, a) = Ret tt (rest, set_array_release false a)).
Proof.
  exact (ConstantArrayStream_owns [some_array 1; some_array 2; some_array 3] fresh_schema None 1
    ltac:(simpl; lia) eq_refl ltac:(by repeat constructor)).
Defined.
(** An array with an offset: [CompareArray] reads the numbers from the start of the buffer, so the
    values after the offset, which are what the array holds, are refused. *)
Definition offset_view : ArrowArrayView :=
  mkAV (Some (mkArray 2 0 1 2 0 [None; Some (flat_map (le_bytes 8) [1; 2; 3])] None None true None false))
    TYPE_INT64 (ArrowLayoutInit TYPE_INT64) [mkBV None 0; mkBV (Some (flat_map (le_bytes 8) [1; 2; 3])) 24] 0 (Some []) None.
Lemma CompareArray_ignores_offset :
  ArrowArrayViewGetIntUnsafe offset_view 0 = Some 2 /\
  CompareArray offset_view (ExpectInt64s [Some 2; Some 3]) false = Exit 0 true /\
  CompareArray offset_view (ExpectInt64s [Some 1; Some 2]) false = Ret tt false.
Proof. by vm_compute. Qed.
End tests.
