(* ===== verification/Infer.v ===== *)
(** The type-inferring first batch of a query's results (c/driver/sqlite/statement_reader.c):
    every column starts as INT64 in raw buffers and is upcast to DOUBLE or STRING when a
    value of another type is read. *)
From stdpp Require Import base tactics list numbers option strings.
From Stdlib Require Import ZArith Lia.
From S2P Require Import Prelude CLib Buffer Schema SchemaView Array ArrayView Adbc Utils Sqlite3.

Definition reader_c : string := "statement_reader.c".

(** * A column under inference *)
Record Column := mkColumn {
  co_validity : ArrowBitmap;
  co_data : ArrowBuffer;
  co_binary : ArrowBuffer;
  co_type : ArrowType;
}.
(** The buffers that the text appends work on. *)
Record TextState := mkText { ts_error : ErrorPtr; ts_offsets : ArrowBuffer; ts_binary : ArrowBuffer }.
#[export] Instance HasError_TextState : HasError TextState :=
  mkLens ts_error (fun e t => mkText e (ts_offsets t) (ts_binary t)).
Definition offsets_lens : Lens TextState ArrowBuffer :=
  mkLens ts_offsets (fun b t => mkText (ts_error t) b (ts_binary t)).
Definition binary_lens : Lens TextState ArrowBuffer :=
  mkLens ts_binary (fun b t => mkText (ts_error t) (ts_offsets t) b).
(** [struct ArrowBuffer* data] and the error. *)
Definition DataState : Type := ErrorPtr * ArrowBuffer.

Definition UINT_MAX := 4294967295.

(** Element [i] of [data->data] as 8-byte elements. *)
Definition element_bytes (data : ArrowBuffer) (i : Z) : option (list Z) :=
  l ← buf_data data; read_at l (8 * i) 8.
(** Element [data->size_bytes / 4 - 1] of [data->data] as 4-byte elements. *)
Definition last_int32 (data : ArrowBuffer) : option Z :=
  l ← buf_data data; bs ← read_at l (4 * (buf_size_bytes data / 4 - 1)) 4; Some (le_sint bs).

Section infer.
  Context `{Libc}.

(** [for (i = 0; i < num_elements; i++)], [n] elements left. *)
Fixpoint doubles_loop (n : nat) (i : Z) (doubles : ArrowBuffer) : M DataState ArrowBuffer :=
  match n with
  | O => mret doubles
  | S n' =>
      data ← gets snd;
      bs ← lift_opt (element_bytes data i);
      match ArrowBufferAppendUnsafe (le_bytes 8 (Float.f64_of_Z (le_sint bs))) doubles with
      | Ret _ doubles => doubles_loop n' (i + 1) doubles
      | _ => undef
      end
  end.
Definition StatementReaderUpcastInt64ToDouble : M DataState unit :=
  data ← gets snd;
  (* a local buffer *)
  let reserve := ArrowBufferReserve (buf_capacity_bytes data) in
  '(code, doubles) ← mret (match reserve ArrowBufferInit with
                           | Ret _ b => (Some 0, b) | Exit c b => (Some c, b)
                           | _ => (None, ArrowBufferInit) end);
  code ← lift_opt code;
  CHECK_NA ADBC_STATUS_INTERNAL reader_c 565
    "ArrowBufferReserve(&doubles, data->capacity_bytes)" (return_code code) ;;
  let num_elements := buf_size_bytes data / 8 in
  doubles ← doubles_loop (Z.to_nat num_elements) 0 doubles;
  zoom snd_lens ArrowBufferReset ;;
  data ← gets snd;
  zoom snd_lens (put (ArrowBufferMove doubles data).2).

(** [while (1) { written = snprintf(output, buffer_size, ...); ... }]: [output] points at the
    end of the block of capacity [capacity]; after the block moved, the write is undefined.
    The value is [written]. *)
Fixpoint print_loop (fuel : nat) (line : Z) (capacity buffer_size : Z) (text : string)
    : M TextState Z :=
  match fuel with
  | O => nofuel
  | S fuel' =>
      b ← gets ts_binary;
      if negb (buf_capacity_bytes b =? capacity) then undef else
      l ← lift_opt (buf_data b);
      l ← lift_opt (write_at l (buf_size_bytes b)
                      (take (Z.to_nat (buffer_size - 1)) (string_bytes text) ++ [0]));
      zoom binary_lens (put (mkBuffer (Some l) (buf_size_bytes b) (buf_capacity_bytes b)
                               (buf_allocator b))) ;;
      if buffer_size <=? strlen text then
        if UINT_MAX - buffer_size <? buffer_size then
          fail ADBC_STATUS_INTERNAL "Overflow when upcasting double to string" []
        else
        CHECK_NA ADBC_STATUS_INTERNAL reader_c line "ArrowBufferReserve(binary, buffer_size)"
          (zoom binary_lens (ArrowBufferReserve buffer_size)) ;;
        print_loop fuel' line capacity (buffer_size + buffer_size) text
      else mret (strlen text)
  end.
(** The two functions differ in the reserve and the conversion; the value is the new
    [*offset].  The buffer size doubles below [UINT_MAX], so 32 rounds are enough. *)
Definition append_text_to_binary (line1 line2 kReserve : Z) (text : string) (offset : Z)
    : M TextState Z :=
  CHECK_NA ADBC_STATUS_INTERNAL reader_c line1 "ArrowBufferReserve(binary, buffer_size)"
    (zoom binary_lens (ArrowBufferReserve kReserve)) ;;
  b ← gets ts_binary;
  written ← print_loop 33 line2 (buf_capacity_bytes b) kReserve text;
  offset ← i32 (offset + written);
  zoom binary_lens (modify (fun b => set_size (buf_size_bytes b + written) b)) ;;
  zoom offsets_lens (ArrowBufferAppendUnsafe (le_bytes 4 offset)) ;;
  mret offset.
Definition StatementReaderAppendInt64ToBinary (value offset : Z) : M TextState Z :=
  append_text_to_binary 587 599 21 (fmt_Z value) offset.
(** [value] is the bit pattern of the double. *)
Definition StatementReaderAppendDoubleToBinary (value offset : Z) : M TextState Z :=
  append_text_to_binary 617 629 64 (Float.fmt_e value) offset.

(** [append] is one of the functions above. *)
Fixpoint texts_loop (data : ArrowBuffer) (of_bytes : list Z -> Z)
    (append : Z -> Z -> M TextState Z) (n : nat) (i offset : Z) : M TextState unit :=
  match n with
  | O => mret tt
  | S n' =>
      bs ← lift_opt (element_bytes data i);
      offset ← append (of_bytes bs) offset;
      texts_loop data of_bytes append n' (i + 1) offset
  end.
Definition upcast_to_binary (line : Z) (of_bytes : list Z -> Z)
    (append : Z -> Z -> M TextState Z) (data : ArrowBuffer) : M TextState unit :=
  zoom offsets_lens (put ArrowBufferInit) ;;
  zoom binary_lens (put ArrowBufferInit) ;;
  CHECK_NA ADBC_STATUS_INTERNAL reader_c line
    "ArrowBufferReserve(&offsets, data->capacity_bytes)"
    (zoom offsets_lens (ArrowBufferReserve (buf_capacity_bytes data))) ;;
  CHECK_NA ADBC_STATUS_INTERNAL reader_c (line + 1)
    "ArrowBufferReserve(binary, data->capacity_bytes)"
    (zoom binary_lens (ArrowBufferReserve (buf_capacity_bytes data))) ;;
  let num_elements := buf_size_bytes data / 8 in
  zoom offsets_lens (ArrowBufferAppendUnsafe (le_bytes 4 0)) ;;
  texts_loop data of_bytes append (Z.to_nat num_elements) 0 0.
End infer.

(** * What the inference functions work on *)
Record IS `{Sqlite3} := mkIS { is_error : ErrorPtr; is_world : World; is_column : Column }.
Arguments mkIS {_} is_error is_world is_column.
#[export] Instance HasError_IS `{Sqlite3} : HasError IS :=
  mkLens is_error (fun e s => mkIS e (is_world s) (is_column s)).
#[export] Instance HasWorld_IS `{Sqlite3} : HasWorld IS :=
  mkLens is_world (fun w s => mkIS (is_error s) w (is_column s)).

Section column.
  Context `{Libc} `{Sqlite3}.

Definition column_lens : Lens IS Column :=
  mkLens is_column (fun c s => mkIS (is_error s) (is_world s) c).
Definition validity_lens : Lens IS ArrowBitmap := lens_comp column_lens
  (mkLens co_validity (fun v c => mkColumn v (co_data c) (co_binary c) (co_type c))).
Definition data_lens : Lens IS ArrowBuffer := lens_comp column_lens
  (mkLens co_data (fun d c => mkColumn (co_validity c) d (co_binary c) (co_type c))).
Definition column_binary_lens : Lens IS ArrowBuffer := lens_comp column_lens
  (mkLens co_binary (fun b c => mkColumn (co_validity c) (co_data c) b (co_type c))).
Definition set_current_type (t : ArrowType) : M IS unit :=
  zoom column_lens (modify (fun c => mkColumn (co_validity c) (co_data c) (co_binary c) t)).
Definition data_state_lens : Lens IS DataState :=
  mkLens (fun s => (is_error s, co_data (is_column s)))
    (fun d s => let c := is_column s in
       mkIS d.1 (is_world s) (mkColumn (co_validity c) d.2 (co_binary c) (co_type c))).
(** [data] holds the offsets of a text column. *)
Definition text_lens : Lens IS TextState :=
  mkLens (fun s => mkText (is_error s) (co_data (is_column s)) (co_binary (is_column s)))
    (fun t s => let c := is_column s in
       mkIS (ts_error t) (is_world s)
         (mkColumn (co_validity c) (ts_offsets t) (ts_binary t) (co_type c))).

(** The upcasts work on local offsets, which replace [data] when all went well. *)
Definition upcast_column (upcast : ArrowBuffer -> M TextState unit) : M IS unit := fun s =>
  let c := is_column s in
  let with_binary e b d := mkIS e (is_world s) (mkColumn (co_validity c) d b (co_type c)) in
  match upcast (co_data c) (mkText (is_error s) ArrowBufferInit (co_binary c)) with
  | Ret _ t =>
      match ArrowBufferReset (co_data c) with
      | Ret _ data =>
          Ret tt (with_binary (ts_error t) (ts_binary t) (ArrowBufferMove (ts_offsets t) data).2)
      | _ => Undef
      end
  | Exit code t => Exit code (with_binary (ts_error t) (ts_binary t) (co_data c))
  | Undef => Undef
  | NoFuel => NoFuel
  end.
Definition StatementReaderUpcastInt64ToBinary : M IS unit :=
  upcast_column (upcast_to_binary 647 le_sint StatementReaderAppendInt64ToBinary).
Definition StatementReaderUpcastDoubleToBinary : M IS unit :=
  upcast_column (upcast_to_binary 671 le_uint StatementReaderAppendDoubleToBinary).

Definition append_data (value : Z) : M IS unit :=
  zoom data_lens (ArrowBufferAppendUnsafe (le_bytes 8 value)).
Definition last_offset : M IS Z := data ← gets (view data_lens); lift_opt (last_int32 data).
(** [sqlite3_column_text] and then [sqlite3_column_bytes]: the text, which has no fewer
    bytes. *)
Definition column_text_bytes {S} `{!HasWorld S} (stmt col : Z) : M S (list Z) :=
  value ← call (sqlite3_column_text stmt col);
  size ← ask (sqlite3_column_bytes stmt col);
  let bs := default [] value in
  if (0 <=? size) && (size <=? zlen bs) then mret (take (Z.to_nat size) bs) else undef.

Definition StatementReaderInferOneValue (stmt col : Z) : M IS unit :=
  sqlite_type ← ask (sqlite3_column_type stmt col);
  let validity set := zoom validity_lens (ArrowBitmapAppendUnsafe set 1) in
  c ← gets is_column;
  let current_type := co_type c in
  if sqlite_type =? SQLITE_NULL then
    validity 0 ;;
    match current_type with
    | TYPE_INT64 => append_data 0
    | TYPE_DOUBLE => append_data (Float.f64_of_Z 0)
    | TYPE_STRING | TYPE_BINARY =>
        offset ← last_offset;
        CHECK_NA ADBC_STATUS_INTERNAL reader_c 713
          "ArrowBufferAppend(data, &offset, sizeof(offset))"
          (zoom data_lens (ArrowBufferAppend (le_bytes 4 offset)))
    | _ => exit ADBC_STATUS_INTERNAL
    end
  else if sqlite_type =? SQLITE_INTEGER then
    validity 1 ;;
    match current_type with
    | TYPE_INT64 =>
        value ← ask (sqlite3_column_int64 stmt col); append_data value
    | TYPE_DOUBLE =>
        value ← ask (sqlite3_column_double stmt col); append_data value
    | TYPE_STRING | TYPE_BINARY =>
        offset ← last_offset;
        value ← ask (sqlite3_column_int64 stmt col);
        _ ← zoom text_lens (StatementReaderAppendInt64ToBinary value offset);
        mret tt
    | _ => exit ADBC_STATUS_INTERNAL
    end
  else if sqlite_type =? SQLITE_FLOAT then
    validity 1 ;;
    match current_type with
    | TYPE_INT64 =>
        zoom data_state_lens StatementReaderUpcastInt64ToDouble ;;
        set_current_type TYPE_DOUBLE ;;
        value ← ask (sqlite3_column_double stmt col); append_data value
    | TYPE_DOUBLE =>
        value ← ask (sqlite3_column_double stmt col); append_data value
    | TYPE_STRING | TYPE_BINARY =>
        offset ← last_offset;
        value ← ask (sqlite3_column_double stmt col);
        _ ← zoom text_lens (StatementReaderAppendDoubleToBinary value offset);
        mret tt
    | _ => exit ADBC_STATUS_INTERNAL
    end
  else if sqlite_type =? SQLITE_TEXT then
    validity 1 ;;
    match current_type with
    | TYPE_INT64 => StatementReaderUpcastInt64ToBinary ;; set_current_type TYPE_STRING
    | TYPE_DOUBLE => StatementReaderUpcastDoubleToBinary ;; set_current_type TYPE_STRING
    | TYPE_STRING | TYPE_BINARY => mret tt
    | _ => exit ADBC_STATUS_INTERNAL
    end ;;
    value ← column_text_bytes stmt col;
    offset ← last_offset;
    offset ← i32 (offset + zlen value);
    CHECK_NA ADBC_STATUS_INTERNAL reader_c 801 "ArrowBufferAppend(binary, value, size)"
      (zoom column_binary_lens (ArrowBufferAppend value)) ;;
    CHECK_NA ADBC_STATUS_INTERNAL reader_c 802
      "ArrowBufferAppend(data, &offset, sizeof(offset))"
      (zoom data_lens (ArrowBufferAppend (le_bytes 4 offset)))
  else exit ADBC_STATUS_IO.
End column.

(** * What a column holds

    The values of a column under inference, in its current type. *)
Inductive column_data := DInts (zs : list Z) | DDoubles (ds : list Z) | DTexts (ts : list (list Z)).
(** A cell of a result row. *)
Inductive cell := CNull | CInteger (z : Z) | CFloat (bits : Z) | CText (bs : list Z).

Definition int_text (z : Z) : list Z := string_bytes (fmt_Z z).
(** A double is the 64 bits of its pattern. *)
Definition double_text (d : Z) : list Z := string_bytes (Float.fmt_e (d mod 2 ^ 64)).
Definition data_type (d : column_data) : ArrowType :=
  match d with DInts _ => TYPE_INT64 | DDoubles _ => TYPE_DOUBLE | DTexts _ => TYPE_STRING end.
Definition data_length (d : column_data) : nat :=
  match d with DInts l | DDoubles l => length l | DTexts l => length l end.
Definition cell_valid (c : cell) : bool := match c with CNull => false | _ => true end.

(** The specification of one step: the column is widened to hold the new cell (INT64, then
    DOUBLE, then STRING), earlier values are converted, and the cell is converted when the
    column is already wider. *)
Definition infer_step (d : column_data) (c : cell) : column_data :=
  match d, c with
  | DInts zs, CNull => DInts (zs ++ [0])
  | DInts zs, CInteger z => DInts (zs ++ [z])
  | DInts zs, CFloat b => DDoubles (map Float.f64_of_Z zs ++ [b])
  | DInts zs, CText bs => DTexts (map int_text zs ++ [bs])
  | DDoubles ds, CNull => DDoubles (ds ++ [Float.f64_of_Z 0])
  | DDoubles ds, CInteger z => DDoubles (ds ++ [Float.f64_of_Z z])
  | DDoubles ds, CFloat b => DDoubles (ds ++ [b])
  | DDoubles ds, CText bs => DTexts (map double_text ds ++ [bs])
  | DTexts ts, CNull => DTexts (ts ++ [[]])
  | DTexts ts, CInteger z => DTexts (ts ++ [int_text z])
  | DTexts ts, CFloat b => DTexts (ts ++ [double_text b])
  | DTexts ts, CText bs => DTexts (ts ++ [bs])
  end.
Definition data_bytes (d : column_data) : Z :=
  match d with DTexts ts => zlen (concat ts) | _ => 0 end.

(** The raw buffers represent the data, with room for [n] rows in all. *)
Definition words_hold (n : Z) (data : ArrowBuffer) (ws : list Z) : Prop :=
  buffer_ok data /\ buf_content data = flat_map (le_bytes 8) ws /\
  8 * n <= buf_capacity_bytes data.
Definition texts_hold (n : Z) (data binary : ArrowBuffer) (ts : list (list Z)) : Prop :=
  buffer_ok data /\ buf_content data = flat_map (le_bytes 4) (offsets_from 0 ts) /\
  4 * (n + 1) <= buf_capacity_bytes data /\
  buffer_ok binary /\ buf_content binary = concat ts.
Definition data_hold (n : Z) (c : Column) (d : column_data) : Prop :=
  match d with
  | DInts zs => words_hold n (co_data c) zs /\ Forall (fun z => in_i64 z = true) zs
  | DDoubles ds => words_hold n (co_data c) ds
  | DTexts ts => texts_hold n (co_data c) (co_binary c) ts
  end.
Definition column_holds (n : Z) (c : Column) (valid : list bool) (d : column_data) : Prop :=
  bitmap_ok (co_validity c) /\ bitmap_bits (co_validity c) = valid /\
  n <= 8 * buf_capacity_bytes (bm_buffer (co_validity c)) /\
  co_type c = data_type d /\ length valid = data_length d /\ data_hold n c d.

(** * Lemmas *)
Lemma words_element n data ws i w :
  words_hold n data ws -> ws !! i = Some w ->
  element_bytes data (Z.of_nat i) = Some (le_bytes 8 w).
Proof.
  intros (Hok & Hc & _) Hi. pose proof (lookup_lt_Some _ _ _ Hi).
  pose proof (zlen_buf_content _ Hok) as Hz. rewrite Hc in Hz. unfold zlen in Hz.
  rewrite flat_map_length in Hz.
  destruct (read_content data (8 * Z.of_nat i) 8) as (l & Hl & Hr); [done|lia..|].
  unfold element_bytes. rewrite Hl. simpl. rewrite Hr, Hc. f_equal.
  replace (Z.to_nat (8 * Z.of_nat i)) with (8 * i)%nat by lia.
  exact (flat_map_lookup 8 _ _ _ Hi).
Qed.
Lemma words_count n data ws : words_hold n data ws -> buf_size_bytes data = 8 * Z.of_nat (length ws).
Proof.
  intros (Hok & Hc & _). rewrite <- zlen_buf_content by done. rewrite Hc. unfold zlen.
  rewrite flat_map_length. lia.
Qed.
Lemma texts_size n data binary ts : texts_hold n data binary ts ->
  buf_size_bytes data = 4 * (Z.of_nat (length ts) + 1).
Proof.
  intros (Hok & Hc & _). rewrite <- zlen_buf_content by done. rewrite Hc. unfold zlen.
  rewrite flat_map_length, offsets_length. lia.
Qed.
Lemma texts_last n data binary ts : texts_hold n data binary ts ->
  zlen (concat ts) <= INT32_MAX -> last_int32 data = Some (zlen (concat ts)).
Proof.
  intros Ht Hmax. pose proof (texts_size _ _ _ _ Ht) as Hs. pose proof Ht as (Hok & Hc & _).
  destruct (read_content data (4 * Z.of_nat (length ts)) 4) as (l & Hl & Hr); [done|lia..|].
  unfold last_int32. rewrite Hl. simpl.
  replace (4 * (buf_size_bytes data / 4 - 1)) with (4 * Z.of_nat (length ts))
    by (rewrite Hs; Z.to_euclidean_division_equations; lia).
  rewrite Hr, Hc. cbn [mbind option_bind].
  replace (Z.to_nat (4 * Z.of_nat (length ts))) with (4 * length ts)%nat by lia.
  pose proof (flat_map_lookup 4 _ _ _ (offsets_last 0 ts)) as Hf.
  change (Z.to_nat 4) with 4%nat. rewrite Hf.
  f_equal. rewrite le_sint_le_bytes; [lia|lia|].
  pose proof (zlen_nonneg (concat ts)). unfold INT32_MAX in Hmax. simpl. lia.
Qed.

Section infer_facts.
  Context `{Libc} `{!LibcBound}.

Definition code_is {T} (code : Z) (c : Z) (_ : T) : Prop := c = code /\ refused.

Lemma words_append n data ws w E :
  words_hold n data ws -> Z.of_nat (length ws) < n ->
  wp (ArrowBufferAppendUnsafe (le_bytes 8 w)) (fun _ d => words_hold n d (ws ++ [w])) E data.
Proof.
  intros Hw Hn. pose proof (words_count _ _ _ Hw) as Hs. destruct Hw as (Hok & Hc & Hcap).
  eapply wp_conseq; [apply append_unsafe_spec; [done|apply le_bytes_byte|]| |done].
  - rewrite zlen_le_bytes. lia.
  - intros _ d (Hok' & Hc' & Hcap'). split_and!; [done| |lia].
    by rewrite Hc', Hc, flat_map_snoc.
Qed.

Lemma fresh_reserve cap :
  0 <= cap <= 2 ^ 62 ->
  wp (ArrowBufferReserve cap)
    (fun _ b => buffer_ok b /\ buf_content b = [] /\ cap <= buf_capacity_bytes b)
    (code_is ENOMEM) ArrowBufferInit.
Proof.
  intros Hcap. eapply wp_conseq; [apply reserve_spec; [apply lost_buffer_ok|done]|..].
  - intros _ b (Hok & Hc & _ & Hb & _). split_and!; [done..|]. simpl in Hb. lia.
  - intros c b (-> & _ & Hm). split; [done|]. by eexists.
Qed.

(** ** From INT64 to DOUBLE *)
Lemma doubles_loop_spec n data zs k m doubles e E :
  words_hold n data zs -> Forall (fun z => in_i64 z = true) zs ->
  (m + k = length zs)%nat -> Z.of_nat (length zs) <= n ->
  words_hold n doubles (map Float.f64_of_Z (take m zs)) ->
  wp (doubles_loop k (Z.of_nat m) doubles)
    (fun d s => s = (e, data) /\ words_hold n d (map Float.f64_of_Z zs)) E (e, data).
Proof.
  intros Hw Hz. revert m doubles. induction k as [|k IH]; intros m doubles Hm Hn Hd; simpl.
  { apply wp_ret. split; [done|]. by rewrite take_ge in Hd by lia. }
  destruct (lookup_lt_is_Some_2 zs m) as [z Hzm]; [lia|].
  wp_steps. eapply wp_lift_opt; [by eapply words_element|].
  rewrite le_sint_le_bytes; [|lia|].
  2:{ rewrite Forall_lookup in Hz. specialize (Hz _ _ Hzm). unfold in_i64 in Hz.
      apply andb_prop in Hz as [Hz1%Z.leb_le Hz2%Z.leb_le].
      unfold INT64_MIN, INT64_MAX in *. simpl. lia. }
  pose proof (words_append n doubles _ (Float.f64_of_Z z) (fun _ _ => False) Hd) as Ha.
  rewrite length_map, length_take in Ha. specialize (Ha ltac:(lia)).
  unfold wp in Ha. destruct (ArrowBufferAppendUnsafe _ doubles) as [[] d| | |]; try done.
  replace (Z.of_nat m + 1) with (Z.of_nat (S m)) by lia. apply IH; [lia|done|].
  rewrite (take_S_r _ _ _ Hzm), map_app. done.
Qed.
Lemma upcast_doubles_spec n data zs e :
  words_hold n data zs -> Forall (fun z => in_i64 z = true) zs ->
  Z.of_nat (length zs) <= n ->
  wp StatementReaderUpcastInt64ToDouble
    (fun _ s => s.1 = e /\ words_hold n s.2 (map Float.f64_of_Z zs))
    (code_is ADBC_STATUS_INTERNAL) (e, data).
Proof.
  intros Hw Hz Hn. pose proof Hw as (Hok & _ & Hcap). pose proof Hok as [_ Hsz _ Hb _].
  unfold StatementReaderUpcastInt64ToDouble. wp_steps.
  pose proof (fresh_reserve (buf_capacity_bytes data) ltac:(lia)) as Hr. unfold wp in Hr.
  destruct (ArrowBufferReserve _ ArrowBufferInit) as [[] b|c b| |]; try done; wp_steps.
  - apply wp_CHECK_NA. unfold return_code; simpl. wp_steps. destruct Hr as (Hokb & Hcb & Hcapb).
    eapply wp_conseq.
    { replace (Z.to_nat (buf_size_bytes data / 8)) with (length zs)
        by (rewrite (words_count _ _ _ Hw); Z.to_euclidean_division_equations; lia).
      apply (doubles_loop_spec n data zs (length zs) 0 b); [done..|lia|done|].
      split_and!; [done|by rewrite Hcb|lia]. }
    2:{ by intros c s Hc. }
    intros d s [-> Hd]. wp_steps. simpl.
    unfold wp. rewrite reset_ok by done. done.
  - apply wp_CHECK_NA. destruct Hr as [-> Href]. unfold return_code; simpl.
    apply wp_exit. split; [done|]. intros e'. by split.
Qed.
(** ** Text *)

(** The unchecked append of an offset. *)
Lemma offset_append n data ts t E :
  buffer_ok data -> buf_content data = flat_map (le_bytes 4) (offsets_from 0 ts) ->
  4 * (n + 1) <= buf_capacity_bytes data -> Z.of_nat (length ts) < n ->
  wp (ArrowBufferAppendUnsafe (le_bytes 4 (zlen (concat (ts ++ [t])))))
    (fun _ d => buffer_ok d /\
       buf_content d = flat_map (le_bytes 4) (offsets_from 0 (ts ++ [t])) /\
       4 * (n + 1) <= buf_capacity_bytes d) E data.
Proof.
  intros Hok Hc Hcap Hn.
  assert (buf_size_bytes data = 4 * (Z.of_nat (length ts) + 1)) as Hs.
  { rewrite <- zlen_buf_content, Hc by done. unfold zlen.
    rewrite flat_map_length, offsets_length. lia. }
  eapply wp_conseq; [apply append_unsafe_spec; [done|apply le_bytes_byte|]| |done].
  - rewrite zlen_le_bytes. lia.
  - intros _ d (Hok' & Hc' & Hcap'). split_and!; [done| |lia].
    rewrite Hc', Hc, offsets_snoc, flat_map_snoc. f_equal.
Qed.

(** Writing a text and its terminator after the contents, then counting the text. *)
Lemma print_content b l l' (bs : list Z) :
  buffer_ok b -> buf_data b = Some l -> Forall is_byte bs ->
  buf_size_bytes b + zlen bs + 1 <= buf_capacity_bytes b ->
  write_at l (buf_size_bytes b) (bs ++ [0]) = Some l' ->
  let b' := mkBuffer (Some l') (buf_size_bytes b + zlen bs) (buf_capacity_bytes b)
              (buf_allocator b) in
  buffer_ok b' /\ buf_content b' = buf_content b ++ bs.
Proof.
  intros [Ha Hs Hb Hc Hy] Hd Hbs Hcap Hw. simpl. rewrite Hd in *. simpl in *.
  pose proof (zlen_nonneg bs). split.
  - constructor; simpl; auto; [lia|by erewrite write_at_len|].
    eapply write_at_byte; [done..|]. apply Forall_app_2; [done|]. by repeat constructor.
  - unfold buf_content; simpl. rewrite Hd; simpl.
    pose proof (write_at_take _ _ _ _ Hw) as Ht. rewrite zlen_app in Ht.
    change (zlen [0]) with 1 in Ht.
    apply (f_equal (take (Z.to_nat (buf_size_bytes b + zlen bs)))) in Ht.
    rewrite take_take, Nat.min_l in Ht by lia. rewrite Ht, app_assoc.
    rewrite take_app_length'; [done|]. rewrite length_app, length_take. unfold zlen in *. lia.
Qed.

#[local] Arguments print_loop : simpl never.
#[local] Arguments le_bytes : simpl never.
Lemma print_loop_S fuel line capacity buffer_size text t l l' :
  buf_capacity_bytes (ts_binary t) = capacity -> buf_data (ts_binary t) = Some l ->
  strlen text < buffer_size ->
  write_at l (buf_size_bytes (ts_binary t)) (string_bytes text ++ [0]) = Some l' ->
  print_loop (S fuel) line capacity buffer_size text t =
    Ret (strlen text) (mkText (ts_error t) (ts_offsets t)
      (mkBuffer (Some l') (buf_size_bytes (ts_binary t)) (buf_capacity_bytes (ts_binary t))
         (buf_allocator (ts_binary t)))).
Proof.
  intros Hcap Hd Hlt Hw. unfold print_loop at 1; fold print_loop.
  cbv [mbind M_bind gets]. rewrite Hcap, Z.eqb_refl, Hd. cbn [negb lift_opt mret M_ret].
  rewrite take_ge by (rewrite length_string_bytes; unfold strlen in *; lia).
  rewrite Hw. cbn [lift_opt mret M_ret].
  rewrite (proj2 (Z.leb_gt _ _)) by done. done.
Qed.

Lemma append_text_spec l1 l2 k text n t ts :
  texts_hold n (ts_offsets t) (ts_binary t) ts ->
  strlen text < k -> k <= 2 ^ 40 -> Z.of_nat (length ts) < n ->
  zlen (concat ts) + strlen text <= INT32_MAX ->
  wp (append_text_to_binary l1 l2 k text (zlen (concat ts)))
    (fun o t' => o = zlen (concat (ts ++ [string_bytes text])) /\ ts_error t' = ts_error t /\
       texts_hold n (ts_offsets t') (ts_binary t') (ts ++ [string_bytes text]))
    (code_is ADBC_STATUS_INTERNAL) t.
Proof.
  intros (Hoff & Hco & Hcap & Hbin & Hcb) Hk Hk' Hn Hmax.
  assert (0 <= strlen text) by (unfold strlen; lia).
  assert (zlen (concat (ts ++ [string_bytes text])) = zlen (concat ts) + strlen text) as Hz.
  { rewrite concat_app, zlen_app. simpl. by rewrite app_nil_r, zlen_string_bytes. }
  unfold append_text_to_binary. apply wp_bind, wp_CHECK_NA, wp_zoom. simpl.
  eapply wp_conseq; [apply reserve_spec; [done|lia]| |].
  2:{ intros c b (-> & -> & Hm). split; [done|]. intros e. split; [done|by eexists]. }
  intros _ b (Hb & Hcb' & Hsb & Hroom & _). simpl. wp_steps.
  pose proof Hb as [Ha Hs Hblk Hbound Hy].
  destruct (buf_data b) as [l|] eqn:Hd; simpl in Hblk.
  2:{ unfold zlen in Hblk; simpl in Hblk. lia. }
  pose proof (write_at_Some l (buf_size_bytes b) (string_bytes text ++ [0])) as Hw.
  rewrite zlen_app, zlen_string_bytes in Hw. change (zlen [0]) with 1 in Hw.
  specialize (Hw ltac:(lia) ltac:(lia)).
  unfold wp at 1. erewrite print_loop_S; [|done|exact Hd|done|exact Hw]. cbn beta iota.
  wp_steps.
  unfold i32. rewrite !(proj2 (Z.leb_le _ _)); [|lia|].
  2:{ pose proof (zlen_nonneg (concat ts)). unfold INT32_MIN. lia. }
  simpl. wp_steps.
  destruct (print_content b l _ (string_bytes text) Hb Hd (string_bytes_byte _)
              ltac:(rewrite zlen_string_bytes; lia) Hw) as [Hok2 Hc2].
  rewrite zlen_string_bytes in Hok2, Hc2.
  rewrite <- Hz. eapply wp_conseq.
  { apply (offset_append n _ _ _ (code_is ADBC_STATUS_INTERNAL)); done. }
  2:{ by intros c d Hf. }
  intros _ d (Hd1 & Hd2 & Hd3). wp_steps. split_and!; [done..|].
  unfold set_size; simpl. split_and!; [done..|]. rewrite Hc2, concat_app.
  rewrite Hcb', Hcb. simpl. by rewrite app_nil_r.
Qed.
(** ** From INT64 or DOUBLE to STRING *)
Definition appends_text (of_bytes : list Z -> Z) (append : Z -> Z -> M TextState Z)
    (f : Z -> string) (n w : Z) : Prop :=
  forall t ts, texts_hold n (ts_offsets t) (ts_binary t) ts -> Z.of_nat (length ts) < n ->
    zlen (concat ts) + strlen (f w) <= INT32_MAX ->
    wp (append (of_bytes (le_bytes 8 w)) (zlen (concat ts)))
      (fun o t' => o = zlen (concat (ts ++ [string_bytes (f w)])) /\ ts_error t' = ts_error t /\
         texts_hold n (ts_offsets t') (ts_binary t') (ts ++ [string_bytes (f w)]))
      (code_is ADBC_STATUS_INTERNAL) t.
Definition texts_of (f : Z -> string) (ws : list Z) : list (list Z) :=
  map (fun w => string_bytes (f w)) ws.

Lemma texts_of_take f ws m w : ws !! m = Some w ->
  texts_of f (take (S m) ws) = texts_of f (take m ws) ++ [string_bytes (f w)].
Proof. intros Hm. unfold texts_of. by rewrite (take_S_r _ _ _ Hm), map_app. Qed.
Lemma texts_of_le f ws m : zlen (concat (texts_of f (take m ws))) <= zlen (concat (texts_of f ws)).
Proof.
  rewrite <- (take_drop m ws) at 2. unfold texts_of. rewrite map_app, concat_app, zlen_app.
  pose proof (zlen_nonneg (concat (map (fun w => string_bytes (f w)) (drop m ws)))). lia.
Qed.

Lemma texts_loop_spec n data ws of_bytes append f k m t :
  words_hold n data ws -> Forall (appends_text of_bytes append f n) ws ->
  (m + k = length ws)%nat -> Z.of_nat (length ws) <= n ->
  zlen (concat (texts_of f ws)) <= INT32_MAX ->
  texts_hold n (ts_offsets t) (ts_binary t) (texts_of f (take m ws)) ->
  wp (texts_loop data of_bytes append k (Z.of_nat m) (zlen (concat (texts_of f (take m ws)))))
    (fun _ t' => ts_error t' = ts_error t /\
       texts_hold n (ts_offsets t') (ts_binary t') (texts_of f ws))
    (code_is ADBC_STATUS_INTERNAL) t.
Proof.
  intros Hw Happ. revert m t. induction k as [|k IH]; intros m t Hm Hn Hmax Ht; simpl.
  { apply wp_ret. split; [done|]. by rewrite take_ge in Ht by lia. }
  destruct (lookup_lt_is_Some_2 ws m) as [w Hwm]; [lia|].
  rewrite Forall_lookup in Happ.
  wp_steps. eapply wp_lift_opt; [by eapply words_element|]. wp_steps.
  pose proof (texts_of_le f ws (S m)) as Hle.
  pose proof (texts_of_take f _ _ _ Hwm) as HS.
  eapply wp_conseq; [apply (Happ _ _ Hwm); [done|..]| |done].
  - unfold texts_of. rewrite length_map, length_take. lia.
  - rewrite HS, concat_app, zlen_app in Hle. simpl in Hle.
    rewrite app_nil_r, zlen_string_bytes in Hle. lia.
  - intros o t' (-> & He & Ht'). rewrite <- HS in Ht' |- *. rewrite <- He.
    replace (Z.of_nat m + 1) with (Z.of_nat (S m)) by lia.
    apply IH; [lia|done..].
Qed.

Lemma upcast_spec line n data ws of_bytes append f t :
  words_hold n data ws -> Forall (appends_text of_bytes append f n) ws ->
  0 < n -> Z.of_nat (length ws) <= n -> zlen (concat (texts_of f ws)) <= INT32_MAX ->
  wp (upcast_to_binary line of_bytes append data)
    (fun _ t' => ts_error t' = ts_error t /\
       texts_hold n (ts_offsets t') (ts_binary t') (texts_of f ws))
    (code_is ADBC_STATUS_INTERNAL) t.
Proof.
  intros Hw Happ Hpos Hn Hmax. pose proof Hw as (Hok & _ & Hcap).
  pose proof Hok as [_ Hsz _ Hb _].
  unfold upcast_to_binary. wp_steps.
  apply wp_CHECK_NA, wp_zoom; simpl. eapply wp_conseq; [apply fresh_reserve; lia| |].
  2:{ intros c b [-> Hr]. split; [done|]. by split. }
  intros _ offsets (Ho & Hco & Hro); simpl. wp_steps.
  apply wp_CHECK_NA, wp_zoom; simpl. eapply wp_conseq; [apply fresh_reserve; lia| |].
  2:{ intros c b [-> Hr]. split; [done|]. by split. }
  intros _ binary (Hbi & Hcb & Hrb); simpl. wp_steps.
  eapply wp_conseq.
  { apply (append_unsafe_spec _ _ (code_is ADBC_STATUS_INTERNAL)); [done|apply le_bytes_byte|].
    pose proof (zlen_buf_content _ Ho) as Hz. rewrite Hco in Hz. unfold zlen in Hz; simpl in Hz.
    rewrite zlen_le_bytes. lia. }
  2:{ by intros c b Hf. }
  intros _ o' (Ho' & Hco' & Hcap'); simpl.
  eapply wp_conseq.
  { replace (Z.to_nat (buf_size_bytes data / 8)) with (length ws)
      by (rewrite (words_count _ _ _ Hw); Z.to_euclidean_division_equations; lia).
    apply (texts_loop_spec n data ws of_bytes append f (length ws) 0); [done..|].
    split_and!; simpl; [done| |lia|done..]. by rewrite Hco', Hco. }
  2:{ by intros c b Hf. }
  intros _ t' (He & Ht'). by split.
Qed.
Lemma int_appends n z : in_i64 z = true ->
  appends_text le_sint StatementReaderAppendInt64ToBinary fmt_Z n z.
Proof.
  intros Hz t ts Ht Hn Hmax. unfold StatementReaderAppendInt64ToBinary.
  rewrite le_sint_le_bytes; [|lia|].
  - pose proof (fmt_Z_i64_length z Hz). apply append_text_spec; [done| |lia|done..].
    unfold strlen. lia.
  - unfold in_i64 in Hz. apply andb_prop in Hz as [Hz1%Z.leb_le Hz2%Z.leb_le].
    unfold INT64_MIN, INT64_MAX in *. simpl. lia.
Qed.
Lemma double_appends n d :
  appends_text le_uint StatementReaderAppendDoubleToBinary
    (fun d => Float.fmt_e (d mod 2 ^ 64)) n d.
Proof.
  intros t ts Ht Hn Hmax. unfold StatementReaderAppendDoubleToBinary.
  rewrite le_uint_le_bytes. change (8 * Z.of_nat 8) with 64.
  pose proof (fmt_e_length (d mod 2 ^ 64)). apply append_text_spec; [done| |lia|done..].
  unfold strlen. lia.
Qed.
End infer_facts.

Section one_value.
  Context `{Libc} `{!LibcBound} `{Sqlite3} `{!Sqlite3Columns}.
#[local] Arguments le_bytes : simpl never.
#[local] Arguments print_loop : simpl never.

(** The cell of the current row, [None] for a BLOB. *)
Definition cell_at (stmt col : Z) (d : sqlite) : option cell :=
  let type := sqlite3_column_type stmt col d in
  if type =? SQLITE_NULL then Some CNull
  else if type =? SQLITE_INTEGER then Some (CInteger (sqlite3_column_int64 stmt col d))
  else if type =? SQLITE_FLOAT then Some (CFloat (sqlite3_column_double stmt col d))
  else if type =? SQLITE_TEXT then Some (CText (default [] (sqlite3_column_text stmt col d).1))
  else None.
(** Reading text may change the library's state. *)
Definition db_after (stmt col : Z) (c : cell) (d : sqlite) : sqlite :=
  match c with CText _ => (sqlite3_column_text stmt col d).2 | _ => d end.
Definition world_after (stmt col : Z) (c : cell) (w : World) : World :=
  mkWorld (db_after stmt col c (w_db w)) (w_held w) (w_errno w).

Lemma cell_at_cases stmt col d c : cell_at stmt col d = Some c ->
  match c with
  | CNull => sqlite3_column_type stmt col d = SQLITE_NULL
  | CInteger z => sqlite3_column_type stmt col d = SQLITE_INTEGER /\
      sqlite3_column_int64 stmt col d = z /\ in_i64 z = true /\
      sqlite3_column_double stmt col d = Float.f64_of_Z z
  | CFloat b => sqlite3_column_type stmt col d = SQLITE_FLOAT /\
      sqlite3_column_double stmt col d = b /\ b mod 2 ^ 64 = b
  | CText bs => sqlite3_column_type stmt col d = SQLITE_TEXT /\ Forall is_byte bs /\
      exists d', sqlite3_column_text stmt col d = (Some bs, d') /\
        sqlite3_column_bytes stmt col d' = zlen bs
  end.
Proof.
  unfold cell_at.
  destruct (Z.eqb_spec (sqlite3_column_type stmt col d) SQLITE_NULL); [by intros [= <-]|].
  destruct (Z.eqb_spec (sqlite3_column_type stmt col d) SQLITE_INTEGER).
  { intros [= <-]. split_and!; auto using column_int64_range, column_int_double. }
  destruct (Z.eqb_spec (sqlite3_column_type stmt col d) SQLITE_FLOAT).
  { intros [= <-]. split_and!; [done..|]. apply Z.mod_small. by apply column_float_range. }
  destruct (Z.eqb_spec (sqlite3_column_type stmt col d) SQLITE_TEXT); [|done].
  destruct (column_text_text stmt col d) as (bs & d' & Ht & Hbs & Hn); [done|].
  rewrite Ht. intros [= <-]. simpl. split_and!; [done..|by exists d'].
Qed.

Lemma validity_step n v valid b e w (data bin : ArrowBuffer) t (Q : unit -> IS -> Prop) E :
  bitmap_ok b -> bitmap_bits b = valid -> n <= 8 * buf_capacity_bytes (bm_buffer b) ->
  Z.of_nat (length valid) < n ->
  (forall b', bitmap_ok b' -> bitmap_bits b' = valid ++ [v] ->
     n <= 8 * buf_capacity_bytes (bm_buffer b') -> Q tt (mkIS e w (mkColumn b' data bin t))) ->
  wp (zoom validity_lens (ArrowBitmapAppendUnsafe (Z.b2z v) 1)) Q E
    (mkIS e w (mkColumn b data bin t)).
Proof.
  intros Hok Hb Hcap Hn HQ. apply wp_zoom. simpl.
  assert (bm_size_bits b = Z.of_nat (length valid)) as Hs.
  { rewrite <- Hb, length_bitmap_bits. destruct Hok. lia. }
  eapply wp_conseq; [apply (bitmap_append_unsafe_spec _ _ _ (fun _ _ => False)); [done|lia|lia]| |done].
  intros [] b' (Hok' & Hb' & Hcap'). simpl. apply HQ; [done| |by rewrite Hcap'].
  by rewrite Hb', Hb.
Qed.
Lemma data_step n ws w b e wo (data bin : ArrowBuffer) t (Q : unit -> IS -> Prop) E :
  words_hold n data ws -> Z.of_nat (length ws) < n ->
  (forall data', words_hold n data' (ws ++ [w]) -> Q tt (mkIS e wo (mkColumn b data' bin t))) ->
  wp (append_data w) Q E (mkIS e wo (mkColumn b data bin t)).
Proof.
  intros Hw Hn HQ. unfold append_data. apply wp_zoom. simpl.
  eapply wp_conseq; [by apply (words_append n data ws w (fun _ _ => False))| |done].
  intros [] d Hd. simpl. by apply HQ.
Qed.
(** The checked append keeps the room that was there. *)
Lemma append_keeps_room b bs m :
  buffer_ok b -> Forall is_byte bs -> zlen bs <= 2 ^ 62 -> m <= buf_capacity_bytes b ->
  wp (ArrowBufferAppend bs)
    (fun _ b' => buffer_ok b' /\ buf_content b' = buf_content b ++ bs /\
       m <= buf_capacity_bytes b')
    (code_is ENOMEM) b.
Proof.
  intros Hok Hbs Hn Hm. unfold ArrowBufferAppend. apply wp_bind.
  pose proof Hok as [_ Hs _ _ _].
  eapply wp_conseq; [apply reserve_spec; [done|pose proof (zlen_nonneg bs); lia]| |].
  2:{ intros c b' (-> & _ & Hr). split; [done|by eexists]. }
  intros _ b' (Hok' & Hc & Hs' & Hcap & Hgrow); simpl.
  assert (m <= buf_capacity_bytes b').
  { destruct Hgrow as [->|[_ ->]]; [done|]. unfold grown_capacity. lia. }
  eapply wp_conseq;
    [apply (append_unsafe_spec _ _ (fun _ _ => False)); [done..|lia]| |done].
  intros _ b2 (Hok2 & Hc2 & Hcap2). split_and!; [done|by rewrite Hc2, Hc|lia].
Qed.

Lemma offset_step line expr n ts t b e wo (data bin : ArrowBuffer) ty (Q : unit -> IS -> Prop) :
  buffer_ok data -> buf_content data = flat_map (le_bytes 4) (offsets_from 0 ts) ->
  4 * (n + 1) <= buf_capacity_bytes data ->
  (forall data', buffer_ok data' ->
     buf_content data' = flat_map (le_bytes 4) (offsets_from 0 (ts ++ [t])) ->
     4 * (n + 1) <= buf_capacity_bytes data' -> Q tt (mkIS e wo (mkColumn b data' bin ty))) ->
  wp (CHECK_NA ADBC_STATUS_INTERNAL reader_c line expr
        (zoom data_lens (ArrowBufferAppend (le_bytes 4 (zlen (concat (ts ++ [t])))))))
    Q (code_is ADBC_STATUS_INTERNAL) (mkIS e wo (mkColumn b data bin ty)).
Proof.
  intros Hok Hc Hcap HQ. apply wp_CHECK_NA, wp_zoom. simpl.
  eapply wp_conseq; [apply append_keeps_room; [done|apply le_bytes_byte| |exact Hcap]| |].
  - rewrite zlen_le_bytes. lia.
  - intros [] d (Hok' & Hc' & Hcap'). simpl. apply HQ; [done| |done].
    rewrite Hc', Hc, offsets_snoc, flat_map_snoc. done.
  - intros c d [-> Hr]. split; [done|]. by split.
Qed.

Lemma wp_last_offset n ts b e wo (data bin : ArrowBuffer) ty (Q : Z -> IS -> Prop) E :
  texts_hold n data bin ts -> zlen (concat ts) <= INT32_MAX ->
  Q (zlen (concat ts)) (mkIS e wo (mkColumn b data bin ty)) ->
  wp last_offset Q E (mkIS e wo (mkColumn b data bin ty)).
Proof.
  intros Ht Hmax HQ. unfold last_offset. apply wp_bind, wp_gets. simpl.
  eapply wp_lift_opt; [by eapply texts_last|done].
Qed.
Lemma wp_i32 {S} z (Q : Z -> S -> Prop) E s :
  INT32_MIN <= z <= INT32_MAX -> Q z s -> wp (i32 z) Q E s.
Proof. intros Hz HQ. unfold i32. rewrite !(proj2 (Z.leb_le _ _)) by lia. exact HQ. Qed.

Lemma concat_snoc_len (ts : list (list Z)) t : zlen (concat (ts ++ [t])) = zlen (concat ts) + zlen t.
Proof. rewrite concat_app, zlen_app. simpl. by rewrite app_nil_r. Qed.

(** The end of the TEXT case: the text's bytes, and its offset. *)
Lemma text_step stmt col n ts bs d' b e wo (data bin : ArrowBuffer) ty (Q : unit -> IS -> Prop) :
  texts_hold n data bin ts -> Forall is_byte bs ->
  zlen (concat ts) + zlen bs <= INT32_MAX ->
  sqlite3_column_text stmt col (w_db wo) = (Some bs, d') ->
  sqlite3_column_bytes stmt col d' = zlen bs ->
  (forall data' bin', texts_hold n data' bin' (ts ++ [bs]) ->
     Q tt (mkIS e (mkWorld d' (w_held wo) (w_errno wo)) (mkColumn b data' bin' ty))) ->
  wp (value ← column_text_bytes stmt col;
      offset ← last_offset;
      offset ← i32 (offset + zlen value);
      CHECK_NA ADBC_STATUS_INTERNAL reader_c 801 "ArrowBufferAppend(binary, value, size)"
        (zoom column_binary_lens (ArrowBufferAppend value)) ;;
      CHECK_NA ADBC_STATUS_INTERNAL reader_c 802
        "ArrowBufferAppend(data, &offset, sizeof(offset))"
        (zoom data_lens (ArrowBufferAppend (le_bytes 4 offset))))
    Q (code_is ADBC_STATUS_INTERNAL) (mkIS e wo (mkColumn b data bin ty)).
Proof.
  intros Ht Hbs Hmax Htext Hbytes HQ. pose proof (zlen_nonneg bs).
  pose proof (zlen_nonneg (concat ts)).
  apply wp_bind. unfold column_text_bytes. apply wp_bind.
  eapply wp_call; [exact Htext|]. apply wp_bind, wp_ask. unfold db_of, set_db; simpl.
  rewrite Hbytes, Z.leb_refl, (proj2 (Z.leb_le 0 _)) by done. simpl.
  rewrite take_ge by (unfold zlen; lia). apply wp_ret.
  apply wp_bind. eapply wp_last_offset; [done|lia|].
  apply wp_bind, wp_i32; [unfold INT32_MIN; lia|].
  pose proof Ht as (Hok & Hc & Hcap & Hbin & Hcb).
  apply wp_bind, wp_CHECK_NA, wp_zoom. simpl.
  eapply wp_conseq.
  { apply (append_keeps_room _ _ 0 Hbin Hbs); [unfold INT32_MAX in *; lia|].
    destruct Hbin. lia. }
  2:{ intros c d [-> Hr]. split; [done|]. by split. }
  intros [] bin' (Hbok & Hbc & _). simpl. rewrite <- concat_snoc_len.
  eapply (offset_step 802); [exact Hok|exact Hc|exact Hcap|].
  intros data' Hd1 Hd2 Hd3. apply HQ. split_and!; [done..|].
  rewrite Hbc, Hcb, concat_app. simpl. by rewrite app_nil_r.
Qed.

Lemma wp_upcast_column upcast n ws f b e wo (data bin : ArrowBuffer) ty (Q : unit -> IS -> Prop) :
  words_hold n data ws ->
  (forall t, ts_error t = e -> wp (upcast data)
     (fun _ t' => ts_error t' = ts_error t /\
        texts_hold n (ts_offsets t') (ts_binary t') (texts_of f ws))
     (code_is ADBC_STATUS_INTERNAL) t) ->
  (forall data' bin', texts_hold n data' bin' (texts_of f ws) ->
     Q tt (mkIS e wo (mkColumn b data' bin' ty))) ->
  wp (upcast_column upcast) Q (code_is ADBC_STATUS_INTERNAL) (mkIS e wo (mkColumn b data bin ty)).
Proof.
  intros (Hok & _) Hup HQ. unfold upcast_column, wp. simpl.
  specialize (Hup (mkText e ArrowBufferInit bin) eq_refl). unfold wp in Hup.
  destruct (upcast data _) as [[] t|c t| |]; try done.
  - rewrite reset_ok by done. destruct Hup as [He Ht]. simpl in He. rewrite He. by apply HQ.
Qed.

Lemma ints_appends n zs : Forall (fun z => in_i64 z = true) zs ->
  Forall (appends_text le_sint StatementReaderAppendInt64ToBinary fmt_Z n) zs.
Proof. intros Hz. eapply Forall_impl; [exact Hz|]. intros z. apply int_appends. Qed.
Lemma doubles_appends n ds :
  Forall (appends_text le_uint StatementReaderAppendDoubleToBinary
            (fun d => Float.fmt_e (d mod 2 ^ 64)) n) ds.
Proof. apply Forall_true. intros d. apply double_appends. Qed.

Definition inferred n valid d (c : cell) stmt col (s s' : IS) : Prop :=
  column_holds n (is_column s') (valid ++ [cell_valid c]) (infer_step d c) /\
  is_error s' = is_error s /\ is_world s' = world_after stmt col c (is_world s).
Lemma inferred_intro n valid d c stmt col e w w' b0 data0 bin0 t0 b data bin t :
  length valid = data_length d -> bitmap_ok b -> bitmap_bits b = valid ++ [cell_valid c] ->
  n <= 8 * buf_capacity_bytes (bm_buffer b) -> w' = world_after stmt col c w ->
  t = data_type (infer_step d c) -> data_hold n (mkColumn b data bin t) (infer_step d c) ->
  inferred n valid d c stmt col (mkIS e w (mkColumn b0 data0 bin0 t0))
    (mkIS e w' (mkColumn b data bin t)).
Proof.
  intros Hlen Hok Hb Hcap -> -> Hd. split_and!; [|done..]. simpl. split_and!; [done..| |done].
  rewrite length_app, Hlen. simpl.
  destruct d, c; simpl; rewrite ?length_app, ?length_map; simpl; lia.
Qed.
Lemma world_after_id stmt col c w : match c with CText _ => False | _ => True end ->
  w = world_after stmt col c w.
Proof. unfold world_after. destruct c, w; done. Qed.

(** Read the cell, and append its validity. *)
Ltac infer_start c Hc n valid :=
  unfold StatementReaderInferOneValue;
  apply wp_bind, wp_ask; unfold db_of; simpl; apply wp_bind, wp_gets; simpl in *;
  destruct c as [|z|x|bs]; [rewrite Hc|destruct Hc as (-> & Hv & Hzr & Hdv)
    |destruct Hc as (-> & Hv & Hx)|destruct Hc as (-> & Hbs & d' & Htext & Hbytes)]; simpl;
  apply wp_bind;
  [apply (validity_step n false valid)|apply (validity_step n true valid)..];
  try assumption; intros b' Hb' Hbits' Hcap'.

(** A row read into an INT64 column. *)
Lemma infer_ints stmt col n s valid zs c :
  cell_at stmt col (w_db (is_world s)) = Some c -> column_holds n (is_column s) valid (DInts zs) ->
  Z.of_nat (length valid) < n -> data_bytes (infer_step (DInts zs) c) <= INT32_MAX ->
  wp (StatementReaderInferOneValue stmt col) (fun _ => inferred n valid (DInts zs) c stmt col s)
    (code_is ADBC_STATUS_INTERNAL) s.
Proof.
  destruct s as [e w [b data bin t]]. simpl.
  intros Hc%cell_at_cases (Hb & Hbits & Hcap & Ht & Hlen & Hw & Hz) Hn Hmax. simpl in Ht. subst t.
  simpl in Hlen, Hw. assert (Z.of_nat (length zs) < n) by lia. infer_start c Hc n valid.
  - eapply data_step; [done..|]. intros data' Hd'.
    apply inferred_intro; auto using world_after_id. split; [done|].
    apply Forall_app_2; [done|]. by repeat constructor.
  - apply wp_bind, wp_ask. unfold db_of; simpl. rewrite Hv.
    eapply data_step; [done..|]. intros data' Hd'.
    apply inferred_intro; auto using world_after_id. split; [done|].
    apply Forall_app_2; [done|]. by repeat constructor.
  - apply wp_bind, wp_zoom. simpl. eapply wp_conseq.
    { eapply upcast_doubles_spec; [done..|lia]. }
    2:{ done. }
    intros _ [e' data'] [He Hd']. simpl in *. subst e'. unfold set_current_type.
    wp_steps. apply wp_ask. unfold db_of; simpl. rewrite Hv.
    eapply data_step; [exact Hd'|by rewrite length_map|]. intros data2 Hd2.
    apply inferred_intro; auto using world_after_id.
  - unfold data_bytes in Hmax. rewrite concat_snoc_len in Hmax. pose proof (zlen_nonneg bs).
    apply wp_bind, wp_bind. eapply wp_upcast_column; [exact Hw| |].
    { intros t Hte. eapply upcast_spec; [exact Hw|by apply ints_appends|lia..|].
      unfold texts_of. change (zlen (concat (map int_text zs)) <= INT32_MAX). lia. }
    intros data' bin' Ht'. unfold set_current_type. do 2 (wp_step; simpl).
    eapply text_step; [exact Ht'|done|exact Hmax|exact Htext|exact Hbytes|].
    intros data2 bin2 Ht2. apply inferred_intro; auto.
    unfold world_after; simpl. by rewrite Htext.
Qed.
(** A row read into a DOUBLE column. *)
Lemma infer_doubles stmt col n s valid ds c :
  cell_at stmt col (w_db (is_world s)) = Some c ->
  column_holds n (is_column s) valid (DDoubles ds) ->
  Z.of_nat (length valid) < n -> data_bytes (infer_step (DDoubles ds) c) <= INT32_MAX ->
  wp (StatementReaderInferOneValue stmt col) (fun _ => inferred n valid (DDoubles ds) c stmt col s)
    (code_is ADBC_STATUS_INTERNAL) s.
Proof.
  destruct s as [e w [b data bin t]]. simpl.
  intros Hc%cell_at_cases (Hb & Hbits & Hcap & Ht & Hlen & Hw) Hn Hmax. simpl in Ht. subst t.
  simpl in Hlen, Hw. assert (Z.of_nat (length ds) < n) by lia. infer_start c Hc n valid.
  - eapply data_step; [done..|]. intros data' Hd'.
    apply inferred_intro; auto using world_after_id.
  - apply wp_bind, wp_ask. unfold db_of; simpl. rewrite Hdv.
    eapply data_step; [done..|]. intros data' Hd'.
    apply inferred_intro; auto using world_after_id.
  - apply wp_bind, wp_ask. unfold db_of; simpl. rewrite Hv.
    eapply data_step; [done..|]. intros data' Hd'.
    apply inferred_intro; auto using world_after_id.
  - unfold data_bytes in Hmax. rewrite concat_snoc_len in Hmax. pose proof (zlen_nonneg bs).
    apply wp_bind, wp_bind. eapply wp_upcast_column; [exact Hw| |].
    { intros t Hte. eapply upcast_spec; [exact Hw|by apply doubles_appends|lia..|].
      unfold texts_of. change (zlen (concat (map double_text ds)) <= INT32_MAX). lia. }
    intros data' bin' Ht'. unfold set_current_type. do 2 (wp_step; simpl).
    eapply text_step; [exact Ht'|done|exact Hmax|exact Htext|exact Hbytes|].
    intros data2 bin2 Ht2. apply inferred_intro; auto.
    unfold world_after; simpl. by rewrite Htext.
Qed.

(** A row read into a STRING column. *)
Lemma infer_texts stmt col n s valid ts c :
  cell_at stmt col (w_db (is_world s)) = Some c ->
  column_holds n (is_column s) valid (DTexts ts) ->
  Z.of_nat (length valid) < n -> data_bytes (infer_step (DTexts ts) c) <= INT32_MAX ->
  wp (StatementReaderInferOneValue stmt col) (fun _ => inferred n valid (DTexts ts) c stmt col s)
    (code_is ADBC_STATUS_INTERNAL) s.
Proof.
  destruct s as [e w [b data bin t]]. simpl.
  intros Hc%cell_at_cases (Hb & Hbits & Hcap & Ht & Hlen & Hw) Hn Hmax. simpl in Ht. subst t.
  simpl in Hlen, Hw. assert (Z.of_nat (length ts) < n) by lia.
  assert (zlen (concat ts) <= INT32_MAX) as Hle.
  { destruct c; unfold data_bytes, infer_step in Hmax; rewrite concat_snoc_len in Hmax;
      match type of Hmax with _ + zlen ?l <= _ => pose proof (zlen_nonneg l) end; lia. }
  infer_start c Hc n valid.
  - pose proof Hw as (Hok & Hco & Hca & Hbk & Hbc).
    apply wp_bind. eapply wp_last_offset; [done..|].
    replace (zlen (concat ts)) with (zlen (concat (ts ++ [[]])))
      by (rewrite concat_snoc_len; unfold zlen; simpl; lia).
    eapply offset_step; [done..|]. intros data' Hd1 Hd2 Hd3.
    apply inferred_intro; auto using world_after_id. split_and!; auto. simpl.
    rewrite Hbc, concat_app. simpl. by rewrite !app_nil_r.
  - unfold data_bytes in Hmax. rewrite concat_snoc_len in Hmax. unfold int_text in Hmax.
    rewrite zlen_string_bytes in Hmax.
    apply wp_bind. eapply wp_last_offset; [done..|].
    apply wp_bind, wp_ask. unfold db_of; simpl. rewrite Hv. apply wp_bind, wp_zoom. simpl.
    pose proof (int_appends n z Hzr (mkText e data bin) ts Hw ltac:(lia) Hmax) as Ha.
    rewrite le_sint_le_bytes in Ha; [|lia|].
    2:{ unfold in_i64 in Hzr. apply andb_prop in Hzr as [?%Z.leb_le ?%Z.leb_le].
        unfold INT64_MIN, INT64_MAX in *. simpl. lia. }
    eapply wp_conseq; [exact Ha| |done]. intros o t' (_ & He & Ht'). simpl in He. rewrite He.
    apply wp_ret. apply inferred_intro; auto using world_after_id.
  - unfold data_bytes in Hmax. rewrite concat_snoc_len in Hmax. unfold double_text in Hmax.
    rewrite zlen_string_bytes in Hmax.
    apply wp_bind. eapply wp_last_offset; [done..|].
    apply wp_bind, wp_ask. unfold db_of; simpl. rewrite Hv. apply wp_bind, wp_zoom. simpl.
    pose proof (double_appends n x (mkText e data bin) ts Hw ltac:(lia) Hmax) as Ha.
    rewrite le_uint_le_bytes in Ha. change (8 * Z.of_nat 8) with 64 in Ha. rewrite Hx in Ha.
    eapply wp_conseq; [exact Ha| |done]. intros o t' (_ & He & Ht'). simpl in He. rewrite He.
    apply wp_ret. apply inferred_intro; auto using world_after_id.
    unfold infer_step, double_text. by rewrite Hx.
  - unfold data_bytes in Hmax. rewrite concat_snoc_len in Hmax.
    apply wp_bind, wp_ret.
    eapply text_step; [exact Hw|done|exact Hmax|exact Htext|exact Hbytes|].
    intros data2 bin2 Ht2. apply inferred_intro; auto.
    unfold world_after; simpl. by rewrite Htext.
Qed.

Lemma infer_one_value_spec stmt col n s valid d c :
  cell_at stmt col (w_db (is_world s)) = Some c -> column_holds n (is_column s) valid d ->
  Z.of_nat (length valid) < n -> data_bytes (infer_step d c) <= INT32_MAX ->
  wp (StatementReaderInferOneValue stmt col) (fun _ => inferred n valid d c stmt col s)
    (code_is ADBC_STATUS_INTERNAL) s.
Proof. destruct d; [apply infer_ints|apply infer_doubles|apply infer_texts]. Qed.
End one_value.
