(* ===== verification/Reader.v ===== *)
(** The result reader (c/driver/sqlite/statement_reader.c): the stream that a query's
    results are exported as, its first batch inferred, the following ones of fixed types. *)
From stdpp Require Import base tactics list numbers option strings.
From Stdlib Require Import ZArith Lia.
From S2P Require Import Prelude CLib Buffer Schema SchemaView Array ArrayView Adbc Utils Sqlite3.
From S2P Require Import Binder Infer.

(** * The reader

    [sr_binder] tells whether the reader has a binder: it is the one of the statement.
    [sr_error] is the text of [error.message], 1024 bytes. *)
Record StatementReader := mkReader {
  sr_db : Z;
  sr_stmt : Z;
  sr_types : option (list (option ArrowType));
  sr_schema : ArrowSchema;
  sr_initial_batch : ArrowArray;
  sr_binder : bool;
  sr_error : string;
  sr_done : bool;
  sr_batch_size : Z;
}.
Definition sr_set_types t (r : StatementReader) := mkReader (sr_db r) (sr_stmt r) t
  (sr_schema r) (sr_initial_batch r) (sr_binder r) (sr_error r) (sr_done r) (sr_batch_size r).
Definition sr_set_schema s (r : StatementReader) := mkReader (sr_db r) (sr_stmt r) (sr_types r)
  s (sr_initial_batch r) (sr_binder r) (sr_error r) (sr_done r) (sr_batch_size r).
Definition sr_set_batch b (r : StatementReader) := mkReader (sr_db r) (sr_stmt r) (sr_types r)
  (sr_schema r) b (sr_binder r) (sr_error r) (sr_done r) (sr_batch_size r).
Definition sr_set_binder b (r : StatementReader) := mkReader (sr_db r) (sr_stmt r) (sr_types r)
  (sr_schema r) (sr_initial_batch r) b (sr_error r) (sr_done r) (sr_batch_size r).
Definition sr_set_error e (r : StatementReader) := mkReader (sr_db r) (sr_stmt r) (sr_types r)
  (sr_schema r) (sr_initial_batch r) (sr_binder r) e (sr_done r) (sr_batch_size r).
Definition sr_set_done d (r : StatementReader) := mkReader (sr_db r) (sr_stmt r) (sr_types r)
  (sr_schema r) (sr_initial_batch r) (sr_binder r) (sr_error r) d (sr_batch_size r).

(** [sizeof(struct StatementReader)] and of the raw buffers (LP64). *)
Definition sizeof_StatementReader := 1216.
Definition sizeof_ArrowBuffer := 48.
Definition sizeof_ArrowBitmap := 56.

Definition ReaderStream := ArrowArrayStream StatementReader.

(** The state of a call: the error, the library and the binder; the reader; and the array
    that is written. *)
Record RS `{Sqlite3} := mkRS { rs_env : BS; rs_reader : StatementReader; rs_out : ArrowArray }.
Arguments mkRS {_} rs_env rs_reader rs_out.

(** The raw columns under inference: entries are [None] until initialised. *)
Record RawColumns := mkRaw {
  rc_validity : list (option ArrowBitmap);
  rc_data : list (option ArrowBuffer);
  rc_binary : list (option ArrowBuffer);
  rc_type : list (option ArrowType);
}.

Section state.
  Context `{Sqlite3}.

Definition env_lens : Lens RS BS := mkLens rs_env (fun e s => mkRS e (rs_reader s) (rs_out s)).
Definition reader_lens : Lens RS StatementReader :=
  mkLens rs_reader (fun r s => mkRS (rs_env s) r (rs_out s)).
Definition out_lens : Lens RS ArrowArray :=
  mkLens rs_out (fun o s => mkRS (rs_env s) (rs_reader s) o).
#[export] Instance HasError_RS : HasError RS := lens_comp env_lens error_lens.
#[export] Instance HasWorld_RS : HasWorld RS := lens_comp env_lens world_lens.
Definition sr_schema_lens : Lens RS ArrowSchema :=
  lens_comp reader_lens (mkLens sr_schema sr_set_schema).
Definition sr_batch_lens : Lens RS ArrowArray :=
  lens_comp reader_lens (mkLens sr_initial_batch sr_set_batch).
Definition on_reader (f : StatementReader -> StatementReader) : M RS unit :=
  zoom reader_lens (modify f).
(** Code on an array and [reader->error]. *)
Definition with_reader_error (l : Lens RS ArrowArray) (m : M AE unit) : M RS unit := fun s =>
  let back (a : ArrowArray) (e : ArrowError) :=
    over reader_lens (sr_set_error (default "" e) (rs_reader (over l a s))) (over l a s) in
  match m (view l s, Some (sr_error (rs_reader s))) with
  | Ret _ (a, e) => Ret tt (back a e)
  | Exit c (a, e) => Exit c (back a e)
  | Undef => Undef
  | NoFuel => NoFuel
  end.
(** Code on an array that is given a null error. *)
Definition without_error (l : Lens RS ArrowArray) (m : M AE unit) : M RS unit := fun s =>
  match m (view l s, None) with
  | Ret _ (a, _) => Ret tt (over l a s)
  | Exit c (a, _) => Exit c (over l a s)
  | Undef => Undef
  | NoFuel => NoFuel
  end.
End state.

(** * Exporting *)
Section export.
  Context `{Libc} `{Sqlite3}.

Definition kMessageSize := 1024.

(** The state during inference. *)
Definition XS : Type := RS * RawColumns.
#[export] Instance HasWorld_XS : HasWorld XS := lens_comp fst_lens world_lens.
Definition raw_lens : Lens XS RawColumns := snd_lens.
Definition on_raw (f : RawColumns -> RawColumns) : M XS unit := zoom raw_lens (modify f).
Definition put_validity i v (r : RawColumns) :=
  mkRaw (<[i := v]> (rc_validity r)) (rc_data r) (rc_binary r) (rc_type r).
Definition put_data i v (r : RawColumns) :=
  mkRaw (rc_validity r) (<[i := v]> (rc_data r)) (rc_binary r) (rc_type r).
Definition put_binary i v (r : RawColumns) :=
  mkRaw (rc_validity r) (rc_data r) (<[i := v]> (rc_binary r)) (rc_type r).
Definition put_type i v (r : RawColumns) :=
  mkRaw (rc_validity r) (rc_data r) (rc_binary r) (<[i := v]> (rc_type r)).
(** Code on one element of an array of buffers; undefined on indeterminate memory. *)
Definition on_elem {T A} (get : RawColumns -> list (option T))
    (set_ : nat -> option T -> RawColumns -> RawColumns) (i : nat) (m : M T A) : M XS A :=
  r ← gets snd;
  t ← lift_opt (mjoin (get r !! i));
  match m t with
  | Ret a t => on_raw (set_ i (Some t)) ;; mret a
  | Exit c t => on_raw (set_ i (Some t)) ;; exit c
  | Undef => undef
  | NoFuel => nofuel
  end.

Definition StatementReaderInitializeInfer (num_columns infer_rows : Z) : M XS unit :=
  for_range 0 num_columns (fun i =>
    let k := Z.to_nat i in
    on_raw (put_validity k (Some ArrowBitmapInit)) ;;
    CHECK_NA ADBC_STATUS_INTERNAL reader_c 506
      "ArrowBitmapReserve(&validity[i], infer_rows)"
      (on_elem rc_validity put_validity k (ArrowBitmapReserve infer_rows)) ;;
    on_raw (put_data k (Some ArrowBufferInit)) ;;
    CHECK_NA ADBC_STATUS_INTERNAL reader_c 508
      "ArrowBufferReserve(&data[i], infer_rows * sizeof(int64_t))"
      (on_elem rc_data put_data k (ArrowBufferReserve (infer_rows * 8))) ;;
    on_raw (put_binary k (Some zero_buffer)) ;;
    on_raw (put_type k (Some TYPE_INT64))).

(** A column's entries of the four arrays. *)
Definition get_column (r : RawColumns) (k : nat) : option Column :=
  v ← mjoin (rc_validity r !! k); d ← mjoin (rc_data r !! k);
  b ← mjoin (rc_binary r !! k); t ← mjoin (rc_type r !! k); Some (mkColumn v d b t).
Definition put_column (k : nat) (c : Column) (r : RawColumns) : RawColumns :=
  put_validity k (Some (co_validity c)) (put_data k (Some (co_data c))
    (put_binary k (Some (co_binary c)) (put_type k (Some (co_type c)) r))).
Definition on_column (k : nat) (m : M IS unit) : M XS unit := fun s =>
  match get_column s.2 k with
  | None => Undef
  | Some c =>
      let env := rs_env s.1 in
      let back (i : IS) : XS :=
        (mkRS (mkBS (is_error i) (is_world i) (bs_binder env)) (rs_reader s.1) (rs_out s.1),
         put_column k (is_column i) s.2) in
      match m (mkIS (bs_error env) (bs_world env) c) with
      | Ret _ i => Ret tt (back i)
      | Exit code i => Exit code (back i)
      | Undef => Undef
      | NoFuel => NoFuel
      end
  end.

Definition StatementReaderInferFinalize (stmt num_columns num_rows : Z) : M XS unit :=
  zoom fst_lens (
    zoom sr_schema_lens ArrowSchemaInit ;;
    CHECK_NA ADBC_STATUS_INTERNAL reader_c 521
      "ArrowSchemaSetTypeStruct(&reader->schema, num_columns)"
      (zoom sr_schema_lens (ArrowSchemaSetTypeStruct num_columns))) ;;
  raw ← gets snd;
  for_range 0 num_columns (fun col =>
    zoom fst_lens (
      name ← ask (sqlite3_column_name stmt col);
      type ← lift_opt (mjoin (rc_type raw !! Z.to_nat col));
      CHECK_NA ADBC_STATUS_INTERNAL reader_c 525 "ArrowSchemaSetType(field, current_type[col])"
        (zoom sr_schema_lens (on_child col (ArrowSchemaSetType type))) ;;
      CHECK_NA ADBC_STATUS_INTERNAL reader_c 526 "ArrowSchemaSetName(field, name)"
        (zoom sr_schema_lens (on_child col (ArrowSchemaSetName name))))) ;;
  zoom fst_lens (
    schema ← gets (view sr_schema_lens);
    CHECK_NA ADBC_STATUS_INTERNAL reader_c 528
      "ArrowArrayInitFromSchema(&reader->initial_batch, &reader->schema, NULL)"
      (without_error sr_batch_lens (ArrowArrayInitFromSchema schema))) ;;
  for_range 0 num_columns (fun col =>
    c ← lift_opt (get_column raw (Z.to_nat col));
    zoom fst_lens (
      when ((type_eqb (co_type c) TYPE_STRING || type_eqb (co_type c) TYPE_BINARY) &&
            bool_decide (buf_data (co_binary c) = None))
        (fail ADBC_STATUS_INTERNAL "INTERNAL: column has binary-like type but no backing buffer"
           []) ;;
      zoom sr_batch_lens (on_array_child col (modify (set_length num_rows))))) ;;
  zoom fst_lens (zoom sr_batch_lens (modify (set_length num_rows))) ;;
  for_range 0 num_columns (fun col =>
    let k := Z.to_nat col in
    c ← lift_opt (get_column raw k);
    let arr {A} (m : M ArrowArray A) : M XS A :=
      zoom fst_lens (zoom sr_batch_lens (on_array_child col m)) in
    validity ← arr (ArrowArraySetValidityBitmap (co_validity c));
    on_raw (put_validity k (Some validity)) ;;
    data ← arr (ArrowArraySetBuffer 1 (co_data c));
    on_raw (put_data k (Some data)) ;;
    (if type_eqb (co_type c) TYPE_STRING || type_eqb (co_type c) TYPE_BINARY then
       binary ← arr (ArrowArraySetBuffer 2 (co_binary c));
       on_raw (put_binary k (Some binary))
     else mret tt) ;;
    arr (modify (set_length num_rows))).

(** [while (num_rows < batch_size)], with [left] the difference: the number of rows read,
    when the loop is left without an error. *)
Fixpoint infer_loop (db stmt num_columns : Z) (binder : bool) (left : nat) (num_rows : Z)
    : M XS Z :=
  match left with
  | O => mret num_rows
  | S left' =>
      finished ← (if binder then zoom fst_lens (zoom env_lens (AdbcSqliteBinderBindNext db stmt))
                  else mret false);
      if finished : bool then
        zoom fst_lens (on_reader (sr_set_done true)) ;; mret num_rows
      else
      rc ← call (sqlite3_step stmt);
      if rc =? SQLITE_DONE then
        zoom fst_lens (on_reader (sr_set_done true)) ;; mret num_rows
      else if rc =? SQLITE_ERROR then exit ADBC_STATUS_IO
      else
      for_range 0 num_columns (fun col =>
        on_column (Z.to_nat col) (StatementReaderInferOneValue stmt col)) ;;
      infer_loop db stmt num_columns binder left' (num_rows + 1)
  end.

Definition fresh_columns (n : nat) : RawColumns :=
  mkRaw (replicate n None) (replicate n None) (replicate n None) (replicate n None).
Definition malloc_array {S} (n size : Z) : M S unit :=
  when (0 <? n) (malloc_unchecked (n * size)).

(** The body between entering and leaving the mutex; the status is the code. *)
Definition export_columns (db stmt : Z) (binder : bool) (batch_size num_columns : Z) : M XS unit :=
  status ← catch (
    StatementReaderInitializeInfer num_columns batch_size ;;
    num_rows ← infer_loop db stmt num_columns binder (Z.to_nat batch_size) 0;
    StatementReaderInferFinalize stmt num_columns num_rows);
  if negb (status =? 0) then
    for_range 0 num_columns (fun i =>
      on_elem rc_validity put_validity (Z.to_nat i) ArrowBitmapReset ;;
      on_elem rc_data put_data (Z.to_nat i) ArrowBufferReset ;;
      on_elem rc_binary put_binary (Z.to_nat i) ArrowBufferReset) ;;
    exit status
  else
    raw ← gets snd;
    zoom fst_lens (on_reader (fun r => sr_set_binder binder (sr_set_types (Some (rc_type raw)) r))).

Definition new_reader (db stmt batch_size : Z) : StatementReader :=
  mkReader db stmt None zero_schema zero_array false "" false (to_signed 32 batch_size).
(** [rs_reader] is the private data of the exported stream, which is set up at once. *)
Definition AdbcSqliteExportReader (db stmt : Z) (binder : bool) (batch_size : Z) : M RS unit :=
  malloc_unchecked sizeof_StatementReader ;;
  on_reader (fun _ => new_reader db stmt batch_size) ;;
  mutex_enter ;;
  num_columns ← ask (sqlite3_column_count stmt);
  malloc_array num_columns sizeof_ArrowBitmap ;;
  malloc_array num_columns sizeof_ArrowBuffer ;;
  malloc_array num_columns sizeof_ArrowBuffer ;;
  malloc_array num_columns 4 ;;
  status ← (fun s =>
    match export_columns db stmt binder batch_size num_columns
            (s, fresh_columns (Z.to_nat num_columns)) with
    | Ret _ (s, _) => Ret 0 s
    | Exit c (s, _) => Ret c s
    | Undef => Undef
    | NoFuel => NoFuel
    end);
  mutex_leave ;;
  return_code status.
End export.

(** * The stream's callbacks *)
Section reader.
  Context `{Libc} `{Sqlite3}.

Definition StatementReaderGetLastError (self : ReaderStream) : option string :=
  match self with
  | StreamReader reader => Some (sr_error reader)
  | _ => None
  end.

(** [strncpy] into the 1024 bytes, and the terminator. *)
Definition StatementReaderSetError : M RS unit :=
  db ← gets (fun s => sr_db (rs_reader s));
  msg ← errmsg db;
  on_reader (sr_set_error (truncate_to kMessageSize msg)).

(** [snprintf(reader->error.message, ...); return code;] *)
Definition reader_fail (code : Z) (format : string) (args : list fmt_arg) : M RS unit :=
  on_reader (sr_set_error (truncate_to kMessageSize (c_format format args))) ;; exit code.

Definition StatementReaderGetOneValue (col : Z) : M RS unit :=
  reader ← gets rs_reader;
  let stmt := sr_stmt reader in
  let out (m : M ArrowArray unit) := zoom out_lens (on_array_child col m) in
  sqlite_type ← ask (sqlite3_column_type stmt col);
  if sqlite_type =? SQLITE_NULL then out (ArrowArrayAppendNull 1) else
  let ty t := sqlite_type =? t in
  type ← lift_opt (ts ← sr_types reader; mjoin (ts !! Z.to_nat col));
  match type with
  | TYPE_INT64 =>
      if ty SQLITE_INTEGER then
        value ← ask (sqlite3_column_int64 stmt col); out (ArrowArrayAppendInt value)
      else if ty SQLITE_FLOAT then
        reader_fail EIO "[SQLite] Type mismatch in column %d: expected INT64 but got DOUBLE"
          [AInt col]
      else if ty SQLITE_TEXT || ty SQLITE_BLOB then
        reader_fail EIO
          "[SQLite] Type mismatch in column %d: expected INT64 but got STRING/BINARY" [AInt col]
      else
        reader_fail ENOTSUP
          "[SQLite] Type mismatch in column %d: expected INT64 but got unknown type %d"
          [AInt col; AInt sqlite_type]
  | TYPE_DOUBLE =>
      if ty SQLITE_INTEGER || ty SQLITE_FLOAT then
        value ← ask (sqlite3_column_double stmt col); out (ArrowArrayAppendDouble value)
      else if ty SQLITE_TEXT || ty SQLITE_BLOB then
        reader_fail EIO
          "[SQLite] Type mismatch in column %d: expected DOUBLE but got STRING/BINARY" [AInt col]
      else
        reader_fail ENOTSUP
          "[SQLite] Type mismatch in column %d: expected DOUBLE but got unknown type %d"
          [AInt col; AInt sqlite_type]
  | TYPE_STRING =>
      if ty SQLITE_INTEGER || ty SQLITE_FLOAT || ty SQLITE_TEXT || ty SQLITE_BLOB then
        value ← column_text_bytes stmt col; out (ArrowArrayAppendString (bytes_string value))
      else
        reader_fail ENOTSUP
          "[SQLite] Type mismatch in column %d: expected STRING but got unknown type %d"
          [AInt col; AInt sqlite_type]
  | _ =>
      reader_fail ENOTSUP "[SQLite] Internal error: unknown inferred column type %d"
        [AInt (type_code type)]
  end.

(** Why the loop of [get_next] was left: [status] and [batch_size]. *)
Definition env_of (s : RS) : BS := rs_env s.
(** [AdbcSqliteBinderBindNext(reader->binder, ..., &finished, &error)] with the local
    [error]: the code, [finished] and the error. *)
Definition bind_next_local (db stmt : Z) : M RS (Z * bool * ErrorPtr) := fun s =>
  let env := rs_env s in
  let back (b : BS) := mkRS (mkBS (bs_error env) (bs_world b) (bs_binder b)) (rs_reader s)
                         (rs_out s) in
  match AdbcSqliteBinderBindNext db stmt
          (mkBS (Some zero_error) (bs_world env) (bs_binder env)) with
  | Ret finished b => Ret (0, finished, bs_error b) (back b)
  | Exit c b => Ret (c, false, bs_error b) (back b)
  | Undef => Undef
  | NoFuel => NoFuel
  end.
(** [while (batch_size < reader->batch_size)], with [left] the difference: [status] and
    [batch_size].  The status of the binder is in an inner variable of the same name. *)
Fixpoint next_loop (left : nat) (batch_size : Z) : M RS (Z * Z) :=
  match left with
  | O => mret (0, batch_size)
  | S left' =>
      reader ← gets rs_reader;
      let done_with (status : Z) : M RS (Z * Z) :=
        on_reader (sr_set_done true) ;; mret (status, batch_size) in
      '(code, finished, error) ← (if sr_binder reader
        then bind_next_local (sr_db reader) (sr_stmt reader) else mret (0, false, None));
      if negb (code =? ADBC_STATUS_OK) then
        match error with
        | Some e =>
            when (err_release e)
              (on_reader (sr_set_error (truncate_to kMessageSize (default "" (err_message e)))))
        | None => mret tt
        end ;;
        done_with 0
      else if finished : bool then done_with 0
      else
      rc ← call (sqlite3_step (sr_stmt reader));
      if rc =? SQLITE_DONE then done_with 0
      else if rc =? SQLITE_ERROR then StatementReaderSetError ;; done_with EIO
      else
      status ← catch (for_range 0 (sc_n_children (sr_schema reader)) StatementReaderGetOneValue);
      if negb (status =? 0) then mret (status, batch_size)
      else next_loop left' (batch_size + 1)
  end.

(** [get_next] on a stream whose private data is the reader. *)
Definition reader_get_next : M RS unit :=
  reader ← gets rs_reader;
  if ar_release (sr_initial_batch reader) then
    zoom out_lens (put (sr_initial_batch reader)) ;;
    on_reader (sr_set_batch zero_array)
  else if sr_done reader then
    zoom out_lens (modify (set_array_release false))
  else
  with_reader_error out_lens (ArrowArrayInitFromSchema (sr_schema reader)) ;;
  zoom out_lens ArrowArrayStartAppending ;;
  mutex_enter ;;
  '(status, batch_size) ← next_loop (Z.to_nat (sr_batch_size reader)) 0;
  status ← (if status =? 0 then
    zoom out_lens (modify (set_length batch_size)) ;;
    status ← catch (for_range 0 (sc_n_children (sr_schema reader)) (fun i =>
      fun s =>
        match get_child (rs_out s) i with
        | None => Undef
        | Some child =>
            let l := mkLens (fun _ => child) (fun c s => over out_lens (put_child i c (rs_out s)) s) in
            with_reader_error l ArrowArrayFinishBuilding s
        end));
    when (batch_size =? 0) (zoom out_lens ArrowArrayRelease) ;;
    mret status
  else mret status);
  mutex_leave ;;
  return_code status.

(** The stream's callbacks, on the stream itself. *)
Record StreamState := mkSS { ss_env : BS; ss_stream : ReaderStream; ss_out : ArrowArray }.
Definition StatementReaderGetNext : M StreamState unit := fun s =>
  match ss_stream s with
  | StreamReader reader =>
      let back (r : RS) := mkSS (rs_env r) (StreamReader (rs_reader r)) (rs_out r) in
      match reader_get_next (mkRS (ss_env s) reader (ss_out s)) with
      | Ret _ r => Ret tt (back r)
      | Exit c r => Exit c (back r)
      | Undef => Undef
      | NoFuel => NoFuel
      end
  | StreamReleased => Exit EINVAL s
  | _ => Undef
  end.

Definition StatementReaderGetSchema (out : ArrowSchema) : M (ReaderStream * ArrowSchema) unit :=
  stream ← gets fst;
  match stream with
  | StreamReader reader => zoom snd_lens (ArrowSchemaDeepCopy (sr_schema reader))
  | StreamReleased => exit EINVAL
  | _ => undef
  end.

(** What is released besides the stream: the binder of the statement. *)
Definition StatementReaderRelease : M (BS * ReaderStream) unit :=
  stream ← gets snd;
  match stream with
  | StreamReader reader =>
      when (sr_binder reader) (zoom fst_lens AdbcSqliteBinderRelease) ;;
      zoom snd_lens (put StreamReleased)
  | StreamReleased => mret tt
  | _ => undef
  end.
End reader.

(** * What the inferred batch holds

    The rows a statement will yield, read cell by cell in the driver's order. *)
(** A column: the validity of its rows and its values. *)
#[local] Abbreviation col_spec := (list bool * column_data)%type.

Section rows.
  Context `{Sqlite3}.

(** Cells [col .. col + n) of the current row. *)
Fixpoint read_row (stmt : Z) (n : nat) (col : Z) (d : sqlite) : option (list cell * sqlite) :=
  match n with
  | O => Some ([], d)
  | S n' =>
      c ← cell_at stmt col d;
      '(cells, d') ← read_row stmt n' (col + 1) (db_after stmt col c d);
      Some (c :: cells, d')
  end.
(** At most [left] rows, whether the statement is exhausted, and the library's state; [None]
    when a step fails or a cell is a BLOB. *)
Fixpoint scan_rows (stmt : Z) (columns left : nat) (d : sqlite)
    : option (list (list cell) * bool * sqlite) :=
  match left with
  | O => Some ([], false, d)
  | S left' =>
      let '(rc, d) := sqlite3_step stmt d in
      if rc =? SQLITE_DONE then Some ([], true, d)
      else if rc =? SQLITE_ROW then
        '(cells, d) ← read_row stmt columns 0 d;
        '(rows, done, d) ← scan_rows stmt columns left' d;
        Some (cells :: rows, done, d)
      else None
  end.

Definition add_cell (k : col_spec) (c : cell) : col_spec :=
  (k.1 ++ [cell_valid c], infer_step k.2 c).
Definition add_row (cols : list col_spec) (row : list cell) : list col_spec :=
  zip_with add_cell cols row.
Definition add_rows (cols : list col_spec) (rows : list (list cell)) : list col_spec :=
  fold_left add_row rows cols.

(** The raw buffers of the columns, with room for [n] rows. *)
Definition columns_hold (n : Z) (raw : RawColumns) (cols : list col_spec) : Prop :=
  forall k v d, cols !! k = Some (v, d) ->
    exists c, get_column raw k = Some c /\ column_holds n c v d.
Definition total_ok (cols : list col_spec) : Prop :=
  Forall (fun k => data_bytes k.2 <= INT32_MAX) cols.

Lemma data_bytes_mono d c : data_bytes d <= data_bytes (infer_step d c).
Proof.
  destruct d as [zs|ds|ts]; [destruct c; simpl; try apply zlen_nonneg; lia..|].
  destruct c; simpl; rewrite concat_snoc_len;
    match goal with |- _ <= _ + zlen ?l => pose proof (zlen_nonneg l) end; lia.
Qed.
Lemma read_row_length stmt n col d cells d' :
  read_row stmt n col d = Some (cells, d') -> length cells = n.
Proof.
  revert col d cells. induction n as [|n IH]; intros col d cells; simpl; [by intros [= <- <-]|].
  destruct (cell_at stmt col d) as [c|]; simpl; [|done].
  destruct (read_row stmt n _ _) as [[cs d2]|] eqn:Hr; simpl; [|done]. intros [= <- <-].
  simpl. f_equal. by eapply IH.
Qed.
Lemma add_row_lookup cols row k v d c :
  cols !! k = Some (v, d) -> row !! k = Some c ->
  add_row cols row !! k = Some (v ++ [cell_valid c], infer_step d c).
Proof. intros Hk Hc. apply lookup_zip_with_Some. by exists (v, d), c. Qed.
Lemma add_row_length cols row : length cols = length row -> length (add_row cols row) = length cols.
Proof. intros Hl. unfold add_row. rewrite length_zip_with. lia. Qed.
(** More rows never need fewer bytes. *)
Lemma total_ok_row cols row : length cols = length row -> total_ok (add_row cols row) -> total_ok cols.
Proof.
  unfold total_ok. intros Hlen Ht. apply Forall_lookup. intros k [v d] Hk.
  destruct (lookup_lt_is_Some_2 row k) as [c Hc].
  { rewrite <- Hlen. by eapply lookup_lt_Some. }
  pose proof (Forall_lookup_1 _ _ _ _ Ht (add_row_lookup _ _ _ _ _ _ Hk Hc)) as Hb.
  simpl in *. pose proof (data_bytes_mono d c). lia.
Qed.
Lemma total_ok_rows cols rows :
  Forall (fun r => length r = length cols) rows -> total_ok (add_rows cols rows) -> total_ok cols.
Proof.
  revert cols. induction rows as [|r rows IH]; intros cols Hl; [done|].
  inversion Hl as [|? ? Hr Hrest]; subst. simpl. intros Ht. apply total_ok_row with r; [done|].
  apply IH; [|done]. by rewrite add_row_length.
Qed.
Lemma scan_rows_lengths stmt columns left d rows done d' :
  scan_rows stmt columns left d = Some (rows, done, d') ->
  Forall (fun r => length r = columns) rows /\ (length rows <= left)%nat.
Proof.
  revert d rows. induction left as [|left IH]; intros d rows; simpl.
  { intros [= <- <- <-]. split; [constructor|simpl; lia]. }
  destruct (sqlite3_step stmt d) as [rc d1].
  destruct (rc =? SQLITE_DONE); [intros [= <- <- <-]; split; [constructor|simpl; lia]|].
  destruct (rc =? SQLITE_ROW); [|discriminate].
  destruct (read_row stmt columns 0 d1) as [[cells d2]|] eqn:Hr; simpl; [|discriminate].
  destruct (scan_rows stmt columns left d2) as [[[rs b] d3]|] eqn:Hs; simpl; [|discriminate].
  intros [= <- <- <-]. apply IH in Hs as [Hs1 Hs2]. apply read_row_length in Hr.
  split; [by constructor|simpl; lia].
Qed.
End rows.

Section inference.
  Context `{Libc} `{!LibcBound} `{Sqlite3} `{!Sqlite3Columns}.

Lemma get_column_lengths r k c : get_column r k = Some c ->
  (k < length (rc_validity r))%nat /\ (k < length (rc_data r))%nat /\
  (k < length (rc_binary r))%nat /\ (k < length (rc_type r))%nat.
Proof.
  unfold get_column. intros Hg.
  destruct (rc_validity r !! k) as [v|] eqn:E1; [|done]. apply lookup_lt_Some in E1.
  destruct (mjoin (Some v)); [|done]. simpl in Hg.
  destruct (rc_data r !! k) as [d|] eqn:E2; [|done]. apply lookup_lt_Some in E2.
  destruct (mjoin (Some d)); [|done]. simpl in Hg.
  destruct (rc_binary r !! k) as [b|] eqn:E3; [|done]. apply lookup_lt_Some in E3.
  destruct (mjoin (Some b)); [|done]. simpl in Hg.
  destruct (rc_type r !! k) as [t|] eqn:E4; [|done]. apply lookup_lt_Some in E4. done.
Qed.
Lemma get_put_same r k c c' : get_column r k = Some c' -> get_column (put_column k c r) k = Some c.
Proof.
  intros (Hv & Hd & Hb & Ht)%get_column_lengths. unfold get_column, put_column; simpl.
  rewrite !list_lookup_insert_eq by done. by destruct c.
Qed.
Lemma get_put_other r k j c : j <> k -> get_column (put_column k c r) j = get_column r j.
Proof. intros Hne. unfold get_column, put_column; simpl. by rewrite !list_lookup_insert_ne. Qed.

Lemma wp_on_column k m (Q : unit -> XS -> Prop) E (s : XS) c :
  get_column s.2 k = Some c ->
  wp m (fun _ i => Q tt (mkRS (mkBS (is_error i) (is_world i) (bs_binder (rs_env s.1)))
                           (rs_reader s.1) (rs_out s.1), put_column k (is_column i) s.2))
    (fun code _ => forall s', E code s') (mkIS (bs_error (rs_env s.1)) (bs_world (rs_env s.1)) c) ->
  wp (on_column k m) Q E s.
Proof.
  intros Hg Hm. unfold wp, on_column in *. rewrite Hg.
  destruct (m _) as [[] i|code i| |]; auto.
Qed.

Lemma columns_hold_put n raw cols k v d c :
  columns_hold n raw cols -> (k < length cols)%nat -> column_holds n c v d ->
  columns_hold n (put_column k c raw) (<[k := (v, d)]> cols).
Proof.
  intros Hc Hk Hcol j v' d' Hj. destruct (decide (j = k)) as [->|Hne].
  - rewrite list_lookup_insert_eq in Hj by done. injection Hj as <- <-.
    destruct (lookup_lt_is_Some_2 cols k Hk) as [[v0 d0] Hk0].
    destruct (Hc _ _ _ Hk0) as (c0 & Hg & _). exists c. by erewrite get_put_same.
  - rewrite list_lookup_insert_ne in Hj by done. rewrite get_put_other by done. by apply Hc.
Qed.

Lemma add_row_insert (cols : list col_spec) k kc c cells :
  cols !! k = Some kc ->
  take k cols ++ add_row (drop k cols) (c :: cells) =
  take (S k) (<[k := add_cell kc c]> cols) ++
    add_row (drop (S k) (<[k := add_cell kc c]> cols)) cells.
Proof.
  intros Hk. pose proof (lookup_lt_Some _ _ _ Hk).
  rewrite (drop_S _ _ _ Hk). simpl.
  rewrite drop_insert_lt by lia.
  rewrite (take_S_r _ _ (add_cell kc c)) by (by apply list_lookup_insert_eq).
  rewrite take_insert_ge by lia. by rewrite <- app_assoc.
Qed.

(** One row, from column [k] on. *)
Lemma row_loop_spec stmt N n k s cells d' cols :
  read_row stmt n (Z.of_nat k) (db_of s.1) = Some (cells, d') ->
  length cols = (k + n)%nat -> columns_hold N s.2 cols ->
  Forall (fun c => Z.of_nat (length c.1) < N) (drop k cols) ->
  total_ok (take k cols ++ add_row (drop k cols) cells) ->
  wp (for_loop n (Z.of_nat k)
        (fun col => on_column (Z.to_nat col) (StatementReaderInferOneValue stmt col)))
    (fun _ s' => s'.1 = set_db d' s.1 /\
       columns_hold N s'.2 (take k cols ++ add_row (drop k cols) cells))
    (code_is ADBC_STATUS_INTERNAL) s.
Proof.
  revert k s cells cols. induction n as [|n IH]; intros k s cells cols; simpl.
  { intros [= <- <-] Hlen Hc _ _. apply wp_ret. rewrite take_ge, drop_ge by lia.
    rewrite app_nil_r. split; [|done]. by destruct s as [[[? []] ? ?] ?]. }
  destruct (cell_at stmt (Z.of_nat k) (db_of s.1)) as [c|] eqn:Hcell; simpl; [|done].
  destruct (read_row stmt n _ _) as [[cs d2]|] eqn:Hrow; simpl; [|done].
  intros [= <- <-] Hlen Hc Hrows Htot.
  destruct (lookup_lt_is_Some_2 cols k) as [[v d] Hk]; [lia|].
  destruct (Hc _ _ _ Hk) as (col & Hg & Hcol).
  rewrite (add_row_insert _ _ _ c cs Hk) in Htot |- *.
  apply wp_bind. rewrite Nat2Z.id. eapply wp_on_column; [exact Hg|].
  eapply wp_conseq; [eapply (infer_one_value_spec _ _ N _ v d c)|..]; simpl.
  - exact Hcell.
  - exact Hcol.
  - rewrite (drop_S _ _ _ Hk) in Hrows. by inversion Hrows.
  - eapply (Forall_lookup_1 _ _ k) in Htot.
    2:{ rewrite lookup_app_l by (rewrite length_take, length_insert; lia).
        rewrite lookup_take_lt by lia. apply list_lookup_insert_eq. lia. }
    exact Htot.
  - intros _ i (Hcol' & Herr & Hworld). simpl in *.
    replace (Z.of_nat k + 1) with (Z.of_nat (S k)) in * by lia.
    eapply wp_conseq; [apply (IH (S k) _ cs (<[k := add_cell (v, d) c]> cols))|..]; simpl.
    + rewrite Hworld. destruct s as [[[? []] ? ?] ?]. simpl in *. exact Hrow.
    + rewrite length_insert. lia.
    + apply columns_hold_put; [done|lia|done].
    + rewrite drop_insert_lt by lia. rewrite (drop_S _ _ _ Hk) in Hrows. by inversion Hrows.
    + exact Htot.
    + intros _ s' [Hs' Hh]. split; [|done]. rewrite Hs'. rewrite Herr, Hworld.
      destruct s as [[[? []] ? ?] ?]. reflexivity.
    + done.
  - intros code i [-> Hr] s'. by split.
Qed.

Definition after_scan (done : bool) (d : sqlite) (s : RS) : RS :=
  let s := set_db d s in
  if done then mkRS (rs_env s) (sr_set_done true (rs_reader s)) (rs_out s) else s.
Lemma after_scan_set_db done d d' s : after_scan done d' (set_db d s) = after_scan done d' s.
Proof. by destruct s as [[? []] ? ?], done. Qed.

Lemma add_row_keeps_room N left cols row :
  length row = length cols ->
  Forall (fun c => Z.of_nat (length c.1) + Z.of_nat (S left) <= N) cols ->
  Forall (fun c => Z.of_nat (length c.1) + Z.of_nat left <= N) (add_row cols row).
Proof.
  intros Hl Hf. apply Forall_lookup. intros k kc Hk.
  apply lookup_zip_with_Some in Hk as ([v d] & c & -> & Hk & Hc).
  apply (Forall_lookup_1 _ _ _ _ Hf) in Hk. simpl in *. rewrite length_app. simpl. lia.
Qed.

Lemma infer_loop_spec stmt N db left num s cols rows done d' :
  scan_rows stmt (length cols) left (db_of s.1) = Some (rows, done, d') ->
  columns_hold N s.2 cols ->
  Forall (fun c => Z.of_nat (length c.1) + Z.of_nat left <= N) cols ->
  total_ok (add_rows cols rows) ->
  wp (infer_loop db stmt (Z.of_nat (length cols)) false left num)
    (fun n s' => n = num + Z.of_nat (length rows) /\ s'.1 = after_scan done d' s.1 /\
       columns_hold N s'.2 (add_rows cols rows))
    (code_is ADBC_STATUS_INTERNAL) s.
Proof.
  revert num s cols rows. induction left as [|left IH]; intros num s cols rows; simpl.
  { intros [= <- <- <-] Hc _ _. apply wp_ret. split_and!; [simpl; lia| |done].
    by destruct s as [[[? []] ? ?] ?]. }
  destruct (sqlite3_step stmt (db_of s.1)) as [rc d1] eqn:Hstep. intros Hscan Hc Hroom Htot.
  apply wp_bind, wp_ret, wp_bind. eapply wp_call; [exact Hstep|].
  destruct (rc =? SQLITE_DONE) eqn:Hdone.
  { injection Hscan as <- <- <-. unfold on_reader. wp_steps.
    split_and!; [lia| |done]. by destruct s as [[[? []] ? ?] ?]. }
  destruct (rc =? SQLITE_ROW) eqn:Hrow; [|discriminate].
  apply Z.eqb_eq in Hrow as ->. change (SQLITE_ROW =? SQLITE_ERROR) with false. cbn iota.
  destruct (read_row stmt (length cols) 0 d1) as [[cells d2]|] eqn:Hr; simpl in Hscan; [|discriminate].
  destruct (scan_rows stmt (length cols) left d2) as [[[rs b] d3]|] eqn:Hs; simpl in Hscan;
    [|discriminate].
  injection Hscan as <- <- <-. simpl in Htot. pose proof (read_row_length _ _ _ _ _ _ Hr) as Hlen.
  pose proof (scan_rows_lengths _ _ _ _ _ _ _ Hs) as [Hlens _].
  apply wp_bind. unfold for_range. rewrite Z.sub_0_r, Nat2Z.id.
  eapply wp_conseq; [apply (row_loop_spec stmt N (length cols) 0 _ cells d2 cols)| |done].
  - destruct s as [[[? []] ? ?] ?]. exact Hr.
  - done.
  - destruct s as [[[? []] ? ?] ?]. exact Hc.
  - rewrite drop_0. eapply Forall_impl; [exact Hroom|]. simpl. intros; lia.
  - rewrite drop_0. simpl. eapply total_ok_rows; [|exact Htot].
    rewrite add_row_length by done. done.
  - intros _ s2 [Hs2 Hc2]. rewrite drop_0 in Hc2. simpl in Hc2.
    rewrite <- (add_row_length cols cells) in Hs |- * by done.
    eapply wp_conseq; [apply (IH _ s2 (add_row cols cells) rs)| |done].
    + rewrite Hs2. destruct s as [[[? []] ? ?] ?]. exact Hs.
    + exact Hc2.
    + by apply add_row_keeps_room.
    + exact Htot.
    + intros n s' (-> & Hs' & Hc'). split_and!; [simpl; lia| |exact Hc'].
      rewrite Hs', Hs2, after_scan_set_db. destruct s as [[[? []] ? ?] ?]. by destruct b.
Qed.

Lemma wp_on_elem {T A} (get : RawColumns -> list (option T)) set_ i t (m : M T A)
    (Q : A -> XS -> Prop) E s :
  get s.2 !! i = Some (Some t) ->
  wp m (fun a t' => Q a (s.1, set_ i (Some t') s.2)) (fun c t' => E c (s.1, set_ i (Some t') s.2)) t ->
  wp (on_elem get set_ i m) Q E s.
Proof.
  intros Hg Hm. unfold on_elem. wp_steps. eapply wp_lift_opt; [by rewrite Hg|].
  unfold wp in Hm |- *. destruct (m t) as [a t'|c t'| |]; try done.
Qed.

Definition lengths_are (n : nat) (r : RawColumns) : Prop :=
  length (rc_validity r) = n /\ length (rc_data r) = n /\ length (rc_binary r) = n /\
  length (rc_type r) = n.
Definition empty_columns (n : nat) : list col_spec := replicate n ([], DInts []).

(** Columns [0 .. i) are ready. *)
Definition initialized (N : Z) (n : nat) (s0 : RS) (i : Z) (s : XS) : Prop :=
  s.1 = s0 /\ lengths_are n s.2 /\
  forall k, Z.of_nat k < i -> exists c, get_column s.2 k = Some c /\ column_holds N c [] (DInts []).

Lemma initialize_spec N n s :
  0 < N <= 2 ^ 40 -> lengths_are n s.2 ->
  wp (StatementReaderInitializeInfer (Z.of_nat n) N)
    (fun _ s' => s'.1 = s.1 /\ columns_hold N s'.2 (empty_columns n))
    (code_is ADBC_STATUS_INTERNAL) s.
Proof.
  intros HN Hlen. unfold StatementReaderInitializeInfer, for_range.
  eapply wp_conseq; [apply (wp_for_loop (initialized N n s.1))| |done].
  { split_and!; [done..|]. lia. }
  - intros i t Hi (Ht & (Hl1 & Hl2 & Hl3 & Hl4) & Hk). destruct t as [r raw]. simpl in *. subst r.
    set (k := Z.to_nat i). assert (k < n)%nat by lia.
    unfold on_raw. wp_steps.
    apply wp_CHECK_NA. eapply wp_on_elem; [simpl; apply list_lookup_insert_eq; lia|].
    eapply wp_conseq; [apply bitmap_reserve_spec; [done|lia]| |].
    2:{ intros c m (-> & _ & Hr). split; [done|]. intros e. split; [done|by eexists]. }
    intros _ m (Hm & Hbits & _ & Hcap). simpl. wp_steps.
    apply wp_CHECK_NA. eapply wp_on_elem; [simpl; apply list_lookup_insert_eq; lia|].
    eapply wp_conseq; [apply fresh_reserve; lia| |].
    2:{ intros c b [-> Hr]. split; [done|]. intros e. by split. }
    intros _ b (Hb & Hcb & Hroom). simpl. wp_steps. split_and!; simpl; [done| |].
    { unfold lengths_are, put_type, put_binary, put_data, put_validity. simpl.
      rewrite !length_insert. done. }
    intros j Hj. destruct (decide (j = k)) as [->|Hne].
    + exists (mkColumn m b zero_buffer TYPE_INT64). split.
      { unfold get_column; simpl.
        rewrite !list_lookup_insert_eq by (rewrite ?length_insert; lia). done. }
      simpl in Hcap. split_and!; simpl; [done..|lia|done|done|]. split; [|done].
      split_and!; [done|by rewrite Hcb|lia].
    + destruct (Hk j) as (c & Hg & Hc); [lia|]. exists c. split; [|done].
      rewrite <- Hg. unfold get_column; simpl. rewrite !list_lookup_insert_ne by done. done.
  - intros _ s' (Hs & _ & Hk). split; [done|]. intros j v d Hj.
    apply lookup_replicate in Hj as [[= -> ->] Hj]. apply Hk. lia.
Qed.


(** ** The columns of a result *)
Definition column_of (k : nat) (rows : list (list cell)) : list cell :=
  map (fun r => default CNull (r !! k)) rows.
Definition is_text (c : cell) : bool := match c with CText _ => true | _ => false end.
Definition is_float (c : cell) : bool := match c with CFloat _ => true | _ => false end.
(** The widest type that is needed: INT64, DOUBLE, STRING. *)
Definition widest (cells : list cell) : ArrowType :=
  if existsb is_text cells then TYPE_STRING
  else if existsb is_float cells then TYPE_DOUBLE else TYPE_INT64.
Definition data_of (cells : list cell) : column_data := fold_left infer_step cells (DInts []).

Lemma data_of_type cells : data_type (data_of cells) = widest cells.
Proof.
  unfold data_of, widest. induction cells as [|c cells IH] using rev_ind; [done|].
  rewrite fold_left_app, !existsb_app. simpl. rewrite !orb_false_r.
  destruct (fold_left infer_step cells (DInts [])) eqn:Hd, c; simpl in *;
    destruct (existsb is_text cells), (existsb is_float cells); done.
Qed.
Lemma add_rows_lookup cols rows k v d :
  Forall (fun r => length r = length cols) rows -> cols !! k = Some (v, d) ->
  add_rows cols rows !! k =
    Some (v ++ map cell_valid (column_of k rows), fold_left infer_step (column_of k rows) d).
Proof.
  revert cols v d. induction rows as [|r rows IH]; intros cols v d Hl Hk; simpl.
  { by rewrite app_nil_r. }
  inversion Hl as [|? ? Hr Hrest]; subst.
  destruct (lookup_lt_is_Some_2 r k) as [c Hc].
  { rewrite Hr. by eapply lookup_lt_Some. }
  rewrite (IH (add_row cols r) (v ++ [cell_valid c]) (infer_step d c)).
  - rewrite Hc. simpl. by rewrite <- app_assoc.
  - eapply Forall_impl; [exact Hrest|]. intros x Hx. rewrite add_row_length; congruence.
  - by apply add_row_lookup.
Qed.

(** The allocation of the first bitmap, refused. *)
Lemma bitmap_reserve_refused N :
  0 < N <= 2 ^ 40 -> malloc_ok (_ArrowBytesForBits N) = false ->
  ArrowBitmapReserve N ArrowBitmapInit = Exit ENOMEM ArrowBitmapInit.
Proof.
  intros HN Hm. pose proof (bytes_for_bits_ceil N ltac:(lia)) as Hc.
  assert (0 < _ArrowBytesForBits N < 2 ^ 40) by (rewrite Hc; Z.to_euclidean_division_equations; lia).
  clear Hc. unfold ArrowBitmapReserve. generalize dependent (_ArrowBytesForBits N).
  intros bytes Hm Hbytes. cbv [mbind M_bind gets id ArrowBitmapInit ArrowBufferInit
    bm_size_bits bm_buffer buf_capacity_bytes].
  rewrite !i64_ok by (apply in_i64_intro; unfold INT64_MIN, INT64_MAX; lia).
  cbv [mret M_ret]. rewrite (proj2 (Z.leb_gt _ _)) by lia.
  unfold zoom, ArrowBufferReserve. cbn [view bm_buffer_lens bm_buffer].
  cbv [mbind M_bind gets id]. cbn [buf_size_bytes buf_capacity_bytes].
  rewrite i64_ok by (apply in_i64_intro; unfold INT64_MIN, INT64_MAX; lia).
  cbv [mret M_ret]. rewrite (proj2 (Z.leb_gt _ _)) by lia.
  unfold _ArrowGrowByFactor. cbv [mbind M_bind]. simpl (0 * 2).
  rewrite i64_ok by done. cbv [mret M_ret].
  rewrite Z.gtb_ltb, (proj2 (Z.ltb_ge _ _)) by lia.
  unfold ArrowBufferResize. cbv [mbind M_bind gets id]. cbn [buf_capacity_bytes buf_allocator buf_data].
  rewrite (proj2 (Z.ltb_ge _ _)), Z.gtb_ltb, (proj2 (Z.ltb_lt _ _)) by lia. simpl.
  change (0 + bytes) with bytes in *. unfold realloc.
  by rewrite (proj2 (Z.ltb_ge bytes 0)), (proj2 (Z.eqb_neq bytes 0)), Hm by lia.
Qed.

(** * Properties *)

(** C1: Type inference is correct and memory-safe for every result without BLOBs: after the
    first batch of at most [N] rows, each column's raw buffers hold, within their blocks, the
    validity of its cells and its values under the widening rule (INT64, then DOUBLE when a
    float was seen, then STRING when a text was seen, earlier values converted), its type is
    the widest that was needed, the number of rows and the end of the statement are reported
    exactly; the only error is INTERNAL after a refused allocation. *)
Theorem inference_correct (db stmt N : Z) (n : nat) (s : RS) (rows : list (list cell))
  (done : bool) (d' : sqlite)
  (HN : 0 < N <= 2 ^ 40)
  (Hscan : scan_rows stmt n (Z.to_nat N) (db_of s) = Some (rows, done, d'))
  (Hsize : forall k, (k < n)%nat -> data_bytes (data_of (column_of k rows)) <= INT32_MAX) :
  wp (StatementReaderInitializeInfer (Z.of_nat n) N ;;
      infer_loop db stmt (Z.of_nat n) false (Z.to_nat N) 0)
    (fun num_rows s' => num_rows = Z.of_nat (length rows) /\ s'.1 = after_scan done d' s /\
       forall k, (k < n)%nat -> exists c, get_column s'.2 k = Some c /\
         column_holds N c (map cell_valid (column_of k rows)) (data_of (column_of k rows)) /\
         co_type c = widest (column_of k rows))
    (fun c _ => c = ADBC_STATUS_INTERNAL /\ refused) (s, fresh_columns n).
Proof.
  pose proof (scan_rows_lengths _ _ _ _ _ _ _ Hscan) as [Hlens _].
  assert (length (empty_columns n) = n) as Hn by apply length_replicate.
  assert (forall k, (k < n)%nat -> add_rows (empty_columns n) rows !! k =
            Some (map cell_valid (column_of k rows), data_of (column_of k rows))) as Hcols.
  { intros k Hk. rewrite (add_rows_lookup _ _ _ [] (DInts [])); [done|by rewrite Hn|].
    by apply lookup_replicate. }
  apply wp_bind. eapply wp_conseq; [apply (initialize_spec N n (s, fresh_columns n))| |done];
    [lia|by unfold lengths_are; simpl; rewrite !length_replicate|].
  intros _ [s1 raw] [Hs1 Hc]. simpl in Hs1. subst s1.
  rewrite <- Hn in Hscan |- * at 1. eapply wp_conseq.
  { eapply (infer_loop_spec stmt N db _ 0 (s, raw)); [exact Hscan|exact Hc|..].
    - apply Forall_replicate. simpl. lia.
    - apply Forall_lookup. intros k [v d] Hk.
      assert (k < n)%nat as Hlt.
      { rewrite <- Hn. apply lookup_lt_Some in Hk. revert Hk. rewrite <- Hn in Hlens. clear -Hlens.
        revert Hlens. generalize (empty_columns n). induction rows as [|r rs IH]; intros l Hl; [done|].
        inversion Hl; subst. simpl. intros Hk. apply IH in Hk.
        - by rewrite add_row_length in Hk.
        - by rewrite add_row_length. }
      rewrite (Hcols k Hlt) in Hk. injection Hk as <- <-. by apply Hsize. }
  2:{ done. }
  intros num [s2 raw2] (-> & Hs2 & Hc2). simpl in *. split_and!; [done..|].
  intros k Hk. destruct (Hc2 _ _ _ (Hcols k Hk)) as (c & Hg & Hcol). exists c.
  split_and!; [done..|]. rewrite <- data_of_type. by destruct Hcol as (_ & _ & _ & ? & _).
Qed.

(** The loop over the columns stops at the first one. *)
Lemma initialize_refused N n (s : RS) :
  0 < N <= 2 ^ 40 -> malloc_ok (_ArrowBytesForBits N) = false ->
  exists s', StatementReaderInitializeInfer (Z.of_nat (S n)) N (s, fresh_columns (S n)) =
    Exit ADBC_STATUS_INTERNAL s' /\
    s'.2 = put_validity 0 (Some ArrowBitmapInit) (fresh_columns (S n)).
Proof.
  intros HN Hm. unfold StatementReaderInitializeInfer, for_range.
  rewrite Z.sub_0_r, Nat2Z.id. cbn [for_loop].
  destruct (fail_exit (A := unit) ADBC_STATUS_INTERNAL
    ("%s failed: (%d) %s" +:+ newline +:+ "Detail: %s:%d")
    [AStr "ArrowBitmapReserve(&validity[i], infer_rows)"; AInt ENOMEM; AStr (strerror ENOMEM);
     AStr (FILE_ reader_c); AInt 506]
    (s, put_validity 0 (Some ArrowBitmapInit) (fresh_columns (S n)))) as [e He].
  eexists. split.
  - erewrite bind_exit; [done|]. erewrite bind_ret by done.
    erewrite bind_exit; [done|]. unfold CHECK_NA. erewrite bind_ret.
    2:{ apply catch_exit. unfold on_elem. erewrite bind_ret by done. simpl.
        erewrite bind_ret by done. by rewrite bitmap_reserve_refused. }
    exact He.
  - done.
Qed.

(** When the very first allocation of the inference buffers is refused, the cleanup of
    [AdbcSqliteExportReader] resets buffers that were never initialised: undefined
    behaviour instead of the error. *)
Theorem refused_inference_undefined (db stmt N : Z) (n : nat) (binder : bool) (s : RS)
  (HN : 0 < N <= 2 ^ 40) (Hrefused : malloc_ok (_ArrowBytesForBits N) = false) :
  export_columns db stmt binder N (Z.of_nat (S n)) (s, fresh_columns (S n)) = Undef.
Proof.
  destruct (initialize_refused N n s HN Hrefused) as ([s' raw] & He & Hraw). simpl in Hraw.
  subst raw. unfold export_columns. erewrite bind_ret.
  2:{ apply catch_exit. by apply bind_exit. }
  simpl negb. apply bind_undef. unfold for_range. rewrite Z.sub_0_r, Nat2Z.id. cbn [for_loop].
  apply bind_undef. done.
Qed.
End inference.

(** * The stream *)
Section stream_facts.
  Context `{Libc} `{Sqlite3}.

(** Stepping a null statement is neither the end nor an error: the loop counts a row. *)
Lemma next_loop_null `{!Sqlite3Null} left n s :
  sr_stmt (rs_reader s) = 0 -> sr_binder (rs_reader s) = false ->
  sc_n_children (sr_schema (rs_reader s)) = 0 ->
  next_loop left n s = Ret (0, n + Z.of_nat left) s.
Proof.
  intros Hstmt Hb Hn. revert n. induction left as [|left IH]; intros n; cbn [next_loop].
  { rewrite Z.add_0_r. done. }
  erewrite bind_ret by done. rewrite Hb, Hstmt, Hn. erewrite bind_ret by done. cbv beta iota.
  change (negb (0 =? ADBC_STATUS_OK)) with false. cbn iota.
  erewrite bind_ret; [|unfold call; by rewrite step_null].
  change (SQLITE_MISUSE =? SQLITE_DONE) with false.
  change (SQLITE_MISUSE =? SQLITE_ERROR) with false. cbn iota.
  erewrite bind_ret by (by apply catch_ret). change (negb (0 =? 0)) with false. cbn iota.
  replace (set_db (db_of s) s) with s by (by destruct s as [[? []] ? ?]).
  rewrite IH. do 2 f_equal. lia.
Qed.

(** Code on the array and [reader->error] leaves the rest of the reader. *)
Lemma with_reader_error_inv l m s s' :
  (forall a t, view reader_lens (over l a t) = view reader_lens t) ->
  with_reader_error l m s = Ret tt s' ->
  exists a e, s' = over reader_lens (sr_set_error e (rs_reader s)) (over l a s).
Proof.
  intros Hl. unfold with_reader_error. intros Hm.
  destruct (m _) as [[] [a e]|c [a e]| |]; try done. injection Hm as <-.
  exists a, (default "" e). pose proof (Hl a s) as Hr. simpl in Hr |- *. by rewrite Hr.
Qed.

(** A query without a statement (an empty or comment-only text prepares to a null
    statement, which has no columns) makes a stream that never ends: every successful
    [get_next] hands out another full batch of rows without columns. *)
Theorem empty_statement_never_ends `{!Sqlite3Null} (s s' : RS)
  (Hstmt : sr_stmt (rs_reader s) = 0) (Hbinder : sr_binder (rs_reader s) = false)
  (Hcolumns : sc_n_children (sr_schema (rs_reader s)) = 0)
  (Hlive : sr_done (rs_reader s) = false)
  (Hbatch : ar_release (sr_initial_batch (rs_reader s)) = false)
  (Hsize : 0 < sr_batch_size (rs_reader s))
  (Hnext : reader_get_next s = Ret tt s') :
  ar_length (rs_out s') = sr_batch_size (rs_reader s) /\
  sr_stmt (rs_reader s') = 0 /\ sr_done (rs_reader s') = false /\
  ar_release (sr_initial_batch (rs_reader s')) = false.
Proof.
  unfold reader_get_next in Hnext.
  apply bind_ret_inv in Hnext as (r & t & [= <- <-] & Hnext). rewrite Hbatch, Hlive in Hnext.
  apply bind_ret_inv in Hnext as ([] & t1 & Ht1 & Hnext).
  apply with_reader_error_inv in Ht1 as (a & e & ->); [|done].
  apply bind_ret_inv in Hnext as ([] & t2 & Ht2 & Hnext). unfold zoom in Ht2.
  destruct (ArrowArrayStartAppending _) as [[] a2|c a2| |]; try done. injection Ht2 as <-.
  apply bind_ret_inv in Hnext as ([] & t3 & Ht3 & Hnext). injection Ht3 as <-.
  apply bind_ret_inv in Hnext as ([st n] & t4 & Ht4 & Hnext).
  rewrite next_loop_null in Ht4 by done. injection Ht4 as <- <- <-.
  apply bind_ret_inv in Hnext as (st & t5 & Ht5 & Hnext). simpl (0 =? 0) in Ht5. cbn iota in Ht5.
  rewrite Hcolumns in Ht5. rewrite Z2Nat.id in Ht5 by lia. 
  apply bind_ret_inv in Ht5 as ([] & t6 & [= <-] & Ht5).
  apply bind_ret_inv in Ht5 as (c & t7 & [= <- <-] & Ht5).
  rewrite Z.add_0_l in Ht5. unfold when in Ht5. rewrite (proj2 (Z.eqb_neq _ 0)) in Ht5 by lia.
  injection Ht5 as <- <-. apply bind_ret_inv in Hnext as ([] & t8 & Ht8 & Hnext).
  injection Hnext as <-. unfold mutex_leave in Ht8.
  apply bind_ret_inv in Ht8 as (u & t9 & [= <- <-] & Ht8).
  destruct (0 <? _); [|done]. by injection Ht8 as <-.
Qed.

(** When binding the next row of parameters fails while a stream is read, the consumer is
    not told: the status of the binder is in an inner variable that shadows the one
    [get_next] returns, so the loop is left with status 0 as if the rows were complete (the
    stream is marked done and its error text set). *)
Theorem binder_error_swallowed (left : nat) (n code : Z) (finished : bool) (e : AdbcError)
  (s s' : RS)
  (Hbinder : sr_binder (rs_reader s) = true)
  (Hfails : bind_next_local (sr_db (rs_reader s)) (sr_stmt (rs_reader s)) s =
              Ret (code, finished, Some e) s')
  (Hcode : code <> ADBC_STATUS_OK) (Hset : err_release e = true) :
  next_loop (S left) n s = Ret (0, n) (mkRS (rs_env s')
    (sr_set_done true (sr_set_error (truncate_to kMessageSize (default "" (err_message e)))
       (rs_reader s'))) (rs_out s')).
Proof.
  cbn [next_loop]. erewrite bind_ret by done. rewrite Hbinder.
  erewrite bind_ret by exact Hfails. cbn iota beta.
  rewrite (proj2 (Z.eqb_neq _ _) Hcode). cbn [negb]. rewrite Hset. cbn [when].
  erewrite bind_ret by done. by destruct s' as [? [] ?].
Qed.

(** The storage classes a column of an inferred type takes in later batches. *)
Definition storage_accepted (type : ArrowType) (t : Z) : bool :=
  match type with
  | TYPE_INT64 => t =? SQLITE_INTEGER
  | TYPE_DOUBLE => (t =? SQLITE_INTEGER) || (t =? SQLITE_FLOAT)
  | TYPE_STRING => (t =? SQLITE_INTEGER) || (t =? SQLITE_FLOAT) || (t =? SQLITE_TEXT) || (t =? SQLITE_BLOB)
  | _ => false
  end.

(** After the first batch the types of the columns are fixed: a value of a storage class
    that its column's type does not take is refused, with EIO for the classes the type
    excludes, a message in [reader->error], and nothing appended or changed besides. *)
Theorem later_batches_typed (col : Z) (s : RS) (ts : list (option ArrowType)) (type : ArrowType)
  (Htypes : sr_types (rs_reader s) = Some ts)
  (Htype : ts !! Z.to_nat col = Some (Some type))
  (Hknown : type = TYPE_INT64 \/ type = TYPE_DOUBLE \/ type = TYPE_STRING)
  (Hclass : SQLITE_INTEGER <= sqlite3_column_type (sr_stmt (rs_reader s)) col (db_of s) < SQLITE_NULL) :
  storage_accepted type (sqlite3_column_type (sr_stmt (rs_reader s)) col (db_of s)) = false ->
  exists message, StatementReaderGetOneValue col s =
    Exit EIO (mkRS (rs_env s) (sr_set_error message (rs_reader s)) (rs_out s)).
Proof.
  unfold storage_accepted, StatementReaderGetOneValue. erewrite bind_ret by done. cbv zeta.
  erewrite bind_ret by done.
  set (t := sqlite3_column_type (sr_stmt (rs_reader s)) col (db_of s)) in *.
  change (sqlite3_column_type (sr_stmt (rs_reader s)) col (db_of s)) with t.
  unfold SQLITE_INTEGER, SQLITE_NULL in Hclass.
  assert (t = 1 \/ t = 2 \/ t = 3 \/ t = 4) as Ht by lia. clearbody t.
  intros Hrej. replace (t =? SQLITE_NULL) with false by (symmetry; apply Z.eqb_neq; unfold SQLITE_NULL; lia).
  erewrite bind_ret by (by rewrite Htypes; simpl; rewrite Htype).
  destruct Hknown as [->|[->| ->]], Ht as [->|[->|[->| ->]]]; try discriminate; by eexists.
Qed.
End stream_facts.

Section witnesses.
#[local] Existing Instance host.
#[local] Existing Instance Mock.mock.

(** A statement over two rows: a FLOAT follows an INTEGER, a NULL a TEXT. *)
Definition result_rows : list (list Mock.value) :=
  [[Mock.VInteger 7; Mock.VText [97; 98]]; [Mock.VFloat (1022 * 2 ^ 52); Mock.VNull]].
Definition result_world : World :=
  mkWorld (Mock.mkState [] [Some (Mock.mkStmt ["x"%string; "y"%string] 0 result_rows 0 [])] 1 [] [])
    1 1.
Definition reading (stmt : Z) (types : list (option ArrowType)) (schema : ArrowSchema)
    (size : Z) (b : option AdbcSqliteBinder) (w : World) : RS :=
  mkRS (mkBS None w (default zero_binder b))
    (mkReader 1 stmt (Some types) schema zero_array (bool_decide (is_Some b)) "" false size)
    zero_array.
Definition result_cells : list (list cell) :=
  [[CInteger 7; CText [97; 98]]; [CFloat (1022 * 2 ^ 52); CNull]].

Lemma inference_correct_witness :
  exists d', wp (StatementReaderInitializeInfer 2 16 ;; infer_loop 1 1 2 false 16 0)
    (fun num_rows s' => num_rows = 2 /\
       s'.1 = after_scan true d' (reading 1 [] two_columns 16 None result_world) /\
       forall k, (k < 2)%nat -> exists c, get_column s'.2 k = Some c /\
         column_holds 16 c (map cell_valid (column_of k result_cells))
           (data_of (column_of k result_cells)) /\
         co_type c = widest (column_of k result_cells))
    (fun c _ => c = ADBC_STATUS_INTERNAL /\ refused)
    (reading 1 [] two_columns 16 None result_world, fresh_columns 2).
Proof.
  eexists. eapply (@inference_correct host host_bound Mock.mock Mock.mock_columns 1 1 16 2 
    (reading 1 [] two_columns 16 None result_world) result_cells true).
  - lia.
  - vm_compute. reflexivity.
  - intros [|[|k]] Hk; [vm_compute; discriminate..|lia].
Defined.

(** A platform without memory. *)
Definition exhausted : Libc := {|
  malloc_ok _ := false; malloc_junk _ := 0; strerror _ := "Cannot allocate memory"%string; FILE_ f := f
|}.
Lemma refused_inference_undefined_witness :
  @export_columns exhausted Mock.mock 1 1 false 16 2
    (reading 1 [] two_columns 16 None result_world, fresh_columns 2) = Undef.
Proof.
  apply (@refused_inference_undefined exhausted Mock.mock 1 1 16 1
    false); [lia|reflexivity].
Defined.

Definition empty_struct : ArrowSchema :=
  mkSchema (Some "+s"%string) (Some ""%string) None 0 0 None None true false.
Definition endless : RS := reading 0 [] empty_struct 16 None result_world.
Definition endless_next : RS := left_by reader_get_next endless.
Lemma empty_statement_never_ends_witness :
  ar_length (rs_out endless_next) = 16 /\ sr_stmt (rs_reader endless_next) = 0 /\
  sr_done (rs_reader endless_next) = false /\
  ar_release (sr_initial_batch (rs_reader endless_next)) = false.
Proof.
  apply (@empty_statement_never_ends host Mock.mock Mock.mock_null endless); [reflexivity..|].
  refine (value_run reader_get_next endless tt _). vm_compute. reflexivity.
Defined.

(** One parameter of type UINT64 that holds 2^63. *)
Definition unsigned_array : ArrowArray :=
  mkArray 1 0 0 1 1 [None]
    (Some [Some (mkArray 1 0 0 2 0 [None; Some (le_bytes 8 (2 ^ 63))] None None true None false)])
    None true None false.
Definition unsigned_schema : ArrowSchema :=
  mkSchema (Some "+s"%string) (Some ""%string) None 0 1 (Some [Some (leaf "n" "L")]) None true false.
Definition unsigned_stream : AdbcSqliteBinder :=
  mkBinder unsigned_schema (StreamSingleBatch unsigned_schema unsigned_array)
    (Some [Some TYPE_UINT64]) zero_array
    (match ArrowArrayViewInitFromSchema unsigned_schema (ArrowArrayViewReset, None) with
     | Ret _ (v, _) => v | _ => ArrowArrayViewReset end) 0.
Definition binding : RS := reading 1 [] two_columns 16 (Some unsigned_stream) result_world.
Definition unsigned_error : AdbcError :=
  match value_of (bind_next_local 1 1 binding) with Some (_, _, Some e) => e | _ => zero_error end.
Definition unbound : RS := left_by (bind_next_local 1 1) binding.
Lemma binder_error_swallowed_witness :
  next_loop 16 0 binding = Ret (0, 0) (mkRS (rs_env unbound)
    (sr_set_done true (sr_set_error (truncate_to kMessageSize (default "" (err_message unsigned_error)))
       (rs_reader unbound))) (rs_out unbound)).
Proof.
  refine (binder_error_swallowed 15 0 ADBC_STATUS_INVALID_ARGUMENT false unsigned_error binding
    unbound eq_refl _ _ _).
  - refine (value_run (bind_next_local 1 1) binding _ _). vm_compute. reflexivity.
  - discriminate.
  - vm_compute. reflexivity.
Defined.

Definition stepped_world : World := set_db (snd (Mock.step 1 (w_db result_world))) result_world.
(** A TEXT in a column whose type is INT64. *)
Definition typed : RS :=
  reading 1 [Some TYPE_INT64; Some TYPE_INT64] two_columns 16 None stepped_world.
Lemma later_batches_typed_witness :
  exists message, StatementReaderGetOneValue 1 typed =
    Exit EIO (mkRS (rs_env typed) (sr_set_error message (rs_reader typed)) (rs_out typed)).
Proof.
  refine (later_batches_typed 1 typed [Some TYPE_INT64; Some TYPE_INT64] TYPE_INT64 eq_refl eq_refl
    (or_introl eq_refl) _ eq_refl).
  split; vm_compute; [discriminate|reflexivity].
Defined.
End witnesses.
