(* ===== verification/Connection.v ===== *)
(** Databases and connections of the SQLite driver (c/driver/sqlite/sqlite.c, types.h):
    lifecycle, options, transactions. *)
From stdpp Require Import base tactics list numbers option strings.
From Stdlib Require Import ZArith Lia Ascii.
From S2P Require Import Prelude CLib Schema Array Adbc Utils Sqlite3.

Definition kDefaultUri : string := "file:adbc_driver_sqlite?mode=memory&cache=shared".

(** * Data

    A [char*] that a struct owns. *)
Inductive cptr := CNull | CStr (s : string) | CFreed.
Record SqliteDatabase := mkDatabase {
  db_db : Z;
  db_uri : cptr;
  db_connection_count : Z;
}.
Record SqliteConnection := mkConnection {
  cn_conn : Z;
  cn_active_transaction : bool;
}.
Definition sizeof_SqliteDatabase := 24.
Definition sizeof_SqliteConnection := 16.

(** The caller's error and the library. *)
Record Env `{Sqlite3} := mkEnv { en_error : ErrorPtr; en_world : World }.
Arguments mkEnv {_} en_error en_world.
#[export] Instance HasError_Env `{Sqlite3} : HasError Env :=
  mkLens en_error (fun e s => mkEnv e (en_world s)).
#[export] Instance HasWorld_Env `{Sqlite3} : HasWorld Env :=
  mkLens en_world (fun w s => mkEnv (en_error s) w).

(** [free(p)], and [if (p) free(p)], which is the same. *)
Definition free {S} (p : cptr) : M S unit := match p with CFreed => undef | _ => mret tt end.
(** A pointer's string. *)
Definition deref {S} (p : cptr) : M S string :=
  match p with CStr s => mret s | _ => undef end.
(** [p = malloc(strlen(s) + 1); strncpy(p, s, strlen(s) + 1);] *)
Definition copy_string `{Libc} {S} (s : string) : M S cptr :=
  malloc_unchecked (strlen s + 1) ;; mret (CStr s).

Section driver.
  Context `{Libc} `{Sqlite3}.

(** An [AdbcDatabase] or [AdbcConnection]: its [private_data]. *)
Definition DatabaseState : Type := Env * option SqliteDatabase.
Definition ConnectionState : Type := Env * option SqliteConnection.

(** [CHECK_DB_INIT], [CHECK_CONN_INIT], [CHECK_STMT_INIT]: the private data. *)
Definition check_init {S T} `{!HasError S} (what func : string) (p : M S (option T)) : M S T :=
  private_data ← p;
  match private_data with
  | Some d => mret d
  | None => fail ADBC_STATUS_INVALID_STATE ("%s: " +:+ what +:+ " not initialized") [AStr func]
  end.

(** * Databases *)
Definition put_database (db : option SqliteDatabase) : M DatabaseState unit :=
  modify (fun s => (s.1, db)).

Definition SqliteDatabaseNew : M DatabaseState unit :=
  private_data ← gets snd;
  match private_data with
  | Some _ => fail ADBC_STATUS_INVALID_STATE "AdbcDatabaseNew: database already allocated" []
  | None =>
      malloc_unchecked sizeof_SqliteDatabase ;; put_database (Some (mkDatabase 0 CNull 0))
  end.

Definition SqliteDatabaseSetOption (key value : string) : M DatabaseState unit :=
  db ← check_init "database" "SqliteDatabaseSetOption" (gets snd);
  if streq key "uri" then
    free (db_uri db) ;;
    uri ← copy_string value;
    put_database (Some (mkDatabase (db_db db) uri (db_connection_count db)))
  else
    fail ADBC_STATUS_NOT_IMPLEMENTED "Unknown database option %s=%s" [AStr key; AStr value].

(** The value is [*db]; it stays null when there is an error. *)
Definition OpenDatabase (maybe_uri : cptr) : M Env Z :=
  uri ← match maybe_uri with CNull => mret kDefaultUri | p => deref p end;
  '(rc, db) ← call (sqlite3_open_v2 uri
                      (Z.lor (Z.lor SQLITE_OPEN_READWRITE SQLITE_OPEN_CREATE) SQLITE_OPEN_URI));
  if rc =? SQLITE_OK then mret db else
  (if negb (db =? 0) then
     msg ← errmsg db; set_error "Failed to open %s: %s" [AStr uri; AStr msg]
   else set_error "Failed to open %s: failed to allocate memory" [AStr uri]) ;;
  _ ← call (sqlite3_close db);
  exit ADBC_STATUS_IO.

(** [while (rc != SQLITE_DONE && rc != SQLITE_ERROR)]: [fuel] bounds the steps.  The loop
    depends on the library to end. *)
Fixpoint step_loop (fuel : nat) (stmt rc : Z) : M Env Z :=
  if (rc =? SQLITE_DONE) || (rc =? SQLITE_ERROR) then mret rc else
  match fuel with
  | O => nofuel
  | S fuel' => rc ← call (sqlite3_step stmt); step_loop fuel' stmt rc
  end.
Definition ExecuteQuery (fuel : nat) (conn : Z) (query : string) : M Env unit :=
  '(rc, stmt) ← call (sqlite3_prepare_v2 conn query (strlen query));
  _ ← step_loop fuel stmt rc;
  rc ← call (sqlite3_finalize stmt);
  if negb (rc =? SQLITE_OK) && negb (rc =? SQLITE_DONE) then
    msg ← errmsg conn;
    fail ADBC_STATUS_INTERNAL ("Failed to execute query " +:+ quote +:+ "%s" +:+ quote +:+ ": %s")
      [AStr query; AStr msg]
  else mret tt.

Definition SqliteDatabaseInit : M DatabaseState unit :=
  db ← check_init "database" "SqliteDatabaseInit" (gets snd);
  if negb (db_db db =? 0) then
    fail ADBC_STATUS_INVALID_STATE "AdbcDatabaseInit: database already initialized" []
  else
  handle ← zoom fst_lens (OpenDatabase (db_uri db));
  put_database (Some (mkDatabase handle (db_uri db) (db_connection_count db))).

Definition SqliteDatabaseRelease : M DatabaseState unit :=
  db ← check_init "database" "SqliteDatabaseRelease" (gets snd);
  let connection_count := db_connection_count db in
  free (db_uri db) ;;
  match db_uri db with
  | CNull => mret tt
  | _ => put_database (Some (mkDatabase (db_db db) CFreed (db_connection_count db)))
  end ;;
  when (negb (db_db db =? 0))
    (rc ← call (sqlite3_close (db_db db));
     when (rc =? SQLITE_BUSY)
       (fail ADBC_STATUS_IO "AdbcDatabaseRelease: connection is busy" [])) ;;
  put_database None ;;
  if connection_count >? 0 then
    fail ADBC_STATUS_INVALID_STATE "AdbcDatabaseRelease: %ld open connections when released"
      [AInt connection_count]
  else mret tt.

(** * Connections *)
Definition put_connection (c : option SqliteConnection) : M ConnectionState unit :=
  modify (fun s => (s.1, c)).

Definition SqliteConnectionNew : M ConnectionState unit :=
  private_data ← gets snd;
  match private_data with
  | Some _ => fail ADBC_STATUS_INVALID_STATE "AdbcConnectionNew: connection already allocated" []
  | None =>
      malloc_unchecked sizeof_SqliteConnection ;; put_connection (Some (mkConnection 0 false))
  end.

Definition SqliteConnectionSetOption (fuel : nat) (key value : string) : M ConnectionState unit :=
  conn ← check_init "connection" "SqliteConnectionSetOption" (gets snd);
  let execute query := zoom fst_lens (ExecuteQuery fuel (cn_conn conn) query) in
  let set_active b := put_connection (Some (mkConnection (cn_conn conn) b)) in
  if streq key ADBC_CONNECTION_OPTION_AUTOCOMMIT then
    if streq value ADBC_OPTION_VALUE_ENABLED then
      when (cn_active_transaction conn) (execute "COMMIT"%string ;; set_active false)
    else if streq value ADBC_OPTION_VALUE_DISABLED then
      when (negb (cn_active_transaction conn)) (execute "BEGIN"%string ;; set_active true)
    else
      fail ADBC_STATUS_INVALID_ARGUMENT "Invalid connection option value %s=%s"
        [AStr key; AStr value]
  else
    fail ADBC_STATUS_NOT_IMPLEMENTED "Unknown connection option %s=%s" [AStr key; AStr value].

Definition SqliteConnectionInit : M (ConnectionState * option SqliteDatabase) unit :=
  conn ← zoom fst_lens (check_init "connection" "SqliteConnectionInit" (gets snd));
  db ← check_init "database" "SqliteConnectionInit" (gets snd);
  if negb (cn_conn conn =? 0) then
    fail ADBC_STATUS_INVALID_STATE "AdbcConnectionInit: connection already initialized" []
  else
  handle ← zoom fst_lens (zoom fst_lens (OpenDatabase (db_uri db)));
  zoom fst_lens (put_connection (Some (mkConnection handle (cn_active_transaction conn)))).

Definition SqliteConnectionRelease : M ConnectionState unit :=
  conn ← check_init "connection" "SqliteConnectionRelease" (gets snd);
  when (negb (cn_conn conn =? 0))
    (rc ← call (sqlite3_close (cn_conn conn));
     when (rc =? SQLITE_BUSY)
       (fail ADBC_STATUS_IO "AdbcConnectionRelease: connection is busy" [])) ;;
  put_connection None.

Definition SqliteConnectionReadPartition (serialized_partition : list Z) : M ConnectionState unit :=
  _ ← check_init "connection" "SqliteConnectionReadPartition" (gets snd);
  exit ADBC_STATUS_NOT_IMPLEMENTED.

Definition SqliteConnectionCommit (fuel : nat) : M ConnectionState unit :=
  conn ← check_init "connection" "SqliteConnectionCommit" (gets snd);
  if negb (cn_active_transaction conn) then
    fail ADBC_STATUS_INVALID_STATE "No active transaction, cannot commit" []
  else
  zoom fst_lens (ExecuteQuery fuel (cn_conn conn) "COMMIT") ;;
  zoom fst_lens (ExecuteQuery fuel (cn_conn conn) "BEGIN").

Definition SqliteConnectionRollback (fuel : nat) : M ConnectionState unit :=
  conn ← check_init "connection" "SqliteConnectionRollback" (gets snd);
  if negb (cn_active_transaction conn) then
    fail ADBC_STATUS_INVALID_STATE "No active transaction, cannot rollback" []
  else
  zoom fst_lens (ExecuteQuery fuel (cn_conn conn) "ROLLBACK") ;;
  zoom fst_lens (ExecuteQuery fuel (cn_conn conn) "BEGIN").
End driver.
