(* ===== verification/Statement.v ===== *)
(** Statements of the SQLite driver (c/driver/sqlite/sqlite.c, types.h): lifecycle, queries,
    parameters, bulk ingestion, execution, options. *)
From stdpp Require Import base tactics list numbers option strings.
From Stdlib Require Import ZArith Lia Ascii.
From S2P Require Import Prelude CLib Schema SchemaView Array Adbc Utils Sqlite3 Binder Infer.
From S2P Require Import Reader Connection.

Definition kStatementOptionBatchRows : string := "adbc.sqlite.query.batch_rows".

(** * Data *)
Record SqliteStatement := mkStatement {
  st_conn : Z;
  st_stmt : Z;
  st_prepared : bool;
  st_query : cptr;
  st_query_len : Z;
  st_binder : AdbcSqliteBinder;
  st_target_table : cptr;
  st_append : bool;
  st_batch_size : Z;
}.
(** [sizeof(struct SqliteStatement)] (LP64). *)
Definition sizeof_SqliteStatement := 488.
Definition st_set_stmt h (s : SqliteStatement) := mkStatement (st_conn s) h (st_prepared s)
  (st_query s) (st_query_len s) (st_binder s) (st_target_table s) (st_append s) (st_batch_size s).
Definition st_set_prepared p (s : SqliteStatement) := mkStatement (st_conn s) (st_stmt s) p
  (st_query s) (st_query_len s) (st_binder s) (st_target_table s) (st_append s) (st_batch_size s).
Definition st_set_query q n (s : SqliteStatement) := mkStatement (st_conn s) (st_stmt s)
  (st_prepared s) q n (st_binder s) (st_target_table s) (st_append s) (st_batch_size s).
Definition st_set_binder b (s : SqliteStatement) := mkStatement (st_conn s) (st_stmt s)
  (st_prepared s) (st_query s) (st_query_len s) b (st_target_table s) (st_append s)
  (st_batch_size s).
Definition st_set_table t (s : SqliteStatement) := mkStatement (st_conn s) (st_stmt s)
  (st_prepared s) (st_query s) (st_query_len s) (st_binder s) t (st_append s) (st_batch_size s).
Definition st_set_append a (s : SqliteStatement) := mkStatement (st_conn s) (st_stmt s)
  (st_prepared s) (st_query s) (st_query_len s) (st_binder s) (st_target_table s) a
  (st_batch_size s).
Definition st_set_batch_size n (s : SqliteStatement) := mkStatement (st_conn s) (st_stmt s)
  (st_prepared s) (st_query s) (st_query_len s) (st_binder s) (st_target_table s) (st_append s) n.

(** A call on a live statement: [qs_rows] is [*rows_affected] and [qs_out] is [*out],
    [None] for null pointers. *)
Record QS `{Sqlite3} := mkQS {
  qs_env : Env;
  qs_stmt : SqliteStatement;
  qs_rows : option Z;
  qs_out : option ReaderStream;
}.
Arguments mkQS {_} qs_env qs_stmt qs_rows qs_out.

Section statement.
  Context `{Libc} `{Sqlite3}.

Definition qs_env_lens : Lens QS Env :=
  mkLens qs_env (fun e s => mkQS e (qs_stmt s) (qs_rows s) (qs_out s)).
#[export] Instance HasError_QS : HasError QS := lens_comp qs_env_lens error_lens.
#[export] Instance HasWorld_QS : HasWorld QS := lens_comp qs_env_lens world_lens.
Definition the_stmt : M QS SqliteStatement := gets qs_stmt.
Definition on_stmt (f : SqliteStatement -> SqliteStatement) : M QS unit :=
  modify (fun s => mkQS (qs_env s) (f (qs_stmt s)) (qs_rows s) (qs_out s)).
Definition set_rows (n : Z) : M QS unit :=
  modify (fun s => mkQS (qs_env s) (qs_stmt s) ((fun _ => n) <$> qs_rows s) (qs_out s)).
(** The binder's functions on the statement's binder. *)
Definition binder_lens : Lens QS BS :=
  mkLens (fun s => mkBS (en_error (qs_env s)) (en_world (qs_env s)) (st_binder (qs_stmt s)))
    (fun b s => mkQS (mkEnv (bs_error b) (bs_world b)) (st_set_binder (bs_binder b) (qs_stmt s))
                  (qs_rows s) (qs_out s)).

(** [stmt->binder.schema.release != NULL] *)
Definition has_params : M QS bool := s ← the_stmt; mret (sc_release (bd_schema (st_binder s))).

(** ** Preparing *)
Definition prepare_statement : M QS unit :=
  stmt ← the_stmt;
  match st_query stmt with
  | CNull =>
      fail ADBC_STATUS_INVALID_STATE "Must SetSqlQuery before ExecuteQuery or Prepare" []
  | _ =>
      when (negb (st_prepared stmt)) (
        when (negb (st_stmt stmt =? 0)) (
          rc ← call (sqlite3_finalize (st_stmt stmt));
          on_stmt (st_set_stmt 0) ;;
          when (negb (rc =? SQLITE_OK)) (
            msg ← errmsg (st_conn stmt);
            fail ADBC_STATUS_IO "Failed to finalize previous statement: (%d) %s"
              [AInt rc; AStr msg])) ;;
        query ← deref (st_query stmt);
        '(rc, handle) ← call (sqlite3_prepare_v2 (st_conn stmt) query
                                (to_signed 32 (st_query_len stmt)));
        on_stmt (st_set_stmt handle) ;;
        when (negb (rc =? SQLITE_OK)) (
          msg ← errmsg (st_conn stmt);
          set_error ("Failed to prepare query: %s" +:+ newline +:+ "Query:%s")
            [AStr msg; AStr query] ;;
          _ ← call (sqlite3_finalize handle);
          on_stmt (st_set_stmt 0) ;;
          exit ADBC_STATUS_INVALID_ARGUMENT) ;;
        on_stmt (st_set_prepared true))
  end.

(** ** Bulk ingestion *)
Definition run_builder {S} (values : list string) (initial_size : Z) : M S string :=
  match append_all values (StringBuilderInit initial_size) with
  | Ret _ b => mret (builder_text b)
  | Exit c _ => exit c
  | Undef => undef
  | NoFuel => nofuel
  end.
(** The names of the columns; a null name is dereferenced by [strlen]. *)
Definition column_names (schema : ArrowSchema) : option (list string) :=
  mapM (fun i => c ← mjoin (child_at schema (Z.of_nat i)); sc_name c)
    (seq 0 (Z.to_nat (sc_n_children schema))).
Fixpoint separated (sep : string) (names : list string) : list string :=
  match names with
  | [] => []
  | [n] => [n]
  | n :: r => n :: sep :: separated sep r
  end.

(** The value is the code returned and [*insert_statement]. *)
Definition SqliteStatementInitIngest : M QS (Z * Z) :=
  stmt ← the_stmt;
  target_table ← deref (st_target_table stmt);
  names ← lift_opt (column_names (bd_schema (st_binder stmt)));
  create_query ← run_builder
    (["CREATE TABLE "%string; target_table; " ("%string] ++ separated ", " names ++ [")"%string])
    256;
  insert_query ← run_builder
    (["INSERT INTO "%string; target_table; " VALUES ("%string] ++
     separated ", " (map (fun _ => "?"%string) names) ++ [")"%string]) 256;
  let conn := st_conn stmt in
  '(code, create) ← (if st_append stmt then mret (ADBC_STATUS_OK, 0) else
    '(rc, create) ← call (sqlite3_prepare_v2 conn create_query (strlen create_query));
    rc ← (if rc =? SQLITE_OK then call (sqlite3_step create) else mret rc);
    if negb (rc =? SQLITE_OK) && negb (rc =? SQLITE_DONE) then
      msg ← errmsg conn;
      set_error "Failed to create table: %s (executed '%s')" [AStr msg; AStr create_query] ;;
      mret (ADBC_STATUS_INTERNAL, create)
    else mret (ADBC_STATUS_OK, create));
  '(code, insert) ← (if negb (code =? ADBC_STATUS_OK) then mret (code, 0) else
    '(rc, insert) ← call (sqlite3_prepare_v2 conn insert_query (strlen insert_query));
    if negb (rc =? SQLITE_OK) then
      msg ← errmsg conn;
      set_error "Failed to prepare statement: %s (executed '%s')" [AStr msg; AStr insert_query] ;;
      mret (ADBC_STATUS_INTERNAL, insert)
    else mret (code, insert));
  _ ← call (sqlite3_finalize create);
  mret (code, insert).

(** [do { rc = sqlite3_step(stmt); } while (rc == SQLITE_ROW);], and the number of rows. *)
Fixpoint step_rows (fuel : nat) (stmt rows : Z) : M QS (Z * Z) :=
  match fuel with
  | O => nofuel
  | S fuel' =>
      rc ← call (sqlite3_step stmt);
      if rc =? SQLITE_ROW then step_rows fuel' stmt (rows + 1) else mret (rc, rows)
  end.

(** The status and the number of rows when the loop is left. *)
Fixpoint ingest_loop (fuel : nat) (insert row_count : Z) : M QS (Z * Z) :=
  match fuel with
  | O => nofuel
  | S fuel' =>
      stmt ← the_stmt;
      next ← (fun s =>
        match AdbcSqliteBinderBindNext (st_conn stmt) insert (view binder_lens s) with
        | Ret finished b => Ret (0, finished) (over binder_lens b s)
        | Exit c b => Ret (c, false) (over binder_lens b s)
        | Undef => Undef
        | NoFuel => NoFuel
        end);
      let '(status, finished) := next in
      if negb (status =? ADBC_STATUS_OK) || finished then mret (status, row_count) else
      '(rc, _) ← step_rows fuel insert 0;
      if negb (rc =? SQLITE_DONE) then
        msg ← errmsg (st_conn stmt);
        set_error "Failed to execute statement: %s" [AStr msg] ;;
        mret (ADBC_STATUS_INTERNAL, row_count)
      else ingest_loop fuel' insert (row_count + 1)
  end.

Definition SqliteStatementExecuteIngest (fuel : nat) : M QS unit :=
  bound ← has_params;
  if negb bound then
    fail ADBC_STATUS_INVALID_STATE "Must Bind() before bulk ingestion" []
  else
  '(status, insert) ← SqliteStatementInitIngest;
  '(status, row_count) ← (if status =? ADBC_STATUS_OK then ingest_loop fuel insert 0
                          else mret (status, 0));
  set_rows row_count ;;
  when (negb (insert =? 0)) (_ ← call (sqlite3_finalize insert); mret tt) ;;
  zoom binder_lens AdbcSqliteBinderRelease ;;
  return_code status.
(** ** Execution *)

(** [while (1)] of an update: the status and the number of rows when it is left. *)
Fixpoint update_loop (fuel : nat) (rows : Z) : M QS (Z * Z) :=
  match fuel with
  | O => nofuel
  | S fuel' =>
      stmt ← the_stmt;
      bound ← has_params;
      '(status, finished) ← (if bound : bool then fun s =>
          match AdbcSqliteBinderBindNext (st_conn stmt) (st_stmt stmt) (view binder_lens s) with
          | Ret finished b => Ret (0, finished) (over binder_lens b s)
          | Exit c b => Ret (c, false) (over binder_lens b s)
          | Undef => Undef
          | NoFuel => NoFuel
          end
        else mret (0, false));
      if negb (status =? ADBC_STATUS_OK) || finished then mret (status, rows) else
      '(_, rows) ← step_rows fuel (st_stmt stmt) rows;
      bound ← has_params;
      if negb bound then mret (status, rows) else update_loop fuel' rows
  end.

Definition execute_update (fuel : nat) : M QS unit :=
  stmt ← the_stmt;
  mutex_enter ;;
  '(status, rows) ← update_loop fuel 0;
  rc ← call (sqlite3_reset (st_stmt stmt));
  status ← (if negb (rc =? SQLITE_OK) then
    msg ← errmsg (st_conn stmt);
    set_error "Failed to execute query: %s" [AStr msg] ;; mret ADBC_STATUS_IO
  else mret status);
  mutex_leave ;;
  zoom binder_lens AdbcSqliteBinderRelease ;;
  set_rows rows ;;
  return_code status.

(** The exported stream replaces [*out]. *)
Definition export_to_out (binder : bool) : M QS unit := fun s =>
  let stmt := qs_stmt s in
  let back (r : RS) := let q := over binder_lens (rs_env r) s in
    mkQS (qs_env q) (qs_stmt q) (qs_rows q) (Some (StreamReader (rs_reader r))) in
  match AdbcSqliteExportReader (st_conn stmt) (st_stmt stmt) binder (st_batch_size stmt)
          (mkRS (view binder_lens s) (new_reader 0 0 0) zero_array) with
  | Ret _ r => Ret tt (back r)
  | Exit c r => Exit c (back r)
  | Undef => Undef
  | NoFuel => NoFuel
  end.

Definition execute_statement (fuel : nat) : M QS unit :=
  stmt ← the_stmt;
  match st_target_table stmt with
  | CNull =>
      prepare_statement ;;
      bound ← has_params;
      stmt ← the_stmt;
      when bound (
        expected ← ask (sqlite3_bind_parameter_count (st_stmt stmt));
        let actual := sc_n_children (bd_schema (st_binder stmt)) in
        if actual =? expected then mret tt else
        fail ADBC_STATUS_INVALID_STATE "Parameter count mismatch: expected %ld but found %ld"
          [AInt expected; AInt actual]) ;;
      out ← gets qs_out;
      match out with
      | None => execute_update fuel
      | Some _ => set_rows (-1) ;; export_to_out bound
      end
  | _ => SqliteStatementExecuteIngest fuel
  end.

(** * The driver's functions *)
Definition StatementState : Type := Env * option SqliteStatement.
(** [CHECK_STMT_INIT] and code on the live statement, with the out parameters. *)
Definition with_stmt {A} (func : string) (rows : option Z) (out : option ReaderStream)
    (m : M QS A) : M (StatementState * (option Z * option ReaderStream)) A :=
  stmt ← zoom fst_lens (check_init "statement" func (gets snd));
  (fun s =>
     let back (q : QS) := ((qs_env q, Some (qs_stmt q)), (qs_rows q, qs_out q)) in
     match m (mkQS s.1.1 stmt rows out) with
     | Ret a q => Ret a (back q)
     | Exit c q => Exit c (back q)
     | Undef => Undef
     | NoFuel => NoFuel
     end) : M _ A.
(** The same for functions without out parameters. *)
Definition on_statement {A} (func : string) (m : M QS A) : M StatementState A := fun s =>
  match with_stmt func None None m (s, (None, None)) with
  | Ret a (s, _) => Ret a s
  | Exit c (s, _) => Exit c s
  | Undef => Undef
  | NoFuel => NoFuel
  end.

Definition SqliteStatementNew : M (ConnectionState * option SqliteStatement) unit :=
  conn ← zoom fst_lens (check_init "connection" "SqliteStatementNew" (gets snd));
  private_data ← gets snd;
  match private_data with
  | Some _ => fail ADBC_STATUS_INVALID_STATE "AdbcStatementNew: statement already allocated" []
  | None =>
      if cn_conn conn =? 0 then
        fail ADBC_STATUS_INVALID_STATE "AdbcStatementNew: connection is not initialized" []
      else
      malloc_unchecked sizeof_SqliteStatement ;;
      modify (fun s => (s.1, Some (mkStatement (cn_conn conn) 0 false CNull 0 zero_binder CNull
                                     false 1024)))
  end.

Definition SqliteStatementPrepare : M StatementState unit :=
  on_statement "SqliteStatementPrepare" prepare_statement.

Definition SqliteStatementRelease : M StatementState unit :=
  rc ← on_statement "SqliteStatementRelease" (
    stmt ← the_stmt;
    rc ← (if negb (st_stmt stmt =? 0) then call (sqlite3_finalize (st_stmt stmt))
          else mret SQLITE_OK);
    free (st_query stmt) ;;
    zoom binder_lens AdbcSqliteBinderRelease ;;
    free (st_target_table stmt) ;;
    when (negb (rc =? SQLITE_OK)) (
      msg ← errmsg (st_conn stmt);
      set_error "AdbcStatementRelease: statement failed to finalize: (%d) %s"
        [AInt rc; AStr msg]) ;;
    mret rc);
  modify (fun s => (s.1, None)) ;;
  if rc =? SQLITE_OK then mret tt else exit ADBC_STATUS_IO.

Definition SqliteStatementExecuteQuery (fuel : nat)
    : M (StatementState * (option Z * option ReaderStream)) unit := fun s =>
  with_stmt "SqliteStatementExecuteQuery" s.2.1 s.2.2 (execute_statement fuel) s.

Definition SqliteStatementSetSqlQuery (query : string) : M StatementState unit :=
  on_statement "SqliteStatementSetSqlQuery" (
    stmt ← the_stmt;
    free (st_query stmt) ;;
    on_stmt (st_set_query CNull (st_query_len stmt)) ;;
    free (st_target_table stmt) ;;
    on_stmt (st_set_table CNull) ;;
    p ← copy_string query;
    on_stmt (fun st => st_set_prepared false (st_set_query p (strlen query + 1) st))).

Definition SqliteStatementSetSubstraitPlan (plan : list Z) : M StatementState unit :=
  on_statement "SqliteStatementSetSubstraitPlan"
    (fail ADBC_STATUS_NOT_IMPLEMENTED "Substrait is not supported" []).

(** The caller's array and schema are moved from. *)
Definition SqliteStatementBind : M (StatementState * (ArrowArray * ArrowSchema)) unit := fun p =>
  match on_statement "SqliteStatementBind" (fun s =>
      let back (r : BS * (ArrowArray * ArrowSchema)) := over binder_lens r.1 s in
      match AdbcSqliteBinderSetArray (view binder_lens s, p.2) with
      | Ret _ r => Ret (0, r.2) (back r)
      | Exit c r => Ret (c, r.2) (back r)
      | Undef => Undef
      | NoFuel => NoFuel
      end) p.1 with
  | Ret (code, values) s => return_code code (s, values)
  | Exit c s => Exit c (s, p.2)
  | Undef => Undef
  | NoFuel => NoFuel
  end.
Definition SqliteStatementBindStream : M (StatementState * InputStream) unit := fun p =>
  match on_statement "SqliteStatementBindStream" (fun s =>
      let back (r : BS * InputStream) := over binder_lens r.1 s in
      match AdbcSqliteBinderSetArrayStream (view binder_lens s, p.2) with
      | Ret _ r => Ret (0, r.2) (back r)
      | Exit c r => Ret (c, r.2) (back r)
      | Undef => Undef
      | NoFuel => NoFuel
      end) p.1 with
  | Ret (code, stream) s => return_code code (s, stream)
  | Exit c s => Exit c (s, p.2)
  | Undef => Undef
  | NoFuel => NoFuel
  end.

Definition SqliteStatementGetParameterSchema : M (StatementState * ArrowSchema) unit :=
  zoom fst_lens SqliteStatementPrepare ;;
  stmt ← (p ← gets (fun s => s.1.2); lift_opt p);
  num_params ← zoom fst_lens (zoom fst_lens (ask (sqlite3_bind_parameter_count (st_stmt stmt))));
  if num_params <? 0 then
    fail ADBC_STATUS_INTERNAL "SQLite returned negative parameter count" []
  else
  zoom snd_lens ArrowSchemaInit ;;
  CHECK_NA ADBC_STATUS_INTERNAL "sqlite.c" 1443 "ArrowSchemaSetType(schema, NANOARROW_TYPE_STRUCT)"
    (zoom snd_lens (ArrowSchemaSetType TYPE_STRUCT)) ;;
  CHECK_NA ADBC_STATUS_INTERNAL "sqlite.c" 1444 "ArrowSchemaAllocateChildren(schema, num_params)"
    (zoom snd_lens (ArrowSchemaAllocateChildren num_params)) ;;
  for_range 0 num_params (fun i =>
    name ← zoom fst_lens (zoom fst_lens (ask (sqlite3_bind_parameter_name (st_stmt stmt) (i + 1))));
    let name := match name with
                | Some n => n
                | None => truncate_to 11 (c_format "%d" [AInt i])
                end in
    zoom snd_lens (on_child i ArrowSchemaInit) ;;
    CHECK_NA ADBC_STATUS_INTERNAL "sqlite.c" 1453
      "ArrowSchemaSetType(schema->children[i], NANOARROW_TYPE_NA)"
      (zoom snd_lens (on_child i (ArrowSchemaSetType TYPE_NA))) ;;
    CHECK_NA ADBC_STATUS_INTERNAL "sqlite.c" 1454 "ArrowSchemaSetName(schema->children[i], name)"
      (zoom snd_lens (on_child i (ArrowSchemaSetName (Some name))))).

(** [strtol(value, &end, 10)] and [errno] after it. *)
Definition call_strtol (value : string) : M QS (Z * Z) := fun s =>
  let '(v, _, range) := strtol value in
  let w := en_world (qs_env s) in
  let errno := if range : bool then ERANGE else w_errno w in
  Ret (v, errno) (over qs_env_lens (mkEnv (en_error (qs_env s)) (mkWorld (w_db w) (w_held w) errno)) s).
Definition INT_MAX := INT32_MAX.
Definition SqliteStatementSetOption (key value : string) : M StatementState unit :=
  on_statement "SqliteStatementSetOption" (
    stmt ← the_stmt;
    let invalid (why : string) : M QS unit :=
      fail ADBC_STATUS_INVALID_ARGUMENT ("Invalid statement option value %s=%s" +:+ why)
        [AStr key; AStr value] in
    if streq key ADBC_INGEST_OPTION_TARGET_TABLE then
      free (st_query stmt) ;;
      on_stmt (st_set_query CNull (st_query_len stmt)) ;;
      free (st_target_table stmt) ;;
      on_stmt (st_set_table CNull) ;;
      p ← copy_string value;
      on_stmt (st_set_table p)
    else if streq key ADBC_INGEST_OPTION_MODE then
      if streq value ADBC_INGEST_OPTION_MODE_APPEND then on_stmt (st_set_append true)
      else if streq value ADBC_INGEST_OPTION_MODE_CREATE then on_stmt (st_set_append false)
      else invalid ""%string
    else if streq key kStatementOptionBatchRows then
      '(batch_size, errno) ← call_strtol value;
      if negb (errno =? 0) then invalid " (out of range)"%string
      else if batch_size <=? 0 then invalid " (value is non-positive or invalid)"%string
      else if batch_size >? INT_MAX then invalid " (value is out of range of int)"%string
      else on_stmt (st_set_batch_size batch_size)
    else
      fail ADBC_STATUS_NOT_IMPLEMENTED "Unknown statement option %s=%s" [AStr key; AStr value]).

Definition SqliteStatementExecutePartitions : M StatementState unit :=
  on_statement "SqliteStatementExecutePartitions"
    (fail ADBC_STATUS_NOT_IMPLEMENTED "Partitioned result sets are not supported" []).
End statement.

(** * Bulk ingestion

    The two statements' texts.  Names are inserted as they are, without quoting. *)
Definition create_text (table : string) (names : list string) : string :=
  joined (["CREATE TABLE "%string; table; " ("%string] ++ separated ", " names ++ [")"%string]).
Definition insert_text (table : string) (names : list string) : string :=
  joined (["INSERT INTO "%string; table; " VALUES ("%string] ++
          separated ", " (map (fun _ => "?"%string) names) ++ [")"%string]).

Section ingest.
  Context `{Libc} `{Sqlite3}.

(** The library accepts a row: what executing the insertion does. *)
Definition insert_row (stmt : Z) (d : sqlite) (vs : list bind_value) : option sqlite :=
  let '(rc, d) := sqlite3_reset stmt d in
  if negb (rc =? SQLITE_OK) then None else
  let '(rc, d) := sqlite3_clear_bindings stmt d in
  if negb (rc =? SQLITE_OK) then None else
  d ← bind_all stmt 0 vs d;
  let '(rc, d) := sqlite3_step stmt d in
  if rc =? SQLITE_DONE then Some d else None.
Fixpoint insert_rows (stmt : Z) (d : sqlite) (rows : list (list bind_value)) : option sqlite :=
  match rows with
  | [] => Some d
  | vs :: rest => d ← insert_row stmt d vs; insert_rows stmt d rest
  end.

Definition qs_with (s : QS) (d : sqlite) (b : AdbcSqliteBinder) : QS :=
  over binder_lens (mkBS (en_error (qs_env s))
    (let w := en_world (qs_env s) in mkWorld d (w_held w) (w_errno w)) b) s.

Lemma run_builder_spec {S} values (s : S) :
  malloc_ok 256 = true ->
  run_builder values 256 s =
    if strlen (joined values) <? 256 then Ret (joined values) s else Undef.
Proof.
  intros Hm. pose proof (append_all_fresh values 256 eq_refl Hm) as Ha. unfold run_builder.
  destruct (_ <? _).
  - destruct Ha as (b & -> & <-). done.
  - by rewrite Ha.
Qed.

Lemma ingest_loop_spec insert rows fuel n s b d :
  pending_rows b rows -> insert_rows insert (db_of s) rows = Some d ->
  st_binder (qs_stmt s) = b -> (length rows < fuel)%nat ->
  ingest_loop fuel insert n s = Ret (0, n + Z.of_nat (length rows)) (qs_with s d zero_binder).
Proof.
  revert n s b fuel. induction rows as [|vs rows IH]; intros n s b fuel Hp Hd Hb Hf;
    (destruct fuel as [|fuel]; [simpl in Hf; lia|]); cbn [ingest_loop];
    (erewrite bind_ret by done).
  - erewrite bind_ret.
    2:{ unfold binder_lens at 1. simpl. rewrite Hb. by rewrite (bind_next_end _ _ _ _ _ Hp). }
    simpl. injection Hd as <-. unfold qs_with. simpl. rewrite Z.add_0_r.
    destruct s as [[e []] ? ? ?]. done.
  - simpl in Hd. destruct (insert_row insert (db_of s) vs) as [d'|] eqn:Hrow; [|done]. simpl in Hd.
    unfold insert_row in Hrow.
    destruct (sqlite3_reset insert (db_of s)) as [rc d1] eqn:H1.
    destruct (rc =? SQLITE_OK) eqn:E1; [|done]. apply Z.eqb_eq in E1 as ->. simpl in Hrow.
    destruct (sqlite3_clear_bindings insert d1) as [rc d2] eqn:H2.
    destruct (rc =? SQLITE_OK) eqn:E2; [|done]. apply Z.eqb_eq in E2 as ->. simpl in Hrow.
    destruct (bind_all insert 0 vs d2) as [d3|] eqn:H3; [|done]. simpl in Hrow.
    destruct (sqlite3_step insert d3) as [rc d4] eqn:H4.
    destruct (rc =? SQLITE_DONE) eqn:E4; [|done]. apply Z.eqb_eq in E4 as ->. injection Hrow as <-.
    destruct (bind_next_row (st_conn (qs_stmt s)) insert (en_error (qs_env s)) (en_world (qs_env s))
      b vs rows d1 d2 d3 Hp H1 H2 H3) as (b' & Hnext & Hp').
    erewrite bind_ret.
    2:{ unfold binder_lens at 1. simpl. rewrite Hb. by rewrite Hnext. }
    cbv beta iota. change (negb (0 =? ADBC_STATUS_OK) || false) with false. cbn iota.
    erewrite bind_ret.
    2:{ cbn [step_rows]. erewrite bind_ret; [|apply call_run; exact H4].
        change (SQLITE_DONE =? SQLITE_ROW) with false. done. }
    cbv beta iota. change (negb (SQLITE_DONE =? SQLITE_DONE)) with false. cbn iota.
    erewrite (IH (n + 1) _ b'); [|done|exact Hd|done|simpl in Hf; lia].
    replace (n + 1 + Z.of_nat (length rows)) with (n + Z.of_nat (length (vs :: rows)))
      by (simpl length; lia).
    destruct s as [[e []] st ? ?]. by destruct st.
Qed.

Lemma run_create {S} table names (s : S) :
  malloc_ok 256 = true -> strlen (create_text table names) < 256 ->
  run_builder (["CREATE TABLE "%string; table; " ("%string] ++ separated ", " names ++ [")"%string])
    256 s = Ret (create_text table names) s.
Proof.
  intros Hm Hc. rewrite run_builder_spec by done.
  change (joined _) with (create_text table names). by rewrite (proj2 (Z.ltb_lt _ _) Hc).
Qed.
Lemma run_insert {S} table names (s : S) :
  malloc_ok 256 = true -> strlen (insert_text table names) < 256 ->
  run_builder (["INSERT INTO "%string; table; " VALUES ("%string] ++
    separated ", " (map (fun _ => "?"%string) names) ++ [")"%string]) 256 s =
  Ret (insert_text table names) s.
Proof.
  intros Hm Hc. rewrite run_builder_spec by done.
  change (joined _) with (insert_text table names). by rewrite (proj2 (Z.ltb_lt _ _) Hc).
Qed.

Lemma init_ingest_spec s table names create insert rc d1 d2 d3 d4 :
  malloc_ok 256 = true -> st_append (qs_stmt s) = false ->
  st_target_table (qs_stmt s) = CStr table ->
  column_names (bd_schema (st_binder (qs_stmt s))) = Some names ->
  strlen (create_text table names) < 256 -> strlen (insert_text table names) < 256 ->
  sqlite3_prepare_v2 (st_conn (qs_stmt s)) (create_text table names)
     (strlen (create_text table names)) (db_of s) = (SQLITE_OK, create, d1) ->
  sqlite3_step create d1 = (SQLITE_DONE, d2) ->
  sqlite3_prepare_v2 (st_conn (qs_stmt s)) (insert_text table names)
     (strlen (insert_text table names)) d2 = (SQLITE_OK, insert, d3) ->
  sqlite3_finalize create d3 = (rc, d4) ->
  SqliteStatementInitIngest s = Ret (ADBC_STATUS_OK, insert) (set_db d4 s).
Proof.
  intros Hm Hmode Htable Hnames Hc Hi H1 H2 H3 H4. unfold SqliteStatementInitIngest.
  erewrite bind_ret by done. rewrite Htable. erewrite bind_ret by done. rewrite Hnames.
  erewrite bind_ret by done. erewrite bind_ret by (by apply run_create).
  erewrite bind_ret by (by apply run_insert). rewrite Hmode.
  destruct s as [[e [d h en]] st r o]. unfold db_of in *. simpl in *.
  unfold mbind, M_bind, call, db_of. simpl. rewrite H1. simpl. rewrite H2. simpl. rewrite H3.
  simpl. by rewrite H4.
Qed.

(** C5: Bulk ingestion creates the table, inserts every bound row exactly once and in order,
    reports their number as [rows_affected], and leaves the binder empty: for the rows left
    in the binder, when the library accepts the two texts and each row. *)
Theorem ExecuteIngest_inserts_all (fuel : nat) (s : QS) (table : string) (names : list string)
  (rows : list (list bind_value)) (create insert rc1 rc2 : Z) (d1 d2 d3 d4 d5 d6 : sqlite)
  (Hmalloc : malloc_ok 256 = true)
  (Hmode : st_append (qs_stmt s) = false)
  (Htable : st_target_table (qs_stmt s) = CStr table)
  (Hbound : sc_release (bd_schema (st_binder (qs_stmt s))) = true)
  (Hnames : column_names (bd_schema (st_binder (qs_stmt s))) = Some names)
  (Hshort : strlen (create_text table names) < 256 /\ strlen (insert_text table names) < 256)
  (Hrows : pending_rows (st_binder (qs_stmt s)) rows)
  (Hfuel : (length rows < fuel)%nat)
  (Hcreate : sqlite3_prepare_v2 (st_conn (qs_stmt s)) (create_text table names)
     (strlen (create_text table names)) (db_of s) = (SQLITE_OK, create, d1))
  (Hrun : sqlite3_step create d1 = (SQLITE_DONE, d2))
  (Hinsert : sqlite3_prepare_v2 (st_conn (qs_stmt s)) (insert_text table names)
     (strlen (insert_text table names)) d2 = (SQLITE_OK, insert, d3))
  (Hlive : insert <> 0)
  (Hfinal1 : sqlite3_finalize create d3 = (rc1, d4))
  (Hloop : insert_rows insert d4 rows = Some d5)
  (Hfinal2 : sqlite3_finalize insert d5 = (rc2, d6)) :
  SqliteStatementExecuteIngest fuel s =
    Ret tt (qs_with (mkQS (qs_env s) (qs_stmt s)
                       ((fun _ => Z.of_nat (length rows)) <$> qs_rows s) (qs_out s))
              d6 zero_binder).
Proof.
  destruct Hshort as [Hc Hi]. unfold SqliteStatementExecuteIngest.
  erewrite bind_ret by done. simpl. rewrite Hbound. cbn [negb].
  erewrite bind_ret by (eapply init_ingest_spec; eauto). cbv beta iota.
  change (ADBC_STATUS_OK =? ADBC_STATUS_OK) with true. cbn iota.
  erewrite bind_ret.
  2:{ eapply (ingest_loop_spec insert rows fuel 0 _ (st_binder (qs_stmt s)) d5);
        [exact Hrows| |by destruct s|exact Hfuel].
      destruct s as [[e []] st ? ?]. exact Hloop. }
  rewrite Z.add_0_l. cbv beta iota.
  erewrite bind_ret by done. rewrite (proj2 (Z.eqb_neq _ _) Hlive).
  destruct s as [[e [d h en]] st r o]. destruct st. unfold db_of in *. simpl in *. 
  unfold mbind, M_bind, call, db_of. simpl. by rewrite Hfinal2.
Qed.
End ingest.

Section witnesses.
#[local] Existing Instance host.
#[local] Existing Instance Mock.mock.

Definition ingest_create : string := create_text "t" ["a"%string; "b"%string].
Definition ingest_insert : string := insert_text "t" ["a"%string; "b"%string].
(** The library accepts the two texts; the insertion has two parameters. *)
Definition ingest_env : Env :=
  mkEnv None (Mock.world_of [(ingest_create, ([], 0, [])); (ingest_insert, ([], 2, []))]).
Definition ingesting : QS :=
  mkQS ingest_env (mkStatement 1 0 false CNull 0 (fresh_binder two_batches) (CStr "t") false 1024)
    (Some (-1)) None.

Lemma ExecuteIngest_inserts_all_witness :
  exists d, SqliteStatementExecuteIngest 10 ingesting =
    Ret tt (qs_with (mkQS ingest_env (qs_stmt ingesting) (Some 2) None) d zero_binder).
Proof.
  eexists.
  refine (ExecuteIngest_inserts_all 10 ingesting "t" ["a"%string; "b"%string] the_rows 1 2 0 0
    _ _ _ _ _ _ eq_refl eq_refl eq_refl eq_refl eq_refl (conj eq_refl eq_refl) rows_pending
    _ eq_refl eq_refl eq_refl _ eq_refl _ eq_refl).
  - simpl. lia.
  - discriminate.
  - vm_compute. reflexivity.
Defined.
End witnesses.
