(* ===== verification/Frames.v ===== *)
(** What the code leaves alone: the connection mutex is left as often as it is entered on
    every path of the functions that take it, and what an execution keeps of a statement.
    Both by the frame rules of the prelude. *)
From stdpp Require Import base tactics list numbers option strings.
From Stdlib Require Import ZArith Lia.
From S2P Require Import Prelude CLib Buffer Schema SchemaView Array ArrayView Adbc Utils Sqlite3.
From S2P Require Import Binder Infer Reader Connection Statement.

(** * Frames of the library and of errors

    [f] does not depend on the library's state, or on the caller's error. *)
Class FrameDb `{Sqlite3} {S B} `{!HasWorld S} (f : S -> B) :=
  frame_db d s : f (set_db d s) = f s.
Class FrameError {S B} `{!HasError S} (f : S -> B) :=
  frame_error e s : f (over error_lens e s) = f s.
#[export] Hint Mode FrameDb - - - - ! : typeclass_instances.
#[export] Hint Mode FrameError - - - ! : typeclass_instances.

Section frames.
  Context `{Libc} `{Sqlite3} {S B : Type} (f : S -> B).

Lemma keeps_call `{!HasWorld S} `{!FrameDb f} {A} (g : sqlite -> A * sqlite) : keeps f (call g).
Proof. intros s. unfold call. destruct (g (db_of s)). apply frame_db. Qed.
Lemma keeps_ask `{!HasWorld S} {A} (g : sqlite -> A) : keeps f (ask g).
Proof. apply keeps_gets. Qed.
Lemma keeps_errmsg `{!HasWorld S} db : keeps f (errmsg db).
Proof. apply keeps_gets. Qed.
Lemma keeps_set_error `{!HasError S} `{!FrameError f} format args : keeps f (set_error format args).
Proof. apply keeps_zoom_off. intros. apply frame_error. Qed.
Lemma keeps_fail `{!HasError S} `{!FrameError f} {A} code format args :
  keeps f (fail (A := A) code format args).
Proof. apply keeps_bind; [apply keeps_set_error|intros; apply keeps_exit]. Qed.
Lemma keeps_CHECK_NA `{!HasError S} `{!FrameError f} code file line expr m :
  keeps f m -> keeps f (CHECK_NA code file line expr m).
Proof.
  intros Hm. apply keeps_bind; [by apply keeps_catch|]. intros c.
  destruct (c =? 0); [apply keeps_ret|apply keeps_fail].
Qed.
End frames.
#[export] Hint Extern 1 (keeps _ (call _)) => apply keeps_call; apply _ : keeps.
#[export] Hint Extern 1 (keeps _ (ask _)) => apply keeps_ask : keeps.
#[export] Hint Extern 1 (keeps _ (errmsg _)) => apply keeps_errmsg : keeps.
#[export] Hint Extern 1 (keeps _ (set_error _ _)) => apply keeps_set_error; apply _ : keeps.
#[export] Hint Extern 1 (keeps _ (fail _ _ _)) => apply keeps_fail; apply _ : keeps.
Ltac keeps_hook ::=
  match goal with |- keeps _ (CHECK_NA _ _ _ _ _) => apply keeps_CHECK_NA; [apply _|] end.

(** * The mutex *)
Definition held `{Sqlite3} {S} `{!HasWorld S} (s : S) : Z := w_held (view world_lens s).

Section mutex.
  Context `{Libc} `{Sqlite3}.

#[export] Instance held_db_BS : FrameDb (S := BS) held.
Proof. by intros d []. Qed.
#[export] Instance held_error_BS : FrameError (S := BS) held.
Proof. by intros d []. Qed.
#[export] Instance held_db_IS : FrameDb (S := IS) held.
Proof. by intros d []. Qed.
#[export] Instance held_error_IS : FrameError (S := IS) held.
Proof. by intros d []. Qed.
#[export] Instance held_db_RS : FrameDb (S := RS) held.
Proof. by intros d [[] ? ?]. Qed.
#[export] Instance held_error_RS : FrameError (S := RS) held.
Proof. by intros d [[] ? ?]. Qed.
#[export] Instance held_db_XS : FrameDb (S := XS) held.
Proof. by intros d [[[] ? ?] ?]. Qed.
#[export] Instance held_error_XS : FrameError (S := XS) held.
Proof. by intros d [[[] ? ?] ?]. Qed.
#[export] Instance held_db_QS : FrameDb (S := QS) held.
Proof. by intros d [[] ? ? ?]. Qed.
#[export] Instance held_error_QS : FrameError (S := QS) held.
Proof. by intros d [[] ? ? ?]. Qed.

(** ** The binder *)
#[local] Abbreviation balanced := (keeps held).

Lemma set_batch_balanced v : balanced (set_batch v).
Proof. unfold set_batch, set_binder, the_binder. solve_keeps. Qed.
Lemma set_types_balanced t : balanced (set_types t).
Proof. unfold set_types, set_binder, the_binder. solve_keeps. Qed.
Lemma set_next_row_balanced n : balanced (set_next_row n).
Proof. unfold set_next_row, set_binder, the_binder. solve_keeps. Qed.
Lemma on_batch_balanced e m : balanced (on_batch e m).
Proof. intros []. unfold on_batch. simpl. by destruct (m _) as [? []|? []| |]. Qed.
Hint Resolve set_batch_balanced set_types_balanced set_next_row_balanced on_batch_balanced : keeps.
Lemma binder_release_balanced : balanced AdbcSqliteBinderRelease.
Proof. unfold AdbcSqliteBinderRelease, set_binder, the_binder. solve_keeps. Qed.
Hint Resolve binder_release_balanced : keeps.
Lemma drop_array_balanced e : balanced (drop_array e).
Proof. unfold drop_array, the_binder. solve_keeps. Qed.
Hint Resolve drop_array_balanced : keeps.
Lemma next_batch_balanced e : balanced (next_batch e).
Proof. unfold next_batch, the_binder. solve_keeps. Qed.
Hint Resolve next_batch_balanced : keeps.
Lemma find_row_balanced fuel e : balanced (find_row fuel e).
Proof. revert e. induction fuel as [|fuel IH]; intros e; cbn [find_row]; solve_keeps. Qed.
Hint Resolve find_row_balanced : keeps.
Lemma bind_column_balanced conn stmt col : balanced (bind_column conn stmt col).
Proof. unfold bind_column, the_binder. solve_keeps. Qed.
Hint Resolve bind_column_balanced : keeps.
Lemma i64_keeps {S B} (f : S -> B) z : keeps f (i64 z).
Proof. unfold i64. solve_keeps. Qed.
Hint Resolve i64_keeps : keeps.
Lemma bind_next_balanced conn stmt : balanced (AdbcSqliteBinderBindNext conn stmt).
Proof. unfold AdbcSqliteBinderBindNext, the_binder. solve_keeps. Qed.
Hint Resolve bind_next_balanced : keeps.

(** ** Inference and export *)
Lemma column_text_bytes_keeps {S} `{!HasWorld S} {B} (f : S -> B) `{!FrameDb f} stmt col :
  keeps f (column_text_bytes stmt col).
Proof. unfold column_text_bytes. solve_keeps. Qed.
Lemma i32_keeps {S B} (f : S -> B) z : keeps f (i32 z).
Proof. unfold i32. solve_keeps. Qed.
Lemma upcast_column_balanced u : balanced (upcast_column u).
Proof.
  intros []. unfold upcast_column. simpl. destruct (u _ _) as [? []|? []| |]; try done.
  by destruct (ArrowBufferReset _).
Qed.
Hint Resolve i32_keeps upcast_column_balanced : keeps.
Hint Extern 1 (keeps _ (column_text_bytes _ _)) => apply column_text_bytes_keeps; apply _ : keeps.
Lemma infer_one_balanced stmt col : balanced (StatementReaderInferOneValue stmt col).
Proof.
  unfold StatementReaderInferOneValue, append_data, last_offset, set_current_type,
    StatementReaderUpcastInt64ToBinary, StatementReaderUpcastDoubleToBinary. solve_keeps.
Qed.
Lemma on_column_balanced k m : balanced m -> balanced (on_column k m).
Proof.
  intros Hm [[[] ? ?] ?]. unfold on_column. simpl. destruct (get_column _ _) as [c|]; [|done].
  specialize (Hm (mkIS bs_error bs_world c)). destruct (m _); done.
Qed.
Hint Resolve infer_one_balanced on_column_balanced : keeps.
Lemma on_raw_balanced g : balanced (on_raw g).
Proof. unfold on_raw. apply keeps_zoom_off. by intros ? [[[] ? ?] ?]. Qed.
Lemma on_elem_balanced {T A} get set_ i (m : M T A) : balanced (on_elem get set_ i m).
Proof. unfold on_elem. solve_keeps; apply on_raw_balanced. Qed.
Hint Resolve on_raw_balanced on_elem_balanced : keeps.
(** Code on the first component. *)
Lemma zoom_fst_balanced {A} (m : M RS A) : balanced m -> balanced (zoom (S := XS) fst_lens m).
Proof. intros Hm. by apply (keeps_zoom _ held). Qed.
Lemma zoom_env_balanced {A} (m : M BS A) : balanced m -> balanced (zoom (S := RS) env_lens m).
Proof. intros Hm. by apply (keeps_zoom _ held). Qed.
Hint Resolve zoom_fst_balanced zoom_env_balanced : keeps.
Ltac keeps_hook ::=
  match goal with
  | |- keeps _ (CHECK_NA _ _ _ _ _) => apply keeps_CHECK_NA; [apply _|]
  | |- keeps held (zoom fst_lens _) => apply zoom_fst_balanced
  end.
Lemma on_reader_balanced g : balanced (on_reader g).
Proof. unfold on_reader. apply keeps_zoom_off. by intros ? [[] ? ?]. Qed.
Hint Resolve on_reader_balanced : keeps.
Lemma without_error_balanced m : balanced (without_error sr_batch_lens m).
Proof. intros [[] ? ?]. unfold without_error. by destruct (m _) as [? []|? []| |]. Qed.
Lemma with_reader_error_balanced l m :
  (forall a s, held (over l a s) = held s) -> balanced (with_reader_error l m).
Proof.
  intros Hl s. unfold with_reader_error.
  destruct (m _) as [? [a e]|? [a e]| |]; try done; rewrite <- (Hl a s); by destruct (over l a s).
Qed.
Hint Resolve without_error_balanced : keeps.
Lemma initialize_balanced n rows : balanced (StatementReaderInitializeInfer n rows).
Proof. unfold StatementReaderInitializeInfer. solve_keeps. Qed.
Hint Resolve initialize_balanced : keeps.
Lemma infer_loop_balanced db stmt n binder left rows :
  balanced (infer_loop db stmt n binder left rows).
Proof.
  revert rows. induction left as [|left IH]; intros rows; cbn [infer_loop]; solve_keeps.
Qed.
Hint Resolve infer_loop_balanced : keeps.
Lemma finalize_balanced stmt n rows : balanced (StatementReaderInferFinalize stmt n rows).
Proof. unfold StatementReaderInferFinalize. solve_keeps. Qed.
Hint Resolve finalize_balanced : keeps.
Lemma export_columns_balanced db stmt binder batch n :
  balanced (export_columns db stmt binder batch n).
Proof. unfold export_columns. solve_keeps. Qed.

End mutex.
#[export] Hint Resolve binder_release_balanced bind_next_balanced on_reader_balanced
  zoom_env_balanced export_columns_balanced : keeps.
#[export] Hint Extern 1 (keeps _ (column_text_bytes _ _)) =>
  apply column_text_bytes_keeps; apply _ : keeps.

(** ** Critical sections

    Between entering and leaving the mutex nothing may return. *)
Definition no_exit {S A} (m : M S A) : Prop := forall s c t, m s <> Exit c t.
Section no_exit.
  Context {S : Type}.
Lemma no_exit_ret {A} (a : A) : no_exit (S := S) (mret a).
Proof. done. Qed.
Lemma no_exit_undef {A} : no_exit (S := S) (undef (A := A)).
Proof. done. Qed.
Lemma no_exit_nofuel {A} : no_exit (S := S) (nofuel (A := A)).
Proof. done. Qed.
Lemma no_exit_gets {A} (g : S -> A) : no_exit (gets g).
Proof. done. Qed.
Lemma no_exit_modify (g : S -> S) : no_exit (modify g).
Proof. done. Qed.
Lemma no_exit_lift_opt {A} (o : option A) : no_exit (S := S) (lift_opt o).
Proof. by destruct o. Qed.
Lemma no_exit_catch (m : M S unit) : no_exit (catch m).
Proof. intros s c t. unfold catch. by destruct (m s). Qed.
Lemma no_exit_when b (m : M S unit) : no_exit m -> no_exit (when b m).
Proof. by destruct b. Qed.
Lemma no_exit_bind {A B} (m : M S A) (k : A -> M S B) :
  no_exit m -> (forall a, no_exit (k a)) -> no_exit (m ≫= k).
Proof.
  intros Hm Hk s c t. specialize (Hm s c). unfold mbind, M_bind.
  destruct (m s) as [a t'|c' t'| |] eqn:Heq; [apply Hk| |done..]. intros [= -> ->]. by eapply Hm.
Qed.
Lemma no_exit_zoom {T A} (l : Lens S T) (m : M T A) : no_exit m -> no_exit (zoom l m).
Proof.
  intros Hm s c t. unfold zoom. destruct (m (view l s)) as [| | |] eqn:Heq; try done.
  by apply Hm in Heq.
Qed.
Lemma no_exit_malloc `{Libc} n : no_exit (S := S) (malloc_unchecked n).
Proof. unfold malloc_unchecked. by destruct (malloc_ok n). Qed.
End no_exit.

Section sections.
  Context `{Libc} `{Sqlite3} {S : Type} `{!HasWorld S}.
Lemma no_exit_call {A} (g : sqlite -> A * sqlite) : no_exit (S := S) (call g).
Proof. intros s c t. unfold call. by destruct (g (db_of s)). Qed.
Lemma no_exit_set_error `{!HasError S} format args : no_exit (S := S) (set_error format args).
Proof.
  apply no_exit_zoom. intros e c t. by destruct (set_error_returns format args e) as [e' ->].
Qed.

Class HeldOver := held_over w (s : S) : held (over world_lens w s) = w_held w.
Context `{!HeldOver}.
(** [closes m]: [m] leaves the mutex once more than it enters it. *)
Definition closes {A} (m : M S A) : Prop :=
  forall s, match m s with
            | Ret _ t | Exit _ t => held t = held s - 1 | Undef | NoFuel => True
            end.
Lemma closes_leave {A} (k : unit -> M S A) : keeps held (k tt) -> closes (mutex_leave ;; k tt).
Proof.
  intros Hk s. unfold mutex_leave, mbind, M_bind, gets, put, id; simpl.
  destruct (0 <? _); [|done]. specialize (Hk (over world_lens
    (mkWorld (w_db (view world_lens s)) (w_held (view world_lens s) - 1)
       (w_errno (view world_lens s))) s)).
  destruct (k tt _); rewrite ?held_over in Hk; done.
Qed.
Lemma closes_bind {A B} (m : M S A) (k : A -> M S B) :
  no_exit m -> keeps held m -> (forall a, closes (k a)) -> closes (m ≫= k).
Proof.
  intros Hx Hm Hk s. specialize (Hm s). specialize (Hx s). unfold mbind, M_bind.
  destruct (m s) as [a t|c t| |]; try done.
  - specialize (Hk a t). destruct (k a t); congruence.
  - by destruct (Hx c t).
Qed.
Lemma enter_balanced {A} (m : M S A) : closes m -> keeps held (mutex_enter ;; m).
Proof.
  intros Hm s. unfold mutex_enter, mbind, M_bind, modify; simpl.
  match goal with |- match m ?t with _ => _ end => specialize (Hm t) end.
  destruct (m _); rewrite ?held_over in Hm; simpl in Hm; unfold held in *; lia || done.
Qed.
End sections.
Arguments HeldOver {_} S {_}.

Create HintDb no_exit.
#[export] Hint Resolve no_exit_ret no_exit_undef no_exit_nofuel no_exit_gets no_exit_modify
  no_exit_lift_opt no_exit_catch no_exit_malloc no_exit_call no_exit_set_error : no_exit.
Ltac no_exit_step :=
  match goal with
  | |- forall _, _ => intro
  | |- no_exit (mbind _ _) => apply no_exit_bind
  | |- no_exit (when _ _) => apply no_exit_when
  | |- no_exit (zoom _ _) => apply no_exit_zoom
  | |- no_exit (if ?b then _ else _) => destruct b
  | |- no_exit (match ?x with _ => _ end) => destruct x
  | |- no_exit _ => solve [auto with no_exit nocore]
  end.
Ltac solve_no_exit := intros; cbv zeta; repeat no_exit_step.

Section balanced.
  Context `{Libc} `{Sqlite3}.
#[local] Abbreviation balanced := (keeps held).

#[export] Instance held_over_RS : HeldOver RS.
Proof. by intros w [[] ? ?]. Qed.
#[export] Instance held_over_QS : HeldOver QS.
Proof. by intros w [[] ? ? ?]. Qed.

Lemma no_exit_on_reader g : no_exit (on_reader g).
Proof. unfold on_reader. solve_no_exit. Qed.
Lemma no_exit_bind_next db stmt : no_exit (bind_next_local db stmt).
Proof. intros s c t. unfold bind_next_local. by destruct (AdbcSqliteBinderBindNext _ _ _). Qed.
Hint Resolve no_exit_on_reader no_exit_bind_next : no_exit.
Lemma malloc_keeps {S B} (f : S -> B) n : keeps f (malloc_unchecked n).
Proof. unfold malloc_unchecked. solve_keeps. Qed.
Lemma malloc_array_keeps {S B} (f : S -> B) n size : keeps f (malloc_array n size).
Proof. unfold malloc_array. apply keeps_when, malloc_keeps. Qed.
Lemma no_exit_malloc_array {S} n size : no_exit (S := S) (malloc_array n size).
Proof. unfold malloc_array. solve_no_exit. Qed.
Hint Resolve malloc_keeps malloc_array_keeps : keeps.
Hint Resolve no_exit_malloc_array : no_exit.

Lemma bind_next_local_balanced db stmt : balanced (bind_next_local db stmt).
Proof.
  intros [[] ? ?]. unfold bind_next_local. simpl.
  match goal with |- context [AdbcSqliteBinderBindNext db stmt ?s] =>
    pose proof (bind_next_balanced db stmt s) as Hb end.
  destruct (AdbcSqliteBinderBindNext _ _ _); exact Hb.
Qed.
Hint Resolve bind_next_local_balanced : keeps.
Lemma get_one_balanced col : balanced (StatementReaderGetOneValue col).
Proof. unfold StatementReaderGetOneValue, reader_fail. solve_keeps. Qed.
Hint Resolve get_one_balanced : keeps.
Lemma next_loop_balanced left n : balanced (next_loop left n).
Proof.
  revert n. induction left as [|left IH]; intros n; cbn [next_loop];
    unfold StatementReaderSetError; solve_keeps.
Qed.
Lemma next_loop_no_exit left n : no_exit (next_loop left n).
Proof.
  revert n. induction left as [|left IH]; intros n; cbn [next_loop];
    unfold StatementReaderSetError, errmsg, ask; solve_no_exit.
Qed.
Hint Resolve next_loop_balanced : keeps.
Hint Resolve next_loop_no_exit : no_exit.

Lemma zoom_out_balanced {A} (m : M ArrowArray A) : balanced (zoom out_lens m).
Proof. by apply keeps_zoom_off. Qed.
Lemma reader_get_next_balanced : balanced reader_get_next.
Proof.
  unfold reader_get_next. apply keeps_bind; [solve_keeps|]. intros r.
  destruct (ar_release _); [solve_keeps|]. destruct (sr_done r); [solve_keeps|].
  apply keeps_bind; [by apply with_reader_error_balanced|]. intros _.
  apply keeps_bind; [apply zoom_out_balanced|]. intros _.
  apply enter_balanced, closes_bind; [solve_no_exit|solve_keeps|]. intros [st n].
  apply closes_bind.
  - unfold ArrowArrayRelease, put; solve_no_exit; by intros ?.
  - destruct (st =? 0); [|solve_keeps]. apply keeps_bind; [apply zoom_out_balanced|]. intros _.
    apply keeps_bind; [|solve_keeps]. apply keeps_catch, keeps_for_range. intros i s.
    destruct (get_child _ _) as [child|]; [|done].
    match goal with |- match with_reader_error ?l ?m s with _ => _ end =>
      exact (with_reader_error_balanced l m (fun _ _ => eq_refl) s) end.
  - intros st'. apply (closes_leave (fun _ => return_code st')). solve_keeps.
Qed.
Lemma export_reader_balanced db stmt binder batch :
  balanced (AdbcSqliteExportReader db stmt binder batch).
Proof.
  unfold AdbcSqliteExportReader. apply keeps_bind; [solve_keeps|]. intros _.
  apply keeps_bind; [solve_keeps|]. intros _. apply enter_balanced.
  do 5 (apply closes_bind; [unfold ask; solve_no_exit|solve_keeps|]; intros ?).
  apply closes_bind.
  - intros s c t. by destruct (export_columns _ _ _ _ _ _) as [? []|? []| |].
  - intros s. pose proof (export_columns_balanced db stmt binder batch a
      (s, fresh_columns (Z.to_nat a))) as Hx.
    destruct (export_columns _ _ _ _ _ _) as [? []|? []| |]; exact Hx.
  - intros st. apply (closes_leave (fun _ => return_code st)). solve_keeps.
Qed.
End balanced.
#[export] Hint Resolve malloc_keeps malloc_array_keeps : keeps.

(** ** Statements

    What an execution does to a statement: it sets the handle, the prepared flag and the
    number of rows, and runs the binder and the reader. *)
Definition set_out (o : option ReaderStream) `{Sqlite3} (s : QS) : QS :=
  mkQS (qs_env s) (qs_stmt s) (qs_rows s) o.
Class StatementFrame `{Sqlite3} {B} (f : QS -> B) := {
  sf_db :: FrameDb f;
  sf_error :: FrameError f;
  sf_binder b s : held b = held s -> f (over binder_lens b s) = f s;
  sf_handle h s :
    f (mkQS (qs_env s) (st_set_stmt h (qs_stmt s)) (qs_rows s) (qs_out s)) = f s;
  sf_prepared p s :
    f (mkQS (qs_env s) (st_set_prepared p (qs_stmt s)) (qs_rows s) (qs_out s)) = f s;
  sf_rows n s : f (mkQS (qs_env s) (qs_stmt s) n (qs_out s)) = f s;
  sf_out o s : f (mkQS (qs_env s) (qs_stmt s) (qs_rows s) o) = f s;
}.

Section statement_frames.
  Context `{Libc} `{Sqlite3} {B : Type} (f : QS -> B) `{!StatementFrame f}.

Lemma handle_keeps h : keeps f (on_stmt (st_set_stmt h)).
Proof. apply keeps_modify. intros. apply sf_handle. Qed.
Lemma prepared_keeps p : keeps f (on_stmt (st_set_prepared p)).
Proof. apply keeps_modify. intros. apply sf_prepared. Qed.
Lemma set_rows_keeps n : keeps f (set_rows n).
Proof. apply keeps_modify. intros. apply sf_rows. Qed.
Lemma step_rows_keeps fuel stmt rows : keeps f (step_rows fuel stmt rows).
Proof. revert rows. induction fuel as [|fuel IH]; intros rows; cbn [step_rows]; solve_keeps. Qed.
Lemma zoom_binder_keeps {A} (m : M BS A) : keeps held m -> keeps f (zoom binder_lens m).
Proof.
  intros Hm s. specialize (Hm (view binder_lens s)). unfold zoom.
  destruct (m _); try done; by apply sf_binder.
Qed.
Hint Resolve handle_keeps prepared_keeps set_rows_keeps step_rows_keeps zoom_binder_keeps : keeps.
(** Binding the next row of the statement's binder, as a local status. *)
Lemma bind_local_keeps conn stmt :
  keeps f (fun s => match AdbcSqliteBinderBindNext conn stmt (view binder_lens s) with
    | Ret finished b => Ret (0, finished) (over binder_lens b s)
    | Exit c b => Ret (c, false) (over binder_lens b s)
    | Undef => Undef
    | NoFuel => NoFuel
    end).
Proof.
  intros s. pose proof (bind_next_balanced conn stmt (view binder_lens s)) as Hb.
  destruct (AdbcSqliteBinderBindNext _ _ _); try done; by apply sf_binder.
Qed.
Hint Resolve bind_local_keeps : keeps.
Lemma prepare_keeps : keeps f prepare_statement.
Proof. unfold prepare_statement, the_stmt, deref. solve_keeps. Qed.
Lemma update_loop_keeps fuel rows : keeps f (update_loop fuel rows).
Proof.
  revert rows. induction fuel as [|fuel IH]; intros rows; cbn [update_loop];
    unfold has_params, the_stmt; solve_keeps.
Qed.
Lemma run_builder_keeps {S C} (g : S -> C) values n : keeps g (run_builder values n).
Proof. unfold run_builder. solve_keeps. Qed.
Hint Resolve run_builder_keeps : keeps.
Lemma init_ingest_keeps : keeps f SqliteStatementInitIngest.
Proof. unfold SqliteStatementInitIngest, the_stmt, deref. solve_keeps. Qed.
Lemma ingest_loop_keeps fuel insert n : keeps f (ingest_loop fuel insert n).
Proof.
  revert n. induction fuel as [|fuel IH]; intros n; cbn [ingest_loop]; unfold the_stmt; solve_keeps.
Qed.
Hint Resolve init_ingest_keeps ingest_loop_keeps : keeps.
Lemma execute_ingest_keeps fuel : keeps f (SqliteStatementExecuteIngest fuel).
Proof. unfold SqliteStatementExecuteIngest, has_params, the_stmt. solve_keeps. Qed.
Lemma export_to_out_keeps binder : keeps f (export_to_out binder).
Proof.
  intros s. unfold export_to_out.
  match goal with |- context [AdbcSqliteExportReader ?d ?t binder ?n ?s] =>
    pose proof (export_reader_balanced d t binder n s) as Hx end.
  destruct (AdbcSqliteExportReader _ _ _ _ _) as [? r|? r| |]; try done; cbv zeta;
    rewrite (sf_out _ (over binder_lens (rs_env r) s)); by apply sf_binder.
Qed.
Hint Resolve prepare_keeps update_loop_keeps execute_ingest_keeps export_to_out_keeps : keeps.
(** The one function that takes the mutex itself. *)
Lemma execute_statement_keeps fuel :
  keeps f (execute_update fuel) -> keeps f (execute_statement fuel).
Proof. intros Hu. unfold execute_statement, has_params, the_stmt. solve_keeps. Qed.
End statement_frames.

Section updates.
  Context `{Libc} `{Sqlite3}.

#[export] Instance held_statement : StatementFrame held.
Proof. split; try apply _; by intros. Qed.

Lemma step_rows_no_exit fuel stmt rows : no_exit (step_rows fuel stmt rows).
Proof. revert rows. induction fuel as [|fuel IH]; intros rows; cbn [step_rows]; solve_no_exit. Qed.
Lemma bind_local_no_exit conn stmt :
  no_exit (fun s => match AdbcSqliteBinderBindNext conn stmt (view binder_lens s) with
    | Ret finished b => Ret (0, finished) (over binder_lens b s)
    | Exit c b => Ret (c, false) (over binder_lens b s)
    | Undef => Undef
    | NoFuel => NoFuel
    end).
Proof. intros s c t. by destruct (AdbcSqliteBinderBindNext _ _ _). Qed.
Hint Resolve step_rows_no_exit bind_local_no_exit : no_exit.
Lemma update_loop_no_exit fuel rows : no_exit (update_loop fuel rows).
Proof.
  revert rows. induction fuel as [|fuel IH]; intros rows; cbn [update_loop];
    unfold has_params, the_stmt; solve_no_exit.
Qed.
Hint Resolve update_loop_no_exit : no_exit.
Hint Extern 1 (keeps _ (update_loop _ _)) => apply update_loop_keeps; apply _ : keeps.
Hint Extern 1 (keeps _ (zoom binder_lens _)) =>
  apply zoom_binder_keeps; [apply _|apply binder_release_balanced] : keeps.
Hint Extern 1 (keeps _ (set_rows _)) => apply set_rows_keeps; apply _ : keeps.
Lemma execute_update_balanced fuel : keeps held (execute_update fuel).
Proof.
  unfold execute_update, the_stmt. apply keeps_bind; [solve_keeps|]. intros stmt.
  apply enter_balanced. apply closes_bind; [solve_no_exit|solve_keeps|]. intros [st rows].
  do 2 (apply closes_bind; [unfold errmsg, ask; solve_no_exit|solve_keeps|]; intros ?).
  apply (closes_leave (fun _ => zoom binder_lens AdbcSqliteBinderRelease ;; set_rows rows ;;
    return_code a0)).
  solve_keeps.
Qed.

(** * Properties *)

(** C2: The connection mutex is balanced on every path: executing a statement (as a query, an
    update or an ingestion, whatever fails) and reading the next batch of a stream return
    with the mutex held as often as before the call. *)
Theorem mutex_balanced (fuel : nat) (s : QS) (r : StreamState) :
  match execute_statement fuel s with
  | Ret _ s' | Exit _ s' => held s' = held s
  | Undef | NoFuel => True
  end /\
  match StatementReaderGetNext r with
  | Ret _ r' | Exit _ r' => held (ss_env r') = held (ss_env r)
  | Undef | NoFuel => True
  end.
Proof.
  split; [apply execute_statement_keeps, execute_update_balanced; apply _|].
  unfold StatementReaderGetNext. destruct (ss_stream r) as [| | |reader]; try done.
  pose proof (reader_get_next_balanced (mkRS (ss_env r) reader (ss_out r))) as Hx.
  destruct (reader_get_next _); exact Hx.
Qed.
End updates.
