(* ===== verification/Lifecycle.v ===== *)
(** Lifecycles: statements, connections and databases as state machines.  The reachable
    states of a statement under every operation and outcome, the transaction flag of a
    connection, and what happens to a database whose connection stays busy. *)
From stdpp Require Import base tactics list numbers option strings.
From Stdlib Require Import ZArith Lia.
From S2P Require Import Prelude CLib Buffer Schema SchemaView Array ArrayView Adbc Utils Sqlite3.
From S2P Require Import Binder Infer Reader Connection Statement Frames.

(** * Statements *)
Section statements.
  Context `{Libc} `{Sqlite3}.

(** What of a statement only its setters change. *)
Definition st_texts (s : QS) : cptr * Z * cptr * Z :=
  let st := qs_stmt s in (st_query st, st_query_len st, st_target_table st, st_batch_size st).
#[export] Instance texts_frame : StatementFrame st_texts.
Proof. split; by intros. Qed.

Lemma execute_update_texts fuel : keeps st_texts (execute_update fuel).
Proof.
  unfold execute_update, the_stmt, mutex_enter, mutex_leave.
  apply keeps_bind; [solve_keeps|]. intros stmt. apply keeps_bind; [by intros []|]. intros _.
  apply keeps_bind; [apply update_loop_keeps; apply _|]. intros [st rows].
  apply keeps_bind; [solve_keeps|]. intros rc. apply keeps_bind; [solve_keeps|]. intros st'.
  apply keeps_bind; [|intros _; apply keeps_bind].
  - intros s. unfold mbind, M_bind, gets, id. by destruct (0 <? _).
  - apply zoom_binder_keeps; [apply _|apply binder_release_balanced].
  - intros _. apply keeps_bind; [apply set_rows_keeps; apply _|]. solve_keeps.
Qed.

(** The calls an application makes on a statement, with the arguments it passes. *)
Inductive statement_call :=
| CallPrepare
| CallExecuteQuery (fuel : nat) (rows : option Z) (out : option ReaderStream)
| CallSetSqlQuery (query : string)
| CallSetSubstraitPlan (plan : list Z)
| CallBind (values : ArrowArray) (schema : ArrowSchema)
| CallBindStream (stream : InputStream)
| CallGetParameterSchema (out : ArrowSchema)
| CallSetOption (key value : string)
| CallExecutePartitions
| CallRelease.

(** The statement and the code after a call that returns. *)
Definition returns_to {S A} (r : result S A) (s' : S) : Prop :=
  match r with Ret _ t | Exit _ t => t = s' | Undef | NoFuel => False end.
Definition called (c : statement_call) (s s' : StatementState) : Prop :=
  match c with
  | CallPrepare => returns_to (SqliteStatementPrepare s) s'
  | CallExecuteQuery fuel rows out =>
      exists outs, returns_to (SqliteStatementExecuteQuery fuel (s, (rows, out))) (s', outs)
  | CallSetSqlQuery query => returns_to (SqliteStatementSetSqlQuery query s) s'
  | CallSetSubstraitPlan plan => returns_to (SqliteStatementSetSubstraitPlan plan s) s'
  | CallBind values schema =>
      exists moved, returns_to (SqliteStatementBind (s, (values, schema))) (s', moved)
  | CallBindStream stream =>
      exists moved, returns_to (SqliteStatementBindStream (s, stream)) (s', moved)
  | CallGetParameterSchema out =>
      exists schema, returns_to (SqliteStatementGetParameterSchema (s, out)) (s', schema)
  | CallSetOption key value => returns_to (SqliteStatementSetOption key value s) s'
  | CallExecutePartitions => returns_to (SqliteStatementExecutePartitions s) s'
  | CallRelease => returns_to (SqliteStatementRelease s) s'
  end.
(** States reachable from a new statement; the environment may change between calls. *)
Inductive reachable : StatementState -> Prop :=
| reach_new conn s p :
    SqliteStatementNew (conn, s) = Ret tt p -> reachable (p.1.1, p.2)
| reach_call c s s' : reachable s -> called c s s' -> reachable s'
| reach_env e s : reachable s -> reachable (e, s.2).

(** The query and the ingestion target are never both set, pointers are never stale, and the
    batch size fits an [int]. *)
Record statement_ok (st : SqliteStatement) : Prop := {
  ok_query : st_query st <> CFreed;
  ok_table : st_target_table st <> CFreed;
  ok_one : st_query st = CNull \/ st_target_table st = CNull;
  ok_length : forall q, st_query st = CStr q -> st_query_len st = strlen q + 1;
  ok_batch : 0 < st_batch_size st <= INT_MAX;
}.
Definition state_ok (s : StatementState) : Prop :=
  match s.2 with Some st => statement_ok st | None => True end.

Lemma ok_of_texts s s' : st_texts s' = st_texts s -> statement_ok (qs_stmt s) -> statement_ok (qs_stmt s').
Proof.
  unfold st_texts. intros [= H1 H2 H3 H4] [A B C D E].
  split; rewrite ?H1, ?H2, ?H3, ?H4; done.
Qed.

Definition preserves {A} (m : M QS A) : Prop :=
  forall q, statement_ok (qs_stmt q) ->
    match m q with Ret _ q' | Exit _ q' => statement_ok (qs_stmt q') | Undef | NoFuel => True end.
Lemma texts_preserves {A} (m : M QS A) : keeps st_texts m -> preserves m.
Proof.
  intros Hm q Hq. specialize (Hm q). destruct (m q); try done; by eapply ok_of_texts.
Qed.
Lemma with_stmt_ok {A} func rows out (m : M QS A) s s' :
  preserves m -> returns_to (with_stmt func rows out m s) s' -> state_ok s.1 -> state_ok s'.1.
Proof.
  intros Hm Hr Hs. destruct s as [[e [st|]] [r o]]; simpl in Hs.
  - specialize (Hm (mkQS e st rows out) Hs). revert Hr. unfold returns_to, with_stmt.
    erewrite bind_ret by done. cbv beta. simpl.
    destruct (m _) as [a q|c q| |]; try done; by intros <-.
  - revert Hr. unfold with_stmt.
    destruct (fail_exit (A := SqliteStatement) ADBC_STATUS_INVALID_STATE
      ("%s: " +:+ "statement" +:+ " not initialized") [AStr func] (e, @None SqliteStatement))
      as [e' He].
    erewrite bind_exit; [|unfold zoom, check_init; erewrite bind_ret by done;
      cbn -[fail String.append]; by rewrite He]. by intros <-.
Qed.
Lemma on_statement_ok {A} func (m : M QS A) s s' :
  preserves m -> returns_to (on_statement func m s) s' -> state_ok s -> state_ok s'.
Proof.
  intros Hm Hr Hs. revert Hr. unfold on_statement.
  pose proof (with_stmt_ok func None None m (s, (None, None))) as Hw.
  destruct (with_stmt _ _ _ _ _) as [a [t o]|c [t o]| |]; try done; intros <-;
    exact (Hw (t, o) Hm eq_refl Hs).
Qed.

(** ** Each call *)
Lemma set_query_ok query :
  preserves (stmt ← the_stmt;
    free (st_query stmt) ;;
    on_stmt (st_set_query CNull (st_query_len stmt)) ;;
    free (st_target_table stmt) ;;
    on_stmt (st_set_table CNull) ;;
    p ← copy_string query;
    on_stmt (fun st => st_set_prepared false (st_set_query p (strlen query + 1) st))).
Proof.
  intros [e st r o] [A B C D E]. simpl in *. unfold copy_string, malloc_unchecked.
  cbv [mbind M_bind the_stmt gets]. simpl.
  destruct (st_query st); try done; destruct (st_target_table st); try done; simpl;
    (destruct (malloc_ok _); [|done]); simpl; split; simpl; try done;
    (by auto) || (by intros q [= <-]).
Qed.
Lemma set_table_ok value :
  preserves (stmt ← the_stmt;
    free (st_query stmt) ;;
    on_stmt (st_set_query CNull (st_query_len stmt)) ;;
    free (st_target_table stmt) ;;
    on_stmt (st_set_table CNull) ;;
    p ← copy_string value;
    on_stmt (st_set_table p)).
Proof.
  intros [e st r o] [A B C D E]. simpl in *. unfold copy_string, malloc_unchecked.
  cbv [mbind M_bind the_stmt gets]. simpl.
  destruct (st_query st); try done; destruct (st_target_table st); try done; simpl;
    (destruct (malloc_ok _); [|done]); simpl; split; simpl; try done; by auto.
Qed.
Lemma set_append_ok b : preserves (on_stmt (st_set_append b)).
Proof. intros [e st r o] [A B C D E]. by split. Qed.
Lemma set_batch_ok n : 0 < n <= INT_MAX -> preserves (on_stmt (st_set_batch_size n)).
Proof. intros Hn [e st r o] [A B C D E]. by split. Qed.
Lemma fail_ok {A} code format args : preserves (fail (A := A) code format args).
Proof. apply texts_preserves. solve_keeps. Qed.
Lemma set_batch_rows_ok value (invalid : string -> M QS unit) :
  (forall why, preserves (invalid why)) ->
  preserves ('(batch_size, errno) ← call_strtol value;
    if negb (errno =? 0) then invalid " (out of range)"%string
    else if batch_size <=? 0 then invalid " (value is non-positive or invalid)"%string
    else if batch_size >? INT_MAX then invalid " (value is out of range of int)"%string
    else on_stmt (st_set_batch_size batch_size)).
Proof.
  intros Hi [e st r o] Hq. unfold mbind, M_bind, call_strtol.
  destruct (strtol value) as [[v rest] range]. cbv beta iota zeta.
  destruct (negb _); [by apply Hi|]. destruct (Z.leb_spec v 0); [by apply Hi|].
  rewrite Z.gtb_ltb. destruct (Z.ltb_spec INT_MAX v); [by apply Hi|].
  apply set_batch_ok; [lia|done].
Qed.
Lemma set_option_ok key value s s' :
  returns_to (SqliteStatementSetOption key value s) s' -> state_ok s -> state_ok s'.
Proof.
  unfold SqliteStatementSetOption. apply on_statement_ok. intros q Hq.
  erewrite bind_ret by done. cbv zeta.
  destruct (streq key ADBC_INGEST_OPTION_TARGET_TABLE); [exact (set_table_ok value q Hq)|].
  destruct (streq key ADBC_INGEST_OPTION_MODE).
  { destruct (streq value _); [by apply set_append_ok|].
    destruct (streq value _); [by apply set_append_ok|by apply fail_ok]. }
  destruct (streq key kStatementOptionBatchRows).
  { exact (set_batch_rows_ok value (fun why => fail ADBC_STATUS_INVALID_ARGUMENT
      ("Invalid statement option value %s=%s" +:+ why) [AStr key; AStr value])
      (fun why => fail_ok _ _ _) q Hq). }
  by apply fail_ok.
Qed.
Lemma bind_ok values s p :
  returns_to (SqliteStatementBind (s, values)) p -> state_ok s -> state_ok p.1.
Proof.
  unfold SqliteStatementBind. cbn [fst snd].
  match goal with |- context [on_statement ?f ?m s] =>
    pose proof (on_statement_ok f m s) as Ho; assert (preserves m) as Hm end.
  { intros [e st r o] [A B C D E]. destruct (AdbcSqliteBinderSetArray _); done. }
  destruct (on_statement _ _ s) as [[c v] t|c t| |]; try done.
  - unfold return_code. destruct (c =? 0); intros <-; exact (Ho t Hm eq_refl).
  - intros <-; exact (Ho t Hm eq_refl).
Qed.
Lemma bind_stream_ok stream s p :
  returns_to (SqliteStatementBindStream (s, stream)) p -> state_ok s -> state_ok p.1.
Proof.
  unfold SqliteStatementBindStream. cbn [fst snd].
  match goal with |- context [on_statement ?f ?m s] =>
    pose proof (on_statement_ok f m s) as Ho; assert (preserves m) as Hm end.
  { intros [e st r o] [A B C D E]. destruct (AdbcSqliteBinderSetArrayStream _); done. }
  destruct (on_statement _ _ s) as [[c v] t|c t| |]; try done.
  - unfold return_code. destruct (c =? 0); intros <-; exact (Ho t Hm eq_refl).
  - intros <-; exact (Ho t Hm eq_refl).
Qed.
Lemma prepare_ok s s' :
  returns_to (SqliteStatementPrepare s) s' -> state_ok s -> state_ok s'.
Proof. apply on_statement_ok, texts_preserves, prepare_keeps. apply _. Qed.

(** After preparing, the parameter schema only writes the schema and the error. *)
Definition inner (p : StatementState * ArrowSchema) : option SqliteStatement := p.1.2.
#[local] Instance inner_error : FrameError inner.
Proof. by intros ? [[] ?]. Qed.
Lemma ask_inner {A} (g : sqlite -> A) : keeps inner (zoom fst_lens (zoom fst_lens (ask g))).
Proof. apply (keeps_zoom _ snd); [done..|]. by apply keeps_zoom_off. Qed.
Hint Resolve ask_inner : keeps.
Lemma bind_inner_ok {A B} (m : M _ A) (k : A -> M _ B) s p :
  (forall a, keeps inner (k a)) -> (forall t, returns_to (m s) t -> state_ok t.1) ->
  returns_to ((m ≫= k) s) p -> state_ok p.1.
Proof.
  intros Hk Hm. unfold mbind, M_bind. destruct (m s) as [a t|c t| |]; try done.
  - specialize (Hk a t). specialize (Hm t eq_refl).
    destruct (k a t); try done; intros <-; unfold inner, state_ok in *; by rewrite Hk.
  - intros <-. by apply Hm.
Qed.
Lemma parameter_schema_ok s out p :
  returns_to (SqliteStatementGetParameterSchema (s, out)) p -> state_ok s -> state_ok p.1.
Proof.
  intros Hr Hs. revert Hr. unfold SqliteStatementGetParameterSchema. apply bind_inner_ok.
  - intros _. apply keeps_bind; [solve_keeps|]. intros st.
    apply keeps_bind; [apply ask_inner|]. intros n. destruct (n <? 0); [solve_keeps|]. solve_keeps.
  - intros t. unfold zoom. simpl. pose proof (prepare_ok s) as Hp.
    destruct (SqliteStatementPrepare s) as [a u|c u| |]; try done; intros <-; by apply Hp.
Qed.
Lemma release_ok s s' :
  returns_to (SqliteStatementRelease s) s' -> state_ok s -> state_ok s'.
Proof.
  intros Hr Hs. revert Hr. unfold SqliteStatementRelease. unfold mbind at 1, M_bind at 1.
  match goal with |- context [on_statement ?f ?m s] =>
    pose proof (on_statement_ok f m s) as Ho; assert (preserves m) as Hm end.
  { apply texts_preserves. unfold the_stmt, free. solve_keeps. }
  destruct (on_statement _ _ s) as [rc t|c t| |]; try done.
  - unfold mbind, M_bind, modify. destruct (rc =? SQLITE_OK); by intros <-.
  - intros <-. exact (Ho t Hm eq_refl Hs).
Qed.

Lemma called_ok c s s' : called c s s' -> state_ok s -> state_ok s'.
Proof.
  destruct c as [|fuel rows out|query|plan|values schema|stream|out|key value| |]; simpl.
  - apply prepare_ok.
  - intros [outs Hr] Hs. unfold SqliteStatementExecuteQuery in Hr.
    eapply (with_stmt_ok _ _ _ _ _ (s', outs)); [|exact Hr|exact Hs].
    apply texts_preserves, execute_statement_keeps, execute_update_texts. apply _.
  - apply on_statement_ok, set_query_ok.
  - apply on_statement_ok, fail_ok.
  - intros [moved Hr]. exact (bind_ok _ _ _ Hr).
  - intros [moved Hr]. exact (bind_stream_ok _ _ _ Hr).
  - intros [schema Hr]. exact (parameter_schema_ok _ _ _ Hr).
  - apply set_option_ok.
  - apply on_statement_ok, fail_ok.
  - apply release_ok.
Qed.

(** * Properties *)

(** C8: Every statement that an application can reach, by any sequence of calls whatever
    their arguments and outcomes, has live query and target pointers of which at most one is
    set, a query length that counts the terminator, and a batch size that fits an [int]: no
    call frees a pointer twice, and the query and ingestion modes never mix. *)
Theorem reachable_statement_ok (s : StatementState) (st : SqliteStatement)
  (Hreach : reachable s) (Hlive : s.2 = Some st) : statement_ok st.
Proof.
  enough (state_ok s) as Hs by (unfold state_ok in Hs; by rewrite Hlive in Hs). clear Hlive.
  induction Hreach as [conn s p Hnew|c s s' _ IH Hc|e s _ IH].
  - revert Hnew. unfold SqliteStatementNew. intros (a & t & _ & Hnew)%bind_ret_inv.
    apply bind_ret_inv in Hnew as (o & t2 & _ & Hnew). destruct o as [st0|].
    { by apply fail_not_ret in Hnew. }
    destruct (cn_conn a =? 0); [by apply fail_not_ret in Hnew|].
    apply bind_ret_inv in Hnew as ([] & t3 & _ & Hnew). injection Hnew as <-. simpl.
    split; simpl; auto; try done; lia.
  - by eapply called_ok.
  - done.
Qed.
End statements.

(** * Options of a statement *)
Section options.
  Context `{Libc} `{Sqlite3}.

Definition clear_errno (s : StatementState) (n : Z) : StatementState :=
  (mkEnv (en_error s.1) (mkWorld (w_db (en_world s.1)) (w_held (en_world s.1)) n), s.2).

Lemma call_strtol_eq value v rest (range : bool) e st r o :
  strtol value = (v, rest, range) ->
  let errno := if range then ERANGE else w_errno (en_world e) in
  call_strtol value (mkQS e st r o) = Ret (v, errno)
    (mkQS (mkEnv (en_error e) (mkWorld (w_db (en_world e)) (w_held (en_world e)) errno)) st r o).
Proof. intros Hv. unfold call_strtol. by rewrite Hv. Qed.
Ltac refuse Hfail :=
  cbv beta; match goal with |- context [fail ?c ?f ?a ?q] =>
    let He := fresh in destruct (Hfail f a q) as [? He]; rewrite He; by eexists end.

(** The batch size option accepts exactly the texts whose leading number is in
    [1, INT_MAX], and only while [errno] is still 0 from before the call (it is not reset
    before [strtol]); everything else is INVALID_ARGUMENT and changes nothing but the error
    and [errno]. *)
Theorem batch_rows_option (e : Env) (st : SqliteStatement) (value : string) :
  let '(v, _, range) := strtol value in
  let errno := if range : bool then ERANGE else w_errno (en_world e) in
  let s' := clear_errno (e, Some st) errno in
  if (errno =? 0) && (0 <? v) && (v <=? INT_MAX)
  then SqliteStatementSetOption kStatementOptionBatchRows value (e, Some st) =
         Ret tt (s'.1, Some (st_set_batch_size v st))
  else exists err, SqliteStatementSetOption kStatementOptionBatchRows value (e, Some st) =
         Exit ADBC_STATUS_INVALID_ARGUMENT (mkEnv err (en_world s'.1), Some st).
Proof.
  destruct (strtol value) as [[v rest] range] eqn:Hv. cbv zeta.
  set (errno := if range then ERANGE else w_errno (en_world e)).
  assert (forall fmt args q, exists err, fail (A := unit) ADBC_STATUS_INVALID_ARGUMENT fmt args q =
    Exit ADBC_STATUS_INVALID_ARGUMENT
      (mkQS (mkEnv err (en_world (qs_env q))) (qs_stmt q) (qs_rows q) (qs_out q))) as Hfail.
  { intros fmt args q. destruct (fail_exit (A := unit) ADBC_STATUS_INVALID_ARGUMENT fmt args q)
      as [err Herr]. by exists err. }
  unfold SqliteStatementSetOption, on_statement, with_stmt. erewrite bind_ret by done. cbv beta.
  match goal with |- context [mkQS ?x st None None] =>
    change (mkQS x st None None) with (mkQS e st None None) end.
  erewrite bind_ret by done. cbv beta zeta.
  change (streq kStatementOptionBatchRows ADBC_INGEST_OPTION_TARGET_TABLE) with false.
  change (streq kStatementOptionBatchRows ADBC_INGEST_OPTION_MODE) with false.
  change (streq kStatementOptionBatchRows kStatementOptionBatchRows) with true. cbn iota.
  erewrite bind_ret; [|exact (call_strtol_eq _ _ _ _ e st None None Hv)]. cbn iota. fold errno.
  destruct (errno =? 0); cbn [negb andb].
  2:{ refuse Hfail. }
  destruct (Z.ltb_spec 0 v) as [Hv0|Hv0]; cbn [andb].
  2:{ rewrite (proj2 (Z.leb_le v 0)) by lia. refuse Hfail. }
  rewrite (proj2 (Z.leb_gt v 0)), Z.gtb_ltb by lia.
  destruct (Z.leb_spec v INT_MAX).
  - by rewrite (proj2 (Z.ltb_ge INT_MAX v)) by lia.
  - rewrite (proj2 (Z.ltb_lt INT_MAX v)) by lia. refuse Hfail.
Qed.
End options.

(** * Connections *)
Section connections.
  Context `{Libc} `{Sqlite3}.

(** Stepping until the end or an error: how many steps, the last code and the library. *)
Inductive steps_to (stmt : Z) : nat -> Z -> sqlite -> Z -> sqlite -> Prop :=
| steps_stop rc d : rc = SQLITE_DONE \/ rc = SQLITE_ERROR -> steps_to stmt 0 rc d rc d
| steps_more n rc d rc1 d1 rc' d' :
    rc <> SQLITE_DONE -> rc <> SQLITE_ERROR -> sqlite3_step stmt d = (rc1, d1) ->
    steps_to stmt n rc1 d1 rc' d' -> steps_to stmt (S n) rc d rc' d'.
Definition env_set_db (d : sqlite) (e : Env) : Env :=
  mkEnv (en_error e) (mkWorld d (w_held (en_world e)) (w_errno (en_world e))).

Lemma step_loop_spec stmt n fuel rc e rc' d' :
  steps_to stmt n rc (w_db (en_world e)) rc' d' -> (n <= fuel)%nat ->
  step_loop fuel stmt rc e = Ret rc' (env_set_db d' e).
Proof.
  intros Hs. remember (w_db (en_world e)) as d eqn:Hd. revert fuel e Hd.
  induction Hs as [rc d Hrc|n rc d rc1 d1 rc' d' H1 H2 Hstep _ IH]; intros fuel e Hd Hf.
  - destruct fuel; cbn [step_loop]; (replace ((rc =? SQLITE_DONE) || (rc =? SQLITE_ERROR)) with true
      by (symmetry; apply orb_true_iff; destruct Hrc as [->| ->]; [by left|by right]));
      subst d; by destruct e as [? []].
  - destruct fuel as [|fuel]; [lia|]. cbn [step_loop].
    rewrite (proj2 (Z.eqb_neq _ _) H1), (proj2 (Z.eqb_neq _ _) H2). cbn [orb].
    erewrite bind_ret; [|unfold call, db_of; simpl; rewrite <- Hd; by rewrite Hstep].
    rewrite (IH fuel); [done|done|lia].
Qed.

(** C38: [ExecuteQuery] prepares the text, steps it to the end or to an error, finalizes it
    once, and reports INTERNAL exactly when finalizing reports an error: for any number of
    steps, given as much fuel. *)
Theorem ExecuteQuery_runs (fuel n : nat) (conn rc stmt rc' rcf : Z) (query : string) (e : Env)
  (d1 d2 d3 : sqlite)
  (Hprep : sqlite3_prepare_v2 conn query (strlen query) (w_db (en_world e)) = (rc, stmt, d1))
  (Hsteps : steps_to stmt n rc d1 rc' d2) (Hfuel : (n <= fuel)%nat)
  (Hfinal : sqlite3_finalize stmt d2 = (rcf, d3)) :
  if (rcf =? SQLITE_OK) || (rcf =? SQLITE_DONE)
  then ExecuteQuery fuel conn query e = Ret tt (env_set_db d3 e)
  else exists err, ExecuteQuery fuel conn query e =
    Exit ADBC_STATUS_INTERNAL (mkEnv err (en_world (env_set_db d3 e))).
Proof.
  unfold ExecuteQuery. destruct ((rcf =? SQLITE_OK) || (rcf =? SQLITE_DONE)) eqn:Hok.
  - erewrite bind_ret; [|apply call_run; exact Hprep]. cbn iota beta.
    erewrite bind_ret; [|eapply (step_loop_spec _ _ fuel); [exact Hsteps|done]].
    erewrite bind_ret; [|apply call_run; exact Hfinal].
    replace (negb (rcf =? SQLITE_OK) && negb (rcf =? SQLITE_DONE)) with false; [done|].
    by rewrite <- negb_orb, Hok.
  - destruct (fail_exit (A := unit) ADBC_STATUS_INTERNAL
      ("Failed to execute query " +:+ quote +:+ "%s" +:+ quote +:+ ": %s")
      [AStr query; AStr (sqlite3_errmsg conn d3)] (env_set_db d3 e)) as [err He].
    exists err. erewrite bind_ret; [|apply call_run; exact Hprep]. cbn iota beta.
    erewrite bind_ret; [|eapply (step_loop_spec _ _ fuel); [exact Hsteps|done]].
    erewrite bind_ret; [|apply call_run; exact Hfinal].
    replace (negb (rcf =? SQLITE_OK) && negb (rcf =? SQLITE_DONE)) with true
      by (by rewrite <- negb_orb, Hok).
    erewrite bind_ret by done. exact He.
Qed.

Lemma step_loop_null `{!Sqlite3Null} fuel e : step_loop fuel 0 SQLITE_MISUSE e = NoFuel.
Proof.
  revert e. induction fuel as [|fuel IH]; intros e; cbn [step_loop]; [done|].
  change ((SQLITE_MISUSE =? SQLITE_DONE) || (SQLITE_MISUSE =? SQLITE_ERROR)) with false. cbn iota.
  erewrite bind_ret; [apply IH|]. unfold call. by rewrite step_null.
Qed.

(** Turning autocommit off on a connection that is allocated but not initialised never
    returns: with a null connection preparing reports misuse, and so does every step, which
    the loop takes for a row. *)
Theorem autocommit_before_init_hangs `{!Sqlite3Null} (fuel : nat) (e : Env) :
  SqliteConnectionSetOption fuel ADBC_CONNECTION_OPTION_AUTOCOMMIT ADBC_OPTION_VALUE_DISABLED
    (e, Some (mkConnection 0 false)) = NoFuel.
Proof.
  unfold SqliteConnectionSetOption. erewrite bind_ret by done. cbv zeta.
  change (streq ADBC_CONNECTION_OPTION_AUTOCOMMIT ADBC_CONNECTION_OPTION_AUTOCOMMIT) with true.
  change (streq ADBC_OPTION_VALUE_DISABLED ADBC_OPTION_VALUE_ENABLED) with false.
  change (streq ADBC_OPTION_VALUE_DISABLED ADBC_OPTION_VALUE_DISABLED) with true.
  cbn [cn_active_transaction negb when cn_conn]. unfold zoom at 1, mbind at 1, M_bind at 1.
  unfold ExecuteQuery, mbind at 1, M_bind at 1. unfold call at 1. cbn [view fst_lens fst].
  rewrite prepare_null. unfold mbind at 1, M_bind at 1. by rewrite step_loop_null.
Qed.

(** ** Transactions

    What the driver promises: which SQL it runs for a request and the transaction state when
    all of it went well; [None] for a request that is refused. *)
Inductive tx_request := EnableAutocommit | DisableAutocommit | Commit | Rollback.
Definition tx_plan (active : bool) (r : tx_request) : option (list string * bool) :=
  match r, active with
  | EnableAutocommit, true => Some (["COMMIT"%string], false)
  | EnableAutocommit, false => Some ([], false)
  | DisableAutocommit, true => Some ([], true)
  | DisableAutocommit, false => Some (["BEGIN"%string], true)
  | Commit, true => Some (["COMMIT"%string; "BEGIN"%string], true)
  | Rollback, true => Some (["ROLLBACK"%string; "BEGIN"%string], true)
  | (Commit | Rollback), false => None
  end.
Definition tx_request_call (fuel : nat) (r : tx_request) : M ConnectionState unit :=
  match r with
  | EnableAutocommit =>
      SqliteConnectionSetOption fuel ADBC_CONNECTION_OPTION_AUTOCOMMIT ADBC_OPTION_VALUE_ENABLED
  | DisableAutocommit =>
      SqliteConnectionSetOption fuel ADBC_CONNECTION_OPTION_AUTOCOMMIT ADBC_OPTION_VALUE_DISABLED
  | Commit => SqliteConnectionCommit fuel
  | Rollback => SqliteConnectionRollback fuel
  end.
Fixpoint run_all (fuel : nat) (conn : Z) (queries : list string) : M Env unit :=
  match queries with
  | [] => mret tt
  | q :: rest => ExecuteQuery fuel conn q ;; run_all fuel conn rest
  end.

(** C3: Transactions refine their specification: for every request on a live connection the
    driver runs exactly the planned SQL in order and, when all of it succeeds, moves to the
    planned state; when a query fails, its error is returned and the flag stays as it was,
    whatever ran before; committing or rolling back without a transaction is refused with
    INVALID_STATE and runs nothing. *)
Theorem transactions_refine (fuel : nat) (r : tx_request) (e : Env) (conn : Z) (active : bool) :
  match tx_plan active r with
  | Some (queries, active') =>
      tx_request_call fuel r (e, Some (mkConnection conn active)) =
        match run_all fuel conn queries e with
        | Ret _ e' => Ret tt (e', Some (mkConnection conn active'))
        | Exit c e' => Exit c (e', Some (mkConnection conn active))
        | Undef => Undef
        | NoFuel => NoFuel
        end
  | None => exists err,
      tx_request_call fuel r (e, Some (mkConnection conn active)) =
        Exit ADBC_STATUS_INVALID_STATE (mkEnv err (en_world e), Some (mkConnection conn active))
  end.
Proof.
  assert (forall text, exists err, fail (A := unit) ADBC_STATUS_INVALID_STATE text []
      (e, Some (mkConnection conn active)) =
    Exit ADBC_STATUS_INVALID_STATE (mkEnv err (en_world e), Some (mkConnection conn active)))
    as Hfail.
  { intros text. destruct (fail_exit (A := unit) ADBC_STATUS_INVALID_STATE text []
      (e, Some (mkConnection conn active))) as [err He]. by exists err. }
  destruct r, active; simpl tx_plan; cbn iota; simpl tx_request_call;
    unfold SqliteConnectionSetOption, SqliteConnectionCommit, SqliteConnectionRollback;
    try (erewrite bind_ret by done; cbv zeta); try apply Hfail;
    cbn [run_all]; unfold mbind, M_bind, zoom, mret, M_ret; simpl;
    repeat (destruct (ExecuteQuery _ _ _ _) as [[] ?|? ?| |]; simpl; try done); done.
Qed.
End connections.

(** * Databases *)
Section databases.
  Context `{Libc} `{Sqlite3}.

Lemma busy_fail e d : exists err, fail (A := unit) ADBC_STATUS_IO
    "AdbcDatabaseRelease: connection is busy" [] (e, d) =
  Exit ADBC_STATUS_IO (mkEnv err (en_world e), d : option SqliteDatabase).
Proof.
  destruct (fail_exit (A := unit) ADBC_STATUS_IO "AdbcDatabaseRelease: connection is busy" [] (e, d))
    as [err He]. by exists err.
Qed.

(** Releasing a database whose handle is still in use is refused with IO, but its URI has
    been freed by then and the pointer is kept: when the application releases the database
    again, or sets its URI, the same memory is freed twice. *)
Theorem busy_release_frees_twice (e : Env) (handle n rc : Z) (uri value : string) (d : sqlite)
  (Hlive : handle <> 0)
  (Hclose : sqlite3_close handle (w_db (en_world e)) = (SQLITE_BUSY, d)) :
  exists s', SqliteDatabaseRelease (e, Some (mkDatabase handle (CStr uri) n)) =
      Exit ADBC_STATUS_IO s' /\
    SqliteDatabaseRelease s' = Undef /\ SqliteDatabaseSetOption "uri" value s' = Undef.
Proof.
  destruct (busy_fail (env_set_db d e) (Some (mkDatabase handle CFreed n))) as [err He].
  eexists. split; [|split].
  - unfold SqliteDatabaseRelease. erewrite bind_ret by done. cbn [db_uri db_db db_connection_count].
    erewrite bind_ret by done. erewrite bind_ret by done. erewrite bind_exit; [done|].
    rewrite (proj2 (Z.eqb_neq _ _) Hlive). cbn [negb when].
    erewrite bind_ret; [|apply call_run; exact Hclose]. cbn iota beta.
    change (SQLITE_BUSY =? SQLITE_BUSY) with true. exact He.
  - done.
  - done.
Qed.

(** The URI a database opens. *)
Definition uri_text (p : cptr) : string := match p with CStr s => s | _ => kDefaultUri end.
Definition open_flags : Z := 70.

Lemma open_failed uri rc db d e :
  (match uri with CNull => mret kDefaultUri | p => deref p end) e = Ret (uri_text uri) e ->
  sqlite3_open_v2 (uri_text uri) open_flags (w_db (en_world e)) = (rc, db, d) ->
  (rc =? SQLITE_OK) = false ->
  exists err, OpenDatabase uri e =
    Exit ADBC_STATUS_IO (mkEnv err (en_world (env_set_db (sqlite3_close db d).2 e))).
Proof.
  intros Hu Hopen Hrc.
  assert (exists err, (if negb (db =? 0) then
       msg ← errmsg db; set_error "Failed to open %s: %s" [AStr (uri_text uri); AStr msg]
     else set_error "Failed to open %s: failed to allocate memory" [AStr (uri_text uri)])
      (env_set_db d e) = Ret tt (mkEnv err (en_world (env_set_db d e)))) as [err He].
  { destruct (negb (db =? 0)).
    - destruct (set_error_run "Failed to open %s: %s"
        [AStr (uri_text uri); AStr (sqlite3_errmsg db d)] (env_set_db d e)) as [err Herr].
      exists err. erewrite bind_ret by done. exact Herr.
    - destruct (set_error_run "Failed to open %s: failed to allocate memory"
        [AStr (uri_text uri)] (env_set_db d e)) as [err Herr].
      exists err. exact Herr. }
  exists err. unfold OpenDatabase. erewrite bind_ret by exact Hu.
  erewrite bind_ret; [|apply call_run; exact Hopen]. cbn iota beta.
  rewrite Hrc. erewrite bind_ret by exact He.
  destruct (sqlite3_close db d) as [rc2 d2] eqn:Hclose.
  erewrite bind_ret; [done|]. unfold call, db_of; simpl. by rewrite Hclose.
Qed.

(** Opening: initialising a database opens its URI (or the shared in-memory default) for
    reading and writing, creating it, as a URI, exactly once; an initialised database is
    refused; and when the library fails, the half-open handle is closed, IO is reported and
    the database stays uninitialised. *)
Theorem DatabaseInit_opens (e : Env) (handle n : Z) (uri : cptr)
  (Huri : uri <> CFreed) :
  let s := (e, Some (mkDatabase handle uri n)) in
  if handle =? 0 then
    let '(rc, db, d) := sqlite3_open_v2 (uri_text uri) open_flags (w_db (en_world e)) in
    if rc =? SQLITE_OK
    then SqliteDatabaseInit s = Ret tt (env_set_db d e, Some (mkDatabase db uri n))
    else exists err, SqliteDatabaseInit s =
      Exit ADBC_STATUS_IO (mkEnv err (en_world (env_set_db (sqlite3_close db d).2 e)),
                           Some (mkDatabase 0 uri n))
  else exists err, SqliteDatabaseInit s =
    Exit ADBC_STATUS_INVALID_STATE (mkEnv err (en_world e), Some (mkDatabase handle uri n)).
Proof.
  cbv zeta. unfold SqliteDatabaseInit. destruct (Z.eqb_spec handle 0) as [->|Hh].
  2:{ destruct (fail_exit (A := unit) ADBC_STATUS_INVALID_STATE
        "AdbcDatabaseInit: database already initialized" [] (e, Some (mkDatabase handle uri n)))
        as [err He].
      exists err. erewrite bind_ret by done. cbn [db_db].
      rewrite (proj2 (Z.eqb_neq _ _) Hh). cbn [negb]. exact He. }
  destruct (sqlite3_open_v2 (uri_text uri) open_flags (w_db (en_world e))) as [[rc db] d] eqn:Hopen.
  assert ((match uri with CNull => mret kDefaultUri | p => deref p end) e = Ret (uri_text uri) e)
    as Hu by (by destruct uri).
  destruct (rc =? SQLITE_OK) eqn:Hrc.
  - assert (OpenDatabase uri e = Ret db (env_set_db d e)) as Ho.
    { unfold OpenDatabase. erewrite bind_ret by exact Hu.
      erewrite bind_ret; [|apply call_run; exact Hopen]. cbn iota beta.
      by rewrite Hrc. }
    erewrite bind_ret by done. change (negb (db_db (mkDatabase 0 uri n) =? 0)) with false. cbn iota.
    erewrite bind_ret; [|unfold zoom; simpl; by rewrite Ho]. done.
  - destruct (open_failed uri rc db d e Hu Hopen Hrc) as [err He]. exists err.
    erewrite bind_ret by done. change (negb (db_db (mkDatabase 0 uri n) =? 0)) with false. cbn iota.
    apply bind_exit. unfold zoom. simpl. by rewrite He.
Qed.
End databases.

Section witnesses.
#[local] Existing Instance host.
#[local] Existing Instance Mock.mock.
Definition query_env (rows : list (list Mock.value)) : Env :=
  mkEnv (Some zero_error) (Mock.world_of [("COMMIT"%string, (["x"%string], 0, rows))]).

(** A new statement after a query was set and then an ingestion target. *)
Definition target_call : statement_call := CallSetOption ADBC_INGEST_OPTION_TARGET_TABLE "t".
Definition example_statement : SqliteStatement :=
  mkStatement 1 0 false CNull 9 zero_binder (CStr "t") false 1024.
Lemma example_reachable : reachable (query_env [], Some example_statement).
Proof.
  eapply (reach_call target_call (query_env [], Some (mkStatement 1 0 false (CStr "SELECT 1") 9
    zero_binder CNull false 1024))); [|reflexivity].
  eapply (reach_call (CallSetSqlQuery "SELECT 1") (query_env [], Some (mkStatement 1 0 false CNull 0
    zero_binder CNull false 1024))); [|reflexivity].
  exact (reach_new ((query_env []), Some (mkConnection 1 false)) None
    ((query_env [], Some (mkConnection 1 false)), Some (mkStatement 1 0 false CNull 0 zero_binder
      CNull false 1024)) eq_refl).
Defined.
Lemma reachable_statement_ok_witness : statement_ok example_statement.
Proof. apply (reachable_statement_ok (query_env [], Some example_statement)).
  - exact example_reachable.
  - reflexivity.
Defined.

Lemma ExecuteQuery_runs_witness :
  exists d, ExecuteQuery 5 1 "COMMIT" (query_env [[Mock.VInteger 1]; [Mock.VNull]]) =
    Ret tt (env_set_db d (query_env [[Mock.VInteger 1]; [Mock.VNull]])).
Proof.
  eexists.
  refine (ExecuteQuery_runs 5 3 1 SQLITE_OK 1 SQLITE_DONE SQLITE_OK "COMMIT"
    (query_env [[Mock.VInteger 1]; [Mock.VNull]]) _ _ _ _ _ _ _); [reflexivity| |lia|reflexivity].
  eapply steps_more; [discriminate|discriminate|reflexivity|].
  eapply steps_more; [discriminate|discriminate|reflexivity|].
  eapply steps_more; [discriminate|discriminate|reflexivity|].
  eapply steps_stop. by left.
Defined.

Lemma autocommit_before_init_hangs_witness :
  SqliteConnectionSetOption 100 ADBC_CONNECTION_OPTION_AUTOCOMMIT ADBC_OPTION_VALUE_DISABLED
    (query_env [], Some (mkConnection 0 false)) = NoFuel.
Proof. apply (@autocommit_before_init_hangs host Mock.mock Mock.mock_null). Defined.

Definition busy_env : Env := mkEnv None (mkWorld (Mock.mkState [] [] 1 [1] []) 0 0).
Lemma busy_release_frees_twice_witness :
  exists s', SqliteDatabaseRelease (busy_env, Some (mkDatabase 1 (CStr "file:x") 0)) =
      Exit ADBC_STATUS_IO s' /\
    SqliteDatabaseRelease s' = Undef /\ SqliteDatabaseSetOption "uri" "y" s' = Undef.
Proof.
  refine (busy_release_frees_twice busy_env 1 0 0 "file:x" "y" _ _ _); [discriminate|reflexivity].
Defined.

Lemma DatabaseInit_opens_witness :
  SqliteDatabaseInit (busy_env, Some (mkDatabase 0 CNull 0)) =
    Ret tt (env_set_db (Mock.mkState [] [] 2 [1] []) busy_env, Some (mkDatabase 2 CNull 0)).
Proof. refine (DatabaseInit_opens busy_env 0 0 CNull _). discriminate. Defined.
End witnesses.
