(* ===== verification/Objects.v ===== *)
(** Catalog data of the SQLite driver (c/driver/sqlite/sqlite.c): [GetInfo], [GetObjects],
    [GetTableSchema], [GetTableTypes]; each builds a one-batch stream. *)
From stdpp Require Import base tactics list numbers option strings.
From Stdlib Require Import ZArith Lia Ascii.
From S2P Require Import Prelude CLib Schema SchemaView Array ArrayView Adbc Utils Sqlite3 Binder.
From S2P Require Import Infer Reader Connection.

Definition sqlite_c : string := "sqlite.c".
Definition NANOARROW_VERSION : string := "0.1.0-SNAPSHOT".
Definition kSupportedInfoCodes : list Z :=
  [ADBC_INFO_VENDOR_NAME; ADBC_INFO_VENDOR_VERSION; ADBC_INFO_DRIVER_NAME;
   ADBC_INFO_DRIVER_VERSION; ADBC_INFO_DRIVER_ARROW_VERSION].
(** A string literal inside the text of an expression. *)
Definition quoted (s : string) : string := quote +:+ s +:+ quote.

(** The state of a call: the schema and the array that are built, the local [na_error]. *)
Record OS `{Sqlite3} := mkOS {
  os_env : Env;
  os_schema : ArrowSchema;
  os_array : ArrowArray;
  os_na_error : ArrowError;
}.
Arguments mkOS {_} os_env os_schema os_array os_na_error.

Section objects.
  Context `{Libc} `{Sqlite3}.

Definition os_env_lens : Lens OS Env :=
  mkLens os_env (fun e s => mkOS e (os_schema s) (os_array s) (os_na_error s)).
#[export] Instance HasError_OS : HasError OS := lens_comp os_env_lens error_lens.
#[export] Instance HasWorld_OS : HasWorld OS := lens_comp os_env_lens world_lens.
Definition os_schema_lens : Lens OS ArrowSchema :=
  mkLens os_schema (fun x s => mkOS (os_env s) x (os_array s) (os_na_error s)).
Definition os_array_lens : Lens OS ArrowArray :=
  mkLens os_array (fun x s => mkOS (os_env s) (os_schema s) x (os_na_error s)).
(** An array and [&na_error]. *)
Definition os_ae_lens : Lens OS AE :=
  mkLens (fun s => (os_array s, os_na_error s)) (fun x s => mkOS (os_env s) (os_schema s) x.1 x.2).

(** Code on the part of the schema, or of the array, that a pointer points at. *)
Definition on_schema (path : list Z) (m : M ArrowSchema unit) : M OS unit :=
  zoom os_schema_lens (on_path path m).
Definition on_array (path : list Z) (m : M ArrowArray unit) : M OS unit :=
  zoom os_array_lens (on_array_path path m).
(** [CHECK_NA(INTERNAL, ..., error)] *)
Definition check_schema (line : Z) (expr : string) (path : list Z) (m : M ArrowSchema unit)
    : M OS unit :=
  CHECK_NA ADBC_STATUS_INTERNAL sqlite_c line expr (on_schema path m).
Definition check_array (line : Z) (expr : string) (path : list Z) (m : M ArrowArray unit)
    : M OS unit :=
  CHECK_NA ADBC_STATUS_INTERNAL sqlite_c line expr (on_array path m).
Definition check_null (line : Z) (name : string) (path : list Z) : M OS unit :=
  check_array line ("ArrowArrayAppendNull(" +:+ name +:+ ", 1)") path (ArrowArrayAppendNull 1).
Definition check_finish (line : Z) (name : string) (path : list Z) : M OS unit :=
  check_array line ("ArrowArrayFinishElement(" +:+ name +:+ ")") path ArrowArrayFinishElement.
(** [ArrowArrayAppendString(name, value)], [value] written as [text] in the source. *)
Definition check_string (line : Z) (name text : string) (path : list Z) (value : string)
    : M OS unit :=
  check_array line ("ArrowArrayAppendString(" +:+ name +:+ ", " +:+ text +:+ ")") path
    (ArrowArrayAppendString value).
Definition char_view (value : string) : string := "ArrowCharView(" +:+ quoted value +:+ ")".
(** [CHECK_NA_DETAIL(INTERNAL, ..., &na_error, error)] *)
Definition check_detail (line : Z) (expr : string) (m : M AE unit) : M OS unit :=
  CHECK_NA_DETAIL ADBC_STATUS_INTERNAL sqlite_c line expr
    (fun s => default ""%string (os_na_error s)) (zoom os_ae_lens m).
Definition init_array (line : Z) : M OS unit :=
  schema ← gets os_schema;
  check_detail line "ArrowArrayInitFromSchema(array, schema, &na_error)"
    (ArrowArrayInitFromSchema schema).
Definition RAISE_OK (line : Z) (conn rc : Z) : M OS unit :=
  msg ← errmsg conn;
  RAISE ADBC_STATUS_INTERNAL sqlite_c line "rc == SQLITE_OK" (rc =? SQLITE_OK) msg.

(** * GetInfo *)
(** The schema of [GetInfo]. *)
Definition get_info_schema : M OS unit :=
  on_schema [] ArrowSchemaInit ;;
  check_schema 259 "ArrowSchemaSetTypeStruct(schema, 2)" []
    (ArrowSchemaSetTypeStruct 2) ;;
  check_schema 261 "ArrowSchemaSetType(schema->children[0], NANOARROW_TYPE_UINT32)" [0]
    (ArrowSchemaSetType TYPE_UINT32) ;;
  check_schema 263 ("ArrowSchemaSetName(schema->children[0], " +:+ quoted "info_name" +:+ ")") [0]
    (ArrowSchemaSetName (Some "info_name"%string)) ;;
  on_schema [0] set_not_nullable ;;
  check_schema 267 "ArrowSchemaSetTypeUnion(info_value, NANOARROW_TYPE_DENSE_UNION, 6)" [1]
    (ArrowSchemaSetTypeUnion TYPE_DENSE_UNION 6) ;;
  check_schema 269 ("ArrowSchemaSetName(info_value, " +:+ quoted "info_value" +:+ ")") [1]
    (ArrowSchemaSetName (Some "info_value"%string)) ;;
  check_schema 271 "ArrowSchemaSetType(info_value->children[0], NANOARROW_TYPE_STRING)" [1; 0]
    (ArrowSchemaSetType TYPE_STRING) ;;
  check_schema 273 ("ArrowSchemaSetName(info_value->children[0], " +:+ quoted "string_value" +:+ ")") [1; 0]
    (ArrowSchemaSetName (Some "string_value"%string)) ;;
  check_schema 274 "ArrowSchemaSetType(info_value->children[1], NANOARROW_TYPE_BOOL)" [1; 1]
    (ArrowSchemaSetType TYPE_BOOL) ;;
  check_schema 276 ("ArrowSchemaSetName(info_value->children[1], " +:+ quoted "bool_value" +:+ ")") [1; 1]
    (ArrowSchemaSetName (Some "bool_value"%string)) ;;
  check_schema 277 "ArrowSchemaSetType(info_value->children[2], NANOARROW_TYPE_INT64)" [1; 2]
    (ArrowSchemaSetType TYPE_INT64) ;;
  check_schema 279 ("ArrowSchemaSetName(info_value->children[2], " +:+ quoted "int64_value" +:+ ")") [1; 2]
    (ArrowSchemaSetName (Some "int64_value"%string)) ;;
  check_schema 280 "ArrowSchemaSetType(info_value->children[3], NANOARROW_TYPE_INT32)" [1; 3]
    (ArrowSchemaSetType TYPE_INT32) ;;
  check_schema 282 ("ArrowSchemaSetName(info_value->children[3], " +:+ quoted "int32_bitmask" +:+ ")") [1; 3]
    (ArrowSchemaSetName (Some "int32_bitmask"%string)) ;;
  check_schema 283 "ArrowSchemaSetType(info_value->children[4], NANOARROW_TYPE_LIST)" [1; 4]
    (ArrowSchemaSetType TYPE_LIST) ;;
  check_schema 285 ("ArrowSchemaSetName(info_value->children[4], " +:+ quoted "string_list" +:+ ")") [1; 4]
    (ArrowSchemaSetName (Some "string_list"%string)) ;;
  check_schema 286 "ArrowSchemaSetType(info_value->children[5], NANOARROW_TYPE_MAP)" [1; 5]
    (ArrowSchemaSetType TYPE_MAP) ;;
  check_schema 288 ("ArrowSchemaSetName(info_value->children[5], " +:+ quoted "int32_to_int32_list_map" +:+ ")") [1; 5]
    (ArrowSchemaSetName (Some "int32_to_int32_list_map"%string)) ;;
  check_schema 291 "ArrowSchemaSetType(info_value->children[4]->children[0], NANOARROW_TYPE_STRING)" [1; 4; 0]
    (ArrowSchemaSetType TYPE_STRING) ;;
  check_schema 296 "ArrowSchemaSetType(info_value->children[5]->children[0]->children[0], NANOARROW_TYPE_INT32)" [1; 5; 0; 0]
    (ArrowSchemaSetType TYPE_INT32) ;;
  on_schema [1; 5; 0; 0] set_not_nullable ;;
  check_schema 301 "ArrowSchemaSetType(info_value->children[5]->children[0]->children[1], NANOARROW_TYPE_LIST)" [1; 5; 0; 1]
    (ArrowSchemaSetType TYPE_LIST) ;;
  check_schema 305 "ArrowSchemaSetType(info_value->children[5]->children[0]->children[1]->children[0], NANOARROW_TYPE_INT32)" [1; 5; 0; 1; 0]
    (ArrowSchemaSetType TYPE_INT32).


(** The schema of [GetObjects], in four parts. *)
Definition objects_table_schema : M OS unit :=
  on_schema [] ArrowSchemaInit ;;
  check_schema 381 "ArrowSchemaSetTypeStruct(schema, 2)" []
    (ArrowSchemaSetTypeStruct 2) ;;
  check_schema 382 "ArrowSchemaSetType(schema->children[0], NANOARROW_TYPE_STRING)" [0]
    (ArrowSchemaSetType TYPE_STRING) ;;
  check_schema 384 ("ArrowSchemaSetName(schema->children[0], " +:+ quoted "catalog_name" +:+ ")") [0]
    (ArrowSchemaSetName (Some "catalog_name"%string)) ;;
  check_schema 385 "ArrowSchemaSetType(schema->children[1], NANOARROW_TYPE_LIST)" [1]
    (ArrowSchemaSetType TYPE_LIST) ;;
  check_schema 386 ("ArrowSchemaSetName(schema->children[1], " +:+ quoted "catalog_db_schemas" +:+ ")") [1]
    (ArrowSchemaSetName (Some "catalog_db_schemas"%string)) ;;
  check_schema 388 "ArrowSchemaSetTypeStruct(schema->children[1]->children[0], 2)" [1; 0]
    (ArrowSchemaSetTypeStruct 2) ;;
  check_schema 392 "ArrowSchemaSetType(db_schema_schema->children[0], NANOARROW_TYPE_STRING)" [1; 0; 0]
    (ArrowSchemaSetType TYPE_STRING) ;;
  check_schema 395 ("ArrowSchemaSetName(db_schema_schema->children[0], " +:+ quoted "db_schema_name" +:+ ")") [1; 0; 0]
    (ArrowSchemaSetName (Some "db_schema_name"%string)) ;;
  check_schema 397 "ArrowSchemaSetType(db_schema_schema->children[1], NANOARROW_TYPE_LIST)" [1; 0; 1]
    (ArrowSchemaSetType TYPE_LIST) ;;
  check_schema 399 ("ArrowSchemaSetName(db_schema_schema->children[1], " +:+ quoted "db_schema_tables" +:+ ")") [1; 0; 1]
    (ArrowSchemaSetName (Some "db_schema_tables"%string)) ;;
  check_schema 401 "ArrowSchemaSetTypeStruct(db_schema_schema->children[1]->children[0], 4)" [1; 0; 1; 0]
    (ArrowSchemaSetTypeStruct 4) ;;
  check_schema 406 "ArrowSchemaSetType(table_schema->children[0], NANOARROW_TYPE_STRING)" [1; 0; 1; 0; 0]
    (ArrowSchemaSetType TYPE_STRING) ;;
  check_schema 408 ("ArrowSchemaSetName(table_schema->children[0], " +:+ quoted "table_name" +:+ ")") [1; 0; 1; 0; 0]
    (ArrowSchemaSetName (Some "table_name"%string)) ;;
  on_schema [1; 0; 1; 0; 0] set_not_nullable ;;
  check_schema 410 "ArrowSchemaSetType(table_schema->children[1], NANOARROW_TYPE_STRING)" [1; 0; 1; 0; 1]
    (ArrowSchemaSetType TYPE_STRING) ;;
  check_schema 412 ("ArrowSchemaSetName(table_schema->children[1], " +:+ quoted "table_type" +:+ ")") [1; 0; 1; 0; 1]
    (ArrowSchemaSetName (Some "table_type"%string)) ;;
  on_schema [1; 0; 1; 0; 1] set_not_nullable ;;
  check_schema 414 "ArrowSchemaSetType(table_schema->children[2], NANOARROW_TYPE_LIST)" [1; 0; 1; 0; 2]
    (ArrowSchemaSetType TYPE_LIST) ;;
  check_schema 416 ("ArrowSchemaSetName(table_schema->children[2], " +:+ quoted "table_columns" +:+ ")") [1; 0; 1; 0; 2]
    (ArrowSchemaSetName (Some "table_columns"%string)) ;;
  check_schema 418 "ArrowSchemaSetTypeStruct(table_schema->children[2]->children[0], 19)" [1; 0; 1; 0; 2; 0]
    (ArrowSchemaSetTypeStruct 19) ;;
  check_schema 420 "ArrowSchemaSetType(table_schema->children[3], NANOARROW_TYPE_LIST)" [1; 0; 1; 0; 3]
    (ArrowSchemaSetType TYPE_LIST) ;;
  check_schema 422 ("ArrowSchemaSetName(table_schema->children[3], " +:+ quoted "table_constraints" +:+ ")") [1; 0; 1; 0; 3]
    (ArrowSchemaSetName (Some "table_constraints"%string)) ;;
  check_schema 424 "ArrowSchemaSetTypeStruct(table_schema->children[3]->children[0], 4)" [1; 0; 1; 0; 3; 0]
    (ArrowSchemaSetTypeStruct 4).

Definition objects_column_schema : M OS unit :=
  check_schema 428 "ArrowSchemaSetType(column_schema->children[0], NANOARROW_TYPE_STRING)" [1; 0; 1; 0; 2; 0; 0]
    (ArrowSchemaSetType TYPE_STRING) ;;
  check_schema 430 ("ArrowSchemaSetName(column_schema->children[0], " +:+ quoted "column_name" +:+ ")") [1; 0; 1; 0; 2; 0; 0]
    (ArrowSchemaSetName (Some "column_name"%string)) ;;
  on_schema [1; 0; 1; 0; 2; 0; 0] set_not_nullable ;;
  check_schema 433 "ArrowSchemaSetType(column_schema->children[1], NANOARROW_TYPE_INT32)" [1; 0; 1; 0; 2; 0; 1]
    (ArrowSchemaSetType TYPE_INT32) ;;
  check_schema 435 ("ArrowSchemaSetName(column_schema->children[1], " +:+ quoted "ordinal_position" +:+ ")") [1; 0; 1; 0; 2; 0; 1]
    (ArrowSchemaSetName (Some "ordinal_position"%string)) ;;
  check_schema 437 "ArrowSchemaSetType(column_schema->children[2], NANOARROW_TYPE_STRING)" [1; 0; 1; 0; 2; 0; 2]
    (ArrowSchemaSetType TYPE_STRING) ;;
  check_schema 439 ("ArrowSchemaSetName(column_schema->children[2], " +:+ quoted "remarks" +:+ ")") [1; 0; 1; 0; 2; 0; 2]
    (ArrowSchemaSetName (Some "remarks"%string)) ;;
  check_schema 440 "ArrowSchemaSetType(column_schema->children[3], NANOARROW_TYPE_INT16)" [1; 0; 1; 0; 2; 0; 3]
    (ArrowSchemaSetType TYPE_INT16) ;;
  check_schema 442 ("ArrowSchemaSetName(column_schema->children[3], " +:+ quoted "xdbc_data_type" +:+ ")") [1; 0; 1; 0; 2; 0; 3]
    (ArrowSchemaSetName (Some "xdbc_data_type"%string)) ;;
  check_schema 444 "ArrowSchemaSetType(column_schema->children[4], NANOARROW_TYPE_STRING)" [1; 0; 1; 0; 2; 0; 4]
    (ArrowSchemaSetType TYPE_STRING) ;;
  check_schema 446 ("ArrowSchemaSetName(column_schema->children[4], " +:+ quoted "xdbc_type_name" +:+ ")") [1; 0; 1; 0; 2; 0; 4]
    (ArrowSchemaSetName (Some "xdbc_type_name"%string)) ;;
  check_schema 448 "ArrowSchemaSetType(column_schema->children[5], NANOARROW_TYPE_INT32)" [1; 0; 1; 0; 2; 0; 5]
    (ArrowSchemaSetType TYPE_INT32) ;;
  check_schema 450 ("ArrowSchemaSetName(column_schema->children[5], " +:+ quoted "xdbc_column_size" +:+ ")") [1; 0; 1; 0; 2; 0; 5]
    (ArrowSchemaSetName (Some "xdbc_column_size"%string)) ;;
  check_schema 452 "ArrowSchemaSetType(column_schema->children[6], NANOARROW_TYPE_INT16)" [1; 0; 1; 0; 2; 0; 6]
    (ArrowSchemaSetType TYPE_INT16) ;;
  check_schema 454 ("ArrowSchemaSetName(column_schema->children[6], " +:+ quoted "xdbc_decimal_digits" +:+ ")") [1; 0; 1; 0; 2; 0; 6]
    (ArrowSchemaSetName (Some "xdbc_decimal_digits"%string)) ;;
  check_schema 456 "ArrowSchemaSetType(column_schema->children[7], NANOARROW_TYPE_INT16)" [1; 0; 1; 0; 2; 0; 7]
    (ArrowSchemaSetType TYPE_INT16) ;;
  check_schema 458 ("ArrowSchemaSetName(column_schema->children[7], " +:+ quoted "xdbc_num_prec_radix" +:+ ")") [1; 0; 1; 0; 2; 0; 7]
    (ArrowSchemaSetName (Some "xdbc_num_prec_radix"%string)) ;;
  check_schema 460 "ArrowSchemaSetType(column_schema->children[8], NANOARROW_TYPE_INT16)" [1; 0; 1; 0; 2; 0; 8]
    (ArrowSchemaSetType TYPE_INT16) ;;
  check_schema 462 ("ArrowSchemaSetName(column_schema->children[8], " +:+ quoted "xdbc_nullable" +:+ ")") [1; 0; 1; 0; 2; 0; 8]
    (ArrowSchemaSetName (Some "xdbc_nullable"%string)) ;;
  check_schema 464 "ArrowSchemaSetType(column_schema->children[9], NANOARROW_TYPE_STRING)" [1; 0; 1; 0; 2; 0; 9]
    (ArrowSchemaSetType TYPE_STRING) ;;
  check_schema 466 ("ArrowSchemaSetName(column_schema->children[9], " +:+ quoted "xdbc_column_def" +:+ ")") [1; 0; 1; 0; 2; 0; 9]
    (ArrowSchemaSetName (Some "xdbc_column_def"%string)) ;;
  check_schema 468 "ArrowSchemaSetType(column_schema->children[10], NANOARROW_TYPE_INT16)" [1; 0; 1; 0; 2; 0; 10]
    (ArrowSchemaSetType TYPE_INT16) ;;
  check_schema 470 ("ArrowSchemaSetName(column_schema->children[10], " +:+ quoted "xdbc_sql_data_type" +:+ ")") [1; 0; 1; 0; 2; 0; 10]
    (ArrowSchemaSetName (Some "xdbc_sql_data_type"%string)) ;;
  check_schema 472 "ArrowSchemaSetType(column_schema->children[11], NANOARROW_TYPE_INT16)" [1; 0; 1; 0; 2; 0; 11]
    (ArrowSchemaSetType TYPE_INT16) ;;
  check_schema 474 ("ArrowSchemaSetName(column_schema->children[11], " +:+ quoted "xdbc_datetime_sub" +:+ ")") [1; 0; 1; 0; 2; 0; 11]
    (ArrowSchemaSetName (Some "xdbc_datetime_sub"%string)) ;;
  check_schema 476 "ArrowSchemaSetType(column_schema->children[12], NANOARROW_TYPE_INT32)" [1; 0; 1; 0; 2; 0; 12]
    (ArrowSchemaSetType TYPE_INT32) ;;
  check_schema 478 ("ArrowSchemaSetName(column_schema->children[12], " +:+ quoted "xdbc_char_octet_length" +:+ ")") [1; 0; 1; 0; 2; 0; 12]
    (ArrowSchemaSetName (Some "xdbc_char_octet_length"%string)) ;;
  check_schema 481 "ArrowSchemaSetType(column_schema->children[13], NANOARROW_TYPE_STRING)" [1; 0; 1; 0; 2; 0; 13]
    (ArrowSchemaSetType TYPE_STRING) ;;
  check_schema 483 ("ArrowSchemaSetName(column_schema->children[13], " +:+ quoted "xdbc_is_nullable" +:+ ")") [1; 0; 1; 0; 2; 0; 13]
    (ArrowSchemaSetName (Some "xdbc_is_nullable"%string)) ;;
  check_schema 485 "ArrowSchemaSetType(column_schema->children[14], NANOARROW_TYPE_STRING)" [1; 0; 1; 0; 2; 0; 14]
    (ArrowSchemaSetType TYPE_STRING) ;;
  check_schema 487 ("ArrowSchemaSetName(column_schema->children[14], " +:+ quoted "xdbc_scope_catalog" +:+ ")") [1; 0; 1; 0; 2; 0; 14]
    (ArrowSchemaSetName (Some "xdbc_scope_catalog"%string)) ;;
  check_schema 489 "ArrowSchemaSetType(column_schema->children[15], NANOARROW_TYPE_STRING)" [1; 0; 1; 0; 2; 0; 15]
    (ArrowSchemaSetType TYPE_STRING) ;;
  check_schema 491 ("ArrowSchemaSetName(column_schema->children[15], " +:+ quoted "xdbc_scope_schema" +:+ ")") [1; 0; 1; 0; 2; 0; 15]
    (ArrowSchemaSetName (Some "xdbc_scope_schema"%string)) ;;
  check_schema 493 "ArrowSchemaSetType(column_schema->children[16], NANOARROW_TYPE_STRING)" [1; 0; 1; 0; 2; 0; 16]
    (ArrowSchemaSetType TYPE_STRING) ;;
  check_schema 495 ("ArrowSchemaSetName(column_schema->children[16], " +:+ quoted "xdbc_scope_table" +:+ ")") [1; 0; 1; 0; 2; 0; 16]
    (ArrowSchemaSetName (Some "xdbc_scope_table"%string)) ;;
  check_schema 497 "ArrowSchemaSetType(column_schema->children[17], NANOARROW_TYPE_BOOL)" [1; 0; 1; 0; 2; 0; 17]
    (ArrowSchemaSetType TYPE_BOOL) ;;
  check_schema 499 ("ArrowSchemaSetName(column_schema->children[17], " +:+ quoted "xdbc_is_autoincrement" +:+ ")") [1; 0; 1; 0; 2; 0; 17]
    (ArrowSchemaSetName (Some "xdbc_is_autoincrement"%string)) ;;
  check_schema 502 "ArrowSchemaSetType(column_schema->children[18], NANOARROW_TYPE_BOOL)" [1; 0; 1; 0; 2; 0; 18]
    (ArrowSchemaSetType TYPE_BOOL) ;;
  check_schema 504 ("ArrowSchemaSetName(column_schema->children[18], " +:+ quoted "xdbc_is_generatedcolumn" +:+ ")") [1; 0; 1; 0; 2; 0; 18]
    (ArrowSchemaSetName (Some "xdbc_is_generatedcolumn"%string)).

Definition objects_constraint_schema : M OS unit :=
  check_schema 509 "ArrowSchemaSetType(constraint_schema->children[0], NANOARROW_TYPE_STRING)" [1; 0; 1; 0; 3; 0; 0]
    (ArrowSchemaSetType TYPE_STRING) ;;
  check_schema 512 ("ArrowSchemaSetName(constraint_schema->children[0], " +:+ quoted "constraint_name" +:+ ")") [1; 0; 1; 0; 3; 0; 0]
    (ArrowSchemaSetName (Some "constraint_name"%string)) ;;
  check_schema 514 "ArrowSchemaSetType(constraint_schema->children[1], NANOARROW_TYPE_STRING)" [1; 0; 1; 0; 3; 0; 1]
    (ArrowSchemaSetType TYPE_STRING) ;;
  check_schema 517 ("ArrowSchemaSetName(constraint_schema->children[1], " +:+ quoted "constraint_type" +:+ ")") [1; 0; 1; 0; 3; 0; 1]
    (ArrowSchemaSetName (Some "constraint_type"%string)) ;;
  on_schema [1; 0; 1; 0; 3; 0; 1] set_not_nullable ;;
  check_schema 520 "ArrowSchemaSetType(constraint_schema->children[2], NANOARROW_TYPE_LIST)" [1; 0; 1; 0; 3; 0; 2]
    (ArrowSchemaSetType TYPE_LIST) ;;
  check_schema 523 ("ArrowSchemaSetName(constraint_schema->children[2], " +:+ quoted "constraint_column_names" +:+ ")") [1; 0; 1; 0; 3; 0; 2]
    (ArrowSchemaSetName (Some "constraint_column_names"%string)) ;;
  check_schema 526 "ArrowSchemaSetType(constraint_schema->children[2]->children[0], NANOARROW_TYPE_STRING)" [1; 0; 1; 0; 3; 0; 2; 0]
    (ArrowSchemaSetType TYPE_STRING) ;;
  on_schema [1; 0; 1; 0; 3; 0; 2] set_not_nullable ;;
  check_schema 531 "ArrowSchemaSetType(constraint_schema->children[3], NANOARROW_TYPE_LIST)" [1; 0; 1; 0; 3; 0; 3]
    (ArrowSchemaSetType TYPE_LIST) ;;
  check_schema 534 ("ArrowSchemaSetName(constraint_schema->children[3], " +:+ quoted "constraint_column_usage" +:+ ")") [1; 0; 1; 0; 3; 0; 3]
    (ArrowSchemaSetName (Some "constraint_column_usage"%string)) ;;
  check_schema 537 "ArrowSchemaSetTypeStruct(constraint_schema->children[3]->children[0], 4)" [1; 0; 1; 0; 3; 0; 3; 0]
    (ArrowSchemaSetTypeStruct 4).

Definition objects_usage_schema : M OS unit :=
  check_schema 542 "ArrowSchemaSetType(usage_schema->children[0], NANOARROW_TYPE_STRING)" [1; 0; 1; 0; 3; 0; 3; 0; 0]
    (ArrowSchemaSetType TYPE_STRING) ;;
  check_schema 544 ("ArrowSchemaSetName(usage_schema->children[0], " +:+ quoted "fk_catalog" +:+ ")") [1; 0; 1; 0; 3; 0; 3; 0; 0]
    (ArrowSchemaSetName (Some "fk_catalog"%string)) ;;
  check_schema 545 "ArrowSchemaSetType(usage_schema->children[1], NANOARROW_TYPE_STRING)" [1; 0; 1; 0; 3; 0; 3; 0; 1]
    (ArrowSchemaSetType TYPE_STRING) ;;
  check_schema 547 ("ArrowSchemaSetName(usage_schema->children[1], " +:+ quoted "fk_db_schema" +:+ ")") [1; 0; 1; 0; 3; 0; 3; 0; 1]
    (ArrowSchemaSetName (Some "fk_db_schema"%string)) ;;
  check_schema 549 "ArrowSchemaSetType(usage_schema->children[2], NANOARROW_TYPE_STRING)" [1; 0; 1; 0; 3; 0; 3; 0; 2]
    (ArrowSchemaSetType TYPE_STRING) ;;
  check_schema 551 ("ArrowSchemaSetName(usage_schema->children[2], " +:+ quoted "fk_table" +:+ ")") [1; 0; 1; 0; 3; 0; 3; 0; 2]
    (ArrowSchemaSetName (Some "fk_table"%string)) ;;
  on_schema [1; 0; 1; 0; 3; 0; 3; 0; 2] set_not_nullable ;;
  check_schema 553 "ArrowSchemaSetType(usage_schema->children[3], NANOARROW_TYPE_STRING)" [1; 0; 1; 0; 3; 0; 3; 0; 3]
    (ArrowSchemaSetType TYPE_STRING) ;;
  check_schema 555 ("ArrowSchemaSetName(usage_schema->children[3], " +:+ quoted "fk_column_name" +:+ ")") [1; 0; 1; 0; 3; 0; 3; 0; 3]
    (ArrowSchemaSetName (Some "fk_column_name"%string)) ;;
  on_schema [1; 0; 1; 0; 3; 0; 3; 0; 3] set_not_nullable.

Definition SqliteConnectionGetObjectsSchema : M OS unit :=
  objects_table_schema ;;
  objects_column_schema ;;
  objects_constraint_schema ;;
  objects_usage_schema.

(** * GetInfo: values *)
Definition SqliteConnectionGetInfoAppendStringImpl (info_code : Z) (info_value : string)
    : M OS unit :=
  check_array 242 "ArrowArrayAppendUInt(array->children[0], info_code)" [0]
    (ArrowArrayAppendUInt info_code) ;;
  check_string 245 "array->children[1]->children[0]" "value" [1; 0] info_value ;;
  check_array 248 "ArrowArrayFinishUnionElement(array->children[1], 0)" [1]
    (ArrowArrayFinishUnionElement 0).

(** The value of a code the driver knows. *)
Definition info_value (code : Z) : option string :=
  if code =? ADBC_INFO_VENDOR_NAME then Some "SQLite"%string
  else if code =? ADBC_INFO_VENDOR_VERSION then Some sqlite3_libversion
  else if code =? ADBC_INFO_DRIVER_NAME then Some "ADBC SQLite Driver"%string
  else if code =? ADBC_INFO_DRIVER_VERSION then Some "(unknown)"%string
  else if code =? ADBC_INFO_DRIVER_ARROW_VERSION then Some NANOARROW_VERSION
  else None.
Fixpoint append_info (codes : list Z) : M OS unit :=
  match codes with
  | [] => mret tt
  | code :: rest =>
      match info_value code with
      | Some v =>
          SqliteConnectionGetInfoAppendStringImpl code v ;; check_finish 343 "array" []
      | None => mret tt
      end ;;
      append_info rest
  end.
Definition SqliteConnectionGetInfoImpl (info_codes : list Z) : M OS unit :=
  get_info_schema ;;
  init_array 312 ;;
  check_array 314 "ArrowArrayStartAppending(array)" [] ArrowArrayStartAppending ;;
  append_info info_codes ;;
  check_detail 346 "ArrowArrayFinishBuilding(array, &na_error)" ArrowArrayFinishBuilding.

(** The common end of the catalog functions: release what was built, or export it. *)
Definition CatalogState : Type := ConnectionState * ReaderStream.
Definition build_batch (impl : M OS unit) : M CatalogState unit := fun p =>
  let s := mkOS p.1.1 zero_schema zero_array (Some ""%string) in
  let back (e : ErrorPtr) (o : OS) (out : ReaderStream) : CatalogState :=
    ((mkEnv e (en_world (os_env o)), p.1.2), out) in
  match impl s with
  | Ret _ o =>
      let b := mkBatchArgs (en_error (os_env o)) (os_array o) (os_schema o) p.2 in
      match BatchToArrayStream b with
      | Ret _ b => Ret tt (back (ba_error b) o (ba_stream b))
      | Exit c b => Exit c (back (ba_error b) o (ba_stream b))
      | Undef => Undef
      | NoFuel => NoFuel
      end
  | Exit c o => Exit c (back (en_error (os_env o)) o p.2)
  | Undef => Undef
  | NoFuel => NoFuel
  end.
(** [info_codes] is [None] for a null pointer. *)
Definition SqliteConnectionGetInfo (info_codes : option (list Z)) : M CatalogState unit :=
  _ ← zoom fst_lens (check_init "connection" "SqliteConnectionGetInfo" (gets snd));
  build_batch (SqliteConnectionGetInfoImpl (default kSupportedInfoCodes info_codes)).

(** * GetTableTypes *)
Definition SqliteConnectionGetTableTypesImpl : M OS unit :=
  on_schema [] ArrowSchemaInit ;;
  check_schema 1057 "ArrowSchemaSetType(schema, NANOARROW_TYPE_STRUCT)" []
    (ArrowSchemaSetType TYPE_STRUCT) ;;
  check_schema 1058 "ArrowSchemaAllocateChildren(schema, 1)" [] (ArrowSchemaAllocateChildren 1) ;;
  on_schema [0] ArrowSchemaInit ;;
  check_schema 1060 "ArrowSchemaSetType(schema->children[0], NANOARROW_TYPE_STRING)" [0]
    (ArrowSchemaSetType TYPE_STRING) ;;
  check_schema 1062 ("ArrowSchemaSetName(schema->children[0], " +:+ quoted "table_type" +:+ ")") [0]
    (ArrowSchemaSetName (Some "table_type"%string)) ;;
  on_schema [0] set_not_nullable ;;
  (* the error pointer is null *)
  schema ← gets os_schema;
  let without_error (m : M AE unit) : M OS unit :=
    zoom (mkLens (fun s => (os_array s, None))
            (fun x s => mkOS (os_env s) (os_schema s) x.1 (os_na_error s))) m in
  CHECK_NA ADBC_STATUS_INTERNAL sqlite_c 1065 "ArrowArrayInitFromSchema(array, schema, NULL)"
    (without_error (ArrowArrayInitFromSchema schema)) ;;
  check_array 1066 "ArrowArrayStartAppending(array)" [] ArrowArrayStartAppending ;;
  check_string 1068 "array->children[0]" (char_view "table") [0] "table" ;;
  check_finish 1070 "array" [] ;;
  check_string 1071 "array->children[0]" (char_view "view") [0] "view" ;;
  check_finish 1073 "array" [] ;;
  CHECK_NA ADBC_STATUS_INTERNAL sqlite_c 1075 "ArrowArrayFinishBuilding(array, NULL)"
    (without_error ArrowArrayFinishBuilding).
Definition SqliteConnectionGetTableTypes : M CatalogState unit :=
  _ ← zoom fst_lens (check_init "connection" "SqliteConnectionGetTableTypes" (gets snd));
  build_batch SqliteConnectionGetTableTypesImpl.

(** * GetTableSchema

    [None] stands for a null pointer; the value is what is written to [*schema]. *)
Definition nonempty (s : option string) : bool :=
  match s with Some s => 0 <? strlen s | None => false end.
(** The query text: the builder has 64 bytes. *)
Definition table_schema_query (table_name : string) : option string :=
  match append_all ["SELECT * FROM "%string; table_name] (StringBuilderInit 64) with
  | Ret _ b => Some (builder_text b)
  | _ => None
  end.
Definition SqliteConnectionGetTableSchema (catalog db_schema table_name : option string)
    : M (ConnectionState * ArrowSchema) unit :=
  conn ← zoom fst_lens (check_init "connection" "SqliteConnectionGetTableSchema" (gets snd));
  if nonempty catalog || nonempty db_schema then zoom snd_lens (put zero_schema) else
  match table_name with
  | None =>
      fail ADBC_STATUS_INVALID_ARGUMENT "AdbcConnectionGetTableSchema: must provide table_name" []
  | Some table_name =>
      query ← lift_opt (table_schema_query table_name);
      '(rc, stmt) ← zoom fst_lens (zoom fst_lens
        (call (sqlite3_prepare_v2 (cn_conn conn) query (strlen query))));
      if negb (rc =? SQLITE_OK) then
        msg ← zoom fst_lens (zoom fst_lens (errmsg (cn_conn conn)));
        fail ADBC_STATUS_INTERNAL "Failed to prepare query: %s" [AStr msg]
      else
      (fun s =>
         let env := s.1.1 in
         let back (r : RS) (schema : ArrowSchema) : ConnectionState * ArrowSchema :=
           ((mkEnv (bs_error (rs_env r)) (bs_world (rs_env r)), s.1.2), schema) in
         let cleanup (status : Z) (p : ConnectionState * ArrowSchema)
             : result (ConnectionState * ArrowSchema) unit :=
           (_ ← zoom fst_lens (zoom fst_lens (call (sqlite3_finalize stmt)));
            return_code status) p in
         match AdbcSqliteExportReader (cn_conn conn) stmt false 64
                 (mkRS (mkBS (en_error env) (en_world env) zero_binder) (new_reader 0 0 0)
                    zero_array) with
         | Ret _ r =>
             match StatementReaderGetSchema s.2 (StreamReader (rs_reader r), s.2) with
             | Ret _ (_, schema) => cleanup 0 (back r schema)
             | Exit code (_, schema) =>
                 (set_error "Failed to get schema: (%d) %s" [AInt code; AStr (strerror code)] ;;
                  cleanup ADBC_STATUS_IO : M _ unit) (back r schema)
             | Undef => Undef
             | NoFuel => NoFuel
             end
         | Exit c r => cleanup c (back r s.2)
         | Undef => Undef
         | NoFuel => NoFuel
         end) : M _ unit
  end.

(** * GetObjects: values *)
Definition kTableQuery : string :=
  "SELECT name, type FROM sqlite_master WHERE name LIKE ? AND type <> 'index'ORDER BY name ASC".
Definition kColumnQuery : string :=
  "SELECT cid, name, type, " +:+ quoted "notnull" +:+ ", dflt_value " +:+
  "FROM pragma_table_info(?) WHERE name LIKE ? ORDER BY cid ASC".
Definition kPrimaryKeyQuery : string :=
  "SELECT name FROM pragma_table_info(?) WHERE pk > 0 ORDER BY pk ASC".
Definition kForeignKeyQuery : string :=
  "SELECT id, seq, " +:+ quoted "table" +:+ ", " +:+ quoted "from" +:+ ", " +:+ quoted "to" +:+
  " FROM pragma_foreign_key_list(?) ORDER BY id, seq ASC".

(** [sqlite3_bind_text64(stmt, i, value, strlen(value), SQLITE_STATIC, SQLITE_UTF8)] *)
Definition bind_text64 (stmt i : Z) (value : string) : M OS Z :=
  call (sqlite3_bind stmt i (BindText (string_bytes value))).
(** [sqlite3_column_int]: the low 32 bits. *)
Definition column_int (stmt col : Z) : M OS Z :=
  v ← ask (sqlite3_column_int64 stmt col); mret (to_signed 32 v).
(** An [ArrowStringView] of [size] bytes at [data], which is undefined when the text is
    shorter. *)
Definition string_view (data : option (list Z)) (size : Z) : M OS string :=
  let bs := default [] data in
  if (0 <=? size) && (size <=? zlen bs) then mret (bytes_string (take (Z.to_nat size) bs))
  else undef.
(** The text of a column as a C string: [strcmp] and [strlen] of a null pointer are
    undefined. *)
Definition column_cstring (stmt col : Z) : M OS string :=
  t ← call (sqlite3_column_text stmt col); t ← lift_opt t; mret (bytes_string t).

(** [while ((rc = sqlite3_step(stmt)) == SQLITE_ROW)]: the code that ended the loop. *)
Fixpoint while_row (fuel : nat) (stmt : Z) (body : M OS unit) : M OS Z :=
  match fuel with
  | O => nofuel
  | S fuel' =>
      rc ← call (sqlite3_step stmt);
      if rc =? SQLITE_ROW then body ;; while_row fuel' stmt body else mret rc
  end.

(** A text column, or null where the text is. *)
Definition check_text_or_null (line1 line2 : Z) (name : string) (path : list Z) (stmt col : Z)
    : M OS unit :=
  t ← call (sqlite3_column_text stmt col);
  match t with
  | Some _ =>
      size ← ask (sqlite3_column_bytes stmt col);
      v ← string_view t size;
      check_string line1 name "str" path v
  | None => check_null line2 name path
  end.

(** [table_columns_col] is the path of the array. *)
Definition append_column_row (table_columns_col : list Z) (stmt : Z) : M OS unit :=
  let items := table_columns_col ++ [0] in
  let col i := items ++ [i] in
  t ← call (sqlite3_column_text stmt 1);
  size ← ask (sqlite3_column_bytes stmt 1);
  name ← string_view t size;
  check_string 625 "column_name_col" "str" (col 0) name ;;
  col_cid ← column_int stmt 0;
  ordinal ← i32 (col_cid + 1);
  check_array 628 "ArrowArrayAppendInt(ordinal_position_col, col_cid + 1)" (col 1)
    (ArrowArrayAppendInt ordinal) ;;
  check_null 629 "remarks_col" (col 2) ;;
  check_null 631 "xdbc_data_type_col" (col 3) ;;
  check_text_or_null 637 639 "xdbc_type_name_col" (col 4) stmt 2 ;;
  check_null 642 "xdbc_column_size_col" (col 5) ;;
  check_null 643 "xdbc_decimal_digits_col" (col 6) ;;
  check_null 644 "xdbc_num_prec_radix_col" (col 7) ;;
  col_notnull ← column_int stmt 3;
  (if col_notnull =? 0
   then check_array 649 "ArrowArrayAppendInt(xdbc_nullable_col, 1)" (col 8) (ArrowArrayAppendInt 1)
   else check_array 652 "ArrowArrayAppendInt(xdbc_nullable_col, 0)" (col 8)
          (ArrowArrayAppendInt 0)) ;;
  check_text_or_null 659 661 "xdbc_column_def_col" (col 9) stmt 4 ;;
  check_null 664 "xdbc_sql_data_type_col" (col 10) ;;
  check_null 665 "xdbc_datetime_sub_col" (col 11) ;;
  check_null 666 "xdbc_char_octet_length_col" (col 12) ;;
  check_string 675 "xdbc_is_nullable_col" "str" (col 13)
    (if col_notnull =? 0 then "YES"%string else "NO"%string) ;;
  check_null 677 "xdbc_scope_catalog_col" (col 14) ;;
  check_null 678 "xdbc_scope_schema_col" (col 15) ;;
  check_null 679 "xdbc_scope_table_col" (col 16) ;;
  check_null 680 "xdbc_is_autoincrement_col" (col 17) ;;
  check_null 681 "xdbc_is_generatedcolumn_col" (col 18) ;;
  check_finish 683 "table_columns_items" items.

(** The table's name is given to [strlen]; the code that ended the loop is not looked at. *)
Definition SqliteConnectionGetColumnsImpl (fuel : nat) (conn : Z) (table_name : option string)
    (column_name : option string) (table_columns_col : list Z) (stmt : Z) : M OS unit :=
  rc ← call (sqlite3_reset stmt);
  RAISE_OK 607 conn rc ;;
  table_name ← lift_opt table_name;
  rc ← bind_text64 stmt 1 table_name;
  RAISE_OK 611 conn rc ;;
  rc ← bind_text64 stmt 2 (default "%"%string column_name);
  RAISE_OK 619 conn rc ;;
  _ ← while_row fuel stmt (append_column_row table_columns_col stmt);
  mret tt.

(** The primary key's rows; the value is [has_primary_key]. *)
Fixpoint primary_key_rows (fuel : nat) (items : list Z) (pk_stmt : Z) (has_primary_key : bool)
    : M OS bool :=
  match fuel with
  | O => nofuel
  | S fuel' =>
      rc ← call (sqlite3_step pk_stmt);
      if negb (rc =? SQLITE_ROW) then mret has_primary_key else
      when (negb has_primary_key) (
        check_null 721 "constraint_name_col" (items ++ [0]) ;;
        check_string 722 "constraint_name_col" (char_view "PRIMARY KEY") (items ++ [0])
          "PRIMARY KEY") ;;
      t ← call (sqlite3_column_text pk_stmt 0);
      size ← ask (sqlite3_column_bytes pk_stmt 0);
      v ← string_view t size;
      check_string 726 " constraint_column_names_items"
        ("(struct ArrowStringView){.data = (const char*)sqlite3_column_text(pk_stmt, 0), " +:+
         ".size_bytes = sqlite3_column_bytes(pk_stmt, 0)}") (items ++ [2; 0]) v ;;
      primary_key_rows fuel' items pk_stmt true
  end.

(** The foreign keys' rows; the value is [prev_fk_id].  The sizes of the texts are those of
    the other statement's columns. *)
Fixpoint foreign_key_rows (fuel : nat) (items : list Z) (pk_stmt fk_stmt prev_fk_id : Z)
    : M OS Z :=
  match fuel with
  | O => nofuel
  | S fuel' =>
      rc ← call (sqlite3_step fk_stmt);
      if negb (rc =? SQLITE_ROW) then mret prev_fk_id else
      fk_id ← column_int fk_stmt 0;
      to_table ← call (sqlite3_column_text fk_stmt 2);
      from_col ← call (sqlite3_column_text fk_stmt 3);
      to_col ← call (sqlite3_column_text fk_stmt 4);
      let sized line name text path (data : option (list Z)) col : M OS unit :=
        size ← ask (sqlite3_column_bytes pk_stmt col);
        v ← string_view data size;
        check_string line name ("(struct ArrowStringView){ .data = " +:+ text +:+
          ", .size_bytes = sqlite3_column_bytes(pk_stmt, " +:+ fmt_Z col +:+ ")}") path v in
      when (negb (fk_id =? prev_fk_id)) (
        check_null 756 "constraint_name_col" (items ++ [0]) ;;
        check_string 757 "constraint_name_col" (char_view "FOREIGN KEY") (items ++ [0])
          "FOREIGN KEY" ;;
        when (negb (prev_fk_id =? -1)) (
          check_finish 762 "constraint_column_names_col" (items ++ [2]) ;;
          check_finish 763 "constraint_column_usage_col" (items ++ [3]) ;;
          check_finish 764 "table_constraints_items" items) ;;
        sized 768 " constraint_column_names_items"%string "from_col"%string (items ++ [2; 0])
          from_col 3 ;;
        check_string 774 "fk_catalog_col" (char_view "main") (items ++ [3; 0; 0]) "main" ;;
        check_null 776 "fk_db_schema_col" (items ++ [3; 0; 1]) ;;
        sized 777 " fk_table_col"%string "to_table"%string (items ++ [3; 0; 2]) to_table 2 ;;
        sized 783 " fk_column_name_col"%string "to_col"%string (items ++ [3; 0; 3]) to_col 4) ;;
      foreign_key_rows fuel' items pk_stmt fk_stmt fk_id
  end.

Definition SqliteConnectionGetConstraintsImpl (fuel : nat) (conn : Z) (table_name : option string)
    (table_constraints_col : list Z) (pk_stmt fk_stmt : Z) : M OS unit :=
  let items := table_constraints_col ++ [0] in
  rc ← call (sqlite3_reset pk_stmt);
  RAISE_OK 711 conn rc ;;
  table_name ← lift_opt table_name;
  rc ← bind_text64 pk_stmt 1 table_name;
  RAISE_OK 715 conn rc ;;
  has_primary_key ← primary_key_rows fuel items pk_stmt false;
  when has_primary_key (
    check_finish 735 "constraint_column_names_col" (items ++ [2]) ;;
    check_null 736 "constraint_column_usage_col" (items ++ [3]) ;;
    check_finish 737 "table_constraints_items" items) ;;
  rc ← call (sqlite3_reset fk_stmt);
  RAISE_OK 741 conn rc ;;
  rc ← bind_text64 fk_stmt 1 table_name;
  RAISE_OK 745 conn rc ;;
  prev_fk_id ← foreign_key_rows fuel items pk_stmt fk_stmt (-1);
  when (negb (prev_fk_id =? -1)) (
    check_finish 792 "constraint_column_names_col" (items ++ [2]) ;;
    check_finish 793 "constraint_column_usage_col" (items ++ [3]) ;;
    check_finish 794 "table_constraints_items" items).

(** The path of [db_schema_tables_col]. *)
Definition tables_col : list Z := [1; 0; 1].
(** One table; [table_type] is [None] for a null pointer.  [columns_stmt] is null unless
    columns were asked for. *)
Definition append_table_row (fuel : nat) (conn tables_stmt columns_stmt pk_stmt fk_stmt : Z)
    (table_type : option (list string)) (column_name : option string) : M OS unit :=
  let items := tables_col ++ [0] in
  t ← call (sqlite3_column_text tables_stmt 1);
  found ← match table_type with
          | None => mret true
          | Some [] => mret false
          | Some types => bs ← lift_opt t; mret (existsb (streq (bytes_string bs)) types)
          end;
  if negb found then mret tt else
  size ← ask (sqlite3_column_bytes tables_stmt 1);
  cur_table_type ← string_view t size;
  check_string 830 "table_type_col" "str" (items ++ [1]) cur_table_type ;;
  t ← call (sqlite3_column_text tables_stmt 0);
  size ← ask (sqlite3_column_bytes tables_stmt 0);
  name ← string_view t size;
  check_string 835 "table_name_col" "str" (items ++ [0]) name ;;
  (if columns_stmt =? 0 then
     check_null 838 "table_columns_col" (items ++ [2]) ;;
     check_null 839 "table_constraints_col" (items ++ [3])
   else
     let cur_table := bytes_string <$> t in
     SqliteConnectionGetColumnsImpl fuel conn cur_table column_name (items ++ [2]) columns_stmt ;;
     _ ← call (sqlite3_clear_bindings columns_stmt);
     check_finish 849 "table_columns_col" (items ++ [2]) ;;
     SqliteConnectionGetConstraintsImpl fuel conn cur_table (items ++ [3]) pk_stmt fk_stmt ;;
     _ ← call (sqlite3_clear_bindings pk_stmt);
     _ ← call (sqlite3_clear_bindings fk_stmt);
     check_finish 855 "table_constraints_col" (items ++ [3])) ;;
  check_finish 857 "db_schema_tables_items" items.

Definition SqliteConnectionGetTablesInner (fuel : nat)
    (conn tables_stmt columns_stmt pk_stmt fk_stmt : Z) (table_type : option (list string))
    (column_name : option string) : M OS unit :=
  rc ← while_row fuel tables_stmt
    (append_table_row fuel conn tables_stmt columns_stmt pk_stmt fk_stmt table_type column_name);
  if negb (rc =? SQLITE_DONE) then
    msg ← errmsg conn; fail ADBC_STATUS_INTERNAL "Failed to query for tables: %s" [AStr msg]
  else check_finish 864 "db_schema_tables_col" tables_col.

(** [if (rc == SQLITE_OK && cond) rc = sqlite3_prepare_v2(...)]: [rc] and the statement. *)
Definition prepare_if (cond : bool) (rc conn : Z) (query : string) : M OS (Z * Z) :=
  if (rc =? SQLITE_OK) && cond
  then call (sqlite3_prepare_v2 conn query (strlen query + 1)) else mret (rc, 0).
Definition SqliteConnectionGetTablesImpl (fuel : nat) (conn depth : Z)
    (table_name : option string) (table_type : option (list string))
    (column_name : option string) : M OS unit :=
  let columns := depth =? ADBC_OBJECT_DEPTH_COLUMNS in
  '(rc, tables_stmt) ← prepare_if true SQLITE_OK conn kTableQuery;
  '(rc, columns_stmt) ← prepare_if columns rc conn kColumnQuery;
  '(rc, pk_stmt) ← prepare_if columns rc conn kPrimaryKeyQuery;
  '(rc, fk_stmt) ← prepare_if columns rc conn kForeignKeyQuery;
  rc ← (if rc =? SQLITE_OK then bind_text64 tables_stmt 1 (default "%"%string table_name)
        else mret rc);
  status ← (if rc =? SQLITE_OK then
    catch (SqliteConnectionGetTablesInner fuel conn tables_stmt columns_stmt pk_stmt fk_stmt
             table_type column_name)
  else
    msg ← errmsg conn;
    set_error "Failed to query for tables: %s" [AStr msg] ;; mret ADBC_STATUS_INTERNAL);
  _ ← call (sqlite3_finalize tables_stmt);
  _ ← call (sqlite3_finalize columns_stmt);
  _ ← call (sqlite3_finalize pk_stmt);
  _ ← call (sqlite3_finalize fk_stmt);
  return_code status.

Definition SqliteConnectionGetObjectsImpl (fuel : nat) (conn depth : Z)
    (catalog db_schema table_name : option string) (table_type : option (list string))
    (column_name : option string) : M OS unit :=
  SqliteConnectionGetObjectsSchema ;;
  init_array 929 ;;
  check_array 931 "ArrowArrayStartAppending(array)" [] ArrowArrayStartAppending ;;
  when (match catalog with None => true | Some c => streq c "main" end) (
    check_string 948 "catalog_name_col" (char_view "main") [0] "main" ;;
    (if depth =? ADBC_OBJECT_DEPTH_CATALOGS then check_null 952 "catalog_db_schemas_col" [1]
     else match db_schema with
     | None =>
         check_null 956 "db_schema_name_col" [1; 0; 0] ;;
         (if depth =? ADBC_OBJECT_DEPTH_DB_SCHEMAS
          then check_null 958 "db_schema_tables_col" tables_col
          else SqliteConnectionGetTablesImpl fuel conn depth table_name table_type column_name) ;;
         check_finish 964 "catalog_db_schemas_items" [1; 0] ;;
         check_finish 965 "catalog_db_schemas_col" [1]
     | Some _ => check_finish 967 "catalog_db_schemas_col" [1]
     end) ;;
    check_finish 969 "array" []) ;;
  check_detail 974 "ArrowArrayFinishBuilding(array, &na_error)" ArrowArrayFinishBuilding.

Definition SqliteConnectionGetObjects (fuel : nat) (depth : Z)
    (catalog db_schema table_name : option string) (table_type : option (list string))
    (column_name : option string) : M CatalogState unit :=
  conn ← zoom fst_lens (check_init "connection" "SqliteConnectionGetObjects" (gets snd));
  build_batch (SqliteConnectionGetObjectsImpl fuel (cn_conn conn) depth catalog db_schema
                 table_name table_type column_name).
End objects.
