(* ===== verification/Catalog.v ===== *)
(** What the catalog functions of Objects.v produce: the schemas that adbc.h documents, the
    rows of shallow requests, and the limits of [GetTableSchema] and [GetObjects]. *)
From stdpp Require Import base tactics list numbers option strings.
From Stdlib Require Import ZArith Lia Ascii.
From S2P Require Import Prelude CLib Buffer Schema SchemaView Array ArrayView Adbc Utils Sqlite3.
From S2P Require Import Binder Infer Reader Connection Objects Frames.

(** * Documented schemas

    The tables of adbc.h, in a notation of their own. *)
Inductive ty :=
| Leaf (format : string)
| Struct (fields : list field)
| ListOf (item : ty)
| DenseUnion (members : list field)
| MapOf (key value : ty)
with field := Field (name : string) (nullable : bool) (type : ty).

Definition node (name : option string) (nullable : bool) (format : string) (children : list ArrowSchema)
    : ArrowSchema :=
  mkSchema (Some format) name None (if nullable then ARROW_FLAG_NULLABLE else 0)
    (zlen children) (match children with [] => None | _ => Some (map Some children) end) None true false.
(** [",0,1,...,n-1"] without the first comma. *)
Definition type_ids (n : nat) : string := String.concat "," (map (fun i => fmt_Z (Z.of_nat i)) (seq 0 n)).
Fixpoint schema_of (name : option string) (nullable : bool) (t : ty) : ArrowSchema :=
  let fields := fix fields (fs : list field) : list ArrowSchema :=
    match fs with
    | [] => []
    | Field n b t :: rest => schema_of (Some n) b t :: fields rest
    end in
  match t with
  | Leaf format => node name nullable format []
  | Struct fs => node name nullable "+s" (fields fs)
  | ListOf item => node name nullable "+l" [schema_of (Some "item"%string) true item]
  | DenseUnion ms => node name nullable ("+ud:" +:+ type_ids (length ms)) (fields ms)
  | MapOf k v =>
      node name nullable "+m"
        [node (Some "entries"%string) false "+s"
           [schema_of (Some "key"%string) false k; schema_of (Some "value"%string) true v]]
  end.

Definition utf8 := Leaf "u".
Definition bool_ := Leaf "b".
Definition int16 := Leaf "s".
Definition int32 := Leaf "i".
Definition int64 := Leaf "l".
Definition uint32 := Leaf "I".
Definition nullable name t := Field name true t.
Definition not_null name t := Field name false t.

(** adbc.h, AdbcConnectionGetInfo. *)
Definition INFO_SCHEMA : ty :=
  DenseUnion
    [nullable "string_value" utf8; nullable "bool_value" bool_; nullable "int64_value" int64;
     nullable "int32_bitmask" int32; nullable "string_list" (ListOf utf8);
     nullable "int32_to_int32_list_map" (MapOf int32 (ListOf int32))].
Definition GET_INFO : ty := Struct [not_null "info_name" uint32; nullable "info_value" INFO_SCHEMA].

(** adbc.h, AdbcConnectionGetObjects. *)
Definition USAGE_SCHEMA : ty :=
  Struct [nullable "fk_catalog" utf8; nullable "fk_db_schema" utf8; not_null "fk_table" utf8;
          not_null "fk_column_name" utf8].
Definition CONSTRAINT_SCHEMA : ty :=
  Struct [nullable "constraint_name" utf8; not_null "constraint_type" utf8;
          not_null "constraint_column_names" (ListOf utf8);
          nullable "constraint_column_usage" (ListOf USAGE_SCHEMA)].
Definition COLUMN_SCHEMA : ty :=
  Struct [not_null "column_name" utf8; nullable "ordinal_position" int32; nullable "remarks" utf8;
          nullable "xdbc_data_type" int16; nullable "xdbc_type_name" utf8;
          nullable "xdbc_column_size" int32; nullable "xdbc_decimal_digits" int16;
          nullable "xdbc_num_prec_radix" int16; nullable "xdbc_nullable" int16;
          nullable "xdbc_column_def" utf8; nullable "xdbc_sql_data_type" int16;
          nullable "xdbc_datetime_sub" int16; nullable "xdbc_char_octet_length" int32;
          nullable "xdbc_is_nullable" utf8; nullable "xdbc_scope_catalog" utf8;
          nullable "xdbc_scope_schema" utf8; nullable "xdbc_scope_table" utf8;
          nullable "xdbc_is_autoincrement" bool_; nullable "xdbc_is_generatedcolumn" bool_].
Definition TABLE_SCHEMA : ty :=
  Struct [not_null "table_name" utf8; not_null "table_type" utf8;
          nullable "table_columns" (ListOf COLUMN_SCHEMA);
          nullable "table_constraints" (ListOf CONSTRAINT_SCHEMA)].
Definition DB_SCHEMA_SCHEMA : ty :=
  Struct [nullable "db_schema_name" utf8; nullable "db_schema_tables" (ListOf TABLE_SCHEMA)].
Definition GET_OBJECTS : ty :=
  Struct [nullable "catalog_name" utf8; nullable "catalog_db_schemas" (ListOf DB_SCHEMA_SCHEMA)].

(** * Rows of a built array *)
Inductive row := Null | Text (s : string) | Items (rows : list row) | Fields (rows : list row) | Opaque.
Definition nth_block (a : ArrowArray) (i : nat) : list Z := default [] (mjoin (ar_buffers a !! i)).
Definition is_valid (a : ArrowArray) (i : Z) : bool :=
  match mjoin (ar_buffers a !! 0%nat) with
  | Some bits => Z.testbit (default 0 (bits !! Z.to_nat (i / 8))) (i mod 8)
  | None => true
  end.
Definition offset_of (a : ArrowArray) (i : Z) : Z :=
  le_sint (take 4 (drop (Z.to_nat (4 * i)) (nth_block a 1))).
Definition child_of (a : ArrowArray) (k : nat) : ArrowArray :=
  default zero_array (mjoin (default [] (ar_children a) !! k)).
(** Element [i] of an array, down to [depth] levels. *)
Fixpoint element (depth : nat) (t : ty) (a : ArrowArray) (i : Z) : row :=
  if negb (is_valid a i) then Null else
  match depth, t with
  | S depth, Leaf "u" =>
      let from := offset_of a i in
      Text (bytes_string (take (Z.to_nat (offset_of a (i + 1) - from)) (drop (Z.to_nat from) (nth_block a 2))))
  | S depth, ListOf t =>
      let from := offset_of a i in
      Items (map (fun j => element depth t (child_of a 0) (from + Z.of_nat j))
               (seq 0 (Z.to_nat (offset_of a (i + 1) - from))))
  | S depth, Struct fs =>
      Fields (map (fun k => match fs !! k with
                            | Some (Field _ _ t) => element depth t (child_of a k) i
                            | None => Opaque
                            end) (seq 0 (length fs)))
  | _, _ => Opaque
  end.
Definition rows_of (t : ty) (a : ArrowArray) : list row :=
  map (fun i => element 8 t a (Z.of_nat i)) (seq 0 (Z.to_nat (ar_length a))).
(** The rows a one-batch stream will give. *)
Definition stream_rows (t : ty) (s : ReaderStream) : option (list row) :=
  match s with StreamSingleBatch _ batch => Some (rows_of t batch) | _ => None end.

(** ** What adbc.h says about the filters

    A search pattern: "%" matches zero or more characters, "_" exactly one. *)
Fixpoint matches (pattern s : string) : bool :=
  match pattern with
  | "" => match s with "" => true | _ => false end
  | String c p =>
      if Ascii.eqb c "%" then
        (fix rest (s : string) : bool :=
           matches p s || match s with "" => false | String _ s' => rest s' end) s
      else match s with
           | "" => false
           | String d s' => (Ascii.eqb c "_" || Ascii.eqb c d) && matches p s'
           end
  end%string.
(** Whether a filter selects a catalog or a database schema of this name, [None] for one without
    a name: no filter selects all, the empty string those without a name, anything else is a
    pattern. *)
Definition selects (filter name : option string) : bool :=
  match filter, name with
  | None, _ => true
  | Some "", None => true
  | Some "", Some _ => false
  | Some pattern, Some n => matches pattern n
  | Some pattern, None => false
  end%string.
(** The rows above the tables: one catalog "main", and in it one schema without a name. *)
Definition documented_objects (depth : Z) (catalog db_schema : option string) : list row :=
  if selects catalog (Some "main"%string) then
    [Fields [Text "main";
             if depth =? ADBC_OBJECT_DEPTH_CATALOGS then Null
             else Items (if selects db_schema None then [Fields [Null; Null]] else [])]]
  else [].
(** The request reaches no table. *)
Definition above_tables (depth : Z) (catalog db_schema : option string) : Prop :=
  depth = ADBC_OBJECT_DEPTH_CATALOGS \/ depth = ADBC_OBJECT_DEPTH_DB_SCHEMAS \/
  selects catalog (Some "main"%string) = false \/ selects db_schema None = false.
(** A filter without the special characters. *)
Fixpoint literal (s : string) : bool :=
  match s with
  | "" => true
  | String c r => negb (Ascii.eqb c "%" || Ascii.eqb c "_") && literal r
  end%string.
Lemma matches_literal p s : literal p = true -> matches p s = String.eqb p s.
Proof.
  revert s. induction p as [|c p IH]; intros s; [by destruct s|]. simpl.
  intros [Hc Hp]%andb_prop. apply negb_true_iff, orb_false_iff in Hc as [-> ->]. simpl.
  destruct s as [|d s]; [done|]. rewrite (IH s Hp). by destruct (Ascii.eqb c d).
Qed.
Lemma selects_literal c name :
  literal c = true -> name <> ""%string -> selects (Some c) (Some name) = String.eqb c name.
Proof.
  intros Hc Hn. destruct c as [|x c]; [by destruct name|]. by apply matches_literal.
Qed.

(** A platform on which every allocation succeeds. *)
Definition plentiful (junk : Z -> Z) (errors : Z -> string) (file : string -> string) : Libc :=
  {| malloc_ok _ := true; malloc_junk := junk; strerror := errors; FILE_ := file |}.

Section plentiful_memory.
  Context (junk : Z -> Z) (errors : Z -> string) (file : string -> string) `{Sqlite3}.
#[local] Instance plenty : Libc := plentiful junk errors file.

(** C34: The results of [GetInfo] and [GetObjects] have exactly the schemas documented in
    adbc.h, field by field with names, types, order and nullability, when memory suffices. *)
Theorem catalog_schemas_documented (env : Env) (schema : ArrowSchema) (array : ArrowArray)
  (na_error : ArrowError) :
  get_info_schema (mkOS env schema array na_error) =
    Ret tt (mkOS env (schema_of None true GET_INFO) array na_error) /\
  SqliteConnectionGetObjectsSchema (mkOS env schema array na_error) =
    Ret tt (mkOS env (schema_of None true GET_OBJECTS) array na_error).
Proof. split; vm_compute; reflexivity. Qed.

Definition GET_TABLE_TYPES : ty := Struct [not_null "table_type" utf8].
(** The outcome of a catalog function: its code and the rows of the stream it fills. *)
Definition outcome (t : ty) (r : result CatalogState unit) : option (Z * option (list row)) :=
  match r with
  | Ret _ s => Some (0, stream_rows t s.2)
  | Exit c s => Some (c, stream_rows t s.2)
  | _ => None
  end.

(** The requests that reach no table, as the code answers them. *)
Lemma objects_above_tables (env : Env) (connection : SqliteConnection) (fuel : nat)
  (table column : option string) (types : option (list string)) (depth : Z)
  (catalog db_schema : option string) :
  let s : CatalogState := ((env, Some connection), StreamReleased) in
  let objects := outcome GET_OBJECTS
    (SqliteConnectionGetObjects fuel depth catalog db_schema table types column s) in
  match catalog with
  | Some c => if streq c "main" then True else objects = Some (0, Some [])
  | None => True
  end /\
  (catalog = None \/ catalog = Some "main"%string ->
   (depth = ADBC_OBJECT_DEPTH_CATALOGS -> objects = Some (0, Some [Fields [Text "main"; Null]])) /\
   (depth = ADBC_OBJECT_DEPTH_DB_SCHEMAS -> db_schema = None ->
      objects = Some (0, Some [Fields [Text "main"; Items [Fields [Null; Null]]]])) /\
   (depth <> ADBC_OBJECT_DEPTH_CATALOGS -> db_schema <> None ->
      objects = Some (0, Some [Fields [Text "main"; Items []]]))).
Proof.
  intros s objects. split.
  - destruct catalog as [c|]; [|done]. destruct (streq c "main") eqn:Ho; [done|].
    unfold objects, SqliteConnectionGetObjects, SqliteConnectionGetObjectsImpl. rewrite Ho. clear Ho.
    vm_compute. reflexivity.
  - intros Hc. unfold objects. clear objects. split_and!.
    + intros ->. destruct Hc as [-> | ->]; vm_compute; reflexivity.
    + intros -> ->. destruct Hc as [-> | ->]; vm_compute; reflexivity.
    + intros Hd%Z.eqb_neq Hs. destruct db_schema as [x|]; [|done].
      unfold SqliteConnectionGetObjects, SqliteConnectionGetObjectsImpl. rewrite Hd. clear Hd.
      destruct Hc as [-> | ->]; vm_compute; reflexivity.
Qed.

(** C37: [GetTableTypes] and every request of [GetObjects] that reaches no table answer the rows
    adbc.h describes: the two table types; the catalog "main" with its one schema, which has no
    name, down to the depth asked for, as far as the filters select them.  The filter for
    catalogs is a plain name and the one for schemas not the empty string; what the code does
    with the others is a finding. *)
Theorem shallow_catalog_rows (env : Env) (connection : SqliteConnection)
  (fuel : nat) (table column catalog db_schema : option string) (types : option (list string))
  (depth : Z)
  (Hcatalog : forall c, catalog = Some c -> literal c = true) (Hschema : db_schema <> Some ""%string)
  (Habove : above_tables depth catalog db_schema) :
  let s : CatalogState := ((env, Some connection), StreamReleased) in
  outcome GET_TABLE_TYPES (SqliteConnectionGetTableTypes s) =
    Some (0, Some [Fields [Text "table"]; Fields [Text "view"]]) /\
  outcome GET_OBJECTS (SqliteConnectionGetObjects fuel depth catalog db_schema table types column s) =
    Some (0, Some (documented_objects depth catalog db_schema)).
Proof.
  intros s. split; [vm_compute; reflexivity|].
  destruct (objects_above_tables env connection fuel table column types depth catalog db_schema) as [Hother Hmain].
  fold s in Hother, Hmain. unfold documented_objects.
  assert (selects db_schema None = bool_decide (db_schema = None)) as Hsel.
  { destruct db_schema as [[|x r]|]; [done| |by rewrite bool_decide_eq_true_2].
    by rewrite bool_decide_eq_false_2. }
  assert (forall b, selects catalog (Some "main"%string) = b ->
    if b then catalog = None \/ catalog = Some "main"%string
    else exists c, catalog = Some c /\ streq c "main" = false) as Hcase.
  { intros b <-. destruct catalog as [c|]; [|by left].
    rewrite (selects_literal c) by (by try apply Hcatalog).
    destruct (String.eqb_spec c "main") as [->|Hne]; [by right|]. exists c. split; [done|].
    unfold streq. by apply String.eqb_neq. }
  destruct (selects catalog (Some "main"%string)) eqn:Hc; specialize (Hcase _ eq_refl).
  2:{ destruct Hcase as (c & -> & Hne). by rewrite Hne in Hother. }
  destruct (Hmain Hcase) as (H1 & H2 & H3). rewrite Hsel.
  destruct (Z.eqb_spec depth ADBC_OBJECT_DEPTH_CATALOGS) as [->|Hd]; [by apply H1|].
  destruct (bool_decide_reflect (db_schema = None)) as [Hn|Hn]; [|by apply H3].
  apply H2; [|done]. unfold above_tables in Habove. rewrite Hc, Hsel in Habove.
  intuition congruence.
Qed.

(** The filters are not search patterns: a pattern that matches "main", such as "%", finds no
    catalog; and the empty name of a schema, which asks for what is in no schema, finds none. *)
Theorem filters_not_patterns (env : Env) (connection : SqliteConnection)
  (fuel : nat) (table column : option string) (types : option (list string)) :
  let s : CatalogState := ((env, Some connection), StreamReleased) in
  let objects depth catalog db_schema :=
    outcome GET_OBJECTS (SqliteConnectionGetObjects fuel depth catalog db_schema table types column s) in
  (objects ADBC_OBJECT_DEPTH_CATALOGS (Some "%"%string) None = Some (0, Some []) /\
   documented_objects ADBC_OBJECT_DEPTH_CATALOGS (Some "%"%string) None = [Fields [Text "main"; Null]]) /\
  (objects ADBC_OBJECT_DEPTH_DB_SCHEMAS None (Some ""%string) = Some (0, Some [Fields [Text "main"; Items []]]) /\
   documented_objects ADBC_OBJECT_DEPTH_DB_SCHEMAS None (Some ""%string) =
     [Fields [Text "main"; Items [Fields [Null; Null]]]]).
Proof. split_and!; vm_compute; reflexivity. Qed.
End plentiful_memory.

(** * Keys

    Parts of an array under construction. *)
Fixpoint part (path : list Z) (a : ArrowArray) : option ArrowArray :=
  match path with
  | [] => Some a
  | i :: p => c ← get_child a i; part p c
  end.
(** A struct and the length of its field [k]. *)
Definition field_length (path : list Z) (k : Z) (a : ArrowArray)
    : option (Z * Z * option ArrowArrayPrivateData * bool * Z) :=
  n ← part path a;
  c ← get_child n k;
  Some (ar_n_children n, ar_length n, ar_private n, ar_indeterminate n, ar_length c).

Lemma get_put_child i c a x : get_child a i = Some x -> get_child (put_child i c a) i = Some c.
Proof.
  unfold get_child, put_child. simpl. destruct (ar_children a) as [cs|]; simpl; [|done].
  destruct (0 <=? i); [|done]. intros Hi. destruct (cs !! Z.to_nat i) eqn:Hc; [|done].
  by rewrite list_lookup_insert_eq by (by eapply lookup_lt_Some).
Qed.
Lemma get_put_child_ne i k c a x :
  get_child a i = Some x -> i <> k -> get_child (put_child i c a) k = get_child a k.
Proof.
  unfold get_child, put_child. simpl. destruct (ar_children a) as [cs|]; simpl; [|done].
  destruct (Z.leb_spec 0 i); [|done]. intros _ Hk. destruct (Z.leb_spec 0 k); [|done].
  by rewrite list_lookup_insert_ne by lia.
Qed.
(** Building another field leaves a field's length. *)
Lemma other_field_keeps {A} path j rest k (m : M ArrowArray A) :
  j <> k -> keeps (field_length path k) (on_array_path (path ++ j :: rest) m).
Proof.
  intros Hjk. induction path as [|i path IH]; intros a; simpl; unfold on_array_child.
  - cbv [mbind M_bind gets id]. destruct (get_child a j) as [c|] eqn:Hc; [|done]. cbn.
    destruct (on_array_path rest m c); cbn -[get_child put_child field_length]; try done;
      unfold field_length; cbn [part mbind option_bind]; by rewrite (get_put_child_ne j k _ a c).
  - cbv [mbind M_bind gets id]. destruct (get_child a i) as [c|] eqn:Hc; [|done]. cbn.
    specialize (IH c). unfold field_length in *. cbn [part mbind option_bind] in *. rewrite Hc.
    destruct (on_array_path (path ++ j :: rest) m c) as [x c'|e c'| |];
      cbn -[get_child put_child part]; try done;
      rewrite (get_put_child i c' a c) by done; exact IH.
Qed.

Section keys.
  Context `{Libc} `{Sqlite3}.

Definition field_of (path : list Z) (k : Z) (s : OS) := field_length path k (os_array s).
#[local] Instance field_of_db path k : FrameDb (field_of path k).
Proof. by intros d []. Qed.
#[local] Instance field_of_error path k : FrameError (field_of path k).
Proof. by intros e []. Qed.

Lemma check_array_keeps path k line expr j rest m :
  j <> k -> keeps (field_of path k) (check_array line expr (path ++ j :: rest) m).
Proof.
  intros Hj. apply keeps_CHECK_NA; [apply _|]. apply (keeps_zoom _ (field_length path k)); [done..|].
  by apply other_field_keeps.
Qed.
#[local] Hint Extern 1 (keeps _ (check_array _ _ _ _)) => apply check_array_keeps; discriminate : keeps.
#[local] Hint Extern 1 (keeps _ (check_null _ _ _)) => apply check_array_keeps; discriminate : keeps.
#[local] Hint Extern 1 (keeps _ (check_finish _ _ _)) => apply check_array_keeps; discriminate : keeps.
#[local] Hint Extern 1 (keeps _ (check_string _ _ _ _ _)) => apply check_array_keeps; discriminate : keeps.

Lemma string_view_keeps path k data size : keeps (field_of path k) (string_view data size).
Proof. unfold string_view. solve_keeps. Qed.
Lemma RAISE_OK_keeps path k line conn rc : keeps (field_of path k) (RAISE_OK line conn rc).
Proof. unfold RAISE_OK, RAISE. solve_keeps. Qed.
#[local] Hint Resolve string_view_keeps RAISE_OK_keeps : keeps.

(** The type column of the constraints is never touched. *)
Lemma primary_key_rows_keeps fuel items pk has :
  keeps (field_of items 1) (primary_key_rows fuel items pk has).
Proof.
  revert has. induction fuel as [|fuel IH]; intros has; cbn [primary_key_rows]; [apply keeps_nofuel|].
  solve_keeps.
Qed.
Lemma primary_key_rows_found fuel items pk has s b s' :
  primary_key_rows fuel items pk has s = Ret b s' -> has = true -> b = true.
Proof.
  revert has s. induction fuel as [|fuel IH]; intros has s Hrun Hhas; [done|]. subst has.
  cbn [primary_key_rows negb when] in Hrun.
  apply bind_ret_inv in Hrun as (rc & s1 & _ & Hrun). destruct (rc =? SQLITE_ROW); cbn [negb] in Hrun.
  2:{ by injection Hrun. }
  do 5 (apply bind_ret_inv in Hrun as (? & ? & _ & Hrun)). by eapply IH.
Qed.

(** A struct element is finished only when every field is one longer. *)
Definition invalid {S A} (r : result S A) : Prop :=
  match r with Exit c _ => c = EINVAL | Undef => True | _ => False end.
Lemma struct_fields_checked n from k (a : ArrowArray) child :
  get_child a k = Some child -> ar_length child <> ar_length a + 1 ->
  from <= k < from + Z.of_nat n ->
  invalid (for_loop n from (fun i =>
    child ← lift_opt (get_child a i);
    if ar_length child =? ar_length a + 1 then mret tt else exit EINVAL) a).
Proof.
  intros Hchild Hne. revert from. induction n as [|n IH]; intros from Hk; [lia|]. cbn [for_loop].
  cbv [mbind M_bind]. destruct (get_child a from) as [c|] eqn:Hc; simpl; [|done].
  destruct (Z.eqb_spec (ar_length c) (ar_length a + 1)) as [He|He]; simpl; [|done].
  apply IH. destruct (decide (from = k)) as [->|]; [congruence|lia].
Qed.
Lemma finish_element_invalid a pd k child :
  ar_private a = Some pd -> ar_indeterminate a = false -> pd_storage_type pd = TYPE_STRUCT ->
  get_child a k = Some child -> ar_length child <> ar_length a + 1 -> 0 <= k < ar_n_children a ->
  invalid (ArrowArrayFinishElement a).
Proof.
  intros Hp Hi Hst Hchild Hne Hk. unfold ArrowArrayFinishElement.
  erewrite bind_ret by (unfold private; erewrite bind_ret by done; unfold id; by rewrite Hi, Hp).
  erewrite bind_ret by done. rewrite Hst. unfold id, for_range. rewrite Z.sub_0_r.
  pose proof (struct_fields_checked (Z.to_nat (ar_n_children a)) 0 k a child Hchild Hne ltac:(lia)) as Hf.
  unfold mbind at 1, M_bind at 1. by destruct (for_loop _ _ _ a).
Qed.
Lemma on_path_invalid path (m : M ArrowArray unit) a b :
  part path a = Some b -> invalid (m b) -> invalid (on_array_path path m a).
Proof.
  revert a. induction path as [|i path IH]; intros a; cbn [part on_array_path]; [by intros [= ->]|].
  destruct (get_child a i) as [c|] eqn:Hc; [|done]. intros Hpart Hm. specialize (IH c Hpart Hm).
  unfold on_array_child, child_result. cbv [mbind M_bind gets id]. rewrite Hc. simpl.
  by destruct (on_array_path path m c).
Qed.
Lemma finish_needs_fields path line name k s s' n len c pd :
  field_of path k s = Some (n, len, Some pd, false, c) -> pd_storage_type pd = TYPE_STRUCT ->
  0 <= k < n -> c <> len + 1 -> check_finish line name path s <> Ret tt s'.
Proof.
  unfold field_of, field_length. destruct (part path (os_array s)) as [a|] eqn:Ha; [|done]. simpl.
  destruct (get_child a k) as [child|] eqn:Hchild; [|done]. simpl.
  intros [= Hn Hl Hp Hi Hc] Hst Hk Hne Hrun. subst.
  apply bind_ret_inv in Hrun as (code & s1 & Hcatch & Hrun).
  pose proof (finish_element_invalid a pd k child Hp Hi Hst Hchild Hne Hk) as Hinv.
  apply (on_path_invalid path _ (os_array s)) in Hinv; [|done].
  unfold catch, on_array, zoom in Hcatch. simpl in Hcatch.
  destruct (on_array_path path ArrowArrayFinishElement (os_array s)); simpl in Hinv; try done.
  injection Hcatch as <- <-. subst. by apply fail_not_ret in Hrun.
Qed.

Lemma call_inv {A} (f : sqlite -> A * sqlite) (s t : OS) a :
  call f s = Ret a t -> a = (f (db_of s)).1 /\ t = set_db (f (db_of s)).2 s.
Proof. unfold call. destruct (f (db_of s)). by intros [= <- <-]. Qed.
Lemma RAISE_OK_inv line conn rc s t : RAISE_OK line conn rc s = Ret tt t -> t = s.
Proof.
  intros (m & s1 & [= <- <-] & Hr)%bind_ret_inv. unfold RAISE in Hr.
  destruct (rc =? SQLITE_OK); [by injection Hr|]. by apply fail_not_ret in Hr.
Qed.
Lemma primary_key_rows_first fuel items pk s b s' :
  (sqlite3_step pk (db_of s)).1 = SQLITE_ROW -> primary_key_rows fuel items pk false s = Ret b s' ->
  b = true.
Proof.
  intros Hrow. destruct fuel as [|fuel]; [done|]. cbn [primary_key_rows].
  intros (rc & s1 & [-> ->]%call_inv & Hrun)%bind_ret_inv. rewrite Hrow in Hrun.
  cbn [negb SQLITE_ROW] in Hrun. change (SQLITE_ROW =? SQLITE_ROW) with true in Hrun. cbn [negb] in Hrun.
  do 5 (apply bind_ret_inv in Hrun as (? & ? & _ & Hrun)). by eapply primary_key_rows_found.
Qed.

(** [GetObjects] cannot report a primary key: as soon as a table has one, the type of the
    constraint has not been appended (the text goes to the name a second time), the element
    of the constraints cannot be finished and the whole request fails. *)
Theorem primary_key_fails (fuel : nat) (conn pk_stmt fk_stmt n length : Z) (table_name : string)
  (col : list Z) (pd : ArrowArrayPrivateData) (s s' : OS)
  (Hitems : field_of (col ++ [0]) 1 s = Some (n, length, Some pd, false, length))
  (Hstruct : pd_storage_type pd = TYPE_STRUCT) (Hfields : 1 < n)
  (Hkey : (sqlite3_step pk_stmt (snd (sqlite3_bind pk_stmt 1 (BindText (string_bytes table_name))
             (snd (sqlite3_reset pk_stmt (db_of s)))))).1 = SQLITE_ROW) :
  SqliteConnectionGetConstraintsImpl fuel conn (Some table_name) col pk_stmt fk_stmt s <> Ret tt s'.
Proof.
  intros Hrun. unfold SqliteConnectionGetConstraintsImpl in Hrun.
  apply bind_ret_inv in Hrun as (rc & s1 & [-> ->]%call_inv & Hrun).
  apply bind_ret_inv in Hrun as ([] & s2 & ->%RAISE_OK_inv & Hrun).
  apply bind_ret_inv in Hrun as (t & s3 & [= <- <-] & Hrun).
  apply bind_ret_inv in Hrun as (rc & s4 & [-> ->]%call_inv & Hrun).
  apply bind_ret_inv in Hrun as ([] & s5 & ->%RAISE_OK_inv & Hrun).
  apply bind_ret_inv in Hrun as (has & s6 & Hpk & Hrun).
  assert (has = true) as ->.
  { eapply primary_key_rows_first; [|exact Hpk]. destruct s as [[? []] ? ? ?]. exact Hkey. }
  apply (keeps_run (field_of (col ++ [0]) 1)) in Hpk as Hk6; [|apply primary_key_rows_keeps].
  rewrite !frame_db in Hk6.
  apply bind_ret_inv in Hrun as ([] & s7 & Hrun & _). cbn [when] in Hrun.
  apply bind_ret_inv in Hrun as ([] & s8 & H8 & Hrun).
  apply bind_ret_inv in Hrun as ([] & s9 & H9 & Hrun). revert Hrun.
  apply (finish_needs_fields _ _ _ 1 _ _ n length length pd); [|exact Hstruct|lia|lia].
  apply (keeps_run (field_of (col ++ [0]) 1)) in H8; [|by apply check_array_keeps].
  apply (keeps_run (field_of (col ++ [0]) 1)) in H9; [|by apply check_array_keeps].
  rewrite H9, H8, Hk6. exact Hitems.
Qed.
End keys.

(** * The query of [GetTableSchema] *)
Section table_schema.
  Context `{Libc} `{Sqlite3}.

(** [GetTableSchema] asks for "SELECT * FROM " and the table's name, unquoted, as long as
    the name has fewer than 50 characters; a longer name, which the caller chooses, is written
    past the end of the builder's 64 bytes: undefined behaviour. *)
Theorem GetTableSchema_name_limit (env : Env) (connection : SqliteConnection) (name : string)
  (schema : ArrowSchema) (Hmalloc : malloc_ok 64 = true) :
  if strlen name <? 50
  then table_schema_query name = Some ("SELECT * FROM " +:+ name)%string
  else SqliteConnectionGetTableSchema None None (Some name) ((env, Some connection), schema) = Undef.
Proof.
  pose proof (append_all_fresh ["SELECT * FROM "%string; name] 64 eq_refl Hmalloc) as Ha.
  assert (joined ["SELECT * FROM "%string; name] = ("SELECT * FROM " +:+ name)%string) as Hj
    by (unfold joined; simpl; by rewrite string_app_nil).
  rewrite Hj, strlen_app in Ha. change (strlen "SELECT * FROM ") with 14 in Ha.
  replace (14 + strlen name <? 64) with (strlen name <? 50) in Ha
    by (apply eq_bool_prop_intro; rewrite !Is_true_true, !Z.ltb_lt; lia).
  unfold SqliteConnectionGetTableSchema, table_schema_query.
  destruct (strlen name <? 50).
  - destruct Ha as (b & Hb & <-). by rewrite Hb.
  - erewrite bind_ret by done. cbn [nonempty orb]. apply bind_undef. by rewrite Ha.
Qed.
End table_schema.

Section witnesses.
#[local] Existing Instance host.
#[local] Existing Instance Mock.mock.

(** A database with the table "users", whose key is the column "id". *)
Definition text (s : string) : Mock.value := Mock.VText (string_bytes s).
Definition key_script : Mock.script :=
  [(kTableQuery, (["name"; "type"], 1, [[text "users"; text "table"]]));
   (kColumnQuery, (["cid"; "name"; "type"; "notnull"; "dflt_value"], 2,
                   [[Mock.VInteger 0; text "id"; text "INTEGER"; Mock.VInteger 1; Mock.VNull]]));
   (kPrimaryKeyQuery, (["name"], 1, [[text "id"]]));
   (kForeignKeyQuery, (["id"; "seq"; "table"; "from"; "to"], 1, []))]%string.
Definition key_env : Env := mkEnv (Some zero_error) (Mock.world_of key_script).
(** The arrays once appending has started and the key's statement, number 1, is prepared. *)
Definition start_building : M OS unit :=
  SqliteConnectionGetObjectsSchema ;; init_array 929 ;;
  check_array 931 "ArrowArrayStartAppending(array)" [] ArrowArrayStartAppending ;;
  _ ← call (sqlite3_prepare_v2 1 kPrimaryKeyQuery 0);
  mret tt.
Definition building : OS :=
  left_by start_building (mkOS key_env zero_schema zero_array (Some ""%string)).
Definition constraints_col : list Z := [1; 0; 1; 0; 3].
Definition items_private : ArrowArrayPrivateData :=
  match field_of (constraints_col ++ [0]) 1 building with
  | Some (_, _, Some pd, _, _) => pd
  | _ => mkPrivate ArrowBitmapInit (zero_buffer, zero_buffer) TYPE_UNINITIALIZED
           (ArrowLayoutInit TYPE_UNINITIALIZED) false
  end.
Lemma primary_key_fails_witness :
  ~ exists s', SqliteConnectionGetConstraintsImpl 10 1 (Some "users"%string) constraints_col 1 2 building
    = Ret tt s'.
Proof.
  intros [s' Hrun]. revert Hrun.
  refine (primary_key_fails 10 1 1 2 4 0 "users" constraints_col items_private building s' _ _ _ _).
  - vm_compute. reflexivity.
  - vm_compute. reflexivity.
  - reflexivity.
  - vm_compute. reflexivity.
Defined.

#[local] Instance roomy : Libc := plentiful (fun _ => 0) (fun _ => ""%string) id.
Lemma shallow_catalog_rows_witness :
  let s : CatalogState := ((key_env, Some (mkConnection 1 true)), StreamReleased) in
  outcome GET_TABLE_TYPES (SqliteConnectionGetTableTypes s) =
    Some (0, Some [Fields [Text "table"]; Fields [Text "view"]]) /\
  outcome GET_OBJECTS (SqliteConnectionGetObjects 0 ADBC_OBJECT_DEPTH_DB_SCHEMAS (Some "main"%string) None None
    None None s) = Some (0, Some [Fields [Text "main"; Items [Fields [Null; Null]]]]).
Proof.
  apply (shallow_catalog_rows (fun _ => 0) (fun _ => ""%string) id key_env (mkConnection 1 true) 0 None
    None (Some "main"%string) None None ADBC_OBJECT_DEPTH_DB_SCHEMAS).
  - by intros c [= <-].
  - discriminate.
  - right. by left.
Defined.

#[local] Existing Instance host.
Lemma GetTableSchema_name_limit_witness :
  malloc_ok 64 = true /\
  if strlen "users" <? 50
  then table_schema_query "users" = Some ("SELECT * FROM " +:+ "users")%string
  else SqliteConnectionGetTableSchema None None (Some "users"%string)
         ((key_env, Some (mkConnection 1 true)), zero_schema) = Undef.
Proof.
  split; [reflexivity|].
  exact (GetTableSchema_name_limit key_env (mkConnection 1 true) "users" zero_schema eq_refl).
Defined.
End witnesses.
