(* ===== verification/DriverManager.v ===== *)
(** The driver manager (c/driver_manager/adbc_driver_manager.cc, the parts for Linux): loading
    a driver, filling its table of callbacks, options kept until initialisation, forwarding
    every API function to the driver. *)
From stdpp Require Import base tactics list numbers option strings gmap.
From Stdlib Require Import ZArith Lia Ascii.
From S2P Require Import Prelude CLib Adbc Utils.

(** * Drivers

    [D] is everything the drivers' callbacks read and write besides the error and the object
    they are given; [P] is the type of their private data; [A] packs the arguments that the
    manager only passes on. *)
Section types.
  Context (D P A : Type).

(** [std::unordered_map<std::string, std::string>] *)
Definition options_map := gmap string string.
(** What the objects' [private_data] points at. *)
Record TempDatabase (I : Type) := mkTempDatabase {
  td_options : options_map;
  td_driver : string;
  td_entrypoint : string;
  td_init_func : option I;
}.
Record TempConnection := mkTempConnection { tc_options : options_map }.
Inductive pdata (I : Type) :=
| PNull
| PTempDatabase (t : TempDatabase I)
| PTempConnection (t : TempConnection)
| PDriver (p : P).

(** Arguments of a callback besides the object and the error. *)
Inductive call_args := NoArgs | OptionArgs (key value : string) | OtherArgs (a : A).
(** What a callback works on. *)
Record CallState (I : Type) := mkCall { cs_error : ErrorPtr; cs_private : pdata I; cs_world : D }.
Definition callback (I : Type) : Type := call_args -> M (CallState I) unit.
Definition release_fn : Type := M (ErrorPtr * D) unit.
(** [driver->release]: the driver's own, or the manager's [ReleaseDriver]. *)
Inductive release_cb := RelNull | RelDriver (f : release_fn) | RelManager.
(** [dv_manager] is [private_manager]: the [ManagerDriverState], holding the original
    [release]. *)
Record AdbcDriver (I : Type) := mkDriver {
  dv_slot : driver_slot -> option (callback I);
  dv_release : release_cb;
  dv_manager : option release_cb;
}.
End types.
Arguments mkTempDatabase {I} td_options td_driver td_entrypoint td_init_func.
Arguments td_options {I} t. Arguments td_driver {I} t. Arguments td_entrypoint {I} t.
Arguments td_init_func {I} t.
Arguments PNull {P I}. Arguments PTempDatabase {P I} t. Arguments PTempConnection {P I} t.
Arguments PDriver {P I} p.
Arguments NoArgs {A}. Arguments OptionArgs {A} key value. Arguments OtherArgs {A} a.
Arguments mkCall {D P I} cs_error cs_private cs_world.
Arguments cs_error {D P I} c. Arguments cs_private {D P I} c. Arguments cs_world {D P I} c.
Arguments RelNull {D}. Arguments RelDriver {D} f. Arguments RelManager {D}.
Arguments mkDriver {D P A I} dv_slot dv_release dv_manager.
Arguments dv_slot {D P A I} a s. Arguments dv_release {D P A I} a. Arguments dv_manager {D P A I} a.

(** The dynamic loader, and the iteration order of hash maps.  Entry points are named by
    values of type [ld_init], which [ld_run] runs: they write the driver's table. *)
Class Loader (D P A : Type) := {
  ld_init : Type;
  ld_run : ld_init -> Z -> M (AdbcDriver D P A ld_init * (ErrorPtr * D)) unit;
  ld_library : Type;
  dlopen : string -> option ld_library;
  dlsym : ld_library -> string -> option ld_init;
  dlerror : string -> string;      (** the message for the failed name *)
  iteration : options_map -> list (string * string);
}.
(** Every element of a map is visited once. *)
Class LoaderOrder {D P A} (L : Loader D P A) :=
  iteration_perm : forall m : options_map, iteration m ≡ₚ map_to_list m.

(** * State

    [ms_drivers] are the tables allocated by [new AdbcDriver]; deleted ones are [None].  An
    object's [private_driver] is an index. *)
Section manager.
  Context {D P A : Type} `{L : !Loader D P A}.

Abbreviation Driver := (AdbcDriver D P A ld_init).
Record MS := mkMS { ms_error : ErrorPtr; ms_world : D; ms_drivers : list (option Driver) }.
#[export] Instance HasError_MS : HasError MS :=
  mkLens ms_error (fun e s => mkMS e (ms_world s) (ms_drivers s)).
(** An [AdbcDatabase], [AdbcConnection] or [AdbcStatement]. *)
Record Object := mkObject { ob_private : pdata P ld_init; ob_driver : option nat }.
Definition OState : Type := MS * Object.

Definition put_private (p : pdata P ld_init) : M OState unit :=
  modify (fun s => (s.1, mkObject p (ob_driver s.2))).
Definition put_driver (d : option nat) : M OState unit :=
  modify (fun s => (s.1, mkObject (ob_private s.2) d)).

(** ** Errors *)
Definition newline : string := String "010" "".
(** An earlier message is kept in front; it must have its release callback. *)
Definition SetError (message : string) : M ErrorPtr unit :=
  error ← gets id;
  match error with
  | None => mret tt
  | Some e =>
      match err_message e with
      | Some m =>
          if err_release e
          then put (Some (mkError (Some (m +:+ newline +:+ message)%string) (err_vendor_code e)
                            (err_sqlstate e) true))
          else undef
      | None => put (Some (mkError (Some message) (err_vendor_code e) (err_sqlstate e) true))
      end
  end.
Definition raise {S} `{!HasError S} (code : Z) (message : string) : M S unit :=
  zoom error_lens (SetError message) ;; exit code.

(** ** Calling the driver *)

(** [new AdbcDriver], zeroed. *)
Definition zero_driver : Driver := mkDriver (fun _ => None) RelNull None.
(** Dereferencing a driver: undefined after [delete]. *)
Definition driver_at (d : nat) : M MS Driver :=
  ds ← gets ms_drivers; lift_opt (mjoin (ds !! d)).
Definition set_driver (d : nat) (v : option Driver) : M MS unit :=
  modify (fun s => mkMS (ms_error s) (ms_world s) (<[d := v]> (ms_drivers s))).
(** [driver->Slot(object, args, error)]: undefined through a null pointer. *)
Definition call_slot (d : nat) (slot : driver_slot) (args : call_args A) : M OState unit :=
  driver ← zoom fst_lens (driver_at d);
  f ← lift_opt (dv_slot driver slot);
  (fun s =>
     let back (c : CallState D P ld_init) : OState :=
       (mkMS (cs_error c) (cs_world c) (ms_drivers s.1), mkObject (cs_private c) (ob_driver s.2)) in
     match (f : callback D P A ld_init) args
             (mkCall (ms_error s.1) (ob_private s.2) (ms_world s.1)) with
     | Ret _ c => Ret tt (back c)
     | Exit code c => Exit code (back c)
     | Undef => Undef
     | NoFuel => NoFuel
     end) : M OState unit.
Definition run_release (f : release_fn D) : M MS unit := fun s =>
  let back (p : ErrorPtr * D) := mkMS p.1 p.2 (ms_drivers s) in
  match f (ms_error s, ms_world s) with
  | Ret _ p => Ret tt (back p)
  | Exit code p => Exit code (back p)
  | Undef => Undef
  | NoFuel => NoFuel
  end.

(** The status is what the driver's own callback returned. *)
Definition ReleaseDriver (d : nat) : M MS unit :=
  driver ← driver_at d;
  match dv_manager driver with
  | None => mret tt
  | Some driver_release =>
      status ← catch match driver_release with
                     | RelDriver f => run_release f
                     | RelNull => mret tt
                     | RelManager => undef     (* would call itself on a deleted state *)
                     end;
      driver ← driver_at d;
      set_driver d (Some (mkDriver (dv_slot driver) (dv_release driver) None)) ;;
      return_code status
  end.
(** [if (driver->release) driver->release(driver, error);], the code ignored. *)
Definition release_driver (d : nat) : M MS unit :=
  driver ← driver_at d;
  match dv_release driver with
  | RelNull => mret tt
  | RelDriver f => ignore (run_release f)
  | RelManager => ignore (ReleaseDriver d)
  end.

(** * Loading *)

(** The default stubs. *)
Definition stub : callback D P A ld_init := fun _ => exit ADBC_STATUS_NOT_IMPLEMENTED.

(** [CHECK_REQUIRED] and [FILL_DEFAULT], in the order of the code; no entry for
    [StatementBindStream]. *)
Inductive requirement := Required (slot : driver_slot) (name : string) | Default (slot : driver_slot).
Definition requirements : list requirement :=
  [Required S_DatabaseNew "DatabaseNew"; Required S_DatabaseInit "DatabaseInit";
   Required S_DatabaseRelease "DatabaseRelease"; Default S_DatabaseSetOption;
   Required S_ConnectionNew "ConnectionNew"; Required S_ConnectionInit "ConnectionInit";
   Required S_ConnectionRelease "ConnectionRelease"; Default S_ConnectionCommit;
   Default S_ConnectionGetInfo; Default S_ConnectionGetObjects;
   Default S_ConnectionGetTableSchema; Default S_ConnectionGetTableTypes;
   Default S_ConnectionReadPartition; Default S_ConnectionRollback;
   Default S_ConnectionSetOption; Default S_StatementExecutePartitions;
   Required S_StatementExecuteQuery "StatementExecuteQuery";
   Required S_StatementNew "StatementNew"; Required S_StatementRelease "StatementRelease";
   Default S_StatementBind; Default S_StatementGetParameterSchema; Default S_StatementPrepare;
   Default S_StatementSetOption; Default S_StatementSetSqlQuery;
   Default S_StatementSetSubstraitPlan].
Definition set_slot (slot : driver_slot) (f : callback D P A ld_init) (d : Driver) : Driver :=
  mkDriver (fun s => if decide (s = slot) then Some f else dv_slot d s) (dv_release d)
    (dv_manager d).
(** Loading writes the driver's table. *)
Definition LState : Type := Driver * (ErrorPtr * D).
#[export] Instance HasError_LState : HasError LState := lens_comp snd_lens fst_lens.
Fixpoint check_table (rs : list requirement) : M LState unit :=
  match rs with
  | [] => mret tt
  | Required slot name :: rest =>
      driver ← gets fst;
      match dv_slot driver slot with
      | Some _ => check_table rest
      | None =>
          raise ADBC_STATUS_INTERNAL ("Driver does not implement required function Adbc" +:+ name)
      end
  | Default slot :: rest =>
      driver ← gets fst;
      match dv_slot driver slot with
      | Some _ => check_table rest
      | None => modify (fun s => (set_slot slot stub s.1, s.2)) ;; check_table rest
      end
  end.

Definition AdbcLoadDriverFromInitFunc (init_func : ld_init) (version : Z) : M LState unit :=
  ld_run init_func version ;;
  if version =? ADBC_VERSION_1_0_0 then check_table requirements else mret tt.

(** The name tried second. *)
Definition kPlatformLibraryPrefix : string := "lib".
Definition kPlatformLibrarySuffix : string := ".so".
(** [s.compare(pos, n, t) != 0], [pos] inside [s]. *)
Definition differs_at (s : string) (pos n : nat) (t : string) : bool :=
  negb (streq (String.substring pos n s) t).
(** The position of the suffix is taken from the full name but looked up in the given one;
    [None] where [compare] would throw. *)
Definition full_driver_name (driver_name : string) : option string :=
  let size := String.length driver_name in
  let full := if (size <? 3)%nat || differs_at driver_name 0 3 kPlatformLibraryPrefix
              then kPlatformLibraryPrefix else ""%string in
  let full := (full +:+ driver_name)%string in
  let pos := (String.length full - 3)%nat in
  if (size <? 3)%nat then Some (full +:+ kPlatformLibrarySuffix)%string
  else if (size <? pos)%nat then None
  else Some (if differs_at driver_name pos 3 kPlatformLibrarySuffix
             then (full +:+ kPlatformLibrarySuffix)%string else full).

(** [entrypoint] is [None] for a null pointer. *)
Definition AdbcLoadDriver (driver_name : string) (entrypoint : option string) (version : Z)
    : M LState unit :=
  if negb (version =? ADBC_VERSION_1_0_0) then
    raise ADBC_STATUS_NOT_IMPLEMENTED "Only ADBC 1.0.0 is supported"
  else
  let entrypoint := default "AdbcDriverInit"%string entrypoint in
  full ← lift_opt (full_driver_name driver_name);
  let handle := match dlopen driver_name with Some h => Some h | None => dlopen full end in
  match handle with
  | None =>
      zoom error_lens (SetError ("dlopen() failed: " +:+ dlerror driver_name +:+ newline +:+
                                 "dlopen() failed: " +:+ dlerror full)%string) ;;
      modify (fun s => (mkDriver (dv_slot s.1) RelNull (dv_manager s.1), s.2)) ;;
      exit ADBC_STATUS_INTERNAL
  | Some handle =>
      match dlsym handle entrypoint with
      | None =>
          raise ADBC_STATUS_INTERNAL
            ("dlsym(" +:+ entrypoint +:+ ") failed: " +:+ dlerror entrypoint)
      | Some init_func =>
          AdbcLoadDriverFromInitFunc init_func version ;;
          modify (fun s => (mkDriver (dv_slot s.1) RelManager (Some (dv_release s.1)), s.2))
      end
  end.
(** Load into a driver of the heap. *)
Definition load_into (d : nat) (m : M LState unit) : M MS unit :=
  driver ← driver_at d;
  (fun s =>
     let back (l : LState) := mkMS l.2.1 l.2.2 (<[d := Some l.1]> (ms_drivers s)) in
     match m (driver, (ms_error s, ms_world s)) with
     | Ret _ l => Ret tt (back l)
     | Exit code l => Exit code (back l)
     | Undef => Undef
     | NoFuel => NoFuel
     end) : M MS unit.
End manager.
Arguments MS D P A {L}.
Arguments Object D P A {L}.
Arguments OState D P A {L}.

(** * The API *)
Section api.
  Context {D P A : Type} `{L : !Loader D P A}.

Abbreviation Driver := (AdbcDriver D P A ld_init).
Abbreviation OState' := (OState D P A).

(** Reinterpreting [private_data] as the manager's temporary state: undefined when it is
    something else. *)
Definition temp_database : M OState' (TempDatabase ld_init) :=
  p ← gets (fun s => ob_private s.2);
  match p with PTempDatabase t => mret t | _ => undef end.
Definition temp_connection : M OState' TempConnection :=
  p ← gets (fun s => ob_private s.2);
  match p with PTempConnection t => mret t | _ => undef end.
Definition is_null (p : pdata P ld_init) : bool := match p with PNull => true | _ => false end.

(** ** Databases *)
Definition AdbcDatabaseNew : M OState' unit :=
  put_private (PTempDatabase (mkTempDatabase ∅ "" "AdbcDriverInit" None)) ;; put_driver None.

Definition AdbcDatabaseSetOption (key value : string) : M OState' unit :=
  driver ← gets (fun s => ob_driver s.2);
  match driver with
  | Some d => call_slot d S_DatabaseSetOption (OptionArgs key value)
  | None =>
      args ← temp_database;
      let update o d e := put_private (PTempDatabase (mkTempDatabase o d e (td_init_func args))) in
      if streq key "driver" then update (td_options args) value (td_entrypoint args)
      else if streq key "entrypoint" then update (td_options args) (td_driver args) value
      else update (<[key := value]> (td_options args)) (td_driver args) (td_entrypoint args)
  end.

Definition AdbcDriverManagerDatabaseSetInitFunc (init_func : option ld_init) : M OState' unit :=
  driver ← gets (fun s => ob_driver s.2);
  match driver with
  | Some _ => exit ADBC_STATUS_INVALID_STATE
  | None =>
      args ← temp_database;
      put_private (PTempDatabase (mkTempDatabase (td_options args) (td_driver args)
                                    (td_entrypoint args) init_func))
  end.

(** [if (release) release(...); delete database->private_driver; private_driver = nullptr;] *)
Definition drop_driver (d : nat) : M OState' unit :=
  zoom fst_lens (release_driver d) ;;
  zoom fst_lens (set_driver d None) ;;
  put_driver None.

(** The options, in the order of the map; the first failure releases the database. *)
Fixpoint set_database_options (d : nat) (options : list (string * string)) : M OState' unit :=
  match options with
  | [] => mret tt
  | (key, value) :: rest =>
      status ← catch (call_slot d S_DatabaseSetOption (OptionArgs key value));
      if status =? ADBC_STATUS_OK then set_database_options d rest else
      ignore (call_slot d S_DatabaseRelease NoArgs) ;;
      drop_driver d ;;
      put_private PNull ;;
      exit status
  end.

(** [database->private_driver = new AdbcDriver]: its index. *)
Definition new_driver : M OState' nat :=
  d ← gets (fun s => length (ms_drivers s.1));
  modify (fun s => (mkMS (ms_error s.1) (ms_world s.1) (ms_drivers s.1 ++ [Some zero_driver]), s.2)) ;;
  put_driver (Some d) ;;
  mret d.

Definition AdbcDatabaseInit : M OState' unit :=
  private_data ← gets (fun s => ob_private s.2);
  if is_null private_data then
    zoom fst_lens (raise ADBC_STATUS_INVALID_STATE "Must call AdbcDatabaseNew first")
  else
  args ← temp_database;
  if bool_decide (td_init_func args = None) && streq (td_driver args) "" then
    zoom fst_lens (raise ADBC_STATUS_INVALID_ARGUMENT "Must provide 'driver' parameter")
  else
  d ← new_driver;
  put_private PNull ;;
  status ← catch (zoom fst_lens (load_into d
    match td_init_func args with
    | Some init_func => AdbcLoadDriverFromInitFunc init_func ADBC_VERSION_1_0_0
    | None => AdbcLoadDriver (td_driver args) (Some (td_entrypoint args)) ADBC_VERSION_1_0_0
    end));
  if negb (status =? ADBC_STATUS_OK) then
    put_private (PTempDatabase args) ;; drop_driver d ;; exit status
  else
  status ← catch (call_slot d S_DatabaseNew NoArgs);
  if negb (status =? ADBC_STATUS_OK) then drop_driver d ;; exit status else
  set_database_options d (iteration (td_options args)) ;;
  call_slot d S_DatabaseInit NoArgs.

Definition AdbcDatabaseRelease : M OState' unit :=
  o ← gets snd;
  match ob_driver o with
  | None =>
      if is_null (ob_private o) then exit ADBC_STATUS_INVALID_STATE
      else temp_database ;; put_private PNull
  | Some d =>
      status ← catch (call_slot d S_DatabaseRelease NoArgs);
      zoom fst_lens (release_driver d) ;;
      zoom fst_lens (set_driver d None) ;;
      put_private PNull ;;
      put_driver None ;;
      return_code status
  end.

(** ** Forwarding *)
Definition forward (slot : driver_slot) (args : call_args A) : M OState' unit :=
  driver ← gets (fun s => ob_driver s.2);
  match driver with
  | None => exit ADBC_STATUS_INVALID_STATE
  | Some d => call_slot d slot args
  end.
Definition AdbcConnectionCommit := forward S_ConnectionCommit NoArgs.
Definition AdbcConnectionGetInfo a := forward S_ConnectionGetInfo (OtherArgs a).
Definition AdbcConnectionGetObjects a := forward S_ConnectionGetObjects (OtherArgs a).
Definition AdbcConnectionGetTableSchema a := forward S_ConnectionGetTableSchema (OtherArgs a).
Definition AdbcConnectionGetTableTypes a := forward S_ConnectionGetTableTypes (OtherArgs a).
Definition AdbcConnectionReadPartition a := forward S_ConnectionReadPartition (OtherArgs a).
Definition AdbcConnectionRollback := forward S_ConnectionRollback NoArgs.
Definition AdbcStatementBind a := forward S_StatementBind (OtherArgs a).
Definition AdbcStatementBindStream a := forward S_StatementBindStream (OtherArgs a).
Definition AdbcStatementExecutePartitions a := forward S_StatementExecutePartitions (OtherArgs a).
Definition AdbcStatementExecuteQuery a := forward S_StatementExecuteQuery (OtherArgs a).
Definition AdbcStatementGetParameterSchema a :=
  forward S_StatementGetParameterSchema (OtherArgs a).
Definition AdbcStatementPrepare := forward S_StatementPrepare NoArgs.
Definition AdbcStatementSetOption key value :=
  forward S_StatementSetOption (OptionArgs key value).
Definition AdbcStatementSetSqlQuery a := forward S_StatementSetSqlQuery (OtherArgs a).
Definition AdbcStatementSetSubstraitPlan a := forward S_StatementSetSubstraitPlan (OtherArgs a).

(** ** Connections and statements *)
Definition AdbcConnectionNew : M OState' unit :=
  put_private (PTempConnection (mkTempConnection ∅)) ;; put_driver None.

Definition AdbcConnectionSetOption (key value : string) : M OState' unit :=
  o ← gets snd;
  if is_null (ob_private o) then
    zoom fst_lens (raise ADBC_STATUS_INVALID_STATE
                     "AdbcConnectionSetOption: must AdbcConnectionNew first")
  else
  match ob_driver o with
  | None =>
      args ← temp_connection;
      put_private (PTempConnection (mkTempConnection (<[key := value]> (tc_options args))))
  | Some d => call_slot d S_ConnectionSetOption (OptionArgs key value)
  end.

Fixpoint set_connection_options (d : nat) (options : list (string * string)) : M OState' unit :=
  match options with
  | [] => mret tt
  | (key, value) :: rest =>
      call_slot d S_ConnectionSetOption (OptionArgs key value) ;; set_connection_options d rest
  end.
(** [database] is read: its driver, and by the driver its private data, packed in [arg]. *)
Definition AdbcConnectionInit (database : Object D P A) (arg : A) : M OState' unit :=
  private_data ← gets (fun s => ob_private s.2);
  if is_null private_data then
    zoom fst_lens (raise ADBC_STATUS_INVALID_STATE "Must call AdbcConnectionNew first")
  else
  match ob_driver database with
  | None => zoom fst_lens (raise ADBC_STATUS_INVALID_ARGUMENT "Database is not initialized")
  | Some d =>
      args ← temp_connection;
      put_private PNull ;;
      call_slot d S_ConnectionNew NoArgs ;;
      put_driver (Some d) ;;
      set_connection_options d (iteration (tc_options args)) ;;
      call_slot d S_ConnectionInit (OtherArgs arg)
  end.

Definition AdbcConnectionRelease : M OState' unit :=
  o ← gets snd;
  match ob_driver o with
  | None =>
      if is_null (ob_private o) then exit ADBC_STATUS_INVALID_STATE
      else temp_connection ;; put_private PNull
  | Some d =>
      status ← catch (call_slot d S_ConnectionRelease NoArgs);
      put_driver None ;;
      return_code status
  end.

(** The state is the statement's; the connection is read, packed in [arg]. *)
Definition AdbcStatementNew (connection : Object D P A) (arg : A) : M OState' unit :=
  match ob_driver connection with
  | None => exit ADBC_STATUS_INVALID_STATE
  | Some d =>
      status ← catch (call_slot d S_StatementNew (OtherArgs arg));
      put_driver (Some d) ;;
      return_code status
  end.
Definition AdbcStatementRelease : M OState' unit :=
  driver ← gets (fun s => ob_driver s.2);
  match driver with
  | None => exit ADBC_STATUS_INVALID_STATE
  | Some d =>
      status ← catch (call_slot d S_StatementRelease NoArgs);
      put_driver None ;;
      return_code status
  end.

Definition AdbcStatusCodeMessage (code : Z) : string :=
  let case name n := (name +:+ " (" +:+ n +:+ ")")%string in
  if code =? ADBC_STATUS_OK then case "ADBC_STATUS_OK" "0"
  else if code =? ADBC_STATUS_UNKNOWN then case "ADBC_STATUS_UNKNOWN" "1"
  else if code =? ADBC_STATUS_NOT_IMPLEMENTED then case "ADBC_STATUS_NOT_IMPLEMENTED" "2"
  else if code =? ADBC_STATUS_NOT_FOUND then case "ADBC_STATUS_NOT_FOUND" "3"
  else if code =? ADBC_STATUS_ALREADY_EXISTS then case "ADBC_STATUS_ALREADY_EXISTS" "4"
  else if code =? ADBC_STATUS_INVALID_ARGUMENT then case "ADBC_STATUS_INVALID_ARGUMENT" "5"
  else if code =? ADBC_STATUS_INVALID_STATE then case "ADBC_STATUS_INVALID_STATE" "6"
  else if code =? ADBC_STATUS_INVALID_DATA then case "ADBC_STATUS_INVALID_DATA" "7"
  else if code =? ADBC_STATUS_INTEGRITY then case "ADBC_STATUS_INTEGRITY" "8"
  else if code =? ADBC_STATUS_INTERNAL then case "ADBC_STATUS_INTERNAL" "9"
  else if code =? ADBC_STATUS_IO then case "ADBC_STATUS_IO" "10"
  else if code =? ADBC_STATUS_CANCELLED then case "ADBC_STATUS_CANCELLED" "11"
  else if code =? ADBC_STATUS_TIMEOUT then case "ADBC_STATUS_TIMEOUT" "12"
  else if code =? ADBC_STATUS_UNAUTHENTICATED then case "ADBC_STATUS_UNAUTHENTICATED" "13"
  else if code =? ADBC_STATUS_UNAUTHORIZED then case "ADBC_STATUS_UNAUTHORIZED" "14"
  else "(invalid code)"%string.
End api.

(** * Complete tables *)

(** Every slot the manager calls without a test, which are all but one. *)
Definition complete {D P A I} (dv : AdbcDriver D P A I) : Prop :=
  forall slot, slot <> S_StatementBindStream -> is_Some (dv_slot dv slot).
Definition required_slots : list driver_slot :=
  [S_DatabaseNew; S_DatabaseInit; S_DatabaseRelease; S_ConnectionNew; S_ConnectionInit;
   S_ConnectionRelease; S_StatementExecuteQuery; S_StatementNew; S_StatementRelease].
Definition slot_of (r : requirement) : driver_slot :=
  match r with Required slot _ | Default slot => slot end.

Section facts.
  Context {D P A : Type} `{L : !Loader D P A}.

Abbreviation Driver := (AdbcDriver D P A ld_init).
(** The table after its empty optional slots among [rs] have been given the stub. *)
Definition filled (rs : list requirement) (dv : Driver) (slot : driver_slot)
    : option (callback D P A ld_init) :=
  match dv_slot dv slot with
  | Some f => Some f
  | None => if decide (slot ∈ map slot_of rs) then Some stub else None
  end.

(** When an error has a message it can be released. *)
Definition error_ok (e : ErrorPtr) : Prop :=
  forall er, e = Some er -> err_message er <> None -> err_release er = true.
Definition appended (message : string) (e : ErrorPtr) : ErrorPtr :=
  match e with
  | None => None
  | Some er =>
      Some (mkError (Some match err_message er with
                          | Some m => m +:+ newline +:+ message
                          | None => message
                          end)%string (err_vendor_code er) (err_sqlstate er) true)
  end.
Lemma SetError_run message e : error_ok e -> SetError message e = Ret tt (appended message e).
Proof.
  intros He. unfold SetError. erewrite bind_ret by done. destruct e as [er|]; [|done]. simpl.
  destruct (err_message er) as [m|] eqn:Hm; [|done].
  by rewrite (He er) by (try done; rewrite Hm; done).
Qed.
Lemma raise_run {S} `{!HasError S} code message (s : S) :
  error_ok (view error_lens s) ->
  raise code message s =
    Exit code (over error_lens (appended message (view error_lens s)) s).
Proof.
  intros He. unfold raise. erewrite bind_ret; [done|]. unfold zoom. by rewrite SetError_run.
Qed.

(** The requirements are met by a table. *)
Definition met (dv : Driver) (r : requirement) : Prop :=
  match r with Required slot _ => is_Some (dv_slot dv slot) | Default _ => True end.
#[local] Instance met_dec dv r : Decision (met dv r).
Proof. destruct r; simpl; apply _. Defined.

Lemma filled_skip r rs dv f : dv_slot dv (slot_of r) = Some f ->
  forall slot, filled rs dv slot = filled (r :: rs) dv slot.
Proof.
  intros Hf slot. unfold filled. simpl. destruct (dv_slot dv slot) eqn:?; [done|].
  repeat destruct decide; set_solver.
Qed.
Lemma filled_stub slot rs dv : dv_slot dv slot = None ->
  forall sl, filled rs (set_slot slot stub dv) sl = filled (Default slot :: rs) dv sl.
Proof.
  intros Hn sl. unfold filled. simpl. destruct (decide (sl = slot)) as [->|].
  - rewrite Hn. destruct decide; set_solver.
  - destruct (dv_slot dv sl) eqn:?; [done|]. repeat destruct decide; set_solver.
Qed.

Lemma check_table_passes rs s :
  Forall (met s.1) rs ->
  exists dv, check_table rs s = Ret tt (dv, s.2) /\ (forall slot, dv_slot dv slot = filled rs s.1 slot) /\
    dv_release dv = dv_release s.1 /\ dv_manager dv = dv_manager s.1.
Proof.
  revert s. induction rs as [|r rs IH]; intros [dv s] Hf; simpl.
  { exists dv. split_and!; [done| |done..]. intros slot. unfold filled. by destruct (dv_slot dv slot). }
  apply Forall_cons in Hf as [Hr Hrest].
  assert (forall f, dv_slot dv (slot_of r) = Some f -> exists dv', check_table rs (dv, s) = Ret tt (dv', s) /\
    (forall slot, dv_slot dv' slot = filled (r :: rs) dv slot) /\
    dv_release dv' = dv_release dv /\ dv_manager dv' = dv_manager dv) as Hskip.
  { intros f Hf. destruct (IH (dv, s) Hrest) as (dv' & ? & Hd & ?). exists dv'.
    split_and!; [done| |naive_solver..]. intros sl. by rewrite <- (filled_skip _ _ _ _ Hf), Hd. }
  destruct r as [slot name|slot]; simpl in *; (erewrite bind_ret by done); simpl.
  - destruct Hr as [f Hf]. rewrite Hf. by eapply Hskip.
  - destruct (dv_slot dv slot) as [f|] eqn:Hslot; [by eapply Hskip|].
    erewrite bind_ret by done. simpl. destruct (IH (set_slot slot stub dv, s)) as (dv' & ? & Hd & ?).
    { eapply Forall_impl; [exact Hrest|]. intros [sl n|]; simpl; [|done]. by destruct decide. }
    exists dv'. split_and!; [done| |naive_solver..]. intros sl. by rewrite <- filled_stub, Hd.
Qed.

Lemma check_table_refuses rs s :
  NoDup (map slot_of rs) -> error_ok s.2.1 -> Exists (fun r => ~ met s.1 r) rs ->
  exists dv name slot, check_table rs s =
      Exit ADBC_STATUS_INTERNAL
        (dv, (appended ("Driver does not implement required function Adbc" +:+ name) s.2.1, s.2.2)) /\
    Required slot name ∈ rs /\ dv_slot s.1 slot = None.
Proof.
  intros Hnd He. revert s He. induction rs as [|r rs IH]; intros [dv [e w]] He Hx; [by inversion Hx|].
  simpl in He. apply NoDup_cons in Hnd as [Hnew Hnd]. specialize (IH Hnd).
  apply Exists_cons in Hx.
  assert (met dv r -> exists dv' name slot, check_table rs (dv, (e, w)) =
      Exit ADBC_STATUS_INTERNAL
        (dv', (appended ("Driver does not implement required function Adbc" +:+ name) e, w)) /\
    Required slot name ∈ r :: rs /\ dv_slot dv slot = None) as Hskip.
  { intros Hm. destruct Hx as [Hn|Hx]; [by destruct Hn|].
    destruct (IH (dv, (e, w)) He Hx) as (dv' & n & sl & -> & ? & ?). exists dv', n, sl. set_solver. }
  destruct r as [slot name|slot]; simpl in *; (erewrite bind_ret by done); simpl;
    destruct (dv_slot dv slot) as [f|] eqn:Hslot.
  - apply Hskip. done.
  - rewrite raise_run by done. exists dv, name, slot. set_solver.
  - by apply Hskip.
  - erewrite bind_ret by done. simpl. destruct Hx as [Hn|Hx]; [by destruct Hn|].
    destruct (IH (set_slot slot stub dv, (e, w)) He) as (dv' & n & sl & -> & Hin & Hnone).
    { apply Exists_exists in Hx as (r & Hr & Hm). apply Exists_exists. exists r. split; [done|].
      destruct r as [sl n|sl]; simpl in *; [|done]. destruct decide as [->|]; [|done].
      destruct Hnew. apply (list_elem_of_fmap_2 slot_of rs _) in Hr. exact Hr. }
    exists dv', n, sl. simpl in Hnone. destruct decide; set_solver.
Qed.

Lemma requirements_distinct : NoDup (map slot_of requirements).
Proof. apply (bool_decide_eq_true_1 _). reflexivity. Qed.
Lemma requirements_required r : r ∈ requirements ->
  match r with Required slot _ => slot ∈ required_slots | Default _ => True end.
Proof.
  revert r. apply Forall_forall. unfold requirements. repeat constructor.
Qed.

(** C7: Loading a driver checks and completes its table exactly: once the driver's entry point
    has returned, either all nine required functions are present, and then every function the
    driver supplies is kept, every optional one it lacks becomes the stub that returns
    NOT_IMPLEMENTED, and only [StatementBindStream] can stay a null pointer; or one is missing,
    and then the result is INTERNAL with its name appended to the error. *)
Theorem AdbcLoadDriverFromInitFunc_checks (init_func : ld_init) (s s1 : LState)
  (Hinit : ld_run init_func ADBC_VERSION_1_0_0 s = Ret tt s1) (Herror : error_ok s1.2.1) :
  (Forall (fun slot => is_Some (dv_slot s1.1 slot)) required_slots /\
   exists dv, AdbcLoadDriverFromInitFunc init_func ADBC_VERSION_1_0_0 s = Ret tt (dv, s1.2) /\
     (forall slot, dv_slot dv slot =
        match dv_slot s1.1 slot with
        | Some f => Some f
        | None => if decide (slot = S_StatementBindStream) then None else Some stub
        end) /\ complete dv) \/
  (exists dv name slot, AdbcLoadDriverFromInitFunc init_func ADBC_VERSION_1_0_0 s =
      Exit ADBC_STATUS_INTERNAL
        (dv, (appended ("Driver does not implement required function Adbc" +:+ name) s1.2.1, s1.2.2)) /\
     slot ∈ required_slots /\ dv_slot s1.1 slot = None).
Proof.
  unfold AdbcLoadDriverFromInitFunc. erewrite bind_ret by exact Hinit.
  change (ADBC_VERSION_1_0_0 =? ADBC_VERSION_1_0_0) with true. cbn iota.
  destruct (decide (Forall (met s1.1) requirements)) as [Hall|Hnot].
  - left. destruct (check_table_passes requirements s1 Hall) as (dv & Hrun & Hdv & _).
    assert (forall slot, slot ∈ required_slots -> is_Some (dv_slot s1.1 slot)) as Hreq.
    { rewrite <- Forall_forall. unfold requirements in Hall. repeat apply Forall_cons in Hall as [? Hall].
      unfold required_slots. by repeat constructor. }
    assert (forall slot, dv_slot dv slot =
        match dv_slot s1.1 slot with
        | Some f => Some f
        | None => if decide (slot = S_StatementBindStream) then None else Some stub
        end) as Hslots.
    { intros slot. rewrite Hdv. unfold filled. destruct (dv_slot s1.1 slot) eqn:Hn; [done|].
      destruct slot; try done;
        destruct (Hreq _ ltac:(apply (bool_decide_eq_true_1 _); reflexivity)); congruence. }
    split; [by apply Forall_forall|]. exists dv. split_and!; [done..|].
    intros slot Hne. rewrite Hslots. destruct (dv_slot s1.1 slot); [done|]. by destruct decide.
  - right. apply not_Forall_Exists in Hnot; [|apply _].
    destruct (check_table_refuses requirements s1) as (dv & name & slot & Hrun & Hin & Hnone); [|done..|].
    { apply requirements_distinct. }
    exists dv, name, slot. split_and!; [done| |done].
    apply (requirements_required _ Hin).
Qed.

(** ** Options kept until initialisation *)

(** Calls of a driver's functions in sequence, up to the first failure. *)
Fixpoint run_calls (dv : Driver) (calls : list (driver_slot * call_args A))
    : M (CallState D P ld_init) unit :=
  match calls with
  | [] => mret tt
  | (slot, args) :: rest =>
      f ← lift_opt (dv_slot dv slot);
      (f : callback D P A ld_init) args ;; run_calls dv rest
  end.
Definition set_option (kv : string * string) : driver_slot * call_args A :=
  (S_DatabaseSetOption, OptionArgs kv.1 kv.2).
Fixpoint stage (kvs : list (string * string)) : M (OState D P A) unit :=
  match kvs with
  | [] => mret tt
  | kv :: rest => AdbcDatabaseSetOption kv.1 kv.2 ;; stage rest
  end.
(** The value a key was given last. *)
Definition last_value (kvs : list (string * string)) (key : string) : option string :=
  last (map snd (filter (fun kv => kv.1 = key) kvs)).
Definition is_plain (key : string) : bool := negb (streq key "driver" || streq key "entrypoint").

Definition staged (kvs : list (string * string)) (t : TempDatabase ld_init) : Prop :=
  (forall k, td_options t !! k = if is_plain k then last_value kvs k else None) /\
  td_driver t = default "" (last_value kvs "driver") /\
  td_entrypoint t = default "AdbcDriverInit" (last_value kvs "entrypoint") /\ td_init_func t = None.
Lemma last_value_snoc kvs k v key :
  last_value (kvs ++ [(k, v)]) key = if decide (k = key) then Some v else last_value kvs key.
Proof.
  unfold last_value. rewrite filter_app, map_app. unfold filter at 2. simpl.
  destruct decide; simpl; [by rewrite last_snoc|by rewrite app_nil_r].
Qed.

Lemma stage_spec kvs done ms t :
  staged done t ->
  exists t', stage kvs (ms, mkObject (PTempDatabase t) None) =
      Ret tt (ms, mkObject (PTempDatabase t') None) /\ staged (done ++ kvs) t'.
Proof.
  revert done t. induction kvs as [|[k v] kvs IH]; intros done t Hst; simpl.
  { exists t. by rewrite app_nil_r. }
  replace (done ++ (k, v) :: kvs) with ((done ++ [(k, v)]) ++ kvs) by (by rewrite <- app_assoc).
  destruct Hst as (Ho & Hd & He & Hi). unfold AdbcDatabaseSetOption.
  assert (forall t', staged (done ++ [(k, v)]) t' -> exists t'',
    (put_private (PTempDatabase t') ;; stage kvs) (ms, mkObject (PTempDatabase t) None) =
      Ret tt (ms, mkObject (PTempDatabase t'') None) /\ staged ((done ++ [(k, v)]) ++ kvs) t'') as Hgo.
  { intros t' Ht'. destruct (IH _ _ Ht') as (t'' & Hrun & Hst). exists t''. split; [|done].
    by erewrite bind_ret by done. }
  destruct (streq k "driver") eqn:Hkd; [|destruct (streq k "entrypoint") eqn:Hke].
  - apply String.eqb_eq in Hkd as ->. apply (Hgo (mkTempDatabase (td_options t) v (td_entrypoint t) _)).
    split_and!; simpl; [|by rewrite last_value_snoc|by rewrite last_value_snoc|done].
    intros key. rewrite Ho. destruct (is_plain key) eqn:Hp; [|done]. rewrite last_value_snoc.
    by destruct decide as [<-|].
  - apply String.eqb_eq in Hke as ->. apply (Hgo (mkTempDatabase (td_options t) (td_driver t) v _)).
    split_and!; simpl; [|by rewrite last_value_snoc|by rewrite last_value_snoc|done].
    intros key. rewrite Ho. destruct (is_plain key) eqn:Hp; [|done]. rewrite last_value_snoc.
    by destruct decide as [<-|].
  - apply (Hgo (mkTempDatabase (<[k := v]> (td_options t)) (td_driver t) (td_entrypoint t) _)).
    apply String.eqb_neq in Hkd, Hke.
    split_and!; simpl; [|rewrite last_value_snoc; by destruct decide..|done].
    intros key. rewrite last_value_snoc. destruct decide as [<-|Hne].
    + etrans; [apply (lookup_insert_eq (M := gmap string))|]. unfold is_plain, streq. by rewrite (proj2 (String.eqb_neq _ _) Hkd),
        (proj2 (String.eqb_neq _ _) Hke).
    + etrans; [by apply (lookup_insert_ne (M := gmap string))|apply Ho].
Qed.

(** A call's state inside the manager's, and back. *)
Definition call_of (s : OState D P A) : CallState D P ld_init :=
  mkCall (ms_error s.1) (ob_private s.2) (ms_world s.1).
Definition back_in (s : OState D P A) (c : CallState D P ld_init) : OState D P A :=
  (mkMS (cs_error c) (cs_world c) (ms_drivers s.1), mkObject (cs_private c) (ob_driver s.2)).
Definition has_driver (d : nat) (dv : Driver) (s : OState D P A) : Prop :=
  ms_drivers s.1 !! d = Some (Some dv).
Lemma call_of_back s c : call_of (back_in s c) = c.
Proof. by destruct c. Qed.
Lemma back_back s c c' : back_in (back_in s c) c' = back_in s c'.
Proof. done. Qed.

Lemma call_slot_run d dv slot f args s :
  has_driver d dv s -> dv_slot dv slot = Some f ->
  call_slot d slot args s =
    match f args (call_of s) with
    | Ret _ c => Ret tt (back_in s c)
    | Exit code c => Exit code (back_in s c)
    | Undef => Undef
    | NoFuel => NoFuel
    end.
Proof.
  intros Hd Hf. unfold call_slot. erewrite bind_ret.
  2:{ unfold zoom, driver_at. erewrite bind_ret by done. simpl. by rewrite Hd. }
  rewrite Hf. destruct s as [[] []]. done.
Qed.
Lemma call_slot_catch d dv slot f args s rc c :
  has_driver d dv s -> dv_slot dv slot = Some f -> finish (f args (call_of s)) = Some (rc, c) ->
  catch (call_slot d slot args) s = Ret rc (back_in s c).
Proof.
  intros Hd Hf Hrun. unfold catch. rewrite (call_slot_run _ dv _ f) by done.
  destruct (f args (call_of s)) as [[] ?|? ?| |]; simpl in Hrun; congruence.
Qed.
Lemma has_driver_new (s : OState D P A) dv e w p :
  has_driver (length (ms_drivers s.1)) dv
    (mkMS e w (ms_drivers s.1 ++ [Some dv]), p).
Proof. unfold has_driver. simpl. by apply list_lookup_middle. Qed.
(** A sequence of calls that all succeed starts with one that does. *)
Lemma run_calls_cons dv slot args rest c c' :
  run_calls dv ((slot, args) :: rest) c = Ret tt c' ->
  exists f c1, dv_slot dv slot = Some f /\ f args c = Ret tt c1 /\ run_calls dv rest c1 = Ret tt c'.
Proof.
  simpl. intros Hr. destruct (dv_slot dv slot) as [f|]; [|done].
  apply bind_ret_inv in Hr as (g & c0 & [= <- <-] & Hr). 
  apply bind_ret_inv in Hr as ([] & c1 & Hf & Hr). by exists f, c1.
Qed.
Lemma run_calls_app dv a b c c' :
  run_calls dv (a ++ b) c = Ret tt c' ->
  exists c1, run_calls dv a c = Ret tt c1 /\ run_calls dv b c1 = Ret tt c'.
Proof.
  revert c. induction a as [|[slot args] a IH]; intros c; [by exists c|].
  intros (f & c1 & Hs & Hf & Hr)%run_calls_cons. destruct (IH _ Hr) as (c2 & Ha & Hb).
  exists c2. split; [|done]. simpl. rewrite Hs. erewrite bind_ret by done. by erewrite bind_ret by done.
Qed.
Lemma set_options_run d dv opts rest s c :
  has_driver d dv s -> run_calls dv (map set_option opts) (call_of s) = Ret tt c ->
  set_database_options d (opts ++ rest) s = set_database_options d rest (back_in s c).
Proof.
  revert s. induction opts as [|[k v] opts IH]; intros s Hd; cbn [map app set_option].
  { intros [= <-]. by destruct s as [[] []]. }
  intros (f & c1 & Hs & Hf & Hr)%run_calls_cons. cbn [set_database_options fst snd] in *.
  erewrite bind_ret.
  2:{ apply catch_ret. rewrite (call_slot_run _ dv _ f) by done. by rewrite Hf. }
  change (0 =? ADBC_STATUS_OK) with true. cbn iota.
  rewrite <- (back_back s c1 c). apply IH; [done|]. by rewrite call_of_back.
Qed.

(** [AdbcDatabaseInit] up to the driver's [DatabaseNew]. *)
Lemma init_loads s t init dv e w f c :
  ob_private s.2 = PTempDatabase t -> td_init_func t = Some init ->
  AdbcLoadDriverFromInitFunc init ADBC_VERSION_1_0_0 (zero_driver, (ms_error s.1, ms_world s.1)) =
    Ret tt (dv, (e, w)) ->
  dv_slot dv S_DatabaseNew = Some f -> f NoArgs (mkCall e PNull w) = Ret tt c ->
  AdbcDatabaseInit s =
    (set_database_options (length (ms_drivers s.1)) (iteration (td_options t)) ;;
     call_slot (length (ms_drivers s.1)) S_DatabaseInit NoArgs)
      (mkMS (cs_error c) (cs_world c) (ms_drivers s.1 ++ [Some dv]),
       mkObject (cs_private c) (Some (length (ms_drivers s.1)))).
Proof.
  intros Hp Hi Hload Hf Hnew. destruct s as [[er wd ds] [p dr]]. simpl in *. subst p.
  unfold AdbcDatabaseInit. erewrite bind_ret by done. cbn [is_null ob_private snd].
  erewrite bind_ret by done. rewrite Hi, (bool_decide_eq_false_2 (Some init = None)) by done. cbn [andb].
  erewrite bind_ret by done. erewrite bind_ret by done. erewrite bind_ret.
  2:{ apply catch_ret. unfold zoom, load_into. erewrite bind_ret.
      2:{ unfold driver_at. erewrite bind_ret by done. simpl. by rewrite list_lookup_middle. }
      simpl. rewrite Hload. done. }
  change (negb (0 =? ADBC_STATUS_OK)) with false. cbn iota. simpl.
  erewrite bind_ret.
  2:{ apply catch_ret. rewrite (call_slot_run _ dv _ f);
        [unfold call_of; simpl; by rewrite Hnew| |done]. unfold has_driver. simpl. apply list_lookup_insert_eq. rewrite length_app. simpl. lia. }
  change (negb (0 =? ADBC_STATUS_OK)) with false. cbn iota. unfold back_in. simpl.
  rewrite insert_app_r_alt, Nat.sub_diag by lia. done.
Qed.

(** C6: Options set before a database is initialised are not lost or reordered into something
    else: after [AdbcDatabaseNew], any [AdbcDatabaseSetOption]s and the choice of a driver,
    [AdbcDatabaseInit] runs exactly [DatabaseNew], one [DatabaseSetOption] for each key except
    "driver" and "entrypoint" with the value it was given last, then [DatabaseInit] on the
    driver's completed table, and the database is the driver's from then on. *)
Theorem staged_options_replayed `{!LoaderOrder L} (kvs : list (string * string)) (init : ld_init)
  (ms : MS D P A) (o : Object D P A) (dv : Driver) (e : ErrorPtr) (w : D)
  (Hload : AdbcLoadDriverFromInitFunc init ADBC_VERSION_1_0_0 (zero_driver, (ms_error ms, ms_world ms)) =
     Ret tt (dv, (e, w))) :
  exists opts : list (string * string),
    NoDup opts.*1 /\
    (forall k v, (k, v) ∈ opts <-> is_plain k = true /\ last_value kvs k = Some v) /\
    forall c, run_calls dv ((S_DatabaseNew, NoArgs) :: map set_option opts ++ [(S_DatabaseInit, NoArgs)])
                (mkCall e PNull w) = Ret tt c ->
      (AdbcDatabaseNew ;; stage kvs ;; AdbcDriverManagerDatabaseSetInitFunc (Some init) ;;
       AdbcDatabaseInit) (ms, o) =
      Ret tt (mkMS (cs_error c) (cs_world c) (ms_drivers ms ++ [Some dv]),
              mkObject (cs_private c) (Some (length (ms_drivers ms)))).
Proof.
  destruct (stage_spec kvs [] ms (mkTempDatabase ∅ "" "AdbcDriverInit" None)) as (t & Hstage & Ht).
  { split_and!; [|done..]. intros k. by destruct is_plain. }
  exists (iteration (td_options t)). split_and!.
  - rewrite (iteration_perm (td_options t)). apply (NoDup_fst_map_to_list (M := gmap string)).
  - intros k v. rewrite (iteration_perm (td_options t)). destruct Ht as [Ho _].
    etrans; [apply (elem_of_map_to_list (M := gmap string))|].
    specialize (Ho k). unfold options_map in *. rewrite Ho. by destruct (is_plain k); naive_solver.
  - intros c (f & c1 & Hf & Hnew & Hr)%run_calls_cons.
    apply run_calls_app in Hr as (c2 & Hopts & (g & c3 & Hg & Hinit & [= ->])%run_calls_cons).
    erewrite bind_ret by done. simpl. erewrite bind_ret by exact Hstage. erewrite bind_ret by done.
    rewrite (init_loads _ (mkTempDatabase (td_options t) (td_driver t) (td_entrypoint t) (Some init))
      init dv e w f c1) by done. simpl.
    rewrite <- (app_nil_r (iteration _)). erewrite bind_ret.
    2:{ erewrite (set_options_run _ dv); [done| |by destruct c1].
        unfold has_driver. simpl. by apply list_lookup_middle. }
    rewrite (call_slot_run _ dv _ g); [|unfold has_driver; simpl; by apply list_lookup_middle|done].
    rewrite call_of_back, Hinit. done.
Qed.

Lemma drop_driver_run d dv s :
  has_driver d dv s -> dv_release dv = RelNull ->
  drop_driver d s = Ret tt (mkMS (ms_error s.1) (ms_world s.1) (<[d := None]> (ms_drivers s.1)),
                            mkObject (ob_private s.2) None).
Proof.
  intros Hd Hr. unfold drop_driver. erewrite bind_ret.
  2:{ unfold zoom, release_driver. erewrite bind_ret.
      2:{ unfold driver_at. erewrite bind_ret by done. simpl. by rewrite Hd. }
      by rewrite Hr. }
  by erewrite bind_ret by done.
Qed.

(** When the driver refuses a staged option, [AdbcDatabaseInit] undoes the initialisation:
    the options before it were set, the later ones are not, the driver's [DatabaseRelease] is
    called whatever it answers, the table is freed, the database is empty, and the code of the
    refusal is returned. *)
Theorem refused_option_releases (s : OState D P A) (t : TempDatabase ld_init) (init : ld_init)
  (dv : Driver) (e : ErrorPtr) (w : D) (before after : list (string * string)) (k v : string)
  (code rc : Z) (c c1 c2 : CallState D P ld_init) (set release : callback D P A ld_init)
  (Hprivate : ob_private s.2 = PTempDatabase t) (Hinit : td_init_func t = Some init)
  (Hload : AdbcLoadDriverFromInitFunc init ADBC_VERSION_1_0_0 (zero_driver, (ms_error s.1, ms_world s.1)) =
     Ret tt (dv, (e, w)))
  (Horder : iteration (td_options t) = before ++ (k, v) :: after)
  (Hbefore : run_calls dv ((S_DatabaseNew, NoArgs) :: map set_option before) (mkCall e PNull w) = Ret tt c)
  (Hset : dv_slot dv S_DatabaseSetOption = Some set)
  (Hrefused : set (OptionArgs k v) c = Exit code c1) (Hcode : code <> ADBC_STATUS_OK)
  (Hrelease : dv_slot dv S_DatabaseRelease = Some release)
  (Hreleased : finish (release NoArgs c1) = Some (rc, c2))
  (Hplain : dv_release dv = RelNull) :
  AdbcDatabaseInit s =
    Exit code (mkMS (cs_error c2) (cs_world c2) (ms_drivers s.1 ++ [None]), mkObject PNull None).
Proof.
  apply run_calls_cons in Hbefore as (f & c0 & Hf & Hnew & Hbefore).
  rewrite (init_loads s t init dv e w f c0) by done. rewrite Horder. apply bind_exit.
  rewrite (set_options_run _ dv _ _ _ c); [|apply has_driver_new|by destruct c0].
  cbn [set_database_options]. erewrite bind_ret.
  2:{ apply (call_slot_catch _ dv _ set _ _ code c1); [apply has_driver_new|done|].
      by rewrite call_of_back, Hrefused. }
  rewrite (proj2 (Z.eqb_neq _ _) Hcode). erewrite bind_ret.
  2:{ unfold ignore. erewrite bind_ret; [done|].
      apply (call_slot_catch _ dv _ release _ _ rc c2); [apply has_driver_new|done|].
      by rewrite call_of_back. }
  erewrite bind_ret by (apply (drop_driver_run _ dv); [apply has_driver_new|done]).
  unfold back_in. simpl. by rewrite insert_app_r_alt, Nat.sub_diag by lia.
Qed.

(** The fallback for a driver's name adds the prefix and the suffix, but the suffix is
    looked for at the wrong place unless the name starts with "lib": a name such as "foo.so"
    becomes "libfoo.so.so", never "libfoo.so". *)
Theorem full_driver_name_suffix (name : string) (Hlong : (3 <= String.length name)%nat) :
  full_driver_name name =
    Some (if differs_at name 0 3 kPlatformLibraryPrefix
          then (kPlatformLibraryPrefix +:+ name +:+ kPlatformLibrarySuffix)%string
          else if differs_at name (String.length name - 3) 3 kPlatformLibrarySuffix
               then (name +:+ kPlatformLibrarySuffix)%string else name).
Proof.
  unfold full_driver_name. rewrite (proj2 (Nat.ltb_ge _ _)) by lia. cbn [orb].
  destruct (differs_at name 0 3 kPlatformLibraryPrefix); simpl;
    change (String.length ("" +:+ name)) with (String.length name).
  - rewrite Nat.sub_0_r, Nat.ltb_irrefl. unfold differs_at. rewrite substring_end. simpl.
    by rewrite <- string_app_assoc.
  - rewrite (proj2 (Nat.ltb_ge _ _)) by lia. by destruct (differs_at name _ 3 _).
Qed.
End facts.

Section witnesses.
(** A driver that logs the calls it gets and refuses an option named "bad". *)
Inductive toy := Full | WithoutNew | WithoutStatements.
Definition event : Type := driver_slot * call_args unit.
Definition log_call (slot : driver_slot) : callback (list event) unit unit toy := fun args c =>
  let c' := mkCall (cs_error c) (cs_private c) (cs_world c ++ [(slot, args)]) in
  match args with
  | OptionArgs "bad" _ => Exit ADBC_STATUS_NOT_IMPLEMENTED c'
  | _ => Ret tt c'
  end.
Definition toy_slots (t : toy) (slot : driver_slot) : bool :=
  match t with
  | Full => true
  | WithoutNew => negb (bool_decide (slot = S_DatabaseNew))
  | WithoutStatements =>
      negb (bool_decide (slot ∈ [S_StatementBind; S_StatementBindStream; S_ConnectionCommit]))
  end.
#[local] Instance toy_loader : Loader (list event) unit unit := {|
  ld_init := toy;
  ld_run t _ s :=
    Ret tt (mkDriver (fun slot => if toy_slots t slot then Some (log_call slot) else None)
              RelNull None, s.2);
  ld_library := unit;
  dlopen _ := None;
  dlsym _ _ := None;
  dlerror name := (name +:+ ": not found")%string;
  iteration m := map_to_list (m : gmap string string);
|}.
Lemma toy_order : LoaderOrder toy_loader.
Proof. intros m. reflexivity. Defined.

Definition toy_table (t : toy) : AdbcDriver (list event) unit unit toy :=
  mkDriver (fun slot => if toy_slots t slot then Some (log_call slot) else None) RelNull None.
Definition loaded (t : toy) : LState (L := toy_loader) := (toy_table t, (Some zero_error, [])).
Lemma AdbcLoadDriverFromInitFunc_checks_witness :
  ld_run WithoutNew ADBC_VERSION_1_0_0 (zero_driver, (Some zero_error, [])) =
    Ret tt (loaded WithoutNew) /\
  ((Forall (fun slot => is_Some (dv_slot (toy_table WithoutNew) slot)) required_slots /\
    exists dv, AdbcLoadDriverFromInitFunc WithoutNew ADBC_VERSION_1_0_0
        (zero_driver, (Some zero_error, [])) = Ret tt (dv, (Some zero_error, [])) /\
      (forall slot, dv_slot dv slot =
         match dv_slot (toy_table WithoutNew) slot with
         | Some f => Some f
         | None => if decide (slot = S_StatementBindStream) then None else Some stub
         end) /\ complete dv) \/
   (exists dv name slot, AdbcLoadDriverFromInitFunc WithoutNew ADBC_VERSION_1_0_0
        (zero_driver, (Some zero_error, [])) =
       Exit ADBC_STATUS_INTERNAL
         (dv, (appended ("Driver does not implement required function Adbc" +:+ name) (Some zero_error),
               [])) /\
      slot ∈ required_slots /\ dv_slot (toy_table WithoutNew) slot = None)).
Proof.
  split; [reflexivity|].
  refine (AdbcLoadDriverFromInitFunc_checks WithoutNew (zero_driver, (Some zero_error, []))
    (loaded WithoutNew) eq_refl _).
  intros er [= <-] Hm. destruct Hm. reflexivity.
Defined.

Definition toy_options : list (string * string) :=
  [("driver", "x"); ("a", "1"); ("a", "2")]%string.
Definition toy_state : MS (list event) unit unit := mkMS None [] [].
Definition no_object : Object (list event) unit unit := mkObject PNull None.
Lemma staged_options_replayed_witness :
  exists dv opts, NoDup opts.*1 /\
    (forall k v, (k, v) ∈ opts <-> is_plain k = true /\ last_value toy_options k = Some v) /\
    forall c, run_calls dv ((S_DatabaseNew, NoArgs) :: map set_option opts ++ [(S_DatabaseInit, NoArgs)])
                (mkCall None PNull []) = Ret tt c ->
      (AdbcDatabaseNew ;; stage toy_options ;; AdbcDriverManagerDatabaseSetInitFunc (Some WithoutStatements) ;;
       AdbcDatabaseInit) (toy_state, no_object) =
      Ret tt (mkMS (cs_error c) (cs_world c) [Some dv], mkObject (cs_private c) (Some 0%nat)).
Proof.
  eexists.
  refine (@staged_options_replayed _ _ _ toy_loader toy_order toy_options WithoutStatements toy_state
    no_object _ _ _ _).
  reflexivity.
Defined.

Definition bad_options : options_map := {["bad"%string := "v"%string]}.
Definition bad_database : TempDatabase toy := mkTempDatabase bad_options "" "" (Some Full).
Lemma refused_option_releases_witness :
  AdbcDatabaseInit (toy_state, mkObject (PTempDatabase bad_database) None) =
    Exit ADBC_STATUS_NOT_IMPLEMENTED
      (mkMS None [(S_DatabaseNew, NoArgs); (S_DatabaseSetOption, OptionArgs "bad" "v");
                  (S_DatabaseRelease, NoArgs)] [None], mkObject PNull None).
Proof.
  refine (refused_option_releases (toy_state, mkObject (PTempDatabase bad_database) None) bad_database Full
    (toy_table Full) None [] [] [] "bad" "v" ADBC_STATUS_NOT_IMPLEMENTED 0 _ _ _ _ _ eq_refl eq_refl
    eq_refl _ eq_refl eq_refl eq_refl _ eq_refl eq_refl eq_refl).
  - vm_compute. reflexivity.
  - discriminate.
Defined.

Lemma full_driver_name_suffix_witness :
  full_driver_name "foo.so" = Some "libfoo.so.so"%string.
Proof. apply (full_driver_name_suffix "foo.so"). repeat constructor. Defined.
End witnesses.
