(* ===== verification/SqliteDriver.v ===== *)
(** The SQLite driver as a whole (c/driver/sqlite/sqlite.c): its entry point, which fills the
    table of callbacks, and its public names. *)
From stdpp Require Import base tactics list numbers option strings gmap.
From Stdlib Require Import ZArith Lia.
From S2P Require Import Prelude CLib Schema Array Adbc Utils Sqlite3 Binder Reader Connection.
From S2P Require Import Objects Statement DriverManager.

(** * The table

    [memset] clears it; a slot is true when the driver sets it. *)
Definition sqlite_slots : list driver_slot :=
  [S_DatabaseInit; S_DatabaseNew; S_DatabaseRelease; S_DatabaseSetOption;
   S_ConnectionCommit; S_ConnectionGetInfo; S_ConnectionGetObjects;
   S_ConnectionGetTableSchema; S_ConnectionGetTableTypes; S_ConnectionInit; S_ConnectionNew;
   S_ConnectionReadPartition; S_ConnectionRelease; S_ConnectionRollback;
   S_ConnectionSetOption;
   S_StatementBind; S_StatementBindStream; S_StatementExecuteQuery;
   S_StatementGetParameterSchema; S_StatementNew; S_StatementPrepare; S_StatementRelease;
   S_StatementSetOption; S_StatementSetSqlQuery].

Section init.
  Context `{Libc} {CB : Type} (callbacks : driver_slot -> CB).

(** [callbacks] names the driver's function for a slot. *)
Definition SqliteDriverInit (version : Z) : M (ErrorPtr * (driver_slot -> option CB)) unit :=
  if negb (version =? ADBC_VERSION_1_0_0) then
    fail ADBC_STATUS_NOT_IMPLEMENTED "Only version %d supported, got %d"
      [AInt ADBC_VERSION_1_0_0; AInt version]
  else
  modify (fun s => (s.1, fun slot => if bool_decide (slot ∈ sqlite_slots)
                                     then Some (callbacks slot) else None)).
End init.

(** * Public names *)
Module Public.
Section names.
  Context `{Libc} `{Sqlite3}.

Definition AdbcDatabaseNew := SqliteDatabaseNew.
Definition AdbcDatabaseSetOption := SqliteDatabaseSetOption.
Definition AdbcDatabaseInit := SqliteDatabaseInit.
Definition AdbcDatabaseRelease := SqliteDatabaseRelease.
Definition AdbcConnectionNew := SqliteConnectionNew.
Definition AdbcConnectionSetOption := SqliteConnectionSetOption.
Definition AdbcConnectionInit := SqliteConnectionInit.
Definition AdbcConnectionRelease := SqliteConnectionRelease.
Definition AdbcConnectionGetInfo := SqliteConnectionGetInfo.
Definition AdbcConnectionGetObjects := SqliteConnectionGetObjects.
Definition AdbcConnectionGetTableSchema := SqliteConnectionGetTableSchema.
Definition AdbcConnectionGetTableTypes := SqliteConnectionGetTableTypes.
Definition AdbcConnectionReadPartition := SqliteConnectionReadPartition.
Definition AdbcConnectionCommit := SqliteConnectionCommit.
Definition AdbcConnectionRollback := SqliteConnectionRollback.
Definition AdbcStatementNew := SqliteStatementNew.
Definition AdbcStatementRelease := SqliteStatementRelease.
Definition AdbcStatementExecuteQuery := SqliteStatementExecuteQuery.
Definition AdbcStatementPrepare := SqliteStatementPrepare.
Definition AdbcStatementSetSqlQuery := SqliteStatementSetSqlQuery.
Definition AdbcStatementSetSubstraitPlan := SqliteStatementSetSubstraitPlan.
Definition AdbcStatementBind := SqliteStatementBind.
Definition AdbcStatementBindStream := SqliteStatementBindStream.
Definition AdbcStatementGetParameterSchema := SqliteStatementGetParameterSchema.
Definition AdbcStatementSetOption := SqliteStatementSetOption.
Definition AdbcStatementExecutePartitions := SqliteStatementExecutePartitions.
End names.
Definition AdbcDriverInit `{Libc} {CB : Type} := SqliteDriverInit (CB := CB).
End Public.

(** * The driver in the manager *)
Section managed.
  Context `{Libc} {D P A : Type} `{L : !Loader D P A}.
  Context (callbacks : driver_slot -> callback D P A ld_init).

(** The entry point as the manager calls it: the whole table is written. *)
Definition sqlite_entry (version : Z) : M (LState (L := L)) unit := fun s =>
  match SqliteDriverInit callbacks version (s.2.1, dv_slot s.1) with
  | Ret _ (e, slots) => Ret tt (mkDriver slots RelNull None, (e, s.2.2))
  | Exit c (e, _) => Exit c (s.1, (e, s.2.2))
  | Undef => Undef
  | NoFuel => NoFuel
  end.

(** The SQLite driver loads through the manager, and its table is then complete: every
    function of the API is the driver's own, except Substrait plans and partitioned execution,
    which the driver leaves out and the manager answers with NOT_IMPLEMENTED; in particular
    [StatementBindStream], which the manager neither checks nor supplies, is there. *)
Theorem sqlite_driver_loads (init : ld_init) (s : LState (L := L))
  (Hentry : forall version, ld_run init version = sqlite_entry version) :
  exists dv, AdbcLoadDriverFromInitFunc init ADBC_VERSION_1_0_0 s = Ret tt (dv, s.2) /\
    forall slot, dv_slot dv slot =
      Some (if decide (slot = S_StatementSetSubstraitPlan \/ slot = S_StatementExecutePartitions)
            then stub else callbacks slot).
Proof.
  set (slots := fun slot => if bool_decide (slot ∈ sqlite_slots) then Some (callbacks slot) else None).
  assert (Forall (met (mkDriver slots RelNull None)) requirements) as Hmet.
  { unfold requirements. repeat constructor; by eexists. }
  destruct (check_table_passes requirements (mkDriver slots RelNull None, s.2) Hmet)
    as (dv & Hrun & Hslots & _).
  exists dv. unfold AdbcLoadDriverFromInitFunc. rewrite Hentry. split.
  - erewrite bind_ret; [exact Hrun|]. by destruct s as [? []].
  - intros slot. rewrite Hslots. by destruct slot.
Qed.
End managed.

Section witnesses.
#[local] Existing Instance host.
#[local] Instance sqlite_loader : Loader unit unit unit := {|
  ld_init := unit;
  ld_run _ version s :=
    match SqliteDriverInit (CB := callback unit unit unit unit) (fun _ _ => mret tt) version
            (s.2.1, dv_slot s.1) with
    | Ret _ (e, slots) => Ret tt (mkDriver slots RelNull None, (e, s.2.2))
    | Exit c (e, _) => Exit c (s.1, (e, s.2.2))
    | Undef => Undef
    | NoFuel => NoFuel
    end;
  ld_library := unit;
  dlopen _ := None;
  dlsym _ _ := None;
  dlerror name := name;
  iteration _ := [];
|}.
Lemma sqlite_driver_loads_witness :
  exists dv, AdbcLoadDriverFromInitFunc (L := sqlite_loader) tt ADBC_VERSION_1_0_0
      (zero_driver, (None, tt)) = Ret tt (dv, (None, tt)) /\
    forall slot, dv_slot dv slot =
      Some (if decide (slot = S_StatementSetSubstraitPlan \/ slot = S_StatementExecutePartitions)
            then stub else fun _ => mret tt).
Proof.
  refine (sqlite_driver_loads (L := sqlite_loader) (fun _ _ => mret tt) tt (zero_driver, (None, tt)) _).
  intros version. reflexivity.
Defined.
End witnesses.
