(* ===== verification/Conformance.v ===== *)
(** The SQLite driver (Connection.v, Statement.v) under the validation suite (Validation.v): it
    conforms to the lifecycle protocol on every SQLite library that opens databases, runs
    transaction commands and rejects what is not SQL. *)
From stdpp Require Import base tactics list numbers option strings.
From Stdlib Require Import ZArith Lia.
From S2P Require Import Prelude CLib Adbc Utils Sqlite3 Binder Reader Connection Statement SqliteDriver Validation.

(** [SqliteQuirks::SetupDatabase] (sqlite_test.cc). *)
Definition sqlite_test_uri : string := "file:Sqlite_Transactions?mode=memory&cache=shared".

(** Small allocations succeed. *)
Class SmallAllocations `{Libc} := small_malloc : forall n, 0 <= n <= 1024 -> malloc_ok n = true.
#[export] Instance host_small : SmallAllocations (H := host).
Proof. intros n Hn. simpl. apply Z.ltb_lt. lia. Qed.

(** What the suite needs of SQLite.  [connected l d]: the open connections are those of [l], each
    with whether it is in a transaction, and no statement is prepared. *)
Class OrderlySqlite3 `{Sqlite3} (connected : list (Z * bool) -> sqlite -> Prop) : Prop := {
  connected_perm l l' d : l ≡ₚ l' -> connected l d -> connected l' d;
  open_connects l d : connected l d -> exists h d',
    sqlite3_open_v2 sqlite_test_uri 70 d = (SQLITE_OK, h, d') /\ h <> 0 /\ connected ((h, false) :: l) d';
  close_disconnects l h b d : connected ((h, b) :: l) d -> exists d',
    sqlite3_close h d = (SQLITE_OK, d') /\ connected l d';
  (** [BEGIN] starts a transaction, [COMMIT] and [ROLLBACK] end it; they answer no rows *)
  command_runs l h b q d : connected ((h, b) :: l) d ->
    (if b then q = "COMMIT" \/ q = "ROLLBACK" else q = "BEGIN")%string ->
    exists s d1 d2 d3, sqlite3_prepare_v2 h q (strlen q) d = (SQLITE_OK, s, d1) /\
      sqlite3_step s d1 = (SQLITE_DONE, d2) /\ sqlite3_finalize s d2 = (SQLITE_OK, d3) /\
      connected ((h, negb b) :: l) d3;
  not_sql_rejected l h b n d : connected ((h, b) :: l) d -> exists rc s d1 rc' d2,
    sqlite3_prepare_v2 h not_a_query n d = (rc, s, d1) /\ rc <> SQLITE_OK /\
    sqlite3_finalize s d1 = (rc', d2) /\ connected ((h, b) :: l) d2;
}.

(** * The driver's state in the suite: the objects of a fixture, the error, the library *)
Record Fixture `{Sqlite3} := mkFixture {
  fx_error : AdbcError;
  fx_world : World;
  fx_database : option SqliteDatabase;
  fx_first : option SqliteConnection;
  fx_second : option SqliteConnection;
  fx_statement : option SqliteStatement;
}.
Arguments mkFixture {_} fx_error fx_world fx_database fx_first fx_second fx_statement.

Section driver.
  Context `{Libc} `{Sqlite3}.

(** Every call gets the address of the fixture's error. *)
Definition fx_env (f : Fixture) : Env := mkEnv (Some (fx_error f)) (fx_world f).
Definition fx_set_env (e : Env) (f : Fixture) : Fixture :=
  mkFixture (default (fx_error f) (en_error e)) (en_world e) (fx_database f) (fx_first f)
    (fx_second f) (fx_statement f).
Definition fx_connection (c : slot) (f : Fixture) : option SqliteConnection :=
  match c with First => fx_first f | Second => fx_second f end.
Definition fx_set_database (d : option SqliteDatabase) (f : Fixture) : Fixture :=
  mkFixture (fx_error f) (fx_world f) d (fx_first f) (fx_second f) (fx_statement f).
Definition fx_set_connection (c : slot) (x : option SqliteConnection) (f : Fixture) : Fixture :=
  match c with
  | First => mkFixture (fx_error f) (fx_world f) (fx_database f) x (fx_second f) (fx_statement f)
  | Second => mkFixture (fx_error f) (fx_world f) (fx_database f) (fx_first f) x (fx_statement f)
  end.
Definition fx_set_statement (s : option SqliteStatement) (f : Fixture) : Fixture :=
  mkFixture (fx_error f) (fx_world f) (fx_database f) (fx_first f) (fx_second f) s.
Definition database_lens : Lens Fixture DatabaseState :=
  mkLens (fun f => (fx_env f, fx_database f)) (fun s f => fx_set_database s.2 (fx_set_env s.1 f)).
Definition connection_lens (c : slot) : Lens Fixture ConnectionState :=
  mkLens (fun f => (fx_env f, fx_connection c f))
    (fun s f => fx_set_connection c s.2 (fx_set_env s.1 f)).
Definition init_lens (c : slot) : Lens Fixture (ConnectionState * option SqliteDatabase) :=
  mkLens (fun f => (view (connection_lens c) f, fx_database f))
    (fun s f => fx_set_database s.2 (over (connection_lens c) s.1 f)).
Definition statement_lens : Lens Fixture StatementState :=
  mkLens (fun f => (fx_env f, fx_statement f)) (fun s f => fx_set_statement s.2 (fx_set_env s.1 f)).
Definition new_statement_lens (c : slot) : Lens Fixture (ConnectionState * option SqliteStatement) :=
  mkLens (fun f => (view (connection_lens c) f, fx_statement f))
    (fun s f => fx_set_statement s.2 (over (connection_lens c) s.1 f)).
(** The call without a stream and a row count. *)
Definition execute_lens : Lens Fixture (StatementState * (option Z * option ReaderStream)) :=
  mkLens (fun f => (view statement_lens f, (None, None))) (fun s => over statement_lens s.1).

(** [fuel] bounds the steps of a query. *)
#[export] Instance sqlite_driver (fuel : nat) : Driver Fixture := {|
  api call :=
    match call with
    | ApiDatabaseNew => zoom database_lens Public.AdbcDatabaseNew
    | ApiSetupDatabase => zoom database_lens (Public.AdbcDatabaseSetOption "uri" sqlite_test_uri)
    | ApiDatabaseInit => zoom database_lens Public.AdbcDatabaseInit
    | ApiDatabaseRelease => zoom database_lens Public.AdbcDatabaseRelease
    | ApiConnectionNew c => zoom (connection_lens c) Public.AdbcConnectionNew
    | ApiConnectionInit c => zoom (init_lens c) Public.AdbcConnectionInit
    | ApiConnectionRelease c => zoom (connection_lens c) Public.AdbcConnectionRelease
    | ApiConnectionCommit c => zoom (connection_lens c) (Public.AdbcConnectionCommit fuel)
    | ApiConnectionRollback c => zoom (connection_lens c) (Public.AdbcConnectionRollback fuel)
    | ApiConnectionSetOption c key value =>
        zoom (connection_lens c) (Public.AdbcConnectionSetOption fuel key value)
    | ApiStatementNew c => zoom (new_statement_lens c) Public.AdbcStatementNew
    | ApiStatementRelease => zoom statement_lens Public.AdbcStatementRelease
    | ApiStatementPrepare => zoom statement_lens Public.AdbcStatementPrepare
    | ApiStatementSetSqlQuery query =>
        zoom statement_lens (Public.AdbcStatementSetSqlQuery query)
    | ApiStatementExecuteQuery => zoom execute_lens (Public.AdbcStatementExecuteQuery fuel)
    end;
  memset_object o :=
    match o with
    | ODatabase => fx_set_database None
    | OConnection c => fx_set_connection c None
    | OStatement => fx_set_statement None
    end;
  private_data o f :=
    match o with
    | ODatabase => bool_decide (is_Some (fx_database f))
    | OConnection c => bool_decide (is_Some (fx_connection c f))
    | OStatement => bool_decide (is_Some (fx_statement f))
    end;
  the_error := mkLens fx_error (fun e f => fx_set_env (mkEnv (Some e) (fx_world f)) f);
  release_error := ReleaseError;
  supports_transactions := true;
|}.
End driver.

(** * Simulation

    What the private data are in each state of the protocol, and the library's connections behind
    them. *)
Section states.
  Context `{Sqlite3}.

Inductive database_is : database_state -> option SqliteDatabase -> list (Z * bool) -> Prop :=
| is_djunk x : database_is DJunk x []
| is_dunset : database_is DUnset None []
| is_dnew : database_is DNew (Some (mkDatabase 0 CNull 0)) []
| is_dset : database_is DSet (Some (mkDatabase 0 (CStr sqlite_test_uri) 0)) []
| is_dready h : h <> 0 ->
    database_is DReady (Some (mkDatabase h (CStr sqlite_test_uri) 0)) [(h, false)].
Inductive connection_is : connection_state -> option SqliteConnection -> list (Z * bool) -> Prop :=
| is_cjunk x : connection_is CJunk x []
| is_cunset : connection_is CUnset None []
| is_cnew : connection_is CNew (Some (mkConnection 0 false)) []
| is_copen h a : h <> 0 ->
    connection_is (COpen a) (Some (mkConnection h (negb a))) [(h, negb a)].
Definition query_length : Z := strlen not_a_query + 1.
Inductive statement_is (open : list Z) : statement_state -> option SqliteStatement -> Prop :=
| is_sjunk x : statement_is open SJunk x
| is_sunset : statement_is open SUnset None
| is_snew h : h ∈ open ->
    statement_is open SNew (Some (mkStatement h 0 false CNull 0 zero_binder CNull false 1024))
| is_squery h : h ∈ open ->
    statement_is open SQuery
      (Some (mkStatement h 0 false (CStr not_a_query) query_length zero_binder CNull false 1024)).

Definition sqlite_in_state (connected : list (Z * bool) -> sqlite -> Prop) (l : lifecycle)
    (f : Fixture) : Prop :=
  exists hd h1 h2, database_is (l_database l) (fx_database f) hd /\
    connection_is (l_first l) (fx_first f) h1 /\ connection_is (l_second l) (fx_second f) h2 /\
    statement_is (h1.*1 ++ h2.*1) (l_statement l) (fx_statement f) /\
    connected (hd ++ h1 ++ h2) (w_db (fx_world f)).
End states.

Section simulation.
  Context `{Libc} `{!SmallAllocations} `{Sqlite3} {connected} `{!OrderlySqlite3 connected}.
  Context (fuel : nat).
  #[local] Existing Instance sqlite_driver.

Lemma wp_small {S} n (Q : unit -> S -> Prop) E s :
  0 <= n <= 1024 -> Q tt s -> wp (malloc_unchecked n) Q E s.
Proof. intros Hn HQ. unfold malloc_unchecked. by rewrite small_malloc. Qed.
Lemma wp_fail_as {S A} `{!HasError S} code format args (Q : A -> S -> Prop) E s :
  (forall e, E code (over error_lens e s)) -> wp (Utils.fail code format args) Q E s.
Proof. intros HE. unfold Utils.fail. apply wp_bind, wp_set_error. intros e. apply HE. Qed.
Lemma wp_check_init {S T} `{!HasError S} what func (p : S -> option T) (Q : T -> S -> Prop) E s :
  (forall x, p s = Some x -> Q x s) ->
  (p s = None -> forall e, E ADBC_STATUS_INVALID_STATE (over error_lens e s)) ->
  wp (check_init what func (gets p)) Q E s.
Proof.
  intros HQ HE. unfold check_init. wp_steps. destruct (p s) eqn:Hp; [by apply HQ|].
  apply wp_fail_as. by apply HE.
Qed.

(** A transaction command takes one step. *)
Lemma wp_execute l h b q e (Q : unit -> Env -> Prop) E :
  connected ((h, b) :: l) (w_db (en_world e)) ->
  (if b then q = "COMMIT" \/ q = "ROLLBACK" else q = "BEGIN")%string ->
  (forall d', connected ((h, negb b) :: l) d' -> Q tt (set_db d' e)) ->
  wp (ExecuteQuery (S fuel) h q) Q E e.
Proof.
  intros Hc Hq HQ. destruct (command_runs _ _ _ _ _ Hc Hq) as (s & d1 & d2 & d3 & Hp & Hs & Hf & Hc').
  unfold ExecuteQuery. apply wp_bind. eapply wp_call; [exact Hp|]. cbn [step_loop orb Z.eqb SQLITE_OK].
  apply wp_bind, wp_bind. eapply wp_call; [exact Hs|]. destruct fuel; simpl; wp_steps.
  all: eapply wp_call; [exact Hf|]; simpl; wp_steps; by apply (HQ d3).
Qed.

(** ** Databases *)
Definition database_runs (m : M DatabaseState unit) (st : database_state) (o : outcome)
    (st' : database_state) : Prop :=
  forall x hd rest e, database_is st x hd -> connected (hd ++ rest) (w_db (en_world e)) ->
    let post code (s : DatabaseState) := allows o code /\ exists hd', database_is st' s.2 hd' /\
      connected (hd' ++ rest) (w_db (en_world s.1)) in
    wp m (fun _ => post 0) post (e, x).

Lemma DatabaseNew_unset : database_runs SqliteDatabaseNew DUnset OK DNew.
Proof.
  intros x hd rest e Hx Hc. inversion Hx; subst. unfold SqliteDatabaseNew. wp_steps.
  apply wp_small; [done|]. unfold put_database. wp_steps. split; [done|]. eexists. by split; [constructor|].
Qed.
Lemma DatabaseNew_again st : live_database st = true ->
  database_runs SqliteDatabaseNew st INVALID_STATE st.
Proof.
  intros Hst x hd rest e Hx Hc. unfold SqliteDatabaseNew. wp_steps.
  destruct x; [|by inversion Hx; subst].
  apply wp_fail_as. intros e'. split; [done|]. by exists hd.
Qed.
Lemma SetupDatabase_runs : database_runs (SqliteDatabaseSetOption "uri" sqlite_test_uri) DNew OK DSet.
Proof.
  intros x hd rest e Hx Hc. inversion Hx; subst. unfold SqliteDatabaseSetOption. wp_steps.
  apply wp_check_init; [|done]. intros db [= <-]. simpl. wp_steps. unfold copy_string. wp_steps.
  apply wp_small; [done|]. unfold put_database. wp_steps. split; [done|]. eexists. by split; [constructor|].
Qed.
(** Opening adds a connection. *)
Lemma wp_open l e (Q : Z -> Env -> Prop) E : connected l (w_db (en_world e)) ->
  (forall h d', h <> 0 -> connected ((h, false) :: l) d' -> Q h (set_db d' e)) ->
  wp (OpenDatabase (CStr sqlite_test_uri)) Q E e.
Proof.
  intros Hc HQ. destruct (open_connects _ _ Hc) as (h & d' & Ho & Hh & Hc').
  unfold OpenDatabase. wp_steps. eapply wp_call; [exact Ho|]. simpl. wp_steps. by apply HQ.
Qed.
Lemma DatabaseInit_runs : database_runs SqliteDatabaseInit DSet OK DReady.
Proof.
  intros x hd rest e Hx Hc. inversion Hx; subst. unfold SqliteDatabaseInit. wp_steps.
  apply wp_check_init; [|done]. intros db [= <-]. simpl. wp_steps.
  eapply wp_open; [exact Hc|]. intros h d' Hh Hc'. unfold put_database. wp_steps. split; [done|].
  eexists. split; [by constructor|]. done.
Qed.
Lemma DatabaseRelease_unset : database_runs SqliteDatabaseRelease DUnset INVALID_STATE DUnset.
Proof.
  intros x hd rest e Hx Hc. inversion Hx; subst. unfold SqliteDatabaseRelease. wp_steps.
  apply wp_check_init; [done|]. intros _ e'. split; [done|]. eexists. by split; [constructor|].
Qed.
Lemma DatabaseRelease_live st : live_database st = true -> database_runs SqliteDatabaseRelease st OK DUnset.
Proof.
  intros Hst x hd rest e Hx Hc. unfold SqliteDatabaseRelease. apply wp_bind.
  apply wp_check_init; [|intros Hn; simpl in Hn; subst; by inversion Hx; subst].
  intros db Hdb. simpl in Hdb. subst. inversion Hx; subst; try done; simpl; unfold put_database; wp_steps.
  1,2: split; [done|]; eexists; by split; [constructor|].
  match goal with Hh : _ <> 0 |- _ => rewrite (proj2 (Z.eqb_neq _ _) Hh) end. simpl.
  destruct (close_disconnects _ _ _ _ Hc) as (d' & Hcl & Hc').
  wp_steps. eapply wp_call; [exact Hcl|]. simpl. wp_steps.
  split; [done|]. eexists. by split; [constructor|].
Qed.

(** ** Connections

    [drops]: the call may close the connection. *)
Definition connection_runs (m : M ConnectionState unit) (st : connection_state) (o : outcome)
    (st' : connection_state) (drops : bool) : Prop :=
  forall x hc rest e, connection_is st x hc -> connected (hc ++ rest) (w_db (en_world e)) ->
    let post code (s : ConnectionState) := allows o code /\ exists hc', connection_is st' s.2 hc' /\
      connected (hc' ++ rest) (w_db (en_world s.1)) /\ (drops = false -> hc'.*1 = hc.*1) in
    wp m (fun _ => post 0) post (e, x).
#[local] Ltac runs := intros x hc rest e Hx Hc; cbv zeta; inversion Hx; subst; simpl in Hc; wp_steps.
#[local] Ltac ends := split; [done|]; eexists; split_and!; [by econstructor|done|done].

Lemma ConnectionNew_runs : connection_runs SqliteConnectionNew CUnset OK CNew false.
Proof.
  unfold SqliteConnectionNew. runs. apply wp_small; [done|]. unfold put_connection. wp_steps. ends.
Qed.
Lemma ConnectionRelease_new : connection_runs SqliteConnectionRelease CNew OK CUnset false.
Proof.
  unfold SqliteConnectionRelease, put_connection. runs.
  apply wp_check_init; [|done]. intros c [= <-]. simpl. wp_steps. ends.
Qed.
Lemma ConnectionRelease_open a : connection_runs SqliteConnectionRelease (COpen a) OK CUnset true.
Proof.
  unfold SqliteConnectionRelease, put_connection. runs.
  apply wp_check_init; [|done]. intros c [= <-]. simpl. rewrite (proj2 (Z.eqb_neq _ _)) by done.
  destruct (close_disconnects _ _ _ _ Hc) as (d' & Hcl & Hc'). simpl. wp_steps.
  eapply wp_call; [exact Hcl|]. simpl. wp_steps. ends.
Qed.

(** Nothing works on a connection that is not allocated. *)
Lemma unset_connection (func : string) k :
  connection_runs (conn ← check_init "connection" func (gets snd); k conn) CUnset INVALID_STATE CUnset false.
Proof. runs. apply wp_check_init; [done|]. intros _ e'. ends. Qed.
(** Committing and rolling back: refused in autocommit mode, and otherwise the transaction is
    ended and the next one begun. *)
Lemma end_autocommit (func message query : string) :
  connection_runs
    (conn ← check_init "connection" func (gets snd);
     if negb (cn_active_transaction conn) then Utils.fail ADBC_STATUS_INVALID_STATE message []
     else zoom fst_lens (ExecuteQuery (S fuel) (cn_conn conn) query) ;;
          zoom fst_lens (ExecuteQuery (S fuel) (cn_conn conn) "BEGIN"))
    (COpen true) INVALID_STATE (COpen true) false.
Proof.
  runs. apply wp_check_init; [|done]. intros c [= <-]. simpl. apply wp_fail_as. intros e'. ends.
Qed.
Lemma end_transaction (func message query : string) : (query = "COMMIT" \/ query = "ROLLBACK")%string ->
  connection_runs
    (conn ← check_init "connection" func (gets snd);
     if negb (cn_active_transaction conn) then Utils.fail ADBC_STATUS_INVALID_STATE message []
     else zoom fst_lens (ExecuteQuery (S fuel) (cn_conn conn) query) ;;
          zoom fst_lens (ExecuteQuery (S fuel) (cn_conn conn) "BEGIN"))
    (COpen false) OK (COpen false) false.
Proof.
  intros Hq. runs. apply wp_check_init; [|done]. intros c [= <-]. simpl. wp_steps.
  eapply wp_execute; [exact Hc|exact Hq|]. intros d1 Hd1. wp_steps.
  eapply wp_execute; [exact Hd1|done|]. intros d2 Hd2. ends.
Qed.

Lemma set_autocommit_on a : connection_runs
  (SqliteConnectionSetOption (S fuel) ADBC_CONNECTION_OPTION_AUTOCOMMIT ADBC_OPTION_VALUE_ENABLED)
  (COpen a) OK (COpen true) false.
Proof.
  unfold SqliteConnectionSetOption, put_connection. runs. apply wp_check_init; [|done]. intros c [= <-].
  simpl. destruct a; simpl; wp_steps; [ends|].
  eapply wp_execute; [exact Hc|by left|]. intros d1 Hd1. wp_steps. ends.
Qed.
Lemma set_autocommit_off a : connection_runs
  (SqliteConnectionSetOption (S fuel) ADBC_CONNECTION_OPTION_AUTOCOMMIT ADBC_OPTION_VALUE_DISABLED)
  (COpen a) OK (COpen false) false.
Proof.
  unfold SqliteConnectionSetOption, put_connection. runs. apply wp_check_init; [|done]. intros c [= <-].
  simpl. destruct a; simpl; wp_steps; [|ends].
  eapply wp_execute; [exact Hc|done|]. intros d1 Hd1. wp_steps. ends.
Qed.
(** Another key or another value. *)
Lemma set_option_refused a key value :
  key <> ADBC_CONNECTION_OPTION_AUTOCOMMIT \/
    (value <> ADBC_OPTION_VALUE_ENABLED /\ value <> ADBC_OPTION_VALUE_DISABLED) ->
  connection_runs (SqliteConnectionSetOption (S fuel) key value) (COpen a) Refuses (COpen a) false.
Proof.
  intros Hr. unfold SqliteConnectionSetOption, streq. runs. apply wp_check_init; [|done]. intros c [= <-].
  destruct (String.eqb_spec key ADBC_CONNECTION_OPTION_AUTOCOMMIT) as [->|_].
  2: { apply wp_fail_as. intros e'. ends. }
  destruct Hr as [|[Hon Hoff]]; [done|]. apply String.eqb_neq in Hon, Hoff. rewrite Hon, Hoff.
  apply wp_fail_as. intros e'. ends.
Qed.

Lemma ConnectionInit_runs rest hd hr e : connected (hr ++ rest) (w_db (en_world e)) -> hd <> 0 ->
  wp SqliteConnectionInit
    (fun _ s => exists h, h <> 0 /\ connected ((h, false) :: hr ++ rest) (w_db (en_world s.1.1)) /\
       s.1.2 = Some (mkConnection h false) /\
       s.2 = Some (mkDatabase hd (CStr sqlite_test_uri) 0))
    (fun _ _ => False)
    ((e, Some (mkConnection 0 false)), Some (mkDatabase hd (CStr sqlite_test_uri) 0)).
Proof.
  intros Hc Hhd. unfold SqliteConnectionInit, put_connection. wp_steps.
  apply wp_check_init; [|done]. intros c [= <-]. wp_steps.
  apply wp_check_init; [|done]. intros db [= <-]. simpl. wp_steps.
  eapply wp_open; [exact Hc|]. intros h d' Hh Hc'. wp_steps. by exists h.
Qed.

(** ** Statements

    [full]: all open connections. *)
Definition statement_runs (m : M StatementState unit) (st : statement_state) (o : outcome)
    (st' : statement_state) : Prop :=
  forall x e open full, statement_is open st x -> open ⊆ full.*1 -> connected full (w_db (en_world e)) ->
    let post code (s : StatementState) := allows o code /\ statement_is open st' s.2 /\
      connected full (w_db (en_world s.1)) in
    wp m (fun _ => post 0) post (e, x).

Lemma wp_with_stmt {A} func rows out (m : M QS A) e st r (Q : A -> _ -> Prop) E :
  wp m (fun a q => Q a ((qs_env q, Some (qs_stmt q)), (qs_rows q, qs_out q)))
    (fun c q => E c ((qs_env q, Some (qs_stmt q)), (qs_rows q, qs_out q))) (mkQS e st rows out) ->
  wp (with_stmt func rows out m) Q E ((e, Some st), r).
Proof.
  intros Hm. unfold with_stmt. wp_steps. apply wp_check_init; [|done]. intros st' [= <-]. simpl.
  unfold wp in *. by destruct (m _).
Qed.
Lemma wp_with_no_stmt {A} func rows out (m : M QS A) e r (Q : A -> _ -> Prop) (E : Z -> _ -> Prop) :
  (forall e', en_world e' = en_world e -> E ADBC_STATUS_INVALID_STATE ((e', None), r)) ->
  wp (with_stmt func rows out m) Q E ((e, None), r).
Proof.
  intros HE. unfold with_stmt. wp_steps. apply wp_check_init; [done|]. intros _ e'. by apply HE.
Qed.
Lemma wp_on_statement {A} func (m : M QS A) e st (Q : A -> StatementState -> Prop) E :
  wp m (fun a q => Q a (qs_env q, Some (qs_stmt q))) (fun c q => E c (qs_env q, Some (qs_stmt q)))
    (mkQS e st None None) -> wp (on_statement func m) Q E (e, Some st).
Proof.
  intros Hm. pose proof (wp_with_stmt func None None m e st (None, None) (fun a s => Q a s.1)
    (fun c s => E c s.1) Hm) as Hw. unfold wp, on_statement in *.
  by destruct (with_stmt _ _ _ _ _) as [? []|? []| |].
Qed.
Lemma wp_on_no_statement {A} func (m : M QS A) e (Q : A -> StatementState -> Prop) (E : Z -> _ -> Prop) :
  (forall e', en_world e' = en_world e -> E ADBC_STATUS_INVALID_STATE (e', None)) ->
  wp (on_statement func m) Q E (e, None).
Proof.
  intros HE. pose proof (wp_with_no_stmt func None None m e (None, None) (fun a s => Q a s.1)
    (fun c s => E c s.1) HE) as Hw. unfold wp, on_statement in *.
  by destruct (with_stmt _ _ _ _ _) as [? []|? []| |].
Qed.

(** Every call is refused on a statement that is not allocated. *)
Lemma unset_statement {A} func (m : M QS A) (k : A -> M StatementState unit) :
  statement_runs (a ← on_statement func m; k a) SUnset INVALID_STATE SUnset.
Proof.
  intros x e open full Hx Hin Hc. cbv zeta. inversion Hx; subst. wp_steps. apply wp_on_no_statement.
  intros e' He. split; [done|]. simpl. rewrite He. split; [constructor|done].
Qed.
Lemma unset_statement_alone func m :
  statement_runs (on_statement func m) SUnset INVALID_STATE SUnset.
Proof.
  intros x e open full Hx Hin Hc. cbv zeta. inversion Hx; subst. apply wp_on_no_statement.
  intros e' He. split; [done|]. simpl. rewrite He. split; [constructor|done].
Qed.
#[local] Ltac stmt_runs := intros x e open full Hx Hin Hc; cbv zeta; inversion Hx; subst; wp_steps.
Lemma StatementRelease_runs st : live_statement st = true ->
  statement_runs SqliteStatementRelease st OK SUnset.
Proof.
  intros Hst. unfold SqliteStatementRelease. stmt_runs; try done.
  all: apply wp_on_statement; unfold the_stmt; wp_steps; by split_and!; [done|constructor|].
Qed.
Lemma Prepare_no_query : statement_runs SqliteStatementPrepare SNew INVALID_STATE SNew.
Proof.
  unfold SqliteStatementPrepare. stmt_runs. apply wp_on_statement. unfold prepare_statement, the_stmt. wp_steps.
  apply wp_fail_as. intros e'. split_and!; [done|by constructor|done].
Qed.
Lemma SetSqlQuery_runs : statement_runs (SqliteStatementSetSqlQuery not_a_query) SNew OK SQuery.
Proof.
  unfold SqliteStatementSetSqlQuery. stmt_runs. apply wp_on_statement. unfold the_stmt, on_stmt, copy_string. wp_steps.
  apply wp_small; [done|]. wp_steps. split_and!; [done|by constructor|done].
Qed.

Definition execute_runs (st : statement_state) (o : outcome) : Prop :=
  forall x e open full, statement_is open st x -> open ⊆ full.*1 -> connected full (w_db (en_world e)) ->
    let post code (s : StatementState * (option Z * option ReaderStream)) :=
      allows o code /\ statement_is open st s.1.2 /\ connected full (w_db (en_world s.1.1)) in
    wp (SqliteStatementExecuteQuery (S fuel)) (fun _ => post 0) post ((e, x), (None, None)).
Lemma Execute_unset : execute_runs SUnset INVALID_STATE.
Proof.
  intros x e open full Hx Hin Hc. cbv zeta. inversion Hx; subst. unfold SqliteStatementExecuteQuery.
  apply wp_with_no_stmt. intros e' He. split; [done|]. simpl. rewrite He. split; [constructor|done].
Qed.
Lemma Execute_no_query : execute_runs SNew INVALID_STATE.
Proof.
  intros x e open full Hx Hin Hc. cbv zeta. inversion Hx; subst. unfold SqliteStatementExecuteQuery.
  apply wp_with_stmt. unfold execute_statement, prepare_statement, the_stmt. wp_steps.
  apply wp_fail_as. intros e'. split_and!; [done|by constructor|done].
Qed.
Lemma Execute_rejected : execute_runs SQuery Refuses.
Proof.
  intros x e open full Hx Hin Hc. cbv zeta. inversion Hx as [| | |h Hh]; subst.
  unfold SqliteStatementExecuteQuery. apply wp_with_stmt.
  pose proof (Hin _ Hh) as Hf. apply list_elem_of_fmap in Hf as ([h' b] & -> & Hf).
  apply elem_of_Permutation in Hf as [l Hl].
  destruct (not_sql_rejected l h' b (to_signed 32 query_length) (w_db (en_world e))) as
    (rc & stmt & d1 & rc' & d2 & Hp & Hrc & Hfin & Hc'); [by eapply connected_perm|].
  unfold execute_statement, prepare_statement, the_stmt, on_stmt, when. wp_steps.
  eapply wp_call; [exact Hp|]. cbv beta iota. wp_steps. rewrite (proj2 (Z.eqb_neq _ _) Hrc). simpl.
  unfold errmsg. wp_steps.
  apply wp_ask. wp_steps. apply wp_set_error. intros e'. wp_steps.
  eapply wp_call; [exact Hfin|]. simpl. wp_steps. split_and!; [done|by apply is_squery|].
  by eapply connected_perm; [symmetry|].
Qed.

(** ** The calls on a fixture *)
#[local] Abbreviation in_state := (sqlite_in_state connected).
#[local] Abbreviation answered := (answered in_state).

Lemma lift_database m l o st' f : in_state l f -> database_runs m (l_database l) o st' ->
  answered (zoom database_lens m) o (set_database st' l) f.
Proof.
  intros (hd & h1 & h2 & Hd & H1' & H2' & Hs & Hc) Hm.
  apply answered_wp, wp_zoom. eapply wp_conseq; [apply (Hm _ _ (h1 ++ h2) _ Hd); exact Hc|..].
  all: intros ? [e x] (Ho & hd' & Hd' & Hc'); split; [exact Ho|]; by exists hd', h1, h2.
Qed.
Lemma lift_connection c m l o st' drops f : in_state l f ->
  connection_runs m (l_connection c l) o st' drops ->
  (drops = true -> live_statement (l_statement l) = false) ->
  answered (zoom (connection_lens c) m) o (set_connection c st' l) f.
Proof.
  intros (hd & h1 & h2 & Hd & H1' & H2' & Hs & Hc) Hm Hdrop. apply answered_wp, wp_zoom.
  assert (forall g1 g2 : list (Z * bool), (drops = false -> g1.*1 ++ g2.*1 = h1.*1 ++ h2.*1) ->
    statement_is (g1.*1 ++ g2.*1) (l_statement l) (fx_statement f)) as Hst.
  { intros g1 g2 Hg. destruct drops; [|by rewrite Hg]. specialize (Hdrop eq_refl).
    destruct (l_statement l); try done; inversion Hs; constructor. }
  destruct c.
  - eapply wp_conseq; [apply (Hm _ _ (hd ++ h2) _ H1'); eapply connected_perm; [|exact Hc]; solve_Permutation|..].
    all: intros ? [e x] (Ho & hc' & Hx' & Hc' & Hk); split; [exact Ho|]; exists hd, hc', h2;
      split_and!; try done; [apply Hst; intros Hf; by rewrite Hk|];
      eapply connected_perm; [|exact Hc']; solve_Permutation.
  - eapply wp_conseq; [apply (Hm _ _ (hd ++ h1) _ H2'); eapply connected_perm; [|exact Hc]; solve_Permutation|..].
    all: intros ? [e x] (Ho & hc' & Hx' & Hc' & Hk); split; [exact Ho|]; exists hd, h1, hc';
      split_and!; try done; [apply Hst; intros Hf; by rewrite Hk|];
      eapply connected_perm; [|exact Hc']; solve_Permutation.
Qed.
Lemma opened_on (hd h1 h2 : list (Z * bool)) : h1.*1 ++ h2.*1 ⊆ (hd ++ h1 ++ h2).*1.
Proof. rewrite !fmap_app. intros z Hz. apply elem_of_app. by right. Qed.
Lemma lift_statement m l o st' f : in_state l f -> statement_runs m (l_statement l) o st' ->
  answered (zoom statement_lens m) o (set_stmt st' l) f.
Proof.
  intros (hd & h1 & h2 & Hd & H1' & H2' & Hs & Hc) Hm. apply answered_wp, wp_zoom.
  eapply wp_conseq; [eapply (Hm _ _ _ _ Hs); [|exact Hc]; apply opened_on|..].
  all: intros ? [e x] (Ho & Hx' & Hc'); split; [exact Ho|]; by exists hd, h1, h2.
Qed.
Lemma lift_execute l o f : in_state l f -> execute_runs (l_statement l) o ->
  answered (zoom execute_lens (SqliteStatementExecuteQuery (S fuel))) o l f.
Proof.
  intros (hd & h1 & h2 & Hd & H1' & H2' & Hs & Hc) Hm. apply answered_wp, wp_zoom.
  eapply wp_conseq; [eapply (Hm _ _ _ _ Hs); [|exact Hc]; apply opened_on|..].
  all: intros ? [[e x] r] (Ho & Hx' & Hc'); split; [exact Ho|]; by exists hd, h1, h2.
Qed.

Lemma statement_is_mono open open' st x : open ⊆ open' -> statement_is open st x -> statement_is open' st x.
Proof. intros Hsub []; constructor; by apply Hsub. Qed.
Lemma lift_init c l f : in_state l f -> l_connection c l = CNew -> l_database l = DReady ->
  answered (zoom (init_lens c) SqliteConnectionInit) OK (set_connection c (COpen true) l) f.
Proof.
  destruct l as [ld lf ls lst], f as [er w d c1 c2 sm].
  intros (hd & h1 & h2 & Hd & H1' & H2' & Hs & Hc) Hnew Hready. simpl in *. subst ld.
  inversion Hd as [| | | |h Hh]; subst. apply answered_wp, wp_zoom.
  destruct c; simpl in *; subst; [inversion H1'|inversion H2']; subst; simpl.
  - eapply wp_conseq; [apply (ConnectionInit_runs ((h, false) :: h2) h []); [exact Hc|done]| |done].
    intros [] [[e x] y] (g & Hg & Hc' & Hx & Hy). simpl in *. subst. split; [done|].
    exists [(h, false)], [(g, false)], h2.
    split_and!; [by constructor|by apply (is_copen g true)|done| |].
    + eapply statement_is_mono; [|exact Hs]. intros z Hz. by right.
    + eapply connected_perm; [|exact Hc']; solve_Permutation.
  - eapply wp_conseq; [apply (ConnectionInit_runs ((h, false) :: h1) h []); [|done]| |done].
    { eapply connected_perm; [|exact Hc]; solve_Permutation. }
    intros [] [[e x] y] (g & Hg & Hc' & Hx & Hy). simpl in *. subst. split; [done|].
    exists [(h, false)], h1, [(g, false)].
    split_and!; [by constructor|done|by apply (is_copen g true)| |].
    + rewrite app_nil_r in Hs. eapply statement_is_mono; [|exact Hs]. intros z Hz. apply elem_of_app. by left.
    + eapply connected_perm; [|exact Hc']; solve_Permutation.
Qed.
Lemma wp_new_statement e h a (E : Z -> _ -> Prop) (Q : unit -> _ -> Prop) : h <> 0 ->
  Q tt ((e, Some (mkConnection h a)),
        Some (mkStatement h 0 false CNull 0 zero_binder CNull false 1024)) ->
  wp SqliteStatementNew Q E ((e, Some (mkConnection h a)), None).
Proof.
  intros Hh HQ. unfold SqliteStatementNew. wp_steps. apply wp_check_init; [|done]. intros x [= <-]. simpl.
  wp_steps. rewrite (proj2 (Z.eqb_neq _ _) Hh). wp_steps. apply wp_small; [done|]. by wp_steps.
Qed.
Lemma lift_new_statement c l a f : in_state l f -> l_connection c l = COpen a -> l_statement l = SUnset ->
  answered (zoom (new_statement_lens c) SqliteStatementNew) OK (set_stmt SNew l) f.
Proof.
  destruct l as [ld lf ls lst], f as [er w d c1 c2 sm].
  intros (hd & h1 & h2 & Hd & H1' & H2' & Hs & Hc) Hopen Hunset. simpl in *. subst lst.
  inversion Hs; subst. apply answered_wp, wp_zoom.
  destruct c; simpl in *; subst; [inversion H1'|inversion H2']; subst; simpl; apply wp_new_statement; try done.
  all: split; [done|]; eexists hd, _, _; split_and!; [done|done|done| |exact Hc]; constructor; simpl.
  - by left.
  - apply elem_of_app. right. by left.
Qed.

(** The calls that leave the protocol's state alone. *)
Lemma same_database l : set_database (l_database l) l = l.
Proof. by destruct l. Qed.
Lemma same_connection c l : set_connection c (l_connection c l) l = l.
Proof. by destruct c, l. Qed.
Lemma same_statement l : set_stmt (l_statement l) l = l.
Proof. by destruct l. Qed.
Lemma stay_database m l o f : in_state l f -> database_runs m (l_database l) o (l_database l) ->
  answered (zoom database_lens m) o l f.
Proof. intros Hf Hm. rewrite <- (same_database l) at 1. by apply lift_database. Qed.
Lemma stay_connection c m l o drops f : in_state l f ->
  connection_runs m (l_connection c l) o (l_connection c l) drops ->
  (drops = true -> live_statement (l_statement l) = false) ->
  answered (zoom (connection_lens c) m) o l f.
Proof. intros Hf Hm Hd. rewrite <- (same_connection c l) at 1. by eapply lift_connection. Qed.
Lemma stay_statement m l o f : in_state l f -> statement_runs m (l_statement l) o (l_statement l) ->
  answered (zoom statement_lens m) o l f.
Proof. intros Hf Hm. rewrite <- (same_statement l) at 1. by apply lift_statement. Qed.

Lemma database_answers call l o l' f :
  match call with
  | ApiDatabaseNew | ApiSetupDatabase | ApiDatabaseInit | ApiDatabaseRelease => True
  | _ => False
  end ->
  in_state l f -> spec call l = Some (o, l') -> answered (api (Driver := sqlite_driver (S fuel)) call) o l' f.
Proof.
  intros Hcall Hf Hspec. destruct call; try done; simpl in Hspec; destruct (l_database l) eqn:El; try done.
  all: try (destruct (_ || _); [done|]); injection Hspec as <- <-.
  all: first [apply stay_database; [done|] | apply lift_database; [done|]]; rewrite El.
  - apply DatabaseNew_unset.
  - by apply DatabaseNew_again.
  - by apply DatabaseNew_again.
  - by apply DatabaseNew_again.
  - apply SetupDatabase_runs.
  - apply DatabaseInit_runs.
  - apply DatabaseRelease_unset.
  - by apply DatabaseRelease_live.
  - by apply DatabaseRelease_live.
  - by apply DatabaseRelease_live.
Qed.

Lemma connection_answers call l o l' f :
  match call with
  | ApiConnectionNew _ | ApiConnectionRelease _ | ApiConnectionCommit _ | ApiConnectionRollback _
  | ApiConnectionSetOption _ _ _ => True
  | _ => False
  end ->
  in_state l f -> spec call l = Some (o, l') -> answered (api (Driver := sqlite_driver (S fuel)) call) o l' f.
Proof.
  intros Hcall Hf Hspec.
  destruct call as [| | | |c| |c|c|c|c key value| | | | |]; try done; simpl in Hspec;
    destruct (l_connection c l) as [| | |a] eqn:El; try done.
  - injection Hspec as <- <-. by eapply lift_connection; [|rewrite El; apply ConnectionNew_runs|].
  - injection Hspec as <- <-. by eapply stay_connection; [|rewrite El; apply unset_connection|].
  - injection Hspec as <- <-. by eapply lift_connection; [|rewrite El; apply ConnectionRelease_new|].
  - destruct (live_statement _) eqn:Hlive; [done|]. injection Hspec as <- <-.
    by eapply lift_connection; [|rewrite El; apply ConnectionRelease_open|].
  - injection Hspec as <- <-. by eapply stay_connection; [|rewrite El; apply unset_connection|].
  - destruct a; injection Hspec as <- <-.
    + by eapply stay_connection; [|rewrite El; apply end_autocommit|].
    + by eapply stay_connection; [|rewrite El; apply end_transaction; left|].
  - injection Hspec as <- <-. by eapply stay_connection; [|rewrite El; apply unset_connection|].
  - destruct a; injection Hspec as <- <-.
    + by eapply stay_connection; [|rewrite El; apply end_autocommit|].
    + by eapply stay_connection; [|rewrite El; apply end_transaction; right|].
  - destruct (String.eqb_spec key ADBC_CONNECTION_OPTION_AUTOCOMMIT) as [->|Hk].
    2: { injection Hspec as <- <-.
         by eapply stay_connection; [|rewrite El; apply set_option_refused; left|]. }
    destruct (String.eqb_spec value ADBC_OPTION_VALUE_ENABLED) as [->|Hon].
    { injection Hspec as <- <-. by eapply lift_connection; [|rewrite El; apply set_autocommit_on|]. }
    destruct (String.eqb_spec value ADBC_OPTION_VALUE_DISABLED) as [->|Hoff]; injection Hspec as <- <-.
    + by eapply lift_connection; [|rewrite El; apply set_autocommit_off|].
    + by eapply stay_connection; [|rewrite El; apply set_option_refused; right|].
Qed.
Lemma statement_answers call l o l' f :
  match call with
  | ApiStatementRelease | ApiStatementPrepare | ApiStatementSetSqlQuery _ | ApiStatementExecuteQuery => True
  | _ => False
  end ->
  in_state l f -> spec call l = Some (o, l') -> answered (api (Driver := sqlite_driver (S fuel)) call) o l' f.
Proof.
  intros Hcall Hf Hspec.
  destruct call as [| | | | | | | | | | | | |query|]; try done; simpl in Hspec;
    destruct (l_statement l) eqn:El; try done.
  6: destruct (String.eqb_spec query not_a_query) as [->|]; [|done].
  all: injection Hspec as <- <-.
  - apply stay_statement; [done|]. rewrite El. apply unset_statement.
  - apply lift_statement; [done|]. rewrite El. by apply StatementRelease_runs.
  - apply lift_statement; [done|]. rewrite El. by apply StatementRelease_runs.
  - apply stay_statement; [done|]. rewrite El. apply unset_statement_alone.
  - apply stay_statement; [done|]. rewrite El. apply Prepare_no_query.
  - apply lift_statement; [done|]. rewrite El. apply SetSqlQuery_runs.
  - apply lift_execute; [done|]. rewrite El. apply Execute_unset.
  - apply lift_execute; [done|]. rewrite El. apply Execute_no_query.
  - apply lift_execute; [done|]. rewrite El. apply Execute_rejected.
Qed.

Lemma sqlite_zeroes o l l' f : in_state l f -> zeroed o l = Some l' ->
  in_state l' (memset_object (Driver := sqlite_driver (S fuel)) o f).
Proof.
  destruct l as [ld lf ls lst]. unfold zeroed.
  intros (hd & h1 & h2 & Hd & H1' & H2' & Hs & Hc). destruct (live o _) eqn:Hlive; [done|]. intros [= <-].
  exists hd, h1, h2. destruct o as [|[]|]; simpl in *; split_and!; try done.
  - destruct ld; try done; inversion Hd; constructor.
  - destruct lf; try done; inversion H1'; constructor.
  - destruct ls; try done; inversion H2'; constructor.
  - destruct lst; try done; inversion Hs; constructor.
Qed.
Lemma sqlite_tells o l f : in_state l f -> known o l = true ->
  private_data (Driver := sqlite_driver (S fuel)) o f = live o l.
Proof.
  destruct l as [ld lf ls lst]. intros (hd & h1 & h2 & Hd & H1' & H2' & Hs & _) Hk.
  destruct o as [|[]|]; simpl in *; [destruct Hd|destruct H1'|destruct H2'|destruct Hs]; done.
Qed.
End simulation.

(** The SQLite driver conforms to the protocol. *)
#[export] Instance sqlite_conforms `{Libc} `{!SmallAllocations} `{Sqlite3} connected
    `{!OrderlySqlite3 connected} (fuel : nat) :
  Conforms (Driver0 := sqlite_driver (S fuel)) (sqlite_in_state connected).
Proof.
  split.
  - intros call l o l' f Hf Hspec. change (answered (sqlite_in_state connected) (api (Driver := sqlite_driver (S fuel)) call) o l' f).
    destruct call; try (by eapply database_answers); try (by eapply connection_answers);
      try (by eapply statement_answers); simpl in Hspec.
    + destruct (l_connection c l) eqn:Ec, (l_database l) eqn:Ed; try done. injection Hspec as <- <-.
      by apply lift_init.
    + destruct (l_statement l) eqn:Es, (l_connection c l) eqn:Ec; try done. injection Hspec as <- <-.
      by eapply lift_new_statement.
  - intros o l l' f. apply sqlite_zeroes.
  - intros o l f. apply sqlite_tells.
  - intros l e f (hd & h1 & h2 & Hrest). by exists hd, h1, h2.
Qed.

Lemma sqlite_junk `{Sqlite3} connected f :
  connected [] (w_db (fx_world f)) -> sqlite_in_state connected all_junk f.
Proof. intros Hc. exists [], [], []. split_and!; [constructor..|done]. Qed.
Lemma sqlite_nothing_live `{Sqlite3} connected l f :
  sqlite_in_state connected l f -> nothing_live l = true -> connected [] (w_db (fx_world f)).
Proof.
  destruct l as [ld lf ls lst]. intros (hd & h1 & h2 & Hd & H1' & H2' & _ & Hc) Hn.
  simpl in *. destruct Hd, H1', H2'; try discriminate Hn; exact Hc.
Qed.

(** C14: the SQLite driver passes every lifecycle test of the suite, from a fixture with arbitrary
    content, on any library that opens databases, runs transaction commands and rejects what is
    not SQL; every connection the test opened is closed again. *)
Theorem sqlite_passes_suite `{Libc} `{!SmallAllocations} `{Sqlite3} connected
    `{!OrderlySqlite3 connected} (fuel : nat) (test : M (Run Fixture) unit) (f : Fixture) :
  (0 < fuel)%nat -> test ∈ suite (Driver0 := sqlite_driver fuel) ->
  connected [] (w_db (fx_world f)) ->
  exists f', test (mkRun f false false) = Ret tt (mkRun f' false false) /\
    connected [] (w_db (fx_world f')).
Proof.
  destruct fuel as [|fuel]; [lia|]. intros _ Htest Hc.
  pose proof (suite_passes (in_state := sqlite_in_state connected) (Driver0 := sqlite_driver (S fuel))) as Hall.
  rewrite Forall_forall in Hall.
  destruct (Hall _ Htest f (sqlite_junk _ _ Hc)) as (f' & l & sk & Hrun & Hin & Hn & Hsk).
  exists f'. split; [|by eapply sqlite_nothing_live]. rewrite Hrun. destruct sk; [|done]. by specialize (Hsk eq_refl).
Qed.

(** C13: every sequence of calls that the protocol specifies is answered by the SQLite driver as
    specified, and leaves its objects and the library's connections as the protocol has them. *)
Theorem sqlite_follows_protocol `{Libc} `{!SmallAllocations} `{Sqlite3} connected
    `{!OrderlySqlite3 connected} (fuel : nat) calls l os l' (f : Fixture) :
  (0 < fuel)%nat -> sqlite_in_state connected l f -> spec_calls calls l = Some (os, l') ->
  exists codes f', run_calls (Driver0 := sqlite_driver fuel) calls f = Some (codes, f') /\
    Forall2 allows os codes /\ sqlite_in_state connected l' f'.
Proof. destruct fuel as [|fuel]; [lia|]. intros _. apply conforming_calls. Qed.

(** * The concrete library

    One whose script answers the three transaction commands. *)
Section witnesses.
#[local] Existing Instance host.
#[local] Existing Instance Mock.mock.
Definition command_script : Mock.script :=
  [("BEGIN", ([], 0, [])); ("COMMIT", ([], 0, [])); ("ROLLBACK", ([], 0, []))]%string.
Definition mock_connected (l : list (Z * bool)) (d : Mock.state) : Prop :=
  Forall (fun p => 0 < p.1) l /\ Mock.m_busy d = [] /\ Mock.m_script d = command_script /\
  0 <= Mock.m_conns d.

Lemma mock_last {A} (l : list A) x : (l ++ [x]) !! Z.to_nat (zlen l + 1 - 1) = Some x.
Proof. unfold zlen. rewrite Z.add_simpl_r, Nat2Z.id. apply list_lookup_middle. done. Qed.
#[export] Instance mock_orderly : OrderlySqlite3 mock_connected.
Proof.
  split.
  - intros l l' d Hp (Hl & Hd). split; [by rewrite <- Hp|exact Hd].
  - intros l d (Hl & Hb & Hs & Hn). simpl. eexists _, _. split; [reflexivity|]. split; [lia|].
    split_and!; simpl; [|done|done|lia]. constructor; simpl; [lia|done].
  - intros l h b d (Hl & Hb & Hs & Hn). simpl. unfold Mock.close. rewrite Hb. simpl. eexists.
    split; [done|]. by inversion Hl.
  - intros l h b q d (Hl & Hb & Hs & Hn) Hq. pose proof (Forall_inv Hl) as Hh. simpl in Hh.
    assert (Mock.lookup q command_script = Some ([], 0, [])) as Hq' by (destruct b; naive_solver).
    simpl. unfold Mock.prepare. rewrite (proj2 (Z.eqb_neq h 0)) by lia. rewrite Hs, Hq'.
    eexists _, _, _, _. split; [reflexivity|]. unfold Mock.step, Mock.get. simpl.
    assert (0 < zlen (Mock.m_stmts d) + 1) as Hpos by (unfold zlen; lia).
    rewrite (proj2 (Z.ltb_lt _ _) Hpos), mock_last. simpl. split; [reflexivity|].
    unfold Mock.finalize. rewrite (proj2 (Z.eqb_neq _ 0)) by lia. split; [reflexivity|].
    split_and!; simpl; [|done|done|done]. by inversion Hl; constructor.
  - intros l h b n d (Hl & Hb & Hs & Hn). simpl. unfold Mock.prepare. rewrite Hs.
    destruct (h =? 0); simpl; eexists _, _, _, _, _; (split; [reflexivity|]); done.
Qed.

Definition fresh_fixture : Fixture :=
  mkFixture zero_error (Mock.world_of command_script) (Some (mkDatabase 5 CFreed 7)) None
    (Some (mkConnection 9 true)) None.
Lemma fresh_connected : mock_connected [] (w_db (fx_world fresh_fixture)).
Proof. by split_and!. Qed.
(** The toggle test: the connection is closed with its transaction open. *)
Lemma sqlite_passes_suite_witness : exists f',
  connection_test (Driver0 := sqlite_driver 1)
    (ConnectionTest_TestAutocommitToggle (Driver0 := sqlite_driver 1)) (mkRun fresh_fixture false false) = Ret tt (mkRun f' false false) /\
  mock_connected [] (w_db (fx_world f')).
Proof.
  apply (@sqlite_passes_suite host _ Mock.mock mock_connected _ 1); [lia| |exact fresh_connected].
  unfold suite. simpl. do 6 right. by left.
Defined.
Lemma sqlite_follows_protocol_witness : exists codes f',
  run_calls (Driver0 := sqlite_driver 1)
    [ApiDatabaseNew; ApiSetupDatabase; ApiDatabaseInit; ApiConnectionNew Second;
     ApiConnectionInit Second; ApiConnectionSetOption Second "x" "y"; ApiStatementNew Second;
     ApiStatementPrepare; ApiStatementRelease; ApiConnectionRelease Second; ApiDatabaseRelease]
    (mkFixture zero_error (Mock.world_of command_script) None None None None)
    = Some (codes, f') /\
  Forall2 allows [OK; OK; OK; OK; OK; Refuses; OK; INVALID_STATE; OK; OK; OK] codes /\
  sqlite_in_state mock_connected (mkLife DUnset CUnset CUnset SUnset) f'.
Proof.
  apply (@sqlite_follows_protocol host _ Mock.mock mock_connected _ 1 _ (mkLife DUnset CUnset CUnset SUnset)); [lia| |reflexivity].
  exists [], [], []. split_and!; [constructor..|]. by split_and!.
Defined.
End witnesses.
