(* ===== verification/RDrivers.v ===== *)
(** The two stub drivers of the R package (r/adbcdrivermanager/src/driver_void.c and
    driver_monkey.c), used to test the driver manager: one answers nothing, the other hands
    back the stream it was given. *)
From stdpp Require Import base tactics list numbers option strings.
From Stdlib Require Import ZArith Lia.
From S2P Require Import Prelude CLib Schema Array Adbc.
From S2P Require Import DriverManager.

(** * What both drivers share

    A callback sees the error and the object's [private_data] ([None] for a null pointer);
    the blocks the drivers allocate are zeroed.  [free] of the pointer and its reset to null
    are one step. *)
Record RState (P : Type) := mkRState { rs_error : ErrorPtr; rs_private : option P }.
Arguments mkRState {P} rs_error rs_private.
Arguments rs_error {P} r.
Arguments rs_private {P} r.

Definition ResetError (error : AdbcError) : AdbcError := zero_error.
(** The message is a literal: there is no release callback. *)
Definition SetErrorConst (value : string) (error : ErrorPtr) : ErrorPtr :=
  match error with
  | None => None
  | Some e =>
      let e := ResetError e in
      Some (mkError (Some value) (err_vendor_code e) (err_sqlstate e) (err_release e))
  end.

Section shared.
  Context `{Libc} {P : Type}.

(** [malloc] of [size] bytes, cleared, into [private_data]. *)
Definition allocate_private (size : Z) (what : string) (cleared : P) : M (RState P) unit := fun s =>
  if malloc_ok size then Ret tt (mkRState (rs_error s) (Some cleared))
  else Exit ADBC_STATUS_INTERNAL
         (mkRState (SetErrorConst ("failed to allocate " +:+ what) (rs_error s)) (rs_private s)).
(** Freeing what [private_data] points at, unless it is null. *)
Definition free_private : M (RState P) unit := modify (fun s => mkRState (rs_error s) None).
Definition not_implemented : M (RState P) unit := exit ADBC_STATUS_NOT_IMPLEMENTED.
End shared.

(** The [token] of the private structs: 1024 bytes of zeros. *)
Definition token := list Z.
Definition kTokenSize := 1024.
Definition zero_token : token := repeat 0 1024.

(** A driver's table: its [private_data], the slots, and whether [release] is set.  Both
    drivers fill the same slots: all but Substrait plans. *)
Record RTable (CB : Type) := mkRTable {
  rt_private : option token;
  rt_slots : driver_slot -> option CB;
  rt_release : bool;
}.
Arguments mkRTable {CB} rt_private rt_slots rt_release.
Arguments rt_private {CB} r.
Arguments rt_slots {CB} r.
Arguments rt_release {CB} r.
Definition stub_driver_slots : list driver_slot :=
  [S_DatabaseInit; S_DatabaseNew; S_DatabaseRelease; S_DatabaseSetOption;
   S_ConnectionCommit; S_ConnectionGetInfo; S_ConnectionGetObjects; S_ConnectionGetTableSchema;
   S_ConnectionGetTableTypes; S_ConnectionInit; S_ConnectionNew; S_ConnectionReadPartition;
   S_ConnectionRelease; S_ConnectionRollback; S_ConnectionSetOption;
   S_StatementBind; S_StatementBindStream; S_StatementExecutePartitions; S_StatementExecuteQuery;
   S_StatementGetParameterSchema; S_StatementNew; S_StatementPrepare; S_StatementRelease;
   S_StatementSetOption; S_StatementSetSqlQuery].

(** * The void driver *)
Module VoidDriver.
Definition VoidState := RState token.

Section void.
  Context `{Libc}.

Definition VoidDatabaseNew : M VoidState unit :=
  allocate_private kTokenSize "VoidDatabasePrivate" zero_token.
Definition VoidDatabaseInit : M VoidState unit := mret tt.
Definition VoidDatabaseSetOption (key value : string) : M VoidState unit := mret tt.
Definition VoidDatabaseRelease : M VoidState unit := free_private.

Definition VoidConnectionCommit : M VoidState unit := not_implemented.
Definition VoidConnectionGetInfo : M VoidState unit := not_implemented.
Definition VoidConnectionGetObjects : M VoidState unit := not_implemented.
Definition VoidConnectionGetTableSchema : M VoidState unit := not_implemented.
Definition VoidConnectionGetTableTypes : M VoidState unit := not_implemented.
Definition VoidConnectionInit : M VoidState unit := mret tt.
Definition VoidConnectionNew : M VoidState unit :=
  allocate_private kTokenSize "VoidConnectionPrivate" zero_token.
Definition VoidConnectionReadPartition : M VoidState unit := not_implemented.
Definition VoidConnectionRelease : M VoidState unit := free_private.
Definition VoidConnectionRollback : M VoidState unit := not_implemented.
Definition VoidConnectionSetOption (key value : string) : M VoidState unit := mret tt.

Definition VoidStatementBind : M VoidState unit := not_implemented.
Definition VoidStatementBindStream : M VoidState unit := not_implemented.
Definition VoidStatementExecutePartitions : M VoidState unit := not_implemented.
Definition VoidStatementExecuteQuery : M VoidState unit := not_implemented.
Definition VoidStatementGetParameterSchema : M VoidState unit := not_implemented.
Definition VoidStatementNew : M VoidState unit :=
  allocate_private kTokenSize "VoidStatementPrivate" zero_token.
Definition VoidStatementPrepare : M VoidState unit := not_implemented.
Definition VoidStatementRelease : M VoidState unit := free_private.
Definition VoidStatementSetOption (key value : string) : M VoidState unit := mret tt.
Definition VoidStatementSetSqlQuery : M VoidState unit := not_implemented.

(** [driver->private_data] is the driver's own block. *)
Definition VoidDriverRelease : M VoidState unit := free_private.

(** [callbacks] names the driver's function for a slot; [memset] clears the table first. *)
Definition VoidDriverInitFunc {CB : Type} (callbacks : driver_slot -> CB) (version : Z)
    : M (ErrorPtr * RTable CB) unit := fun s =>
  if negb (version =? ADBC_VERSION_1_0_0) then Exit ADBC_STATUS_NOT_IMPLEMENTED s else
  if malloc_ok kTokenSize then
    Ret tt (s.1, mkRTable (Some zero_token)
                   (fun slot => if bool_decide (slot ∈ stub_driver_slots) then Some (callbacks slot)
                                else None) true)
  else Exit ADBC_STATUS_INTERNAL
         (SetErrorConst "failed to allocate VoidDriverPrivate" s.1, mkRTable None (fun _ => None) false).
End void.
End VoidDriver.

(** * The monkey driver *)
Module MonkeyDriver.
(** Databases and connections hold a token; a statement holds the stream it was given. *)
Definition TokenState := RState token.
Record MonkeyStatementPrivate := mkMonkey { mk_stream : InputStream }.
(** [sizeof(struct MonkeyStatementPrivate)] (LP64). *)
Definition sizeof_MonkeyStatementPrivate := 40.
Definition StatementState := RState MonkeyStatementPrivate.

Section monkey.
  Context `{Libc}.

Definition MonkeyDatabaseNew : M TokenState unit :=
  allocate_private kTokenSize "MonkeyDatabasePrivate" zero_token.
Definition MonkeyDatabaseInit : M TokenState unit := mret tt.
Definition MonkeyDatabaseSetOption (key value : string) : M TokenState unit := mret tt.
Definition MonkeyDatabaseRelease : M TokenState unit := free_private.

Definition MonkeyConnectionCommit : M TokenState unit := not_implemented.
Definition MonkeyConnectionGetInfo : M TokenState unit := not_implemented.
Definition MonkeyConnectionGetObjects : M TokenState unit := not_implemented.
Definition MonkeyConnectionGetTableSchema : M TokenState unit := not_implemented.
Definition MonkeyConnectionGetTableTypes : M TokenState unit := not_implemented.
Definition MonkeyConnectionInit : M TokenState unit := mret tt.
Definition MonkeyConnectionNew : M TokenState unit :=
  allocate_private kTokenSize "MonkeyConnectionPrivate" zero_token.
Definition MonkeyConnectionReadPartition : M TokenState unit := not_implemented.
Definition MonkeyConnectionRelease : M TokenState unit := free_private.
Definition MonkeyConnectionRollback : M TokenState unit := not_implemented.
Definition MonkeyConnectionSetOption (key value : string) : M TokenState unit := not_implemented.

(** [statement_private->...]: undefined through a null pointer. *)
Definition statement_private {X} (m : MonkeyStatementPrivate -> M (StatementState * X) unit)
    : M (StatementState * X) unit :=
  s ← gets fst; p ← lift_opt (rs_private s); m p.
Definition put_stream {X} (stream : InputStream) : M (StatementState * X) unit :=
  modify (fun s => (mkRState (rs_error s.1) (Some (mkMonkey stream)), s.2)).

Definition MonkeyStatementBind : M StatementState unit := not_implemented.
(** The other object is the caller's stream. *)
Definition MonkeyStatementBindStream : M (StatementState * InputStream) unit :=
  statement_private (fun p =>
    (* a stream that was bound before is released *)
    when (stream_live (mk_stream p)) (put_stream StreamReleased) ;;
    stream ← gets snd;
    put_stream stream ;;
    modify (fun s => (s.1, StreamReleased))).
Definition MonkeyStatementExecutePartitions : M StatementState unit := not_implemented.
(** The other objects are [*out] and [*rows_affected], [None] for a null pointer. *)
Definition MonkeyStatementExecuteQuery : M (StatementState * (option InputStream * option Z)) unit :=
  statement_private (fun p =>
    o ← gets snd;
    _ ← lift_opt o.1;
    modify (fun s => (s.1, (Some (mk_stream p), o.2))) ;;
    put_stream StreamReleased ;;
    _ ← lift_opt o.2;
    modify (fun s => (s.1, (s.2.1, Some (-1))))).
Definition MonkeyStatementGetParameterSchema : M StatementState unit := not_implemented.
Definition MonkeyStatementNew : M StatementState unit :=
  allocate_private sizeof_MonkeyStatementPrivate "MonkeyStatementPrivate" (mkMonkey StreamReleased).
Definition MonkeyStatementPrepare : M StatementState unit := not_implemented.
Definition MonkeyStatementRelease : M StatementState unit :=
  s ← gets id;
  match rs_private s with
  | None => mret tt
  | Some p =>
      when (stream_live (mk_stream p))
        (modify (fun s => mkRState (rs_error s) (Some (mkMonkey StreamReleased)))) ;;
      free_private
  end.
Definition MonkeyStatementSetOption (key value : string) : M StatementState unit := not_implemented.
Definition MonkeyStatementSetSqlQuery : M StatementState unit := mret tt.

Definition MonkeyDriverRelease : M TokenState unit := free_private.

(** As for the other driver: [callbacks] names the driver's function for a slot; [memset] clears the table first. *)
Definition MonkeyDriverInitFunc {CB : Type} (callbacks : driver_slot -> CB) (version : Z)
    : M (ErrorPtr * RTable CB) unit := fun s =>
  if negb (version =? ADBC_VERSION_1_0_0) then Exit ADBC_STATUS_NOT_IMPLEMENTED s else
  if malloc_ok kTokenSize then
    Ret tt (s.1, mkRTable (Some zero_token)
                   (fun slot => if bool_decide (slot ∈ stub_driver_slots) then Some (callbacks slot)
                                else None) true)
  else Exit ADBC_STATUS_INTERNAL
         (SetErrorConst "failed to allocate MonkeyDriverPrivate" s.1, mkRTable None (fun _ => None) false).
End monkey.
End MonkeyDriver.

(** * The monkey's statement is a mailbox

    The abstract state: whether the statement exists, and the stream in the box. *)
Section mailbox.
  Context `{Libc}.
  Import MonkeyDriver.

Inductive mailbox_call :=
| BindCall (stream : InputStream)
| ExecuteCall
| QueryCall.
(** What a call answers and what is in the box afterwards. *)
Definition mailbox (box : InputStream) (c : mailbox_call) : option InputStream * InputStream :=
  match c with
  | BindCall stream => (None, stream)
  | ExecuteCall => (Some box, StreamReleased)
  | QueryCall => (None, box)
  end.
(** The driver's functions, with room for the results. *)
Definition monkey_call (c : mailbox_call) (s : StatementState)
    : option (Z * option InputStream * StatementState) :=
  match c with
  | BindCall stream =>
      '(code, t) ← finish (MonkeyStatementBindStream (s, stream));
      Some (code, None, t.1)
  | ExecuteCall =>
      '(code, t) ← finish (MonkeyStatementExecuteQuery (s, (Some StreamReleased, Some 0)));
      Some (code, t.2.1, t.1)
  | QueryCall => '(code, t) ← finish (MonkeyStatementSetSqlQuery s); Some (code, None, t)
  end.
Fixpoint run_mailbox (box : InputStream) (calls : list mailbox_call)
    : list (option InputStream) * InputStream :=
  match calls with
  | [] => ([], box)
  | c :: rest =>
      let '(answer, box) := mailbox box c in
      let '(answers, box) := run_mailbox box rest in (answer :: answers, box)
  end.
Fixpoint run_monkey (s : StatementState) (calls : list mailbox_call)
    : option (list (option InputStream) * StatementState) :=
  match calls with
  | [] => Some ([], s)
  | c :: rest =>
      '(code, answer, s) ← monkey_call c s;
      if code =? ADBC_STATUS_OK then
        '(answers, s) ← run_monkey s rest; Some (answer :: answers, s)
      else None
  end.

(** The monkey driver refines a one-place mailbox: for every sequence of bound streams,
    queries and executions on a new statement, each execution hands out exactly the stream
    bound last and not yet handed out, or a released stream, and no stream is given out
    twice. *)
Theorem monkey_refines_mailbox (e : ErrorPtr) (calls : list mailbox_call)
  (Hmalloc : malloc_ok sizeof_MonkeyStatementPrivate = true) :
  exists s0, MonkeyStatementNew (mkRState e None) = Ret tt s0 /\
    run_monkey s0 calls =
      Some ((run_mailbox StreamReleased calls).1,
            mkRState e (Some (mkMonkey (run_mailbox StreamReleased calls).2))).
Proof.
  eexists. split.
  { unfold MonkeyStatementNew, allocate_private. by rewrite Hmalloc. }
  simpl. generalize (StreamReleased : InputStream). intros box. revert box.
  induction calls as [|c calls IH]; intros box; [done|].
  assert (exists answer box', mailbox box c = (answer, box') /\
    monkey_call c (mkRState e (Some (mkMonkey box))) =
      Some (0, answer, mkRState e (Some (mkMonkey box')))) as (answer & box' & Hm & Hc).
  { destruct c as [stream| |]; eexists _, _; (split; [done|]); [|done..].
    unfold monkey_call, MonkeyStatementBindStream. by destruct box. }
  cbn [run_mailbox run_monkey]. rewrite Hm, Hc. cbn [mbind option_bind].
  change (0 =? ADBC_STATUS_OK) with true. cbn iota. rewrite IH.
  by destruct (run_mailbox box' calls).
Qed.

(** Executing without asking for the number of rows. *)
Lemma null_rows_affected (s : StatementState) (out : option InputStream) :
  MonkeyStatementExecuteQuery (s, (out, None)) = Undef.
Proof.
  unfold MonkeyStatementExecuteQuery, statement_private. destruct s as [e [[stream]|]], out; done.
Qed.
End mailbox.

Section witnesses.
#[local] Existing Instance host.
Definition two_calls : list mailbox_call :=
  [BindCall (StreamSingleBatch zero_schema zero_array); ExecuteCall; ExecuteCall].
Lemma monkey_refines_mailbox_witness :
  exists s0, MonkeyDriver.MonkeyStatementNew (mkRState None None) = Ret tt s0 /\
    run_monkey s0 two_calls =
      Some ([None; Some (StreamSingleBatch zero_schema zero_array); Some StreamReleased],
            mkRState None (Some (MonkeyDriver.mkMonkey StreamReleased))).
Proof. apply (monkey_refines_mailbox None two_calls). reflexivity. Defined.
End witnesses.
