(* ===== verification/Postgres.v ===== *)
(** The PostgreSQL driver (c/driver/postgresql), part one: what it uses of libpq, its errors
    (util.h), the type mapping (type.cc, type.h), databases (database.cc) and connections
    (connection.cc). *)
From stdpp Require Import base tactics list numbers option strings gmap.
From Stdlib Require Import ZArith Lia Ascii.
From S2P Require Import Prelude CLib Adbc Utils.

(** * libpq

    [pq] is the state of the library and of the server.  Connections and results are handles,
    0 being the null pointer. *)
Definition CONNECTION_OK := 0.
Definition PGRES_COMMAND_OK := 1.
Definition PGRES_TUPLES_OK := 2.
Definition PGRES_COPY_OUT := 3.

Class Libpq := {
  pq : Type;
  PQconnectdb : string -> pq -> Z * pq;
  PQstatus : Z -> pq -> Z;
  PQfinish : Z -> pq -> pq;
  PQerrorMessage : Z -> pq -> string;
  PQexec : Z -> string -> pq -> Z * pq;
  (** without parameters; the last number is [resultFormat] *)
  PQexecParams : Z -> string -> Z -> pq -> Z * pq;
  (** the unnamed statement, with the parameters' type OIDs *)
  PQprepare : Z -> string -> list Z -> pq -> Z * pq;
  (** the unnamed statement: values ([None]: NULL), their formats, [resultFormat] *)
  PQexecPrepared : Z -> list (option (list Z)) -> list Z -> Z -> pq -> Z * pq;
  PQresultStatus : Z -> pq -> Z;
  PQresultErrorMessage : Z -> pq -> string;
  PQclear : Z -> pq -> pq;
  PQnfields : Z -> pq -> Z;
  PQftype : Z -> Z -> pq -> Z;
  PQfname : Z -> Z -> pq -> string;
  PQntuples : Z -> pq -> Z;
  PQgetvalue : Z -> Z -> Z -> pq -> string;
  (** the size, and the bytes of the buffer; [None] is a null pointer *)
  PQgetCopyData : Z -> pq -> Z * option (list Z) * pq;
  PQgetResult : Z -> pq -> Z * pq;
}.

(** * A concrete server

    Queries are answered from a script; [COMMIT], [BEGIN TRANSACTION] and [ROLLBACK] keep
    track of the transaction. *)
Module PgMock.
Record answer := mkAnswer {
  an_status : Z;
  an_fields : list (string * Z);      (** names and type OIDs *)
  an_rows : list (list string);       (** text values *)
  an_copy : list (list Z);            (** the messages of a COPY *)
  an_final : Z;                       (** the status after the COPY *)
}.
Definition command (status : Z) : answer := mkAnswer status [] [] [] status.
Definition rejected : answer := command 7.
Definition script := list (string * answer).
Record state := mkState {
  pm_script : script;
  pm_results : list (option answer);  (** result [h] is entry [h - 1] *)
  pm_copy : list (list Z) * Z;        (** what a COPY has left, and its final status *)
  pm_in_transaction : bool;
  pm_prepared : string;
  pm_log : list (string * list (option (list Z)));  (** what was executed, with which values *)
  pm_open : Z;                        (** connections opened so far *)
}.
Definition start (l : script) : state := mkState l [] ([], 7) false "" [] 0.

Definition get (h : Z) (d : state) : option answer :=
  if 0 <? h then mjoin (pm_results d !! Z.to_nat (h - 1)) else None.
Definition of_result {A} (f : answer -> A) (default_ : A) (h : Z) (d : state) : A :=
  default default_ (f <$> get h d).
Definition lookup (q : string) (d : state) : answer :=
  match find (fun e => String.eqb (fst e) q) (pm_script d) with
  | Some (_, a) => a
  | None => if existsb (String.eqb q) ["COMMIT"; "ROLLBACK"; "BEGIN TRANSACTION"]%string
            then command PGRES_COMMAND_OK else rejected
  end.
Definition transaction_after (q : string) (before : bool) : bool :=
  if String.eqb q "BEGIN TRANSACTION" then true
  else if existsb (String.eqb q) ["COMMIT"; "ROLLBACK"]%string then false else before.
Definition run (q : string) (values : list (option (list Z))) (d : state) : Z * state :=
  let a := lookup q d in
  (zlen (pm_results d) + 1,
   mkState (pm_script d) (pm_results d ++ [Some a])
     (if an_status a =? PGRES_COPY_OUT then (an_copy a, an_final a) else pm_copy d)
     (transaction_after q (pm_in_transaction d)) (pm_prepared d) (pm_log d ++ [(q, values)])
     (pm_open d)).
Definition connect (uri : string) (d : state) : Z * state :=
  if String.eqb uri "unreachable" then (-1, d)
  else (pm_open d + 1, mkState (pm_script d) (pm_results d) (pm_copy d) false (pm_prepared d)
                         (pm_log d) (pm_open d + 1)).
Definition prepare (q : string) (d : state) : Z * state :=
  let a := if Z.eqb (an_status (lookup q d)) 7 then rejected else command PGRES_COMMAND_OK in
  (zlen (pm_results d) + 1,
   mkState (pm_script d) (pm_results d ++ [Some a]) (pm_copy d) (pm_in_transaction d) q
     (pm_log d) (pm_open d)).
Definition clear (h : Z) (d : state) : state :=
  mkState (pm_script d) (if 0 <? h then <[Z.to_nat (h - 1) := None]> (pm_results d) else pm_results d)
    (pm_copy d) (pm_in_transaction d) (pm_prepared d) (pm_log d) (pm_open d).
Definition next_copy (d : state) : Z * option (list Z) * state :=
  match pm_copy d with
  | ([], _) => (-1, None, d)
  | (m :: r, final) =>
      (zlen m, Some (m ++ [0]),
       mkState (pm_script d) (pm_results d) (r, final) (pm_in_transaction d) (pm_prepared d)
         (pm_log d) (pm_open d))
  end.
Definition next_result (d : state) : Z * state :=
  (zlen (pm_results d) + 1,
   mkState (pm_script d) (pm_results d ++ [Some (command (pm_copy d).2)]) (pm_copy d)
     (pm_in_transaction d) (pm_prepared d) (pm_log d) (pm_open d)).

#[export] Instance mock : Libpq := {|
  pq := state;
  PQconnectdb := connect;
  PQstatus conn _ := if 0 <? conn then CONNECTION_OK else 1;
  PQfinish _ d := d;
  PQerrorMessage _ _ := "mock error"%string;
  PQexec _ q d := run q [] d;
  PQexecParams _ q _ d := run q [] d;
  PQprepare _ q _ d := prepare q d;
  PQexecPrepared _ values _ _ d := run (pm_prepared d) values d;
  PQresultStatus := of_result an_status 7;
  PQresultErrorMessage _ _ := "mock error"%string;
  PQclear := clear;
  PQnfields h d := of_result (fun a => zlen (an_fields a)) 0 h d;
  PQftype h c d := of_result (fun a => default 0 (snd <$> an_fields a !! Z.to_nat c)) 0 h d;
  PQfname h c d :=
    of_result (fun a => default ""%string (fst <$> an_fields a !! Z.to_nat c)) ""%string h d;
  PQntuples h d := of_result (fun a => zlen (an_rows a)) 0 h d;
  PQgetvalue h r c d :=
    of_result (fun a => default ""%string (row ← an_rows a !! Z.to_nat r; row !! Z.to_nat c))
      ""%string h d;
  PQgetCopyData _ d := next_copy d;
  PQgetResult _ d := next_result d;
|}.
End PgMock.

(** Code that calls the library. *)
Class HasPq `{Libpq} (S : Type) := pq_lens : Lens S pq.
#[export] Hint Mode HasPq - ! : typeclass_instances.
#[export] Instance HasPq_pair `{Libpq} {S T} `{!HasPq S} : HasPq (S * T) := lens_comp fst_lens pq_lens.
Section calls.
  Context `{Libpq} {S : Type} `{!HasPq S}.
Definition pq_of (s : S) : pq := view pq_lens s.
Definition pq_call {A} (f : pq -> A * pq) : M S A := fun s =>
  let '(a, d) := f (pq_of s) in Ret a (over pq_lens d s).
Definition pq_do (f : pq -> pq) : M S unit := modify (fun s => over pq_lens (f (pq_of s)) s).
Definition pq_ask {A} (f : pq -> A) : M S A := gets (fun s => f (pq_of s)).
Lemma wp_pq_call {A} (f : pq -> A * pq) a d (Q : A -> S -> Prop) E s :
  f (pq_of s) = (a, d) -> Q a (over pq_lens d s) -> wp (pq_call f) Q E s.
Proof. intros Hf HQ. unfold wp, pq_call. by rewrite Hf. Qed.
Lemma wp_pq_do f (Q : unit -> S -> Prop) E s :
  Q tt (over pq_lens (f (pq_of s)) s) -> wp (pq_do f) Q E s.
Proof. intros HQ. exact HQ. Qed.
Lemma wp_pq_ask {A} (f : pq -> A) (Q : A -> S -> Prop) E s : Q (f (pq_of s)) s -> wp (pq_ask f) Q E s.
Proof. intros HQ. exact HQ. Qed.
End calls.

(** * Errors (util.h)

    The parts of a message are joined; an earlier message is kept behind the new one. *)
Definition StringBuilder (parts : list string) : string := fold_right String.append ""%string parts.
Definition nl : string := String "010" "".
Definition SetError (parts : list string) : M ErrorPtr unit :=
  error ← gets id;
  match error with
  | None => mret tt
  | Some e =>
      let message := StringBuilder ("[libpq] "%string :: parts) in
      let message := match err_message e with
                     | Some m => (message +:+ nl +:+ m)%string
                     | None => message
                     end in
      put (Some (mkError (Some message) (err_vendor_code e) (err_sqlstate e) true))
  end.
Definition ReleaseError (error : AdbcError) : AdbcError :=
  mkError None (err_vendor_code error) (err_sqlstate error) false.
Definition set_error {S} `{!HasError S} (parts : list string) : M S unit :=
  zoom error_lens (SetError parts).
Definition raise {S A} `{!HasError S} (code : Z) (parts : list string) : M S A :=
  set_error parts ;; exit code.
Lemma wp_pg_set_error {S} `{!HasError S} parts (Q : unit -> S -> Prop) E s :
  (forall e, Q tt (over error_lens e s)) -> wp (set_error parts) Q E s.
Proof.
  intros HQ. unfold set_error, SetError. wp_steps. destruct (view error_lens s); apply HQ.
Qed.
(** [CHECK_NA_ADBC]: the text of the expression is [expr]. *)
Definition CHECK_NA_ADBC `{Libc} {S} `{!HasError S} (expr : string) (m : M S unit) : M S unit :=
  code ← catch m;
  if code =? 0 then mret tt else raise ADBC_STATUS_INTERNAL [(expr +:+ " failed: ")%string; strerror code].

(** Network byte order: most significant byte first.  A load outside the block is [None]. *)
Definition be_uint (bs : list Z) : Z := le_uint (rev bs).
Definition be_bytes (n : nat) (v : Z) : list Z := rev (le_bytes n v).
Arguments be_bytes : simpl never.
Definition LoadNetworkUInt16 (buf : list Z) (off : Z) : option Z := be_uint <$> read_at buf off 2.
Definition LoadNetworkUInt32 (buf : list Z) (off : Z) : option Z := be_uint <$> read_at buf off 4.
(** The bit pattern: the source returns it through [int64_t]. *)
Definition LoadNetworkUInt64 (buf : list Z) (off : Z) : option Z := be_uint <$> read_at buf off 8.
Definition LoadNetworkInt16 (buf : list Z) (off : Z) : option Z :=
  to_signed 16 <$> LoadNetworkUInt16 buf off.
Definition LoadNetworkInt32 (buf : list Z) (off : Z) : option Z :=
  to_signed 32 <$> LoadNetworkUInt32 buf off.
Definition LoadNetworkInt64 (buf : list Z) (off : Z) : option Z :=
  to_signed 64 <$> LoadNetworkUInt64 buf off.
(** The bytes [ToNetworkInt64(v)] has in memory. *)
Definition ToNetworkInt64 (v : Z) : list Z := be_bytes 8 v.

(** * The type mapping (type.cc) *)
Inductive PgType :=
| kBit | kBool | kDate | kFloat4 | kFloat8 | kInt2 | kInt4 | kInt8 | kText | kTime
| kTimestamp | kTimestampTz | kTimeTz | kVarBinary | kVarChar.
#[export] Instance PgType_eq_dec : EqDecision PgType.
Proof. solve_decision. Defined.
Record TypeMapping := mkMapping {
  type_mapping : gmap Z PgType;
  canonical_types : list (PgType * Z);   (** the first entry of a type counts *)
}.
Definition empty_mapping : TypeMapping := mkMapping ∅ [].

Definition FromPgTypreceive (typreceive : string) : option PgType :=
  if streq typreceive "bitrecv" then Some kBit
  else if streq typreceive "bytearecv" then Some kVarBinary
  else if streq typreceive "boolrecv" then Some kBool
  else if streq typreceive "bpcharrecv" then Some kVarChar
  else if streq typreceive "date_recv" then Some kDate
  else if streq typreceive "float4recv" then Some kFloat4
  else if streq typreceive "float8recv" then Some kFloat8
  else if streq typreceive "int2recv" then Some kInt2
  else if streq typreceive "int4recv" then Some kInt4
  else if streq typreceive "int8recv" then Some kInt8
  else if streq typreceive "textrecv" then Some kText
  else if streq typreceive "time_recv" then Some kTime
  else if streq typreceive "timestamp_recv" then Some kTimestamp
  else if streq typreceive "timestamptz_recv" then Some kTimestampTz
  else if streq typreceive "timetz_recv" then Some kTimeTz
  else if streq typreceive "varcharrecv" then Some kVarChar
  else None.
Definition Insert (oid : Z) (typname typreceive : string) (m : TypeMapping) : TypeMapping :=
  let m := match FromPgTypreceive typreceive with
           | Some t => mkMapping (<[oid := t]> (type_mapping m)) (canonical_types m)
           | None => m
           end in
  if streq typname "int8" then mkMapping (type_mapping m) ((kInt8, oid) :: canonical_types m)
  else if streq typname "text" then mkMapping (type_mapping m) ((kText, oid) :: canonical_types m)
  else m.
(** 0 when there is none. *)
Definition GetOid (t : PgType) (m : TypeMapping) : Z :=
  match find (fun e => bool_decide (e.1 = t)) (canonical_types m) with
  | Some (_, oid) => oid
  | None => 0
  end.

(** * Objects

    Databases and connections are shared by reference ([std::shared_ptr]): the heap holds
    them, and a reference is an index.  The type mapping of a connection or statement is the
    one of its database, which never changes hands.  [pc_conn] is 0 for a null pointer. *)
Record PostgresDatabase := mkDatabase {
  pd_open_connections : Z;
  pd_uri : string;
  pd_type_mapping : TypeMapping;
}.
Record PostgresConnection := mkConnection {
  pc_database : option nat;
  pc_conn : Z;
  pc_autocommit : bool;
}.
Definition new_database : PostgresDatabase := mkDatabase 0 "" empty_mapping.
Definition new_connection : PostgresConnection := mkConnection None 0 true.
Record Heap `{Libpq} := mkHeap {
  hp_error : ErrorPtr;
  hp_pq : pq;
  hp_databases : list PostgresDatabase;
  hp_connections : list PostgresConnection;
}.
Arguments mkHeap {_} hp_error hp_pq hp_databases hp_connections.
#[export] Instance HasError_Heap `{Libpq} : HasError Heap :=
  mkLens hp_error (fun e h => mkHeap e (hp_pq h) (hp_databases h) (hp_connections h)).
#[export] Instance HasPq_Heap `{Libpq} : HasPq Heap :=
  mkLens hp_pq (fun d h => mkHeap (hp_error h) d (hp_databases h) (hp_connections h)).

Section objects.
  Context `{Libc} `{Libpq}.
Definition database (i : nat) : M Heap PostgresDatabase :=
  dbs ← gets hp_databases; lift_opt (dbs !! i).
Definition put_database (i : nat) (d : PostgresDatabase) : M Heap unit :=
  modify (fun h => mkHeap (hp_error h) (hp_pq h) (<[i := d]> (hp_databases h)) (hp_connections h)).
Definition connection (i : nat) : M Heap PostgresConnection :=
  cs ← gets hp_connections; lift_opt (cs !! i).
Definition put_connection (i : nat) (c : PostgresConnection) : M Heap unit :=
  modify (fun h => mkHeap (hp_error h) (hp_pq h) (hp_databases h) (<[i := c]> (hp_connections h))).

(** [if (PQresultStatus(result) != PGRES_COMMAND_OK) { SetError(...); PQclear(result);
    return ADBC_STATUS_IO; } PQclear(result);], with [messages] of [PQerrorMessage(conn)]. *)
Definition check_command {S} `{!HasError S} `{!HasPq S} (conn result : Z)
    (messages : string -> list (list string)) : M S unit :=
  status ← pq_ask (PQresultStatus result);
  if negb (status =? PGRES_COMMAND_OK) then
    message ← pq_ask (PQerrorMessage conn);
    foldr (fun parts k => set_error parts ;; k) (mret tt) (messages message) ;;
    pq_do (PQclear result) ;;
    exit ADBC_STATUS_IO
  else pq_do (PQclear result).

(** * Databases (database.cc)

    [Connect(PGconn** conn)]: the status, and [*conn], which a call without a URI leaves. *)
Definition Database_Connect (i : nat) (conn : Z) : M Heap (Z * Z) :=
  db ← database i;
  if streq (pd_uri db) "" then
    set_error ["Must set database option 'uri' before creating a connection"%string] ;;
    mret (ADBC_STATUS_INVALID_STATE, conn)
  else
  conn ← pq_call (PQconnectdb (pd_uri db));
  status ← pq_ask (PQstatus conn);
  if negb (status =? CONNECTION_OK) then
    message ← pq_ask (PQerrorMessage conn);
    set_error ["Failed to connect: "%string; message] ;;
    pq_do (PQfinish conn) ;;
    mret (ADBC_STATUS_IO, 0)
  else
  n ← i32 (pd_open_connections db + 1);
  put_database i (mkDatabase n (pd_uri db) (pd_type_mapping db)) ;;
  mret (ADBC_STATUS_OK, conn).

(** [Disconnect(PGconn** conn)] always sets [*conn] to null. *)
Definition Database_Disconnect (i : nat) (conn : Z) : M Heap unit :=
  pq_do (PQfinish conn) ;;
  db ← database i;
  n ← i32 (pd_open_connections db - 1);
  put_database i (mkDatabase n (pd_uri db) (pd_type_mapping db)) ;;
  if n <? 0 then raise ADBC_STATUS_INTERNAL ["Open connection count underflowed"%string]
  else mret tt.

Definition kTypeQuery : string :=
  nl +:+ "SELECT" +:+ nl +:+ "    oid," +:+ nl +:+ "    typname," +:+ nl +:+
  "    typreceive" +:+ nl +:+ "FROM" +:+ nl +:+ "    pg_catalog.pg_type" +:+ nl.

Definition insert_type (i : nat) (result row : Z) : M Heap unit :=
  oid ← pq_ask (PQgetvalue result row 0);
  typname ← pq_ask (PQgetvalue result row 1);
  typreceive ← pq_ask (PQgetvalue result row 2);
  db ← database i;
  put_database i (mkDatabase (pd_open_connections db) (pd_uri db)
    (Insert (to_unsigned 32 (strtol oid).1.1) typname typreceive (pd_type_mapping db))).

Definition Database_Init (i : nat) : M Heap unit :=
  '(final_status, conn) ← Database_Connect i 0;
  if negb (final_status =? ADBC_STATUS_OK) then exit final_status else
  result ← pq_call (PQexec conn kTypeQuery);
  pq_status ← pq_ask (PQresultStatus result);
  final_status ← (if pq_status =? PGRES_TUPLES_OK then
      num_rows ← pq_ask (PQntuples result);
      for_range 0 num_rows (insert_type i result) ;;
      mret final_status
    else
      message ← pq_ask (PQerrorMessage conn);
      set_error ["Failed to build type mapping table: "%string; message] ;;
      mret ADBC_STATUS_IO);
  pq_do (PQclear result) ;;
  status ← catch (Database_Disconnect i conn);
  return_code (if negb (status =? ADBC_STATUS_OK) then status else final_status).

Definition Database_Release (i : nat) : M Heap unit :=
  db ← database i;
  if negb (pd_open_connections db =? 0) then
    raise ADBC_STATUS_INVALID_STATE
      ["Database released with "%string; fmt_Z (pd_open_connections db); " open connections"%string]
  else mret tt.

Definition Database_SetOption (i : nat) (key value : string) : M Heap unit :=
  if streq key "uri" then
    db ← database i;
    put_database i (mkDatabase (pd_open_connections db) value (pd_type_mapping db))
  else raise ADBC_STATUS_NOT_IMPLEMENTED ["Unknown database option "%string; key].

(** * Connections (connection.cc) *)
Definition run_command (conn : Z) (query what : string) : M Heap unit :=
  result ← pq_call (PQexec conn query);
  check_command conn result (fun message => [[what; message]]).

Definition Connection_Commit (i : nat) : M Heap unit :=
  c ← connection i;
  if pc_autocommit c
  then raise ADBC_STATUS_INVALID_STATE ["Cannot commit when autocommit is enabled"%string]
  else run_command (pc_conn c) "COMMIT" "Failed to commit: ".

Definition Connection_Rollback (i : nat) : M Heap unit :=
  c ← connection i;
  if pc_autocommit c
  then raise ADBC_STATUS_INVALID_STATE ["Cannot rollback when autocommit is enabled"%string]
  else run_command (pc_conn c) "ROLLBACK" "Failed to rollback: ".

Definition Connection_GetTableSchema : M Heap unit := exit ADBC_STATUS_NOT_IMPLEMENTED.

(** [database]: the [private_data] of the caller's [AdbcDatabase]; a null struct pointer and
    null private data are treated alike. *)
Definition Connection_Init (i : nat) (database : option nat) : M Heap unit :=
  match database with
  | None => raise ADBC_STATUS_INVALID_ARGUMENT ["Must provide an initialized AdbcDatabase"%string]
  | Some d =>
      c ← connection i;
      put_connection i (mkConnection (Some d) (pc_conn c) (pc_autocommit c)) ;;
      '(status, conn) ← Database_Connect d (pc_conn c);
      put_connection i (mkConnection (Some d) conn (pc_autocommit c)) ;;
      return_code status
  end.

Definition Connection_Release (i : nat) : M Heap unit :=
  c ← connection i;
  if negb (pc_conn c =? 0) then
    d ← lift_opt (pc_database c);
    status ← catch (Database_Disconnect d (pc_conn c));
    put_connection i (mkConnection (Some d) 0 (pc_autocommit c)) ;;
    return_code status
  else mret tt.

Definition Connection_SetOption (i : nat) (key value : string) : M Heap unit :=
  if streq key ADBC_CONNECTION_OPTION_AUTOCOMMIT then
    autocommit ←
      (if streq value ADBC_OPTION_VALUE_ENABLED then mret true
       else if streq value ADBC_OPTION_VALUE_DISABLED then mret false
       else raise ADBC_STATUS_INVALID_ARGUMENT
              ["Invalid value for option "%string; key; ": "%string; value]);
    c ← connection i;
    when (negb (Bool.eqb autocommit (pc_autocommit c)))
      (run_command (pc_conn c) (if autocommit : bool then "COMMIT" else "BEGIN TRANSACTION")
         "Failed to update autocommit: " ;;
       put_connection i (mkConnection (pc_database c) (pc_conn c) autocommit))
  else raise ADBC_STATUS_NOT_IMPLEMENTED ["Unknown option "%string; key].
End objects.
