(* ===== verification/PgReader.v ===== *)
(** The PostgreSQL driver, part two: the reader of binary COPY streams ([TupleReader] of
    c/driver/postgresql/statement.cc and statement.h).

    A COPY stream is a sequence of messages.  The first begins with a header, every message
    holds one row: a field count, and for each field a length (-1 for NULL) and its bytes.
    A field count of -1 ends the stream.  Numbers are in network byte order. *)
From stdpp Require Import base tactics list numbers option strings.
From Stdlib Require Import ZArith Lia Ascii.
From S2P Require Import Prelude CLib Buffer Schema SchemaView Array ArrayView Adbc Utils Postgres.

(** * Data

    [tr_result] is 0 for a null pointer, [tr_pgbuf] is the block [pgbuf_] points at. *)
Record TupleReader := mkTuple {
  tr_conn : Z;
  tr_result : Z;
  tr_pgbuf : option (list Z);
  tr_schema : ArrowSchema;
  tr_last_error : string;
}.
Definition new_reader (conn : Z) : TupleReader := mkTuple conn 0 None zero_schema "".
Definition tr_set_result r (t : TupleReader) :=
  mkTuple (tr_conn t) r (tr_pgbuf t) (tr_schema t) (tr_last_error t).
Definition tr_set_pgbuf b (t : TupleReader) :=
  mkTuple (tr_conn t) (tr_result t) b (tr_schema t) (tr_last_error t).
Definition tr_set_schema s (t : TupleReader) :=
  mkTuple (tr_conn t) (tr_result t) (tr_pgbuf t) s (tr_last_error t).
Definition tr_set_error m (t : TupleReader) :=
  mkTuple (tr_conn t) (tr_result t) (tr_pgbuf t) (tr_schema t) m.

(** The library, the reader, the caller's [out]. *)
Record TS `{Libpq} := mkTS { ts_pq : pq; ts_reader : TupleReader; ts_out : ArrowArray }.
Arguments mkTS {_} ts_pq ts_reader ts_out.
#[export] Instance HasPq_TS `{Libpq} : HasPq TS :=
  mkLens ts_pq (fun d s => mkTS d (ts_reader s) (ts_out s)).

Definition kPgCopyBinarySignature : list Z := [80; 71; 67; 79; 80; 89; 10; 255; 13; 10; 0].
Definition kPgBinaryFormat := 1.
Definition kPqHeaderLength := 19.

Section reader.
  Context `{Libc} `{Libpq}.

Definition out_lens : Lens TS ArrowArray :=
  mkLens ts_out (fun a s => mkTS (ts_pq s) (ts_reader s) a).
Definition on_tuple (f : TupleReader -> TupleReader) : M TS unit :=
  modify (fun s => mkTS (ts_pq s) (f (ts_reader s)) (ts_out s)).
(** [last_error_ = StringBuilder(...); return code;] *)
Definition reader_fail {A} (code : Z) (parts : list string) : M TS A :=
  on_tuple (tr_set_error (StringBuilder parts)) ;; exit code.
(** Code on [out->children[col]]. *)
Definition on_child_array {A} (col : Z) (m : M ArrowArray A) : M TS A :=
  zoom out_lens (on_array_child col m).
(** [schema_.children[col]->name], which is printed. *)
Definition column_name (col : Z) : M TS string :=
  reader ← gets ts_reader;
  child ← lift_opt (mjoin (child_at (tr_schema reader) col));
  lift_opt (sc_name child).

Definition TupleReader_GetSchema : M (TupleReader * ArrowSchema) unit :=
  reader ← gets fst;
  if negb (sc_release (tr_schema reader)) then
    modify (fun p => (tr_set_error "[libpq] Result set was already consumed or freed" p.1, p.2)) ;;
    exit EINVAL
  else
  zoom snd_lens (put zero_schema ;; ArrowSchemaDeepCopy (tr_schema reader)).

(** ** One row

    [buf] is the block and [off] what the pointer [buf] of the source is in it. *)

(** [ArrowBufferAppend(data, buf, size)]: nothing is read unless [size] is positive. *)
Definition append_from (buf : list Z) (off size : Z) : M ArrowBuffer unit :=
  ArrowBufferReserve size ;;
  if size >? 0 then bytes ← lift_opt (read_at buf off size); ArrowBufferAppendUnsafe bytes
  else mret tt.

(** The value of a field; the result is the advanced [buf]. *)
Definition append_value (type : ArrowType) (buf : list Z) (off field_length row_count col : Z)
    : M TS Z :=
  let data {A} (m : M ArrowBuffer A) := on_child_array col (ArrowArrayBuffer 1 m) in
  match type with
  | TYPE_BOOL =>
      raw_value ← lift_opt (byte_at buf off);
      if negb (raw_value =? 0) && negb (raw_value =? 1) then
        name ← column_name col;
        reader_fail EINVAL
          ["[libpq] Column #"%string; fmt_Z (col + 1); " ("%string; quote; name;
           quote; "): invalid BOOL value "%string; bytes_string [raw_value]]
      else
      let bytes_required := _ArrowRoundUpToMultipleOf8 (row_count + 1) ÷ 8 in
      data (b ← gets id;
            when (bytes_required >? buf_size_bytes b)
              (ArrowBufferAppendFill 0 (bytes_required - buf_size_bytes b)) ;;
            set_bits row_count 1 raw_value) ;;
      mret (off + 1)
  | TYPE_DOUBLE =>
      raw_value ← lift_opt (LoadNetworkUInt64 buf off);
      data (ArrowBufferAppendDouble raw_value) ;;
      mret (off + 8)
  | TYPE_FLOAT =>
      raw_value ← lift_opt (LoadNetworkUInt32 buf off);
      data (ArrowBufferAppendFloat raw_value) ;;
      mret (off + 4)
  | TYPE_INT16 =>
      value ← lift_opt (LoadNetworkInt16 buf off);
      (* buf += sizeof(int32_t) *)
      data (ArrowBufferAppendInt16 value) ;;
      mret (off + 4)
  | TYPE_INT32 =>
      value ← lift_opt (LoadNetworkInt32 buf off);
      data (ArrowBufferAppendInt32 value) ;;
      mret (off + 4)
  | TYPE_INT64 =>
      value ← (if field_length <? 0 then mret 0 else lift_opt (LoadNetworkInt64 buf off));
      data (ArrowBufferAppendInt64 value) ;;
      mret (off + 8)
  | TYPE_BINARY | TYPE_STRING =>
      last_offset ← data (read_elem 4 row_count);
      offset ← i32 (last_offset + field_length);
      data (ArrowBufferAppendInt32 offset) ;;
      on_child_array col (ArrowArrayBuffer 2 (append_from buf off field_length)) ;;
      mret (off + field_length)
  | _ =>
      name ← column_name col;
      reader_fail ENOTSUP
        ["[libpq] Column #"%string; fmt_Z (col + 1); " ("%string; quote; name;
         quote; ") has unsupported type "%string; fmt_Z (type_code type)]
  end.
Definition append_field (fields : list ArrowSchemaView) (buf : list Z) (row_count col off : Z)
    : M TS Z :=
  field_length ← lift_opt (LoadNetworkInt32 buf off);
  on_child_array col
    (ArrowArrayValidityBitmap (ArrowBitmapAppend (Z.b2z (0 <=? field_length)) 1)) ;;
  field ← lift_opt (fields !! Z.to_nat col);
  append_value (sv_type field) buf (off + 4) field_length row_count col.
(** [for (col = 0; col < n; col++)] from [col] on. *)
Fixpoint append_fields (fields : list ArrowSchemaView) (buf : list Z) (row_count : Z) (n : nat)
    (col off : Z) : M TS Z :=
  match n with
  | O => mret off
  | S n' =>
      off ← append_field fields buf row_count col off;
      append_fields fields buf row_count n' (col + 1) off
  end.
(** The value is [*row_count] after the call. *)
Definition TupleReader_AppendNext (fields : list ArrowSchemaView) (buf : list Z) (off : Z)
    (row_count : Z) : M TS Z :=
  reader ← gets ts_reader;
  let n_children := sc_n_children (tr_schema reader) in
  field_count ← lift_opt (LoadNetworkInt16 buf off);
  if field_count =? -1 then mret row_count else
  if negb (field_count =? n_children) then
    reader_fail EIO ["[libpq] Expected "%string; fmt_Z n_children; " fields but found "%string;
                     fmt_Z field_count]
  else
  _ ← append_fields fields buf row_count (Z.to_nat n_children) 0 (off + 2);
  n ← i64 (row_count + 1);
  mret n.

(** ** The whole stream *)

(** [strcmp(s, t)]: are the C strings at the start of the blocks equal?  [None]: a block
    ends before that is known. *)
Fixpoint strcmp_eq (s t : list Z) : option bool :=
  match s, t with
  | a :: s', b :: t' =>
      if negb (a =? b) then Some false else if a =? 0 then Some true else strcmp_eq s' t'
  | _, _ => None
  end.

(** [PQgetCopyData(conn_, &pgbuf_, 0)]: the size. *)
Definition get_copy_data : M TS Z :=
  reader ← gets ts_reader;
  '(size, buffer) ← pq_call (PQgetCopyData (tr_conn reader));
  on_tuple (tr_set_pgbuf buffer) ;;
  mret size.

(** The header; the value is the position of the first row in [pgbuf_].  [size] is compared
    as a [size_t]. *)
Definition read_header : M TS Z :=
  size ← get_copy_data;
  if to_unsigned 64 size <? kPqHeaderLength then exit EIO else
  reader ← gets ts_reader;
  pgbuf ← lift_opt (tr_pgbuf reader);
  same ← lift_opt (strcmp_eq pgbuf kPgCopyBinarySignature);
  if negb same then exit EIO else
  flags ← lift_opt (LoadNetworkUInt32 pgbuf 11);
  if negb (flags =? 0) then exit EIO else
  extension_length ← lift_opt (LoadNetworkUInt32 pgbuf 15);
  mret (kPqHeaderLength + extension_length).

(** The status of [AppendNext] and the new row count. *)
Definition try_append (fields : list ArrowSchemaView) (off row_count : Z) : M TS (Z * Z) := fun s =>
  match tr_pgbuf (ts_reader s) with
  | None => Undef
  | Some buf =>
      match TupleReader_AppendNext fields buf off row_count s with
      | Ret n s' => Ret (0, n) s'
      | Exit code s' => Ret (code, row_count) s'
      | Undef => Undef
      | NoFuel => NoFuel
      end
  end.
(** [do ... while (true)], at most [fuel] rows: the result code and the number of rows.  The
    server decides how often the loop runs. *)
Fixpoint append_rows (fuel : nat) (fields : list ArrowSchemaView) (off num_rows : Z)
    : M TS (Z * Z) :=
  match fuel with
  | O => nofuel
  | S fuel' =>
      '(result_code, num_rows) ← try_append fields off num_rows;
      on_tuple (tr_set_pgbuf None) ;;
      if negb (result_code =? 0) then mret (result_code, num_rows) else
      buf_size ← get_copy_data;
      if buf_size <? 0 then on_tuple (tr_set_pgbuf None) ;; mret (result_code, num_rows)
      else append_rows fuel' fields 0 num_rows
  end.

(** The header and the rows: the result code and the number of rows. *)
Definition read_rows (fuel : nat) (fields : list ArrowSchemaView) : M TS (Z * Z) :=
  off ← read_header;
  on_tuple (tr_set_error "") ;;
  append_rows fuel fields off 0.

(** [last_error_ += ...], on a line of its own. *)
Definition add_error (parts : list string) : M TS unit :=
  on_tuple (fun t =>
    let before := if streq (tr_last_error t) "" then ""%string else (tr_last_error t +:+ nl)%string in
    tr_set_error (before +:+ StringBuilder parts) t).

(** [if (out->release) out->release(out);] *)
Definition release_out : M TS unit :=
  out ← gets ts_out; when (ar_release out) (zoom out_lens ArrowArrayRelease).
(** nanoarrow code on [out] that may report an error: its status and the message. *)
Definition on_out (m : M AE unit) : M TS (Z * string) := fun s =>
  let back a := mkTS (ts_pq s) (ts_reader s) a in
  match m (ts_out s, Some ""%string) with
  | Ret _ (a, e) => Ret (0, default ""%string e) (back a)
  | Exit c (a, e) => Ret (c, default ""%string e) (back a)
  | Undef => Undef
  | NoFuel => NoFuel
  end.
(** The view of a column, and its empty validity bitmap. *)
Definition init_field (col : Z) : M TS ArrowSchemaView :=
  reader ← gets ts_reader;
  child ← lift_opt (mjoin (child_at (tr_schema reader) col));
  match ArrowSchemaViewInit child (fresh_view, Some ""%string) with
  | Ret _ (view, _) =>
      _ ← on_child_array col (ArrowArraySetValidityBitmap ArrowBitmapInit);
      mret view
  | Exit na_res (_, error) =>
      on_tuple (tr_set_error (StringBuilder
        ["[libpq] Failed to init schema view: "%string; fmt_Z na_res; strerror na_res;
         ": "%string; default ""%string error])) ;;
      release_out ;; exit na_res
  | Undef => undef
  | NoFuel => nofuel
  end.
Fixpoint init_fields (n : nat) (col : Z) : M TS (list ArrowSchemaView) :=
  match n with
  | O => mret []
  | S n' => field ← init_field col; fields ← init_fields n' (col + 1); mret (field :: fields)
  end.

(** The end of the result: lengths, the checks, the server's last word.  [result_code] is
    that of the last row. *)
Definition finish_result (result_code num_rows : Z) : M TS unit :=
  reader ← gets ts_reader;
  for_range 0 (sc_n_children (tr_schema reader)) (fun col =>
    on_child_array col (modify (set_length num_rows))) ;;
  zoom out_lens (modify (set_length num_rows)) ;;
  '(na_res, _) ← on_out ArrowArrayFinishBuilding;
  result_code ← (if negb (na_res =? 0)
    then add_error ["[libpq] Failed to build result array"%string] ;; mret na_res
    else mret result_code);
  result ← pq_call (PQgetResult (tr_conn reader));
  on_tuple (tr_set_result result) ;;
  pq_status ← pq_ask (PQresultStatus result);
  result_code ← (if negb (pq_status =? PGRES_COMMAND_OK) then
      message ← pq_ask (PQresultErrorMessage result);
      add_error ["[libpq] Query failed: ("%string; fmt_Z pq_status; ") "%string; message] ;;
      mret EIO
    else mret result_code);
  pq_do (PQclear result) ;;
  on_tuple (tr_set_result 0) ;;
  return_code result_code.

Definition TupleReader_GetNext (fuel : nat) : M TS unit :=
  reader ← gets ts_reader;
  if tr_result reader =? 0 then zoom out_lens (modify (set_array_release false)) else
  pq_do (PQclear (tr_result reader)) ;;
  on_tuple (tr_set_result 0) ;;
  '(na_res, message) ← on_out (ArrowArrayInitFromSchema (tr_schema reader));
  if negb (na_res =? 0) then
    on_tuple (tr_set_error (StringBuilder
      ["[libpq] Failed to init output array: "%string; fmt_Z na_res; strerror na_res;
       ": "%string; message])) ;;
    release_out ;; exit na_res
  else
  zoom out_lens ArrowArrayStartAppending ;;
  fields ← init_fields (Z.to_nat (sc_n_children (tr_schema reader))) 0;
  '(result_code, num_rows) ← read_rows fuel fields;
  finish_result result_code num_rows.

Definition TupleReader_Release {S} `{!HasPq S} (l : Lens S TupleReader) : M S unit :=
  reader ← gets (view l);
  when (negb (tr_result reader =? 0))
    (pq_do (PQclear (tr_result reader)) ;; modify (fun s => over l (tr_set_result 0 (view l s)) s)) ;;
  when (sc_release (tr_schema reader))
    (modify (fun s => over l (tr_set_schema indet_schema (view l s)) s)) ;;
  modify (fun s => over l (tr_set_pgbuf None (view l s)) s).
End reader.
