(* ===== verification/PgCopy.v ===== *)
(** The binary COPY format and the reader of the PostgreSQL driver (PgReader.v): what the
    server sends for a row, what the columns hold afterwards, and where the two disagree. *)
From stdpp Require Import base tactics list numbers option strings.
From Stdlib Require Import ZArith Lia Ascii.
From S2P Require Import Prelude CLib Buffer Schema SchemaView Array ArrayView Adbc Utils Postgres PgReader.

(** * The format

    A value: a boolean, a number (floating-point numbers are their bits), or text. *)
Inductive datum := DBool (b : bool) | DNum (z : Z) | DText (bs : list Z).
(** The bytes of a number. *)
Definition width (type : ArrowType) : nat :=
  match type with TYPE_INT16 => 2 | TYPE_INT32 | TYPE_FLOAT => 4 | _ => 8 end.
Definition datum_ok (type : ArrowType) (d : datum) : Prop :=
  match type, d with
  | TYPE_BOOL, DBool _ => True
  | (TYPE_INT16 | TYPE_INT32 | TYPE_INT64), DNum z =>
      - 2 ^ (8 * Z.of_nat (width type) - 1) <= z < 2 ^ (8 * Z.of_nat (width type) - 1)
  | (TYPE_FLOAT | TYPE_DOUBLE), DNum z => 0 <= z < 2 ^ (8 * Z.of_nat (width type))
  | (TYPE_STRING | TYPE_BINARY), DText bs => Forall is_byte bs /\ zlen bs <= INT32_MAX
  | _, _ => False
  end.
Definition payload (type : ArrowType) (d : datum) : list Z :=
  match d with
  | DBool b => [Z.b2z b]
  | DNum z => be_bytes (width type) z
  | DText bs => bs
  end.
(** A field; [None] is NULL. *)
Definition encode_field (type : ArrowType) (d : option datum) : list Z :=
  match d with
  | Some d => be_bytes 4 (zlen (payload type d)) ++ payload type d
  | None => be_bytes 4 (-1)
  end.
Fixpoint encode_fields (types : list ArrowType) (ds : list (option datum)) : list Z :=
  match types, ds with
  | t :: ts, d :: ds => encode_field t d ++ encode_fields ts ds
  | _, _ => []
  end.
Definition encode_row (types : list ArrowType) (ds : list (option datum)) : list Z :=
  be_bytes 2 (zlen types) ++ encode_fields types ds.
Definition end_of_rows : list Z := be_bytes 2 (-1).
Definition copy_header : list Z := kPgCopyBinarySignature ++ be_bytes 4 0 ++ be_bytes 4 0.

(** * What a column holds *)
Definition truth (d : datum) : bool := match d with DBool b => b | _ => false end.
Definition number (d : datum) : Z := match d with DNum z => z | _ => 0 end.
Definition text (d : datum) : list Z := match d with DText bs => bs | _ => [] end.
(** Booleans as bits, numbers as words, texts as offsets and bytes. *)
Definition text_holds (offsets data : list Z) (bs : ArrowBuffer * ArrowBuffer) : Prop :=
  buffer_ok bs.1 /\ buf_content bs.1 = flat_map (le_bytes 4) offsets /\
  buffer_ok bs.2 /\ buf_content bs.2 = data.
Definition values_hold (type : ArrowType) (ds : list datum) (bs : ArrowBuffer * ArrowBuffer) : Prop :=
  match type with
  | TYPE_BOOL =>
      bitmap_ok (mkBitmap bs.1 (zlen ds)) /\ bitmap_bits (mkBitmap bs.1 (zlen ds)) = map truth ds
  | TYPE_STRING | TYPE_BINARY => text_holds (offsets_from 0 (map text ds)) (concat (map text ds)) bs
  | _ => buffer_ok bs.1 /\ buf_content bs.1 = flat_map (le_bytes (width type)) (map number ds)
  end.
(** An array under construction: its validity bits and a property of its buffers. *)
Definition column_is (valid : list bool) (P : ArrowBuffer * ArrowBuffer -> Prop) (a : ArrowArray)
    : Prop :=
  ar_indeterminate a = false /\ exists p, ar_private a = Some p /\
    bitmap_ok (pd_bitmap p) /\ bitmap_bits (pd_bitmap p) = valid /\ P (pd_buffers p).
Definition column_holds (type : ArrowType) (ds : list datum) (a : ArrowArray) : Prop :=
  column_is (replicate (length ds) true) (values_hold type ds) a.

(** * Bytes at a position *)
Definition at_off (buf : list Z) (off : Z) (bs : list Z) : Prop :=
  exists p r, buf = p ++ bs ++ r /\ zlen p = off.

Lemma at_off_app buf off a b :
  at_off buf off (a ++ b) -> at_off buf off a /\ at_off buf (off + zlen a) b.
Proof.
  intros (p & r & -> & <-). split.
  - exists p, (b ++ r). by rewrite <- app_assoc.
  - exists (p ++ a), r. rewrite zlen_app, <- !app_assoc. done.
Qed.
Lemma at_off_nonneg buf off bs : at_off buf off bs -> 0 <= off.
Proof. intros (p & r & _ & <-). apply zlen_nonneg. Qed.
Lemma at_off_read buf off bs : at_off buf off bs -> read_at buf off (zlen bs) = Some bs.
Proof.
  intros (p & r & -> & <-). unfold read_at. rewrite !zlen_app.
  pose proof (zlen_nonneg p). pose proof (zlen_nonneg bs). pose proof (zlen_nonneg r).
  rewrite !(proj2 (Z.leb_le _ _)) by lia. simpl. f_equal. unfold zlen. rewrite !Nat2Z.id.
  rewrite drop_app_length. apply take_app_length.
Qed.
Lemma at_off_byte buf off b : at_off buf off [b] -> byte_at buf off = Some b.
Proof.
  intros (p & r & -> & <-). unfold byte_at. pose proof (zlen_nonneg p).
  rewrite (proj2 (Z.leb_le _ _)) by lia. unfold zlen. rewrite Nat2Z.id.
  by apply list_lookup_middle.
Qed.
Lemma zlen_be_bytes n v : zlen (be_bytes n v) = Z.of_nat n.
Proof. unfold be_bytes, zlen. by rewrite length_rev, length_le_bytes. Qed.
Lemma be_uint_be_bytes n v : be_uint (be_bytes n v) = v mod 2 ^ (8 * Z.of_nat n).
Proof. unfold be_uint, be_bytes. by rewrite rev_involutive, le_uint_le_bytes. Qed.

(** Loading what was stored, unsigned and signed. *)
Lemma load_be buf off n v : at_off buf off (be_bytes n v) ->
  be_uint <$> read_at buf off (Z.of_nat n) = Some (v mod 2 ^ (8 * Z.of_nat n)).
Proof.
  intros Hat. rewrite <- (zlen_be_bytes n v), (at_off_read _ _ _ Hat). simpl.
  by rewrite be_uint_be_bytes, zlen_be_bytes.
Qed.
Lemma load_int16 buf off v : at_off buf off (be_bytes 2 v) -> - 2 ^ 15 <= v < 2 ^ 15 ->
  LoadNetworkInt16 buf off = Some v.
Proof.
  intros Hat Hv. unfold LoadNetworkInt16, LoadNetworkUInt16. change 2 with (Z.of_nat 2).
  rewrite (load_be _ _ _ _ Hat). simpl. f_equal. apply to_signed_id; lia.
Qed.
Lemma load_int32 buf off v : at_off buf off (be_bytes 4 v) -> - 2 ^ 31 <= v < 2 ^ 31 ->
  LoadNetworkInt32 buf off = Some v.
Proof.
  intros Hat Hv. unfold LoadNetworkInt32, LoadNetworkUInt32. change 4 with (Z.of_nat 4).
  rewrite (load_be _ _ _ _ Hat). simpl. f_equal. apply to_signed_id; lia.
Qed.
Lemma load_int64 buf off v : at_off buf off (be_bytes 8 v) -> - 2 ^ 63 <= v < 2 ^ 63 ->
  LoadNetworkInt64 buf off = Some v.
Proof.
  intros Hat Hv. unfold LoadNetworkInt64, LoadNetworkUInt64. change 8 with (Z.of_nat 8).
  rewrite (load_be _ _ _ _ Hat). simpl. f_equal. apply to_signed_id; lia.
Qed.
Lemma load_uint32 buf off v : at_off buf off (be_bytes 4 v) -> 0 <= v < 2 ^ 32 ->
  LoadNetworkUInt32 buf off = Some v.
Proof.
  intros Hat Hv. unfold LoadNetworkUInt32. change 4 with (Z.of_nat 4).
  rewrite (load_be _ _ _ _ Hat). f_equal. apply Z.mod_small. lia.
Qed.
Lemma load_uint64 buf off v : at_off buf off (be_bytes 8 v) -> 0 <= v < 2 ^ 64 ->
  LoadNetworkUInt64 buf off = Some v.
Proof.
  intros Hat Hv. unfold LoadNetworkUInt64. change 8 with (Z.of_nat 8).
  rewrite (load_be _ _ _ _ Hat). f_equal. apply Z.mod_small. lia.
Qed.

(** * Code on one column *)
Definition set_child `{Libpq} (col : Z) (a : ArrowArray) (s : TS) : TS :=
  mkTS (ts_pq s) (ts_reader s) (put_child col a (ts_out s)).

Lemma get_put_column col a a' (out : ArrowArray) :
  get_child out col = Some a -> get_child (put_child col a' out) col = Some a'.
Proof.
  unfold get_child, put_child. destruct out as [? ? ? ? ? ? [cs|] ? ? ? ?]; simpl; [|done].
  destruct (0 <=? col); [|done]. intros Hc. rewrite list_lookup_insert_eq; [done|].
  destruct (cs !! Z.to_nat col) eqn:Hl; [|done]. by eapply lookup_lt_Some.
Qed.
Lemma get_put_column_ne col col' a' (out : ArrowArray) : 0 <= col -> 0 <= col' -> col <> col' ->
  get_child (put_child col a' out) col' = get_child out col'.
Proof.
  unfold get_child, put_child. destruct out as [? ? ? ? ? ? [cs|] ? ? ? ?]; simpl; [|done].
  intros. rewrite (proj2 (Z.leb_le _ _)) by done. by rewrite list_lookup_insert_ne by lia.
Qed.

Section column.
  Context `{Libc} `{!LibcBound} `{Libpq}.

Definition no_memory {S} (c : Z) (_ : S) : Prop := c = ENOMEM /\ refused.

Lemma put_put_child col a b out : put_child col b (put_child col a out) = put_child col b out.
Proof.
  unfold put_child, set_array_children. destruct out as [? ? ? ? ? ? [cs|] ? ? ? ?]; simpl; [|done].
  by rewrite list_insert_insert_eq.
Qed.

Lemma wp_on_array_child {A} col (m : M ArrowArray A) (Q : A -> TS -> Prop) E (s : TS) a :
  get_child (ts_out s) col = Some a ->
  wp m (fun x a' => Q x (set_child col a' s)) (fun c a' => E c (set_child col a' s)) a ->
  wp (on_child_array col m) Q E s.
Proof.
  intros Hg Hm. unfold on_child_array. apply wp_zoom. unfold on_array_child. apply wp_bind, wp_gets.
  simpl. apply wp_bind. eapply wp_lift_opt; [exact Hg|].
  unfold wp, child_result in *. unfold id. destruct (m a); done.
Qed.

(** A column's validity bitmap and its buffers. *)
Lemma wp_validity v valid P (Q : unit -> ArrowArray -> Prop) a :
  column_is valid P a ->
  (forall a', column_is (valid ++ [v]) P a' -> Q tt a') ->
  wp (ArrowArrayValidityBitmap (ArrowBitmapAppend (Z.b2z v) 1)) Q no_memory a.
Proof.
  intros (Hi & p & Hp & Hok & Hbits & HP) HQ.
  unfold ArrowArrayValidityBitmap, on_private, private. wp_steps. unfold id. rewrite Hi, Hp.
  apply wp_ret.
  pose proof (bitmap_append_spec (pd_bitmap p) v 1 Hok ltac:(lia)) as Hspec.
  unfold wp, put_private, zoom in *. simpl.
  destruct (ArrowBitmapAppend _ _ _) as [[] m|c m| |]; [|destruct Hspec as (-> & _ & Hr)|done..].
  - destruct Hspec as [Hok' Hbits']. apply HQ. split; [done|]. eexists. split; [done|]. simpl.
    split_and!; [done| |done]. by rewrite Hbits', Hbits.
  - split; [done|]. by eexists.
Qed.
Lemma wp_buffer1 {A} valid P (P' : A -> _ -> Prop) (m : M ArrowBuffer A) (Q : A -> ArrowArray -> Prop) a :
  column_is valid P a ->
  (forall b1 b2, P (b1, b2) -> wp m (fun x b => P' x (b, b2)) no_memory b1) ->
  (forall x a', column_is valid (P' x) a' -> Q x a') ->
  wp (ArrowArrayBuffer 1 m) Q no_memory a.
Proof.
  intros (Hi & p & Hp & Hok & Hbits & HP) Hm HQ.
  unfold ArrowArrayBuffer, on_private, private. wp_steps. unfold id. rewrite Hi, Hp. apply wp_ret.
  destruct (pd_buffers p) as [b1 b2] eqn:Hb. specialize (Hm b1 b2 HP).
  unfold wp, put_private, zoom in *. simpl. rewrite Hb. simpl.
  destruct (m b1) as [x b|c b| |]; [|done..].
  apply HQ. split; [done|]. eexists. split; [done|]. by simpl.
Qed.
Lemma wp_buffer2 {A} valid P (P' : A -> _ -> Prop) (m : M ArrowBuffer A) (Q : A -> ArrowArray -> Prop) a :
  column_is valid P a ->
  (forall b1 b2, P (b1, b2) -> wp m (fun x b => P' x (b1, b)) no_memory b2) ->
  (forall x a', column_is valid (P' x) a' -> Q x a') ->
  wp (ArrowArrayBuffer 2 m) Q no_memory a.
Proof.
  intros (Hi & p & Hp & Hok & Hbits & HP) Hm HQ.
  unfold ArrowArrayBuffer, on_private, private. wp_steps. unfold id. rewrite Hi, Hp. apply wp_ret.
  destruct (pd_buffers p) as [b1 b2] eqn:Hb. specialize (Hm b1 b2 HP).
  unfold wp, put_private, zoom in *. simpl. rewrite Hb. simpl.
  destruct (m b2) as [x b|c b| |]; [|done..].
  apply HQ. split; [done|]. eexists. split; [done|]. by simpl.
Qed.

(** ** What is done to the buffers *)
Lemma append_word b n v ws : buffer_ok b -> buf_content b = flat_map (le_bytes n) ws ->
  Z.of_nat n <= 8 ->
  wp (ArrowBufferAppend (le_bytes n v))
    (fun _ b' => buffer_ok b' /\ buf_content b' = flat_map (le_bytes n) (ws ++ [v])) no_memory b.
Proof.
  intros Hok Hc Hn. eapply wp_conseq; [apply append_spec; [done|apply le_bytes_byte|]| |].
  - rewrite zlen_le_bytes. lia.
  - intros _ b' [Hok' Hc']. split; [done|]. by rewrite Hc', Hc, flat_map_snoc.
  - intros c b' (-> & _ & Hr). split; [done|]. by eexists.
Qed.
(** An append of a field's bytes from the message. *)
Lemma append_from_eq buf off bs b : at_off buf off bs ->
  append_from buf off (zlen bs) b = ArrowBufferAppend bs b.
Proof.
  intros Hat. unfold append_from, ArrowBufferAppend, ArrowBufferAppendUnsafe, mbind, M_bind.
  destruct (ArrowBufferReserve (zlen bs) b) as [[] b'|c b'| |]; [|done..].
  rewrite (at_off_read _ _ _ Hat). unfold gets; simpl. by destruct (zlen bs >? 0).
Qed.
(** With a negative size nothing happens. *)
Lemma append_from_negative buf off n b : buffer_ok b -> -(2 ^ 31) <= n < 0 ->
  append_from buf off n b = Ret tt b.
Proof.
  intros [_ Hs _ Hb _] Hn. unfold append_from, ArrowBufferReserve, mbind, M_bind, gets, id.
  rewrite i64_ok by (apply in_i64_intro; unfold INT64_MIN, INT64_MAX; lia).
  unfold mret, M_ret. rewrite (proj2 (Z.leb_le _ _)) by lia.
  rewrite Z.gtb_ltb, (proj2 (Z.ltb_ge _ _)) by lia. done.
Qed.
Lemma round_up_bits n : 0 <= n -> _ArrowRoundUpToMultipleOf8 (n + 1) ÷ 8 = (n + 8) / 8.
Proof.
  intros. unfold _ArrowRoundUpToMultipleOf8. replace (n + 1 + 7) with (n + 8) by lia.
  rewrite <- Z.ldiff_land. change 7 with (Z.ones 3). rewrite Z.ldiff_ones_r by lia.
  rewrite Z.shiftl_mul_pow2, Z.shiftr_div_pow2 by lia. change (2 ^ 3) with 8.
  rewrite Z.quot_div_nonneg by (try (apply Z.mul_nonneg_nonneg; [apply Z.div_pos|]; lia); lia).
  by rewrite Z.div_mul by lia.
Qed.

Lemma bit_of_content b j : 0 <= j < 8 * buf_size_bytes b ->
  bit_of (block_of (buf_data b)) j = bit_of (buf_content b) j.
Proof.
  intros Hj. unfold bit_of, buf_content.
  assert (0 <= j / 8 < buf_size_bytes b) by (Z.to_euclidean_division_equations; lia).
  by rewrite lookup_take_lt by lia.
Qed.
Lemma bit_of_app l r j : 0 <= j < 8 * zlen l -> bit_of (l ++ r) j = bit_of l j.
Proof.
  intros Hj. unfold bit_of, zlen in *.
  assert (0 <= j / 8 < Z.of_nat (length l)) by (Z.to_euclidean_division_equations; lia).
  by rewrite lookup_app_l by lia.
Qed.
(** The bytes for one more bit. *)
Lemma grow_bits n vs b : bitmap_ok (mkBitmap b n) -> bitmap_bits (mkBitmap b n) = vs -> n < 2 ^ 40 ->
  wp (when ((n + 8) / 8 >? buf_size_bytes b) (ArrowBufferAppendFill 0 ((n + 8) / 8 - buf_size_bytes b)))
    (fun _ b' => buffer_ok b' /\ buf_size_bytes b' = (n + 8) / 8 /\
       bitmap_bits (mkBitmap b' n) = vs) no_memory b.
Proof.
  intros [Hok Hn Hsz] Hbits Hmax. simpl in *. rewrite bytes_for_bits_ceil in Hsz by done.
  rewrite Z.gtb_ltb. unfold when. destruct (Z.ltb_spec (buf_size_bytes b) ((n + 8) / 8)) as [Hlt|Hge].
  2:{ apply wp_ret. split_and!; [done| |done]. Z.to_euclidean_division_equations; lia. }
  eapply wp_conseq; [apply append_fill_spec; [done|]| |].
  - Z.to_euclidean_division_equations; lia.
  - intros _ b' [Hok' Hc]. pose proof (zlen_buf_content _ Hok') as Hz.
    rewrite Hc, zlen_app, zlen_replicate, zlen_buf_content in Hz by done.
    split_and!; [done|lia|]. rewrite <- Hbits. unfold bitmap_bits. simpl.
    apply list_fmap_ext. intros i x [-> Hi]%lookup_seq. simpl.
    assert (0 <= Z.of_nat i < 8 * buf_size_bytes b)
      by (rewrite Hsz; Z.to_euclidean_division_equations; lia).
    rewrite (bit_of_content b') by lia. rewrite Hc, bit_of_app by (by rewrite zlen_buf_content).
    symmetry. by apply bit_of_content.
  - intros c b' (-> & _ & Hr). split; [done|]. by eexists.
Qed.
Lemma set_last_bit n vs v b :
  buffer_ok b -> buf_size_bytes b = (n + 8) / 8 -> 0 <= n < 2 ^ 40 ->
  bitmap_bits (mkBitmap b n) = vs ->
  wp (set_bits n 1 (Z.b2z v))
    (fun _ b' => bitmap_ok (mkBitmap b' (n + 1)) /\ bitmap_bits (mkBitmap b' (n + 1)) = vs ++ [v])
    no_memory b.
Proof.
  intros Hok Hsz Hn Hbits. pose proof Hok as [Ha Hs Hb Hc Hy]. unfold set_bits. wp_steps. unfold id.
  destruct (buf_data b) as [l|] eqn:Hd; simpl in Hb, Hy.
  2:{ unfold zlen in Hb; simpl in Hb. Z.to_euclidean_division_equations; lia. }
  apply wp_ret. wp_steps. destruct (bits_set_to_spec l n 1 v) as (l' & Hl' & Hz' & Hy' & Hset);
    [done|lia|lia|rewrite Hb; Z.to_euclidean_division_equations; lia|].
  eapply wp_lift_opt; [exact Hl'|]. apply wp_put. split.
  - constructor; simpl; [constructor; simpl; auto; by rewrite Hz'|lia|].
    rewrite bytes_for_bits_ceil by lia. by replace (n + 1 + 7) with (n + 8) by lia.
  - rewrite <- Hbits. unfold bitmap_bits. simpl. rewrite Hd. simpl.
    replace (Z.to_nat (n + 1)) with (Z.to_nat n + 1)%nat by lia.
    rewrite seq_app, fmap_app. f_equal.
    + apply list_fmap_ext. intros i x [-> Hi]%lookup_seq. rewrite Hset by lia.
      by rewrite (proj2 (Z.leb_gt _ _)) by lia.
    + simpl. f_equal. rewrite Hset by lia.
      rewrite (proj2 (Z.leb_le _ _)), (proj2 (Z.ltb_lt _ _)) by lia. done.
Qed.
Lemma append_bit_spec vs v b : bitmap_ok (mkBitmap b (zlen vs)) ->
  bitmap_bits (mkBitmap b (zlen vs)) = vs -> zlen vs < 2 ^ 40 ->
  wp (b ← gets id;
      when (_ArrowRoundUpToMultipleOf8 (zlen vs + 1) ÷ 8 >? buf_size_bytes b)
        (ArrowBufferAppendFill 0 (_ArrowRoundUpToMultipleOf8 (zlen vs + 1) ÷ 8 - buf_size_bytes b)) ;;
      set_bits (zlen vs) 1 (Z.b2z v))
    (fun _ b' => bitmap_ok (mkBitmap b' (zlen (vs ++ [v]))) /\
       bitmap_bits (mkBitmap b' (zlen (vs ++ [v]))) = vs ++ [v]) no_memory b.
Proof.
  intros Hok Hbits Hmax. pose proof (zlen_nonneg vs). rewrite zlen_app. change (zlen [v]) with 1.
  rewrite round_up_bits by done. apply wp_bind, wp_gets, wp_bind. unfold id.
  eapply wp_conseq; [by apply grow_bits| |done]. intros _ b' (Hok' & Hsz & Hbits').
  apply set_last_bit; [done..|lia|done].
Qed.

Lemma wp_read_offset offsets data b1 b2 k o (Q : Z -> ArrowBuffer -> Prop) :
  text_holds offsets data (b1, b2) -> offsets !! k = Some o -> - 2 ^ 31 <= o < 2 ^ 31 ->
  Q o b1 -> wp (read_elem 4 (Z.of_nat k)) Q no_memory b1.
Proof.
  intros (Hok & Hc & _) Hk Ho HQ. cbn [fst snd] in Hok, Hc. pose proof (lookup_lt_Some _ _ _ Hk) as Hlt.
  pose proof (zlen_buf_content _ Hok) as Hz. rewrite Hc in Hz. unfold zlen in Hz.
  rewrite flat_map_length in Hz.
  destruct (read_content b1 (4 * Z.of_nat k) 4) as (l & Hl & Hr); [done|lia..|].
  unfold read_elem. wp_steps. unfold id. rewrite Hl. apply wp_ret. wp_steps.
  eapply wp_lift_opt; [exact Hr|]. apply wp_ret. rewrite Hc.
  replace (Z.to_nat (4 * Z.of_nat k)) with (4 * k)%nat by lia. change (Z.to_nat 4) with 4%nat.
  rewrite (flat_map_lookup 4 _ _ _ Hk), le_sint_le_bytes by (simpl; lia). done.
Qed.
(** A text: the offset is the last one plus the length that was sent, -1 for NULL. *)
Lemma copy_text_spec type valid offsets data bs n k o buf off col (s : TS) a :
  type = TYPE_STRING \/ type = TYPE_BINARY ->
  get_child (ts_out s) col = Some a -> column_is valid (text_holds offsets data) a ->
  offsets !! k = Some o -> - 2 ^ 31 <= o < 2 ^ 31 -> - 2 ^ 31 <= o + n < 2 ^ 31 ->
  n = zlen bs /\ at_off buf off bs /\ Forall is_byte bs \/ n = -1 /\ bs = [] ->
  wp (append_value type buf off n (Z.of_nat k) col)
    (fun off' s' => off' = off + n /\ exists a', s' = set_child col a' s /\
       column_is valid (text_holds (offsets ++ [o + n]) (data ++ bs)) a') no_memory s.
Proof.
  intros Ht Hg Hcol Hk Ho Hon Hn.
  assert (append_value type buf off n (Z.of_nat k) col =
          append_value TYPE_STRING buf off n (Z.of_nat k) col) as -> by (by destruct Ht as [-> | ->]).
  unfold append_value. apply wp_bind. eapply wp_on_array_child; [exact Hg|].
  eapply (wp_buffer1 _ _ (fun x b => x = o /\ text_holds offsets data b)); [exact Hcol|..].
  { intros b1 b2 Hb. by eapply wp_read_offset. }
  intros x a1 (Hi1 & p1 & Hp1 & Hv1 & Hb1 & -> & Ht1).
  apply wp_bind. unfold i32, INT32_MIN, INT32_MAX.
  rewrite !(proj2 (Z.leb_le _ _)) by lia. apply wp_ret, wp_bind.
  eapply wp_on_array_child; [by eapply get_put_column|].
  eapply (wp_buffer1 valid (text_holds offsets data) (fun _ b => text_holds (offsets ++ [o + n]) data b)).
  { split; [done|]. by exists p1. }
  { intros b1 b2 (Hok & Hc & Hrest). eapply wp_conseq; [by eapply append_word| |done].
    intros _ b' [Hok' Hc']. exact (conj Hok' (conj Hc' Hrest)). }
  intros [] a2 Hcol2. apply wp_bind. eapply wp_on_array_child; [by eapply get_put_column, get_put_column|].
  eapply (wp_buffer2 valid _ (fun _ b => text_holds (offsets ++ [o + n]) (data ++ bs) b)); [exact Hcol2|..].
  - intros b1 b2 (Hok1 & Hc1 & Hok2 & Hc2). simpl in *. destruct Hn as [(-> & Hat & Hby)|[-> ->]].
    + unfold wp. rewrite (append_from_eq _ _ _ _ Hat).
      eapply wp_conseq; [apply append_spec; [done..|unfold zlen in *; lia]| |].
      * intros _ b' [Hok' Hc']. split_and!; [done..|]. simpl. by rewrite Hc', Hc2.
      * intros c b' (-> & _ & Hr). split; [done|]. by eexists.
    + unfold wp. rewrite append_from_negative by (done || lia). by rewrite app_nil_r.
  - intros [] a3 Hcol3. apply wp_ret. split; [done|]. exists a3. split; [|done].
    unfold set_child; simpl. by rewrite !put_put_child.
Qed.

(** A value of a column of texts, numbers or booleans. *)
Lemma append_word_spec type valid ds d (n col : Z) (s : TS) a :
  get_child (ts_out s) col = Some a ->
  column_is valid (fun bs => buffer_ok bs.1 /\
    buf_content bs.1 = flat_map (le_bytes (width type)) (map number ds)) a ->
  wp (on_child_array col (ArrowArrayBuffer 1 (ArrowBufferAppend (le_bytes (width type) (number d)))) ;;
      mret n)
    (fun off' s' => off' = n /\ exists a', s' = set_child col a' s /\
       column_is valid (fun bs => buffer_ok bs.1 /\
         buf_content bs.1 = flat_map (le_bytes (width type)) (map number (ds ++ [d]))) a') no_memory s.
Proof.
  intros Hg Hcol. apply wp_bind. eapply wp_on_array_child; [exact Hg|].
  eapply (wp_buffer1 _ _ (fun _ bs => buffer_ok bs.1 /\
    buf_content bs.1 = flat_map (le_bytes (width type)) (map number (ds ++ [d])))); [exact Hcol|..].
  - intros b1 b2 [Hok Hc]. eapply wp_conseq; [apply (append_word b1 _ (number d)); [done|exact Hc|]|..].
    + destruct type; simpl; lia.
    + intros [] b' Hb'. by rewrite map_app.
    + done.
  - intros [] a' Hcol'. apply wp_ret. split; [done|]. by exists a'.
Qed.

Definition readable (type : ArrowType) : Prop :=
  match type with
  | TYPE_BOOL | TYPE_INT32 | TYPE_INT64 | TYPE_FLOAT | TYPE_DOUBLE | TYPE_STRING | TYPE_BINARY => True
  | _ => False
  end.
Lemma append_text_value type bs ds valid buf off col (s : TS) a :
  type = TYPE_STRING \/ type = TYPE_BINARY -> Forall is_byte bs ->
  get_child (ts_out s) col = Some a -> column_is valid (values_hold type ds) a ->
  at_off buf off bs -> zlen (concat (map text (ds ++ [DText bs]))) <= INT32_MAX ->
  wp (append_value type buf off (zlen bs) (zlen ds) col)
    (fun off' s' => off' = off + zlen bs /\ exists a', s' = set_child col a' s /\
       column_is valid (values_hold type (ds ++ [DText bs])) a') no_memory s.
Proof.
  intros Ht Hby Hg Hcol Hat Htot.
  assert (forall ds, values_hold type ds =
    text_holds (offsets_from 0 (map text ds)) (concat (map text ds))) as Hv
    by (by destruct Ht as [-> | ->]).
  rewrite Hv in Hcol |- *.
  pose proof (offsets_last 0 (map text ds)) as Hlast. rewrite length_map, Z.add_0_l in Hlast.
  rewrite map_app in *. simpl map in *. rewrite offsets_snoc, Z.add_0_l.
  rewrite concat_app, zlen_app in *. simpl concat in *. rewrite app_nil_r in *.
  unfold INT32_MAX in Htot.
  pose proof (zlen_nonneg bs). pose proof (zlen_nonneg (concat (map text ds))).
  eapply (copy_text_spec _ _ _ _ bs); [done..| | |]; [lia|lia|by left].
Qed.
Lemma append_value_spec type d ds valid buf off col (s : TS) a :
  readable type -> datum_ok type d ->
  get_child (ts_out s) col = Some a -> column_is valid (values_hold type ds) a ->
  at_off buf off (payload type d) -> zlen ds < 2 ^ 40 ->
  zlen (concat (map text (ds ++ [d]))) <= INT32_MAX ->
  wp (append_value type buf off (zlen (payload type d)) (zlen ds) col)
    (fun off' s' => off' = off + zlen (payload type d) /\ exists a', s' = set_child col a' s /\
       column_is valid (values_hold type (ds ++ [d])) a') no_memory s.
Proof.
  intros Hr Hd Hg Hcol Hat Hn Htot.
  destruct type; try done; destruct d as [v|z|bs]; try done; cbn [payload] in *.
  - (* BOOL *) unfold append_value. apply wp_bind. eapply wp_lift_opt; [by apply at_off_byte|].
    assert (negb (Z.b2z v =? 0) && negb (Z.b2z v =? 1) = false) as -> by (by destruct v).
    cbv zeta. apply wp_bind. eapply wp_on_array_child; [exact Hg|].
    assert (forall l : list datum, zlen l = zlen (map truth l)) as Hlen
      by (intros l; unfold zlen; by rewrite length_map).
    eapply (wp_buffer1 _ _ (fun _ => values_hold TYPE_BOOL (ds ++ [DBool v]))); [exact Hcol|..].
    + intros b1 b2 [Hok Hbits]. cbn [fst] in Hok, Hbits. rewrite Hlen in *.
      eapply wp_conseq; [apply (append_bit_spec _ v); done| |done].
      intros [] b' Hb'. cbn [values_hold fst]. rewrite (Hlen (ds ++ _)), map_app. exact Hb'.
    + intros [] a' Hcol'. apply wp_ret. split; [done|]. by exists a'.
  - (* INT32 *) unfold append_value. apply wp_bind.
    eapply wp_lift_opt; [apply (load_int32 _ _ z); [exact Hat|exact Hd]|].
    rewrite zlen_be_bytes. eapply (append_word_spec TYPE_INT32 valid ds (DNum z)); [exact Hg|exact Hcol].
  - (* INT64 *) unfold append_value. rewrite zlen_be_bytes. simpl width. apply wp_bind.
    change (Z.of_nat 8 <? 0) with false. cbn iota.
    eapply wp_lift_opt; [apply (load_int64 _ _ z); [exact Hat|exact Hd]|].
    eapply (append_word_spec TYPE_INT64 valid ds (DNum z)); [exact Hg|exact Hcol].
  - (* FLOAT *) unfold append_value. apply wp_bind.
    eapply wp_lift_opt; [apply (load_uint32 _ _ z); [exact Hat|exact Hd]|].
    rewrite zlen_be_bytes. eapply (append_word_spec TYPE_FLOAT valid ds (DNum z)); [exact Hg|exact Hcol].
  - (* DOUBLE *) unfold append_value. apply wp_bind.
    eapply wp_lift_opt; [apply (load_uint64 _ _ z); [exact Hat|exact Hd]|].
    rewrite zlen_be_bytes. eapply (append_word_spec TYPE_DOUBLE valid ds (DNum z)); [exact Hg|exact Hcol].
  - eapply append_text_value; [by left|apply Hd|done..].
  - eapply append_text_value; [by right|apply Hd|done..].
Qed.

(** ** A field and a row *)
Lemma payload_length type d : readable type -> datum_ok type d ->
  0 <= zlen (payload type d) < 2 ^ 31.
Proof.
  intros Hr Hd. destruct type; try done; destruct d as [b|z|bs]; try done; simpl payload;
    rewrite ?zlen_be_bytes; simpl width; unfold zlen; simpl; try lia.
  all: destruct Hd as [_ Hd]; unfold INT32_MAX, zlen in Hd; lia.
Qed.
Lemma zlen_encode_field type d :
  zlen (encode_field type (Some d)) = 4 + zlen (payload type d).
Proof. unfold encode_field. by rewrite zlen_app, zlen_be_bytes. Qed.

Lemma append_field_spec fields type d ds valid buf off k (s : TS) a :
  readable type -> datum_ok type d ->
  sv_type <$> fields !! k = Some type ->
  get_child (ts_out s) (Z.of_nat k) = Some a -> column_is valid (values_hold type ds) a ->
  at_off buf off (encode_field type (Some d)) -> zlen ds < 2 ^ 40 ->
  zlen (concat (map text (ds ++ [d]))) <= INT32_MAX ->
  wp (append_field fields buf (zlen ds) (Z.of_nat k) off)
    (fun off' s' => off' = off + zlen (encode_field type (Some d)) /\
       exists a', s' = set_child (Z.of_nat k) a' s /\
       column_is (valid ++ [true]) (values_hold type (ds ++ [d])) a') no_memory s.
Proof.
  intros Hr Hd Hf Hg Hcol Hat Hn Htot. pose proof (payload_length _ _ Hr Hd) as Hlen.
  apply at_off_app in Hat as [Hat1 Hat2]. rewrite zlen_be_bytes in Hat2.
  unfold append_field. apply wp_bind.
  eapply wp_lift_opt; [apply (load_int32 _ _ _ Hat1); lia|]. apply wp_bind.
  eapply wp_on_array_child; [exact Hg|]. rewrite (proj2 (Z.leb_le 0 _)) by lia.
  eapply (wp_validity true); [exact Hcol|]. intros a1 Hcol1. apply wp_bind.
  rewrite Nat2Z.id. destruct (fields !! k) as [field|] eqn:Hk; [|done]. simpl in Hf.
  injection Hf as <-. eapply wp_lift_opt; [done|].
  eapply wp_conseq; [eapply append_value_spec; [done..|by eapply get_put_column|exact Hcol1|exact Hat2|done|done]| |done].
  intros off' s' (-> & a' & -> & Hcol'). rewrite zlen_encode_field. split; [lia|].
  exists a'. split; [|done]. unfold set_child; simpl. by rewrite put_put_child.
Qed.

(** Column [k] of rows. *)
Definition column (k : nat) (rows : list (list datum)) : list datum :=
  map (fun r => default (DBool false) (r !! k)) rows.
Lemma column_snoc k rows row d : row !! k = Some d -> column k (rows ++ [row]) = column k rows ++ [d].
Proof. intros Hk. unfold column. rewrite map_app. simpl. by rewrite Hk. Qed.
Lemma zlen_column k rows : zlen (column k rows) = zlen rows.
Proof. unfold zlen, column. by rewrite length_map. Qed.
Lemma zlen_column_texts k rows row :
  zlen (concat (map text (column k rows))) <= zlen (concat (map text (column k (rows ++ [row])))).
Proof.
  unfold column. rewrite !map_app, concat_app, zlen_app.
  match goal with |- _ <= _ + zlen ?l => pose proof (zlen_nonneg l) end. lia.
Qed.

(** The children hold the rows; columns before [k] one row more. *)
Definition table_is (types : list ArrowType) (rows rows' : list (list datum)) (k : nat)
    (out : ArrowArray) : Prop :=
  forall j t, types !! j = Some t -> exists a, get_child out (Z.of_nat j) = Some a /\
    column_holds t (column j (if decide (j < k)%nat then rows' else rows)) a.
Definition table_holds (types : list ArrowType) (rows : list (list datum)) (out : ArrowArray) : Prop :=
  forall j t, types !! j = Some t -> exists a, get_child out (Z.of_nat j) = Some a /\
    column_holds t (column j rows) a.
Definition texts_fit (types : list ArrowType) (rows : list (list datum)) : Prop :=
  zlen rows < 2 ^ 40 /\
  forall j, (j < length types)%nat -> zlen (concat (map text (column j rows))) <= INT32_MAX.

Lemma append_fields_spec fields types row rows buf n k off (s : TS) :
  types `prefix_of` map sv_type fields -> Forall readable types -> Forall2 datum_ok types row ->
  length types = (k + n)%nat -> texts_fit types (rows ++ [row]) ->
  table_is types rows (rows ++ [row]) k (ts_out s) ->
  at_off buf off (encode_fields (drop k types) (map Some (drop k row))) ->
  wp (append_fields fields buf (zlen rows) n (Z.of_nat k) off)
    (fun off' s' => off' = off + zlen (encode_fields (drop k types) (map Some (drop k row))) /\
       (forall j, (k + n <= j)%nat -> get_child (ts_out s') (Z.of_nat j) = get_child (ts_out s) (Z.of_nat j)) /\
       ts_pq s' = ts_pq s /\ ts_reader s' = ts_reader s /\
       table_is types rows (rows ++ [row]) (k + n) (ts_out s')) no_memory s.
Proof.
  intros Hf Hr Hd Hlen [Hmax Htot]. revert k off s Hlen.
  induction n as [|n IH]; intros k off s Hlen Htab Hat; cbn [append_fields].
  { apply wp_ret. rewrite drop_ge by lia. rewrite Nat.add_0_r. by rewrite Z.add_0_r. }
  destruct (lookup_lt_is_Some_2 types k) as [t Ht]; [lia|].
  destruct (Forall2_lookup_l _ _ _ _ _ Hd Ht) as (d & Hk & Hok).
  rewrite (drop_S _ _ _ Ht), (drop_S _ _ _ Hk) in Hat. cbn [map encode_fields] in Hat.
  apply at_off_app in Hat as [Hat1 Hat2].
  destruct (Htab k t Ht) as (a & Hg & Hcol). rewrite decide_False in Hcol by lia.
  apply wp_bind. rewrite <- (zlen_column k rows).
  eapply wp_conseq; [eapply (append_field_spec _ t d)| |done].
  - by eapply (Forall_lookup_1 readable).
  - done.
  - destruct Hf as [later Hf]. rewrite <- list_lookup_fmap. unfold fmap.
    change (list_fmap _ _ sv_type fields) with (map sv_type fields). rewrite Hf. by apply lookup_app_l_Some.
  - exact Hg.
  - exact Hcol.
  - exact Hat1.
  - rewrite zlen_column. rewrite zlen_app in Hmax. change (zlen [row]) with 1 in Hmax. lia.
  - rewrite <- (column_snoc _ _ row) by done. apply Htot. lia.
  - intros off' s' (-> & a' & -> & Hcol'). rewrite zlen_column.
    replace (Z.of_nat k + 1) with (Z.of_nat (S k)) by lia.
    eapply wp_conseq; [apply (IH (S k) _ _ ltac:(lia))| |done].
    + intros j t' Hj. simpl. destruct (decide (j = k)) as [->|Hne].
      * exists a'. split; [by eapply get_put_column|]. rewrite decide_True by lia.
        rewrite (column_snoc _ _ _ _ Hk). unfold column_holds.
        rewrite length_app, replicate_add. simplify_eq. exact Hcol'.
      * destruct (Htab j t' Hj) as (b & Hgb & Hb). exists b.
        rewrite get_put_column_ne by lia. split; [done|].
        destruct (decide (j < k)%nat); [rewrite decide_True by lia|rewrite decide_False by lia]; done.
    + exact Hat2.
    + intros off' s' (-> & Hout & Hp & Hrd & Htab'). rewrite (drop_S _ _ _ Ht), (drop_S _ _ _ Hk).
      cbn [map encode_fields]. rewrite zlen_app. split_and!; [lia| |done..|].
      * intros j Hj. rewrite Hout by lia. simpl. by apply get_put_column_ne; lia.
      * by replace (k + S n)%nat with (S k + n)%nat by lia.
Qed.

(** The reader's schema has these types. *)
Definition reads (types : list ArrowType) (fields : list ArrowSchemaView) (r : TupleReader) : Prop :=
  sc_n_children (tr_schema r) = zlen types /\ map sv_type fields = types /\
  Forall readable types /\ zlen types < 2 ^ 15.

Lemma append_next_row types fields rows row buf off (s : TS) :
  reads types fields (ts_reader s) -> Forall2 datum_ok types row ->
  texts_fit types (rows ++ [row]) -> table_holds types rows (ts_out s) ->
  at_off buf off (encode_row types (map Some row)) ->
  wp (TupleReader_AppendNext fields buf off (zlen rows))
    (fun n s' => n = zlen (rows ++ [row]) /\ ts_pq s' = ts_pq s /\ ts_reader s' = ts_reader s /\
       table_holds types (rows ++ [row]) (ts_out s')) no_memory s.
Proof.
  intros (Hn & Hf & Hr & Hmax) Hd Hfit Htab Hat. pose proof (zlen_nonneg types).
  apply at_off_app in Hat as [Hat1 Hat2]. rewrite zlen_be_bytes in Hat2.
  unfold TupleReader_AppendNext. apply wp_bind, wp_gets, wp_bind.
  eapply wp_lift_opt; [apply (load_int16 _ _ _ Hat1); lia|].
  rewrite (proj2 (Z.eqb_neq _ (-1))), Hn, Z.eqb_refl by lia. cbn [negb]. apply wp_bind.
  change 0 with (Z.of_nat 0) at 1.
  eapply wp_conseq; [eapply (append_fields_spec _ types row rows _ _ 0)| |done].
  - by rewrite Hf.
  - done.
  - done.
  - unfold zlen. lia.
  - done.
  - intros j t Hj. rewrite decide_False by lia. by apply Htab.
  - exact Hat2.
  - intros off' s' (_ & _ & Hp & Hrd & Htab'). destruct Hfit as [Hrows _].
    rewrite zlen_app in *. change (zlen [row]) with 1 in *. pose proof (zlen_nonneg rows).
    apply wp_bind, wp_i64; [unfold INT64_MIN, INT64_MAX; lia|]. apply wp_ret.
    split_and!; [done..|]. intros j t Hj. destruct (Htab' j t Hj) as (a & Hg & Hcol).
    exists a. split; [done|]. rewrite decide_True in Hcol; [done|].
    apply lookup_lt_Some in Hj. unfold zlen. lia.
Qed.
Lemma append_next_end fields buf off n (s : TS) :
  at_off buf off end_of_rows -> TupleReader_AppendNext fields buf off n s = Ret n s.
Proof.
  intros Hat. unfold TupleReader_AppendNext, mbind, M_bind, gets.
  rewrite (load_int16 _ _ _ Hat) by lia. done.
Qed.

(** ** The messages of a COPY *)

(** The library hands out these messages, then reports the end. *)
Fixpoint sends (conn : Z) (messages : list (list Z)) (d d' : pq) : Prop :=
  match messages with
  | [] => exists size buffer, PQgetCopyData conn d = (size, buffer, d') /\ size < 0
  | m :: r => exists d1, PQgetCopyData conn d = (zlen m, Some (m ++ [0]), d1) /\ sends conn r d1 d'
  end.
Definition messages_of (types : list ArrowType) (rows : list (list datum)) : list (list Z) :=
  map (fun row => encode_row types (map Some row)) rows ++ [end_of_rows].

Lemma get_copy_data_run size buffer d' (s : TS) :
  PQgetCopyData (tr_conn (ts_reader s)) (ts_pq s) = (size, buffer, d') ->
  get_copy_data s = Ret size (mkTS d' (tr_set_pgbuf buffer (ts_reader s)) (ts_out s)).
Proof.
  intros Hg. unfold get_copy_data, mbind, M_bind, gets, pq_call. simpl. unfold pq_of. simpl.
  rewrite Hg. done.
Qed.

(** After all rows: no message is held and only the library has changed. *)
Definition rows_read (types : list ArrowType) (rows : list (list datum)) (d' : pq) (s s' : TS) : Prop :=
  ts_pq s' = d' /\ ts_reader s' = tr_set_pgbuf None (ts_reader s) /\ table_holds types rows (ts_out s').

Lemma append_rows_spec types fields left rows fuel buf off m later d' (s : TS) :
  messages_of types left = m :: later -> at_off buf off m ->
  tr_pgbuf (ts_reader s) = Some buf -> sends (tr_conn (ts_reader s)) later (ts_pq s) d' ->
  reads types fields (ts_reader s) -> Forall (Forall2 datum_ok types) left ->
  texts_fit types (rows ++ left) -> table_holds types rows (ts_out s) -> (length left < fuel)%nat ->
  wp (append_rows fuel fields off (zlen rows))
    (fun '(code, n) s' =>
       code = 0 /\ n = zlen (rows ++ left) /\ rows_read types (rows ++ left) d' s s' \/
       code = ENOMEM /\ refused) (fun _ _ => False) s.
Proof.
  revert rows fuel buf off m later s.
  induction left as [|row left IH]; intros rows fuel buf off m later s Hm Hat Hbuf Hsend Hreads Hok
    Hfit Htab Hfuel; (destruct fuel as [|fuel]; [lia|]); cbn [append_rows]; apply wp_bind;
    unfold wp, try_append; rewrite Hbuf; cbn [messages_of map app] in Hm.
  { injection Hm as <- <-. rewrite (append_next_end _ _ _ _ _ Hat). rewrite app_nil_r.
    apply wp_bind, wp_modify. simpl negb. cbn iota. apply wp_bind.
    destruct Hsend as (size & buffer & Hg & Hneg).
    unfold wp. erewrite get_copy_data_run by exact Hg. rewrite (proj2 (Z.ltb_lt _ _)) by done.
    apply wp_bind, wp_modify, wp_ret. left. split_and!; [done..|]. by split_and!. }
  injection Hm as <- Hlater. inversion Hok as [|? ? Hrow Hrest]; subst.
  assert (texts_fit types (rows ++ [row])) as Hfit1.
  { destruct Hfit as [Hmax Hfit]. rewrite zlen_app in Hmax. split.
    - rewrite zlen_app. unfold zlen in *. simpl in *. lia.
    - intros j Hj. specialize (Hfit j Hj). revert Hfit. clear.
      replace (rows ++ row :: left) with ((rows ++ [row]) ++ left) by by rewrite <- app_assoc.
      generalize (rows ++ [row]) as l. induction left as [|r left IH] using rev_ind; intros l.
      + by rewrite app_nil_r.
      + rewrite app_assoc. pose proof (zlen_column_texts j (l ++ left) r). intros. apply IH. lia. }
  pose proof (append_next_row types fields rows row buf off s Hreads Hrow Hfit1 Htab Hat) as Hnext.
  unfold wp in Hnext. destruct (TupleReader_AppendNext _ _ _ _ s) as [n s1|c s1| |]; [|
    destruct Hnext as [-> Hr]; apply wp_bind, wp_modify; apply wp_ret; by right|done..].
  destruct Hnext as (-> & Hp1 & Hr1 & Htab1). apply wp_bind, wp_modify. simpl negb. cbn iota.
  destruct (messages_of types left) as [|m1 later1] eqn:Hm1; [by destruct left|].
  unfold messages_of in Hm1. rewrite Hm1 in Hsend. destruct Hsend as (d1 & Hg & Hsend).
  apply wp_bind. unfold wp. erewrite get_copy_data_run by (simpl; rewrite Hr1, Hp1; exact Hg).
  pose proof (zlen_nonneg m1). rewrite (proj2 (Z.ltb_ge _ _)) by done. simpl.
  replace (rows ++ row :: left) with ((rows ++ [row]) ++ left) in * by by rewrite <- app_assoc.
  eapply wp_conseq; [eapply (IH _ fuel (m1 ++ [0]) 0)| |done]; try done.
  - by exists [], [0].
  - simpl. rewrite Hr1. done.
  - simpl. by rewrite Hr1.
  - simpl in Hfuel. lia.
  - intros [code n] s' [(-> & -> & Hp & Hrd & Htab')|Hr]; [left|by right].
    split_and!; [done..|]. split_and!; [done| |done]. rewrite Hrd. simpl. by rewrite Hr1.
Qed.

Definition with_header (messages : list (list Z)) : list (list Z) :=
  match messages with m :: r => (copy_header ++ m) :: r | [] => [] end.

Lemma read_header_run m d1 (s : TS) :
  PQgetCopyData (tr_conn (ts_reader s)) (ts_pq s) =
    (zlen (copy_header ++ m), Some ((copy_header ++ m) ++ [0]), d1) ->
  zlen (copy_header ++ m) <= INT32_MAX ->
  read_header s =
    Ret 19 (mkTS d1 (tr_set_pgbuf (Some ((copy_header ++ m) ++ [0])) (ts_reader s)) (ts_out s)).
Proof.
  intros Hg Hmax. unfold read_header. erewrite bind_ret by (by apply get_copy_data_run).
  unfold to_unsigned. rewrite Z.mod_small.
  2:{ pose proof (zlen_nonneg (copy_header ++ m)). unfold INT32_MAX in Hmax. lia. }
  rewrite (proj2 (Z.ltb_ge _ _)).
  2:{ rewrite zlen_app. pose proof (zlen_nonneg m). change (zlen copy_header) with 19.
      unfold kPqHeaderLength. lia. }
  assert (LoadNetworkUInt32 ((copy_header ++ m) ++ [0]) 11 = Some 0) as H11.
  { apply (load_uint32 _ _ 0); [|lia].
    by exists kPgCopyBinarySignature, (be_bytes 4 0 ++ m ++ [0]). }
  assert (LoadNetworkUInt32 ((copy_header ++ m) ++ [0]) 15 = Some 0) as H15.
  { apply (load_uint32 _ _ 0); [|lia].
    exists (kPgCopyBinarySignature ++ be_bytes 4 0), (m ++ [0]). by split. }
  unfold mbind, M_bind, gets. cbn [ts_reader tr_pgbuf tr_set_pgbuf lift_opt mret M_ret].
  unfold lift_opt, mret, M_ret. rewrite H11, H15. reflexivity.
Qed.
End column.

Section properties.
  Context `{Libc} `{!LibcBound} `{Libpq}.

(** C9: The reader decodes the binary COPY format.  When the server sends the header and any
    number of rows without NULLs, each value of a type the reader supports (SMALLINT apart),
    the loop ends after exactly these rows with code 0, every column holds exactly their
    values in order (booleans as bits, numbers in host order, texts by their offsets) with
    all validity bits set, and no message is held back; the only other outcome is [ENOMEM]
    after a refused allocation.  Nothing is read or written out of bounds. *)
Theorem copy_rows_decoded (types : list ArrowType) (fields : list ArrowSchemaView)
  (rows : list (list datum)) (fuel : nat) (d' : pq) (s : TS)
  (Hschema : reads types fields (ts_reader s)) (Hempty : table_holds types [] (ts_out s))
  (Hrows : Forall (Forall2 datum_ok types) rows) (Hfit : texts_fit types rows)
  (Hsend : sends (tr_conn (ts_reader s)) (with_header (messages_of types rows)) (ts_pq s) d')
  (Hint : Forall (fun m => zlen m <= INT32_MAX) (with_header (messages_of types rows)))
  (Hfuel : (length rows < fuel)%nat) :
  wp (read_rows fuel fields)
    (fun '(code, n) s' =>
       code = 0 /\ n = zlen rows /\ ts_pq s' = d' /\
       ts_reader s' = tr_set_error "" (tr_set_pgbuf None (ts_reader s)) /\
       table_holds types rows (ts_out s') \/
       code = ENOMEM /\ refused) (fun _ _ => False) s.
Proof.
  destruct (messages_of types rows) as [|m later] eqn:Hm; [by destruct rows|].
  cbn [with_header sends] in Hsend, Hint. destruct Hsend as (d1 & Hg & Hsend).
  inversion Hint; subst. unfold read_rows.
  apply wp_bind. unfold wp. erewrite read_header_run by done.
  apply wp_bind, wp_modify.
  eapply wp_conseq; [eapply (append_rows_spec types fields rows [] fuel ((copy_header ++ m) ++ [0])
                               19 m later d'); [exact Hm| |done..]| |done].
  - exists copy_header, [0]. by rewrite <- app_assoc.
  - intros [code n] s' [(-> & -> & -> & Hr & Htab)|Hr]; [left|by right]. by split_and!.
Qed.

(** One row of a single text column, NULL or not. *)
Lemma append_text_row fields valid offsets data o n k (d : option (list Z)) buf (s : TS) a :
  reads [TYPE_STRING] fields (ts_reader s) -> get_child (ts_out s) 0 = Some a ->
  column_is valid (text_holds offsets data) a -> offsets !! k = Some o ->
  n = match d with Some c => zlen c | None => -1 end -> Forall is_byte (default [] d) ->
  0 <= o <= INT32_MAX -> o + n <= INT32_MAX -> Z.of_nat k < 2 ^ 41 ->
  at_off buf 0 (encode_row [TYPE_STRING] [DText <$> d]) ->
  wp (TupleReader_AppendNext fields buf 0 (Z.of_nat k))
    (fun r s' => r = Z.of_nat (S k) /\ ts_reader s' = ts_reader s /\
       exists a', get_child (ts_out s') 0 = Some a' /\
       column_is (valid ++ [bool_decide (is_Some d)])
         (text_holds (offsets ++ [o + n]) (data ++ default [] d)) a') no_memory s.
Proof.
  intros (Hn & Hf & _) Hg Hcol Hk Hlen Hby Ho Hmax Hrows Hat. unfold INT32_MAX in Ho, Hmax.
  assert (-1 <= n < 2 ^ 31) as Hrange.
  { destruct d as [c|]; [|lia]. pose proof (zlen_nonneg c). lia. }
  destruct fields as [|field [|? ?]]; try done. injection Hf as Hf.
  apply at_off_app in Hat as [Hat1 Hat2]. rewrite zlen_be_bytes in Hat2.
  cbn [encode_fields] in Hat2. rewrite app_nil_r in Hat2.
  assert (at_off buf 2 (be_bytes 4 n) /\
    (n = zlen (default [] d) /\ at_off buf 6 (default [] d) /\ Forall is_byte (default [] d) \/
     n = -1 /\ default [] d = [])) as [Hat3 Hat4].
  { destruct d as [c|]; subst n; [|split; [exact Hat2|by right]].
    change (at_off buf (0 + Z.of_nat 2) (be_bytes 4 (zlen c) ++ c)) in Hat2. apply at_off_app in Hat2 as [? Hc]. rewrite zlen_be_bytes in Hc. split; [done|by left]. }
  unfold TupleReader_AppendNext. apply wp_bind, wp_gets, wp_bind.
  eapply wp_lift_opt; [by apply (load_int16 _ _ _ Hat1)|]. rewrite Hn. simpl. apply wp_bind, wp_bind.
  unfold append_field. apply wp_bind. eapply wp_lift_opt; [apply (load_int32 _ _ _ Hat3); lia|].
  apply wp_bind. eapply wp_on_array_child; [exact Hg|].
  eapply (wp_validity (0 <=? n)); [exact Hcol|]. intros a1 Hcol1. apply wp_bind, wp_ret. rewrite Hf.
  eapply wp_conseq; [eapply (copy_text_spec TYPE_STRING);
    [by left|by eapply get_put_column|exact Hcol1|exact Hk|lia|lia|exact Hat4]| |done].
  intros off' s' (-> & a' & -> & Hcol'). apply wp_ret, wp_bind, wp_i64; [unfold INT64_MIN, INT64_MAX; lia|].
  apply wp_ret. split_and!; [lia|done|]. exists a'. split.
  { simpl. by eapply get_put_column, get_put_column. }
  replace (bool_decide (is_Some d)) with (0 <=? n); [done|]. subst n.
  destruct d as [c|]; [|done]. by rewrite (proj2 (Z.leb_le _ _) (zlen_nonneg c)).
Qed.

(** A NULL text moves the texts after it.  Its length -1 is added to the last offset, so
    after the texts [ts ++ [t ++ [b]]], a NULL and a text [c], the offsets say that the last
    text begins with [b] and lacks its own last byte. *)
Theorem null_text_shifts (fields : list ArrowSchemaView) (ts : list (list Z)) (t c : list Z)
  (b : Z) (buf1 buf2 : list Z) (s : TS) (texts : list (list Z)) (n : Z)
  (Htexts : texts = ts ++ [t ++ [b]]) (Hn : n = zlen (concat texts))
  (Hschema : reads [TYPE_STRING] fields (ts_reader s))
  (Hcolumn : table_holds [TYPE_STRING] (map (fun t => [DText t]) texts) (ts_out s))
  (Hbytes : Forall is_byte c) (Hfit : n + zlen c <= INT32_MAX) (Hrows : zlen texts < 2 ^ 40)
  (Hbuf1 : at_off buf1 0 (encode_row [TYPE_STRING] [None]))
  (Hbuf2 : at_off buf2 0 (encode_row [TYPE_STRING] [Some (DText c)])) :
  wp (rows ← TupleReader_AppendNext fields buf1 0 (zlen texts);
      TupleReader_AppendNext fields buf2 0 rows)
    (fun rows s' => rows = zlen texts + 2 /\ exists a, get_child (ts_out s') 0 = Some a /\
       column_is (replicate (length texts) true ++ [false; true])
         (fun bs =>
            text_holds (offsets_from 0 texts ++ [n - 1; n - 1 + zlen c]) (concat texts ++ c) bs /\
            take (length c) (drop (Z.to_nat (n - 1)) (buf_content bs.2)) = take (length c) (b :: c)) a)
    no_memory s.
Proof.
  destruct (Hcolumn 0%nat TYPE_STRING eq_refl) as (a & Hg & Hcol).
  assert (map text (column 0 (map (fun t => [DText t]) texts)) = texts) as Hcols.
  { unfold column. rewrite !map_map. simpl. apply map_id. }
  unfold column_holds, values_hold in Hcol. rewrite Hcols in Hcol.
  unfold column in Hcol. rewrite !length_map in Hcol.
  pose proof (offsets_last 0 texts) as Hlast. rewrite Z.add_0_l, <- Hn in Hlast.
  assert (0 < n) as Hpos.
  { subst. rewrite concat_app, zlen_app. simpl. rewrite app_nil_r, zlen_app.
    pose proof (zlen_nonneg (concat ts)). pose proof (zlen_nonneg t). change (zlen [b]) with 1. lia. }
  unfold INT32_MAX in Hfit. pose proof (zlen_nonneg c).
  apply wp_bind. unfold zlen in Hrows |- * at 1.
  eapply wp_conseq; [eapply (append_text_row fields _ _ _ n (-1) _ None); [done..| | | | |]| |done].
  - constructor.
  - unfold INT32_MAX. lia.
  - unfold INT32_MAX. lia.
  - lia.
  - exact Hbuf1.
  - intros rows s1 (-> & Hr1 & a1 & Hg1 & Hcol1). cbn [default] in Hcol1. rewrite app_nil_r in Hcol1.
    eapply wp_conseq; [eapply (append_text_row fields _ _ _ (n - 1) (zlen c) _ (Some c));
                        [by rewrite Hr1|exact Hg1|exact Hcol1| |done..| | | |]| |done].
    + rewrite lookup_app_r by (rewrite offsets_length; lia). rewrite offsets_length.
      replace (S (length texts) - S (length texts))%nat with 0%nat by lia. done.
    + unfold INT32_MAX. lia.
    + unfold INT32_MAX. lia.
    + lia.
    + exact Hbuf2.
    + intros rows s2 (-> & _ & a2 & Hg2 & Hcol2). split; [unfold zlen; lia|]. exists a2.
      split; [done|]. destruct Hcol2 as (Hi & p & Hp & Hv1 & Hv2 & Ht). split; [done|]. exists p.
      rewrite <- app_assoc in Hv2, Ht. refine (conj Hp (conj Hv1 (conj Hv2 (conj Ht _)))). destruct Ht as (_ & _ & _ & ->). subst texts.
      rewrite concat_app in *. simpl in *. rewrite app_nil_r in *. rewrite !app_assoc in *.
      rewrite <- app_assoc. rewrite zlen_app in Hn. change (zlen [b]) with 1 in Hn.
      rewrite drop_app_length' by (unfold zlen in Hn; lia). done.
Qed.

(** ** Rows that the reader loses its way in

    Whatever the run returns satisfies [Q]; it may instead have done something undefined, or have
    been refused memory.  It does not end with any other code. *)
Definition strays {S A} (m : M S A) (Q : A -> S -> Prop) (s : S) : Prop :=
  match m s with
  | Ret a s' => Q a s'
  | Exit c s' => no_memory c s'
  | Undef => True
  | NoFuel => False
  end.
(** It never returns: it does something undefined, unless memory is refused before. *)
Definition overruns {S A} (m : M S A) (s : S) : Prop := strays m (fun _ _ => False) s.

Lemma strays_bind {S A B} (m : M S A) (k : A -> M S B) R Q s :
  strays m R s -> (forall a s', R a s' -> strays (k a) Q s') -> strays (m ≫= k) Q s.
Proof. unfold strays, mbind, M_bind. intros Hm Hk. destruct (m s); [by apply Hk|done..]. Qed.
Lemma strays_wp {S A} (m : M S A) Q s : wp m Q no_memory s -> strays m Q s.
Proof. unfold strays, wp. by destruct (m s). Qed.
Lemma strays_conseq {S A} (m : M S A) (Q Q' : A -> S -> Prop) s :
  strays m Q s -> (forall a s', Q a s' -> Q' a s') -> strays m Q' s.
Proof. unfold strays. intros Hm HQ. destruct (m s); auto. Qed.
(** A load past the end is undefined. *)
Lemma strays_load {S A B} (o : option A) (k : A -> M S B) Q s :
  (forall x, o = Some x -> strays (k x) Q s) -> strays (x ← lift_opt o; k x) Q s.
Proof. intros Hk. destruct o as [x|]; [by apply Hk|done]. Qed.

Lemma read_at_past buf off n : zlen buf < off + n -> read_at buf off n = None.
Proof. intros Hlt. unfold read_at. by rewrite (proj2 (Z.leb_gt (off + n) _)), andb_false_r by lia. Qed.
Lemma byte_at_past buf off : zlen buf <= off -> byte_at buf off = None.
Proof.
  intros Hle. pose proof (zlen_nonneg buf). unfold byte_at. rewrite (proj2 (Z.leb_le 0 off)) by lia.
  apply lookup_ge_None_2. unfold zlen in *. lia.
Qed.

(** A column whose first buffer can be appended to. *)
Definition word_column (a : ArrowArray) : Prop := exists valid, column_is valid (fun bs => buffer_ok bs.1) a.
Lemma append_any_word m v n col (s : TS) a : get_child (ts_out s) col = Some a -> word_column a -> Z.of_nat m <= 8 ->
  strays (on_child_array col (ArrowArrayBuffer 1 (ArrowBufferAppend (le_bytes m v))) ;; mret n : M TS Z)
    (fun off s' => off = n /\ exists a', s' = set_child col a' s) s.
Proof.
  intros Hg [valid Hcol] Hm. apply strays_wp, wp_bind. eapply wp_on_array_child; [exact Hg|].
  eapply (wp_buffer1 _ _ (fun _ _ => True)); [exact Hcol| |].
  - intros b1 b2 Hok. eapply wp_conseq; [apply append_spec; [done|apply le_bytes_byte|]|done|].
    + rewrite zlen_le_bytes. lia.
    + intros c b' (-> & _ & Hr). split; [done|]. by eexists.
  - intros [] a' _. apply wp_ret. split; [done|]. by exists a'.
Qed.

(** A field's length and validity bit, then its value. *)
Lemma append_field_strays fields buf n k off type (Q : Z -> TS -> Prop) (s : TS) a :
  sv_type <$> fields !! k = Some type -> get_child (ts_out s) (Z.of_nat k) = Some a -> word_column a ->
  (forall len a', LoadNetworkInt32 buf off = Some len -> word_column a' ->
     strays (append_value type buf (off + 4) len n (Z.of_nat k)) Q (set_child (Z.of_nat k) a' s)) ->
  strays (append_field fields buf n (Z.of_nat k) off) Q s.
Proof.
  intros Hf Hg [valid Hcol] HQ. unfold append_field. apply strays_load. intros len Hlen.
  eapply (strays_bind _ _ (fun _ s' => exists a', s' = set_child (Z.of_nat k) a' s /\ word_column a')).
  { apply strays_wp. eapply wp_on_array_child; [exact Hg|]. eapply wp_validity; [exact Hcol|].
    intros a' Hcol'. exists a'. split; [done|]. by eexists. }
  intros [] s' (a' & -> & Hcol'). rewrite Nat2Z.id. destruct (fields !! k) as [field|]; [|done].
  injection Hf as <-. apply strays_load. intros field' [= <-]. by apply HQ.
Qed.

(** *** The field before the last

    How far past the field's own end the reader is afterwards. *)
Definition skew (type : ArrowType) (d : option datum) : option Z :=
  match type, d with
  | TYPE_INT16, Some _ => Some 2
  | (TYPE_INT16 | TYPE_INT32 | TYPE_FLOAT), None => Some 4
  | (TYPE_INT64 | TYPE_DOUBLE), None => Some 8
  | _, _ => None
  end.
Lemma append_field_skewed fields buf n k off type d j (s : TS) a :
  skew type d = Some j -> from_option (datum_ok type) True d -> sv_type <$> fields !! k = Some type ->
  get_child (ts_out s) (Z.of_nat k) = Some a -> word_column a -> at_off buf off (encode_field type d) ->
  strays (append_field fields buf n (Z.of_nat k) off)
    (fun off' s' => off' = off + zlen (encode_field type d) + j /\ exists a', s' = set_child (Z.of_nat k) a' s) s.
Proof.
  intros Hj Hd Hf Hg Hcol Hat. eapply append_field_strays; [done..|]. intros len a' Hlen Hcol'.
  assert (forall m v r, Z.of_nat m <= 8 -> r = off + zlen (encode_field type d) + j ->
    strays (on_child_array (Z.of_nat k) (ArrowArrayBuffer 1 (ArrowBufferAppend (le_bytes m v))) ;; mret r : M TS Z)
      (fun off' s' => off' = off + zlen (encode_field type d) + j /\ exists a', s' = set_child (Z.of_nat k) a' s)
      (set_child (Z.of_nat k) a' s)) as Happend.
  { intros m v r Hm Hr. eapply strays_conseq; [eapply append_any_word; [by eapply get_put_column|done..]|].
    intros off' s' [-> (a'' & ->)]. split; [done|]. exists a''. unfold set_child; simpl. by rewrite put_put_child. }
  clear Hcol Hcol' Hg Hf. destruct type, d as [[b|z|bs]|]; try discriminate Hj; try done; injection Hj as <-;
    unfold append_value.
  4: { unfold encode_field in Hat. rewrite (load_int32 _ _ (-1) Hat) in Hlen by lia. injection Hlen as <-.
       apply (Happend 8%nat 0); [lia|]. unfold encode_field. rewrite zlen_be_bytes. lia. }
  all: apply strays_load; intros x _.
  all: first [apply (Happend 2%nat x)|apply (Happend 4%nat x)|apply (Happend 8%nat x)]; [lia|].
  all: unfold encode_field; cbn [payload width]; rewrite ?zlen_app, !zlen_be_bytes; lia.
Qed.

(** *** The last field

    Values of a fixed width. *)
Definition fixed_width (type : ArrowType) : option Z :=
  match type with
  | TYPE_BOOL => Some 1
  | TYPE_INT16 => Some 2
  | TYPE_INT32 | TYPE_FLOAT => Some 4
  | TYPE_INT64 | TYPE_DOUBLE => Some 8
  | _ => None
  end.
Lemma payload_width type d w : fixed_width type = Some w -> datum_ok type d -> zlen (payload type d) = w.
Proof.
  intros Hw Hd. destruct type, d; try discriminate Hw; try done; injection Hw as <-; cbn [payload width];
    by rewrite ?zlen_be_bytes.
Qed.
(** Its value would be past the end of the message. *)
Lemma append_field_past fields buf n k off type w (s : TS) a :
  fixed_width type = Some w -> sv_type <$> fields !! k = Some type ->
  get_child (ts_out s) (Z.of_nat k) = Some a -> word_column a -> zlen buf < off + 4 + w ->
  (type = TYPE_INT64 -> forall len, LoadNetworkInt32 buf off = Some len -> 0 <= len) ->
  overruns (append_field fields buf n (Z.of_nat k) off) s.
Proof.
  intros Hw Hf Hg Hcol Hend Hlen. eapply append_field_strays; [done..|]. intros len a' Hload _.
  destruct type; try discriminate Hw; injection Hw as <-; unfold append_value.
  4: { specialize (Hlen eq_refl len Hload). rewrite (proj2 (Z.ltb_ge len 0)) by done.
       unfold LoadNetworkInt64, LoadNetworkUInt64. by rewrite read_at_past by lia. }
  1: { by rewrite byte_at_past by lia. }
  all: unfold LoadNetworkInt16, LoadNetworkUInt16, LoadNetworkInt32, LoadNetworkUInt32, LoadNetworkUInt64;
    by rewrite read_at_past by lia.
Qed.

(** What the reader takes for the length of a BIGINT when it is [j] bytes too far. *)
Definition not_taken_for_null (j w : Z) : Prop :=
  match j with 4 => 0 <= w | 8 => w mod 2 ^ 32 < 2 ^ 31 | _ => True end.
Lemma be_bytes_app n m v : be_bytes (n + m) v = be_bytes n (v / 256 ^ Z.of_nat m) ++ be_bytes m v.
Proof.
  unfold be_bytes. rewrite <- rev_app_distr. f_equal. rewrite Nat.add_comm. revert v.
  induction m as [|m IH]; intros v.
  - change (256 ^ Z.of_nat 0) with 1. by rewrite Z.div_1_r.
  - cbn [Nat.add le_bytes app]. f_equal. rewrite IH. f_equal. f_equal.
    rewrite Nat2Z.inj_succ, Z.pow_succ_r by lia. rewrite Z.div_div by lia. done.
Qed.
Lemma load_int32_nonneg buf off v len : at_off buf off (be_bytes 4 v) -> v mod 2 ^ 32 < 2 ^ 31 ->
  LoadNetworkInt32 buf off = Some len -> 0 <= len.
Proof.
  intros Hat Hv. unfold LoadNetworkInt32, LoadNetworkUInt32. change 4 with (Z.of_nat 4).
  rewrite (load_be _ _ _ _ Hat). change (8 * Z.of_nat 4) with 32. cbn [fmap option_fmap option_map].
  intros [= <-]. unfold to_signed. rewrite Z.mod_mod by lia. rewrite (proj2 (Z.ltb_lt _ _)) by done.
  apply Z.mod_pos_bound. lia.
Qed.
Lemma misread_length buf off j w len : at_off buf off (be_bytes 4 8 ++ be_bytes 8 w) ->
  j = 2 \/ j = 4 \/ j = 8 -> - 2 ^ 63 <= w < 2 ^ 63 -> not_taken_for_null j w ->
  LoadNetworkInt32 buf (off + j) = Some len -> 0 <= len.
Proof.
  intros Hat Hj Hw Hpos. destruct Hj as [-> |[-> | ->]]; cbn [not_taken_for_null] in Hpos.
  - apply (load_int32_nonneg _ _ (8 * 65536 + (w / 256 ^ Z.of_nat 6) mod 65536)).
    + rewrite (be_bytes_app 2 6) in Hat. change (be_bytes 4 8) with (be_bytes 2 0 ++ be_bytes 2 8) in Hat.
      rewrite <- app_assoc in Hat. apply at_off_app in Hat as [_ Hat]. rewrite app_assoc in Hat.
      apply at_off_app in Hat as [Hat _]. rewrite zlen_be_bytes in Hat.
      rewrite (be_bytes_app 2 2). change (256 ^ Z.of_nat 2) with 65536.
      set (x := w / 256 ^ Z.of_nat 6) in *. pose proof (Z.mod_pos_bound x 65536 ltac:(lia)).
      replace ((8 * 65536 + x mod 65536) / 65536) with 8 by (rewrite Z.add_comm, Z.div_add, Z.div_small; lia).
      replace (be_bytes 2 (8 * 65536 + x mod 65536)) with (be_bytes 2 x); [exact Hat|].
      unfold be_bytes. cbn [le_bytes]. do 2 f_equal; [|f_equal]; Z.to_euclidean_division_equations; lia.
    + pose proof (Z.mod_pos_bound (w / 256 ^ Z.of_nat 6) 65536 ltac:(lia)). rewrite Z.mod_small; lia.
  - rewrite (be_bytes_app 4 4) in Hat. apply at_off_app in Hat as [_ Hat]. apply at_off_app in Hat as [Hat _].
    rewrite zlen_be_bytes in Hat. apply (load_int32_nonneg _ _ _ _ Hat). change (256 ^ Z.of_nat 4) with (2 ^ 32).
    rewrite Z.mod_small; Z.to_euclidean_division_equations; lia.
  - rewrite (be_bytes_app 4 4), app_assoc in Hat. apply at_off_app in Hat as [_ Hat].
    rewrite zlen_app, !zlen_be_bytes in Hat. by apply (load_int32_nonneg _ _ _ _ Hat).
Qed.
Lemma skew_cases type d j : skew type d = Some j -> j = 2 \/ j = 4 \/ j = 8.
Proof. destruct type, d; intros [=]; lia. Qed.
(** The reader is [j] bytes too far in the last field of a message, and overruns it. *)
Lemma last_field_overruns fields buf p n k off type d j (s : TS) a :
  buf = p ++ encode_field type (Some d) ++ [0] -> zlen p = off -> j = 2 \/ j = 4 \/ j = 8 ->
  is_Some (fixed_width type) -> datum_ok type d -> (type = TYPE_INT64 -> not_taken_for_null j (number d)) ->
  sv_type <$> fields !! k = Some type -> get_child (ts_out s) (Z.of_nat k) = Some a -> word_column a ->
  overruns (append_field fields buf n (Z.of_nat k) (off + j)) s.
Proof.
  intros Hbuf Hoff Hj [w Hw] Hd Hpos Hf Hg Hcol. pose proof (payload_width _ _ _ Hw Hd) as Hlen.
  eapply append_field_past; [exact Hw|done..| |].
  - rewrite Hbuf, !zlen_app. unfold encode_field. rewrite zlen_app, zlen_be_bytes, Hlen. change (zlen [0]) with 1. lia.
  - intros -> len. destruct d as [|z|]; try done. eapply misread_length; [|done|exact Hd|by apply Hpos].
    exists p, [0]. by rewrite Hbuf.
Qed.
Lemma append_fields_app fields buf r n m col off (s : TS) :
  append_fields fields buf r (n + m) col off s =
  (off' ← append_fields fields buf r n col off; append_fields fields buf r m (col + Z.of_nat n) off') s.
Proof.
  revert col off s. induction n as [|n IH]; intros col off s.
  - by rewrite Z.add_0_r.
  - cbn [append_fields Nat.add]. unfold mbind, M_bind. destruct (append_field _ _ _ _ _ s) as [off'| | |]; [|done..].
    rewrite IH. replace (col + 1 + Z.of_nat n) with (col + Z.of_nat (S n)) by lia. done.
Qed.
Lemma encode_fields_app types row types' ds : length types = length row ->
  encode_fields (types ++ types') (row ++ ds) = encode_fields types row ++ encode_fields types' ds.
Proof.
  revert row. induction types as [|t types IH]; intros [|d row] Hlen; try done.
  cbn [app encode_fields]. rewrite IH by (by injection Hlen). by rewrite app_assoc.
Qed.

Lemma overruns_first {S A B} (m : M S A) (k : A -> M S B) Q s : overruns m s -> strays (m ≫= k) Q s.
Proof. intros Hm. by eapply strays_bind; [exact Hm|]. Qed.
Lemma strays_run {S A} (m m' : M S A) Q s : m s = m' s -> strays m' Q s -> strays m Q s.
Proof. unfold strays. by intros ->. Qed.
(** The field that the reader does not get past properly, and the last one. *)
Lemma two_fields_overrun fields buf n k p t t' d d' j (s : TS) a0 a1 :
  buf = p ++ encode_field t d ++ encode_field t' (Some d') ++ [0] ->
  skew t d = Some j -> from_option (datum_ok t) True d ->
  is_Some (fixed_width t') -> datum_ok t' d' -> (t' = TYPE_INT64 -> not_taken_for_null j (number d')) ->
  sv_type <$> fields !! k = Some t -> sv_type <$> fields !! (k + 1)%nat = Some t' ->
  get_child (ts_out s) (Z.of_nat k) = Some a0 -> word_column a0 ->
  get_child (ts_out s) (Z.of_nat (k + 1)) = Some a1 -> word_column a1 ->
  overruns (append_fields fields buf n 2 (Z.of_nat k) (zlen p)) s.
Proof.
  intros Hbuf Hskew Hd Hfixed Hd' Hpos Hf0 Hf1 Hg0 Ha0 Hg1 Ha1. cbn [append_fields]. eapply strays_bind.
  { eapply append_field_skewed; [exact Hskew|exact Hd|exact Hf0|exact Hg0|exact Ha0|].
    by exists p, (encode_field t' (Some d') ++ [0]). }
  intros off s' (-> & a' & ->). replace (Z.of_nat k + 1) with (Z.of_nat (k + 1)) by lia. apply overruns_first.
  eapply (last_field_overruns _ _ (p ++ encode_field t d));
    [by rewrite Hbuf, <- app_assoc|apply zlen_app|by eapply skew_cases|done|exact Hd'|exact Hpos|exact Hf1| |exact Ha1].
  cbn [ts_out set_child]. by rewrite get_put_column_ne by lia.
Qed.


(** A COPY that fails before its first message, for instance because the query raises an
    error, is not reported: the library answers -1 or -2 and a null buffer, the comparison of
    the size with the length of the header is unsigned and lets it pass, and the null buffer
    is read. *)
Theorem failed_copy_undefined (fuel : nat) (fields : list ArrowSchemaView) (size : Z) (d' : pq)
  (s : TS) (Hsize : - 2 ^ 31 <= size < 0)
  (Hfail : PQgetCopyData (tr_conn (ts_reader s)) (ts_pq s) = (size, None, d')) :
  read_rows fuel fields s = Undef.
Proof.
  unfold read_rows. apply bind_undef. unfold read_header.
  erewrite bind_ret by (by apply get_copy_data_run).
  unfold to_unsigned. replace (size mod 2 ^ 64) with (size + 2 ^ 64).
  2:{ rewrite <- (Z_mod_plus_full size 1 (2 ^ 64)). rewrite Z.mod_small; lia. }
  rewrite (proj2 (Z.ltb_ge _ _)) by (unfold kPqHeaderLength; lia). done.
Qed.
End properties.

(** * Instances

    Two columns, BIGINT and TEXT, and a server that sends two rows. *)
#[local] Existing Instance host.
Definition example_types : list ArrowType := [TYPE_INT64; TYPE_STRING].
Definition example_fields (types : list ArrowType) : list ArrowSchemaView :=
  map (fun t => set_types t t fresh_view) types.
Definition example_buffer (bs : list Z) : ArrowBuffer :=
  match bs with
  | [] => ArrowBufferInit
  | _ => mkBuffer (Some bs) (zlen bs) (zlen bs) AllocatorMalloc
  end.
Definition example_child (type : ArrowType) (bits : ArrowBitmap) (b1 b2 : list Z) : ArrowArray :=
  mkArray 0 (-1) 0 2 0 [None; None; None] None None true
    (Some (mkPrivate bits (example_buffer b1, example_buffer b2) type (ArrowLayoutInit type) true))
    false.
Definition example_out (children : list ArrowArray) : ArrowArray :=
  mkArray 0 0 0 1 (zlen children) [None; None; None] (Some (map Some children)) None true None false.
Definition example_reader (types : list ArrowType) : TupleReader :=
  tr_set_schema (set_n_children (zlen types) zero_schema) (new_reader 1).
Definition example_server (messages : list (list Z)) : @pq PgMock.mock :=
  PgMock.mkState [] [] (messages, PGRES_COMMAND_OK) false "" [] 1.
Definition example_rows : list (list datum) :=
  [[DNum 7; DText [104; 105]]; [DNum (-1); DText []]].
Definition example_state (messages : list (list Z)) : @TS PgMock.mock :=
  @mkTS PgMock.mock (example_server messages) (example_reader example_types)
    (example_out [example_child TYPE_INT64 ArrowBitmapInit [] [];
                  example_child TYPE_STRING ArrowBitmapInit [0; 0; 0; 0] []]).

Lemma example_buffer_ok bs : Forall is_byte bs -> zlen bs < 2 ^ 48 ->
  buffer_ok (example_buffer bs) /\ buf_content (example_buffer bs) = bs.
Proof.
  intros Hb Hn. pose proof (zlen_nonneg bs). destruct bs as [|b bs]; [split; [split|]; try done; simpl; lia|].
  split; [split; simpl in *; try done; lia|]. unfold buf_content. cbn [example_buffer buf_size_bytes buf_data block_of].
  unfold zlen. rewrite Nat2Z.id. apply firstn_all.
Qed.

Lemma copy_rows_decoded_witness :
  let s := example_state (with_header (messages_of example_types example_rows)) in
  wp (read_rows 3 (example_fields example_types))
    (fun '(code, n) s' =>
       code = 0 /\ n = 2 /\ ts_pq s' = example_server [] /\
       ts_reader s' = tr_set_error "" (tr_set_pgbuf None (ts_reader s)) /\
       table_holds example_types example_rows (ts_out s') \/
       code = ENOMEM /\ refused) (fun _ _ => False) s.
Proof.
  set (s := example_state _).
  apply (@copy_rows_decoded host host_bound PgMock.mock example_types (example_fields example_types)
    example_rows 3 (example_server []) s); unfold s.
  - split_and!; [reflexivity..| |reflexivity]. repeat constructor.
  - intros [|[|j]] t Ht; [injection Ht as <-|injection Ht as <-|done]; eexists; (split; [reflexivity|]);
      (split; [reflexivity|]); eexists; (split; [reflexivity|]).
    + split_and!; [done|done|]. by apply (example_buffer_ok []).
    + destruct (example_buffer_ok [0; 0; 0; 0]) as [? ?]; [by repeat constructor|done|].
      destruct (example_buffer_ok []) as [? ?]; [apply Forall_nil_2|done|].
      by split_and!.
  - refine (Forall_cons_2 _ _ _ _ (Forall_cons_2 _ _ _ _ (Forall_nil_2 _)));
      (constructor; [done|constructor; [by repeat constructor|constructor]]).
  - split; [reflexivity|]. intros [|[|j]] Hj; simpl in *; [vm_compute; discriminate..|lia].
  - vm_compute. do 3 (eexists; split; [reflexivity|]). by do 2 eexists.
  - repeat constructor; vm_compute; discriminate.
  - simpl. lia.
Defined.

(** Two texts, then a NULL and a third. *)
Definition two_texts : @TS PgMock.mock :=
  @mkTS PgMock.mock (example_server []) (example_reader [TYPE_STRING])
    (example_out [example_child TYPE_STRING (mkBitmap (example_buffer [3]) 2)
                    (flat_map (le_bytes 4) [0; 1; 2]) [97; 98]]).
Lemma null_text_shifts_witness :
  wp (rows ← TupleReader_AppendNext (example_fields [TYPE_STRING])
               (encode_row [TYPE_STRING] [None] ++ [0]) 0 2;
      TupleReader_AppendNext (example_fields [TYPE_STRING])
        (encode_row [TYPE_STRING] [Some (DText [99])] ++ [0]) 0 rows)
    (fun rows s' => rows = 4 /\ exists a, get_child (ts_out s') 0 = Some a /\
       column_is [true; true; false; true]
         (fun bs => text_holds [0; 1; 2; 1; 2] [97; 98; 99] bs /\
            take 1 (drop 1 (buf_content bs.2)) = [98]) a)
    no_memory two_texts.
Proof.
  apply (@null_text_shifts host host_bound PgMock.mock (example_fields [TYPE_STRING]) [[97]] [] [99]
    98 (encode_row [TYPE_STRING] [None] ++ [0]) (encode_row [TYPE_STRING] [Some (DText [99])] ++ [0])
    two_texts [[97]; [98]] 2); try reflexivity.
  - split_and!; [reflexivity..| |reflexivity]. repeat constructor.
  - intros [|j] t Ht; [injection Ht as <-|done]. eexists; split; [reflexivity|].
    split; [reflexivity|]. eexists; split; [reflexivity|].
    destruct (example_buffer_ok [3]) as [? _]; [by repeat constructor|done|].
    destruct (example_buffer_ok (flat_map (le_bytes 4) [0; 1; 2])) as [? ?]; [by repeat constructor|done|].
    destruct (example_buffer_ok [97; 98]) as [? ?]; [by repeat constructor|done|].
    by split_and!.
  - by repeat constructor.
  - vm_compute. discriminate.
  - by exists [], [0].
  - by exists [], [0].
Defined.

(** A text, a SMALLINT and a negative BIGINT; two BIGINTs of which the first is NULL. *)
Definition misread_types : list ArrowType := [TYPE_STRING; TYPE_INT16; TYPE_INT64].
Definition fresh_columns (types : list ArrowType) (b1 : list Z) : @TS PgMock.mock :=
  @mkTS PgMock.mock (example_server []) (example_reader types)
    (example_out (map (fun type => example_child type ArrowBitmapInit
       match type with TYPE_STRING => b1 | _ => [] end []) types)).
Definition misread_row : list (option datum) := [Some (DText [104; 105]); Some (DNum 1); Some (DNum (-2))].
Lemma failed_copy_undefined_witness :
  read_rows 1 (example_fields example_types) (example_state []) = Undef.
Proof.
  apply (@failed_copy_undefined host PgMock.mock 1 (example_fields example_types) (-1)
    (example_server []) (example_state [])); [lia|reflexivity].
Defined.
