(* ===== verification/PgBind.v ===== *)
(** The PostgreSQL driver, part three: bound parameters ([OneValueStream] and [BindStream] of
    c/driver/postgresql/statement.cc). *)
From stdpp Require Import base tactics list numbers option strings gmap.
From Stdlib Require Import ZArith Lia Ascii.
From S2P Require Import Prelude CLib Buffer Schema SchemaView Array ArrayView Adbc Utils Postgres PgReader.

(** * The parameter stream

    The driver's own producer is the one-value stream that holds a bound array; every other
    stream is foreign. *)
Record OneValueStream := mkOneValue { ov_schema : ArrowSchema; ov_array : ArrowArray }.
Definition BindInput := ArrowArrayStream OneValueStream.

Section input.
  Context `{Libc}.

Definition OneValueStream_GetSchema (stream : OneValueStream) : M ArrowSchema unit :=
  ArrowSchemaDeepCopy (ov_schema stream).
(** What is written to [*out], and the stream after the call. *)
Definition OneValueStream_GetNext (stream : OneValueStream) : ArrowArray * OneValueStream :=
  (ov_array stream, mkOneValue (ov_schema stream) (set_array_release false (ov_array stream))).

Definition bind_get_schema : M (BindInput * ArrowSchema) unit :=
  stream ← gets fst;
  match stream with
  | StreamReader ov => zoom snd_lens (OneValueStream_GetSchema ov)
  | StreamForeign f =>
      if fst (fs_schema f) =? 0 then modify (fun p => (p.1, snd (fs_schema f)))
      else exit (fst (fs_schema f))
  | StreamReleased | StreamSingleBatch _ _ => undef
  end.
Definition bind_get_next : M (BindInput * ArrowArray) unit :=
  stream ← gets fst;
  match stream with
  | StreamReader ov =>
      let '(out, ov) := OneValueStream_GetNext ov in put (StreamReader ov, out)
  | StreamForeign f =>
      match fs_next f with
      | [] => modify (fun p => (p.1, set_array_release false p.2))
      | (code, batch) :: rest =>
          modify (fun p => (StreamForeign (mkForeign (fs_schema f) rest (fs_last_error f)), p.2)) ;;
          if code =? 0 then modify (fun p => (p.1, batch)) else exit code
      end
  | StreamReleased | StreamSingleBatch _ _ => undef
  end.
(** [OneValueStream::GetLastError] is a null pointer. *)
Definition bind_last_error (stream : BindInput) : option string :=
  match stream with StreamForeign f => fs_last_error f | _ => None end.
(** [stream->release(stream)]; a one-value stream releases what it still holds. *)
Definition bind_release : M BindInput unit :=
  stream ← gets id;
  match stream with
  | StreamReader _ | StreamForeign _ => put StreamReleased
  | StreamReleased | StreamSingleBatch _ _ => undef
  end.
(** How often [get_next] can still yield a batch. *)
Definition bind_remaining (stream : BindInput) : nat :=
  match stream with
  | StreamReader ov => if ar_release (ov_array ov) then 1 else 0
  | StreamForeign f => length (fs_next f)
  | _ => 0
  end.
End input.

(** * [BindStream]

    A parameter's value is a null pointer, a place in [param_values_buffer], or bytes of the
    array it comes from. *)
Inductive param_value := PNull | PBuffer (offset : Z) | PData (bytes : list Z).
Record BindStream := mkBind {
  bs_bind : BindInput;
  bs_schema : ArrowSchema;
  bs_fields : list ArrowSchemaView;
  bs_param_types : list Z;
  bs_param_values : list param_value;
  bs_param_lengths : list Z;
  bs_param_formats : list Z;
  bs_param_values_offsets : list Z;
  bs_param_values_buffer : list Z;
}.
Definition new_bind_stream (bind : BindInput) : BindStream :=
  mkBind bind zero_schema [] [] [] [] [] [] [].

(** The error, the library, the stream, [*rows_affected] ([None]: a null pointer).  The
    destructors of the handles release what they hold when the object goes out of scope. *)
Record BnS `{Libpq} := mkBnS {
  bn_error : ErrorPtr;
  bn_pq : pq;
  bn_stream : BindStream;
  bn_rows : option Z;
}.
Arguments mkBnS {_} bn_error bn_pq bn_stream bn_rows.
#[export] Instance HasError_BnS `{Libpq} : HasError BnS :=
  mkLens bn_error (fun e s => mkBnS e (bn_pq s) (bn_stream s) (bn_rows s)).
#[export] Instance HasPq_BnS `{Libpq} : HasPq BnS :=
  mkLens bn_pq (fun d s => mkBnS (bn_error s) d (bn_stream s) (bn_rows s)).

Section bind.
  Context `{Libc} `{Libpq}.

Definition the_stream : M BnS BindStream := gets bn_stream.
Definition set_stream (b : BindStream) : M BnS unit :=
  modify (fun s => mkBnS (bn_error s) (bn_pq s) b (bn_rows s)).
Definition bind_schema_lens : Lens BnS (BindInput * ArrowSchema) :=
  mkLens (fun s => (bs_bind (bn_stream s), bs_schema (bn_stream s)))
    (fun p s => let b := bn_stream s in mkBnS (bn_error s) (bn_pq s)
       (mkBind p.1 p.2 (bs_fields b) (bs_param_types b) (bs_param_values b)
          (bs_param_lengths b) (bs_param_formats b) (bs_param_values_offsets b)
          (bs_param_values_buffer b)) (bn_rows s)).
Definition set_fields (fields : list ArrowSchemaView) : M BnS unit :=
  b ← the_stream;
  set_stream (mkBind (bs_bind b) (bs_schema b) fields (bs_param_types b) (bs_param_values b)
    (bs_param_lengths b) (bs_param_formats b) (bs_param_values_offsets b)
    (bs_param_values_buffer b)).
Definition set_params types values lengths formats offsets buffer : M BnS unit :=
  b ← the_stream;
  set_stream (mkBind (bs_bind b) (bs_schema b) (bs_fields b) types values lengths formats offsets
    buffer).
(** [bind_schema->children[i]] and its name, which is printed. *)
Definition bind_child (i : Z) : M BnS ArrowSchema :=
  b ← the_stream; lift_opt (mjoin (child_at (bs_schema b) i)).
Definition bind_name (i : Z) : M BnS string := child ← bind_child i; lift_opt (sc_name child).

(** [ArrowSchemaViewInit] into a view, without an error: the status is checked. *)
Definition init_view (expr : string) (schema : ArrowSchema) : M BnS ArrowSchemaView := fun s =>
  match ArrowSchemaViewInit schema (fresh_view, None) with
  | Ret _ (view, _) => Ret view s
  | Exit code _ => (CHECK_NA_ADBC expr (exit code) ;; undef) s
  | Undef => Undef
  | NoFuel => NoFuel
  end.
Fixpoint init_views (n : nat) (i : Z) : M BnS (list ArrowSchemaView) :=
  match n with
  | O => mret []
  | S n' =>
      child ← bind_child i;
      view ← init_view "ArrowSchemaViewInit(&bind_schema_fields[i], bind_schema->children[i], nullptr)"
               child;
      views ← init_views n' (i + 1);
      mret (view :: views)
  end.

Definition BindStream_Begin (callback : M BnS unit) : M BnS unit :=
  CHECK_NA_ADBC "bind->get_schema(&bind.value, &bind_schema.value)"
    (zoom bind_schema_lens bind_get_schema) ;;
  b ← the_stream;
  bind_schema_view ←
    init_view "ArrowSchemaViewInit(&bind_schema_view, &bind_schema.value, nullptr)" (bs_schema b);
  if negb (type_eqb (sv_type bind_schema_view) TYPE_STRUCT) then
    raise ADBC_STATUS_INVALID_STATE ["Bind parameters must have type STRUCT"%string]
  else
  fields ← init_views (Z.to_nat (sc_n_children (bs_schema b))) 0;
  set_fields fields ;;
  callback.

(** The PostgreSQL type and the length of a parameter. *)
Definition param_type (type : ArrowType) : option (PgType * Z) :=
  match type with
  | TYPE_INT16 => Some (kInt2, 2)
  | TYPE_INT32 => Some (kInt4, 4)
  | TYPE_INT64 => Some (kInt8, 8)
  | TYPE_STRING => Some (kText, 0)
  | _ => None
  end.
(** One field: its OID and length. *)
Definition set_param_type (type_mapping : TypeMapping) (i : Z) : M BnS (Z * Z) :=
  b ← the_stream;
  field ← lift_opt (bs_fields b !! Z.to_nat i);
  match param_type (sv_type field) with
  | None =>
      name ← bind_name i;
      raise ADBC_STATUS_NOT_IMPLEMENTED
        ["Field #"%string; fmt_Z (i + 1); " ('"%string; name;
         "') has unsupported parameter type "%string; fmt_Z (type_code (sv_type field))]
  | Some (pg_type, length) =>
      let oid := GetOid pg_type type_mapping in
      if oid =? 0 then
        name ← bind_name i;
        raise ADBC_STATUS_NOT_IMPLEMENTED
          ["Field #"%string; fmt_Z (i + 1); " ('"%string; name;
           "') has type with no corresponding PostgreSQL type "%string;
           fmt_Z (type_code (sv_type field))]
      else mret (oid, length)
  end.
Fixpoint set_param_types (type_mapping : TypeMapping) (n : nat) (i : Z) : M BnS (list (Z * Z)) :=
  match n with
  | O => mret []
  | S n' =>
      p ← set_param_type type_mapping i;
      ps ← set_param_types type_mapping n' (i + 1);
      mret (p :: ps)
  end.
(** The offsets of values of these lengths, and their total. *)
Fixpoint value_offsets (from : Z) (lengths : list Z) : list Z * Z :=
  match lengths with
  | [] => ([], from)
  | n :: r => let '(os, total) := value_offsets (from + n) r in (from :: os, total)
  end.
Definition BindStream_SetParamTypes (type_mapping : TypeMapping) : M BnS unit :=
  b ← the_stream;
  let n := Z.to_nat (sc_n_children (bs_schema b)) in
  ps ← set_param_types type_mapping (length (bs_fields b)) 0;
  let lengths := map snd ps in
  let '(offsets, total) := value_offsets 0 lengths in
  set_params (map fst ps) (replicate n PNull) lengths (replicate n kPgBinaryFormat) offsets
    (replicate (Z.to_nat total) 0).

Definition BindStream_Prepare (conn : Z) (query : string) : M BnS unit :=
  b ← the_stream;
  result ← pq_call (PQprepare conn query (bs_param_types b));
  check_command conn result (fun message =>
    [["Failed to prepare query: "%string; message]; ["Query: "%string; query]]).

(** ** Executing once per row *)
Definition set_value (col : Z) (v : param_value) : M BnS unit :=
  b ← the_stream;
  set_params (bs_param_types b) (<[Z.to_nat col := v]> (bs_param_values b)) (bs_param_lengths b)
    (bs_param_formats b) (bs_param_values_offsets b) (bs_param_values_buffer b).
Definition set_length_of (col n : Z) : M BnS unit :=
  b ← the_stream;
  set_params (bs_param_types b) (bs_param_values b) (<[Z.to_nat col := n]> (bs_param_lengths b))
    (bs_param_formats b) (bs_param_values_offsets b) (bs_param_values_buffer b).
Definition set_values_buffer (bytes : list Z) : M BnS unit :=
  b ← the_stream;
  set_params (bs_param_types b) (bs_param_values b) (bs_param_lengths b) (bs_param_formats b)
    (bs_param_values_offsets b) bytes.

Definition bind_param (view : ArrowArrayView) (row col : Z) : M BnS unit :=
  child ← lift_opt (view_child view col);
  is_null ← lift_opt (ArrowArrayViewIsNull child row);
  if is_null : bool then set_value col PNull else
  b ← the_stream;
  offset ← lift_opt (bs_param_values_offsets b !! Z.to_nat col);
  set_value col (PBuffer offset) ;;
  field ← lift_opt (bs_fields b !! Z.to_nat col);
  match sv_type field with
  | TYPE_INT64 =>
      value ← lift_opt (as_int child 1 8 row);
      buffer ← lift_opt (write_at (bs_param_values_buffer b) offset (ToNetworkInt64 value));
      set_values_buffer buffer
  | TYPE_STRING =>
      bytes ← lift_opt (ArrowArrayViewGetBytesUnsafe child row);
      set_length_of col (to_signed 32 (zlen bytes)) ;;
      set_value col (match bv_data (buffer_view child 2) with None => PNull | Some _ => PData bytes end)
  | _ =>
      name ← bind_name col;
      raise ADBC_STATUS_NOT_IMPLEMENTED
        ["Field #"%string; fmt_Z (col + 1); " ('"%string; name;
         "') has unsupported type for ingestion "%string; fmt_Z (type_code (sv_type field))]
  end.

(** What the library reads of the parameters; [None] outside the memory they point at. *)
Definition sent_value (buffer : list Z) (v : param_value) (length : Z) : option (option (list Z)) :=
  match v with
  | PNull => Some None
  | PBuffer offset => Some <$> read_at buffer offset length
  | PData bytes => Some <$> read_at bytes 0 length
  end.
Definition sent_values (b : BindStream) : option (list (option (list Z))) :=
  mapM (fun p => sent_value (bs_param_values_buffer b) p.1 p.2)
    (zip (bs_param_values b) (bs_param_lengths b)).
Definition execute_row (conn : Z) (view : ArrowArrayView) (row : Z) : M BnS unit :=
  for_range 0 (av_n_children view) (bind_param view row) ;;
  b ← the_stream;
  values ← lift_opt (sent_values b);
  result ← pq_call (PQexecPrepared conn values (bs_param_formats b) 0);
  check_command conn result (fun message =>
    [["Failed to execute prepared statement: "%string; message]]).

(** Code on a fresh [ArrowArrayView], without an error: the status is checked. *)
Definition with_view (expr : string) (m : M VE unit) (view : ArrowArrayView) : M BnS ArrowArrayView :=
  fun s =>
  match m (view, None) with
  | Ret _ (v, _) => Ret v s
  | Exit code _ => (CHECK_NA_ADBC expr (exit code) ;; undef) s
  | Undef => Undef
  | NoFuel => NoFuel
  end.
(** [bind->get_next(&bind.value, &array.value)] into a zeroed array. *)
Definition next_array : M BnS (Z * ArrowArray) := fun s =>
  let b := bn_stream s in
  let back stream := mkBnS (bn_error s) (bn_pq s)
    (mkBind stream (bs_schema b) (bs_fields b) (bs_param_types b) (bs_param_values b)
       (bs_param_lengths b) (bs_param_formats b) (bs_param_values_offsets b)
       (bs_param_values_buffer b)) (bn_rows s) in
  match bind_get_next (bs_bind b, zero_array) with
  | Ret _ (stream, array) => Ret (0, array) (back stream)
  | Exit code (stream, array) => Ret (code, array) (back stream)
  | Undef => Undef
  | NoFuel => NoFuel
  end.
Definition set_rows (n : option Z) : M BnS unit :=
  modify (fun s => mkBnS (bn_error s) (bn_pq s) (bn_stream s) n).
Definition execute_batch (conn : Z) (array : ArrowArray) : M BnS unit :=
  b ← the_stream;
  view ← with_view "ArrowArrayViewInitFromSchema(&array_view.value, &bind_schema.value, nullptr)"
           (ArrowArrayViewInitFromSchema (bs_schema b)) zero_view;
  view ← with_view "ArrowArrayViewSetArray(&array_view.value, &array.value, nullptr)"
           (ArrowArrayViewSetArray array) view;
  for_range 0 (ar_length array) (execute_row conn view) ;;
  rows ← gets bn_rows;
  match rows with
  | Some n => n ← i64 (n + ar_length array); set_rows (Some n)
  | None => mret tt
  end.
Fixpoint execute_batches (fuel : nat) (conn : Z) : M BnS unit :=
  match fuel with
  | O => nofuel
  | S fuel' =>
      '(res, array) ← next_array;
      if negb (res =? 0) then
        b ← the_stream;
        message ← lift_opt (bind_last_error (bs_bind b));
        raise ADBC_STATUS_IO
          ["Failed to read next batch from stream of bind parameters: "%string; message]
      else if negb (ar_release array) then mret tt
      else execute_batch conn array ;; execute_batches fuel' conn
  end.
(** [while (true)]: a stream yields a batch at most [bind_remaining] times. *)
Definition BindStream_Execute (conn : Z) : M BnS unit :=
  rows ← gets bn_rows;
  set_rows ((fun _ => 0) <$> rows) ;;
  b ← the_stream;
  execute_batches (S (bind_remaining (bs_bind b))) conn.
End bind.
