(* ===== verification/PgSend.v ===== *)
(** What the PostgreSQL driver sends for bound parameters (PgBind.v): exactly the rows of the
    stream, in order, each value in the server's format; and the types it cannot send. *)
From stdpp Require Import base tactics list numbers option strings gmap.
From Stdlib Require Import ZArith Lia Ascii.
From S2P Require Import Prelude CLib Buffer Schema SchemaView Array ArrayView ArrowFormat Adbc Utils Postgres PgReader PgCopy PgBind.

(** * The rows of the stream

    The values that the Arrow format gives the rows, in the server's binary format: [None] is
    NULL, a BIGINT its eight bytes in network order, a text its bytes, of which there are at
    most as many as an [int] counts. *)
Definition sent_bytes (x : scalar) : option (option (list Z)) :=
  match x with
  | ScNull => Some None
  | ScInt z => Some (Some (be_bytes 8 z))
  | ScText bytes => if zlen bytes <=? INT32_MAX then Some (Some bytes) else None
  | ScDouble _ => None
  end.
Definition array_rows (types : list ArrowType) (array : ArrowArray) : option (list (list (option (list Z)))) :=
  rows ← batch_rows_from types array 0; mapM (mapM sent_bytes) rows.
(** The batches a stream yields before its end; [None] if it fails. *)
Fixpoint foreign_batches (next : list (Z * ArrowArray)) : option (list ArrowArray) :=
  match next with
  | [] => Some []
  | (code, a) :: rest =>
      if code =? 0 then if ar_release a then cons a <$> foreign_batches rest else Some [] else None
  end.
Definition batches_of (stream : BindInput) : option (list ArrowArray) :=
  match stream with
  | StreamReader ov => Some (if ar_release (ov_array ov) then [ov_array ov] else [])
  | StreamForeign f => foreign_batches (fs_next f)
  | _ => None
  end.
(** All rows of a stream. *)
Definition stream_rows (types : list ArrowType) (stream : BindInput)
    : option (list (list (option (list Z)))) :=
  arrays ← batches_of stream; mjoin <$> mapM (array_rows types) arrays.

(** The view of an array. *)
Definition batch_view `{Libc} (schema : ArrowSchema) (array : ArrowArray) : option ArrowArrayView :=
  match ArrowArrayViewInitFromSchema schema (zero_view, None) with
  | Ret _ (view, _) =>
      match ArrowArrayViewSetArray array (view, None) with Ret _ (view, _) => Some view | _ => None end
  | _ => None
  end.
(** What the code handles: an array that can be viewed and is not a slice, nor are its columns
    of numbers, and whose text columns have a block of text. *)
Record servable `{Libc} (types : list ArrowType) (schema : ArrowSchema) (array : ArrowArray) : Prop := {
  se_view : is_Some (batch_view schema array);
  se_length : 0 <= ar_length array;
  se_offset : ar_offset array = 0;
  se_numbers : forall i a, types !! i = Some TYPE_INT64 -> get_child array (Z.of_nat i) = Some a -> ar_offset a = 0;
  se_texts : forall i a, types !! i = Some TYPE_STRING -> get_child array (Z.of_nat i) = Some a -> is_Some (block_of a 2);
}.

(** * What the code reads

    The value of a column in a row as [bind_param] reads it: numbers are the elements of the
    data buffer at the row itself, whatever the array's offset, and a text column without a
    data block has no values. *)
Definition param_value_of (view : ArrowArrayView) (row : Z) (col : nat) (type : ArrowType)
    : option (option (list Z)) :=
  child ← view_child view (Z.of_nat col);
  is_null ← ArrowArrayViewIsNull child row;
  if is_null : bool then Some None else
  match type with
  | TYPE_INT64 => v ← as_int child 1 8 row; Some (Some (be_bytes 8 v))
  | TYPE_STRING =>
      bytes ← ArrowArrayViewGetBytesUnsafe child row;
      if zlen bytes <=? INT32_MAX
      then Some (match bv_data (buffer_view child 2) with None => None | Some _ => Some bytes end)
      else None
  | _ => None
  end.
Definition row_values (types : list ArrowType) (view : ArrowArrayView) (row : Z)
    : option (list (option (list Z))) :=
  mapM id (imap (param_value_of view row) types).
Definition batch_values (types : list ArrowType) (view : ArrowArrayView) (n : Z)
    : option (list (list (option (list Z)))) :=
  mapM (row_values types view) (seqZ 0 n).

(** The rows of an array, where all of it can be viewed and read. *)
Definition array_values `{Libc} (types : list ArrowType) (schema : ArrowSchema) (array : ArrowArray)
    : option (list (list (option (list Z)))) :=
  view ← batch_view schema array;
  if (av_n_children view =? zlen types) && (0 <=? ar_length array)
  then batch_values types view (ar_length array) else None.
(** All rows of a stream, as they are read. *)
Definition stream_values `{Libc} (types : list ArrowType) (schema : ArrowSchema) (stream : BindInput)
    : option (list (list (option (list Z)))) :=
  arrays ← batches_of stream; mjoin <$> mapM (array_values types schema) arrays.

Section send.
  Context `{Libc} `{Libpq}.

(** A prepared statement run once for every row, until one fails. *)
Fixpoint execute_all (conn : Z) (formats : list Z) (rows : list (list (option (list Z)))) (d : pq)
    : bool * pq :=
  match rows with
  | [] => (true, d)
  | row :: rest =>
      let '(result, d1) := PQexecPrepared conn row formats 0 d in
      let d2 := PQclear result d1 in
      if PQresultStatus result d1 =? PGRES_COMMAND_OK then execute_all conn formats rest d2
      else (false, d2)
  end.
Lemma execute_all_app conn formats a b d :
  execute_all conn formats (a ++ b) d =
    let '(ok, d1) := execute_all conn formats a d in
    if ok then execute_all conn formats b d1 else (false, d1).
Proof.
  revert d. induction a as [|row a IH]; intros d; simpl; [done|].
  destruct (PQexecPrepared _ _ _ _ _) as [result d1]. by destruct (_ =? _).
Qed.
(** Prepare, then run. *)
Definition prepare_and_execute (conn : Z) (query : string) (oids : list Z) (n : nat)
    (rows : list (list (option (list Z)))) (d : pq) : bool * pq :=
  let '(result, d1) := PQprepare conn query oids d in
  let d2 := PQclear result d1 in
  if PQresultStatus result d1 =? PGRES_COMMAND_OK
  then execute_all conn (replicate n kPgBinaryFormat) rows d2 else (false, d2).

(** * The parameter buffer *)
Definition size_of (type : ArrowType) : Z := match type with TYPE_INT64 => 8 | _ => 0 end.
Definition sendable (type : ArrowType) : Prop := type = TYPE_INT64 \/ type = TYPE_STRING.
Definition offsets_of (types : list ArrowType) : list Z := (value_offsets 0 (map size_of types)).1.
Definition total_size (types : list ArrowType) : Z := (value_offsets 0 (map size_of types)).2.

Lemma value_offsets_spec from ls : Forall (Z.le 0) ls ->
  length (value_offsets from ls).1 = length ls /\ from <= (value_offsets from ls).2 /\
  (forall j o n, (value_offsets from ls).1 !! j = Some o -> ls !! j = Some n ->
     from <= o /\ o + n <= (value_offsets from ls).2) /\
  (forall i j o o' n, (i < j)%nat -> (value_offsets from ls).1 !! i = Some o -> ls !! i = Some n ->
     (value_offsets from ls).1 !! j = Some o' -> o + n <= o').
Proof.
  intros Hls. revert from. induction Hls as [|n ls Hn Hls IH]; intros from; [simpl; split_and!; by try lia|].
  destruct (IH (from + n)) as (Hlen & Htot & Hin & Hdis). simpl.
  destruct (value_offsets (from + n) ls) as [os total] eqn:E. simpl in *. split_and!; [lia|lia| |].
  - intros [|j] o m; simpl; [intros [= <-] [= <-]; lia|]. intros Ho Hm.
    destruct (Hin _ _ _ Ho Hm). lia.
  - intros [|i] [|j] o o' m Hij; simpl; try lia.
    + intros [= <-] [= <-] Ho'. assert (exists m', ls !! j = Some m') as [m' Hm'].
      { apply lookup_lt_is_Some. rewrite <- Hlen. by eapply lookup_lt_Some. }
      destruct (Hin _ _ _ Ho' Hm'). lia.
    + intros. eapply Hdis; [|done..]. lia.
Qed.

Lemma read_at_lookup l off n bs : read_at l off n = Some bs <->
  0 <= off /\ 0 <= n /\ off + n <= zlen l /\ bs = take (Z.to_nat n) (drop (Z.to_nat off) l).
Proof.
  unfold read_at. split.
  - destruct (_ && _) eqn:E; [|done]. intros [= <-]. apply andb_prop in E as [E E3].
    apply andb_prop in E as [E1 E2]. apply Z.leb_le in E1, E2, E3. done.
  - intros (? & ? & ? & ->). by rewrite !(proj2 (Z.leb_le _ _)) by done.
Qed.
Lemma read_write_same l off bs l' : write_at l off bs = Some l' -> read_at l' off (zlen bs) = Some bs.
Proof.
  intros Hw. apply at_off_read. unfold write_at in Hw. destruct (_ && _) eqn:E; [|done].
  injection Hw as <-. apply andb_prop in E as [E1 E2]. apply Z.leb_le in E1, E2.
  exists (take (Z.to_nat off) l), (drop (Z.to_nat off + length bs) l). split; [done|].
  rewrite zlen_take. unfold zlen in *. lia.
Qed.
Lemma read_write_other l off bs l' off' n :
  write_at l off bs = Some l' -> off' + n <= off \/ off + zlen bs <= off' ->
  read_at l' off' n = read_at l off' n.
Proof.
  intros Hw Hd. pose proof (write_at_len _ _ _ _ Hw) as Hlen.
  destruct (read_at l off' n) as [rs|] eqn:Hr.
  - apply read_at_lookup in Hr as (H1 & H2 & H3 & ->). apply read_at_lookup. rewrite Hlen.
    split_and!; [done..|]. apply list_eq. intros i.
    destruct (decide (i < Z.to_nat n)%nat); [|by rewrite !lookup_take_ge by lia].
    rewrite !lookup_take_lt, !lookup_drop by lia.
    pose proof (write_at_lookup _ _ _ _ (off' + Z.of_nat i) Hw ltac:(lia)) as Hj.
    replace (Z.to_nat (off' + Z.of_nat i)) with (Z.to_nat off' + i)%nat in Hj by lia. rewrite Hj.
    destruct (Z.leb_spec off (off' + Z.of_nat i)), (Z.ltb_spec (off' + Z.of_nat i) (off + zlen bs)); simpl; try done. lia.
  - unfold read_at in *. by rewrite Hlen; destruct (_ && _).
Qed.

(** * One row *)

(** The state with other parameter values. *)
Definition with_values (s : BnS) (vs : list param_value) (ls bf : list Z) : BnS :=
  let b := bn_stream s in
  mkBnS (bn_error s) (bn_pq s)
    (mkBind (bs_bind b) (bs_schema b) (bs_fields b) (bs_param_types b) vs ls (bs_param_formats b)
       (bs_param_values_offsets b) bf) (bn_rows s).
(** The parameter arrays belong to columns of these types. *)
Record params_ok (types : list ArrowType) (vs : list param_value) (ls bf : list Z) : Prop := {
  po_values : length vs = length types;
  po_lengths : length ls = length types;
  po_fixed : forall j, types !! j = Some TYPE_INT64 -> ls !! j = Some 8;
  po_buffer : zlen bf = total_size types;
}.
(** One parameter stands for a value. *)
Inductive stands_for (types : list ArrowType) (bf : list Z) (j : nat) :
    param_value -> Z -> option (list Z) -> Prop :=
| stands_null n : stands_for types bf j PNull n None
| stands_number o bs : types !! j = Some TYPE_INT64 -> offsets_of types !! j = Some o ->
    read_at bf o 8 = Some bs -> stands_for types bf j (PBuffer o) 8 (Some bs)
| stands_text bs : stands_for types bf j (PData bs) (zlen bs) (Some bs).
Definition row_sent (types : list ArrowType) (row : list (option (list Z))) (k : nat)
    (vs : list param_value) (ls bf : list Z) : Prop :=
  forall j, (j < k)%nat -> exists v n r, vs !! j = Some v /\ ls !! j = Some n /\ row !! j = Some r /\
    stands_for types bf j v n r.

Lemma stands_for_sent types bf j v n r :
  stands_for types bf j v n r -> sent_value bf v n = Some r.
Proof.
  intros [m|o bs _ _ Hr|bs]; simpl; [done|by rewrite Hr|].
  replace (read_at bs 0 (zlen bs)) with (Some bs); [done|]. symmetry. apply at_off_read.
  exists [], []. by rewrite app_nil_r.
Qed.
Lemma row_sent_values types row vs ls bf :
  params_ok types vs ls bf -> length row = length types ->
  row_sent types row (length types) vs ls bf ->
  mapM (fun p => sent_value bf p.1 p.2) (zip vs ls) = Some row.
Proof.
  intros [Hv Hl _ _] Hrow Hs. apply mapM_Some_2. apply Forall2_same_length_lookup_2.
  { rewrite length_zip_with. lia. }
  intros j [v n] r (v' & n' & Hp & Hv' & Hn')%lookup_zip_with_Some Hr. injection Hp as <- <-.
  destruct (Hs j) as (v'' & n'' & r'' & ? & ? & ? & Hst); [apply lookup_lt_Some in Hr; lia|].
  simplify_eq. by eapply stands_for_sent.
Qed.
(** Writing in its own place a column leaves those before it alone. *)
Lemma row_sent_write types row k vs ls bf o bs bf' :
  row_sent types row k vs ls bf -> offsets_of types !! k = Some o ->
  write_at bf o bs = Some bf' -> row_sent types row k vs ls bf'.
Proof.
  intros Hs Ho Hw j Hj. destruct (Hs j Hj) as (v & n & r & Hv & Hn & Hr & Hst).
  exists v, n, r. split_and!; [done..|]. destruct Hst as [m|o' bs' Ht Ho' Hread|bs']; constructor; try done.
  erewrite read_write_other; [done..|]. left.
  destruct (value_offsets_spec 0 (map size_of types)) as (_ & _ & _ & Hdis).
  { apply Forall_fmap, Forall_true. intros []; simpl; lia. }
  eapply (Hdis j k); [done|exact Ho'| |exact Ho]. by rewrite list_lookup_fmap, Ht.
Qed.
Lemma row_sent_extend types row k vs ls bf v n r :
  row_sent types row k vs ls bf -> (k < length vs)%nat -> (k < length ls)%nat ->
  row !! k = Some r -> stands_for types bf k v n r ->
  row_sent types row (S k) (<[k := v]> vs) (<[k := n]> ls) bf.
Proof.
  intros Hs Hv Hl Hr Hst j Hj. destruct (decide (j = k)) as [->|Hne].
  - exists v, n, r. by rewrite !list_lookup_insert_eq by done.
  - rewrite !list_lookup_insert_ne by done. apply Hs. lia.
Qed.
Lemma params_ok_insert types vs ls bf bf' k v n :
  params_ok types vs ls bf -> zlen bf' = zlen bf ->
  (types !! k = Some TYPE_INT64 -> n = 8) ->
  params_ok types (<[k := v]> vs) (<[k := n]> ls) bf'.
Proof.
  intros [Hv Hl Hf Hb] Hlen Hn. split; [by rewrite length_insert..| |by rewrite Hlen].
  intros j Hj. destruct (decide (j = k)) as [->|Hne].
  - rewrite (Hn Hj). apply list_lookup_insert_eq. rewrite Hl. by eapply lookup_lt_Some.
  - rewrite list_lookup_insert_ne by done. by apply Hf.
Qed.

(** The stream is ready to bind rows of these types. *)
Record ready (types : list ArrowType) (s : BnS) : Prop := {
  re_fields : map sv_type (bs_fields (bn_stream s)) = types;
  re_offsets : bs_param_values_offsets (bn_stream s) = offsets_of types;
  re_types : Forall sendable types;
  re_params : params_ok types (bs_param_values (bn_stream s)) (bs_param_lengths (bn_stream s))
                (bs_param_values_buffer (bn_stream s));
}.
(** Only the parameter values have changed. *)
Definition values_changed (types : list ArrowType) (P : list param_value -> list Z -> list Z -> Prop)
    (s s' : BnS) : Prop :=
  exists vs ls bf, s' = with_values s vs ls bf /\ params_ok types vs ls bf /\ P vs ls bf.

Lemma field_type types fields k field :
  map sv_type fields = types -> fields !! k = Some field -> types !! k = Some (sv_type field).
Proof. intros <- Hf. by rewrite list_lookup_fmap, Hf. Qed.

Lemma row_values_length types view row values :
  row_values types view row = Some values -> length values = length types.
Proof. intros Hr%mapM_Some%Forall2_length. by rewrite length_imap in Hr. Qed.
Lemma one_value type view row r :
  param_value_of view row 0 type = Some r -> row_values [type] view row = Some [r].
Proof. intros Hc. apply mapM_Some. constructor; [exact Hc|constructor]. Qed.
Lemma bind_param_spec types view row values k (s s1 : BnS) :
  ready types s -> row_values types view row = Some values -> (k < length types)%nat ->
  values_changed types (row_sent types values k) s s1 ->
  wp (bind_param view row (Z.of_nat k))
    (fun _ s' => values_changed types (row_sent types values (S k)) s s') (fun _ _ => False) s1.
Proof.
  intros [Hf Ho Ht _] Hrow Hk (vs & ls & bf & -> & Hok & Hsent).
  pose proof Hok as [Hvs Hls Hfix Hbf].
  destruct (lookup_lt_is_Some_2 types k Hk) as [t Htk].
  pose proof (row_values_length _ _ _ _ Hrow) as Hlen. apply mapM_Some in Hrow.
  destruct (lookup_lt_is_Some_2 values k) as [r Hr]; [lia|].
  pose proof (Forall2_lookup_lr _ _ _ k _ _ Hrow ltac:(rewrite list_lookup_imap, Htk; reflexivity) Hr) as Hcell.
  unfold id, param_value_of in Hcell.
  apply bind_Some in Hcell as (child & Hchild & Hcell). apply bind_Some in Hcell as (isn & Hnull & Hcell).
  destruct (lookup_lt_is_Some_2 ls k) as [n0 Hn0]; [lia|].
  unfold bind_param. apply wp_bind. eapply wp_lift_opt; [exact Hchild|].
  apply wp_bind. eapply wp_lift_opt; [exact Hnull|]. destruct isn.
  { injection Hcell as <-. unfold set_value, set_params, set_stream, the_stream. wp_steps.
    rewrite Nat2Z.id. exists (<[k := PNull]> vs), ls, bf. split; [done|].
    rewrite <- (list_insert_id ls k n0 Hn0). split.
    - eapply params_ok_insert; [done..|]. intros Hj. specialize (Hfix _ Hj). by simplify_eq.
    - eapply row_sent_extend; [done|lia|lia|done|constructor]. }
  unfold the_stream at 1. apply wp_bind, wp_gets, wp_bind. rewrite Nat2Z.id.
  assert (exists o, offsets_of types !! k = Some o) as [o Hok'].
  { apply lookup_lt_is_Some. destruct (value_offsets_spec 0 (map size_of types)) as [Hl _].
    { apply Forall_fmap, Forall_true. intros []; simpl; lia. }
    unfold offsets_of. rewrite Hl, length_map. done. }
  destruct (lookup_lt_is_Some_2 (bs_fields (bn_stream s)) k) as [field Hfield].
  { rewrite <- Hf, length_map in Hk. done. }
  pose proof (field_type _ _ _ _ Hf Hfield) as Hty. rewrite Htk in Hty. injection Hty as Hty.
  eapply wp_lift_opt; [simpl; by rewrite Ho|].
  unfold set_value, set_params, set_stream, the_stream. wp_steps. rewrite Nat2Z.id.
  eapply wp_lift_opt; [exact Hfield|]. rewrite <- Hty.
  destruct (Forall_lookup_1 _ _ _ _ Ht Htk) as [-> | ->].
  - apply bind_Some in Hcell as (v & Hv & Hcell). injection Hcell as <-.
    apply wp_bind. eapply wp_lift_opt; [exact Hv|]. apply wp_bind. simpl.
    destruct (value_offsets_spec 0 (map size_of types)) as (_ & _ & Hin & _).
    { apply Forall_fmap, Forall_true. intros []; simpl; lia. }
    destruct (Hin k o 8) as [Ho1 Ho2]; [done|by rewrite list_lookup_fmap, Htk|].
    assert (exists bf', write_at bf o (ToNetworkInt64 v) = Some bf') as [bf' Hw].
    { eexists. apply write_at_Some; [done|]. unfold ToNetworkInt64. rewrite zlen_be_bytes.
      unfold total_size in Hbf. lia. }
    eapply wp_lift_opt; [exact Hw|]. unfold set_values_buffer, set_params, set_stream, the_stream.
    wp_steps. exists (<[k := PBuffer o]> vs), ls, bf'. split; [done|].
    pose proof (Hfix _ Htk) as Hn8. rewrite <- (list_insert_id ls k 8 Hn8). split.
    + eapply params_ok_insert; [done| |done]. by eapply write_at_len.
    + eapply row_sent_extend; [by eapply row_sent_write|lia|lia|done|]. constructor; [done..|].
      pose proof (read_write_same _ _ _ _ Hw) as Hread. unfold ToNetworkInt64 in *.
      by rewrite zlen_be_bytes in Hread.
  - apply bind_Some in Hcell as (bytes & Hb & Hcell). destruct (Z.leb_spec (zlen bytes) INT32_MAX); [|done].
    apply wp_bind. eapply wp_lift_opt; [exact Hb|].
    unfold set_length_of, set_value, set_params, set_stream, the_stream. wp_steps. rewrite Nat2Z.id.
    pose proof (zlen_nonneg bytes). unfold INT32_MAX in *.
    replace (to_signed 32 (zlen bytes)) with (zlen bytes).
    2:{ symmetry. rewrite <- (Z.mod_small (zlen bytes) (2 ^ 32)) at 1 by lia. apply to_signed_id; lia. }
    rewrite list_insert_insert_eq.
    eexists _, _, bf. split; [reflexivity|]. split.
    + eapply params_ok_insert; [done..|]. rewrite Htk. done.
    + eapply row_sent_extend; [done|lia|lia|done|]. injection Hcell as <-.
      destruct (bv_data _); constructor.
Qed.

(** ** Calling the library *)
Definition with_pq (e : ErrorPtr) (d : pq) (s : BnS) : BnS := mkBnS e d (bn_stream s) (bn_rows s).

Lemma check_command_spec conn result messages (Q : unit -> BnS -> Prop) E s :
  (PQresultStatus result (bn_pq s) = PGRES_COMMAND_OK ->
   Q tt (with_pq (bn_error s) (PQclear result (bn_pq s)) s)) ->
  (PQresultStatus result (bn_pq s) <> PGRES_COMMAND_OK ->
   forall e, E ADBC_STATUS_IO (with_pq e (PQclear result (bn_pq s)) s)) ->
  wp (check_command conn result messages) Q E s.
Proof.
  intros HQ HE. unfold check_command, pq_ask, pq_do. wp_steps. unfold pq_of. simpl.
  destruct (Z.eqb_spec (PQresultStatus result (bn_pq s)) PGRES_COMMAND_OK) as [Hok|Hno]; simpl.
  { apply wp_modify. by apply HQ. }
  specialize (HE Hno). wp_steps.
  assert (forall ms e, wp (foldr (fun parts k => set_error parts ;; k) (mret tt) ms)
    (fun _ s' => exists e', s' = with_pq e' (bn_pq s) s) E (with_pq e (bn_pq s) s)) as Hms.
  { induction ms as [|m ms IH]; intros e; simpl; [apply wp_ret; by eexists|].
    apply wp_bind, wp_pg_set_error. intros e'. apply IH. }
  eapply wp_conseq; [destruct s; apply Hms|simpl|done].
  intros [] s' [e ->]. wp_steps. apply HE.
Qed.

(** Nothing but the parameter values, the error and the library has changed. *)
Definition same_stream (types : list ArrowType) (s s' : BnS) : Prop :=
  ready types s' /\ bn_error s' = bn_error s /\ bn_rows s' = bn_rows s /\
  bs_bind (bn_stream s') = bs_bind (bn_stream s) /\
  bs_schema (bn_stream s') = bs_schema (bn_stream s) /\
  bs_param_formats (bn_stream s') = bs_param_formats (bn_stream s).
Lemma same_stream_trans types s1 s2 s3 :
  same_stream types s1 s2 -> same_stream types s2 s3 -> same_stream types s1 s3.
Proof.
  intros (_ & ? & ? & ? & ? & ?) (? & ? & ? & ? & ? & ?). split_and!; by try congruence.
Qed.

(** The outcome of running some rows: [Q] if all were accepted. *)
Definition ran (conn : Z) (formats : list Z) (rows : list (list (option (list Z)))) (d : pq)
    (m : M BnS unit) (Q : BnS -> Prop) (s : BnS) : Prop :=
  wp m (fun _ s' => execute_all conn formats rows d = (true, bn_pq s') /\ Q s')
    (fun c s' => c = ADBC_STATUS_IO /\ execute_all conn formats rows d = (false, bn_pq s')) s.

Lemma execute_row_spec types conn view row values formats s :
  ready types s -> av_n_children view = zlen types -> row_values types view row = Some values ->
  bs_param_formats (bn_stream s) = formats ->
  ran conn formats [values] (bn_pq s) (execute_row conn view row) (same_stream types s) s.
Proof.
  intros Hready Hn Hrow Hfmt. unfold ran, execute_row. apply wp_bind.
  pose proof Hready as [Hf Ho Ht Hp].
  assert (length values = length types) as Hlen.
  { by eapply row_values_length. }
  eapply wp_conseq;
    [apply (wp_for_loop (fun i s' => values_changed types (row_sent types values (Z.to_nat i)) s s')
              _ 0 (bind_param view row) (fun _ _ => False))| |done].
  - exists (bs_param_values (bn_stream s)), (bs_param_lengths (bn_stream s)),
      (bs_param_values_buffer (bn_stream s)). split; [by destruct s as [? ? [] ?]|]. split; [done|].
    intros j Hj. lia.
  - intros i t Hi Hch. rewrite Hn in Hi. unfold zlen in Hi.
    replace (Z.to_nat (i + 1)) with (S (Z.to_nat i)) by lia.
    pose proof (bind_param_spec types view row values (Z.to_nat i) s t Hready Hrow ltac:(lia) Hch) as H1.
    by rewrite Z2Nat.id in H1 by lia.
  - intros [] s1 (vs & ls & bf & -> & Hok & Hsent). rewrite Hn in Hsent. unfold zlen in Hsent.
    replace (Z.to_nat (0 + Z.of_nat (Z.to_nat (Z.of_nat (length types) - 0)))) with (length types)
      in Hsent by lia.
    unfold the_stream. apply wp_bind, wp_gets, wp_bind. unfold sent_values. simpl.
    eapply wp_lift_opt; [by eapply row_sent_values|]. apply wp_bind. rewrite Hfmt.
    unfold wp, pq_call, pq_of. simpl.
    destruct (PQexecPrepared conn values formats 0 (bn_pq s)) as [result d1].
    pose proof (Build_ready types (with_pq (bn_error s) (PQclear result d1) (with_values s vs ls bf)) Hf Ho Ht Hok).
    apply check_command_spec; simpl; intros Hst.
    + rewrite Hst. split; [done|]. by split_and!.
    + intros e. split; [done|]. by rewrite (proj2 (Z.eqb_neq _ _) Hst).
Qed.

(** * All rows *)
Lemma ran_bind conn formats rows1 rows2 d (m1 : M BnS unit) (m2 : M BnS unit) P Q s :
  ran conn formats rows1 d m1 P s ->
  (forall s', P s' -> ran conn formats rows2 (bn_pq s') m2 Q s') ->
  ran conn formats (rows1 ++ rows2) d (m1 ;; m2) Q s.
Proof.
  intros H1 H2. unfold ran in *. apply wp_bind. rewrite execute_all_app.
  eapply wp_conseq; [exact H1| |]; simpl.
  - intros [] s' [He HP]. rewrite He. by apply H2.
  - intros c s' [-> He]. by rewrite He.
Qed.
Lemma execute_rows_spec types conn view formats rows n i s :
  ready types s -> av_n_children view = zlen types -> bs_param_formats (bn_stream s) = formats ->
  mapM (row_values types view) (seqZ i (Z.of_nat n)) = Some rows ->
  ran conn formats rows (bn_pq s) (for_loop n i (execute_row conn view)) (same_stream types s) s.
Proof.
  revert i rows s. induction n as [|n IH]; intros i rows s Hready Hn Hfmt Hrows; cbn [for_loop].
  { injection Hrows as <-. split; [done|]. by split_and!. }
  rewrite seqZ_cons in Hrows by lia. apply bind_Some in Hrows as (values & Hv & Hrows).
  apply bind_Some in Hrows as (rest & Hr & [= <-]).
  replace (Z.succ i) with (i + 1) in Hr by lia. replace (Z.pred (Z.of_nat (S n))) with (Z.of_nat n) in Hr by lia.
  change (values :: rest) with ([values] ++ rest). eapply ran_bind; [by eapply execute_row_spec|].
  intros s' Hs. pose proof Hs as (Hready' & _ & _ & _ & _ & Hfmt').
  eapply wp_conseq; [apply (IH (i + 1)); [done|done|congruence|done]| |done].
  intros [] s'' [He Hs']. split; [done|]. by eapply same_stream_trans.
Qed.
(** The same but for the number of affected rows. *)
Definition counted (n : Z) (types : list ArrowType) (s s' : BnS) : Prop :=
  ready types s' /\ bn_error s' = bn_error s /\ bn_rows s' = (fun r => r + n) <$> bn_rows s /\
  bs_bind (bn_stream s') = bs_bind (bn_stream s) /\
  bs_schema (bn_stream s') = bs_schema (bn_stream s) /\
  bs_param_formats (bn_stream s') = bs_param_formats (bn_stream s).

Lemma array_values_length types schema array rows :
  array_values types schema array = Some rows -> ar_length array = zlen rows.
Proof.
  intros (view & _ & Hv)%bind_Some. destruct (_ && _) eqn:E; [|done].
  apply andb_prop in E as [_ E]. apply Z.leb_le in E. unfold batch_values in Hv.
  apply mapM_Some, Forall2_length in Hv. rewrite length_seqZ in Hv. unfold zlen. lia.
Qed.
Lemma execute_batch_spec types conn array formats rows s :
  ready types s -> bs_param_formats (bn_stream s) = formats ->
  array_values types (bs_schema (bn_stream s)) array = Some rows ->
  (forall r, bn_rows s = Some r -> 0 <= r /\ r + zlen rows <= INT64_MAX) ->
  ran conn formats rows (bn_pq s) (execute_batch conn array) (counted (zlen rows) types s) s.
Proof.
  intros Hready Hfmt Hrows Hmax. pose proof (array_values_length _ _ _ _ Hrows) as Hlen.
  apply bind_Some in Hrows as (view & Hview & Hrows).
  destruct (_ && _) eqn:E; [|done]. apply andb_prop in E as [E _]. apply Z.eqb_eq in E.
  unfold batch_view in Hview.
  destruct (ArrowArrayViewInitFromSchema _ _) as [[] [view0 e0]|? []| |] eqn:E1; try done.
  destruct (ArrowArrayViewSetArray _ _) as [[] [view1 e1]|? []| |] eqn:E2; try done.
  injection Hview as ->. unfold ran, execute_batch, the_stream. apply wp_bind, wp_gets, wp_bind.
  unfold wp at 1, with_view at 1. rewrite E1. apply wp_bind.
  unfold wp at 1, with_view at 1.
  rewrite E2.
  apply wp_bind. rewrite Hlen. unfold batch_values, for_range in *. rewrite Hlen in Hrows.
  pose proof (zlen_nonneg rows).
  eapply wp_conseq; [apply (execute_rows_spec types conn view formats rows (Z.to_nat (zlen rows - 0)) 0 s); try done| |].
  { rewrite Z2Nat.id by lia. by rewrite Z.sub_0_r. }
  2:{ intros c s' [-> He]. by split. }
  intros [] s' [He (Hr & Herr & Hrw & Hb & Hs & Hf)]. apply wp_bind, wp_gets. rewrite Hrw.
  destruct (bn_rows s) as [r|] eqn:Er.
  - destruct (Hmax r eq_refl). apply wp_bind, wp_i64; [unfold INT64_MIN, INT64_MAX in *; lia|].
    unfold set_rows. apply wp_modify. simpl. split; [done|].
    split_and!; try done; [by destruct Hr|]. simpl. by rewrite Er.
  - apply wp_ret. split; [done|]. split_and!; try done. by rewrite Hrw, Er.
Qed.

(** The next batch, or the end. *)
Definition with_bind (bind : BindInput) (s : BnS) : BnS :=
  over bind_schema_lens (bind, bs_schema (bn_stream s)) s.
Lemma next_array_spec arrays s : batches_of (bs_bind (bn_stream s)) = Some arrays ->
  exists array bind, next_array s = Ret (0, array) (with_bind bind s) /\
    match arrays with
    | [] => ar_release array = false
    | a :: rest => array = a /\ ar_release a = true /\ batches_of bind = Some rest
    end.
Proof.
  intros Hb. unfold next_array. destruct (bs_bind (bn_stream s)) as [| |f|ov] eqn:E; [done|done| |]; simpl in Hb.
  - unfold bind_get_next. simpl. destruct (fs_next f) as [|[code a] rest] eqn:En; simpl in *.
    + injection Hb as <-. unfold mbind, M_bind, gets. simpl. rewrite En.
      by eexists _, (StreamForeign f).
    + destruct (Z.eqb_spec code 0) as [->|]; [|done].
      unfold mbind, M_bind, gets. simpl. rewrite En. simpl.
      exists a, (StreamForeign (mkForeign (fs_schema f) rest (fs_last_error f))). split; [done|].
      destruct (ar_release a) eqn:Er; [|by injection Hb as <-].
      destruct (foreign_batches rest) as [l|] eqn:El; [|done]. by injection Hb as <-.
  - injection Hb as <-.
    exists (ov_array ov), (StreamReader (OneValueStream_GetNext ov).2). split; [done|].
    destruct (ar_release (ov_array ov)) eqn:Er; [|done]. split_and!; [done..|].
    simpl. by destruct (ov_array ov).
Qed.
Lemma foreign_bounded next arrays :
  foreign_batches next = Some arrays -> (length arrays <= length next)%nat.
Proof.
  revert arrays. induction next as [|[code a] rest IH]; simpl; intros arrays; [by intros [= <-]|].
  destruct (_ =? _); [|done]. destruct (ar_release a); [|intros [= <-]; simpl; lia].
  destruct (foreign_batches rest) as [l|]; [|done]. intros [= <-]. specialize (IH l eq_refl). simpl. lia.
Qed.
Lemma batches_bounded stream arrays :
  batches_of stream = Some arrays -> (length arrays <= bind_remaining stream)%nat.
Proof.
  destruct stream as [| |f|ov]; simpl; [done|done|apply foreign_bounded|].
  destruct (ar_release _); intros [= <-]; simpl; lia.
Qed.

Lemma execute_batches_spec types conn formats fuel arrays rowss r0 s :
  ready types s -> bs_param_formats (bn_stream s) = formats ->
  batches_of (bs_bind (bn_stream s)) = Some arrays ->
  mapM (array_values types (bs_schema (bn_stream s))) arrays = Some rowss ->
  (length arrays < fuel)%nat -> 0 <= r0 -> r0 + zlen (mjoin rowss) <= INT64_MAX ->
  bn_rows s = (fun _ => r0) <$> bn_rows s ->
  ran conn formats (mjoin rowss) (bn_pq s) (execute_batches fuel conn)
    (fun s' => bn_error s' = bn_error s /\
       bn_rows s' = (fun _ => r0 + zlen (mjoin rowss)) <$> bn_rows s) s.
Proof.
  revert arrays rowss r0 s. induction fuel as [|fuel IH]; intros arrays rowss r0 s Hready Hfmt Hb Hrows
    Hfuel Hr0 Hmax Hr; [lia|]. cbn [execute_batches].
  destruct (next_array_spec arrays s Hb) as (array & bind & Hnext & Hcase).
  unfold ran. apply wp_bind. unfold wp at 1. rewrite Hnext. simpl negb. cbn iota.
  destruct arrays as [|a rest].
  { injection Hrows as <-. rewrite Hcase. apply wp_ret. split; [done|]. split; [done|].
    simpl. rewrite Hr at 1. by destruct (bn_rows s); simplify_eq/=; rewrite ?Z.add_0_r. }
  destruct Hcase as (-> & Hlive & Hrest). rewrite Hlive. simpl negb. cbn iota.
  apply bind_Some in Hrows as (rows & Hrows1 & Hrows). apply bind_Some in Hrows as (rowss' & Hrows2 & [= <-]).
  change (mjoin (rows :: rowss')) with (rows ++ mjoin rowss') in *. rewrite zlen_app in Hmax.
  pose proof (zlen_nonneg rows). pose proof (zlen_nonneg (mjoin rowss')).
  assert (ready types (with_bind bind s)) as Hready1 by by destruct Hready.
  eapply ran_bind; [apply (execute_batch_spec types conn a formats rows (with_bind bind s)); try done|].
  { intros r Er. simpl in Er. rewrite Er in Hr. injection Hr as ->. lia. }
  intros s' (Hr' & He' & Hn' & Hb' & Hs' & Hf'). simpl in *.
  eapply wp_conseq; [apply (IH rest rowss' (r0 + zlen rows) s')| |done]; try done.
  - congruence.
  - by rewrite Hb'.
  - by rewrite Hs'.
  - simpl in Hfuel. lia.
  - lia.
  - lia.
  - rewrite Hn', Hr. by destruct (bn_rows s).
  - intros [] s'' [? [He'' Hn'']]. split; [done|]. split; [congruence|].
    rewrite Hn'', Hn', zlen_app. destruct (bn_rows s); simpl; [|done]. f_equal. lia.
Qed.

(** * The types *)

(** The OID of a parameter's type; 0 if it has none. *)
Definition oid_of (m : TypeMapping) (type : ArrowType) : Z :=
  match param_type type with Some (pg_type, _) => GetOid pg_type m | None => 0 end.
Lemma set_param_types_spec m types n i s :
  map sv_type (bs_fields (bn_stream s)) = types -> Forall sendable types ->
  Forall (fun t => oid_of m t <> 0) types -> length types = (i + n)%nat ->
  set_param_types m n (Z.of_nat i) s =
    Ret (map (fun t => (oid_of m t, size_of t)) (drop i types)) s.
Proof.
  intros Hf Ht Ho. revert i. induction n as [|n IH]; intros i Hlen; cbn [set_param_types].
  { rewrite drop_ge by lia. done. }
  destruct (lookup_lt_is_Some_2 (bs_fields (bn_stream s)) i) as [field Hfield].
  { apply (f_equal length) in Hf. rewrite length_map in Hf. lia. }
  pose proof (field_type _ _ _ _ Hf Hfield) as Hti. rewrite (drop_S _ _ _ Hti).
  assert (set_param_type m (Z.of_nat i) s = Ret (oid_of m (sv_type field), size_of (sv_type field)) s) as H1.
  { unfold set_param_type, the_stream. unfold mbind at 1, M_bind at 1, gets. rewrite Nat2Z.id, Hfield.
    unfold mbind at 1, M_bind at 1, lift_opt. unfold mret at 1, M_ret at 1.
    pose proof (Forall_lookup_1 _ _ _ _ Ho Hti) as Hoid. simpl in Hoid. unfold oid_of in *.
    destruct (Forall_lookup_1 _ _ _ _ Ht Hti) as [He|He]; rewrite He in *; simpl in *;
      by rewrite (proj2 (Z.eqb_neq _ _)). }
  erewrite bind_ret by exact H1. replace (Z.of_nat i + 1) with (Z.of_nat (S i)) by lia.
  erewrite bind_ret by (apply IH; lia). done.
Qed.
Lemma zeros_ok types n : n = zlen types ->
  params_ok types (replicate (Z.to_nat n) PNull) (map size_of types)
    (replicate (Z.to_nat (total_size types)) 0).
Proof.
  intros ->. split.
  - rewrite length_replicate. unfold zlen. lia.
  - by rewrite length_map.
  - intros j Hj. by rewrite list_lookup_fmap, Hj.
  - destruct (value_offsets_spec 0 (map size_of types)) as (_ & ? & _).
    { apply Forall_fmap, Forall_true. intros []; simpl; lia. }
    rewrite zlen_replicate. unfold total_size. lia.
Qed.
(** The stream once its types are set. *)
Definition typed (m : TypeMapping) (types : list ArrowType) (s : BnS) : BnS :=
  let b := bn_stream s in
  mkBnS (bn_error s) (bn_pq s)
    (mkBind (bs_bind b) (bs_schema b) (bs_fields b) (map (oid_of m) types)
       (replicate (length types) PNull) (map size_of types)
       (replicate (length types) kPgBinaryFormat) (offsets_of types)
       (replicate (Z.to_nat (total_size types)) 0)) (bn_rows s).
Lemma set_param_types_run m types s :
  map sv_type (bs_fields (bn_stream s)) = types -> Forall sendable types ->
  Forall (fun t => oid_of m t <> 0) types -> sc_n_children (bs_schema (bn_stream s)) = zlen types ->
  BindStream_SetParamTypes m s = Ret tt (typed m types s).
Proof.
  intros Hf Ht Ho Hn. unfold BindStream_SetParamTypes, the_stream.
  unfold mbind at 1, M_bind at 1, gets.
  assert (length (bs_fields (bn_stream s)) = length types) as Hlen by (rewrite <- Hf; by rewrite length_map).
  erewrite bind_ret by (rewrite Hlen; by apply (set_param_types_spec m types (length types) 0)).
  rewrite drop_0, !map_map. simpl. unfold typed, offsets_of, total_size.
  change (map (fun x => size_of x) types) with (map size_of types).
  change (map (fun x => oid_of m x) types) with (map (oid_of m) types).
  destruct (value_offsets 0 (map size_of types)) as [os total].
  unfold set_params, set_stream, the_stream. unfold mbind, M_bind, gets, modify. simpl.
  rewrite Hn. unfold zlen. by rewrite Nat2Z.id.
Qed.
End send.

(** * The values of the format

    The code reads what the Arrow format defines. *)
Section format.
  Context `{Libc}.

Lemma param_value_format types schema array view row i t x r :
  types !! i = Some t -> sendable t -> column_types schema = Some types ->
  sc_n_children schema = zlen types -> servable types schema array -> batch_view schema array = Some view ->
  batch_cell array row i t = Some x -> sent_bytes x = Some r ->
  param_value_of view row i t = Some r.
Proof.
  intros Ht Hsend Htypes Hn [_ _ Hoff Hnum Htext] Hview Hx Hr. unfold batch_view in Hview.
  destruct (ArrowArrayViewInitFromSchema _ _) as [[] [v0 e0]|? []| |] eqn:E1; try done.
  destruct (ArrowArrayViewSetArray _ _) as [[] [v e]|? []| |] eqn:E2; try done. injection Hview as ->.
  destruct (batch_reads schema types array _ _ _ _ _ _ Htypes Hn E1 E2) as [_ Hreads].
  destruct (Hreads i t Ht) as (c & a & Hc & Ha & Hrd). pose proof (plain_types _ _ _ _ Htypes Ht) as Hpl.
  unfold batch_cell in Hx. rewrite Ha in Hx. simpl in Hx. rewrite Hoff, Z.add_0_l in Hx.
  unfold column_slot in Hx. apply bind_Some in Hx as (valid & Hvalid & Hx).
  unfold param_value_of. rewrite Hc. simpl. rewrite (reads_null c a t row Hrd Hpl valid Hvalid). simpl.
  destruct valid; simpl; [|injection Hx as <-; by injection Hr as <-].
  pose proof (slot_value_kind _ _ _ _ Hx) as Hkind.
  destruct Hsend as [-> | ->]; destruct x as [|z|bits|bytes]; simpl in Hkind; try done;
    try (by destruct Hkind); try (by destruct Hkind as [?|?]); simpl in Hr.
  - pose proof (reads_int c a _ row Hrd Hpl z true 8 eq_refl Hx) as Hz. simpl in Hz.
    unfold ArrowArrayViewGetIntUnsafe in Hz. rewrite (reads_index c a _ row Hrd), (rd_type _ _ _ Hrd) in Hz.
    simpl in Hz. rewrite (Hnum i a Ht Ha), Z.add_0_l in Hz. rewrite Hz. simpl. by injection Hr as <-.
  - rewrite (reads_text c a _ row Hrd Hpl bytes Hx). simpl. destruct (zlen bytes <=? INT32_MAX); [|done].
    injection Hr as <-. destruct (Htext i a Ht Ha) as [l Hl].
    rewrite (reads_block c a _ Hrd 2) in Hl; [|lia|done]. change (Z.of_nat 2) with 2 in Hl. by rewrite Hl.
Qed.
Lemma array_values_format types schema array rows :
  Forall sendable types -> column_types schema = Some types -> sc_n_children schema = zlen types ->
  servable types schema array -> array_rows types array = Some rows ->
  array_values types schema array = Some rows.
Proof.
  intros Hsend Htypes Hn Hserve (srows & Hs & Hr)%bind_Some. pose proof Hserve as [[view Hview] Hlen _ _ _].
  unfold array_values. rewrite Hview. simpl.
  assert (av_n_children view = zlen types) as ->.
  { unfold batch_view in Hview.
    destruct (ArrowArrayViewInitFromSchema _ _) as [[] [v0 e0]|? []| |] eqn:E1; try done.
    destruct (ArrowArrayViewSetArray _ _) as [[] [v e]|? []| |] eqn:E2; try done. injection Hview as ->.
    by destruct (batch_reads schema types array _ _ _ _ _ _ Htypes Hn E1 E2) as [? _]. }
  rewrite Z.eqb_refl, (proj2 (Z.leb_le _ _)) by done. simpl. unfold batch_values, batch_rows_from in *.
  rewrite Z.sub_0_r in Hs. apply mapM_Some in Hs, Hr. apply mapM_Some.
  pose proof (Forall2_length _ _ _ Hs). pose proof (Forall2_length _ _ _ Hr).
  apply Forall2_same_length_lookup_2; [lia|]. intros i row values Hi Hv.
  destruct (Forall2_lookup_r _ _ _ _ _ Hr Hv) as (srow & Hsi & Hvs).
  pose proof (Forall2_lookup_lr _ _ _ _ _ _ Hs Hi Hsi) as Hrow. unfold batch_row in Hrow.
  apply mapM_Some in Hrow, Hvs. unfold row_values. apply mapM_Some.
  pose proof (Forall2_length _ _ _ Hrow) as Hl1. pose proof (Forall2_length _ _ _ Hvs) as Hl2.
  rewrite length_imap in Hl1. apply Forall2_same_length_lookup_2; [rewrite length_imap; lia|].
  intros j p r Hj Hrj. rewrite list_lookup_imap in Hj. apply fmap_Some in Hj as (t & Ht & ->).
  destruct (Forall2_lookup_r _ _ _ _ _ Hvs Hrj) as (x & Hx & Hxr).
  pose proof (Forall2_lookup_lr _ _ _ j _ _ Hrow ltac:(rewrite list_lookup_imap, Ht; reflexivity) Hx) as Hcell.
  unfold id in *. eapply param_value_format; try done. by eapply Forall_lookup_1.
Qed.
Lemma stream_values_format types schema stream rows :
  Forall sendable types -> column_types schema = Some types -> sc_n_children schema = zlen types ->
  (forall arrays, batches_of stream = Some arrays -> Forall (servable types schema) arrays) ->
  stream_rows types stream = Some rows -> stream_values types schema stream = Some rows.
Proof.
  intros Hsend Htypes Hn Hserve (arrays & Ha & (rowss & Hr & ->)%fmap_Some)%bind_Some. specialize (Hserve _ Ha).
  unfold stream_values. rewrite Ha. simpl. assert (mapM (array_values types schema) arrays = Some rowss) as ->; [|done].
  apply mapM_Some in Hr. apply mapM_Some. clear Ha. induction Hr as [|a rs arrays rowss H1 _ IH]; [constructor|].
  apply Forall_cons in Hserve as [Hs1 Hs2]. constructor; [by apply array_values_format|by apply IH].
Qed.
End format.

Section properties.
  Context `{Libc} `{Libpq}.

(** C10: Executing with bound parameters sends every row of the stream exactly once, in order,
    under the types' OIDs: across the batches (a bound array, or a foreign stream), preparing
    and running equals the reference that prepares the query and runs it on the rows' values
    one after the other, on success and on a refusal, which is reported as IO and stops it.
    The values are those the Arrow format gives the rows: NULL exactly where the validity bitmap
    says so, read from the buffers under the types of the schema's format strings.  The arrays
    are not slices and text columns have a block of text; the other arrays are findings.  The
    values of a row share one buffer without overlap, NULLs and texts of different length leave
    no trace in the next row, the number of affected rows is the number of rows, and the loop
    ends. *)
Theorem bound_rows_sent (types : list ArrowType) (m : TypeMapping) (conn : Z) (query : string)
  (rows : list (list (option (list Z)))) (s : BnS)
  (Hfields : map sv_type (bs_fields (bn_stream s)) = types) (Htypes : Forall sendable types)
  (Hcolumns : column_types (bs_schema (bn_stream s)) = Some types)
  (Hchildren : sc_n_children (bs_schema (bn_stream s)) = zlen types)
  (Hoids : Forall (fun t => oid_of m t <> 0) types)
  (Hserve : forall arrays, batches_of (bs_bind (bn_stream s)) = Some arrays ->
     Forall (servable types (bs_schema (bn_stream s))) arrays)
  (Hrows : stream_rows types (bs_bind (bn_stream s)) = Some rows)
  (Hmax : zlen rows <= INT64_MAX) :
  wp (BindStream_SetParamTypes m ;; BindStream_Prepare conn query ;; BindStream_Execute conn)
    (fun _ s' =>
       prepare_and_execute conn query (map (oid_of m) types) (length types) rows (bn_pq s) =
         (true, bn_pq s') /\
       bn_rows s' = (fun _ => zlen rows) <$> bn_rows s /\ bn_error s' = bn_error s)
    (fun c s' => c = ADBC_STATUS_IO /\
       prepare_and_execute conn query (map (oid_of m) types) (length types) rows (bn_pq s) =
         (false, bn_pq s')) s.
Proof.
  apply (stream_values_format types (bs_schema (bn_stream s))) in Hrows; [|done..].
  apply wp_bind. unfold wp at 1. rewrite (set_param_types_run m types) by done.
  apply wp_bind. unfold BindStream_Prepare, the_stream. apply wp_bind, wp_gets, wp_bind.
  unfold wp at 1, pq_call, pq_of, prepare_and_execute. simpl.
  destruct (PQprepare conn query (map (oid_of m) types) (bn_pq s)) as [result d1].
  apply check_command_spec; simpl; intros Hst.
  2:{ intros e. split; [done|]. by rewrite (proj2 (Z.eqb_neq _ _) Hst). }
  rewrite Hst. simpl. unfold BindStream_Execute, set_rows, the_stream.
  apply wp_bind, wp_gets, wp_bind, wp_modify, wp_bind, wp_gets.
  unfold stream_values in Hrows. apply bind_Some in Hrows as (arrays & Hb & Hrows).
  apply fmap_Some in Hrows as (rowss & Hrows & ->).
  eapply wp_conseq;
    [eapply (execute_batches_spec types conn (replicate (length types) kPgBinaryFormat) _ arrays rowss 0)| |done].
  - split; [done..|]. simpl.
    pose proof (zeros_ok types _ Hchildren) as Hz. rewrite Hchildren in Hz. unfold zlen in Hz.
    by rewrite Nat2Z.id in Hz.
  - done.
  - done.
  - done.
  - simpl. pose proof (batches_bounded _ _ Hb). lia.
  - lia.
  - lia.
  - simpl. by destruct (bn_rows s).
  - intros [] s' [He [Herr Hn]]. simpl in *. split; [done|]. split; [|done].
    rewrite Hn. by destruct (bn_rows s).
Qed.

(** The numbers of a sliced array are read at the wrong place.  Row [row] of a BIGINT column
    is sent as the value that belongs to row [row - offset], while whether it is NULL is looked
    up where it should be; so an array with an offset inserts values of other rows. *)
Theorem sliced_numbers_shifted (conn row v : Z) (view child : ArrowArrayView) (a : ArrowArray)
  (s : BnS) (Hready : ready [TYPE_INT64] s) (Hcolumns : av_n_children view = 1)
  (Hchild : view_child view 0 = Some child) (Harray : av_array child = Some a)
  (Htype : av_storage_type child = TYPE_INT64)
  (Hvalid : ArrowArrayViewIsNull child row = Some false)
  (Hother : ArrowArrayViewGetIntUnsafe child (row - ar_offset a) = Some v) :
  ran conn (bs_param_formats (bn_stream s)) [[Some (be_bytes 8 v)]] (bn_pq s)
    (execute_row conn view row) (same_stream [TYPE_INT64] s) s.
Proof.
  apply execute_row_spec; [done|done| |done]. apply one_value. unfold param_value_of.
  change (Z.of_nat 0) with 0. rewrite Hchild. simpl. rewrite Hvalid. simpl. unfold ArrowArrayViewGetIntUnsafe, view_index in Hother.
  rewrite Harray, Htype in Hother. simpl in Hother. rewrite Z.sub_add in Hother. by rewrite Hother.
Qed.

(** Empty texts become NULLs when the column has no data block, which is how an array of
    empty texts may come: the parameter is the null data pointer, and for libpq that is NULL. *)
Theorem empty_texts_null (conn row : Z) (view child : ArrowArrayView) (s : BnS)
  (Hready : ready [TYPE_STRING] s) (Hcolumns : av_n_children view = 1)
  (Hchild : view_child view 0 = Some child)
  (Hvalid : ArrowArrayViewIsNull child row = Some false)
  (Hempty : ArrowArrayViewGetBytesUnsafe child row = Some [])
  (Hdata : bv_data (buffer_view child 2) = None) :
  ran conn (bs_param_formats (bn_stream s)) [[None]] (bn_pq s)
    (execute_row conn view row) (same_stream [TYPE_STRING] s) s.
Proof.
  apply execute_row_spec; [done|done| |done]. apply one_value. unfold param_value_of.
  change (Z.of_nat 0) with 0. rewrite Hchild. simpl. rewrite Hvalid. simpl. rewrite Hempty. simpl. by rewrite Hdata.
Qed.
End properties.

(** * Instances

    A bound array of two rows: 7 and "hi", NULL and the empty text. *)
#[local] Existing Instance host.
Definition example_field (format name : string) : option ArrowSchema :=
  Some (mkSchema (Some format) (Some name) None 2 0 None None true false).
Definition example_schema (fields : list (option ArrowSchema)) : ArrowSchema :=
  mkSchema (Some "+s"%string) (Some ""%string) None 0 (zlen fields) (Some fields) None true false.
Definition example_column (offset length : Z) (buffers : list (option (list Z))) : option ArrowArray :=
  Some (mkArray length (-1) offset (zlen buffers) 0 buffers None None true None false).
Definition example_array (length : Z) (columns : list (option ArrowArray)) : ArrowArray :=
  mkArray length 0 0 1 (zlen columns) [None] (Some columns) None true None false.
Definition example_params : @BnS PgMock.mock :=
  let schema := example_schema [example_field "l" "a"; example_field "u" "b"] in
  let array := example_array 2
    [example_column 0 2 [Some [1]; Some (flat_map (le_bytes 8) [7; 0])];
     example_column 0 2 [None; Some (flat_map (le_bytes 4) [0; 2; 2]); Some [104; 105]]] in
  @mkBnS PgMock.mock None
    (PgMock.start [("INSERT"%string, PgMock.command PGRES_COMMAND_OK)])
    (mkBind (StreamReader (mkOneValue schema array)) schema (example_fields example_types)
       [] [] [] [] [] []) (Some 0).
Definition example_mapping : TypeMapping :=
  Insert 20 "int8" "int8recv" (Insert 25 "text" "textrecv" empty_mapping).
Definition example_sent : list (list (option (list Z))) :=
  [[Some [0; 0; 0; 0; 0; 0; 0; 7]; Some [104; 105]]; [None; Some []]].
Lemma bound_rows_sent_witness :
  let run := @prepare_and_execute PgMock.mock 1 "INSERT" [20; 25] 2 example_sent (bn_pq example_params) in
  wp (BindStream_SetParamTypes example_mapping ;; BindStream_Prepare 1 "INSERT" ;; BindStream_Execute 1)
    (fun _ s' => run = (true, bn_pq s') /\ bn_rows s' = Some 2 /\ bn_error s' = None)
    (fun c s' => c = ADBC_STATUS_IO /\ run = (false, bn_pq s')) example_params.
Proof.
  apply (@bound_rows_sent host PgMock.mock example_types example_mapping 1 "INSERT" example_sent
    example_params); [reflexivity| |reflexivity|reflexivity| | |vm_compute; reflexivity|vm_compute; discriminate].
  - constructor; [by left|constructor; [by right|constructor]].
  - repeat constructor; vm_compute; discriminate.
  - intros arrays [= <-]. repeat constructor.
    + eexists. vm_compute. reflexivity.
    + vm_compute. discriminate.
    + intros [|[|i]] a; simpl; try done. by intros _ [= <-].
    + intros [|[|i]] a; simpl; try done. intros _ [= <-]. by eexists.
Defined.

(** A slice of [7; 8; 9] without its first element, and an array of one empty text. *)
Definition example_ready (types : list ArrowType) : @BnS PgMock.mock :=
  let s := example_params in
  typed (H0 := PgMock.mock) example_mapping types
    (@mkBnS PgMock.mock (bn_error s) (bn_pq s)
       (mkBind StreamReleased zero_schema (example_fields types) [] [] [] [] [] []) (bn_rows s)).
Definition example_view (format : string) (column : option ArrowArray) : ArrowArrayView :=
  default zero_view (batch_view (example_schema [example_field format "a"]) (example_array 1 [column])).
Definition sliced : ArrowArrayView :=
  example_view "l" (example_column 1 2 [None; Some (flat_map (le_bytes 8) [7; 8; 9])]).
Definition empty_text : ArrowArrayView :=
  example_view "u" (example_column 0 1 [None; Some (flat_map (le_bytes 4) [0; 0]); None]).
Lemma example_ready_ok type : sendable type -> ready (H0 := PgMock.mock) [type] (example_ready [type]).
Proof.
  intros Hs. split; [reflexivity|reflexivity|by constructor|].
  apply (zeros_ok [type] 1). reflexivity.
Qed.
Definition only_child (view : ArrowArrayView) : ArrowArrayView :=
  default zero_view (view_child view 0).
Lemma sliced_numbers_shifted_witness :
  let s := example_ready [TYPE_INT64] in
  @ran PgMock.mock 1 (bs_param_formats (bn_stream s)) [[Some (be_bytes 8 7)]] (bn_pq s)
    (execute_row 1 sliced 0) (same_stream [TYPE_INT64] s) s.
Proof.
  intros s. apply (@sliced_numbers_shifted PgMock.mock 1 0 7 sliced (only_child sliced)
    (default zero_array (av_array (only_child sliced))) s); [|vm_compute; reflexivity..].
  apply example_ready_ok. by left.
Defined.
Lemma empty_texts_null_witness :
  let s := example_ready [TYPE_STRING] in
  @ran PgMock.mock 1 (bs_param_formats (bn_stream s)) [[None]] (bn_pq s)
    (execute_row 1 empty_text 0) (same_stream [TYPE_STRING] s) s.
Proof.
  intros s. apply (@empty_texts_null PgMock.mock 1 0 empty_text (only_child empty_text) s);
    [|vm_compute; reflexivity..].
  apply example_ready_ok. by right.
Defined.
