(* ===== verification/PgStatement.v ===== *)
(** The PostgreSQL driver, part four: statements ([PostgresStatement] of
    c/driver/postgresql/statement.cc, statement.h) and the result streams they export. *)
From stdpp Require Import base tactics list numbers option strings gmap.
From Stdlib Require Import ZArith Lia Ascii.
From S2P Require Import Prelude CLib Buffer Schema SchemaView Array ArrayView Adbc Utils Postgres PgReader PgBind.

(** * Data

    [ps_connection] and [ps_type_mapping] are the shared pointers: the connection, and the
    database whose type mapping it is.  A result stream's private data is the reader inside
    the statement that exported it, so the stream only tells that it has one. *)
Record PostgresStatement := mkStatement {
  ps_type_mapping : option nat;
  ps_connection : option nat;
  ps_query : string;
  ps_prepared : bool;
  ps_bind : BindInput;
  ps_target : string;
  ps_append : bool;
  ps_reader : TupleReader;
}.
Definition new_statement : PostgresStatement :=
  mkStatement None None "" false StreamReleased "" false (new_reader 0).
Definition TupleStream := ArrowArrayStream unit.

(** The heap, the statement, the caller's [*stream] and [*rows_affected] ([None]: a null
    pointer). *)
Record ES `{Libpq} := mkES {
  es_heap : Heap;
  es_stmt : PostgresStatement;
  es_stream : option TupleStream;
  es_rows : option Z;
}.
Arguments mkES {_} es_heap es_stmt es_stream es_rows.
Definition es_heap_lens `{Libpq} : Lens ES Heap :=
  mkLens es_heap (fun h s => mkES h (es_stmt s) (es_stream s) (es_rows s)).
#[export] Instance HasError_ES `{Libpq} : HasError ES := lens_comp es_heap_lens error_lens.
#[export] Instance HasPq_ES `{Libpq} : HasPq ES := lens_comp es_heap_lens pq_lens.

Section statement.
  Context `{Libc} `{Libpq}.

Definition the_statement : M ES PostgresStatement := gets es_stmt.
Definition set_statement (t : PostgresStatement) : M ES unit :=
  modify (fun s => mkES (es_heap s) t (es_stream s) (es_rows s)).
Definition set_bind (bind : BindInput) : M ES unit :=
  t ← the_statement;
  set_statement (mkStatement (ps_type_mapping t) (ps_connection t) (ps_query t) (ps_prepared t) bind
    (ps_target t) (ps_append t) (ps_reader t)).
Definition set_texts (query target : string) (prepared append : bool) : M ES unit :=
  t ← the_statement;
  set_statement (mkStatement (ps_type_mapping t) (ps_connection t) query prepared (ps_bind t)
    target append (ps_reader t)).
Definition reader_lens : Lens ES TupleReader :=
  mkLens (fun s => ps_reader (es_stmt s))
    (fun r s => let t := es_stmt s in mkES (es_heap s)
       (mkStatement (ps_type_mapping t) (ps_connection t) (ps_query t) (ps_prepared t) (ps_bind t)
          (ps_target t) (ps_append t) r) (es_stream s) (es_rows s)).
Definition schema_lens : Lens ES ArrowSchema :=
  lens_comp reader_lens (mkLens tr_schema tr_set_schema).
Definition set_rows_affected (n : Z) : M ES unit :=
  modify (fun s => mkES (es_heap s) (es_stmt s) (es_stream s) ((fun _ => n) <$> es_rows s)).

(** [connection_->conn()]; undefined for a statement without a connection. *)
Definition statement_conn : M ES Z :=
  t ← the_statement;
  i ← lift_opt (ps_connection t);
  c ← zoom es_heap_lens (connection i);
  mret (pc_conn c).
(** [*type_mapping_] *)
Definition statement_types : M ES TypeMapping :=
  t ← the_statement;
  i ← lift_opt (ps_type_mapping t);
  db ← zoom es_heap_lens (database i);
  mret (pd_type_mapping db).

(** * Results *)

(** The Arrow type of a column, where there is one. *)
Definition column_type (t : PgType) : option ArrowType :=
  match t with
  | kBool => Some TYPE_BOOL
  | kFloat4 => Some TYPE_FLOAT
  | kFloat8 => Some TYPE_DOUBLE
  | kInt2 => Some TYPE_INT16
  | kInt4 => Some TYPE_INT32
  | kInt8 => Some TYPE_INT64
  | kVarBinary => Some TYPE_BINARY
  | kText | kVarChar => Some TYPE_STRING
  | _ => None
  end.
Definition infer_column (types : TypeMapping) (result i : Z) : M ES unit :=
  pg_type ← pq_ask (PQftype result i);
  name ← pq_ask (PQfname result i);
  let refuse what := raise ADBC_STATUS_NOT_IMPLEMENTED
    ["Column #"%string; fmt_Z (i + 1); " ("%string; quote; name; quote; what; fmt_Z pg_type] in
  match type_mapping types !! pg_type with
  | None => refuse ") has unknown type code "%string
  | Some t =>
      match column_type t with
      | None => refuse ") has unimplemented type code "%string
      | Some field_type =>
          CHECK_NA_ADBC "ArrowSchemaSetType(out->children[i], field_type)"
            (zoom schema_lens (Schema.on_child i (ArrowSchemaSetType field_type))) ;;
          CHECK_NA_ADBC "ArrowSchemaSetName(out->children[i], PQfname(result, i))"
            (zoom schema_lens (Schema.on_child i (ArrowSchemaSetName (Some name))))
      end
  end.
Definition InferSchema (types : TypeMapping) (result : Z) : M ES unit :=
  num_fields ← pq_ask (PQnfields result);
  zoom schema_lens ArrowSchemaInit ;;
  CHECK_NA_ADBC "ArrowSchemaSetTypeStruct(out, num_fields)"
    (zoom schema_lens (ArrowSchemaSetTypeStruct num_fields)) ;;
  for_range 0 num_fields (infer_column types result).

Definition ClearResult : M ES unit := TupleReader_Release reader_lens.

(** * Binding, options *)
Definition Statement_New (connection : option nat) : M ES unit :=
  match connection with
  | None => raise ADBC_STATUS_INVALID_ARGUMENT ["Must provide an initialized AdbcConnection"%string]
  | Some i =>
      c ← zoom es_heap_lens (Postgres.connection i);
      t ← the_statement;
      let r := ps_reader t in
      set_statement (mkStatement (pc_database c) (Some i) (ps_query t) (ps_prepared t) (ps_bind t)
        (ps_target t) (ps_append t)
        (mkTuple (pc_conn c) (tr_result r) (tr_pgbuf r) (tr_schema r) (tr_last_error r)))
  end.

(** [if (bind_.release) bind_.release(&bind_);] *)
Definition release_bind : M ES unit :=
  t ← the_statement;
  when (stream_live (ps_bind t))
    (match bind_release (ps_bind t) with
     | Ret _ bind => set_bind bind
     | _ => undef
     end).
(** The caller's structs are moved from and zeroed. *)
Definition Statement_Bind : M (ES * (ArrowArray * ArrowSchema)) unit :=
  '(values, schema) ← gets snd;
  if negb (ar_release values) then
    raise ADBC_STATUS_INVALID_ARGUMENT ["Must provide non-NULL array"%string]
  else if negb (sc_release schema) then
    raise ADBC_STATUS_INVALID_ARGUMENT ["Must provide non-NULL schema"%string]
  else
  zoom fst_lens release_bind ;;
  zoom fst_lens (set_bind (StreamReader (mkOneValue schema values))) ;;
  modify (fun p => (p.1, (zero_array, zero_schema))).
Definition Statement_BindStream : M (ES * BindInput) unit :=
  stream ← gets snd;
  if negb (stream_live stream) then
    raise ADBC_STATUS_INVALID_ARGUMENT ["Must provide non-NULL stream"%string]
  else
  zoom fst_lens release_bind ;;
  zoom fst_lens (set_bind stream) ;;
  modify (fun p => (p.1, StreamReleased)).

Definition Statement_SetSqlQuery (query : string) : M ES unit :=
  t ← the_statement; set_texts query "" false (ps_append t).
Definition Statement_SetOption (key value : string) : M ES unit :=
  t ← the_statement;
  if streq key ADBC_INGEST_OPTION_TARGET_TABLE then
    set_texts "" value (ps_prepared t) (ps_append t)
  else if streq key ADBC_INGEST_OPTION_MODE then
    if streq value ADBC_INGEST_OPTION_MODE_CREATE then
      set_texts (ps_query t) (ps_target t) (ps_prepared t) false
    else if streq value ADBC_INGEST_OPTION_MODE_APPEND then
      set_texts (ps_query t) (ps_target t) (ps_prepared t) true
    else
      raise ADBC_STATUS_INVALID_ARGUMENT
        ["Invalid value "%string; value; " for option "%string; key]
  else raise ADBC_STATUS_NOT_IMPLEMENTED ["Unknown statement option "%string; key].
(** Nothing is sent to the server before execution. *)
Definition Statement_Prepare : M ES unit :=
  t ← the_statement;
  if streq (ps_query t) "" then
    raise ADBC_STATUS_INVALID_STATE ["Must SetSqlQuery() before Prepare()"%string]
  else set_texts (ps_query t) (ps_target t) true (ps_append t).
Definition Statement_GetParameterSchema : M ES unit := exit ADBC_STATUS_NOT_IMPLEMENTED.
Definition Statement_Release : M ES unit := ClearResult ;; release_bind.

(** * Execution *)

(** [BindStream bind_stream(std::move(bind_)); memset(&bind_, 0, sizeof(bind_));] and what is
    done with it. *)
Definition on_bind_stream (bind : BindInput) (m : M BnS unit) : M ES unit := fun s =>
  let h := es_heap s in
  let back (b : BnS) :=
    mkES (mkHeap (bn_error b) (bn_pq b) (hp_databases h) (hp_connections h)) (es_stmt s)
      (es_stream s) (bn_rows b) in
  match m (mkBnS (hp_error h) (hp_pq h) (new_bind_stream bind) (es_rows s)) with
  | Ret _ b => Ret tt (back b)
  | Exit code b => Exit code (back b)
  | Undef => Undef
  | NoFuel => NoFuel
  end.
Definition with_bind_stream (m : M BnS unit) : M ES unit :=
  t ← the_statement; set_bind StreamReleased ;; on_bind_stream (ps_bind t) m.

Definition sql_type (type : ArrowType) : option string :=
  match type with
  | TYPE_INT16 => Some " SMALLINT"%string
  | TYPE_INT32 => Some " INTEGER"%string
  | TYPE_INT64 => Some " BIGINT"%string
  | TYPE_STRING => Some " TEXT"%string
  | _ => None
  end.
Definition separator (i : Z) : string := if 0 <? i then ", " else "".
(** The column definitions from field [i] on. *)
Fixpoint table_columns (fields : list ArrowSchemaView) (i : Z) : M BnS string :=
  match fields with
  | [] => mret ""%string
  | field :: r =>
      name ← bind_name i;
      match sql_type (sv_type field) with
      | None =>
          raise ADBC_STATUS_NOT_IMPLEMENTED
            ["Field #"%string; fmt_Z (i + 1); " ('"%string; name;
             "') has unsupported type for ingestion "%string; fmt_Z (type_code (sv_type field))]
      | Some type =>
          rest ← table_columns r (i + 1);
          mret (separator i +:+ name +:+ type +:+ rest)%string
      end
  end.
Definition CreateBulkTable (conn : Z) (target : string) : M BnS unit :=
  b ← the_stream;
  columns ← table_columns (bs_fields b) 0;
  let create := ("CREATE TABLE " +:+ target +:+ " (" +:+ columns +:+ ")")%string in
  set_error [create] ;;
  result ← pq_call (PQexecParams conn create 1);
  check_command conn result (fun message =>
    [["Failed to create table: "%string; message]; ["Query: "%string; create]]).

(** ["$1, $2, ..."], [n] of them from [i] on. *)
Fixpoint placeholders (n : nat) (i : Z) : string :=
  match n with
  | O => ""
  | S n' => separator i +:+ "$" +:+ fmt_Z (i + 1) +:+ placeholders n' (i + 1)
  end.
Definition insert_text (target : string) (n : nat) : string :=
  "INSERT INTO " +:+ target +:+ " VALUES (" +:+ placeholders n 0 +:+ ")".

Definition ExecutePreparedStatement : M ES unit :=
  t ← the_statement;
  stream ← gets es_stream;
  if negb (stream_live (ps_bind t)) then
    raise ADBC_STATUS_NOT_IMPLEMENTED
      ["Prepared statements without parameters are not implemented"%string]
  else if bool_decide (is_Some stream) then
    raise ADBC_STATUS_NOT_IMPLEMENTED
      ["Prepared statements returning result sets are not implemented"%string]
  else
  types ← statement_types;
  conn ← statement_conn;
  with_bind_stream (
    BindStream_Begin (mret tt) ;;
    BindStream_SetParamTypes types ;;
    BindStream_Prepare conn (ps_query t) ;;
    BindStream_Execute conn).

Definition ExecuteUpdateBulk : M ES unit :=
  t ← the_statement;
  if negb (stream_live (ps_bind t)) then
    raise ADBC_STATUS_INVALID_STATE ["Must Bind() before Execute() for bulk ingestion"%string]
  else
  types ← statement_types;
  conn ← statement_conn;
  with_bind_stream (
    BindStream_Begin (if negb (ps_append t) then CreateBulkTable conn (ps_target t) else mret tt) ;;
    BindStream_SetParamTypes types ;;
    b ← the_stream;
    BindStream_Prepare conn (insert_text (ps_target t) (length (bs_fields b))) ;;
    BindStream_Execute conn).

Definition ExecuteUpdateQuery : M ES unit :=
  t ← the_statement;
  if streq (ps_query t) "" then
    raise ADBC_STATUS_INVALID_STATE ["Must SetSqlQuery before ExecuteQuery"%string]
  else
  conn ← statement_conn;
  result ← pq_call (if ps_prepared t then PQexecPrepared conn [] [] kPgBinaryFormat
                    else PQexecParams conn (ps_query t) kPgBinaryFormat);
  status ← pq_ask (PQresultStatus result);
  if negb (status =? PGRES_COMMAND_OK) then
    set_error ["Query was: "%string; ps_query t] ;;
    message ← pq_ask (PQerrorMessage conn);
    set_error ["Failed to execute query: "%string; message] ;;
    pq_do (PQclear result) ;;
    exit ADBC_STATUS_IO
  else
  n ← pq_ask (PQntuples (tr_result (ps_reader t)));
  set_rows_affected n ;;
  pq_do (PQclear result).

Definition schema_query (query : string) : string :=
  "SELECT * FROM (" +:+ query +:+ ") AS ignored LIMIT 0".
Definition copy_query (query : string) : string :=
  "COPY (" +:+ query +:+ ") TO STDOUT (FORMAT binary)".
(** The error of a query the server did not answer as expected. *)
Definition query_failed (query what : string) (clear : M ES unit) : M ES unit :=
  conn ← statement_conn;
  set_error ["Query was: "%string; query] ;;
  message ← pq_ask (PQerrorMessage conn);
  set_error [what; message] ;;
  clear ;;
  exit ADBC_STATUS_IO.
(** First the schema, then the rows. *)
Definition execute_to_stream : M ES unit :=
  t ← the_statement;
  let query := ps_query t in
  if streq query "" then
    raise ADBC_STATUS_INVALID_STATE ["Must SetSqlQuery before ExecuteQuery"%string]
  else
  conn ← statement_conn;
  result ← pq_call (PQexecParams conn query kPgBinaryFormat);
  status ← pq_ask (PQresultStatus result);
  if negb (status =? PGRES_TUPLES_OK) then
    query_failed (schema_query query) "Failed to execute query: could not infer schema: "
      (pq_do (PQclear result))
  else
  types ← statement_types;
  status ← catch (InferSchema types result);
  pq_do (PQclear result) ;;
  return_code status ;;
  result ← pq_call (PQexecParams conn (copy_query query) kPgBinaryFormat);
  modify (fun s => over reader_lens (tr_set_result result (view reader_lens s)) s) ;;
  status ← pq_ask (PQresultStatus result);
  if negb (status =? PGRES_COPY_OUT) then
    query_failed (copy_query query) "Failed to execute query: could not begin COPY: " ClearResult
  else
  (* reader_.ExportTo(stream) *)
  modify (fun s => mkES (es_heap s) (es_stmt s) (Some (StreamReader tt)) (es_rows s)) ;;
  set_rows_affected (-1).

Definition Statement_ExecuteQuery : M ES unit :=
  ClearResult ;;
  t ← the_statement;
  stream ← gets es_stream;
  let has_stream := bool_decide (is_Some stream) in
  if ps_prepared t && (stream_live (ps_bind t) || negb has_stream) then ExecutePreparedStatement
  else if negb has_stream then
    if negb (streq (ps_target t) "") then ExecuteUpdateBulk else ExecuteUpdateQuery
  else execute_to_stream.

(** * The result stream's callbacks

    On the reader of the statement and the stream. *)
Definition GetSchemaTrampoline : M ((TupleReader * ArrowSchema) * TupleStream) unit :=
  self ← gets snd;
  match self with
  | StreamReader _ => zoom fst_lens TupleReader_GetSchema
  | _ => exit EINVAL
  end.
Definition GetNextTrampoline (fuel : nat) : M (TS * TupleStream) unit :=
  self ← gets snd;
  match self with
  | StreamReader _ => zoom fst_lens (TupleReader_GetNext fuel)
  | _ => exit EINVAL
  end.
Definition GetLastErrorTrampoline (reader : TupleReader) (self : TupleStream) : option string :=
  match self with
  | StreamReader _ => Some (tr_last_error reader)
  | _ => None
  end.
Definition ReleaseTrampoline : M (TS * TupleStream) unit :=
  self ← gets snd;
  match self with
  | StreamReader _ =>
      zoom fst_lens (TupleReader_Release
        (mkLens ts_reader (fun r s => mkTS (ts_pq s) r (ts_out s)))) ;;
      modify (fun p => (p.1, StreamReleased))
  | _ => mret tt
  end.
End statement.
