(* ===== verification/PgExecute.v ===== *)
(** Executing statements in the PostgreSQL driver (PgStatement.v): how a query is sent and what
    its result's schema is, what an update reports, and which tables bulk ingestion creates. *)
From stdpp Require Import base tactics list numbers option strings gmap.
From Stdlib Require Import ZArith Lia Ascii.
From S2P Require Import Prelude CLib Buffer Schema SchemaView Array ArrayView Adbc Utils Postgres PgReader PgCopy PgBind PgSend PgStatement.

(** * The schema of a result *)
Definition column_schema (col : string * ArrowType) : option ArrowSchema :=
  Some (mkSchema (ArrowSchemaFormatTemplate col.2) (Some col.1) None ARROW_FLAG_NULLABLE 0 None None
          true false).
Definition result_schema (cols : list (string * ArrowType)) : ArrowSchema :=
  mkSchema (Some "+s"%string) None None ARROW_FLAG_NULLABLE (zlen cols)
    (match cols with [] => None | _ => Some (map column_schema cols) end) None true false.

Section infer.
  Context `{Libc} `{Libpq}.

(** The library describes these columns. *)
Definition described (types : TypeMapping) (result : Z) (d : pq) (cols : list (string * ArrowType))
    : Prop :=
  PQnfields result d = zlen cols /\
  forall j col, cols !! j = Some col ->
    PQfname result (Z.of_nat j) d = col.1 /\
    exists t, type_mapping types !! PQftype result (Z.of_nat j) d = Some t /\ column_type t = Some col.2.

Definition internal {S} (c : Z) (_ : S) : Prop := c = ADBC_STATUS_INTERNAL /\ refused.

Lemma wp_CHECK_DETAILED {S} `{!HasError S} expr m (Q : unit -> S -> Prop) s :
  wp m Q (fun c _ => enomem c tt) s -> wp (CHECK_NA_ADBC expr m) Q internal s.
Proof.
  intros Hm. unfold CHECK_NA_ADBC. apply wp_bind, wp_catch. eapply wp_conseq; [exact Hm| |].
  - by intros [] s' HQ.
  - intros c s' [-> Hr]. unfold raise. apply wp_bind, wp_pg_set_error. intros e. by apply wp_exit.
Qed.

(** A schema whose children are initialised, the first [i] of them described. *)
Definition described_upto (cols : list (string * ArrowType)) (i : nat) : ArrowSchema :=
  mkSchema (Some "+s"%string) None None ARROW_FLAG_NULLABLE (zlen cols)
    (match cols with
     | [] => None
     | _ => Some (map column_schema (take i cols) ++ replicate (length cols - i) fresh_child)
     end) None true false.

Lemma described_none cols : struct_with (replicate (length cols) fresh_child) = described_upto cols 0.
Proof.
  unfold struct_with, described_upto, zlen. rewrite length_replicate, Nat.sub_0_r. by destruct cols.
Qed.
Lemma column_type_flat t type : column_type t = Some type -> flat_type type = true.
Proof. destruct t; intros ?; by simplify_eq/=. Qed.

(** [InferSchema] on a result it knows. *)
Lemma on_known_child cols i m c' (s : ES) (Q : unit -> ES -> Prop) E cs :
  view schema_lens s = set_children (Some cs) (described_upto cols i) ->
  cs !! i = Some (Some c') ->
  wp m (fun a c => Q a (over schema_lens (set_children (Some (<[i := Some c]> cs)) (described_upto cols i)) s))
    (fun e c => forall s', E e s') c' ->
  wp (zoom schema_lens (Schema.on_child (Z.of_nat i) m)) Q E s.
Proof.
  intros Hs Hc Hm. apply wp_zoom. rewrite Hs.
  eapply Schema.wp_on_child; [lia|reflexivity|rewrite Nat2Z.id; exact Hc|].
  eapply wp_conseq; [exact Hm| |]; simpl; intros; rewrite Nat2Z.id; auto.
Qed.
Lemma infer_column_spec types result d cols i (s : ES) :
  described types result d cols -> pq_of s = d -> (i < length cols)%nat ->
  view schema_lens s = described_upto cols i ->
  wp (infer_column types result (Z.of_nat i))
    (fun _ s' => s' = over schema_lens (described_upto cols (S i)) s) internal s.
Proof.
  intros [_ Hcols] Hd Hi Hsch. destruct (lookup_lt_is_Some_2 cols i Hi) as [[name type] Hcol].
  destruct (Hcols _ _ Hcol) as [Hname (t & Ht & Htype)]. cbn [fst snd] in *.
  unfold infer_column, pq_ask. apply wp_bind, wp_gets, wp_bind, wp_gets. rewrite Hd, Ht, Hname, Htype.
  set (cs := map column_schema (take i cols) ++ replicate (length cols - i) fresh_child).
  assert (length (map column_schema (take i cols)) = i) as Hl by (rewrite length_map, length_take; lia).
  assert (sc_children (described_upto cols i) = Some cs) as Hcs by by destruct cols.
  assert (cs !! i = Some fresh_child) as Hfresh.
  { unfold cs. rewrite lookup_app_r by lia. rewrite Hl, Nat.sub_diag. apply lookup_replicate_2. lia. }
  assert (described_upto cols i = set_children (Some cs) (described_upto cols i)) as Hself.
  { rewrite <- Hcs. by destruct (described_upto cols i). }
  apply wp_bind, wp_CHECK_DETAILED. eapply on_known_child; [by rewrite Hsch|exact Hfresh|].
  eapply wp_conseq; [by eapply set_flat_type; [eapply column_type_flat|]| |by intros e c He ?]. intros [] c ->.
  apply wp_CHECK_DETAILED. eapply on_known_child; [reflexivity| |].
  { apply list_lookup_insert_eq. by eapply lookup_lt_Some. }
  eapply wp_conseq; [by apply set_name_spec| |by intros e c [He _] ?]. intros [] c ->.
  rewrite list_insert_insert_eq.
  assert (set_children (Some (<[i := column_schema (name, type)]> cs)) (described_upto cols i) =
    described_upto cols (S i)) as Hstep; [|by rewrite <- Hstep].
  unfold cs. rewrite children_step by done. unfold described_upto, set_children. simpl. f_equal.
  destruct cols as [|c0 cols0]; [done|]. rewrite (take_S_r _ _ _ Hcol), map_app, <- app_assoc. done.
Qed.
Lemma infer_schema_spec types result cols (s : ES) :
  described types result (pq_of s) cols ->
  wp (InferSchema types result)
    (fun _ s' => s' = over schema_lens (result_schema cols) s) internal s.
Proof.
  intros Hd. pose proof Hd as [Hn _]. unfold InferSchema, pq_ask. apply wp_bind, wp_gets, wp_bind.
  rewrite Hn. unfold ArrowSchemaInit. apply wp_zoom, wp_put, wp_bind, wp_CHECK_DETAILED, wp_zoom.
  eapply wp_conseq; [apply set_struct_spec, zlen_nonneg| |done]. intros [] c ->.
  assert (Z.to_nat (zlen cols) = length cols) as Hl by (unfold zlen; lia). rewrite Hl, described_none.
  eapply wp_conseq; [apply (wp_for_loop (fun i s' =>
    s' = over schema_lens (described_upto cols (Z.to_nat i)) s) _ _ _ internal)| |done].
  - by destruct s as [? [] ? ?].
  - intros i s' Hi ->. unfold zlen in Hi. replace (Z.to_nat (i + 1)) with (S (Z.to_nat i)) by lia.
    rewrite <- (Z2Nat.id i) at 1 by lia. eapply wp_conseq;
      [eapply (infer_column_spec types result _ cols); [exact Hd|done|lia|done]|by intros [] s' ->|done].
  - intros [] s' ->. unfold zlen. replace (Z.to_nat (0 + _)) with (length cols) by lia.
    unfold described_upto, result_schema. rewrite take_ge, Nat.sub_diag by done. simpl.
    by rewrite app_nil_r.
Qed.
End infer.

Section execute.
  Context `{Libc} `{Libpq}.

(** The statement's connection and types. *)
Definition connected (s : ES) (conn : Z) (types : TypeMapping) : Prop :=
  exists i c k db, ps_connection (es_stmt s) = Some i /\ hp_connections (es_heap s) !! i = Some c /\
    pc_conn c = conn /\ ps_type_mapping (es_stmt s) = Some k /\
    hp_databases (es_heap s) !! k = Some db /\ pd_type_mapping db = types.
Lemma wp_statement_conn conn types (Q : Z -> ES -> Prop) E s :
  connected s conn types -> Q conn s -> wp statement_conn Q E s.
Proof.
  intros (i & c & k & db & Hi & Hc & Hconn & _) HQ. unfold statement_conn, the_statement.
  apply wp_bind, wp_gets, wp_bind. eapply wp_lift_opt; [exact Hi|]. apply wp_bind, wp_zoom.
  unfold connection. apply wp_bind, wp_gets. eapply wp_lift_opt; [exact Hc|]. apply wp_ret.
  rewrite Hconn. by destruct s.
Qed.
Lemma wp_statement_types conn types (Q : TypeMapping -> ES -> Prop) E s :
  connected s conn types -> Q types s -> wp statement_types Q E s.
Proof.
  intros (i & c & k & db & _ & _ & _ & Hk & Hdb & Ht) HQ. unfold statement_types, the_statement.
  apply wp_bind, wp_gets, wp_bind. eapply wp_lift_opt; [exact Hk|]. apply wp_bind, wp_zoom.
  unfold database. apply wp_bind, wp_gets. eapply wp_lift_opt; [exact Hdb|]. apply wp_ret.
  rewrite Ht. by destruct s.
Qed.
(** The statement, the library. *)
Definition with_reader (r : TupleReader) (s : ES) : ES := over reader_lens r s.
Definition with_library (d : pq) (s : ES) : ES := over pq_lens d s.
Lemma connected_with s conn types r d :
  connected s conn types -> connected (with_library d (with_reader r s)) conn types.
Proof. done. Qed.

(** Before a result there is nothing to clear but the schema. *)
Definition cleared (r : TupleReader) : TupleReader :=
  tr_set_pgbuf None (if sc_release (tr_schema r) then tr_set_schema indet_schema r else r).
Lemma clear_result_spec s : tr_result (ps_reader (es_stmt s)) = 0 ->
  ClearResult s = Ret tt (with_reader (cleared (ps_reader (es_stmt s))) s).
Proof.
  intros Hr. unfold ClearResult, TupleReader_Release, mbind, M_bind, gets, when, modify.
  cbn [reader_lens view]. rewrite Hr. cbn [negb Z.eqb].
  unfold cleared. destruct s as [h t st rows]. destruct t as [? ? ? ? ? ? ? r]. simpl.
  by destruct (sc_release (tr_schema r)).
Qed.
End execute.

(** * Bulk ingestion *)
Section ingest.
  Context `{Libc} `{Libpq}.

(** The names of the fields. *)
Definition named (schema : ArrowSchema) (names : list string) : Prop :=
  forall j name, names !! j = Some name ->
    mjoin (child_at schema (Z.of_nat j)) ≫= sc_name = Some name.
Lemma wp_bind_name names j name (Q : string -> BnS -> Prop) E s :
  named (bs_schema (bn_stream s)) names -> names !! j = Some name -> Q name s ->
  wp (bind_name (Z.of_nat j)) Q E s.
Proof.
  intros Hn Hj HQ. specialize (Hn j name Hj). apply bind_Some in Hn as (c & Hc & Hname).
  unfold bind_name, bind_child, the_stream. apply wp_bind, wp_bind, wp_gets.
  eapply wp_lift_opt; [exact Hc|]. by eapply wp_lift_opt.
Qed.

(** The column definitions, as text. *)
Definition column_def (name : string) (type : ArrowType) : string :=
  (name +:+ default "" (sql_type type))%string.
Definition create_text (target : string) (names : list string) (types : list ArrowType) : string :=
  ("CREATE TABLE " +:+ target +:+ " (" +:+ String.concat ", " (zip_with column_def names types) +:+ ")")%string.
Fixpoint later_columns (defs : list string) : string :=
  match defs with [] => "" | d :: r => (", " +:+ d +:+ later_columns r)%string end.
Lemma append_assoc (a b c : string) : (a +:+ (b +:+ c) = (a +:+ b) +:+ c)%string.
Proof. induction a as [|x a IH]; [done|]. exact (f_equal (String x) IH). Qed.
Lemma append_empty (a : string) : (a +:+ "" = a)%string.
Proof. induction a as [|x a IH]; [done|]. exact (f_equal (String x) IH). Qed.
Lemma concat_later d defs : String.concat ", " (d :: defs) = (d +:+ later_columns defs)%string.
Proof.
  revert d. induction defs as [|d' defs IH]; intros d.
  - by rewrite <- (append_empty d) at 1.
  - change (String.concat ", " (d :: d' :: defs)) with (d +:+ ", " +:+ String.concat ", " (d' :: defs))%string.
    rewrite IH. done.
Qed.
Lemma table_columns_spec fields names i (Q : string -> BnS -> Prop) E s :
  named (bs_schema (bn_stream s)) names -> length names = (i + length fields)%nat ->
  Forall (fun t => is_Some (sql_type t)) (map sv_type fields) ->
  Q (if decide (i = 0)%nat then String.concat ", " (zip_with column_def names (map sv_type fields))
     else later_columns (zip_with column_def (drop i names) (map sv_type fields))) s ->
  wp (table_columns fields (Z.of_nat i)) Q E s.
Proof.
  intros Hn. revert i Q. induction fields as [|f fields IH]; intros i Q Hlen Ht HQ; cbn [table_columns].
  { apply wp_ret. destruct (decide _); [|by destruct (drop i names)]. by destruct names. }
  inversion Ht as [|? ? [sql Hsql] Hrest]; subst. destruct (lookup_lt_is_Some_2 names i) as [name Hname].
  { simpl in Hlen. lia. }
  apply wp_bind. eapply wp_bind_name; [done|exact Hname|]. rewrite Hsql. apply wp_bind.
  replace (Z.of_nat i + 1) with (Z.of_nat (S i)) by lia. apply IH; [simpl in Hlen; lia|done|].
  rewrite decide_False by done. apply wp_ret. revert HQ. destruct (decide (i = 0)%nat) as [->|Hi].
  - destruct names as [|n0 names]; [done|]. injection Hname as ->. cbn [zip_with map drop].
    rewrite concat_later. unfold column_def at 1. rewrite Hsql.
    cbn [default]. rewrite <- append_assoc. intros HQ. exact HQ.
  - rewrite (drop_S _ _ _ Hname). cbn [zip_with map later_columns]. unfold column_def at 1. rewrite Hsql.
    unfold separator. rewrite (proj2 (Z.ltb_lt 0 (Z.of_nat i))) by lia.
    cbn [default]. rewrite <- append_assoc. intros HQ. exact HQ.
Qed.

(** A mapping filled from the server knows the OIDs of int8 and text only. *)
Definition served (m : TypeMapping) : Prop :=
  exists l, m = fold_left (fun m e => Insert e.1.1 e.1.2 e.2 m) l empty_mapping.
Lemma served_oids m : served m -> Forall (fun e => e.1 = kInt8 \/ e.1 = kText) (canonical_types m).
Proof.
  intros [l ->]. assert (Forall (fun e => e.1 = kInt8 \/ e.1 = kText) (canonical_types empty_mapping)) as Hm
    by constructor. revert Hm. generalize empty_mapping.
  induction l as [|[[oid name] recv] l IH]; intros m Hm; simpl; [done|]. apply IH. unfold Insert.
  assert (forall m', canonical_types (match FromPgTypreceive recv with
    | Some t => mkMapping (<[oid := t]> (type_mapping m)) (canonical_types m) | None => m end) = m' -> 
    m' = canonical_types m) as Hsame by (intros m' <-; by destruct (FromPgTypreceive recv)).
  destruct (streq name "int8"); [|destruct (streq name "text")]; simpl; rewrite (Hsame _ eq_refl); auto.
Qed.
Lemma served_small m : served m -> GetOid kInt2 m = 0 /\ GetOid kInt4 m = 0.
Proof.
  intros Hm%served_oids. unfold GetOid. induction Hm as [|[t oid] l Ht _ IH]; [done|]. simpl in *.
  by destruct Ht as [-> | ->].
Qed.
(** Types a table is created for, and those among them that cannot be sent. *)
Definition small (t : ArrowType) : Prop := t = TYPE_INT16 \/ t = TYPE_INT32.
Definition creatable (t : ArrowType) : Prop := small t \/ sendable t.

Lemma small_refused m n i names s : served m -> named (bs_schema (bn_stream s)) names ->
  length names = length (bs_fields (bn_stream s)) -> length (bs_fields (bn_stream s)) = (i + n)%nat ->
  Forall creatable (map sv_type (bs_fields (bn_stream s))) ->
  Exists small (drop i (map sv_type (bs_fields (bn_stream s)))) ->
  wp (set_param_types m n (Z.of_nat i)) (fun _ _ => False)
    (fun c s' => c = ADBC_STATUS_NOT_IMPLEMENTED /\ bn_pq s' = bn_pq s) s.
Proof.
  intros Hm Hn Hlen. revert i. induction n as [|n IH]; intros i Hi Hc Hs; cbn [set_param_types].
  { rewrite drop_ge in Hs by (rewrite length_map; lia). inversion Hs. }
  destruct (lookup_lt_is_Some_2 (bs_fields (bn_stream s)) i) as [f Hf]; [lia|].
  destruct (lookup_lt_is_Some_2 names i) as [name Hname]; [lia|].
  pose proof (field_type _ _ _ _ eq_refl Hf) as Hft. rewrite (drop_S _ _ _ Hft) in Hs.
  pose proof (Forall_lookup_1 _ _ _ _ Hc Hft) as Hci. simpl in Hci.
  apply wp_bind. unfold set_param_type, the_stream. apply wp_bind, wp_gets, wp_bind. rewrite Nat2Z.id.
  eapply wp_lift_opt; [exact Hf|]. destruct (served_small m Hm) as [H2 H4].
  assert (forall Q : Z * Z -> BnS -> Prop, wp (name ← bind_name (Z.of_nat i);
    raise ADBC_STATUS_NOT_IMPLEMENTED
      ["Field #"%string; fmt_Z (Z.of_nat i + 1); " ('"%string; name;
       "') has type with no corresponding PostgreSQL type "%string; fmt_Z (type_code (sv_type f))]) Q
    (fun c s' => c = ADBC_STATUS_NOT_IMPLEMENTED /\ bn_pq s' = bn_pq s) s) as Hrefuse.
  { intros Q. apply wp_bind. eapply wp_bind_name; [done|exact Hname|]. unfold raise.
    apply wp_bind, wp_pg_set_error. intros e. by apply wp_exit. }
  destruct (param_type (sv_type f)) as [[pg len]|] eqn:Ep.
  2:{ by destruct Hci as [[Ht|Ht]|[Ht|Ht]]; rewrite Ht in Ep. }
  destruct (Z.eqb_spec (GetOid pg m) 0) as [_|Hoid]; [apply Hrefuse|]. apply wp_ret, wp_bind.
  replace (Z.of_nat i + 1) with (Z.of_nat (S i)) by lia.
  eapply wp_conseq; [apply IH; [lia|done|]|done|done].
  inversion Hs as [? ? Hsmall|]; subst; [|done].
  destruct Hsmall as [Ht|Ht]; rewrite Ht in Ep; injection Ep as <- <-; by rewrite ?H2, ?H4 in Hoid.
Qed.
End ingest.

Section properties.
  Context `{Libc} `{Libpq}.

(** C26: A query with a result runs twice.  Where the server accepts it, executing sends the
    query itself for its schema (the "LIMIT 0" query the driver words is never sent) and then
    the query inside a COPY, and nothing else; the reader then has the schema with exactly the
    result's columns, names and types in order, and the COPY's result, the stream is exported
    and the number of affected rows is unknown.  The only error is a refused allocation. *)
Theorem query_runs_twice (s : ES) (conn : Z) (types : TypeMapping) (query : string)
  (cols : list (string * ArrowType)) (r1 r2 : Z) (d1 d2 : pq) (stream : TupleStream)
  (Hconn : connected s conn types) (Hquery : ps_query (es_stmt s) = query)
  (Hset : query <> ""%string) (Hunprepared : ps_prepared (es_stmt s) = false)
  (Hstream : es_stream s = Some stream) (Hfresh : tr_result (ps_reader (es_stmt s)) = 0)
  (Hrun1 : PQexecParams conn query kPgBinaryFormat (hp_pq (es_heap s)) = (r1, d1))
  (Hok1 : PQresultStatus r1 d1 = PGRES_TUPLES_OK) (Hcols : described types r1 d1 cols)
  (Hrun2 : PQexecParams conn (copy_query query) kPgBinaryFormat (PQclear r1 d1) = (r2, d2))
  (Hok2 : PQresultStatus r2 d2 = PGRES_COPY_OUT) :
  wp Statement_ExecuteQuery
    (fun _ s' => hp_pq (es_heap s') = d2 /\
       tr_schema (ps_reader (es_stmt s')) = result_schema cols /\
       tr_result (ps_reader (es_stmt s')) = r2 /\ tr_pgbuf (ps_reader (es_stmt s')) = None /\
       es_stream s' = Some (StreamReader tt) /\ es_rows s' = (fun _ => -1) <$> es_rows s)
    internal s.
Proof.
  unfold Statement_ExecuteQuery. apply wp_bind. unfold wp at 1. rewrite clear_result_spec by done.
  set (s1 := with_reader _ s). unfold the_statement. apply wp_bind, wp_gets, wp_bind, wp_gets.
  change (ps_prepared (es_stmt s1)) with (ps_prepared (es_stmt s)).
  change (es_stream s1) with (es_stream s). rewrite Hunprepared, Hstream, bool_decide_true by done.
  cbn [andb negb]. unfold execute_to_stream, the_statement. apply wp_bind, wp_gets.
  change (ps_query (es_stmt s1)) with (ps_query (es_stmt s)). rewrite Hquery.
  rewrite (proj2 (String.eqb_neq query "") Hset : streq query "" = false).
  apply wp_bind. eapply wp_statement_conn; [exact Hconn|]. apply wp_bind.
  eapply wp_pq_call; [exact Hrun1|]. set (s2 := over pq_lens d1 s1).
  apply wp_bind, wp_pq_ask. change (pq_of s2) with d1. rewrite Hok1. cbn [Z.eqb negb PGRES_TUPLES_OK Pos.eqb].
  apply wp_bind. eapply wp_statement_types; [exact Hconn|]. apply wp_bind, wp_catch.
  eapply wp_conseq; [by apply infer_schema_spec| |].
  2:{ intros c s3 [-> Hr]. apply wp_bind, wp_pq_do, wp_bind. by split. }
  intros [] s3 ->. apply wp_bind, wp_pq_do, wp_bind, wp_ret, wp_bind.
  eapply wp_pq_call; [exact Hrun2|]. apply wp_bind, wp_modify, wp_bind, wp_pq_ask.
  set (s4 := over reader_lens _ _). change (pq_of s4) with d2. rewrite Hok2.
  cbn [Z.eqb negb PGRES_COPY_OUT Pos.eqb]. apply wp_bind, wp_modify, wp_modify.
  by split_and!.
Qed.

(** What an update without parameters does.  The query is sent once, and when the server
    accepts it the number of affected rows is reported as the number of rows of the statement's
    own result, which is none: 0, whatever the server changed; a refused query is an IO error
    and its result is cleared too. *)
Theorem update_reports_no_rows (s : ES) (conn : Z) (types : TypeMapping) (query : string)
  (r : Z) (d : pq) (Hnull : forall d, PQntuples 0 d = 0)
  (Hconn : connected s conn types) (Hquery : ps_query (es_stmt s) = query)
  (Hset : query <> ""%string) (Hunprepared : ps_prepared (es_stmt s) = false)
  (Htarget : ps_target (es_stmt s) = ""%string)
  (Hstream : es_stream s = None) (Hfresh : tr_result (ps_reader (es_stmt s)) = 0)
  (Hrun : PQexecParams conn query kPgBinaryFormat (hp_pq (es_heap s)) = (r, d)) :
  wp Statement_ExecuteQuery
    (fun _ s' => PQresultStatus r d = PGRES_COMMAND_OK /\ hp_pq (es_heap s') = PQclear r d /\
       es_rows s' = (fun _ => 0) <$> es_rows s)
    (fun c s' => c = ADBC_STATUS_IO /\ PQresultStatus r d <> PGRES_COMMAND_OK /\
       hp_pq (es_heap s') = PQclear r d /\ es_rows s' = es_rows s) s.
Proof.
  unfold Statement_ExecuteQuery. apply wp_bind. unfold wp at 1. rewrite clear_result_spec by done.
  set (s1 := with_reader _ s). unfold the_statement. apply wp_bind, wp_gets, wp_bind, wp_gets.
  change (ps_prepared (es_stmt s1)) with (ps_prepared (es_stmt s)).
  change (ps_target (es_stmt s1)) with (ps_target (es_stmt s)).
  change (es_stream s1) with (es_stream s). rewrite Hunprepared, Hstream, Htarget, bool_decide_false by (by intros []).
  cbn [andb negb streq String.eqb]. unfold ExecuteUpdateQuery, the_statement. apply wp_bind, wp_gets.
  change (ps_query (es_stmt s1)) with (ps_query (es_stmt s)).
  change (ps_prepared (es_stmt s1)) with (ps_prepared (es_stmt s)). rewrite Hquery, Hunprepared.
  rewrite (proj2 (String.eqb_neq query "") Hset : streq query "" = false).
  apply wp_bind. eapply wp_statement_conn; [exact Hconn|]. apply wp_bind.
  eapply wp_pq_call; [exact Hrun|]. set (s2 := over pq_lens d s1).
  apply wp_bind, wp_pq_ask. change (pq_of s2) with d.
  destruct (Z.eqb_spec (PQresultStatus r d) PGRES_COMMAND_OK) as [Hok|Hno]; cbn [negb].
  - apply wp_bind, wp_pq_ask. change (pq_of s2) with d. unfold set_rows_affected.
    assert (tr_result (ps_reader (es_stmt s1)) = 0) as Hz by (cbn; unfold cleared; by destruct (sc_release _)).
    apply wp_bind, wp_modify, wp_pq_do. rewrite Hz, Hnull. by split_and!.
  - apply wp_bind, wp_pg_set_error. intros e1. apply wp_bind, wp_pq_ask, wp_bind, wp_pg_set_error. intros e2.
    apply wp_bind, wp_pq_do, wp_exit. by split_and!.
Qed.

(** Bulk ingestion of SMALLINT or INTEGER columns creates the table and then fails.  The
    statement that creates it is sent with the columns' names and SQL types in order, and the
    server accepts it; but a type mapping filled from the server has an OID for int8 and text
    only, so the parameter types are refused with NOT_IMPLEMENTED before any row is sent, and
    the empty table stays. *)
Theorem small_integers_not_ingested (m : TypeMapping) (conn : Z) (target : string)
  (names : list string) (types : list ArrowType) (r : Z) (d : pq) (s : BnS)
  (Hserved : served m) (Htypes : map sv_type (bs_fields (bn_stream s)) = types)
  (Hcreatable : Forall creatable types) (Hsmall : Exists small types)
  (Hnames : named (bs_schema (bn_stream s)) names) (Hlength : length names = length types)
  (Hrun : PQexecParams conn (create_text target names types) 1 (bn_pq s) = (r, d))
  (Hok : PQresultStatus r d = PGRES_COMMAND_OK) :
  wp (CreateBulkTable conn target ;; BindStream_SetParamTypes m) (fun _ _ => False)
    (fun c s' => c = ADBC_STATUS_NOT_IMPLEMENTED /\ bn_pq s' = PQclear r d) s.
Proof.
  assert (length (bs_fields (bn_stream s)) = length types) as Hlen by (subst types; by rewrite length_map).
  apply wp_bind. unfold CreateBulkTable, the_stream. apply wp_bind, wp_gets, wp_bind.
  apply (table_columns_spec _ names 0); [done|lia| |].
  { rewrite Htypes. eapply Forall_impl; [exact Hcreatable|]. by intros t [[-> | ->]|[-> | ->]]; eexists. }
  rewrite decide_True, Htypes by done. apply wp_bind, wp_pg_set_error. intros e. apply wp_bind.
  eapply wp_pq_call; [exact Hrun|]. apply check_command_spec; cbn [bn_pq over pq_lens HasPq_BnS]; intros Hst; [|done].
  set (s1 := with_pq _ _ _). unfold BindStream_SetParamTypes, the_stream. apply wp_bind, wp_gets, wp_bind.
  eapply wp_conseq; [apply (small_refused m _ 0 names)| |]; try done.
  - change (bs_fields (bn_stream s1)) with (bs_fields (bn_stream s)). congruence.
  - change (bs_fields (bn_stream s1)) with (bs_fields (bn_stream s)). by rewrite Htypes.
  - change (bs_fields (bn_stream s1)) with (bs_fields (bn_stream s)). by rewrite Htypes.
Qed.
End properties.

(** * Instances *)
#[local] Existing Instance host.
Definition example_query : string := "SELECT a, b FROM t".
Definition example_es (script : PgMock.script) (query : string) (stream : option TupleStream)
    : @ES PgMock.mock :=
  @mkES PgMock.mock
    (@mkHeap PgMock.mock None (PgMock.start script) [mkDatabase 1 "host" example_mapping]
       [mkConnection (Some 0%nat) 1 true])
    (mkStatement (Some 0%nat) (Some 0%nat) query false StreamReleased "" false (new_reader 1))
    stream (Some 0).
Definition two_columns : list (string * ArrowType) := [("a"%string, TYPE_INT64); ("b"%string, TYPE_STRING)].
Definition query_script : PgMock.script :=
  [(example_query, PgMock.mkAnswer PGRES_TUPLES_OK [("a"%string, 20); ("b"%string, 25)] [] [] 2);
   (copy_query example_query, PgMock.mkAnswer PGRES_COPY_OUT [] [] [] 1)].
Lemma example_connected script query stream :
  connected (example_es script query stream) 1 example_mapping.
Proof. by eexists 0%nat, _, 0%nat, _. Qed.
Definition querying : @ES PgMock.mock := example_es query_script example_query (Some StreamReleased).
Definition queried : @pq PgMock.mock :=
  (PQexecParams (Libpq := PgMock.mock) 1 example_query 1 (PgMock.start query_script)).2.
Lemma query_runs_twice_witness :
  wp Statement_ExecuteQuery
    (fun _ s' => hp_pq (es_heap s') = (PQexecParams 1 (copy_query example_query) 1 (PQclear 1 queried)).2 /\
       tr_schema (ps_reader (es_stmt s')) = result_schema two_columns /\
       tr_result (ps_reader (es_stmt s')) = 2 /\ tr_pgbuf (ps_reader (es_stmt s')) = None /\
       es_stream s' = Some (StreamReader tt) /\ es_rows s' = Some (-1))
    internal querying.
Proof.
  apply (@query_runs_twice host PgMock.mock querying 1 example_mapping example_query two_columns 1 2
    queried _ StreamReleased); try reflexivity.
  - apply example_connected.
  - discriminate.
  - split; [reflexivity|]. intros [|[|j]] col Hj; [injection Hj as <-|injection Hj as <-|done];
      (split; [reflexivity|]); by eexists.
Defined.
Lemma update_reports_no_rows_witness :
  let script := [("DELETE FROM t"%string, PgMock.command PGRES_COMMAND_OK)] in
  let s := example_es script "DELETE FROM t" None in
  let d := (PQexecParams (Libpq := PgMock.mock) 1 "DELETE FROM t" 1 (PgMock.start script)).2 in
  wp Statement_ExecuteQuery
    (fun _ s' => PQresultStatus 1 d = PGRES_COMMAND_OK /\ hp_pq (es_heap s') = PQclear 1 d /\
       es_rows s' = Some 0)
    (fun c s' => c = ADBC_STATUS_IO /\ PQresultStatus 1 d <> PGRES_COMMAND_OK /\
       hp_pq (es_heap s') = PQclear 1 d /\ es_rows s' = Some 0) s.
Proof.
  intros script s d.
  apply (@update_reports_no_rows host PgMock.mock s 1 example_mapping "DELETE FROM t" 1 d);
    try reflexivity; [apply example_connected|discriminate].
Defined.
Definition ingesting : @BnS PgMock.mock :=
  @mkBnS PgMock.mock None
    (PgMock.start [("CREATE TABLE t (a BIGINT, b INTEGER)"%string, PgMock.command PGRES_COMMAND_OK)])
    (mkBind StreamReleased (example_schema [example_field "l" "a"; example_field "i" "b"])
       (example_fields [TYPE_INT64; TYPE_INT32]) [] [] [] [] [] []) None.
Lemma small_integers_not_ingested_witness :
  let d := (PQexecParams (Libpq := PgMock.mock) 1 "CREATE TABLE t (a BIGINT, b INTEGER)" 1 (bn_pq ingesting)).2 in
  wp (CreateBulkTable 1 "t" ;; BindStream_SetParamTypes example_mapping) (fun _ _ => False)
    (fun c s' => c = ADBC_STATUS_NOT_IMPLEMENTED /\ bn_pq s' = PQclear 1 d) ingesting.
Proof.
  intros d. apply (@small_integers_not_ingested PgMock.mock example_mapping 1 "t" ["a"; "b"]%string
    [TYPE_INT64; TYPE_INT32] 1 d ingesting); try reflexivity.
  - by exists [(25, "text", "textrecv"); (20, "int8", "int8recv")]%string.
  - constructor; [right; by left|constructor; [left; by right|constructor]].
  - right. left. by right.
  - intros [|[|j]] name Hj; [by injection Hj as <-|by injection Hj as <-|done].
Defined.
