(* ===== verification/PgDriver.v ===== *)
(** The PostgreSQL driver, part five: the API functions, which check the handle and call the
    method, and the entry point (c/driver/postgresql/postgresql.cc). *)
From stdpp Require Import base tactics list numbers option strings gmap.
From Stdlib Require Import ZArith Lia Ascii.
From S2P Require Import Prelude CLib Schema Array Adbc Utils Postgres PgReader PgBind PgStatement.

(** An [AdbcDatabase] or [AdbcConnection] is its private data: a reference to an object of the
    heap.  An [AdbcStatement] owns its object. *)
Section api.
  Context `{Libc} `{Libpq}.

Definition HandleState : Type := Heap * option nat.
(** [if (!handle->private_data) return ADBC_STATUS_INVALID_STATE;] and the method. *)
Definition with_handle (method : nat -> M Heap unit) : M HandleState unit :=
  private_data ← gets snd;
  match private_data with
  | None => exit ADBC_STATUS_INVALID_STATE
  | Some i => zoom fst_lens (method i)
  end.
Definition set_private (p : option nat) : M HandleState unit := modify (fun s => (s.1, p)).
(** The method, and then the handle is emptied; the object lives on while others share it. *)
Definition release_handle (method : nat -> M Heap unit) : M HandleState unit :=
  private_data ← gets snd;
  match private_data with
  | None => exit ADBC_STATUS_INVALID_STATE
  | Some i =>
      status ← catch (zoom fst_lens (method i));
      set_private None ;;
      return_code status
  end.

(** * Databases *)
Definition PostgresDatabaseNew : M HandleState unit :=
  private_data ← gets snd;
  match private_data with
  | Some _ => raise ADBC_STATUS_INVALID_STATE ["database is already initialized"%string]
  | None =>
      i ← gets (fun s => length (hp_databases s.1));
      modify (fun s => let h := s.1 in
        (mkHeap (hp_error h) (hp_pq h) (hp_databases h ++ [new_database]) (hp_connections h), Some i))
  end.
Definition PostgresDatabaseInit : M HandleState unit := with_handle Database_Init.
Definition PostgresDatabaseSetOption (key value : string) : M HandleState unit :=
  with_handle (fun i => Database_SetOption i key value).
Definition PostgresDatabaseRelease : M HandleState unit := release_handle Database_Release.

(** * Connections *)
Definition PostgresConnectionNew : M HandleState unit :=
  i ← gets (fun s => length (hp_connections s.1));
  modify (fun s => let h := s.1 in
    (mkHeap (hp_error h) (hp_pq h) (hp_databases h) (hp_connections h ++ [new_connection]), Some i)).
Definition PostgresConnectionInit (database : option nat) : M HandleState unit :=
  with_handle (fun i => Connection_Init i database).
Definition PostgresConnectionSetOption (key value : string) : M HandleState unit :=
  with_handle (fun i => Connection_SetOption i key value).
Definition PostgresConnectionCommit : M HandleState unit := with_handle Connection_Commit.
Definition PostgresConnectionRollback : M HandleState unit := with_handle Connection_Rollback.
Definition PostgresConnectionRelease : M HandleState unit := release_handle Connection_Release.
Definition PostgresConnectionGetTableSchema : M HandleState unit :=
  with_handle (fun _ => Connection_GetTableSchema).
Definition PostgresConnectionReadPartition : M HandleState unit :=
  with_handle (fun _ => exit ADBC_STATUS_NOT_IMPLEMENTED).
(** These do not look at the connection. *)
Definition PostgresConnectionGetInfo : M HandleState unit := exit ADBC_STATUS_NOT_IMPLEMENTED.
Definition PostgresConnectionGetObjects : M HandleState unit := exit ADBC_STATUS_NOT_IMPLEMENTED.
Definition PostgresConnectionGetTableTypes : M HandleState unit := exit ADBC_STATUS_NOT_IMPLEMENTED.

(** * Statements *)
Record AS := mkAS {
  as_heap : Heap;
  as_private : option PostgresStatement;
  as_stream : option TupleStream;
  as_rows : option Z;
}.
(** The object behind a statement whose private data is set. *)
Definition statement_lens (t : PostgresStatement) : Lens AS ES :=
  mkLens (fun s => mkES (as_heap s) t (as_stream s) (as_rows s))
    (fun e _ => mkAS (es_heap e) (Some (es_stmt e)) (es_stream e) (es_rows e)).
Definition with_statement (method : M ES unit) : M AS unit :=
  private_data ← gets as_private;
  match private_data with
  | None => exit ADBC_STATUS_INVALID_STATE
  | Some t => zoom (statement_lens t) method
  end.
(** The same for a method that moves from its arguments. *)
Definition with_arguments {A} (method : M (ES * A) unit) : M (AS * A) unit :=
  private_data ← gets (fun p => as_private p.1);
  match private_data with
  | None => exit ADBC_STATUS_INVALID_STATE
  | Some t =>
      zoom (mkLens (fun p => (view (statement_lens t) p.1, p.2))
              (fun q p => (over (statement_lens t) q.1 p.1, q.2))) method
  end.

(** The private data is set even when the method fails. *)
Definition PostgresStatementNew (connection : option nat) : M AS unit :=
  modify (fun s => mkAS (as_heap s) (Some new_statement) (as_stream s) (as_rows s)) ;;
  with_statement (Statement_New connection).
Definition PostgresStatementBind : M (AS * (ArrowArray * ArrowSchema)) unit :=
  with_arguments Statement_Bind.
Definition PostgresStatementBindStream : M (AS * BindInput) unit :=
  with_arguments Statement_BindStream.
Definition PostgresStatementExecutePartitions : M AS unit :=
  with_statement (exit ADBC_STATUS_NOT_IMPLEMENTED).
Definition PostgresStatementExecuteQuery : M AS unit := with_statement Statement_ExecuteQuery.
Definition PostgresStatementGetPartitionDesc : M AS unit := exit ADBC_STATUS_NOT_IMPLEMENTED.
Definition PostgresStatementGetPartitionDescSize : M AS unit := exit ADBC_STATUS_NOT_IMPLEMENTED.
Definition PostgresStatementGetParameterSchema : M AS unit :=
  with_statement Statement_GetParameterSchema.
Definition PostgresStatementPrepare : M AS unit := with_statement Statement_Prepare.
Definition PostgresStatementRelease : M AS unit :=
  status ← catch (with_statement Statement_Release);
  modify (fun s => mkAS (as_heap s) None (as_stream s) (as_rows s)) ;;
  return_code status.
Definition PostgresStatementSetOption (key value : string) : M AS unit :=
  with_statement (Statement_SetOption key value).
Definition PostgresStatementSetSqlQuery (query : string) : M AS unit :=
  with_statement (Statement_SetSqlQuery query).
End api.
Arguments AS {_}.
Arguments mkAS {_} as_heap as_private as_stream as_rows.

(** * The table of callbacks *)
Definition postgres_slots : list driver_slot :=
  [S_DatabaseInit; S_DatabaseNew; S_DatabaseRelease; S_DatabaseSetOption;
   S_ConnectionCommit; S_ConnectionGetInfo; S_ConnectionGetObjects;
   S_ConnectionGetTableSchema; S_ConnectionGetTableTypes; S_ConnectionInit; S_ConnectionNew;
   S_ConnectionReadPartition; S_ConnectionRelease; S_ConnectionRollback;
   S_ConnectionSetOption;
   S_StatementBind; S_StatementBindStream; S_StatementExecutePartitions;
   S_StatementExecuteQuery; S_StatementGetParameterSchema; S_StatementNew; S_StatementPrepare;
   S_StatementRelease; S_StatementSetOption; S_StatementSetSqlQuery].
(** An unknown version leaves the table alone, and no message. *)
Definition PostgresDriverInit {CB} (callbacks : driver_slot -> CB) (version : Z)
    : M (driver_slot -> option CB) unit :=
  if negb (version =? ADBC_VERSION_1_0_0) then exit ADBC_STATUS_NOT_IMPLEMENTED else
  put (fun slot => if bool_decide (slot ∈ postgres_slots) then Some (callbacks slot) else None).

(** * Public names *)
Module PgPublic.
Section names.
  Context `{Libc} `{Libpq}.

Definition AdbcDatabaseInit := PostgresDatabaseInit.
Definition AdbcDatabaseNew := PostgresDatabaseNew.
Definition AdbcDatabaseRelease := PostgresDatabaseRelease.
Definition AdbcDatabaseSetOption := PostgresDatabaseSetOption.
Definition AdbcConnectionCommit := PostgresConnectionCommit.
Definition AdbcConnectionGetInfo := PostgresConnectionGetInfo.
Definition AdbcConnectionGetObjects := PostgresConnectionGetObjects.
Definition AdbcConnectionGetTableSchema := PostgresConnectionGetTableSchema.
Definition AdbcConnectionGetTableTypes := PostgresConnectionGetTableTypes.
Definition AdbcConnectionInit := PostgresConnectionInit.
Definition AdbcConnectionNew := PostgresConnectionNew.
Definition AdbcConnectionReadPartition := PostgresConnectionReadPartition.
Definition AdbcConnectionRelease := PostgresConnectionRelease.
Definition AdbcConnectionRollback := PostgresConnectionRollback.
Definition AdbcConnectionSetOption := PostgresConnectionSetOption.
Definition AdbcStatementBind := PostgresStatementBind.
Definition AdbcStatementBindStream := PostgresStatementBindStream.
Definition AdbcStatementExecutePartitions := PostgresStatementExecutePartitions.
Definition AdbcStatementExecuteQuery := PostgresStatementExecuteQuery.
Definition AdbcStatementGetPartitionDesc := PostgresStatementGetPartitionDesc.
Definition AdbcStatementGetPartitionDescSize := PostgresStatementGetPartitionDescSize.
Definition AdbcStatementGetParameterSchema := PostgresStatementGetParameterSchema.
Definition AdbcStatementNew := PostgresStatementNew.
Definition AdbcStatementPrepare := PostgresStatementPrepare.
Definition AdbcStatementRelease := PostgresStatementRelease.
Definition AdbcStatementSetOption := PostgresStatementSetOption.
Definition AdbcStatementSetSqlQuery := PostgresStatementSetSqlQuery.
End names.
Definition AdbcDriverInit {CB : Type} := PostgresDriverInit (CB := CB).
End PgPublic.
