(* ===== verification/PgConformance.v ===== *)
(** The PostgreSQL driver (Postgres.v, PgStatement.v, PgDriver.v) under the validation suite
    (Validation.v): it conforms to the lifecycle protocol on every server that accepts
    connections, answers the query for the types, runs transaction commands and rejects what is
    not SQL. *)
From stdpp Require Import base tactics list numbers option strings gmap sets.
From Stdlib Require Import ZArith Lia Ascii Permutation.
From S2P Require Import Prelude CLib Adbc Utils Postgres PgReader PgBind PgStatement PgDriver Validation.

(** What the server makes of a connection: outside a transaction, inside one, or inside one that
    a failed command has aborted. *)
Inductive txn := TIdle | TActive | TAborted.
Definition kEnds : list string := ["COMMIT"; "ROLLBACK"]%string.
(** What the suite needs of libpq and the server.  [connected l d]: the open connections are those
    of [l], with their transactions.  An aborted transaction accepts nothing but its end; ending a
    transaction where there is none is only warned about; and a command that fails aborts the
    transaction it is in. *)
Class OrderlyLibpq `{Libpq} (uri : string) (connected : list (Z * txn) -> pq -> Prop) : Prop := {
  pq_connected_perm l l' d : l ≡ₚ l' -> connected l d -> connected l' d;
  pq_connects l d : connected l d -> exists c d', PQconnectdb uri d = (c, d') /\ c <> 0 /\
    PQstatus c d' = CONNECTION_OK /\ connected ((c, TIdle) :: l) d';
  pq_finishes l c t d : connected ((c, t) :: l) d -> connected l (PQfinish c d);
  pq_types l c d : connected ((c, TIdle) :: l) d -> exists r d', PQexec c kTypeQuery d = (r, d') /\
    PQresultStatus r d' = PGRES_TUPLES_OK /\ connected ((c, TIdle) :: l) (PQclear r d');
  pq_begins l c d : connected ((c, TIdle) :: l) d -> exists r d',
    PQexec c "BEGIN TRANSACTION" d = (r, d') /\ PQresultStatus r d' = PGRES_COMMAND_OK /\
    connected ((c, TActive) :: l) (PQclear r d');
  pq_ends l c t q d : connected ((c, t) :: l) d -> q ∈ kEnds -> exists r d',
    PQexec c q d = (r, d') /\ PQresultStatus r d' = PGRES_COMMAND_OK /\
    connected ((c, TIdle) :: l) (PQclear r d');
  pq_not_sql l c t d : connected ((c, t) :: l) d -> exists r d',
    PQexecParams c not_a_query kPgBinaryFormat d = (r, d') /\
    PQresultStatus r d' <> PGRES_COMMAND_OK /\
    connected ((c, match t with TIdle => TIdle | _ => TAborted end) :: l) (PQclear r d');
}.

(** The driver knows of a transaction only its own flag: with autocommit on there is none; with
    it off there may be one, in whatever state. *)
Definition flagged (p : Z * bool) (q : Z * txn) : Prop := q.1 = p.1 /\ (p.2 = true -> q.2 = TIdle).
Section sessions.
  Context `{Libpq} (uri : string) (connected : list (Z * txn) -> pq -> Prop).
Definition sessions (l : list (Z * bool)) (d : pq) : Prop :=
  exists l', Forall2 flagged l l' /\ connected l' d.
  Context `{!OrderlyLibpq uri connected}.

Lemma sessions_perm l l' d : l ≡ₚ l' -> sessions l d -> sessions l' d.
Proof.
  intros Hp (k & Hk & Hd). destruct (Permutation_Forall2 Hp Hk) as (k' & Hp' & Hk').
  exists k'. split; [done|]. by eapply pq_connected_perm.
Qed.
Lemma sessions_nil d : sessions [] d <-> connected [] d.
Proof. split; [intros (l & Hl & Hd); by inversion Hl; subst|intros Hd; by exists []]. Qed.
Lemma sessions_cons c a l d : sessions ((c, a) :: l) d <->
  exists t l', (a = true -> t = TIdle) /\ Forall2 flagged l l' /\ connected ((c, t) :: l') d.
Proof.
  split.
  - intros (k & Hk & Hd). inversion Hk as [|? [c' t] ? l' [Hc Ht] Hl]; subst. simpl in *. subst. by exists t, l'.
  - intros (t & l' & Ht & Hl & Hd). exists ((c, t) :: l'). split; [by constructor|done].
Qed.
Lemma sessions_connect l d : sessions l d -> exists c d', PQconnectdb uri d = (c, d') /\ c <> 0 /\
  PQstatus c d' = CONNECTION_OK /\ sessions ((c, true) :: l) d'.
Proof.
  intros (k & Hk & Hd). destruct (pq_connects _ _ Hd) as (c & d' & Hc & H0 & Hs & Hd').
  exists c, d'. split_and!; [done..|]. apply sessions_cons. by exists TIdle, k.
Qed.
Lemma sessions_finish l c a d : sessions ((c, a) :: l) d -> sessions l (PQfinish c d).
Proof. intros (t & k & _ & Hk & Hd)%sessions_cons. exists k. split; [done|]. by eapply pq_finishes. Qed.
Lemma sessions_types l c d : sessions ((c, true) :: l) d -> exists r d', PQexec c kTypeQuery d = (r, d') /\
  PQresultStatus r d' = PGRES_TUPLES_OK /\ sessions ((c, true) :: l) (PQclear r d').
Proof.
  intros (t & k & Ht & Hk & Hd)%sessions_cons. rewrite (Ht eq_refl) in Hd.
  destruct (pq_types _ _ _ Hd) as (r & d' & Hr & Hs & Hd'). exists r, d'. split_and!; [done..|].
  apply sessions_cons. by exists TIdle, k.
Qed.
(** The commands: BEGIN where autocommit is on, the ends in every state. *)
Definition command_for (q : string) (a b : bool) : Prop :=
  (q = "BEGIN TRANSACTION"%string /\ a = true /\ b = false) \/ q ∈ kEnds.
Lemma sessions_command l c q a b d : sessions ((c, a) :: l) d -> command_for q a b -> exists r d',
  PQexec c q d = (r, d') /\ PQresultStatus r d' = PGRES_COMMAND_OK /\ sessions ((c, b) :: l) (PQclear r d').
Proof.
  intros (t & k & Ht & Hk & Hd)%sessions_cons [(-> & -> & ->)|Hq].
  - rewrite (Ht eq_refl) in Hd. destruct (pq_begins _ _ _ Hd) as (r & d' & Hr & Hs & Hd').
    exists r, d'. split_and!; [done..|]. apply sessions_cons. by exists TActive, k.
  - destruct (pq_ends _ _ _ _ _ Hd Hq) as (r & d' & Hr & Hs & Hd').
    exists r, d'. split_and!; [done..|]. apply sessions_cons. by exists TIdle, k.
Qed.
Lemma sessions_not_sql l c a d : sessions ((c, a) :: l) d -> exists r d',
  PQexecParams c not_a_query kPgBinaryFormat d = (r, d') /\
  PQresultStatus r d' <> PGRES_COMMAND_OK /\ sessions ((c, a) :: l) (PQclear r d').
Proof.
  intros (t & k & Ht & Hk & Hd)%sessions_cons. destruct (pq_not_sql _ _ _ _ Hd) as (r & d' & Hr & Hs & Hd').
  exists r, d'. split_and!; [done..|]. apply sessions_cons. eexists _, k. split_and!; [|done|exact Hd'].
  intros Ha. by rewrite (Ht Ha).
Qed.
End sessions.

(** * The driver's state in the suite *)
Record PgFixture `{Libpq} := mkPgFixture {
  pf_error : AdbcError;
  pf_pq : pq;
  pf_databases : list PostgresDatabase;
  pf_connections : list PostgresConnection;
  pf_database : option nat;
  pf_first : option nat;
  pf_second : option nat;
  pf_statement : option PostgresStatement;
}.
Arguments mkPgFixture {_} pf_error pf_pq pf_databases pf_connections pf_database pf_first pf_second
  pf_statement.
Definition other (c : slot) : slot := match c with First => Second | Second => First end.

Section driver.
  Context `{Libc} `{Libpq}.

Definition pf_heap (f : PgFixture) : Heap :=
  mkHeap (Some (pf_error f)) (pf_pq f) (pf_databases f) (pf_connections f).
Definition pf_set_heap (h : Heap) (f : PgFixture) : PgFixture :=
  mkPgFixture (default (pf_error f) (hp_error h)) (hp_pq h) (hp_databases h) (hp_connections h)
    (pf_database f) (pf_first f) (pf_second f) (pf_statement f).
Definition pf_connection (c : slot) (f : PgFixture) : option nat :=
  match c with First => pf_first f | Second => pf_second f end.
Definition pf_set_database (p : option nat) (f : PgFixture) : PgFixture :=
  mkPgFixture (pf_error f) (pf_pq f) (pf_databases f) (pf_connections f) p (pf_first f) (pf_second f)
    (pf_statement f).
Definition pf_set_connection (c : slot) (p : option nat) (f : PgFixture) : PgFixture :=
  match c with
  | First => mkPgFixture (pf_error f) (pf_pq f) (pf_databases f) (pf_connections f) (pf_database f)
               p (pf_second f) (pf_statement f)
  | Second => mkPgFixture (pf_error f) (pf_pq f) (pf_databases f) (pf_connections f) (pf_database f)
                (pf_first f) p (pf_statement f)
  end.
Definition pf_set_statement (t : option PostgresStatement) (f : PgFixture) : PgFixture :=
  mkPgFixture (pf_error f) (pf_pq f) (pf_databases f) (pf_connections f) (pf_database f)
    (pf_first f) (pf_second f) t.
Definition pf_database_lens : Lens PgFixture HandleState :=
  mkLens (fun f => (pf_heap f, pf_database f)) (fun s f => pf_set_database s.2 (pf_set_heap s.1 f)).
Definition pf_connection_lens (c : slot) : Lens PgFixture HandleState :=
  mkLens (fun f => (pf_heap f, pf_connection c f))
    (fun s f => pf_set_connection c s.2 (pf_set_heap s.1 f)).
(** The call without a stream and a row count. *)
Definition pf_statement_lens : Lens PgFixture AS :=
  mkLens (fun f => mkAS (pf_heap f) (pf_statement f) None None)
    (fun s f => pf_set_statement (as_private s) (pf_set_heap (as_heap s) f)).

(** [PostgresQuirks] (postgresql_test.cc), with [uri] in the environment. *)
#[export] Instance postgres_driver (uri : string) : Driver PgFixture := {|
  api call :=
    match call with
    | ApiDatabaseNew => zoom pf_database_lens PgPublic.AdbcDatabaseNew
    | ApiSetupDatabase => zoom pf_database_lens (PgPublic.AdbcDatabaseSetOption "uri" uri)
    | ApiDatabaseInit => zoom pf_database_lens PgPublic.AdbcDatabaseInit
    | ApiDatabaseRelease => zoom pf_database_lens PgPublic.AdbcDatabaseRelease
    | ApiConnectionNew c => zoom (pf_connection_lens c) PgPublic.AdbcConnectionNew
    | ApiConnectionInit c =>
        database ← gets pf_database;
        zoom (pf_connection_lens c) (PgPublic.AdbcConnectionInit database)
    | ApiConnectionRelease c => zoom (pf_connection_lens c) PgPublic.AdbcConnectionRelease
    | ApiConnectionCommit c => zoom (pf_connection_lens c) PgPublic.AdbcConnectionCommit
    | ApiConnectionRollback c => zoom (pf_connection_lens c) PgPublic.AdbcConnectionRollback
    | ApiConnectionSetOption c key value =>
        zoom (pf_connection_lens c) (PgPublic.AdbcConnectionSetOption key value)
    | ApiStatementNew c =>
        connection ← gets (pf_connection c);
        zoom pf_statement_lens (PgPublic.AdbcStatementNew connection)
    | ApiStatementRelease => zoom pf_statement_lens PgPublic.AdbcStatementRelease
    | ApiStatementPrepare => zoom pf_statement_lens PgPublic.AdbcStatementPrepare
    | ApiStatementSetSqlQuery query =>
        zoom pf_statement_lens (PgPublic.AdbcStatementSetSqlQuery query)
    | ApiStatementExecuteQuery => zoom pf_statement_lens PgPublic.AdbcStatementExecuteQuery
    end;
  memset_object o :=
    match o with
    | ODatabase => pf_set_database None
    | OConnection c => pf_set_connection c None
    | OStatement => pf_set_statement None
    end;
  private_data o f :=
    match o with
    | ODatabase => bool_decide (is_Some (pf_database f))
    | OConnection c => bool_decide (is_Some (pf_connection c f))
    | OStatement => bool_decide (is_Some (pf_statement f))
    end;
  the_error := mkLens pf_error (fun e f =>
    pf_set_heap (mkHeap (Some e) (pf_pq f) (pf_databases f) (pf_connections f)) f);
  release_error := Postgres.ReleaseError;
  supports_transactions := true;
|}.
End driver.

(** * Simulation

    [h]: the connection object and the library's connection, where it is open, with the flag of
    autocommit. *)
Definition handles (open : list (nat * (Z * bool))) : list (nat * Z) := map (fun p => (p.1, p.2.1)) open.
Section states.
  Context (uri : string).

(** [n]: the open connections. *)
Inductive pg_database_is (dbs : list PostgresDatabase) (n : Z) : database_state -> option nat -> Prop :=
| pg_djunk p : n = 0 -> pg_database_is dbs n DJunk p
| pg_dunset : n = 0 -> pg_database_is dbs n DUnset None
| pg_dnew i m : n = 0 -> dbs !! i = Some (mkDatabase 0 "" m) -> pg_database_is dbs n DNew (Some i)
| pg_dset i m : n = 0 -> dbs !! i = Some (mkDatabase 0 uri m) -> pg_database_is dbs n DSet (Some i)
| pg_dready i m : dbs !! i = Some (mkDatabase n uri m) -> pg_database_is dbs n DReady (Some i).
Inductive pg_connection_is (cs : list PostgresConnection) (db : option nat) :
    connection_state -> option nat -> list (nat * (Z * bool)) -> Prop :=
| pg_cjunk p : pg_connection_is cs db CJunk p []
| pg_cunset : pg_connection_is cs db CUnset None []
| pg_cnew j : cs !! j = Some (mkConnection None 0 true) -> pg_connection_is cs db CNew (Some j) []
| pg_copen j conn a : conn <> 0 -> cs !! j = Some (mkConnection db conn a) ->
    pg_connection_is cs db (COpen a) (Some j) [(j, (conn, a))].
(** A statement that has not been executed with success. *)
Definition idle_statement (db : option nat) (j : nat) (conn : Z) (query : string) : PostgresStatement :=
  mkStatement db (Some j) query false StreamReleased "" false (new_reader conn).
Inductive pg_statement_is (open : list (nat * (Z * bool))) : statement_state -> option PostgresStatement -> Prop :=
| pg_sjunk t : pg_statement_is open SJunk t
| pg_sunset : pg_statement_is open SUnset None
| pg_snew db j conn : (j, conn) ∈ handles open ->
    pg_statement_is open SNew (Some (idle_statement db j conn ""))
| pg_squery db j conn : (j, conn) ∈ handles open ->
    pg_statement_is open SQuery (Some (idle_statement db j conn not_a_query)).

Context `{Libpq} (connected : list (Z * bool) -> pq -> Prop).
(** Seen from one connection: [hc] is behind it and [ho] behind the other. *)
Record pg_view (c : slot) (l : lifecycle) (f : PgFixture) (hc ho : list (nat * (Z * bool))) : Prop := {
  pv_database : pg_database_is (pf_databases f) (zlen (hc ++ ho)) (l_database l) (pf_database f);
  pv_connection :
    pg_connection_is (pf_connections f) (pf_database f) (l_connection c l) (pf_connection c f) hc;
  pv_other : pg_connection_is (pf_connections f) (pf_database f) (l_connection (other c) l)
    (pf_connection (other c) f) ho;
  pv_distinct : live_connection (l_connection c l) = true ->
    live_connection (l_connection (other c) l) = true -> pf_connection c f <> pf_connection (other c) f;
  pv_statement : pg_statement_is (hc ++ ho) (l_statement l) (pf_statement f);
  pv_connected : connected (hc ++ ho).*2 (pf_pq f);
}.
Definition pg_in_state (l : lifecycle) (f : PgFixture) : Prop :=
  exists h1 h2, pg_view First l f h1 h2.
End states.

Section views.
  Context `{Libpq} {uri : string} {connected : list (Z * bool) -> pq -> Prop}.
  Context (Hperm : forall l l' d, l ≡ₚ l' -> connected l d -> connected l' d).
#[local] Abbreviation view := (pg_view uri connected).

(** Where nothing is open, the connections do not depend on the databases. *)
Lemma closed_connection cs db db' st p : pg_connection_is cs db st p [] -> pg_connection_is cs db' st p [].
Proof. intros Hc. inversion Hc; subst; by constructor. Qed.
(** The objects of the connections in use stay as they are. *)
Lemma connection_is_weaken cs cs' db st p h :
  (forall j c, p = Some j -> cs !! j = Some c -> live_connection st = true -> cs' !! j = Some c) ->
  pg_connection_is cs db st p h -> pg_connection_is cs' db st p h.
Proof.
  intros Hw Hc. destruct Hc as [p| |j Hj|j conn a Hconn Hj]; [by constructor..| |];
    econstructor; try done; by eapply Hw.
Qed.
Lemma statement_is_perm o o' st t : o ≡ₚ o' -> pg_statement_is o st t -> pg_statement_is o' st t.
Proof.
  intros Hp. assert (handles o ≡ₚ handles o') as Hh by (unfold handles; by rewrite Hp).
  intros []; try constructor; by rewrite <- Hh.
Qed.
Lemma pg_statement_is_mono o o' ho st t :
  handles o ⊆ handles o' -> pg_statement_is (o ++ ho) st t -> pg_statement_is (o' ++ ho) st t.
Proof.
  intros Hs. assert (forall p, p ∈ handles (o ++ ho) -> p ∈ handles (o' ++ ho)) as Hin.
  { intros p. unfold handles in *. rewrite !map_app, !elem_of_app. intros [Hp|Hp]; [left; by apply Hs|by right]. }
  intros []; constructor; by apply Hin.
Qed.
Lemma view_swap c l f hc ho : view c l f hc ho -> view (other c) l f ho hc.
Proof.
  intros [Hd Hc Ho Hne Hs Hl]. assert (other (other c) = c) as Hcc by by destruct c.
  assert (hc ++ ho ≡ₚ ho ++ hc) as Hp by apply Permutation_app_comm.
  split; rewrite ?Hcc; try done.
  - unfold zlen in *. by rewrite <- Hp.
  - intros H1 H2 He. by apply Hne.
  - by eapply statement_is_perm.
  - eapply Hperm; [|exact Hl]. by rewrite Hp.
Qed.
Lemma in_state_view c l f : pg_in_state uri connected l f <-> exists hc ho, view c l f hc ho.
Proof.
  unfold pg_in_state. destruct c; [done|]. split; intros (hc & ho & Hv); apply view_swap in Hv; eauto.
Qed.
End views.

Section simulation.
  Context `{Libc} `{Libpq} {uri : string} {server : list (Z * txn) -> pq -> Prop}.
  Context `{!OrderlyLibpq uri server} (Huri : uri <> ""%string).
  #[local] Abbreviation connected := (sessions server).
  #[local] Existing Instance postgres_driver.

(** ** Methods on the heap *)
Lemma wp_raise {S A} `{!HasError S} code parts (Q : A -> S -> Prop) (E : Z -> S -> Prop) s :
  (forall e, E code (over error_lens e s)) -> wp (raise code parts) Q E s.
Proof. intros HE. unfold raise. apply wp_bind, wp_pg_set_error. intros e. apply HE. Qed.
Lemma wp_database i db (Q : PostgresDatabase -> Heap -> Prop) E h :
  hp_databases h !! i = Some db -> Q db h -> wp (database i) Q E h.
Proof. intros Hd HQ. unfold database. wp_steps. by eapply wp_lift_opt. Qed.
Lemma pg_wp_connection i c (Q : PostgresConnection -> Heap -> Prop) E h :
  hp_connections h !! i = Some c -> Q c h -> wp (connection i) Q E h.
Proof. intros Hd HQ. unfold connection. wp_steps. by eapply wp_lift_opt. Qed.
Lemma pg_wp_i32 {S} n (Q : Z -> S -> Prop) E s : 0 <= n < 2 ^ 31 -> Q n s -> wp (i32 n) Q E s.
Proof.
  intros Hn HQ. unfold i32, INT32_MIN, INT32_MAX.
  rewrite (proj2 (Z.leb_le _ _)), (proj2 (Z.leb_le _ _)) by lia. exact HQ.
Qed.

(** The heap after a call, up to the error: its databases, its connections, the library. *)
Definition heap_is (dbs : list PostgresDatabase) (cs : list PostgresConnection) (l : list (Z * bool)) (h : Heap) : Prop :=
  hp_databases h = dbs /\ hp_connections h = cs /\ connected l (hp_pq h).

Lemma wp_connect i n m conn dbs cs l h (Q : Z * Z -> Heap -> Prop) E :
  heap_is dbs cs l h -> dbs !! i = Some (mkDatabase n uri m) -> 0 <= n < 2 ^ 30 ->
  (forall conn' h', conn' <> 0 -> heap_is (<[i := mkDatabase (n + 1) uri m]> dbs) cs ((conn', true) :: l) h' ->
     Q (ADBC_STATUS_OK, conn') h') ->
  wp (Database_Connect i conn) Q E h.
Proof.
  intros (Hdbs & Hcs & Hl) Hd Hn HQ. destruct (sessions_connect uri server _ _ Hl) as (c & d & Hc & Hc0 & Hok & Hl').
  unfold Database_Connect. apply wp_bind. eapply wp_database; [by rewrite Hdbs|].
  unfold streq. simpl. apply String.eqb_neq in Huri. rewrite Huri.
  apply wp_bind. eapply wp_pq_call; [exact Hc|]. apply wp_bind, wp_pq_ask.
  change (pq_of _) with d. rewrite Hok. simpl. apply wp_bind, pg_wp_i32; [lia|]. unfold put_database. wp_steps.
  apply HQ; [done|]. split_and!; [by rewrite <- Hdbs|done|done].
Qed.
Lemma wp_disconnect i n m conn a dbs cs l h (Q : unit -> Heap -> Prop) E :
  heap_is dbs cs ((conn, a) :: l) h -> dbs !! i = Some (mkDatabase n uri m) -> 1 <= n < 2 ^ 30 ->
  (forall h', heap_is (<[i := mkDatabase (n - 1) uri m]> dbs) cs l h' -> Q tt h') ->
  wp (Database_Disconnect i conn) Q E h.
Proof.
  intros (Hdbs & Hcs & Hl) Hd Hn HQ. unfold Database_Disconnect. apply wp_bind, wp_pq_do.
  apply wp_bind. eapply wp_database; [simpl; by rewrite Hdbs|]. apply wp_bind, pg_wp_i32; [simpl; lia|].
  unfold put_database. wp_steps. rewrite (proj2 (Z.ltb_ge _ _)) by lia. wp_steps. apply HQ.
  split_and!; simpl; [by rewrite Hdbs|done|]. by eapply (sessions_finish uri server).
Qed.

(** Reading the types changes the mapping of the database. *)
Lemma wp_insert_types i n m result rows dbs cs h (Q : unit -> Heap -> Prop) E :
  hp_databases h = <[i := mkDatabase n uri m]> dbs -> hp_connections h = cs -> (i < length dbs)%nat ->
  (forall m' h', hp_databases h' = <[i := mkDatabase n uri m']> dbs -> hp_connections h' = cs ->
     hp_pq h' = hp_pq h -> Q tt h') ->
  wp (for_range 0 rows (insert_type i result)) Q E h.
Proof.
  intros Hdbs Hcs Hi HQ. unfold for_range.
  eapply wp_conseq; [apply (wp_for_loop (fun _ h' => exists m', hp_databases h' = <[i := mkDatabase n uri m']> dbs /\
    hp_connections h' = cs /\ hp_pq h' = hp_pq h))| |done].
  - by exists m.
  - intros row h1 _ (m1 & Hd1 & Hc1 & Hp1). unfold insert_type. do 3 apply wp_bind, wp_pq_ask.
    apply wp_bind. eapply wp_database; [by rewrite Hd1, list_lookup_insert_eq|].
    unfold put_database. wp_steps. eexists. split_and!; [|done|done]. by rewrite Hd1, list_insert_insert_eq.
  - intros [] h' (m' & Hd' & Hc' & Hp'). by eapply HQ.
Qed.
Lemma wp_database_init i m dbs cs l h (Q : unit -> Heap -> Prop) E :
  heap_is dbs cs l h -> dbs !! i = Some (mkDatabase 0 uri m) ->
  (forall m' h', heap_is (<[i := mkDatabase 0 uri m']> dbs) cs l h' -> Q tt h') ->
  wp (Database_Init i) Q E h.
Proof.
  intros Hh Hd HQ. unfold Database_Init. apply wp_bind. eapply wp_connect; [done..|].
  intros conn h1 Hconn (Hd1 & Hc1 & Hl1). simpl. destruct (sessions_types uri server _ _ _ Hl1) as (r & d & Hr & Hok & Hl2).
  apply wp_bind. eapply wp_pq_call; [exact Hr|]. apply wp_bind, wp_pq_ask. change (pq_of _) with d.
  rewrite Hok. simpl. apply wp_bind, wp_bind, wp_pq_ask, wp_bind.
  pose proof (lookup_lt_Some _ _ _ Hd) as Hlt.
  eapply wp_insert_types; [exact Hd1|exact Hc1|done|]. intros m' h2 Hd2 Hc2 Hp2. wp_steps.
  apply wp_pq_do, wp_bind, wp_catch. eapply wp_disconnect.
  - split_and!; [exact Hd2|exact Hc2|]. simpl. unfold pq_of. simpl. rewrite Hp2. exact Hl2.
  - by rewrite list_lookup_insert_eq.
  - lia.
  - intros h3 Hh3. wp_steps. rewrite list_insert_insert_eq in Hh3. by eapply HQ.
Qed.

(** ** Databases *)
#[local] Abbreviation in_state := (pg_in_state uri connected).
#[local] Abbreviation answered := (answered in_state).
(** What a call on a database must leave behind, with [open] the connections in use. *)
Definition database_post (f : PgFixture) (open : list (nat * (Z * bool))) (o : outcome) (st' : database_state)
    (code : Z) (s : HandleState) : Prop :=
  allows o code /\ heap_is (hp_databases s.1) (pf_connections f) open.*2 s.1 /\
  pg_database_is uri (hp_databases s.1) (zlen open) st' s.2 /\ (s.2 = pf_database f \/ open = []).
Lemma database_call m l o st' f h1 h2 : pg_view uri connected First l f h1 h2 ->
  wp m (fun _ => database_post f (h1 ++ h2) o st' 0) (database_post f (h1 ++ h2) o st')
    (pf_heap f, pf_database f) ->
  answered (zoom pf_database_lens m) o (set_database st' l) f.
Proof.
  intros [Hd Hc Ho Hne Hs Hl] Hm. apply answered_wp, wp_zoom. eapply wp_conseq; [exact Hm|..].
  all: intros ? [h p] (Hallow & (_ & Hcs & Hl') & Hd' & Hp); split; [exact Hallow|]; simpl in *.
  all: exists h1, h2; split; simpl; try rewrite Hcs; try done.
  all: destruct Hp as [->|[-> ->]%app_eq_nil]; [done|by eapply closed_connection].
Qed.

Lemma zlen_nil {A} (l : list A) : zlen l = 0 -> l = [].
Proof. destruct l; [done|]. unfold zlen. simpl. lia. Qed.

Section database_calls.
Context (f : PgFixture) (open : list (nat * (Z * bool))) (Hl : connected open.*2 (pf_pq f)).
#[local] Abbreviation dbs := (pf_databases f).
#[local] Abbreviation runs m o st' :=
  (wp m (fun _ => database_post f open o st' 0) (database_post f open o st') (pf_heap f, pf_database f)).

Lemma DatabaseNew_runs : pg_database_is uri dbs (zlen open) DUnset (pf_database f) ->
  runs PostgresDatabaseNew OK DNew.
Proof.
  intros Hd. inversion Hd as [|Hz Hst Hp| | |]. apply zlen_nil in Hz. unfold PostgresDatabaseNew. wp_steps.
  split_and!; [done|by split_and!| |by right]. simpl. rewrite Hz. eapply pg_dnew; [done|].
  by rewrite lookup_app_r, Nat.sub_diag by lia.
Qed.
(** A call that is refused and changes nothing but the error. *)
Lemma refused_database code h st :
  heap_is dbs (pf_connections f) open.*2 h -> pg_database_is uri dbs (zlen open) st (pf_database f) ->
  database_post f open (Answers code) st code (h, pf_database f).
Proof. intros (Hd & Hc & Hq) Hs. split_and!; [done| | |by left]; simpl; by rewrite ?Hd. Qed.
Lemma pg_DatabaseNew_again st : live_database st = true ->
  pg_database_is uri dbs (zlen open) st (pf_database f) -> runs PostgresDatabaseNew INVALID_STATE st.
Proof.
  intros Hst Hd. assert (is_Some (pf_database f)) as [i Hi] by (destruct Hd; done).
  unfold PostgresDatabaseNew. wp_steps. rewrite Hi. apply wp_raise. intros e. simpl. rewrite <- Hi.
  by apply refused_database.
Qed.
Lemma pg_SetupDatabase_runs : pg_database_is uri dbs (zlen open) DNew (pf_database f) ->
  runs (PostgresDatabaseSetOption "uri" uri) OK DSet.
Proof.
  intros Hd. inversion Hd as [| |i m Hz Hi Hst Hp| |]. unfold PostgresDatabaseSetOption, with_handle.
  wp_steps. unfold Database_SetOption. simpl. apply wp_bind.
  eapply wp_database; [exact Hi|]. unfold put_database. wp_steps. split_and!; [done|done| |by left]. simpl.
  eapply pg_dset; [done|]. by rewrite list_lookup_insert_eq by (by eapply lookup_lt_Some).
Qed.
Lemma pg_DatabaseInit_runs : pg_database_is uri dbs (zlen open) DSet (pf_database f) ->
  runs PostgresDatabaseInit OK DReady.
Proof.
  intros Hd. inversion Hd as [| | |i m Hz Hi Hst Hp|]. unfold PostgresDatabaseInit, with_handle.
  wp_steps. eapply wp_database_init; [by split_and!|exact Hi|].
  intros m' h' (Hd' & Hc' & Hl'). split_and!; [done|by split_and!| |by left]. simpl. rewrite Hd', Hz.
  eapply pg_dready. by rewrite list_lookup_insert_eq by (by eapply lookup_lt_Some).
Qed.
Lemma pg_DatabaseRelease_unset : pg_database_is uri dbs (zlen open) DUnset (pf_database f) ->
  runs PostgresDatabaseRelease INVALID_STATE DUnset.
Proof.
  intros Hd. inversion Hd as [|Hz Hst Hp| | |]. unfold PostgresDatabaseRelease, release_handle. wp_steps.
  rewrite Hp. apply refused_database; [by split_and!|exact Hd].
Qed.
Lemma pg_DatabaseRelease_live st : live_database st = true -> open = [] ->
  pg_database_is uri dbs (zlen open) st (pf_database f) -> runs PostgresDatabaseRelease OK DUnset.
Proof.
  intros Hst Hz Hd.
  assert (exists i u m, pf_database f = Some i /\ dbs !! i = Some (mkDatabase 0 u m)) as (i & u & m & Hp & Hi).
  { rewrite Hz in Hd. destruct Hd; try done; eauto. }
  unfold PostgresDatabaseRelease, release_handle. wp_steps. rewrite Hp. wp_steps.
  unfold Database_Release. apply wp_bind. eapply wp_database; [exact Hi|]. simpl. unfold set_private. wp_steps.
  split_and!; [done|by split_and!| |by right]. simpl. rewrite Hz. by apply pg_dunset.
Qed.
End database_calls.

(** The calls that leave the protocol's state alone. *)
Lemma pg_same_database l : set_database (l_database l) l = l.
Proof. by destruct l. Qed.
Lemma database_stays m l o f h1 h2 : pg_view uri connected First l f h1 h2 ->
  wp m (fun _ => database_post f (h1 ++ h2) o (l_database l) 0)
    (database_post f (h1 ++ h2) o (l_database l)) (pf_heap f, pf_database f) ->
  answered (zoom pf_database_lens m) o l f.
Proof. intros Hv Hm. rewrite <- (pg_same_database l) at 1. by eapply database_call. Qed.
Lemma pg_database_answers call l o l' f :
  match call with
  | ApiDatabaseNew | ApiSetupDatabase | ApiDatabaseInit | ApiDatabaseRelease => True
  | _ => False
  end ->
  in_state l f -> spec call l = Some (o, l') -> answered (api (Driver := postgres_driver uri) call) o l' f.
Proof.
  intros Hcall (h1 & h2 & Hv) Hspec. pose proof Hv as [Hd Hc Ho Hne Hs Hl].
  assert (is_open (l_first l) || is_open (l_second l) = false -> h1 ++ h2 = []) as Hopen.
  { simpl in Hc, Ho. destruct Hc, Ho; done. }
  assert (l_database l <> DReady -> h1 ++ h2 = []) as Hready.
  { intros Hst. apply zlen_nil. by destruct Hd. }
  destruct call; try done; simpl in Hspec; destruct (l_database l) eqn:El; try done.
  all: try (destruct (_ || _) eqn:Hno; [done|]); injection Hspec as <- <-.
  all: first [eapply database_stays; [exact Hv|] | eapply database_call; [exact Hv|]].
  all: rewrite ?El; clear Hv.
  - by apply DatabaseNew_runs.
  - by apply pg_DatabaseNew_again.
  - by apply pg_DatabaseNew_again.
  - by apply pg_DatabaseNew_again.
  - by apply pg_SetupDatabase_runs.
  - by apply pg_DatabaseInit_runs.
  - by apply pg_DatabaseRelease_unset.
  - eapply pg_DatabaseRelease_live; [done| |by apply Hready|exact Hd]; done.
  - eapply pg_DatabaseRelease_live; [done| |by apply Hready|exact Hd]; done.
  - eapply pg_DatabaseRelease_live; [done| |by apply Hopen|exact Hd]; done.
Qed.

(** ** Connections

    A call on an allocated connection may change its object [j], or give it up. *)
Definition connection_post (f : PgFixture) (l : lifecycle) (j : nat) (hc ho : list (nat * (Z * bool))) (o : outcome)
    (st' : connection_state) (code : Z) (s : HandleState) : Prop :=
  allows o code /\ (s.2 = Some j \/ s.2 = None) /\ exists x hc',
    (live_statement (l_statement l) = false \/ handles hc ⊆ handles hc') /\
    heap_is (hp_databases s.1) (<[j := x]> (pf_connections f)) (hc' ++ ho).*2 s.1 /\
    pg_connection_is (hp_connections s.1) (pf_database f) st' s.2 hc' /\
    pg_database_is uri (hp_databases s.1) (zlen (hc' ++ ho)) (l_database l) (pf_database f).
Lemma connection_call c m l o st' f j hc ho :
  pg_view uri connected c l f hc ho -> pf_connection c f = Some j ->
  live_connection (l_connection c l) = true ->
  wp m (fun _ => connection_post f l j hc ho o st' 0) (connection_post f l j hc ho o st')
    (pf_heap f, Some j) ->
  answered (zoom (pf_connection_lens c) m) o (set_connection c st' l) f.
Proof.
  intros [Hd Hc Ho Hne Hs Hl] Hj Hlive Hm. apply answered_wp, wp_zoom.
  change (view (pf_connection_lens c) f) with (pf_heap f, pf_connection c f). rewrite Hj.
  eapply wp_conseq; [exact Hm|..].
  all: intros ? [h p] (Hallow & Hp & x & hc' & Hst & (_ & Hcs & Hl') & Hc' & Hd'); simpl in *;
    split; [exact Hallow|].
  all: assert (pg_statement_is (hc' ++ ho) (l_statement l) (pf_statement f)) as Hs'
    by (destruct Hst as [Hst|Hsub]; [destruct Hs; try done; constructor|by eapply pg_statement_is_mono]).
  all: apply (in_state_view (fun l l' d => sessions_perm uri server l l' d) c); exists hc', ho.
  all: assert (pg_connection_is (hp_connections h) (pf_database f) (l_connection (other c) l)
      (pf_connection (other c) f) ho) as Ho'
    by (eapply connection_is_weaken; [|exact Ho]; intros j' y Hj' Hy Hlive'; rewrite Hcs;
        rewrite list_lookup_insert_ne; [done|]; intros ->; by apply Hne; [..|by rewrite Hj, Hj']).
  all: destruct c; split; simpl in *; try done.
  all: intros _ Hlo; destruct Hp as [->| ->]; [rewrite <- Hj; by apply Hne|].
  all: by destruct Ho.
Qed.

Lemma handles_short cs db st p h : pg_connection_is cs db st p h -> zlen h <= 1.
Proof. intros []; unfold zlen; simpl; lia. Qed.
(** The transaction commands. *)
Lemma wp_run_command conn a b q what dbs cs l h (Q : unit -> Heap -> Prop) E :
  heap_is dbs cs ((conn, a) :: l) h -> command_for q a b ->
  (forall h', heap_is dbs cs ((conn, b) :: l) h' -> Q tt h') -> wp (run_command conn q what) Q E h.
Proof.
  intros (Hd & Hc & Hl) Hq HQ. destruct (sessions_command uri server _ _ _ _ _ _ Hl Hq) as (r & d & Hr & Hok & Hl').
  unfold run_command, check_command. apply wp_bind. eapply wp_pq_call; [exact Hr|].
  apply wp_bind, wp_pq_ask. change (pq_of _) with d. rewrite Hok. simpl. apply wp_pq_do. by apply HQ.
Qed.

Section connection_calls.
Context (c : slot) (l : lifecycle) (f : PgFixture) (hc ho : list (nat * (Z * bool))).
Context (Hv : pg_view uri connected c l f hc ho).

(** The calls on a connection that is not allocated. *)
Lemma pg_unset_connection (method : nat -> M Heap unit) :
  l_connection c l = CUnset -> answered (zoom (pf_connection_lens c) (with_handle method)) INVALID_STATE l f /\
  answered (zoom (pf_connection_lens c) (release_handle method)) INVALID_STATE l f.
Proof.
  intros El. pose proof Hv as [Hd Hc Ho Hne Hs Hl]. rewrite El in Hc. inversion Hc as [|Ex Ep Eh| |].
  split; apply answered_wp, wp_zoom; unfold with_handle, release_handle; wp_steps; rewrite <- Ep; wp_steps.
  all: split; [done|]; apply (in_state_view (fun l l' d => sessions_perm uri server l l' d) c); exists hc, ho.
  all: destruct c; simpl in *; rewrite Ep; by destruct f.
Qed.
Lemma pg_ConnectionNew_runs : l_connection c l = CUnset ->
  answered (zoom (pf_connection_lens c) PostgresConnectionNew) OK (set_connection c CNew l) f.
Proof.
  intros El. pose proof Hv as [Hd Hc Ho Hne Hs Hl]. rewrite El in Hc. inversion Hc as [|Ex Ep Eh| |].
  apply answered_wp, wp_zoom. unfold PostgresConnectionNew. wp_steps. split; [done|].
  apply (in_state_view (fun l l' d => sessions_perm uri server l l' d) c). exists [], ho. rewrite <- Eh in *.
  assert (pg_connection_is (pf_connections f ++ [new_connection]) (pf_database f) (l_connection (other c) l)
    (pf_connection (other c) f) ho) as Ho'.
  { eapply connection_is_weaken; [|exact Ho]. intros j x _ Hx _. by apply lookup_app_l_Some. }
  assert (forall j, pf_connection (other c) f = Some j -> live_connection (l_connection (other c) l) = true ->
    (j < length (pf_connections f))%nat) as Hlt.
  { intros j Hj Hlive. destruct Ho as [| |j' Hx|j' conn a _ Hx]; try done; injection Hj as <-;
      by eapply lookup_lt_Some. }
  destruct c; split; simpl in *; try done.
  1,3: constructor; by rewrite lookup_app_r, Nat.sub_diag by lia.
  all: intros _ Hlo He; specialize (Hlt _ (eq_sym He) Hlo); lia.
Qed.

Context (j : nat) (Hj : pf_connection c f = Some j).
Lemma same_post o code st h x : allows o code -> pf_connections f !! j = Some x ->
  heap_is (pf_databases f) (pf_connections f) (hc ++ ho).*2 h ->
  pg_connection_is (pf_connections f) (pf_database f) st (Some j) hc ->
  connection_post f l j hc ho o st code (h, Some j).
Proof.
  intros Hallow Hx Hh Hst. destruct h as [e d dbs cs], Hh as (Hd & Hc & Hq). simpl in *. subst.
  split; [done|]. split; [by left|]. exists x, hc. rewrite (list_insert_id _ _ _ Hx).
  split; [by right|]. split; [by split_and!|]. split; [exact Hst|]. apply Hv.
Qed.
Lemma view_heap : heap_is (pf_databases f) (pf_connections f) (hc ++ ho).*2 (pf_heap f).
Proof. split_and!; [done|done|apply Hv]. Qed.
(** What an open connection has behind it. *)
Lemma open_connection a : l_connection c l = COpen a -> exists i m conn,
  hc = [(j, (conn, a))] /\ conn <> 0 /\ pf_connections f !! j = Some (mkConnection (Some i) conn a) /\
  pf_database f = Some i /\ l_database l = DReady /\
  pf_databases f !! i = Some (mkDatabase (zlen (hc ++ ho)) uri m).
Proof.
  intros El. pose proof Hv as [Hd Hc Ho _ _ _]. rewrite El, Hj in Hc.
  inversion Hc as [| | |j' conn a' Hconn Hx]; subst.
  assert (zlen ([(j, (conn, a))] ++ ho) <> 0) as Hz by (unfold zlen; simpl; lia).
  destruct Hd as [| | | |i m Hi]; try done. exists i, m, conn. by rewrite Hx.
Qed.
Lemma count_small : zlen (hc ++ ho) < 2 ^ 30.
Proof.
  pose proof Hv as [_ Hc Ho _ _ _]. apply handles_short in Hc, Ho. unfold zlen in *. rewrite length_app. lia.
Qed.

(** The end of a transaction. *)
Lemma pg_end_autocommit (m : nat -> M Heap unit) message k : l_connection c l = COpen true ->
  (forall i, m i = (x ← connection i;
     if pc_autocommit x then raise ADBC_STATUS_INVALID_STATE message else k x)) ->
  answered (zoom (pf_connection_lens c) (with_handle m)) INVALID_STATE (set_connection c (COpen true) l) f.
Proof.
  intros El Hm. destruct (open_connection _ El) as (i & tm & conn & Hhc & Hconn & Hx & Hdb & Hready & Hi).
  eapply connection_call; [exact Hv|exact Hj|by rewrite El|].
  unfold with_handle. wp_steps. rewrite Hm. apply wp_bind. eapply pg_wp_connection; [exact Hx|]. simpl.
  apply wp_raise. intros e. eapply same_post; [done|exact Hx|apply view_heap|].
  pose proof (pv_connection _ _ _ _ _ _ _ Hv) as Hc. by rewrite El, Hj in Hc.
Qed.
Lemma pg_end_transaction (m : nat -> M Heap unit) message q what : l_connection c l = COpen false ->
  q ∈ kEnds ->
  (forall i, m i = (x ← connection i;
     if pc_autocommit x then raise ADBC_STATUS_INVALID_STATE message
     else run_command (pc_conn x) q what)) ->
  answered (zoom (pf_connection_lens c) (with_handle m)) OK (set_connection c (COpen false) l) f.
Proof.
  intros El Hq Hm. destruct (open_connection _ El) as (i & tm & conn & Hhc & Hconn & Hx & Hdb & Hready & Hi).
  eapply connection_call; [exact Hv|exact Hj|by rewrite El|].
  unfold with_handle. wp_steps. rewrite Hm. apply wp_bind. eapply pg_wp_connection; [exact Hx|]. simpl.
  pose proof view_heap as Hh. rewrite Hhc in Hh. simpl in Hh.
  eapply (wp_run_command _ _ false); [exact Hh|by right|]. intros h' Hh'.
  eapply same_post; [done|exact Hx|by rewrite Hhc|].
  pose proof (pv_connection _ _ _ _ _ _ _ Hv) as Hc. by rewrite El, Hj in Hc.
Qed.

(** The option: only a change of mode sends a command. *)
Lemma pg_set_autocommit value a b : l_connection c l = COpen a ->
  (value = ADBC_OPTION_VALUE_ENABLED /\ b = true \/ value = ADBC_OPTION_VALUE_DISABLED /\ b = false) ->
  answered (zoom (pf_connection_lens c)
    (PostgresConnectionSetOption ADBC_CONNECTION_OPTION_AUTOCOMMIT value)) OK
    (set_connection c (COpen b) l) f.
Proof.
  intros El Hb. destruct (open_connection _ El) as (i & tm & conn & Hhc & Hconn & Hx & Hdb & Hready & Hi).
  pose proof view_heap as Hh. pose proof (lookup_lt_Some _ _ _ Hx) as Hlt.
  eapply connection_call; [exact Hv|exact Hj|by rewrite El|].
  unfold PostgresConnectionSetOption, with_handle. wp_steps. unfold Connection_SetOption. simpl.
  apply wp_bind, (wp_conseq _ (fun b' h => b' = b /\ h = pf_heap f) _ (fun _ _ => False)); [|intros b' h [-> ->]|done].
  { by destruct Hb as [[-> ->]|[-> ->]]; simpl; wp_steps. }
  apply wp_bind. eapply pg_wp_connection; [exact Hx|]. simpl.
  destruct (Bool.eqb b a) eqn:Hba; simpl; wp_steps.
  - apply eqb_prop in Hba as ->. eapply same_post; [done|exact Hx|exact Hh|].
    pose proof (pv_connection _ _ _ _ _ _ _ Hv) as Hc. by rewrite El, Hj in Hc.
  - rewrite Hhc in *. simpl in Hh. eapply (wp_run_command _ _ b); [exact Hh| |].
    { destruct b; [right; set_solver|left]. by destruct a. }
    intros h' (Hd' & Hc' & Hq'). unfold put_connection. wp_steps. split; [done|]. split; [by left|].
    eexists _, [(j, (conn, b))]. split; [right; set_solver|]. split; [split_and!; simpl; [done|by rewrite Hc'|done]|].
    split; simpl; [|rewrite Hd'; apply Hv].
    rewrite Hc', Hdb. apply pg_copen; [done|]. by rewrite list_lookup_insert_eq.
Qed.
Lemma pg_set_option_refused key value a : l_connection c l = COpen a ->
  key <> ADBC_CONNECTION_OPTION_AUTOCOMMIT \/
    (value <> ADBC_OPTION_VALUE_ENABLED /\ value <> ADBC_OPTION_VALUE_DISABLED) ->
  answered (zoom (pf_connection_lens c) (PostgresConnectionSetOption key value)) Refuses
    (set_connection c (COpen a) l) f.
Proof.
  intros El Hr. destruct (open_connection _ El) as (i & tm & conn & Hhc & Hconn & Hx & Hdb & Hready & Hi).
  assert (forall code e, code <> ADBC_STATUS_OK ->
    connection_post f l j hc ho Refuses (COpen a) code (over error_lens e (pf_heap f), Some j)) as Hend.
  { intros code e Hcode. eapply same_post; [done|exact Hx|apply view_heap|].
    pose proof (pv_connection _ _ _ _ _ _ _ Hv) as Hc. by rewrite El, Hj in Hc. }
  eapply connection_call; [exact Hv|exact Hj|by rewrite El|].
  unfold PostgresConnectionSetOption, with_handle. wp_steps. unfold Connection_SetOption, streq.
  destruct (String.eqb_spec key ADBC_CONNECTION_OPTION_AUTOCOMMIT) as [->|_].
  2: { apply wp_raise. intros e. by apply Hend. }
  destruct Hr as [|[Hon Hoff]]; [done|]. apply String.eqb_neq in Hon, Hoff. rewrite Hon, Hoff.
  apply wp_bind, wp_raise. intros e. by apply Hend.
Qed.

(** Opening and closing. *)
Lemma pg_ConnectionInit_runs : l_connection c l = CNew -> l_database l = DReady ->
  answered (zoom (pf_connection_lens c) (PostgresConnectionInit (pf_database f))) OK
    (set_connection c (COpen true) l) f.
Proof.
  intros El Hready. pose proof Hv as [Hd Hc Ho Hne Hs Hl]. pose proof count_small as Hsmall.
  rewrite El, Hj in Hc. inversion Hc as [| |j' Hx Ex Ep Eh|]. rewrite <- Eh in *. clear Ex Ep j'.
  assert (exists i m, pf_database f = Some i /\ pf_databases f !! i = Some (mkDatabase (zlen ho) uri m))
    as (i & m & Hdb & Hi) by (destruct Hd; try done; eauto).
  eapply connection_call; [exact Hv|exact Hj|by rewrite El|].
  unfold PostgresConnectionInit, with_handle, Connection_Init. wp_steps. rewrite Hdb.
  apply wp_bind. eapply pg_wp_connection; [exact Hx|]. unfold put_connection. wp_steps.
  eapply wp_connect; [by split_and!|exact Hi|unfold zlen in *; simpl in *; lia|].
  intros conn h' Hconn (Hd' & Hc' & Hl'). simpl in Hd', Hc'. wp_steps. split; [done|]. split; [by left|].
  pose proof (lookup_lt_Some _ _ _ Hx) as Hlt. pose proof (lookup_lt_Some _ _ _ Hi) as Hlti.
  eexists _, [(j, (conn, true))]. split; [right; set_solver|]. split; [split_and!; simpl; [done| |exact Hl']|split]; simpl.
  - by rewrite Hc', list_insert_insert_eq.
  - rewrite Hc', list_insert_insert_eq, Hdb. constructor; [done|]. by rewrite list_lookup_insert_eq.
  - rewrite Hdb, Hready, Hd'. eapply pg_dready. rewrite list_lookup_insert_eq by done.
    do 2 f_equal. unfold zlen. simpl. lia.
Qed.
Lemma pg_ConnectionRelease_new : l_connection c l = CNew ->
  answered (zoom (pf_connection_lens c) PostgresConnectionRelease) OK (set_connection c CUnset l) f.
Proof.
  intros El. pose proof Hv as [Hd Hc Ho Hne Hs Hl].
  rewrite El, Hj in Hc. inversion Hc as [| |j' Hx Ex Ep Eh|]. rewrite <- Eh in *. clear Ex Ep j'.
  eapply connection_call; [exact Hv|exact Hj|by rewrite El|].
  unfold PostgresConnectionRelease, release_handle. wp_steps. unfold Connection_Release.
  apply wp_bind. eapply pg_wp_connection; [exact Hx|]. simpl. unfold set_private. wp_steps.
  split; [done|]. split; [by right|]. eexists _, []. split; [right; set_solver|].
  rewrite (list_insert_id _ _ _ Hx). split; [by split_and!|]. by split; [constructor|].
Qed.
Lemma pg_ConnectionRelease_open a : l_connection c l = COpen a -> live_statement (l_statement l) = false ->
  answered (zoom (pf_connection_lens c) PostgresConnectionRelease) OK (set_connection c CUnset l) f.
Proof.
  intros El Hst. destruct (open_connection _ El) as (i & m & conn & Hhc & Hconn & Hx & Hdb & Hready & Hi).
  pose proof count_small as Hsmall. pose proof view_heap as Hh. rewrite Hhc in *.
  assert (zlen ([(j, (conn, a))] ++ ho) = 1 + zlen ho) as Hz by (unfold zlen; simpl; lia). rewrite Hz in *.
  assert (0 <= zlen ho) by (unfold zlen; lia). pose proof (lookup_lt_Some _ _ _ Hi) as Hlti.
  eapply connection_call; [exact Hv|exact Hj|by rewrite El|].
  unfold PostgresConnectionRelease, release_handle. wp_steps. unfold Connection_Release.
  apply wp_bind. eapply pg_wp_connection; [exact Hx|]. simpl. apply Z.eqb_neq in Hconn as Hc0. rewrite Hc0. simpl.
  wp_steps. eapply wp_disconnect; [exact Hh|exact Hi|lia|]. intros h' (Hd' & Hc' & Hl').
  unfold put_connection, set_private. wp_steps. split; [done|]. split; [by right|].
  eexists _, []. split; [by left|]. split; [by split_and!; simpl; rewrite ?Hc'|]. split; [constructor|].
  simpl. rewrite Hdb, Hready, Hd'. eapply pg_dready. rewrite list_lookup_insert_eq by done. do 2 f_equal. lia.
Qed.
End connection_calls.

(** ** Statements *)
Definition statement_post (f : PgFixture) (open : list (nat * (Z * bool))) (o : outcome) (st' : statement_state)
    (code : Z) (s : AS) : Prop :=
  allows o code /\ heap_is (pf_databases f) (pf_connections f) open.*2 (as_heap s) /\
  pg_statement_is open st' (as_private s).
Lemma pg_statement_call m l o st' f h1 h2 : pg_view uri connected First l f h1 h2 ->
  wp m (fun _ => statement_post f (h1 ++ h2) o st' 0) (statement_post f (h1 ++ h2) o st')
    (mkAS (pf_heap f) (pf_statement f) None None) ->
  answered (zoom pf_statement_lens m) o (set_stmt st' l) f.
Proof.
  intros [Hd Hc Ho Hne Hs Hl] Hm. apply answered_wp, wp_zoom. eapply wp_conseq; [exact Hm|..].
  all: intros ? [h t x y] (Hallow & (Hdbs & Hcs & Hl') & Ht); split; [exact Hallow|]; simpl in *.
  all: exists h1, h2; split; simpl; rewrite ?Hdbs, ?Hcs; done.
Qed.

Section statement_calls.
Context (l : lifecycle) (f : PgFixture) (h1 h2 : list (nat * (Z * bool))) (Hv : pg_view uri connected First l f h1 h2).
#[local] Abbreviation open := (h1 ++ h2).
#[local] Abbreviation start := (mkAS (pf_heap f) (pf_statement f) None None).
#[local] Abbreviation runs m o st' :=
  (wp m (fun _ => statement_post f open o st' 0) (statement_post f open o st') start).

Lemma statement_heap e : heap_is (pf_databases f) (pf_connections f) open.*2 (over error_lens e (pf_heap f)).
Proof. split_and!; [done|done|apply Hv]. Qed.
Lemma statement_of st : l_statement l = st -> pg_statement_is open st (pf_statement f).
Proof. intros <-. apply Hv. Qed.

Lemma pg_unset_statement method : l_statement l = SUnset -> runs (with_statement method) INVALID_STATE SUnset.
Proof.
  intros El%statement_of. inversion El as [|Ex Et| |]. unfold with_statement. wp_steps.
  split_and!; [done|apply (statement_heap (Some (pf_error f)))|constructor].
Qed.
Lemma Release_unset : l_statement l = SUnset -> runs PostgresStatementRelease INVALID_STATE SUnset.
Proof.
  intros El. unfold PostgresStatementRelease. apply wp_bind, wp_catch.
  eapply wp_conseq; [by apply pg_unset_statement|..]; intros ? s (-> & Hh & _); wp_steps;
    (split_and!; [done|exact Hh|constructor]).
Qed.
(** [ClearResult] on a statement without a result. *)
Lemma wp_clear db j conn query h s r (Q : unit -> ES -> Prop) E :
  Q tt (mkES h (idle_statement db j conn query) s r) ->
  wp ClearResult Q E (mkES h (idle_statement db j conn query) s r).
Proof. intros HQ. unfold ClearResult, TupleReader_Release. wp_steps. exact HQ. Qed.
Lemma live_idle : live_statement (l_statement l) = true -> exists db j conn query,
  pf_statement f = Some (idle_statement db j conn query).
Proof. intros Hlive. destruct (statement_of _ eq_refl); try done; eauto. Qed.
Lemma pg_StatementRelease_runs : live_statement (l_statement l) = true ->
  runs PostgresStatementRelease OK SUnset.
Proof.
  intros (db & j & conn & query & Ht)%live_idle. unfold PostgresStatementRelease, with_statement. wp_steps.
  rewrite Ht. wp_steps. unfold Statement_Release. apply wp_bind, wp_clear.
  unfold release_bind, the_statement. wp_steps.
  split_and!; [done|apply (statement_heap (Some (pf_error f)))|constructor].
Qed.
Lemma pg_Prepare_no_query : l_statement l = SNew -> runs PostgresStatementPrepare INVALID_STATE SNew.
Proof.
  intros El%statement_of. inversion El as [| |db j conn Hin Ex Et|].
  unfold PostgresStatementPrepare, with_statement. wp_steps. unfold Statement_Prepare, the_statement. wp_steps.
  apply wp_raise. intros e. split_and!; [done|apply (statement_heap e)|by apply (pg_snew _ db j conn)].
Qed.
Lemma pg_SetSqlQuery_runs : l_statement l = SNew -> runs (PostgresStatementSetSqlQuery not_a_query) OK SQuery.
Proof.
  intros El%statement_of. inversion El as [| |db j conn Hin Ex Et|].
  unfold PostgresStatementSetSqlQuery, with_statement. wp_steps.
  unfold Statement_SetSqlQuery, set_texts, set_statement, the_statement. wp_steps.
  split_and!; [done|apply (statement_heap (Some (pf_error f)))|by apply (pg_squery _ db j conn)].
Qed.
Lemma pg_Execute_no_query : l_statement l = SNew -> runs PostgresStatementExecuteQuery INVALID_STATE SNew.
Proof.
  intros El%statement_of. inversion El as [| |db j conn Hin Ex Et|].
  unfold PostgresStatementExecuteQuery, with_statement. wp_steps. unfold Statement_ExecuteQuery.
  apply wp_bind, wp_clear. unfold the_statement. wp_steps. unfold ExecuteUpdateQuery, the_statement. wp_steps.
  apply wp_raise. intros e. split_and!; [done|apply (statement_heap e)|by apply (pg_snew _ db j conn)].
Qed.
Lemma handle_in j conn : (j, conn) ∈ handles open -> exists a, (j, (conn, a)) ∈ open.
Proof.
  unfold handles. intros ([j' [c a]] & [= -> ->] & Hin)%list_elem_of_fmap_1. by exists a.
Qed.
Lemma handle_connection j conn : (j, conn) ∈ handles open -> exists db a,
  pf_connections f !! j = Some (mkConnection db conn a).
Proof.
  pose proof Hv as [_ Hc Ho _ _ _]. intros [a [Hin|Hin]%elem_of_app]%handle_in; [destruct Hc|destruct Ho];
    set_unfold in Hin; naive_solver.
Qed.
Lemma pg_Execute_rejected : l_statement l = SQuery -> runs PostgresStatementExecuteQuery Refuses SQuery.
Proof.
  intros El%statement_of. inversion El as [| | |db j conn Hin Ex Et].
  destruct (handle_connection _ _ Hin) as (db' & a & Hx).
  destruct (handle_in _ _ Hin) as [flag Hin'].
  assert (exists rest, open.*2 ≡ₚ (conn, flag) :: rest) as [rest Hrest].
  { apply elem_of_Permutation, (list_elem_of_fmap_2 snd _ _ Hin'). }
  destruct (sessions_not_sql uri server rest conn flag (pf_pq f)) as (r & d & Hr & Hno & Hl').
  { eapply (sessions_perm uri server); [exact Hrest|apply Hv]. }
  unfold PostgresStatementExecuteQuery, with_statement. wp_steps. unfold Statement_ExecuteQuery.
  apply wp_bind, wp_clear. unfold the_statement. wp_steps. unfold ExecuteUpdateQuery, the_statement. wp_steps.
  unfold statement_conn, the_statement. wp_steps. eapply pg_wp_connection; [exact Hx|]. wp_steps.
  eapply wp_pq_call; [exact Hr|]. wp_steps. apply wp_pq_ask. change (pq_of _) with d.
  apply Z.eqb_neq in Hno. rewrite Hno. simpl. wp_steps. apply wp_pg_set_error. intros e1. wp_steps.
  apply wp_pq_ask. wp_steps. apply wp_pg_set_error. intros e2. wp_steps. apply wp_pq_do. wp_steps.
  split_and!; [done|split_and!; [done|done|]|by apply (pg_squery _ db j conn)].
  eapply (sessions_perm uri server); [symmetry; exact Hrest|exact Hl'].
Qed.
End statement_calls.

Lemma StatementNew_runs c l a f : in_state l f -> l_statement l = SUnset -> l_connection c l = COpen a ->
  answered (connection ← gets (pf_connection c); zoom pf_statement_lens (PostgresStatementNew connection))
    OK (set_stmt SNew l) f.
Proof.
  intros Hf Es Ec. apply (in_state_view (fun l l' d => sessions_perm uri server l l' d) c) in Hf as (hc & ho & Hv).
  pose proof Hv as [Hd Hc Ho Hne Hs Hl]. rewrite Ec in Hc. inversion Hc as [| | |j conn a' Hconn Hx Ex Ep Eh].
  apply answered_wp. wp_steps. rewrite <- Ep. unfold PostgresStatementNew. wp_steps.
  unfold with_statement, Statement_New. wp_steps. eapply pg_wp_connection; [exact Hx|].
  unfold the_statement, set_statement. wp_steps. split; [done|].
  apply (in_state_view (fun l l' d => sessions_perm uri server l l' d) c). exists hc, ho.
  destruct c; split; simpl in *; try done; try (by rewrite Ec, <- Ep, <- Eh; apply pg_copen);
    apply (pg_snew _ (pf_database f) j conn); set_solver.
Qed.

Lemma pg_connection_answers call c l o l' f :
  match call with
  | ApiConnectionNew c' | ApiConnectionInit c' | ApiConnectionRelease c' | ApiConnectionCommit c'
  | ApiConnectionRollback c' | ApiConnectionSetOption c' _ _ => c' = c
  | _ => False
  end ->
  in_state l f -> spec call l = Some (o, l') -> answered (api (Driver := postgres_driver uri) call) o l' f.
Proof.
  intros Hcall Hf Hspec.
  apply (in_state_view (fun l l' d => sessions_perm uri server l l' d) c) in Hf as (hc & ho & Hv).
  assert (live_connection (l_connection c l) = true -> exists j, pf_connection c f = Some j) as Hj.
  { pose proof (pv_connection _ _ _ _ _ _ _ Hv) as Hc. destruct Hc; try done; eauto. }
  assert (forall m o st, l_connection c l = st -> answered m o (set_connection c st l) f ->
    answered m o l f) as Hstay.
  { intros m o' st <-. by destruct c, l. }
  destruct call as [| | | |c'|c'|c'|c'|c'|c' key value| | | | |]; try done; subst c'; simpl in Hspec;
    destruct (l_connection c l) as [| | |a] eqn:El; try done;
    try (destruct (Hj eq_refl) as [j Hj']); clear Hj.
  - injection Hspec as <- <-. by eapply pg_ConnectionNew_runs.
  - destruct (l_database l) eqn:Ed; try done. injection Hspec as <- <-.
    exact (pg_ConnectionInit_runs c l f hc ho Hv j Hj' El Ed).
  - injection Hspec as <- <-. by eapply pg_unset_connection.
  - injection Hspec as <- <-. by eapply pg_ConnectionRelease_new.
  - destruct (live_statement _) eqn:Hlive; [done|]. injection Hspec as <- <-.
    by eapply pg_ConnectionRelease_open.
  - injection Hspec as <- <-. by eapply pg_unset_connection.
  - destruct a; injection Hspec as <- <-; (eapply Hstay; [reflexivity|]).
    + by eapply pg_end_autocommit.
    + by eapply (pg_end_transaction _ _ _ _ _ Hv _ Hj' _ _ "COMMIT"%string); [..|set_solver|].
  - injection Hspec as <- <-. by eapply pg_unset_connection.
  - destruct a; injection Hspec as <- <-; (eapply Hstay; [reflexivity|]).
    + by eapply pg_end_autocommit.
    + by eapply (pg_end_transaction _ _ _ _ _ Hv _ Hj' _ _ "ROLLBACK"%string); [..|set_solver|].
  - destruct (String.eqb_spec key ADBC_CONNECTION_OPTION_AUTOCOMMIT) as [->|Hk].
    2: { injection Hspec as <- <-. eapply Hstay; [reflexivity|]. by eapply pg_set_option_refused; [..|left]. }
    destruct (String.eqb_spec value ADBC_OPTION_VALUE_ENABLED) as [->|Hon].
    { injection Hspec as <- <-. by eapply pg_set_autocommit; [..|left]. }
    destruct (String.eqb_spec value ADBC_OPTION_VALUE_DISABLED) as [->|Hoff]; injection Hspec as <- <-.
    + by eapply pg_set_autocommit; [..|right].
    + eapply Hstay; [reflexivity|]. by eapply pg_set_option_refused; [..|right].
Qed.
Lemma pg_statement_answers call l o l' f :
  match call with
  | ApiStatementRelease | ApiStatementPrepare | ApiStatementSetSqlQuery _ | ApiStatementExecuteQuery => True
  | _ => False
  end ->
  in_state l f -> spec call l = Some (o, l') -> answered (api (Driver := postgres_driver uri) call) o l' f.
Proof.
  intros Hcall (h1 & h2 & Hv) Hspec.
  assert (forall m o st, l_statement l = st -> answered m o (set_stmt st l) f -> answered m o l f) as Hstay.
  { intros m o' st <-. by destruct l. }
  destruct call as [| | | | | | | | | | | | |query|]; try done; simpl in Hspec;
    destruct (l_statement l) eqn:El; try done.
  6: destruct (String.eqb_spec query not_a_query) as [->|]; [|done].
  all: injection Hspec as <- <-.
  all: first [by eapply pg_statement_call; [exact Hv|eapply pg_StatementRelease_runs; [exact Hv|by rewrite El]] | idtac].
  all: first [by eapply pg_statement_call; [exact Hv|eapply pg_SetSqlQuery_runs; [exact Hv|exact El]] | idtac].
  all: eapply Hstay; [reflexivity|]; eapply pg_statement_call; [exact Hv|].
  - by eapply Release_unset.
  - by eapply pg_unset_statement.
  - by eapply pg_Prepare_no_query.
  - by eapply pg_unset_statement.
  - by eapply pg_Execute_no_query.
  - by eapply pg_Execute_rejected.
Qed.

Lemma postgres_zeroes o l l' f : in_state l f -> zeroed o l = Some l' ->
  in_state l' (memset_object (Driver := postgres_driver uri) o f).
Proof.
  destruct l as [ld lf ls lst]. unfold zeroed.
  intros (h1 & h2 & [Hd Hc Ho Hne Hs Hl]). destruct (live o _) eqn:Hlive; [done|]. intros [= <-].
  destruct o as [|[]|]; simpl in *.
  - assert (h1 ++ h2 = []) as Hnil by (apply zlen_nil; by destruct Hd).
    pose proof Hnil as [-> ->]%app_eq_nil. exists [], []. split; simpl; try done.
    + by constructor.
    + by eapply closed_connection.
    + by eapply closed_connection.
  - assert (h1 = []) as -> by by destruct Hc. exists [], h2. split; simpl; try done. constructor.
  - assert (h2 = []) as -> by by destruct Ho. exists h1, []. split; simpl; try done. constructor.
  - exists h1, h2. split; simpl; try done. constructor.
Qed.
Lemma postgres_tells o l f : in_state l f -> known o l = true ->
  private_data (Driver := postgres_driver uri) o f = live o l.
Proof.
  destruct l as [ld lf ls lst]. intros (h1 & h2 & [Hd Hc Ho Hne Hs Hl]) Hk.
  destruct o as [|[]|]; simpl in *; [destruct Hd|destruct Hc|destruct Ho|destruct Hs]; done.
Qed.
End simulation.

(** The PostgreSQL driver conforms to the protocol. *)
Lemma postgres_conforms `{Libc} `{Libpq} uri connected `{!OrderlyLibpq uri connected} :
  uri <> ""%string -> Conforms (Driver0 := postgres_driver uri) (pg_in_state uri (sessions connected)).
Proof.
  intros Huri. split.
  - intros call l o l' f Hf Hspec.
    destruct call; try (by eapply pg_database_answers); try (by eapply pg_connection_answers);
      try (by eapply pg_statement_answers). simpl in Hspec.
    destruct (l_statement l) eqn:Es, (l_connection c l) eqn:Ec; try done. injection Hspec as <- <-.
    by eapply StatementNew_runs.
  - intros o l l' f. by apply postgres_zeroes.
  - intros o l f. by apply postgres_tells.
  - intros l e f (h1 & h2 & [Hd Hc Ho Hne Hs Hl]). by exists h1, h2.
Qed.

Lemma postgres_junk uri `{Libpq} connected f :
  connected [] (pf_pq f) -> pg_in_state uri (sessions connected) all_junk f.
Proof. intros Hc%sessions_nil. exists [], []. split; simpl; try done; by constructor. Qed.
Lemma postgres_nothing_live uri `{Libpq} connected l f :
  pg_in_state uri (sessions connected) l f -> nothing_live l = true -> connected [] (pf_pq f).
Proof.
  destruct l as [ld lf ls lst]. intros (h1 & h2 & [Hd Hc Ho Hne Hs Hl]) Hn. simpl in *.
  apply sessions_nil. destruct Hc, Ho; try exact Hl; destruct ld; discriminate Hn.
Qed.

(** C16: the PostgreSQL driver passes every lifecycle test of the suite, from a fixture with
    arbitrary content, on any server that accepts connections, answers the query for the types,
    begins and ends transactions and rejects what is not SQL, after which an open transaction
    accepts nothing but its end; every connection the test opened is closed again. *)
Theorem postgres_passes_suite `{Libc} `{Libpq} uri connected `{!OrderlyLibpq uri connected}
    (test : M (Run PgFixture) unit) (f : PgFixture) :
  uri <> ""%string -> test ∈ suite (Driver0 := postgres_driver uri) -> connected [] (pf_pq f) ->
  exists f', test (mkRun f false false) = Ret tt (mkRun f' false false) /\ connected [] (pf_pq f').
Proof.
  intros Huri Htest Hc. pose proof (postgres_conforms uri connected Huri) as HC.
  pose proof (suite_passes (in_state := pg_in_state uri (sessions connected))
    (Driver0 := postgres_driver uri)) as Hall.
  rewrite Forall_forall in Hall.
  destruct (Hall _ Htest f (postgres_junk _ _ _ Hc)) as (f' & l & sk & Hrun & Hin & Hn & Hsk).
  exists f'. split; [|by eapply postgres_nothing_live]. rewrite Hrun. destruct sk; [|done]. by specialize (Hsk eq_refl).
Qed.
(** C15: every sequence of calls that the protocol specifies is answered by the PostgreSQL driver as
    specified, and leaves its objects, the count of open connections and the connections to the
    server as the protocol has them: where autocommit is on there is no transaction, and where it
    is off there may be one, also one that a failed statement has aborted. *)
Theorem postgres_follows_protocol `{Libc} `{Libpq} uri connected `{!OrderlyLibpq uri connected}
    calls l os l' (f : PgFixture) :
  uri <> ""%string -> pg_in_state uri (sessions connected) l f -> spec_calls calls l = Some (os, l') ->
  exists codes f', run_calls (Driver0 := postgres_driver uri) calls f = Some (codes, f') /\
    Forall2 allows os codes /\ pg_in_state uri (sessions connected) l' f'.
Proof.
  intros Huri. pose proof (postgres_conforms uri connected Huri) as HC. apply conforming_calls.
Qed.

(** * A server with transaction blocks

    The server of the witnesses keeps a transaction per connection the way PostgreSQL does:
    connection [c] is entry [c - 1], and an aborted transaction answers everything but its end
    with an error. *)
Module TxServer.
Definition rows : list (list string) := [["20"; "int8"; "int8recv"]; ["25"; "text"; "textrecv"]]%string.
Record state := mkState {
  ts_connections : list (option txn);
  ts_results : list Z;  (** the status of result [h] is entry [h - 1] *)
}.
Definition answer (q : string) (t : txn) : Z * txn :=
  if bool_decide (q ∈ kEnds) then (PGRES_COMMAND_OK, TIdle)
  else match t with
  | TAborted => (7, TAborted)
  | _ =>
      if String.eqb q "BEGIN TRANSACTION" then (PGRES_COMMAND_OK, TActive)
      else if String.eqb q kTypeQuery then (PGRES_TUPLES_OK, t)
      else (7, match t with TIdle => TIdle | _ => TAborted end)
  end.
Definition entry {A} (l : list A) (h : Z) : option A := if 0 <? h then l !! Z.to_nat (h - 1) else None.
Definition run (c : Z) (q : string) (d : state) : Z * state :=
  let '(status, t) := answer q (default TIdle (mjoin (entry (ts_connections d) c))) in
  (zlen (ts_results d) + 1,
   mkState (<[Z.to_nat (c - 1) := Some t]> (ts_connections d)) (ts_results d ++ [status])).
#[export] Instance server : Libpq := {|
  pq := state;
  PQconnectdb _ d := (zlen (ts_connections d) + 1, mkState (ts_connections d ++ [Some TIdle]) (ts_results d));
  PQstatus c d := if bool_decide (is_Some (mjoin (entry (ts_connections d) c))) then CONNECTION_OK else 1;
  PQfinish c d := mkState (<[Z.to_nat (c - 1) := None]> (ts_connections d)) (ts_results d);
  PQerrorMessage _ _ := "current transaction is aborted"%string;
  PQexec := run;
  PQexecParams c q _ := run c q;
  PQprepare c q _ := run c q;
  PQexecPrepared c _ _ _ := run c "";
  PQresultStatus h d := default 7 (entry (ts_results d) h);
  PQresultErrorMessage _ _ := "current transaction is aborted"%string;
  PQclear _ d := d;
  PQnfields _ _ := 3;
  PQftype _ _ _ := 25;
  PQfname _ _ _ := ""%string;
  PQntuples _ _ := zlen rows;
  PQgetvalue _ r c _ := default ""%string (row ← rows !! Z.to_nat r; row !! Z.to_nat c);
  PQgetCopyData _ d := (-1, None, d);
  PQgetResult _ d := (zlen (ts_results d) + 1, mkState (ts_connections d) (ts_results d ++ [7]));
|}.
(** The connections of [l] are open and have these transactions. *)
Definition connected (l : list (Z * txn)) (d : state) : Prop :=
  NoDup l.*1 /\ Forall (fun p => 0 < p.1 /\ ts_connections d !! Z.to_nat (p.1 - 1) = Some (Some p.2)) l.

Lemma result_status d status t c :
  PQresultStatus (zlen (ts_results d) + 1)
    (mkState (<[Z.to_nat (c - 1) := Some t]> (ts_connections d)) (ts_results d ++ [status])) = status.
Proof.
  simpl. unfold entry. rewrite (proj2 (Z.ltb_lt 0 _)) by (unfold zlen; lia).
  unfold zlen. rewrite Z.add_simpl_r, Nat2Z.id. by rewrite list_lookup_middle.
Qed.
(** A command changes the transaction of its own connection. *)
Lemma run_connected l c t q d status t' :
  connected ((c, t) :: l) d -> answer q t = (status, t') ->
  exists r d', run c q d = (r, d') /\ PQresultStatus r d' = status /\ connected ((c, t') :: l) (PQclear r d').
Proof.
  intros [Hnd Hall] Ha. apply Forall_cons in Hall as [[Hc Ht] Hall]. simpl in *.
  apply NoDup_cons in Hnd as [Hnin Hnd]. unfold run. unfold entry at 1.
  rewrite (proj2 (Z.ltb_lt 0 c)), Ht by done. simpl. rewrite Ha.
  eexists _, _. split; [reflexivity|]. split; [apply result_status|]. split; [by constructor|].
  simpl. constructor; simpl.
  - split; [done|]. apply list_lookup_insert_eq. by eapply lookup_lt_Some.
  - apply Forall_forall. intros [c' u] Hin. rewrite Forall_forall in Hall. destruct (Hall _ Hin) as [Hc' Hu].
    simpl in *. split; [done|]. rewrite list_lookup_insert_ne; [done|].
    intros He. apply Hnin. assert (c = c') as -> by lia. by apply (list_elem_of_fmap_2 fst _ (c', u)).
Qed.
#[export] Instance orderly : OrderlyLibpq "postgresql://localhost" connected.
Proof.
  split.
  - intros l l' d Hp [Hnd Hall]. split; by rewrite <- Hp.
  - intros l d [Hnd Hall]. simpl. eexists _, _. split; [reflexivity|]. split; [unfold zlen; lia|].
    assert (Forall (fun p => p.1 <> zlen (ts_connections d) + 1) l) as Hne.
    { apply Forall_forall. intros p Hp. rewrite Forall_forall in Hall. destruct (Hall _ Hp) as [Hc Hl].
      apply lookup_lt_Some in Hl. unfold zlen. lia. }
    assert ((ts_connections d ++ [Some TIdle]) !! Z.to_nat (zlen (ts_connections d) + 1 - 1) = Some (Some TIdle)) as Hlast.
    { unfold zlen. rewrite Z.add_simpl_r, Nat2Z.id. by apply list_lookup_middle. }
    split; [|split].
    + simpl. unfold entry. rewrite (proj2 (Z.ltb_lt 0 _)) by (unfold zlen; lia). rewrite Hlast. done.
    + simpl. constructor; [|done]. intros (p & Hp & Hin)%list_elem_of_fmap_1. rewrite Forall_forall in Hne.
      by apply (Hne _ Hin).
    + constructor; simpl; [split; [unfold zlen; lia|exact Hlast]|]. eapply Forall_impl; [exact Hall|].
      intros p [Hc Hl]. split; [done|]. by apply lookup_app_l_Some.
  - intros l c t d [Hnd Hall]. apply NoDup_cons in Hnd as [Hnin Hnd]. apply Forall_cons in Hall as [[Hc _] Hall].
    split; [done|]. simpl in *. apply Forall_forall. intros [c' u] Hin. rewrite Forall_forall in Hall.
    destruct (Hall _ Hin) as [Hc' Hu]. simpl in *. split; [done|]. rewrite list_lookup_insert_ne; [done|].
    intros He. apply Hnin. assert (c = c') as -> by lia. by apply (list_elem_of_fmap_2 fst _ (c', u)).
  - intros l c d Hd. exact (run_connected l c TIdle kTypeQuery d PGRES_TUPLES_OK TIdle Hd eq_refl).
  - intros l c d Hd. exact (run_connected l c TIdle "BEGIN TRANSACTION" d PGRES_COMMAND_OK TActive Hd eq_refl).
  - intros l c t q d Hd Hq. apply (run_connected l c t q d PGRES_COMMAND_OK TIdle Hd).
    unfold answer. by rewrite bool_decide_eq_true_2.
  - intros l c t d Hd.
    assert (answer not_a_query t = (7, match t with TIdle => TIdle | _ => TAborted end)) as Ha by by destruct t.
    destruct (run_connected l c t not_a_query d _ _ Hd Ha) as (r & d' & Hr & Hs & Hd').
    exists r, d'. split; [exact Hr|]. split; [rewrite Hs; discriminate|exact Hd'].
Qed.
End TxServer.

(** * Instances *)
Section witnesses.
#[local] Existing Instance host.
#[local] Existing Instance TxServer.server.
#[local] Existing Instance TxServer.orderly.
(** The junk of this fixture points to objects that do not exist. *)
Definition pg_fixture : PgFixture :=
  mkPgFixture (mkError (Some "old"%string) 7 "" false) (TxServer.mkState [] []) [] []
    (Some 3%nat) None (Some 3%nat) None.
Lemma pg_fixture_closed : TxServer.connected [] (pf_pq pg_fixture).
Proof. split; constructor. Qed.
Lemma postgres_passes_suite_witness : exists f',
  statement_test (Driver0 := postgres_driver "postgresql://localhost")
    (StatementTest_TestSqlQueryErrors (Driver0 := postgres_driver "postgresql://localhost"))
    (mkRun pg_fixture false false) = Ret tt (mkRun f' false false) /\ TxServer.connected [] (pf_pq f').
Proof.
  apply (@postgres_passes_suite host TxServer.server "postgresql://localhost" TxServer.connected _);
    [done| |exact pg_fixture_closed].
  unfold suite. simpl. do 11 right. by left.
Defined.
(** A failed statement aborts the transaction that autocommit off has begun; the commit ends it. *)
Lemma postgres_follows_protocol_witness : exists codes f',
  run_calls (Driver0 := postgres_driver "postgresql://localhost")
    [ApiDatabaseNew; ApiDatabaseNew; ApiSetupDatabase; ApiDatabaseInit; ApiConnectionNew First;
     ApiConnectionNew Second; ApiConnectionInit Second; ApiConnectionInit First;
     ApiConnectionSetOption First ADBC_CONNECTION_OPTION_AUTOCOMMIT ADBC_OPTION_VALUE_DISABLED;
     ApiStatementNew First; ApiStatementSetSqlQuery not_a_query; ApiStatementExecuteQuery;
     ApiStatementRelease; ApiConnectionCommit First; ApiConnectionCommit Second;
     ApiConnectionRelease First; ApiConnectionRelease Second; ApiDatabaseRelease]
    (mkPgFixture zero_error (TxServer.mkState [] []) [] [] None None None None)
    = Some (codes, f') /\
  Forall2 allows [OK; INVALID_STATE; OK; OK; OK; OK; OK; OK; OK; OK; OK; Refuses; OK; OK; INVALID_STATE;
                  OK; OK; OK] codes /\
  pg_in_state "postgresql://localhost" (sessions TxServer.connected) (mkLife DUnset CUnset CUnset SUnset) f'.
Proof.
  apply (@postgres_follows_protocol host TxServer.server "postgresql://localhost" TxServer.connected _ _
    (mkLife DUnset CUnset CUnset SUnset)); [done| |reflexivity].
  exists [], []. split; simpl; try done; try by constructor. apply sessions_nil. split; constructor.
Defined.
End witnesses.
