(* ===== verification/PgSession.v ===== *)
(** The sessions of the PostgreSQL driver (Postgres.v, PgDriver.v): the count of open connections
    that guards the release of a database, and what the autocommit option promises. *)
From stdpp Require Import base tactics list numbers option strings gmap.
From Stdlib Require Import ZArith Lia Ascii.
From S2P Require Import Prelude CLib Adbc Utils Postgres PgReader PgBind PgStatement PgDriver.

(** * The library

    A null connection is not usable. *)
Class NullConnection `{Libpq} := null_connection_bad : forall d, PQstatus 0 d <> CONNECTION_OK.
#[export] Instance mock_null_connection : NullConnection (H := PgMock.mock).
Proof. done. Qed.

(** * Counting connections

    The databases' counts, and for every connection the database on which it is open. *)
Section counts.
  Context `{Libc} `{Libpq} `{!NullConnection}.

Definition opens (h : Heap) : list Z := map pd_open_connections (hp_databases h).
Definition open_ref (c : PostgresConnection) : option nat :=
  if pc_conn c =? 0 then None else pc_database c.
Definition refs (h : Heap) : list (option nat) := map open_ref (hp_connections h).
Definition sessions (h : Heap) : list Z * list (option nat) := (opens h, refs h).
(** How many connections are open on database [i]. *)
Definition is_on (i : nat) (r : option nat) : Z := if decide (r = Some i) then 1 else 0.
Definition open_on (i : nat) (l : list (option nat)) : Z := foldr (fun r n => is_on i r + n) 0 l.
Definition counted_right (s : list Z * list (option nat)) : Prop :=
  (forall i n, s.1 !! i = Some n -> n = open_on i s.2) /\
  Forall (fun r => forall i, r = Some i -> (i < length s.1)%nat) s.2.

Lemma open_on_insert i l k r r' : l !! k = Some r ->
  open_on i (<[k := r']> l) = open_on i l - is_on i r + is_on i r'.
Proof.
  revert k. induction l as [|x l IH]; intros [|k] Hk; simpl in *; try done.
  - injection Hk as ->. lia.
  - rewrite (IH k Hk). lia.
Qed.
Lemma open_on_app i a b : open_on i (a ++ b) = open_on i a + open_on i b.
Proof. induction a; simpl; lia. Qed.
Lemma open_on_nonneg i l : 0 <= open_on i l.
Proof. induction l as [|r l IH]; simpl; [lia|]. unfold is_on. destruct (decide _); lia. Qed.
Lemma open_on_none i l : Forall (fun r => r <> Some i) l -> open_on i l = 0.
Proof. induction 1 as [|r l Hr _ IH]; simpl; [done|]. unfold is_on. rewrite decide_False by done. lia. Qed.

(** ** What leaves the sessions alone *)
Lemma set_error_keeps parts : keeps sessions (set_error (S := Heap) parts).
Proof. unfold set_error. by apply keeps_zoom_off. Qed.
Lemma raise_keeps {A} code parts : keeps sessions (raise (S := Heap) (A := A) code parts).
Proof. apply keeps_bind; [apply set_error_keeps|intros; apply keeps_exit]. Qed.
Lemma pq_call_keeps {A} (f : pq -> A * pq) : keeps sessions (pq_call (S := Heap) f).
Proof. intros s. unfold pq_call. by destruct (f _). Qed.
Lemma pq_do_keeps f : keeps sessions (pq_do (S := Heap) f).
Proof. by intros s. Qed.
Lemma pq_ask_keeps {A} (f : pq -> A) : keeps sessions (pq_ask (S := Heap) f).
Proof. by intros s. Qed.
Lemma database_keeps i : keeps sessions (database i).
Proof. unfold database. solve_keeps. Qed.
Lemma update_database_keeps i (g : PostgresDatabase -> string) (k : PostgresDatabase -> TypeMapping) :
  keeps sessions (db ← database i; put_database i (mkDatabase (pd_open_connections db) (g db) (k db))).
Proof.
  intros s. unfold database, put_database, mbind, M_bind, gets, lift_opt.
  destruct (hp_databases s !! i) as [db|] eqn:E; [|done]. simpl. unfold sessions, opens. simpl. f_equal.
  rewrite list_fmap_insert. apply list_insert_id. by rewrite list_lookup_fmap, E.
Qed.
Lemma connection_keeps i : keeps sessions (connection i).
Proof. unfold connection. solve_keeps. Qed.
End counts.
#[export] Hint Resolve set_error_keeps raise_keeps pq_call_keeps pq_do_keeps pq_ask_keeps
  database_keeps connection_keeps update_database_keeps : keeps.

Section operations.
  Context `{Libc} `{Libpq} `{!NullConnection}.

Lemma check_command_keeps conn result messages :
  keeps sessions (check_command (S := Heap) conn result messages).
Proof.
  unfold check_command. solve_keeps. generalize (messages a0). intros ms.
  induction ms; simpl; solve_keeps.
Qed.
#[local] Hint Resolve check_command_keeps : keeps.
Lemma run_command_keeps conn query what : keeps sessions (run_command conn query what).
Proof. unfold run_command. solve_keeps. Qed.
#[local] Hint Resolve run_command_keeps : keeps.
Lemma commit_keeps i : keeps sessions (Connection_Commit i).
Proof. unfold Connection_Commit. solve_keeps. Qed.
Lemma rollback_keeps i : keeps sessions (Connection_Rollback i).
Proof. unfold Connection_Rollback. solve_keeps. Qed.
Lemma database_release_keeps i : keeps sessions (Database_Release i).
Proof. unfold Database_Release. solve_keeps. Qed.
Lemma database_option_keeps i key value : keeps sessions (Database_SetOption i key value).
Proof. unfold Database_SetOption. destruct (streq _ _); [apply update_database_keeps|auto with keeps]. Qed.

(** ** What changes them *)
Lemma wlp_database i (Q : PostgresDatabase -> Heap -> Prop) E h :
  (forall db, hp_databases h !! i = Some db -> Q db h) -> wlp (database i) Q E h.
Proof. intros HQ. unfold database. apply wlp_bind. simpl. by apply wlp_lift_opt. Qed.
Lemma wlp_connection i (Q : PostgresConnection -> Heap -> Prop) E h :
  (forall c, hp_connections h !! i = Some c -> Q c h) -> wlp (connection i) Q E h.
Proof. intros HQ. unfold connection. apply wlp_bind. simpl. by apply wlp_lift_opt. Qed.
Lemma opens_lookup h i db : hp_databases h !! i = Some db -> opens h !! i = Some (pd_open_connections db).
Proof. intros Hd. unfold opens. by rewrite list_lookup_fmap, Hd. Qed.
Lemma refs_lookup h i c : hp_connections h !! i = Some c -> refs h !! i = Some (open_ref c).
Proof. intros Hc. unfold refs. by rewrite list_lookup_fmap, Hc. Qed.
Lemma wlp_put_database i db (Q : unit -> Heap -> Prop) E h :
  (forall h', sessions h' = (<[i := pd_open_connections db]> (opens h), refs h) -> Q tt h') ->
  wlp (put_database i db) Q E h.
Proof. intros HQ. apply HQ. unfold sessions, opens. simpl. by rewrite list_fmap_insert. Qed.
Lemma wlp_put_connection i c (Q : unit -> Heap -> Prop) E h :
  (forall h', sessions h' = (opens h, <[i := open_ref c]> (refs h)) ->
     hp_connections h' = <[i := c]> (hp_connections h) -> Q tt h') ->
  wlp (put_connection i c) Q E h.
Proof. intros HQ. apply HQ; [|done]. unfold sessions, refs. simpl. by rewrite list_fmap_insert. Qed.
Lemma wlp_i32 {S} n (Q : Z -> S -> Prop) E s : Q n s -> wlp (i32 n) Q E s.
Proof. intros HQ. unfold i32. by destruct (_ && _). Qed.
Lemma pair_sessions h o r : sessions h = (o, r) -> opens h = o /\ refs h = r.
Proof. by intros [= <- <-]. Qed.
Lemma wlp_set_error parts (Q : unit -> Heap -> Prop) E h :
  (forall h', sessions h' = sessions h -> Q tt h') -> wlp (set_error parts) Q E h.
Proof. intros HQ. apply wp_wlp, wp_pg_set_error. intros e. by apply HQ. Qed.

(** Connecting opens one connection, or none. *)
Lemma connect_sessions i conn h :
  wlp (Database_Connect i conn)
    (fun '(status, conn') h' =>
       status <> ADBC_STATUS_OK /\ sessions h' = sessions h /\ (conn' = conn \/ conn' = 0) \/
       status = ADBC_STATUS_OK /\ conn' <> 0 /\ exists n, opens h !! i = Some n /\
         sessions h' = (<[i := n + 1]> (opens h), refs h)) (fun _ _ => False) h.
Proof.
  unfold Database_Connect. apply wlp_bind, wlp_database. intros db Hdb. destruct (streq _ _).
  { apply wlp_bind, wlp_set_error. intros h1 Hs. left. split_and!; [done|done|by left]. }
  apply wlp_bind. unfold wlp at 1, pq_call.
  destruct (PQconnectdb (pd_uri db) (pq_of h)) as [conn' d] eqn:Econn.
  set (h1 := over pq_lens d h). assert (sessions h1 = sessions h) as Hs1 by done.
  apply wlp_bind. unfold wlp at 1, pq_ask, gets.
  destruct (Z.eqb_spec (PQstatus conn' (pq_of h1)) CONNECTION_OK) as [Hok|Hno]; simpl negb; cbn iota.
  - apply wlp_bind, wlp_i32, wlp_bind, wlp_put_database. intros h2 Hs2. right.
    split_and!; [done|intros ->; by eapply null_connection_bad|].
    eexists. split; [by apply opens_lookup|]. done.
  - apply wlp_bind. unfold wlp at 1. apply wlp_bind, wlp_set_error. intros h2 Hs2.
    left. split_and!; [done|done|by right].
Qed.
Lemma disconnect_sessions i conn h n : opens h !! i = Some n ->
  wlp (Database_Disconnect i conn)
    (fun _ h' => sessions h' = (<[i := n - 1]> (opens h), refs h) /\ 0 <= n - 1)
    (fun c h' => sessions h' = (<[i := n - 1]> (opens h), refs h) /\ c <> 0 /\ n - 1 < 0) h.
Proof.
  intros Hn. unfold Database_Disconnect. apply wlp_bind. unfold wlp at 1, pq_do, modify.
  set (h1 := over pq_lens _ h). apply wlp_bind, wlp_database. intros db Hdb.
  assert (pd_open_connections db = n) as Hdn.
  { apply opens_lookup in Hdb. change (opens h1) with (opens h) in Hdb. congruence. }
  apply wlp_bind, wlp_i32, wlp_bind, wlp_put_database. intros h2 Hs2. simpl in Hs2. rewrite Hdn in *.
  change (opens h1) with (opens h) in Hs2. change (refs h1) with (refs h) in Hs2.
  destruct (Z.ltb_spec (n - 1) 0).
  - unfold raise. apply wlp_bind, wlp_set_error. intros h3 Hs3. split_and!; [by rewrite Hs3|done|done].
  - by split.
Qed.

Lemma set_autocommit_keeps i key value : keeps sessions (Connection_SetOption i key value).
Proof.
  unfold Connection_SetOption. destruct (streq _ _); [|auto with keeps].
  apply keeps_bind; [solve_keeps|]. intros autocommit h.
  assert (wlp (c ← connection i; when (negb (Bool.eqb autocommit (pc_autocommit c)))
      (run_command (pc_conn c) (if autocommit : bool then "COMMIT" else "BEGIN TRANSACTION")
         "Failed to update autocommit: " ;;
       put_connection i (mkConnection (pc_database c) (pc_conn c) autocommit)))
    (fun _ h' => sessions h' = sessions h) (fun _ h' => sessions h' = sessions h) h) as Hw; [|exact Hw].
  apply wlp_bind, wlp_connection. intros c Hc%refs_lookup. destruct (negb _); [|done].
  apply wlp_bind. eapply (wlp_keeps sessions); [apply run_command_keeps| |done].
  intros _ h1 Hs1. apply wlp_put_connection. intros h2 Hs2 _. rewrite Hs2.
  destruct (pair_sessions _ _ _ Hs1) as [-> ->]. unfold sessions. f_equal.
  by apply list_insert_id.
Qed.

Lemma insert_types_sessions i result n h :
  wlp (for_range 0 n (insert_type i result)) (fun _ h' => sessions h' = sessions h)
    (fun _ _ => False) h.
Proof.
  apply (wlp_for_loop (fun h' => sessions h' = sessions h)); [done|]. intros row h1 Hs1.
  unfold insert_type. do 3 (apply wlp_bind; unfold wlp at 1, pq_ask, gets).
  apply wlp_bind, wlp_database. intros db Hdb. apply wlp_put_database. intros h2 Hs2.
  rewrite Hs2, <- Hs1. unfold sessions. f_equal. apply list_insert_id.
  apply (opens_lookup _ _ _ Hdb).
Qed.

(** Initialising a database opens a connection and closes it again. *)
Lemma database_init_sessions i h :
  wlp (Database_Init i) (fun _ h' => sessions h' = sessions h) (fun _ h' => sessions h' = sessions h) h.
Proof.
  unfold Database_Init. apply wlp_bind. eapply wlp_conseq; [apply connect_sessions| |done].
  intros [status conn] h1 [(Hno & Hs & _)|(-> & _ & n & Hn & Hs)].
  { destruct (Z.eqb_spec status ADBC_STATUS_OK); [done|]. done. }
  simpl negb. cbn iota. apply wlp_bind. unfold wlp at 1, pq_call.
  destruct (PQexec conn kTypeQuery (pq_of h1)) as [result d].
  set (h2 := over pq_lens d h1). apply wlp_bind. unfold wlp at 1, pq_ask, gets.
  apply wlp_bind. apply (wlp_conseq _ (fun _ h' => sessions h' = sessions h1) _ (fun _ _ => False)); [| |done].
  { destruct (_ =? _).
    - do 2 apply wlp_bind. eapply wlp_conseq; [apply insert_types_sessions|done|done].
    - apply wlp_bind. unfold wlp at 1. apply wlp_bind, wlp_set_error. intros h3 Hs3. exact Hs3. }
  intros final h3 Hs3. apply wlp_bind. unfold wlp at 1, pq_do, modify. set (h4 := over pq_lens _ h3).
  assert (sessions h4 = sessions h1) as Hs4 by done. rewrite Hs in Hs4. apply pair_sessions in Hs4 as [Ho Hr].
  apply wlp_bind, wlp_catch. eapply wlp_conseq; [apply (disconnect_sessions i conn h4 (n + 1))| |].
  - rewrite Ho. apply list_lookup_insert_eq. by eapply lookup_lt_Some.
  - intros _ h5 [Hs5 _]. rewrite Ho, Hr, Z.add_simpl_r, list_insert_insert_eq, list_insert_id in Hs5 by done.
    unfold return_code. by destruct (_ =? 0).
  - intros c h5 (Hs5 & _). rewrite Ho, Hr, Z.add_simpl_r, list_insert_insert_eq, list_insert_id in Hs5 by done.
    unfold return_code. by destruct (_ =? 0).
Qed.

Lemma open_ref_on d conn a : conn <> 0 -> open_ref (mkConnection (Some d) conn a) = Some d.
Proof. intros. unfold open_ref. simpl. by rewrite (proj2 (Z.eqb_neq _ _)). Qed.
(** Initialising a connection. *)
Lemma connection_init_sessions i d c h : hp_connections h !! i = Some c ->
  wlp (Connection_Init i (Some d))
    (fun _ h' => exists n conn, conn <> 0 /\ opens h !! d = Some n /\
       sessions h' = (<[d := n + 1]> (opens h), <[i := Some d]> (refs h)) /\
       hp_connections h' !! i = Some (mkConnection (Some d) conn (pc_autocommit c)))
    (fun _ h' => pc_conn c = 0 -> sessions h' = (opens h, <[i := None]> (refs h))) h.
Proof.
  intros Hc. pose proof (lookup_lt_Some _ _ _ Hc) as Hlt. unfold Connection_Init.
  apply wlp_bind, wlp_connection. intros c' Hc'. rewrite Hc in Hc'. injection Hc' as <-.
  apply wlp_bind, wlp_put_connection. intros h1 Hs1 Hcs1. apply pair_sessions in Hs1 as [Ho1 Hr1].
  apply wlp_bind. eapply wlp_conseq; [apply connect_sessions| |done].
  intros [status conn] h2 Hcases. apply wlp_bind, wlp_put_connection. intros h3 Hs3 Hcs3.
  destruct Hcases as [(Hno & Hs2 & Hconn)|(-> & Hconn & n & Hn & Hs2)].
  - unfold return_code. destruct (Z.eqb_spec status 0) as [->|]; [done|]. intros Hz.
    assert (conn = 0) as -> by (destruct Hconn; congruence).
    apply pair_sessions in Hs2 as [Ho2 Hr2].
    by rewrite Hs3, Ho2, Hr2, Ho1, Hr1, list_insert_insert_eq.
  - change (exists n0 conn0, conn0 <> 0 /\ opens h !! d = Some n0 /\
      sessions h3 = (<[d := n0 + 1]> (opens h), <[i := Some d]> (refs h)) /\
      hp_connections h3 !! i = Some (mkConnection (Some d) conn0 (pc_autocommit c))).
    exists n, conn. rewrite Ho1 in Hn, Hs2. rewrite Hr1 in Hs2. apply pair_sessions in Hs2 as [Ho2 Hr2].
    split_and!; [done|done| |].
    + by rewrite Hs3, Ho2, Hr2, list_insert_insert_eq, open_ref_on.
    + rewrite Hcs3. apply list_lookup_insert_eq.
      assert (length (refs h2) = length (hp_connections h2)) as Hl by apply length_map.
      rewrite Hr2, length_insert in Hl. unfold refs in Hl. rewrite length_map in Hl. lia.
Qed.
(** Releasing one. *)
Lemma connection_release_sessions i h :
  wlp (Connection_Release i)
    (fun _ h' => sessions h' = sessions h /\ refs h !! i = Some None \/
       exists d n, refs h !! i = Some (Some d) /\ opens h !! d = Some n /\
         sessions h' = (<[d := n - 1]> (opens h), <[i := None]> (refs h)))
    (fun _ h' => exists d n, refs h !! i = Some (Some d) /\ opens h !! d = Some n /\ n - 1 < 0) h.
Proof.
  unfold Connection_Release. apply wlp_bind, wlp_connection. intros c Hc.
  pose proof (refs_lookup _ _ _ Hc) as Hr. unfold open_ref in Hr.
  destruct (Z.eqb_spec (pc_conn c) 0) as [Hz|Hz]; simpl negb; cbn iota; [by left|].
  apply wlp_bind, wlp_lift_opt. intros d Hd. rewrite Hd in Hr. apply wlp_bind, wlp_catch.
  destruct (opens h !! d) as [n|] eqn:Hn.
  2:{ unfold Database_Disconnect. apply wlp_bind. unfold wlp at 1, pq_do, modify.
      apply wlp_bind, wlp_database. intros db Hdb%opens_lookup. unfold opens in *. simpl in Hdb. congruence. }
  eapply wlp_conseq; [by apply disconnect_sessions| |].
  - intros _ h1 [Hs1 _]. apply pair_sessions in Hs1 as [Ho1 Hr1].
    apply wlp_bind, wlp_put_connection. intros h2 Hs2 _. rewrite Ho1, Hr1 in Hs2.
    change (wlp (return_code 0) (fun _ h' => sessions h' = sessions h /\ refs h !! i = Some None \/
       exists d n, refs h !! i = Some (Some d) /\ opens h !! d = Some n /\
         sessions h' = (<[d := n - 1]> (opens h), <[i := None]> (refs h)))
       (fun _ h' => exists d n, refs h !! i = Some (Some d) /\ opens h !! d = Some n /\ n - 1 < 0) h2).
    right. by exists d, n.
  - intros code h1 (_ & Hcode & Hneg). apply wlp_bind, wlp_put_connection. intros h2 _ _.
    unfold return_code. rewrite (proj2 (Z.eqb_neq _ _) Hcode). by exists d, n.
Qed.
End operations.

(** * What a client can do

    The calls on databases and connections; each goes through a handle. *)
Inductive session_call :=
| CDatabaseNew | CDatabaseInit | CDatabaseSetOption (key value : string) | CDatabaseRelease
| CConnectionNew | CConnectionInit (database : option nat)
| CConnectionSetOption (key value : string) | CConnectionCommit | CConnectionRollback
| CConnectionRelease.
Definition session_api `{Libc} `{Libpq} (call : session_call) : M HandleState unit :=
  match call with
  | CDatabaseNew => PostgresDatabaseNew
  | CDatabaseInit => PostgresDatabaseInit
  | CDatabaseSetOption key value => PostgresDatabaseSetOption key value
  | CDatabaseRelease => PostgresDatabaseRelease
  | CConnectionNew => PostgresConnectionNew
  | CConnectionInit database => PostgresConnectionInit database
  | CConnectionSetOption key value => PostgresConnectionSetOption key value
  | CConnectionCommit => PostgresConnectionCommit
  | CConnectionRollback => PostgresConnectionRollback
  | CConnectionRelease => PostgresConnectionRelease
  end.
(** A connection is not initialised while it is open, and only with a database that exists. *)
Definition well_used `{Libpq} (call : session_call) (h : Heap) (handle : option nat) : Prop :=
  match call, handle with
  | CConnectionInit _, Some i => forall c, hp_connections h !! i = Some c -> pc_conn c = 0
  | _, _ => True
  end.
Inductive reachable `{Libc} `{Libpq} : Heap -> Prop :=
| reachable_start e d : reachable (mkHeap e d [] [])
| reachable_call call handle h code h' handle' :
    reachable h -> well_used call h handle ->
    finish (session_api call (h, handle)) = Some (code, (h', handle')) -> reachable h'.

Section invariant.
  Context `{Libc} `{Libpq} `{!NullConnection}.

Lemma counted_open o r i d n : counted_right (o, r) -> r !! i = Some None -> o !! d = Some n ->
  counted_right (<[d := n + 1]> o, <[i := Some d]> r).
Proof.
  intros [Hc Hin] Hr Hd. pose proof (lookup_lt_Some _ _ _ Hd). split; simpl in *.
  - intros j m. rewrite (open_on_insert j r i None) by done. unfold is_on at 1. rewrite decide_False by done.
    destruct (decide (j = d)) as [->|Hne].
    + rewrite list_lookup_insert_eq by done. intros [= <-]. rewrite (Hc _ _ Hd). unfold is_on.
      rewrite decide_True by done. lia.
    + rewrite list_lookup_insert_ne by done. intros Hm. rewrite (Hc _ _ Hm). unfold is_on.
      rewrite decide_False by congruence. lia.
  - rewrite length_insert. apply Forall_insert; [done|]. by intros ? [= <-].
Qed.
Lemma counted_close o r i d n : counted_right (o, r) -> r !! i = Some (Some d) -> o !! d = Some n ->
  counted_right (<[d := n - 1]> o, <[i := None]> r).
Proof.
  intros [Hc Hin] Hr Hd. split; simpl in *.
  - intros j m. rewrite (open_on_insert j r i (Some d)) by done. unfold is_on.
    destruct (decide (j = d)) as [->|Hne].
    + rewrite list_lookup_insert_eq by (by eapply lookup_lt_Some). intros [= <-]. rewrite (Hc _ _ Hd).
      rewrite decide_True by done. rewrite decide_False by done. lia.
    + rewrite list_lookup_insert_ne by done. intros Hm. rewrite (Hc _ _ Hm).
      rewrite !decide_False by congruence. lia.
  - rewrite length_insert. apply Forall_insert; [done|]. done.
Qed.
Lemma counted_none o r i : counted_right (o, r) -> r !! i = Some None ->
  counted_right (o, <[i := None]> r).
Proof. intros Hc Hr. by rewrite list_insert_id. Qed.
Lemma counted_positive o r i d n : counted_right (o, r) -> r !! i = Some (Some d) -> o !! d = Some n -> 1 <= n.
Proof.
  intros [Hc _] Hr Hd. rewrite (Hc _ _ Hd). simpl. clear -Hr. revert i Hr.
  induction r as [|x r IH]; intros [|i] Hr; simpl in *; try done.
  - injection Hr as ->. unfold is_on at 1. rewrite decide_True by done. pose proof (open_on_nonneg d r). lia.
  - specialize (IH i Hr). unfold is_on at 1. destruct (decide _); lia.
Qed.

(** Through a handle. *)
Lemma with_handle_counts method h handle code h' handle' :
  (forall i, handle = Some i -> wlp (method i) (fun _ h' => counted_right (sessions h'))
     (fun _ h' => counted_right (sessions h')) h) ->
  counted_right (sessions h) ->
  finish (with_handle method (h, handle)) = Some (code, (h', handle')) -> counted_right (sessions h').
Proof.
  intros Hm Hc. unfold with_handle, mbind, M_bind, gets. simpl.
  destruct handle as [i|]; [|by intros [= <- <- <-]]. specialize (Hm i eq_refl). unfold wlp in Hm.
  unfold zoom. simpl. destruct (method i h); simpl; by intros [= <- <- <-].
Qed.
Lemma release_handle_counts method h handle code h' handle' :
  (forall i, handle = Some i -> wlp (method i) (fun _ h' => counted_right (sessions h'))
     (fun _ h' => counted_right (sessions h')) h) ->
  counted_right (sessions h) ->
  finish (release_handle method (h, handle)) = Some (code, (h', handle')) -> counted_right (sessions h').
Proof.
  intros Hm Hc. unfold release_handle, mbind at 1, M_bind at 1, gets. simpl.
  destruct handle as [i|]; [|by intros [= <- <- <-]]. specialize (Hm i eq_refl). unfold wlp in Hm.
  unfold mbind, M_bind, catch, zoom, set_private, modify, return_code. simpl.
  destruct (method i h) as [[] h1|c h1| |]; simpl; [by intros [= <- <- <-]| |done..].
  destruct (c =? 0); by intros [= <- <- <-].
Qed.
Lemma keeps_counts {A} (m : M Heap A) h : keeps sessions m -> counted_right (sessions h) ->
  wlp m (fun _ h' => counted_right (sessions h')) (fun _ h' => counted_right (sessions h')) h.
Proof. intros Hk Hc. eapply wlp_keeps; [exact Hk|..]; by intros ? ? ->. Qed.

Lemma connection_init_counts i d h : counted_right (sessions h) ->
  (forall c, hp_connections h !! i = Some c -> pc_conn c = 0) ->
  wlp (Connection_Init i d) (fun _ h' => counted_right (sessions h'))
    (fun _ h' => counted_right (sessions h')) h.
Proof.
  intros Hc Hz. destruct d as [d|]; [|by apply keeps_counts; [apply raise_keeps|]].
  destruct (hp_connections h !! i) as [c|] eqn:E.
  2:{ unfold Connection_Init. apply wlp_bind, wlp_connection. intros c. by rewrite E. }
  specialize (Hz c eq_refl). assert (refs h !! i = Some None) as Hr.
  { rewrite (refs_lookup _ _ _ E). unfold open_ref. by rewrite Hz. }
  eapply wlp_conseq; [by apply connection_init_sessions| |].
  - intros _ h' (n & conn & _ & Hn & -> & _). by apply counted_open.
  - intros code h' Hs. rewrite Hs by done. by apply counted_none.
Qed.
Lemma connection_release_counts i h : counted_right (sessions h) ->
  wlp (Connection_Release i) (fun _ h' => counted_right (sessions h'))
    (fun _ h' => counted_right (sessions h')) h.
Proof.
  intros Hc. eapply wlp_conseq; [apply connection_release_sessions| |].
  - intros _ h' [[-> _]|(d & n & Hr & Hn & ->)]; [done|]. by apply counted_close.
  - intros _ h' (d & n & Hr & Hn & Hneg). pose proof (counted_positive _ _ _ _ _ Hc Hr Hn). lia.
Qed.
Lemma new_database_counts h : counted_right (sessions h) ->
  counted_right (opens h ++ [0], refs h).
Proof.
  intros [Hc Hin]. split; simpl in *.
  - intros i n Hi. destruct (decide (i < length (opens h))%nat).
    + rewrite lookup_app_l in Hi by done. by apply Hc.
    + rewrite lookup_app_r in Hi by lia. apply list_lookup_singleton_Some in Hi as [Hi <-].
      symmetry. apply open_on_none. eapply Forall_impl; [exact Hin|]. simpl.
      intros r Hr ->. specialize (Hr _ eq_refl). lia.
  - eapply Forall_impl; [exact Hin|]. simpl. intros r Hr j ->. specialize (Hr _ eq_refl).
    rewrite length_app. simpl. lia.
Qed.
Lemma new_connection_counts h : counted_right (sessions h) ->
  counted_right (opens h, refs h ++ [None]).
Proof.
  intros [Hc Hin]. split; simpl in *.
  - intros i n Hi. rewrite open_on_app. simpl. rewrite (Hc _ _ Hi). unfold is_on. rewrite decide_False by done. lia.
  - apply Forall_app_2; [done|]. by constructor.
Qed.

Lemma reachable_counts h : reachable h -> counted_right (sessions h).
Proof.
  induction 1 as [e d|call handle h code h' handle' _ IH Huse Hrun]; [by split; [|constructor]|].
  destruct call; simpl in Hrun; revert Hrun;
    try (apply with_handle_counts; [intros i ->|done]); try (apply release_handle_counts; [intros i ->|done]).
  - unfold PostgresDatabaseNew, mbind, M_bind, gets. simpl. destruct handle as [i|].
    + unfold raise, mbind, M_bind, set_error, zoom, SetError. simpl.
      unfold mbind, M_bind, gets. simpl. unfold id. destruct (hp_error h); simpl; by intros [= <- <- <-].
    + intros [= <- <- <-]. unfold sessions, opens. simpl. rewrite map_app. by apply (new_database_counts h).
  - apply keeps_counts; [|done]. intros h1. apply (database_init_sessions i h1).
  - apply keeps_counts; [|done]. apply database_option_keeps.
  - apply keeps_counts; [|done]. apply database_release_keeps.
  - unfold PostgresConnectionNew, mbind, M_bind, gets. simpl. intros [= <- <- <-].
    unfold sessions, refs. simpl. rewrite map_app. by apply (new_connection_counts h).
  - by apply connection_init_counts.
  - apply keeps_counts; [|done]. apply set_autocommit_keeps.
  - apply keeps_counts; [|done]. apply commit_keeps.
  - apply keeps_counts; [|done]. apply rollback_keeps.
  - by apply connection_release_counts.
Qed.
End invariant.

(** * Transactions

    What the server has made permanent for a connection, and what the next COMMIT will make
    permanent: [None] outside a transaction, nothing in one that the server has aborted.  BEGIN
    inside a transaction is answered with a warning; COMMIT and ROLLBACK end it. *)
Class Transactions `{Libpq} := {
  effect : Type;
  durable : Z -> pq -> list effect;
  work : Z -> pq -> option (list effect);
  begin_begins : forall conn d, let '(r, d1) := PQexec conn "BEGIN TRANSACTION" d in
    PQresultStatus r d1 = PGRES_COMMAND_OK ->
    durable conn (PQclear r d1) = durable conn d /\
    work conn (PQclear r d1) = Some (default [] (work conn d));
  commit_ends : forall conn d, let '(r, d1) := PQexec conn "COMMIT" d in
    PQresultStatus r d1 = PGRES_COMMAND_OK ->
    durable conn (PQclear r d1) = durable conn d ++ default [] (work conn d) /\
    work conn (PQclear r d1) = None;
  rollback_ends : forall conn d, let '(r, d1) := PQexec conn "ROLLBACK" d in
    PQresultStatus r d1 = PGRES_COMMAND_OK ->
    durable conn (PQclear r d1) = durable conn d /\ work conn (PQclear r d1) = None;
}.
Definition server_state `{Transactions} (conn : Z) (d : pq) : list effect * option (list effect) :=
  (durable conn d, work conn d).
Definition in_transaction `{Transactions} (conn : Z) (d : pq) : bool :=
  match work conn d with Some _ => true | None => false end.

(** The concrete server logs every command; an effect is a command's text. *)
Definition log_step (s : list string * option (list string)) (q : string) : list string * option (list string) :=
  if String.eqb q "BEGIN TRANSACTION" then (s.1, Some (default [] s.2))
  else if String.eqb q "COMMIT" then (s.1 ++ default [] s.2, None)
  else if String.eqb q "ROLLBACK" then (s.1, None)
  else match s.2 with Some w => (s.1, Some (w ++ [q])) | None => (s.1 ++ [q], None) end.
Definition log_state (d : PgMock.state) : list string * option (list string) :=
  fold_left log_step (map fst (PgMock.pm_log d)) ([], None).
#[export] Instance mock_transactions : Transactions (H := PgMock.mock).
Proof.
  assert (forall q d, log_state (PgMock.clear (PgMock.run q [] d).1 (PgMock.run q [] d).2) = log_step (log_state d) q)
    as Hrun.
  { intros q d. unfold log_state. simpl. by rewrite map_app, fold_left_app. }
  refine (Build_Transactions PgMock.mock string (fun _ d => (log_state d).1) (fun _ d => (log_state d).2) _ _ _);
    intros conn d _; (split; [exact (f_equal fst (Hrun _ d))|exact (f_equal snd (Hrun _ d))]).
Defined.

(** The four calls, what they do to the flag, and which command, if any, they amount to. *)
Inductive tx_call := TxEnable | TxDisable | TxCommit | TxRollback.
Inductive tx_step := Begins | Commits | RollsBack.
Definition tx_spec (call : tx_call) (autocommit : bool) : option (bool * option tx_step) :=
  match call, autocommit with
  | TxEnable, true => Some (true, None)
  | TxEnable, false => Some (true, Some Commits)
  | TxDisable, true => Some (false, Some Begins)
  | TxDisable, false => Some (false, None)
  | TxCommit, false => Some (false, Some Commits)
  | TxRollback, false => Some (false, Some RollsBack)
  | TxCommit, true | TxRollback, true => None
  end.
(** On the permanent effects and those of the open transaction. *)
Definition tx_effect {W} (step : tx_step) (s : list W * option (list W)) : list W * option (list W) :=
  match step with
  | Begins => (s.1, Some (default [] s.2))
  | Commits => (s.1 ++ default [] s.2, None)
  | RollsBack => (s.1, None)
  end.
Definition option_value (autocommit : bool) : string :=
  if autocommit then ADBC_OPTION_VALUE_ENABLED else ADBC_OPTION_VALUE_DISABLED.
Definition tx_api `{Libc} `{Libpq} (i : nat) (call : tx_call) : M Heap unit :=
  match call with
  | TxEnable => Connection_SetOption i ADBC_CONNECTION_OPTION_AUTOCOMMIT (option_value true)
  | TxDisable => Connection_SetOption i ADBC_CONNECTION_OPTION_AUTOCOMMIT (option_value false)
  | TxCommit => Connection_Commit i
  | TxRollback => Connection_Rollback i
  end.

Section transactions.
  Context `{Libc} `{Libpq} `{!Transactions}.

Definition heap_with (e : ErrorPtr) (d : pq) (h : Heap) : Heap :=
  mkHeap e d (hp_databases h) (hp_connections h).
Lemma run_command_spec conn query what (Q : unit -> Heap -> Prop) E h :
  (forall r d1, PQexec conn query (hp_pq h) = (r, d1) -> PQresultStatus r d1 = PGRES_COMMAND_OK ->
     Q tt (heap_with (hp_error h) (PQclear r d1) h)) ->
  (forall e d, E ADBC_STATUS_IO (heap_with e d h)) ->
  wp (run_command conn query what) Q E h.
Proof.
  intros HQ HE. unfold run_command. apply wp_bind. unfold wp at 1, pq_call, pq_of. simpl.
  destruct (PQexec conn query (hp_pq h)) as [r d1]. specialize (HQ r d1 eq_refl).
  unfold check_command, pq_ask, pq_do. apply wp_bind, wp_gets. unfold pq_of. simpl.
  destruct (Z.eqb_spec (PQresultStatus r d1) PGRES_COMMAND_OK) as [Hok|Hno]; simpl; [by apply HQ|].
  apply wp_bind, wp_gets, wp_bind, wp_bind, wp_pg_set_error. intros e. apply wp_ret, wp_bind, wp_modify, wp_exit.
  apply HE.
Qed.
Lemma wp_connection i c (Q : PostgresConnection -> Heap -> Prop) E h :
  hp_connections h !! i = Some c -> Q c h -> wp (connection i) Q E h.
Proof. intros Hc HQ. unfold connection. apply wp_bind, wp_gets. by eapply wp_lift_opt. Qed.

Lemma set_autocommit_eq i autocommit :
  Connection_SetOption i ADBC_CONNECTION_OPTION_AUTOCOMMIT (option_value autocommit) =
    (c ← connection i;
     when (negb (Bool.eqb autocommit (pc_autocommit c)))
       (run_command (pc_conn c) (if autocommit then "COMMIT" else "BEGIN TRANSACTION")
          "Failed to update autocommit: " ;;
        put_connection i (mkConnection (pc_database c) (pc_conn c) autocommit))).
Proof. by destruct autocommit. Qed.

(** One call, as a relation between the states around it. *)
Definition tx_ok (call : tx_call) (i : nat) (c : PostgresConnection) (h h' : Heap) : Prop :=
  exists autocommit t, tx_spec call (pc_autocommit c) = Some (autocommit, t) /\
    hp_connections h' !! i = Some (mkConnection (pc_database c) (pc_conn c) autocommit) /\
    match t with
    | None => h' = h
    | Some step => server_state (pc_conn c) (hp_pq h') = tx_effect step (server_state (pc_conn c) (hp_pq h))
    end.
Definition tx_refused (call : tx_call) (c : PostgresConnection) (code : Z) (h h' : Heap) : Prop :=
  hp_connections h' = hp_connections h /\
  (code = ADBC_STATUS_IO \/
   code = ADBC_STATUS_INVALID_STATE /\ tx_spec call (pc_autocommit c) = None /\ hp_pq h' = hp_pq h).
Lemma tx_api_spec call i c h : hp_connections h !! i = Some c ->
  wp (tx_api i call) (fun _ h' => tx_ok call i c h h') (fun code h' => tx_refused call c code h h') h.
Proof.
  intros Hc.
  destruct c as [db conn a]. pose proof (lookup_lt_Some _ _ _ Hc) as Hlt.
  destruct call; cbn [tx_api];
    [rewrite (set_autocommit_eq i true)|rewrite (set_autocommit_eq i false)
    |unfold Connection_Commit|unfold Connection_Rollback];
    (apply wp_bind; eapply wp_connection; [exact Hc|]); destruct a;
    cbn [pc_autocommit pc_conn pc_database Bool.eqb negb when tx_spec].
  - apply wp_ret. by eexists _, _.
  - apply wp_bind, run_command_spec; [|intros e d; split; [done|by left]]. intros r d1 Hrun Hok.
    apply wp_modify. eexists _, _. split; [done|]. split; [by apply list_lookup_insert_eq|].
    pose proof (commit_ends conn (hp_pq h)) as Hend. rewrite Hrun in Hend. destruct (Hend Hok) as [E1 E2]. by apply (f_equal2 pair).
  - apply wp_bind, run_command_spec; [|intros e d; split; [done|by left]]. intros r d1 Hrun Hok.
    apply wp_modify. eexists _, _. split; [done|]. split; [by apply list_lookup_insert_eq|].
    pose proof (begin_begins conn (hp_pq h)) as Hend. rewrite Hrun in Hend. destruct (Hend Hok) as [E1 E2]. by apply (f_equal2 pair).
  - apply wp_ret. by eexists _, _.
  - apply wp_bind, wp_pg_set_error. intros e. apply wp_exit. split; [done|by right].
  - apply run_command_spec; [|intros e d; split; [done|by left]]. intros r d1 Hrun Hok.
    eexists _, _. split; [done|]. split; [done|].
    pose proof (commit_ends conn (hp_pq h)) as Hend. rewrite Hrun in Hend. destruct (Hend Hok) as [E1 E2]. by apply (f_equal2 pair).
  - apply wp_bind, wp_pg_set_error. intros e. apply wp_exit. split; [done|by right].
  - apply run_command_spec; [|intros e d; split; [done|by left]]. intros r d1 Hrun Hok.
    eexists _, _. split; [done|]. split; [done|].
    pose proof (rollback_ends conn (hp_pq h)) as Hend. rewrite Hrun in Hend. destruct (Hend Hok) as [E1 E2]. by apply (f_equal2 pair).
Qed.

(** C12: Autocommit, commit and rollback implement the transaction specification: disabling begins
    a transaction; enabling and commit end it and make its effects permanent, rollback ends it
    and discards them; an option that changes nothing sends nothing; commit and rollback are
    refused under autocommit without a command; when the server refuses a command the flag keeps
    its value. *)
Theorem transactions_specified (call : tx_call) (i : nat) (c : PostgresConnection) (h : Heap)
  (Hc : hp_connections h !! i = Some c) :
  wp (tx_api i call)
    (fun _ h' => exists autocommit t, tx_spec call (pc_autocommit c) = Some (autocommit, t) /\
       hp_connections h' !! i = Some (mkConnection (pc_database c) (pc_conn c) autocommit) /\
       match t with
       | None => h' = h
       | Some step => server_state (pc_conn c) (hp_pq h') = tx_effect step (server_state (pc_conn c) (hp_pq h))
       end)
    (fun code h' => hp_connections h' = hp_connections h /\
       (code = ADBC_STATUS_IO \/
        code = ADBC_STATUS_INVALID_STATE /\ tx_spec call (pc_autocommit c) = None /\
        hp_pq h' = hp_pq h)) h.
Proof. by apply tx_api_spec. Qed.

(** After a commit or a rollback the statements that follow are outside any transaction,
    although autocommit is still off: no new transaction is begun, and turning autocommit off
    again does not begin one either, because the flag already says so. *)
Theorem commit_leaves_no_transaction (call : tx_call) (i : nat) (c : PostgresConnection)
  (h h' : Heap) (Hc : hp_connections h !! i = Some c) (Hauto : pc_autocommit c = true)
  (Hcall : call = TxCommit \/ call = TxRollback)
  (Hrun : (tx_api i TxDisable ;; tx_api i call ;; tx_api i TxDisable) h = Ret tt h') :
  exists c', hp_connections h' !! i = Some c' /\ pc_autocommit c' = false /\
    in_transaction (pc_conn c') (hp_pq h') = false.
Proof.
  apply bind_ret_inv in Hrun as ([] & h1 & Hr1 & Hrun). apply bind_ret_inv in Hrun as ([] & h2 & Hr2 & Hr3).
  pose proof (tx_api_spec TxDisable i c h Hc) as S1. unfold wp in S1. rewrite Hr1 in S1.
  destruct S1 as (a1 & t1 & Hs1 & Hc1 & _). rewrite Hauto in Hs1. injection Hs1 as <- <-.
  pose proof (tx_api_spec call i _ h1 Hc1) as S2. unfold wp in S2. rewrite Hr2 in S2.
  destruct S2 as (a2 & t2 & Hs2 & Hc2 & Ht2). cbn [pc_autocommit pc_conn pc_database] in *.
  assert (in_transaction (pc_conn c) (hp_pq h2) = false /\ a2 = false) as [Hout ->].
  { destruct Hcall as [-> | ->]; injection Hs2 as <- <-; apply (f_equal snd) in Ht2; unfold in_transaction;
      unfold server_state in Ht2; cbn [snd tx_effect] in Ht2; by rewrite Ht2. }
  pose proof (tx_api_spec TxDisable i _ h2 Hc2) as S3. unfold wp in S3. rewrite Hr3 in S3.
  destruct S3 as (a3 & t3 & Hs3 & Hc3 & Ht3). injection Hs3 as <- <-. subst h'.
  by eexists.
Qed.
End transactions.

Section release.
  Context `{Libc} `{Libpq} `{!NullConnection}.

Lemma database_release_spec i db h : hp_databases h !! i = Some db ->
  if pd_open_connections db =? 0 then Database_Release i h = Ret tt h
  else exists e, Database_Release i h = Exit ADBC_STATUS_INVALID_STATE (heap_with e (hp_pq h) h).
Proof.
  intros Hdb. unfold Database_Release, database, mbind, M_bind, gets, lift_opt. rewrite Hdb. simpl.
  destruct (Z.eqb_spec (pd_open_connections db) 0); [done|]. cbn [negb].
  unfold raise. set (parts := ["Database released with "%string; _; _]).
  assert (wp (set_error parts) (fun _ h' => exists e, h' = heap_with e (hp_pq h) h) (fun _ _ => False) h)
    as Hw by (apply wp_pg_set_error; intros e; by eexists).
  unfold wp in Hw. unfold mbind, M_bind. destruct (set_error parts h) as [[] h1|? ?| |]; try done.
  destruct Hw as [e ->]. by exists e.
Qed.

(** C11: The count that guards a database is right.  In every state a client reaches that does
    not initialise an open connection again, the count of a database is the number of
    connections open on it, whatever failed on the way; so releasing the database succeeds
    exactly when none is open, and is otherwise refused without an effect. *)
Theorem release_guarded (h : Heap) (i : nat) (db : PostgresDatabase) (Hreach : reachable h)
  (Hdb : hp_databases h !! i = Some db) :
  pd_open_connections db = open_on i (refs h) /\
  (open_on i (refs h) = 0 -> Database_Release i h = Ret tt h) /\
  (0 < open_on i (refs h) -> exists e,
     Database_Release i h = Exit ADBC_STATUS_INVALID_STATE (heap_with e (hp_pq h) h)).
Proof.
  pose proof (reachable_counts h Hreach) as [Hc _]. specialize (Hc i _ (opens_lookup _ _ _ Hdb)).
  simpl in Hc. pose proof (database_release_spec i db h Hdb) as Hrel. rewrite Hc in *.
  split; [done|]. destruct (Z.eqb_spec (open_on i (refs h)) 0); split; try done; lia.
Qed.

(** Initialising an open connection again leaks: the first connection to the server is
    forgotten but stays counted.  After releasing the connection none is open through it, the
    count is what it was while it was open, and releasing the database is refused. *)
Theorem reopened_connection_leaks (i d : nat) (c : PostgresConnection) (n : Z) (h h' : Heap)
  (Hc : hp_connections h !! i = Some c) (Hn : opens h !! d = Some n) (Hopen : 1 <= n)
  (Hrun : (Connection_Init i (Some d) ;; Connection_Release i) h = Ret tt h') :
  refs h' !! i = Some None /\ opens h' !! d = Some n /\
  exists e, Database_Release d h' = Exit ADBC_STATUS_INVALID_STATE (heap_with e (hp_pq h') h').
Proof.
  apply bind_ret_inv in Hrun as ([] & h1 & Hr1 & Hr2).
  pose proof (connection_init_sessions i d c h Hc) as S1. unfold wlp in S1. rewrite Hr1 in S1.
  destruct S1 as (n' & conn & Hconn & Hn' & Hs1 & Hc1). rewrite Hn in Hn'. injection Hn' as <-.
  apply pair_sessions in Hs1 as [Ho1 Hrf1].
  pose proof (connection_release_sessions i h1) as S2. unfold wlp in S2. rewrite Hr2 in S2.
  pose proof (lookup_lt_Some _ _ _ (refs_lookup _ _ _ Hc)) as Hlt.
  pose proof (lookup_lt_Some _ _ _ Hn) as Hltd.
  destruct S2 as [[_ Hnone]|(d' & m & Hd' & Hm & Hs2)].
  { by rewrite Hrf1, list_lookup_insert_eq in Hnone by done. }
  rewrite Hrf1, list_lookup_insert_eq in Hd' by done. injection Hd' as <-.
  rewrite Ho1, list_lookup_insert_eq in Hm by done. injection Hm as <-.
  rewrite Ho1, Hrf1, Z.add_simpl_r, !list_insert_insert_eq in Hs2.
  rewrite (list_insert_id _ _ _ Hn) in Hs2. apply pair_sessions in Hs2 as [Ho2 Hrf2].
  rewrite Ho2, Hrf2, list_lookup_insert_eq by done. split_and!; [done..|].
  assert (opens h' !! d = Some n) as Hn2 by by rewrite Ho2.
  unfold opens in Hn2. rewrite list_lookup_fmap in Hn2.
  destruct (hp_databases h' !! d) as [db|] eqn:Edb; [|done]. injection Hn2 as Hn2.
  pose proof (database_release_spec d db h' Edb) as Hrel. rewrite Hn2 in Hrel.
  by rewrite (proj2 (Z.eqb_neq n 0)) in Hrel by lia.
Qed.
End release.

(** * Instances

    A database and an open connection on the scripted server. *)
#[local] Existing Instance host.
#[local] Existing Instance PgMock.mock.
Definition example_script : PgMock.script :=
  [(kTypeQuery, PgMock.mkAnswer PGRES_TUPLES_OK [] [["20"; "int8"; "int8recv"]; ["25"; "text"; "textrecv"]]%string [] 0)].
Definition session_calls : list (session_call * option nat) :=
  [(CDatabaseNew, None); (CDatabaseSetOption "uri" "host", Some 0%nat); (CDatabaseInit, Some 0%nat);
   (CConnectionNew, None); (CConnectionInit (Some 0%nat), Some 0%nat)].
Definition session_step (h : Heap) (c : session_call * option nat) : Heap :=
  match finish (session_api c.1 (h, c.2)) with Some (_, (h', _)) => h' | None => h end.
Definition example_session : Heap :=
  fold_left session_step session_calls (mkHeap (Some zero_error) (PgMock.start example_script) [] []).
Lemma reachable_step h c : reachable h -> well_used c.1 h c.2 -> reachable (session_step h c).
Proof.
  intros Hr Hu. unfold session_step. destruct (finish _) as [[code [h' handle']]|] eqn:E; [|done].
  by eapply reachable_call.
Qed.
Lemma example_session_reachable : reachable example_session.
Proof.
  unfold example_session. cbn [fold_left session_calls].
  apply reachable_step; [do 4 (apply reachable_step; [|done]); apply reachable_start|].
  intros c Hc. assert (c = new_connection) as -> by (vm_compute in Hc; by injection Hc). done.
Qed.
Definition example_db : PostgresDatabase := default new_database (hp_databases example_session !! 0%nat).
Lemma release_guarded_witness :
  pd_open_connections example_db = open_on 0 (refs example_session) /\
  (open_on 0 (refs example_session) = 0 -> Database_Release 0 example_session = Ret tt example_session) /\
  (0 < open_on 0 (refs example_session) -> exists e,
     Database_Release 0 example_session =
       Exit ADBC_STATUS_INVALID_STATE (heap_with e (hp_pq example_session) example_session)).
Proof.
  apply (release_guarded example_session 0 example_db);
    [apply example_session_reachable|vm_compute; reflexivity].
Defined.
Definition example_connection : PostgresConnection :=
  default new_connection (hp_connections example_session !! 0%nat).
Definition after_reopen : Heap :=
  left_by (Connection_Init 0 (Some 0%nat) ;; Connection_Release 0) example_session.
Lemma reopened_connection_leaks_witness :
  refs after_reopen !! 0%nat = Some None /\ opens after_reopen !! 0%nat = Some 1 /\
  exists e, Database_Release 0 after_reopen =
    Exit ADBC_STATUS_INVALID_STATE (heap_with e (hp_pq after_reopen) after_reopen).
Proof.
  apply (reopened_connection_leaks 0 0 example_connection 1 example_session after_reopen);
    [vm_compute; reflexivity|vm_compute; reflexivity|lia|].
  apply value_run. vm_compute. reflexivity.
Defined.
(** Autocommit is off and an INSERT has run. *)
Definition insert_done : Heap :=
  let h := left_by (tx_api 0 TxDisable) example_session in
  heap_with (hp_error h) (PgMock.run "INSERT INTO t VALUES (1)" [] (hp_pq h)).2 h.
Lemma transactions_specified_witness :
  work 2 (hp_pq insert_done) = Some ["INSERT INTO t VALUES (1)"%string] /\
  wp (tx_api 0 TxCommit)
    (fun _ h' => exists autocommit t, tx_spec TxCommit false = Some (autocommit, t) /\
       hp_connections h' !! 0%nat = Some (mkConnection (Some 0%nat) 2 autocommit) /\
       match t with
       | None => h' = insert_done
       | Some step => server_state 2 (hp_pq h') = tx_effect step (server_state 2 (hp_pq insert_done))
       end)
    (fun code h' => hp_connections h' = hp_connections insert_done /\
       (code = ADBC_STATUS_IO \/
        code = ADBC_STATUS_INVALID_STATE /\ tx_spec TxCommit false = None /\
        hp_pq h' = hp_pq insert_done)) insert_done.
Proof.
  split; [vm_compute; reflexivity|].
  apply (transactions_specified TxCommit 0 (mkConnection (Some 0%nat) 2 false) insert_done).
  vm_compute. reflexivity.
Defined.
Definition after_commit : Heap :=
  left_by (tx_api 0 TxDisable ;; tx_api 0 TxCommit ;; tx_api 0 TxDisable) example_session.
Lemma commit_leaves_no_transaction_witness :
  exists c', hp_connections after_commit !! 0%nat = Some c' /\ pc_autocommit c' = false /\
    in_transaction (pc_conn c') (hp_pq after_commit) = false.
Proof.
  apply (commit_leaves_no_transaction TxCommit 0 example_connection example_session after_commit);
    [vm_compute; reflexivity|reflexivity|by left|].
  apply value_run. vm_compute. reflexivity.
Defined.
