(* ===== verification/Ownership.v ===== *)
(** Objects of the driver manager (DriverManager.v) held through handles of another language:
    which object keeps which alive, and what each call does to drivers and tables.  The R
    bindings (RSession.v) and the GLib bindings (GLib.v) are two such holders. *)
From stdpp Require Import base tactics list numbers option strings gmap.
From Stdlib Require Import ZArith Lia Ascii.
From S2P Require Import Prelude CLib Adbc Utils.
From S2P Require Import DriverManager.

(** * Ownership

    What matters for lifetimes: which driver tables are allocated, the type and driver of every
    object, and for every handle the object it points at and the handle it keeps alive. *)
Record View := mkView {
  v_drivers : list bool;
  v_objects : list (option (struct_type * option nat));
  v_handles : list (option nat * option nat);
}.
Definition obj (v : View) (b : nat) (t : struct_type) (d : nat) : Prop :=
  v_objects v !! b = Some (Some (t, Some d)).
Definition allocated (v : View) (d : nat) : Prop := v_drivers v !! d = Some true.
(** An object that has a driver keeps [x] alive. *)
Definition guarded (v : View) (x : nat) : Prop :=
  exists y b t d, v_handles v !! y = Some (Some b, Some x) /\ obj v b t d.

(** The same, but for a database: databases keep nothing alive. *)
Definition held (v : View) (x : nat) : Prop :=
  exists y b t d, v_handles v !! y = Some (Some b, Some x) /\ obj v b t d /\ t <> TDatabase.
Lemma held_guarded v x : held v x -> guarded v x.
Proof. intros (y & b & t & d & Hy & Hb & _). by exists y, b, t, d. Qed.

(** Every table in use is allocated: a database owns its table alone; a connection's table
    belongs, if to any database, to the one it protects; a statement protects a connection with
    the same table. *)
Record owned (v : View) : Prop := {
  own_addr : forall x y b p q, v_handles v !! x = Some (Some b, p) ->
    v_handles v !! y = Some (Some b, q) -> x = y;
  own_bound : forall x b p, v_handles v !! x = Some (Some b, p) -> (b < length (v_objects v))%nat;
  own_database : forall b d, obj v b TDatabase d -> allocated v d;
  own_alone : forall b b' d, obj v b TDatabase d -> obj v b' TDatabase d -> b = b';
  own_connection : forall b d, obj v b TConnection d ->
    allocated v d /\
    exists x y bd p, v_handles v !! x = Some (Some b, Some y) /\
      v_handles v !! y = Some (Some bd, p) /\ (forall b', obj v b' TDatabase d -> b' = bd);
  own_statement : forall b d, obj v b TStatement d ->
    exists x y bc p, v_handles v !! x = Some (Some b, Some y) /\
      v_handles v !! y = Some (Some bc, p) /\ obj v bc TConnection d;
}.

(** ** Changes of the view *)
Definition put_object (ds : list bool) (b : nat) (o : option (struct_type * option nat)) (v : View)
    : View := mkView ds (<[b := o]> (v_objects v)) (v_handles v).
Definition put_protected (x : nat) (p : option nat) (v : View) : View :=
  mkView (v_drivers v) (v_objects v) (alter (fun q => (q.1, p)) x (v_handles v)).
Definition add_handle (o : option (struct_type * option nat)) (p : option nat) (v : View) : View :=
  mkView (v_drivers v) (v_objects v ++ [o]) (v_handles v ++ [(Some (length (v_objects v)), p)]).

Lemma obj_put ds b o v b' t d : obj (put_object ds b o v) b' t d ->
  (b' = b /\ o = Some (t, Some d)) \/ (b' <> b /\ obj v b' t d).
Proof.
  unfold obj; simpl. destruct (decide (b = b')) as [->|Hne].
  - intros [[_ Ho]|[? _]]%list_lookup_insert_Some; [left|done]. split; [done|naive_solver].
  - rewrite list_lookup_insert_ne by done. auto.
Qed.
Lemma obj_put_ne ds b o v b' t d : b' <> b -> obj v b' t d -> obj (put_object ds b o v) b' t d.
Proof. intros. unfold obj; simpl. by rewrite list_lookup_insert_ne. Qed.
Lemma lookup_snoc_inv {A} (l : list A) (a : A) i b : (l ++ [a]) !! i = Some b ->
  l !! i = Some b \/ (i = length l /\ b = a).
Proof. intros [Hl|[? Hl]]%lookup_app_Some; [by left|right]. apply list_lookup_singleton_Some in Hl. split; [lia|naive_solver]. Qed.

(** A new object has no driver; its address is fresh. *)
Lemma owned_add v o p : owned v -> (forall t d, o <> Some (t, Some d)) -> owned (add_handle o p v).
Proof.
  intros Hv Ho.
  assert (Hobj : forall b t d, obj (add_handle o p v) b t d -> obj v b t d).
  { intros b t d [?|[_ Hb]]%lookup_snoc_inv; [done|]. by destruct (Ho t d). }
  assert (Hold : forall b t d, obj v b t d -> obj (add_handle o p v) b t d).
  { intros b t d Hb. unfold obj; simpl. apply lookup_app_l_Some. exact Hb. }
  constructor; simpl.
  - intros x y b q q' [Hx|[-> Hx]]%lookup_snoc_inv [Hy|[-> Hy]]%lookup_snoc_inv; [|exfalso|exfalso|done].
    + by eapply (own_addr _ Hv).
    + apply (own_bound _ Hv) in Hx. simplify_eq. lia.
    + apply (own_bound _ Hv) in Hy. simplify_eq. lia.
  - intros x b q. rewrite length_app; simpl.
    intros [Hx|[_ Hx]]%lookup_snoc_inv; [apply (own_bound _ Hv) in Hx|simplify_eq]; lia.
  - intros b d Hb%Hobj. by apply (own_database _ Hv b).
  - intros b b' d Hb%Hobj Hb'%Hobj. by eapply (own_alone _ Hv).
  - intros b d Hb%Hobj. destruct (own_connection _ Hv b d Hb) as (? & x & y & bd & q & ? & ? & Hdb).
    split; [done|]. exists x, y, bd, q. split_and!; [by apply lookup_app_l_Some..|].
    intros b' Hb'%Hobj. by apply Hdb.
  - intros b d Hb%Hobj. destruct (own_statement _ Hv b d Hb) as (x & y & bc & q & ? & ? & ?).
    exists x, y, bc, q. split_and!; [by apply lookup_app_l_Some..|by apply Hold].
Qed.
(** An external pointer to a function. *)
Definition add_function (p : option nat) (v : View) : View :=
  mkView (v_drivers v) (v_objects v) (v_handles v ++ [(None, p)]).
Lemma owned_add_function v p : owned v -> owned (add_function p v).
Proof.
  intros Hv. constructor; simpl.
  - intros x y b q q' [Hx|[_ ?]]%lookup_snoc_inv [Hy|[_ ?]]%lookup_snoc_inv; [|done..].
    by eapply (own_addr _ Hv).
  - intros x b q [Hx|[_ ?]]%lookup_snoc_inv; [|done]. by apply (own_bound _ Hv) in Hx.
  - apply (own_database _ Hv).
  - apply (own_alone _ Hv).
  - intros b d Hb. destruct (own_connection _ Hv b d Hb) as (? & x & y & bd & q & ? & ? & ?).
    split; [done|]. exists x, y, bd, q. by split_and!; [apply lookup_app_l_Some..|].
  - intros b d Hb. destruct (own_statement _ Hv b d Hb) as (x & y & bc & q & ? & ? & ?).
    exists x, y, bc, q. by split_and!; [apply lookup_app_l_Some..|].
Qed.

(** An object that no other one protects loses its driver, or is freed; if it is a database its
    table may be deleted. *)
Lemma owned_drop_held v b x p o : owned v -> v_handles v !! x = Some (Some b, p) ->
  (forall t d, obj v b t d -> t <> TStatement -> ~ held v x) ->
  (forall t d, o <> Some (t, Some d)) ->
  owned (put_object (v_drivers v) b o v) /\
  forall d, obj v b TDatabase d -> owned (put_object (<[d := false]> (v_drivers v)) b o v).
Proof.
  intros Hv Hx Hg Ho.
  assert (Hobj : forall ds b' t d, obj (put_object ds b o v) b' t d -> b' <> b /\ obj v b' t d).
  { intros ds b' t d [[_ ?]|?]%obj_put; [by destruct (Ho t d)|done]. }
  assert (Hmost : forall ds, (forall b' t d, b' <> b -> obj v b' t d -> t = TDatabase \/ t = TConnection ->
            allocated v d -> ds !! d = Some true) -> owned (put_object ds b o v)).
  { intros ds Hds. constructor; simpl.
    - apply (own_addr _ Hv).
    - rewrite length_insert. apply (own_bound _ Hv).
    - intros b' d [Hne Hb]%Hobj. eapply Hds; [done..|by left|]. by eapply (own_database _ Hv).
    - intros b1 b2 d [_ H1]%Hobj [_ H2]%Hobj. by eapply (own_alone _ Hv).
    - intros b' d [Hne Hb]%Hobj. destruct (own_connection _ Hv b' d Hb) as (Hd & y & z & bd & q & ? & ? & Hdb).
      split; [by eapply Hds; [..|right|]|]. exists y, z, bd, q. split_and!; [done..|].
      intros b'' [_ ?]%Hobj. by apply Hdb.
    - intros b' d [Hne Hb]%Hobj. destruct (own_statement _ Hv b' d Hb) as (y & z & bc & q & Hy & Hz & Hc).
      exists y, z, bc, q. split_and!; [done..|]. apply obj_put_ne; [|done].
      intros ->. apply (Hg _ _ Hc); [done|]. assert (z = x) as -> by by eapply (own_addr _ Hv).
      by exists y, b', TStatement, d. }
  split; [by apply Hmost|]. intros d Hb. apply Hmost. intros b' t d' Hne Hb' Ht Hd'.
  rewrite list_lookup_insert_ne; [done|]. intros ->. destruct Ht as [-> | ->].
  - by apply Hne, (own_alone _ Hv _ _ d').
  - destruct (own_connection _ Hv b' d' Hb') as (_ & y & z & bd & q & Hy & Hz & Hdb).
    apply (Hg _ _ Hb); [done|]. rewrite <- (Hdb b Hb) in Hz. assert (z = x) as -> by by eapply (own_addr _ Hv).
    by exists y, b', TConnection, d'.
Qed.
Lemma owned_drop v b x p o : owned v -> v_handles v !! x = Some (Some b, p) ->
  (forall t d, obj v b t d -> t <> TStatement -> ~ guarded v x) ->
  (forall t d, o <> Some (t, Some d)) ->
  owned (put_object (v_drivers v) b o v) /\
  forall d, obj v b TDatabase d -> owned (put_object (<[d := false]> (v_drivers v)) b o v).
Proof.
  intros Hv Hx Hg Ho. eapply owned_drop_held; [done..| |done]. intros t d Hb Ht Hh%held_guarded. by eapply Hg.
Qed.

(** ** Condemned objects

    A collector that has found objects unreachable finalizes them in any order.  Until then the
    connections and statements among them count as if they had no driver: they use no table and
    keep nothing alive. *)
Definition erase_object (dead : gset nat) (b : nat) (o : option (struct_type * option nat))
    : option (struct_type * option nat) :=
  match o with
  | Some (t, Some d) => if decide (b ∈ dead /\ t <> TDatabase) then Some (t, None) else o
  | _ => o
  end.
Definition erase (dead : gset nat) (v : View) : View :=
  mkView (v_drivers v) (imap (erase_object dead) (v_objects v)) (v_handles v).

Section erase.
Context (dead : gset nat).
Lemma erase_lookup v b : v_objects (erase dead v) !! b = erase_object dead b <$> v_objects v !! b.
Proof. simpl. apply list_lookup_imap. Qed.
Lemma erase_put ds b o v :
  erase dead (put_object ds b o v) = put_object ds b (erase_object dead b o) (erase dead v).
Proof.
  unfold erase, put_object; simpl. f_equal. apply list_eq. intros i. rewrite list_lookup_imap.
  destruct (decide (b = i)) as [->|Hne].
  - destruct (decide (i < length (v_objects v))%nat).
    + rewrite !list_lookup_insert_eq by (by rewrite ?length_imap). done.
    + rewrite !list_insert_ge by (rewrite ?length_imap; lia). by rewrite list_lookup_imap.
  - rewrite !list_lookup_insert_ne by done. by rewrite list_lookup_imap.
Qed.
Lemma erase_protect x p v : erase dead (put_protected x p v) = put_protected x p (erase dead v).
Proof. done. Qed.
Lemma erase_add o p v : erase_object dead (length (v_objects v)) o = o ->
  erase dead (add_handle o p v) = add_handle o p (erase dead v).
Proof.
  intros Ho. unfold erase, add_handle; simpl. rewrite imap_app, length_imap. simpl. by rewrite Nat.add_0_r, Ho.
Qed.
Lemma erase_add_function p v : erase dead (add_function p v) = add_function p (erase dead v).
Proof. done. Qed.
(** Databases, objects without a driver and objects that are not condemned stay as they are. *)
Lemma erase_object_kept b t d : b ∉ dead \/ t = TDatabase -> erase_object dead b (Some (t, d)) = Some (t, d).
Proof. destruct d; simpl; [|done]. case_decide; naive_solver. Qed.
Lemma erase_object_none b o : (forall t d, o <> Some (t, Some d)) -> erase_object dead b o = o.
Proof. destruct o as [[t [d|]]|]; simpl; [|done..]. intros Ho. by destruct (Ho t d). Qed.
Lemma erase_object_dead b t d : b ∈ dead -> t <> TDatabase -> erase_object dead b (Some (t, d)) = Some (t, None).
Proof. intros. destruct d; simpl; [|done]. by rewrite decide_True. Qed.
Lemma erase_obj v b t d : obj (erase dead v) b t d -> obj v b t d /\ (b ∉ dead \/ t = TDatabase).
Proof.
  unfold obj. rewrite erase_lookup. destruct (v_objects v !! b) as [[[t' [d'|]]|]|]; simpl; try done.
  case_decide as Hd; [done|]. intros [= -> ->]. split; [done|]. destruct (decide (b ∈ dead)); [right|by left].
  destruct (decide (t = TDatabase)); [done|]. by destruct Hd.
Qed.
Lemma obj_erase v b t d : obj v b t d -> b ∉ dead \/ t = TDatabase -> obj (erase dead v) b t d.
Proof. unfold obj. rewrite erase_lookup. intros -> Hb. change (Some (erase_object dead b (Some (t, Some d))) = Some (Some (t, Some d))).
  by rewrite erase_object_kept.
Qed.
End erase.
(** Condemning more objects: one that is protected by another that is not condemned is not. *)
Definition closed (dead : gset nat) (v : View) : Prop :=
  forall y b x b' p, v_handles v !! y = Some (Some b, Some x) -> v_handles v !! x = Some (Some b', p) ->
    b' ∈ dead -> b ∈ dead.
Lemma owned_condemn dead dead' v :
  owned (erase dead v) -> dead ⊆ dead' -> closed dead' v -> owned (erase dead' v).
Proof.
  intros Hv Hsub Hcl.
  assert (forall b t d, obj (erase dead' v) b t d -> obj (erase dead v) b t d) as Hobj.
  { intros b t d [Hb Hd]%erase_obj. apply obj_erase; [done|]. destruct Hd; [left; set_solver|by right]. }
  assert (forall b d, obj (erase dead v) b TDatabase d -> obj (erase dead' v) b TDatabase d) as Hdb.
  { intros b d [Hb _]%erase_obj. apply obj_erase; [done|by right]. }
  constructor.
  - apply (own_addr _ Hv).
  - intros x b p Hx. apply (own_bound _ Hv) in Hx. simpl in *. by rewrite length_imap in *.
  - intros b d Hb%Hobj. by apply (own_database _ Hv b).
  - intros b b' d Hb%Hobj Hb'%Hobj. by eapply (own_alone _ Hv).
  - intros b d Hb%Hobj. destruct (own_connection _ Hv b d Hb) as (Ha & x & y & bd & p & Hx & Hy & Hu).
    split; [done|]. exists x, y, bd, p. split_and!; [done..|]. intros b' Hb'%Hobj. by apply Hu.
  - intros b d Hb. destruct (own_statement _ Hv b d (Hobj _ _ _ Hb)) as (x & y & bc & p & Hx & Hy & Hc).
    exists x, y, bc, p. split_and!; [done..|]. apply erase_obj in Hc as [Hc _]. apply obj_erase; [done|left].
    intros Hin. apply erase_obj in Hb as [_ [Hb|Hb]]; [|done]. apply Hb. by eapply (Hcl x b y bc).
Qed.

(** Initialising a database appends a table. *)
Lemma owned_database_init v b d0 o live : owned v ->
  v_objects v !! b = Some (Some (TDatabase, d0)) ->
  (o = None \/ (o = Some (length (v_drivers v)) /\ live = true)) ->
  owned (put_object (v_drivers v ++ [live]) b (Some (TDatabase, o)) v).
Proof.
  intros Hv Hb Ho. set (n := length (v_drivers v)) in *.
  assert (Hold : forall d, allocated v d -> (v_drivers v ++ [live]) !! d = Some true /\ d <> n).
  { intros d Hd. split; [by apply lookup_app_l_Some|]. apply lookup_lt_Some in Hd. unfold n. lia. }
  assert (Hobj : forall b' t d, obj (put_object (v_drivers v ++ [live]) b (Some (TDatabase, o)) v) b' t d ->
            (b' = b /\ t = TDatabase /\ o = Some n /\ d = n /\ live = true) \/ (b' <> b /\ obj v b' t d)).
  { intros b' t d [[-> ?]|?]%obj_put; [left|by right]. destruct Ho as [-> |[-> ->]]; naive_solver. }
  constructor; simpl.
  - apply (own_addr _ Hv).
  - rewrite length_insert. apply (own_bound _ Hv).
  - intros b' d [(-> & _ & _ & -> & ->)|[_ Hb']]%Hobj; unfold allocated; simpl.
    + unfold n. by rewrite lookup_app_r, Nat.sub_diag by lia.
    + by apply Hold, (own_database _ Hv b').
  - intros b1 b2 d [(-> & _ & _ & -> & _)|[? H1]]%Hobj [(-> & _ & _ & Hd & _)|[? H2]]%Hobj; try done.
    + apply (own_database _ Hv), Hold in H2. naive_solver.
    + apply (own_database _ Hv), Hold in H1. naive_solver.
    + by eapply (own_alone _ Hv).
  - intros b' d [(_ & ? & _)|[_ Hb']]%Hobj; [done|].
    destruct (own_connection _ Hv b' d Hb') as (Hd & x & y & bd & q & ? & ? & Hdb).
    split; [by apply Hold|]. exists x, y, bd, q. split_and!; [done..|].
    intros b'' [(_ & _ & _ & -> & _)|[_ ?]]%Hobj; [|by apply Hdb]. by apply Hold in Hd as [_ ?].
  - intros b' d [(_ & ? & _)|[_ Hb']]%Hobj; [done|].
    destruct (own_statement _ Hv b' d Hb') as (x & y & bc & q & ? & ? & Hc).
    exists x, y, bc, q. split_and!; [done..|]. apply obj_put_ne; [|done]. intros ->.
    unfold obj in Hc. rewrite Hb in Hc. naive_solver.
Qed.

(** A protected value may change when the object there has no driver. *)
Lemma owned_protect v x p : owned v ->
  (forall b q t d, v_handles v !! x = Some (Some b, q) -> ~ obj v b t d) -> owned (put_protected x p v).
Proof.
  intros Hv Hx.
  assert (Hxp : forall y a q, alter (fun q => (q.1, p)) x (v_handles v) !! y = Some (a, q) ->
            exists q', v_handles v !! y = Some (a, q')).
  { intros y a q. rewrite list_lookup_alter. destruct (decide (x = y)) as [->|]; [|by eauto].
    destruct (v_handles v !! y) as [[]|]; naive_solver. }
  assert (Hkeep : forall y b q t d, v_handles v !! y = Some (Some b, q) -> obj v b t d ->
            alter (fun q => (q.1, p)) x (v_handles v) !! y = Some (Some b, q)).
  { intros y b q t d Hy Hb. rewrite list_lookup_alter_ne; [done|]. intros ->. by eapply Hx. }
  assert (Hany : forall y b q, v_handles v !! y = Some (Some b, q) ->
            exists q', alter (fun q => (q.1, p)) x (v_handles v) !! y = Some (Some b, q')).
  { intros y b q Hy. rewrite list_lookup_alter. destruct (decide _) as [->|]; [|by eauto].
    rewrite Hy; simpl; eauto. }
  constructor; simpl.
  - intros y z b q q' [? Hy]%Hxp [? Hz]%Hxp. by eapply (own_addr _ Hv).
  - intros y b q [? Hy]%Hxp. by eapply (own_bound _ Hv).
  - apply (own_database _ Hv).
  - apply (own_alone _ Hv).
  - intros b d Hb. destruct (own_connection _ Hv b d Hb) as (Hd & y & z & bd & q & Hy & Hz & Hdb).
    split; [done|]. destruct (Hany _ _ _ Hz) as [q' ?]. exists y, z, bd, q'.
    split_and!; [by eapply Hkeep|done..].
  - intros b d Hb. destruct (own_statement _ Hv b d Hb) as (y & z & bc & q & Hy & Hz & Hc).
    exists y, z, bc, q. split_and!; [by eapply Hkeep..|done].
Qed.

(** An object gets its parent's table after its pointer protects the parent. *)
Lemma owned_child v b t d x y bp tp p : owned v -> v_objects v !! b = Some (Some (t, None)) ->
  v_handles v !! x = Some (Some b, Some y) -> v_handles v !! y = Some (Some bp, p) ->
  obj v bp tp d -> (t = TConnection /\ tp = TDatabase \/ t = TStatement /\ tp = TConnection) ->
  owned (put_object (v_drivers v) b (Some (t, Some d)) v).
Proof.
  intros Hv Hb Hx Hy Hp Ht.
  assert (Hold : forall b' t' d', obj v b' t' d' -> obj (put_object (v_drivers v) b (Some (t, Some d)) v) b' t' d').
  { intros b' t' d' Hb'. apply obj_put_ne; [|done]. intros ->. unfold obj in Hb'. by rewrite Hb in Hb'. }
  assert (Hdb : forall b' d', obj (put_object (v_drivers v) b (Some (t, Some d)) v) b' TDatabase d' ->
            obj v b' TDatabase d').
  { intros b' d' [[_ ?]|[_ ?]]%obj_put; [|done]. naive_solver. }
  constructor; simpl.
  - apply (own_addr _ Hv).
  - rewrite length_insert. apply (own_bound _ Hv).
  - intros b' d' Hb'%Hdb. by apply (own_database _ Hv b').
  - intros b1 b2 d' H1%Hdb H2%Hdb. by eapply (own_alone _ Hv).
  - intros b' d' [[-> ?]|[_ Hb']]%obj_put.
    + destruct Ht as [[-> ->]|[-> ->]]; simplify_eq. split; [by apply (own_database _ Hv bp)|].
      exists x, y, bp, p. split_and!; [done..|]. intros b' ?%Hdb. by eapply (own_alone _ Hv).
    + destruct (own_connection _ Hv b' d' Hb') as (Hd & x' & y' & bd & q & ? & ? & Hbd).
      split; [done|]. exists x', y', bd, q. split_and!; [done..|]. intros b'' ?%Hdb. by apply Hbd.
  - intros b' d' [[-> ?]|[_ Hb']]%obj_put.
    + destruct Ht as [[-> ->]|[-> ->]]; simplify_eq. exists x, y, bp, p.
      split_and!; [done..|]. by apply Hold.
    + destruct (own_statement _ Hv b' d' Hb') as (x' & y' & bc & q & ? & ? & ?).
      exists x', y', bc, q. split_and!; [done..|]. by apply Hold.
Qed.

(** The conclusion: every table in use is allocated. *)
Lemma owned_allocated v b t d : owned v -> obj v b t d ->
  t = TDatabase \/ t = TConnection \/ t = TStatement -> allocated v d.
Proof.
  intros Hv Hb [-> |[-> | ->]].
  - by apply (own_database _ Hv b).
  - by apply (own_connection _ Hv b).
  - destruct (own_statement _ Hv b d Hb) as (? & ? & bc & ? & _ & _ & Hc). by apply (own_connection _ Hv bc).
Qed.

(** * What the manager does to a table and an object *)
Section manager.
  Context {D P A : Type} `{L : !Loader D P A}.

Definition live_tables (ds : list (option (AdbcDriver D P A ld_init))) : list bool :=
  map (fun d => bool_decide (is_Some d)) ds.
Definition tables (s : MS D P A) : list bool := live_tables (ms_drivers s).
Definition own (s : OState D P A) : list bool * option nat := (tables s.1, ob_driver s.2).

Lemma tables_lookup (ds : list (option (AdbcDriver D P A ld_init))) d :
  live_tables ds !! d = Some true <-> exists dv, ds !! d = Some (Some dv).
Proof.
  unfold live_tables. rewrite list_lookup_fmap. split.
  - destruct (ds !! d) as [[dv|]|]; naive_solver.
  - by intros [dv ->].
Qed.
Lemma tables_insert (ds : list (option (AdbcDriver D P A ld_init))) d v :
  live_tables (<[d := v]> ds) = <[d := bool_decide (is_Some v)]> (live_tables ds).
Proof. exact (list_fmap_insert (fun d => bool_decide (is_Some d)) ds d v). Qed.

Lemma keeps_call_slot d slot args : keeps own (call_slot (L := L) d slot args).
Proof.
  unfold call_slot. apply keeps_bind; [|intros driver].
  { intros s. unfold zoom, driver_at. destruct s as [ms o]. unfold lift_opt, mbind, M_bind, gets; simpl.
    by destruct (mjoin _). }
  apply keeps_bind; [apply keeps_lift_opt|]. intros f s. by destruct (f _ _).
Qed.
Lemma keeps_put_private p : keeps own (put_private (L := L) p).
Proof. by intros []. Qed.
Lemma keeps_raise_ms {C} (f : MS D P A -> C) code message :
  (forall e s, f (over error_lens e s) = f s) ->
  keeps f (raise code message).
Proof.
  intros Hf. unfold raise. apply keeps_bind; [|intros; apply keeps_exit].
  by apply keeps_zoom_off.
Qed.

Lemma keeps_driver_at d : keeps tables (driver_at (L := L) d).
Proof. apply keeps_bind; [apply keeps_gets|intros; apply keeps_lift_opt]. Qed.
Lemma keeps_run_release f : keeps tables (run_release (L := L) f).
Proof. intros s. unfold run_release. by destruct (f _). Qed.
(** Writing to an allocated table. *)
Lemma keeps_update d (g : AdbcDriver D P A ld_init -> AdbcDriver D P A ld_init) (k : M (MS D P A) unit) :
  keeps tables k -> keeps tables (driver ← driver_at (L := L) d; set_driver d (Some (g driver)) ;; k).
Proof.
  intros Hk s. unfold driver_at, mbind, M_bind, gets, lift_opt, set_driver, modify; simpl.
  destruct (ms_drivers s !! d) as [[dv|]|] eqn:Hd; simpl; [|done..].
  assert (tables (mkMS (ms_error s) (ms_world s) (<[d := Some (g dv)]> (ms_drivers s))) = tables s) as Hs.
  { unfold tables; simpl. rewrite tables_insert. apply list_insert_id.
    rewrite (proj2 (tables_lookup _ d)) by eauto. done. }
  specialize (Hk (mkMS (ms_error s) (ms_world s) (<[d := Some (g dv)]> (ms_drivers s)))).
  destruct (k _); congruence.
Qed.
Lemma keeps_release_driver d : keeps tables (release_driver (L := L) d).
Proof.
  unfold release_driver. apply keeps_bind; [apply keeps_driver_at|intros driver].
  destruct (dv_release driver); [apply keeps_ret|apply keeps_ignore, keeps_run_release|].
  apply keeps_ignore. unfold ReleaseDriver. apply keeps_bind; [apply keeps_driver_at|intros driver'].
  destruct (dv_manager driver') as [r|]; [|apply keeps_ret].
  apply keeps_bind; [destruct r; apply keeps_catch; auto using keeps_ret, keeps_undef, keeps_run_release|].
  intros status.
  apply (keeps_update d (fun driver => mkDriver (dv_slot driver) (dv_release driver) None)).
  apply keeps_return_code.
Qed.
Lemma keeps_load_into d m : keeps tables (load_into (L := L) d m).
Proof.
  intros s. unfold load_into, driver_at, mbind, M_bind, gets, lift_opt; simpl.
  destruct (ms_drivers s !! d) as [[dv|]|] eqn:Hd; simpl; [|done..].
  assert (forall e w dv', tables (mkMS e w (<[d := Some dv']> (ms_drivers s))) = tables s) as Hs.
  { intros e w dv'. unfold tables; simpl. rewrite tables_insert. apply list_insert_id.
    rewrite (proj2 (tables_lookup _ d)) by eauto. done. }
  destruct (m _); [apply Hs..|done|done].
Qed.
Lemma keeps_own_fst {C} (m : M (MS D P A) C) : keeps tables m -> keeps own (zoom fst_lens m).
Proof.
  intros Hm [ms o]. specialize (Hm ms). unfold zoom; simpl. destruct (m ms); unfold own; simpl; congruence.
Qed.

(** Calls that pass their arguments on leave tables and drivers alone. *)
Lemma keeps_forward slot args : keeps own (forward (L := L) slot args).
Proof.
  unfold forward. apply keeps_bind; [apply keeps_gets|intros [d|]]; [apply keeps_call_slot|apply keeps_exit].
Qed.
Lemma keeps_temp_database : keeps own (temp_database (L := L)).
Proof. apply keeps_bind; [apply keeps_gets|intros []; auto using keeps_ret, keeps_undef]. Qed.
Lemma keeps_temp_connection : keeps own (temp_connection (L := L)).
Proof. apply keeps_bind; [apply keeps_gets|intros []; auto using keeps_ret, keeps_undef]. Qed.
Lemma keeps_raise_fst code message : keeps own (zoom fst_lens (raise (S := MS D P A) code message)).
Proof. apply keeps_own_fst, keeps_raise_ms. by intros. Qed.
End manager.
#[export] Hint Resolve keeps_call_slot keeps_put_private keeps_driver_at keeps_release_driver
  keeps_load_into keeps_forward keeps_temp_database keeps_temp_connection keeps_raise_fst : keeps.
#[export] Hint Extern 1 (keeps own (zoom fst_lens _)) => (apply keeps_own_fst) : keeps.

Section api.
  Context {D P A : Type} `{L : !Loader D P A}.

Lemma keeps_database_set_option key value : keeps own (AdbcDatabaseSetOption (L := L) key value).
Proof. unfold AdbcDatabaseSetOption. solve_keeps. Qed.
Lemma keeps_set_init_func f : keeps own (AdbcDriverManagerDatabaseSetInitFunc (L := L) f).
Proof. unfold AdbcDriverManagerDatabaseSetInitFunc. solve_keeps. Qed.
Lemma keeps_connection_set_option key value : keeps own (AdbcConnectionSetOption (L := L) key value).
Proof. unfold AdbcConnectionSetOption. solve_keeps. Qed.
Lemma keeps_set_connection_options d options : keeps own (set_connection_options (L := L) d options).
Proof. induction options as [|[k v] l IH]; simpl; [apply keeps_ret|]. apply keeps_bind; [apply keeps_call_slot|done]. Qed.

#[local] Arguments own : simpl never.

(** However the call ends, [R] holds of the tables and the driver. *)
Definition leaves (m : M (OState D P A) unit) (R : list bool * option nat -> Prop) (s : OState D P A)
    : Prop := wlp m (fun _ t => R (own t)) (fun _ t => R (own t)) s.
Lemma leaves_keeps m R s : keeps own m -> R (own s) -> leaves m R s.
Proof. intros Hk HR. eapply wlp_keeps; [exact Hk|..]; intros ? t Ht; by rewrite Ht. Qed.
Lemma leaves_bind {B} (m : M (OState D P A) B) k R s : keeps own m -> R (own s) ->
  (forall a t, own t = own s -> leaves (k a) R t) -> leaves (m ≫= k) R s.
Proof.
  intros Hm HR Hk. eapply wlp_keeps_bind; [exact Hm| |].
  - intros a t Ht. by apply Hk.
  - intros c t Ht. by rewrite Ht.
Qed.
Lemma leaves_conseq m (R R' : list bool * option nat -> Prop) s :
  leaves m R s -> (forall o, R o -> R' o) -> leaves m R' s.
Proof. intros Hm HR. eapply wlp_conseq; [exact Hm|..]; intros; by apply HR. Qed.
Lemma leaves_put_driver d s : leaves (put_driver (L := L) d) (eq ((own s).1, d)) s.
Proof. done. Qed.

(** Releasing a driver always falls through. *)
Lemma wlp_ignore {S} (m : M S unit) (Q : unit -> S -> Prop) E s :
  wlp m (fun _ t => Q tt t) (fun _ t => Q tt t) s -> wlp (ignore m) Q E s.
Proof. unfold wlp, ignore, catch, mbind, M_bind. by destruct (m s). Qed.
Lemma release_driver_falls d (s : OState D P A) (Q : unit -> OState D P A -> Prop) E :
  (forall t, own t = own s -> Q tt t) -> wlp (zoom fst_lens (release_driver (L := L) d)) Q E s.
Proof.
  intros HQ. pose proof (keeps_own_fst _ (keeps_release_driver (L := L) d) s) as Hk.
  enough (forall c t, zoom fst_lens (release_driver (L := L) d) s <> Exit c t) as Hne.
  { unfold wlp. destruct (zoom fst_lens (release_driver d) s) as [[] t|c t| |] eqn:Hz; [by apply HQ|by destruct (Hne c t)|done..]. }
  intros c t. unfold zoom, release_driver, driver_at, mbind, M_bind, gets, lift_opt; simpl.
  destruct (mjoin _) as [dv|]; simpl; [|done]. unfold mret, M_ret; simpl.
  destruct (dv_release dv); simpl; unfold ignore, catch, mbind, M_bind; [done|by destruct (run_release _ _)|].
  by destruct (ReleaseDriver _ _).
Qed.
Lemma delete_driver_leaves d s (k : M (OState D P A) unit) R :
  (forall t, own t = (<[d := false]> (own s).1, (own s).2) -> leaves k R t) ->
  leaves (zoom fst_lens (release_driver (L := L) d) ;; zoom fst_lens (set_driver d None) ;; k) R s.
Proof.
  intros Hk. apply wlp_bind. apply release_driver_falls. intros t Ht. apply wlp_bind.
  unfold wlp, zoom, set_driver, modify; simpl. apply Hk. unfold own, tables in *; simpl.
  rewrite tables_insert. injection Ht as -> ->. done.
Qed.
Lemma leaves_drop_driver d s : leaves (drop_driver (L := L) d) (eq (<[d := false]> (own s).1, None)) s.
Proof. apply delete_driver_leaves. intros t Ht. eapply leaves_conseq; [apply leaves_put_driver|]. by rewrite Ht. Qed.

(** ** Databases *)
Lemma leaves_exit code R s : R (own s) -> leaves (exit code) R s.
Proof. done. Qed.
Lemma leaves_return_code code (R : _ -> Prop) s : R (own s) -> leaves (return_code code) R s.
Proof. intros HR. apply leaves_keeps; [apply keeps_return_code|done]. Qed.
Lemma leaves_chain (m k : M (OState D P A) unit) R s : leaves m R s ->
  (forall t, R (own t) -> leaves k R t) -> leaves (m ;; k) R s.
Proof.
  intros Hm Hk. apply wlp_bind. eapply wlp_conseq; [exact Hm| |done]. intros [] t Ht. by apply Hk.
Qed.
Lemma leaves_then (m k : M (OState D P A) unit) o R s :
  leaves m (eq o) s -> R o -> (forall t, own t = o -> leaves k R t) -> leaves (m ;; k) R s.
Proof.
  intros Hm HR Hk. apply wlp_bind. eapply wlp_conseq; [exact Hm|..].
  - intros [] t Ht. by apply Hk.
  - intros c t Ht. by rewrite <- Ht.
Qed.
Lemma database_new_leaves s : leaves (AdbcDatabaseNew (L := L)) (eq ((own s).1, None)) s.
Proof. done. Qed.

Lemma set_database_options_leaves d options s :
  leaves (set_database_options (L := L) d options)
    (fun o => o = own s \/ o = (<[d := false]> (own s).1, None)) s.
Proof.
  revert s. induction options as [|[key value] rest IH]; intros s; cbn [set_database_options]; [by left|].
  apply leaves_bind; [solve_keeps|by left|]. intros status t <-.
  destruct (status =? ADBC_STATUS_OK); [apply IH|].
  apply leaves_bind; [apply keeps_ignore, keeps_call_slot|by left|]. intros _ t' <-.
  eapply leaves_then; [apply leaves_drop_driver|by right|]. intros u Hu.
  apply leaves_bind; [apply keeps_put_private|by right|]. intros _ u' Hu'.
  apply leaves_exit. right. congruence.
Qed.
(** Fail, or append one table: the database's, or a deleted one. *)
Definition database_initialised (before after : list bool * option nat) : Prop :=
  after = before \/
  exists live d, after = (before.1 ++ [live], d) /\
    (d = None \/ d = Some (length before.1) /\ live = true).
Lemma database_initialised_new ds d0 o : o = (ds ++ [true], Some (length ds)) \/
  o = (<[length ds := false]> (ds ++ [true]), None) -> database_initialised (ds, d0) o.
Proof.
  intros [-> | ->]; right; simpl.
  - exists true, (Some (length ds)). auto.
  - exists false, None. split; [|by left]. rewrite insert_app_r_alt by lia. by rewrite Nat.sub_diag.
Qed.

(** From the new table on. *)
Lemma loaded_database_leaves args d s :
  leaves (status ← catch (zoom fst_lens (load_into (L := L) d
            match td_init_func args with
            | Some init_func => AdbcLoadDriverFromInitFunc init_func ADBC_VERSION_1_0_0
            | None => AdbcLoadDriver (td_driver args) (Some (td_entrypoint args)) ADBC_VERSION_1_0_0
            end));
          if negb (status =? ADBC_STATUS_OK) then
            put_private (PTempDatabase args) ;; drop_driver d ;; exit status
          else
          status ← catch (call_slot d S_DatabaseNew NoArgs);
          if negb (status =? ADBC_STATUS_OK) then drop_driver d ;; exit status else
          set_database_options d (iteration (td_options args)) ;;
          call_slot d S_DatabaseInit NoArgs)
    (fun o => o = own s \/ o = (<[d := false]> (own s).1, None)) s.
Proof.
  apply leaves_bind; [solve_keeps|by left|]. intros status t <-. destruct (negb _).
  { apply leaves_bind; [apply keeps_put_private|by left|]. intros _ t' <-.
    eapply leaves_then; [apply leaves_drop_driver|by right|]. intros u Hu. apply leaves_exit. by right. }
  apply leaves_bind; [solve_keeps|by left|]. intros status' t' <-. destruct (negb _).
  { eapply leaves_then; [apply leaves_drop_driver|by right|]. intros u Hu. apply leaves_exit. by right. }
  apply leaves_chain; [apply set_database_options_leaves|].
  intros u Hu. apply leaves_keeps; [apply keeps_call_slot|done].
Qed.
Lemma new_driver_wp s : wp (new_driver (L := L))
  (fun d t => d = length (own s).1 /\ own t = ((own s).1 ++ [true], Some d)) (fun _ _ => False) s.
Proof.
  unfold new_driver, wp, mbind, M_bind, gets, modify, put_driver, mret, M_ret; simpl.
  unfold own, tables, live_tables; simpl. by rewrite map_app, length_map.
Qed.
Lemma database_init_leaves s : leaves (AdbcDatabaseInit (L := L)) (database_initialised (own s)) s.
Proof.
  unfold AdbcDatabaseInit. apply leaves_bind; [apply keeps_gets|by left|]. intros p t Ht.
  rewrite <- Ht. destruct (is_null p); [apply leaves_keeps; [apply keeps_raise_fst|by left]|].
  apply leaves_bind; [apply keeps_temp_database|by left|]. intros args t' <-.
  destruct (_ && _); [apply leaves_keeps; [apply keeps_raise_fst|by left]|].
  unfold leaves. apply wlp_bind, wp_wlp. eapply wp_conseq; [apply new_driver_wp| |done].
  intros d u [-> Hu]. destruct (own t') as [ds d0]; simpl in *.
  apply (leaves_bind _ _ (database_initialised (ds, d0))); [apply keeps_put_private| |].
  { apply database_initialised_new. by left. }
  intros [] u' Hu'. eapply leaves_conseq; [apply loaded_database_leaves|].
  intros o Ho. rewrite Hu', Hu in Ho. by apply database_initialised_new.
Qed.
(** A call whose status is kept does not leave. *)
Lemma leaves_catch m (k : Z -> M (OState D P A) unit) R s : keeps own m ->
  (forall c t, own t = own s -> leaves (k c) R t) -> leaves (c ← catch m; k c) R s.
Proof.
  intros Hm Hk. unfold leaves. apply wlp_bind, wlp_catch.
  eapply wlp_keeps; [exact Hm|..]; intros; by apply Hk.
Qed.
(** Release leaves the object without a driver, and of its table nothing. *)
Definition database_released (before after : list bool * option nat) : Prop :=
  after = (match snd before with Some d => <[d := false]> before.1 | None => before.1 end, None).
Lemma leaves_gets {B} (f : OState D P A -> B) k R s : leaves (k (f s)) R s -> leaves (x ← gets f; k x) R s.
Proof. done. Qed.
Lemma leaves_put (d : option nat) k R s :
  (forall t, own t = ((own s).1, d) -> leaves k R t) -> leaves (put_driver (L := L) d ;; k) R s.
Proof. intros Hk. by apply Hk. Qed.
Lemma leaves_private p (k : M (OState D P A) unit) R s :
  (forall t, own t = own s -> leaves k R t) -> leaves (put_private (L := L) p ;; k) R s.
Proof. intros Hk. by apply Hk. Qed.
Lemma own_driver (s : OState D P A) d : ob_driver s.2 = d -> own s = ((own s).1, d).
Proof. by intros <-. Qed.
Lemma database_release_leaves s :
  leaves (AdbcDatabaseRelease (L := L)) (database_released (own s)) s.
Proof.
  unfold AdbcDatabaseRelease. apply leaves_gets.
  destruct (ob_driver s.2) as [d|] eqn:Hd; apply own_driver in Hd.
  - apply leaves_catch; [solve_keeps|]. intros c t Ht. apply delete_driver_leaves. intros u Hu.
    apply leaves_private. intros u1 Hu1. apply leaves_put. intros u2 Hu2. apply leaves_return_code.
    unfold database_released. rewrite Hu2, Hu1, Hu, Ht. by rewrite Hd.
  - assert (database_released (own s) (own s)) as Hr by (rewrite Hd; done).
    destruct (is_null _); [by apply leaves_exit|].
    apply leaves_bind; [solve_keeps|done|]. intros _ t Ht. apply leaves_keeps; [solve_keeps|by rewrite Ht].
Qed.

(** ** Connections and statements *)
Definition gets_driver (d : option nat) (before after : list bool * option nat) : Prop :=
  after = before \/ after = (before.1, d).
Lemma connection_new_leaves s : leaves (AdbcConnectionNew (L := L)) (eq ((own s).1, None)) s.
Proof. done. Qed.
Lemma connection_init_leaves db arg s :
  leaves (AdbcConnectionInit (L := L) db arg) (gets_driver (ob_driver db) (own s)) s.
Proof.
  unfold AdbcConnectionInit. apply leaves_gets. destruct (is_null _).
  { apply leaves_keeps; [apply keeps_raise_fst|by left]. }
  destruct (ob_driver db) as [d|]; [|apply leaves_keeps; [apply keeps_raise_fst|by left]].
  apply leaves_bind; [apply keeps_temp_connection|by left|]. intros args t Ht. rewrite <- Ht.
  apply leaves_private. intros t1 Ht1. rewrite <- Ht1.
  apply leaves_bind; [solve_keeps|by left|]. intros _ t2 <-.
  apply leaves_put. intros t3 Ht3.
  apply leaves_bind; [apply keeps_set_connection_options|by right|]. intros _ t4 Ht4.
  apply leaves_keeps; [solve_keeps|]. right. by rewrite Ht4, Ht3.
Qed.
Lemma connection_release_leaves s : leaves (AdbcConnectionRelease (L := L)) (eq ((own s).1, None)) s.
Proof.
  unfold AdbcConnectionRelease. apply leaves_gets.
  destruct (ob_driver s.2) as [d|] eqn:Hd; apply own_driver in Hd.
  - apply leaves_catch; [solve_keeps|]. intros c t Ht. apply leaves_put. intros u Hu.
    apply leaves_return_code. by rewrite Hu, Ht.
  - destruct (is_null _); [by apply leaves_exit|].
    apply leaves_bind; [solve_keeps|done|]. intros _ t Ht. apply leaves_keeps; [solve_keeps|by rewrite Ht].
Qed.
Lemma statement_new_leaves conn arg s :
  leaves (AdbcStatementNew (L := L) conn arg) (gets_driver (ob_driver conn) (own s)) s.
Proof.
  unfold AdbcStatementNew. destruct (ob_driver conn) as [d|]; [|by left].
  apply leaves_catch; [solve_keeps|]. intros c t Ht. apply leaves_put. intros u Hu.
  apply leaves_return_code. right. by rewrite Hu, Ht.
Qed.
Lemma statement_release_leaves s : leaves (AdbcStatementRelease (L := L)) (eq ((own s).1, None)) s.
Proof.
  unfold AdbcStatementRelease. apply leaves_gets.
  destruct (ob_driver s.2) as [d|] eqn:Hd; apply own_driver in Hd; [|by apply leaves_exit].
  apply leaves_catch; [solve_keeps|]. intros c t Ht. apply leaves_put. intros u Hu.
  apply leaves_return_code. by rewrite Hu, Ht.
Qed.
End api.
