(* ===== verification/RBindings.v ===== *)
(** The R bindings to the driver manager (r/adbcdrivermanager/src/radbc.cc, radbc.h, error.cc,
    utils.c, init.c): the C functions that R calls through [.Call]. *)
From stdpp Require Import base tactics list numbers option strings gmap.
From Stdlib Require Import ZArith Lia Ascii.
From S2P Require Import Prelude CLib Adbc Utils.
From S2P Require Import DriverManager.

(** * R values

    [NA_STRING] is [None]; [NA_integer_] is the smallest [int]; doubles are their bits.
    External pointers and environments are references.  Only external pointers carry a class
    attribute here. *)
Inductive SEXP :=
| NILSXP
| STRSXP (items : list (option string))
| LGLSXP (items : list Z)
| INTSXP (items : list Z)
| REALSXP (items : list Z)
| RAWSXP (bytes : list Z)
| VECSXP (items : list (string * SEXP))
| ENVSXP (env : nat)
| EXTPTRSXP (x : nat).
Definition R_NilValue := NILSXP.
Definition Rf_xlength (s : SEXP) : Z :=
  match s with
  | NILSXP => 0
  | STRSXP l => zlen l
  | LGLSXP l | INTSXP l | REALSXP l | RAWSXP l => zlen l
  | VECSXP l => zlen l
  | ENVSXP _ | EXTPTRSXP _ => 1
  end.
Definition Rf_ScalarInteger (z : Z) : SEXP := INTSXP [z].
Definition adbc_wrap_status (code : AdbcStatusCode) : SEXP := Rf_ScalarInteger code.

(** The classes of external pointers, by the type of the struct they were allocated for. *)
Definition adbc_xptr_class (t : struct_type) : string :=
  match t with
  | TError => "adbc_error" | TDriver => "adbc_driver" | TDatabase => "adbc_database"
  | TConnection => "adbc_connection" | TStatement => "adbc_statement"
  | TArrayStream => "nanoarrow_array_stream" | TArray => "nanoarrow_array"
  | TSchema => "nanoarrow_schema"
  end.
(** [sizeof(T)] (LP64). *)
Definition struct_size (t : struct_type) : Z :=
  match t with
  | TError => 32 | TDriver => 232 | TDatabase | TConnection | TStatement => 16
  | TArrayStream => 40 | TArray => 80 | TSchema => 72
  end.

(** What the bindings pass on through the manager.  Arrow structs are addresses (block numbers);
    the driver's view of a database or connection is its private data. *)
Inductive bytes_pointer := RawData (bytes : list Z) | SexpAddress (s : SEXP).
Inductive api_args (P : Type) :=
| InfoArgs (codes : list Z) (length : Z) (out : nat)
| ObjectsArgs (depth : Z) (catalog db_schema table_name : string) (table_type : list string)
    (column_name : string) (out : nat)
| TableSchemaArgs (catalog db_schema table_name : string) (schema : nat)
| StreamArgs (stream : nat)
| PartitionArgs (serialized : bytes_pointer) (length : Z) (out : nat)
| ParentArgs (private : option P)
| QueryArgs (query : string)
| PlanArgs (plan : list Z) (length : Z)
| SchemaArgs (schema : nat)
| ArrayArgs (values schema : nat).
Arguments InfoArgs {P} codes length out.
Arguments ObjectsArgs {P} depth catalog db_schema table_name table_type column_name out.
Arguments TableSchemaArgs {P} catalog db_schema table_name schema.
Arguments StreamArgs {P} stream.
Arguments PartitionArgs {P} serialized length out.
Arguments ParentArgs {P} private.
Arguments QueryArgs {P} query.
Arguments PlanArgs {P} plan length.
Arguments SchemaArgs {P} schema.
Arguments ArrayArgs {P} values schema.

(** R's own services: the text of the errors its accessors raise for a wrong type, and
    translation of a [CHARSXP] to UTF-8. *)
Class RApi := {
  r_type_error : string -> SEXP -> string;
  Rf_translateCharUTF8 : string -> string;
}.
(** What a local [AdbcError error;] holds before anything is written to it: whatever was on the
    stack.  Its [release] is no callback. *)
Class Stack := {
  stack_message : option string;
  stack_vendor_code : Z;
  stack_sqlstate : string;
}.
Definition uninitialised `{Stack} : AdbcError :=
  mkError stack_message stack_vendor_code stack_sqlstate false.
(** The caller's [int64_t rows_affected], which drivers write through a pointer. *)
Class RowsOut (D : Type) := rows_affected : Lens D Z.
#[global] Hint Mode RowsOut ! : typeclass_instances.

Section bindings.
  Context {D P : Type} `{L : !Loader D P (api_args P)}.
  Context `{Libc} `{RApi} `{Stack} `{!RowsOut D}.

Abbreviation Driver := (AdbcDriver D P (api_args P) ld_init).
Abbreviation Object := (Object D P (api_args P)).
Abbreviation OState := (OState D P (api_args P)).
Abbreviation LState := (LState (L := L)).

(** * State *)

(** A [malloc]ed struct; those of nanoarrow are opaque. *)
Inductive block :=
| BError (e : AdbcError)
| BDriver (d : Driver)
| BObject (t : struct_type) (o : Object)
| BForeign (t : struct_type).
(** An external pointer: class attribute, address of the struct ([None]: null), or function it
    points at, tag, protected value, and whose finalizer is registered. *)
Record XPtr := mkXPtr {
  xp_class : list string;
  xp_addr : option nat;
  xp_fn : option ld_init;
  xp_tag : SEXP;
  xp_protected : SEXP;
  xp_finalizer : option struct_type;
}.
(** [rs_world] and [rs_drivers] as in the manager; freed blocks are [None].  [rs_condition] is
    the R error raised last. *)
Record RS := mkRS {
  rs_world : D;
  rs_drivers : list (option Driver);
  rs_blocks : list (option block);
  rs_xptrs : list XPtr;
  rs_condition : option string;
  rs_warnings : list string;
}.
Definition put_blocks (bs : list (option block)) : M RS unit :=
  modify (fun s => mkRS (rs_world s) (rs_drivers s) bs (rs_xptrs s) (rs_condition s) (rs_warnings s)).
Definition put_xptrs (xs : list XPtr) : M RS unit :=
  modify (fun s => mkRS (rs_world s) (rs_drivers s) (rs_blocks s) xs (rs_condition s) (rs_warnings s)).
Definition put_world (w : D) (ds : list (option Driver)) : M RS unit :=
  modify (fun s => mkRS w ds (rs_blocks s) (rs_xptrs s) (rs_condition s) (rs_warnings s)).

(** [Rf_error] jumps out of the call, [Rf_warning] does not. *)
Definition R_CONDITION := 1.
Definition Rf_error {A} (message : string) : M RS A :=
  modify (fun s => mkRS (rs_world s) (rs_drivers s) (rs_blocks s) (rs_xptrs s) (Some message)
                     (rs_warnings s)) ;;
  exit R_CONDITION.
Definition Rf_warning (message : string) : M RS unit :=
  modify (fun s => mkRS (rs_world s) (rs_drivers s) (rs_blocks s) (rs_xptrs s) (rs_condition s)
                     (rs_warnings s ++ [message])).

(** ** Memory *)
Definition get_block (b : nat) : M RS block := bs ← gets rs_blocks; lift_opt (mjoin (bs !! b)).
Definition put_block (b : nat) (v : option block) : M RS unit :=
  bs ← gets rs_blocks; put_blocks (<[b := v]> bs).
Definition get_object (t : struct_type) (b : nat) : M RS Object :=
  v ← get_block b;
  match v with BObject t' o => if decide (t = t') then mret o else undef | _ => undef end.
Definition get_error (b : nat) : M RS AdbcError :=
  v ← get_block b; match v with BError e => mret e | _ => undef end.
Definition get_driver (b : nat) : M RS Driver :=
  v ← get_block b; match v with BDriver d => mret d | _ => undef end.

(** The cleared struct. *)
Definition zeroed (t : struct_type) : block :=
  match t with
  | TError => BError zero_error
  | TDriver => BDriver zero_driver
  | TDatabase | TConnection | TStatement => BObject t (mkObject PNull None)
  | _ => BForeign t
  end.

(** ** External pointers *)
Definition xptr_at (x : nat) : M RS XPtr := xs ← gets rs_xptrs; lift_opt (xs !! x).
Definition change_xptr (x : nat) (f : XPtr -> XPtr) : M RS unit :=
  xs ← gets rs_xptrs; put_xptrs (alter f x xs).
Definition R_SetExternalPtrProtected (s : SEXP) (v : SEXP) : M RS unit :=
  match s with
  | EXTPTRSXP x => change_xptr x (fun p =>
      mkXPtr (xp_class p) (xp_addr p) (xp_fn p) (xp_tag p) v (xp_finalizer p))
  | _ => undef
  end.
Definition R_SetExternalPtrTag (s : SEXP) (v : SEXP) : M RS unit :=
  match s with
  | EXTPTRSXP x => change_xptr x (fun p =>
      mkXPtr (xp_class p) (xp_addr p) (xp_fn p) v (xp_protected p) (xp_finalizer p))
  | _ => undef
  end.
Definition R_RegisterCFinalizer (s : SEXP) (t : struct_type) : M RS unit :=
  match s with
  | EXTPTRSXP x => change_xptr x (fun p =>
      mkXPtr (xp_class p) (xp_addr p) (xp_fn p) (xp_tag p) (xp_protected p) (Some t))
  | _ => undef
  end.
Definition Rf_inherits (s : SEXP) (class : string) : M RS bool :=
  match s with
  | EXTPTRSXP x => p ← xptr_at x; mret (bool_decide (class ∈ xp_class p))
  | _ => mret false
  end.

(** * Conversions (radbc.h) *)
Definition adbc_from_xptr (t : struct_type) (s : SEXP) : M RS nat :=
  ok ← Rf_inherits s (adbc_xptr_class t);
  if negb ok then
    Rf_error ("Expected external pointer with class '" +:+ adbc_xptr_class t +:+ "'")
  else
  match s with
  | EXTPTRSXP x =>
      p ← xptr_at x;
      match xp_addr p with
      | None => Rf_error "Can't convert external pointer to NULL to T*"
      | Some b => mret b
      end
  | _ => undef
  end.
(** The tag is a new environment, named after the pointer here. *)
Definition adbc_allocate_xptr (t : struct_type) (shelter : SEXP) : M RS SEXP :=
  if malloc_ok (struct_size t) then
    b ← gets (fun s => length (rs_blocks s));
    bs ← gets rs_blocks;
    put_blocks (bs ++ [Some (zeroed t)]) ;;
    xs ← gets rs_xptrs;
    let x := length xs in
    put_xptrs (xs ++ [mkXPtr [adbc_xptr_class t; "adbc_xptr"%string] (Some b) None (ENVSXP x)
                        shelter None]) ;;
    mret (EXTPTRSXP x)
  else Rf_error "Failed to allocate T".
(** The external pointer keeps the address of the freed struct. *)
Definition adbc_xptr_default_finalize (s : SEXP) : M RS unit :=
  match s with
  | EXTPTRSXP x =>
      p ← xptr_at x;
      match xp_addr p with
      | Some b => get_block b ;; put_block b None
      | None => mret tt
      end
  | _ => undef
  end.
Definition adbc_as_const_char (s : SEXP) : M RS string :=
  match s with
  | STRSXP [item] =>
      match item with
      | None => Rf_error "Can't convert NA_character_ to const char*"
      | Some c => mret (Rf_translateCharUTF8 c)
      end
  | _ => Rf_error "Expected character(1) for conversion to const char*"
  end.
(** [return REAL(sexp)[0]] converts to [int]: undefined unless the truncated value fits. *)
Definition adbc_as_int (s : SEXP) : M RS Z :=
  match s with
  | REALSXP [d] =>
      z ← lift_opt (Float.trunc_f64 d);
      if (INT32_MIN <=? z) && (z <=? INT32_MAX) then mret z else undef
  | INTSXP [z] => mret z
  | _ => Rf_error "Expected integer(1) or double(1) for conversion to int"
  end.
(** R's accessors raise an error for another type. *)
Definition INTEGER (s : SEXP) : M RS (list Z) :=
  match s with INTSXP l | LGLSXP l => mret l | _ => Rf_error (r_type_error "INTEGER" s) end.
Definition RAW (s : SEXP) : M RS (list Z) :=
  match s with RAWSXP l => mret l | _ => Rf_error (r_type_error "RAW" s) end.
Definition STRING_ELTs (s : SEXP) : M RS (list (option string)) :=
  match s with
  | STRSXP l => mret l
  | _ => if Rf_xlength s =? 0 then mret [] else Rf_error (r_type_error "STRING_ELT" s)
  end.

(** * Errors *)
Definition adbc_error_message (error : AdbcError) : string := default ""%string (err_message error).
Definition located (context : string) (error : AdbcError) : string :=
  ("<" +:+ context +:+ "> " +:+ adbc_error_message error)%string.
Definition adbc_error_warn (code : Z) (error : AdbcError) (context : string) : M RS unit :=
  if code =? ADBC_STATUS_OK then mret tt else Rf_warning (located context error).
Definition adbc_error_stop (code : Z) (error : AdbcError) (context : string) : M RS unit :=
  if code =? ADBC_STATUS_OK then mret tt else Rf_error (located context error).

(** * Calling the manager *)

(** The code, and what the call left in the error and the object. *)
Definition run_manager (e : AdbcError) (o : Object) (m : M OState unit)
    : M RS (Z * AdbcError * Object) := fun s =>
  let back c (t : OState) :=
    Ret (c, default e (ms_error t.1), t.2)
      (mkRS (ms_world t.1) (ms_drivers t.1) (rs_blocks s) (rs_xptrs s) (rs_condition s)
         (rs_warnings s)) in
  match m (mkMS (Some e) (rs_world s) (rs_drivers s), o) with
  | Ret _ t => back 0 t
  | Exit c t => back c t
  | Undef => Undef
  | NoFuel => NoFuel
  end.
(** With the caller's error... *)
Definition call_manager (t : struct_type) (b error : nat) (m : M OState unit) : M RS Z :=
  e ← get_error error;
  o ← get_object t b;
  r ← run_manager e o m;
  let '(code, e, o) := r in
  put_block b (Some (BObject t o)) ;;
  put_block error (Some (BError e)) ;;
  mret code.
(** ... and with a local, uninitialised one. *)
Definition call_manager_local (t : struct_type) (b : nat) (m : M OState unit)
    : M RS (Z * AdbcError) :=
  o ← get_object t b;
  r ← run_manager uninitialised o m;
  let '(code, e, o) := r in
  put_block b (Some (BObject t o)) ;;
  mret (code, e).
Definition run_loader (b : nat) (m : M LState unit) : M RS (Z * AdbcError) :=
  d ← get_driver b;
  (fun s =>
     let back c (l : LState) :=
       (put_world l.2.2 (rs_drivers s) ;; put_block b (Some (BDriver l.1)) ;;
        mret (c, default uninitialised l.2.1)) s in
     match m (d, (Some uninitialised, rs_world s)) with
     | Ret _ l => back 0 l
     | Exit c l => back c l
     | Undef => Undef
     | NoFuel => NoFuel
     end) : M RS (Z * AdbcError).
(** What a driver sees of a parent object. *)
Definition driver_private (o : Object) : option P :=
  match ob_private o with PDriver p => Some p | _ => None end.

(** * Finalizers

    A released object ([private_data] null) is only freed. *)
Definition finalize_object (t : struct_type) (release : M OState unit) (context : string)
    (s : SEXP) : M RS unit :=
  match s with
  | EXTPTRSXP x =>
      p ← xptr_at x;
      match xp_addr p with
      | None => mret tt
      | Some b =>
          o ← get_object t b;
          (if is_null (ob_private o) then mret tt else
           r ← call_manager_local t b release;
           adbc_error_warn r.1 r.2 context) ;;
          adbc_xptr_default_finalize s
      end
  | _ => undef
  end.
Definition finalize_database_xptr : SEXP -> M RS unit :=
  finalize_object TDatabase AdbcDatabaseRelease "finalize_database_xptr()".
Definition finalize_connection_xptr : SEXP -> M RS unit :=
  finalize_object TConnection AdbcConnectionRelease "finalize_connection_xptr()".
Definition finalize_statement_xptr : SEXP -> M RS unit :=
  finalize_object TStatement AdbcStatementRelease "finalize_statement_xptr()".
(** [error->release(error)] frees the message and clears the error; the struct is freed next. *)
Definition finalize_error_xptr (s : SEXP) : M RS unit :=
  match s with
  | EXTPTRSXP x =>
      p ← xptr_at x;
      match xp_addr p with
      | None => mret tt
      | Some b =>
          e ← get_error b;
          when (err_release e) (put_block b (Some (BError zero_error))) ;;
          adbc_xptr_default_finalize s
      end
  | _ => undef
  end.
(** What the collector runs. *)
Definition run_finalizer (t : struct_type) : SEXP -> M RS unit :=
  match t with
  | TDatabase => finalize_database_xptr
  | TConnection => finalize_connection_xptr
  | TStatement => finalize_statement_xptr
  | TError => finalize_error_xptr
  | _ => fun _ => mret tt
  end.

(** * Entry points *)

(** ** Drivers *)
Definition init_func_class : string := "adbc_driver_init_func".
(** [RAdbcVoidDriverInitFunc], [RAdbcMonkeyDriverInitFunc]: a pointer to a driver's entry point. *)
Definition RAdbcDriverInitFunc (f : ld_init) : M RS SEXP :=
  xs ← gets rs_xptrs;
  put_xptrs (xs ++ [mkXPtr [init_func_class] None (Some f) R_NilValue R_NilValue None]) ;;
  mret (EXTPTRSXP (length xs)).
(** The function an external pointer points at, after the check of its class. *)
Definition as_init_func (s : SEXP) : M RS (option ld_init) :=
  ok ← Rf_inherits s init_func_class;
  if negb ok then Rf_error ("Expected external pointer with class '" +:+ init_func_class +:+ "'")
  else match s with EXTPTRSXP x => p ← xptr_at x; mret (xp_fn p) | _ => undef end.
Definition RAdbcLoadDriver (driver_name_sexp entrypoint_sexp : SEXP) : M RS SEXP :=
  driver_name ← adbc_as_const_char driver_name_sexp;
  entrypoint ← adbc_as_const_char entrypoint_sexp;
  driver_xptr ← adbc_allocate_xptr TDriver R_NilValue;
  driver ← adbc_from_xptr TDriver driver_xptr;
  r ← run_loader driver (AdbcLoadDriver driver_name (Some entrypoint) ADBC_VERSION_1_0_0);
  adbc_error_stop r.1 r.2 "RAdbcLoadDriver()" ;;
  mret driver_xptr.
Definition RAdbcLoadDriverFromInitFunc (driver_init_func_xptr : SEXP) : M RS SEXP :=
  driver_init_func ← as_init_func driver_init_func_xptr;
  driver_xptr ← adbc_allocate_xptr TDriver R_NilValue;
  driver ← adbc_from_xptr TDriver driver_xptr;
  init_func ← lift_opt driver_init_func;
  r ← run_loader driver (AdbcLoadDriverFromInitFunc init_func ADBC_VERSION_1_0_0);
  adbc_error_stop r.1 r.2 "RAdbcLoadDriverFromInitFunc()" ;;
  mret driver_xptr.

(** ** Databases *)
Definition RAdbcDatabaseNew (driver_init_func_xptr : SEXP) : M RS SEXP :=
  database_xptr ← adbc_allocate_xptr TDatabase R_NilValue;
  R_RegisterCFinalizer database_xptr TDatabase ;;
  database ← adbc_from_xptr TDatabase database_xptr;
  r ← call_manager_local TDatabase database AdbcDatabaseNew;
  adbc_error_stop r.1 r.2 "RAdbcDatabaseNew()" ;;
  match driver_init_func_xptr with
  | NILSXP => mret database_xptr
  | _ =>
      driver_init_func ← as_init_func driver_init_func_xptr;
      r ← call_manager_local TDatabase database
            (AdbcDriverManagerDatabaseSetInitFunc driver_init_func);
      adbc_error_stop r.1 r.2 "RAdbcDatabaseNew()" ;;
      mret database_xptr
  end.
Definition RAdbcDatabaseSetOption (database_xptr key_sexp value_sexp error_xptr : SEXP) : M RS SEXP :=
  database ← adbc_from_xptr TDatabase database_xptr;
  key ← adbc_as_const_char key_sexp;
  value ← adbc_as_const_char value_sexp;
  error ← adbc_from_xptr TError error_xptr;
  status ← call_manager TDatabase database error (AdbcDatabaseSetOption key value);
  mret (adbc_wrap_status status).
Definition RAdbcDatabaseInit (database_xptr error_xptr : SEXP) : M RS SEXP :=
  database ← adbc_from_xptr TDatabase database_xptr;
  error ← adbc_from_xptr TError error_xptr;
  status ← call_manager TDatabase database error AdbcDatabaseInit;
  mret (adbc_wrap_status status).
Definition RAdbcDatabaseRelease (database_xptr error_xptr : SEXP) : M RS SEXP :=
  database ← adbc_from_xptr TDatabase database_xptr;
  error ← adbc_from_xptr TError error_xptr;
  R_SetExternalPtrTag database_xptr R_NilValue ;;
  status ← call_manager TDatabase database error AdbcDatabaseRelease;
  mret (adbc_wrap_status status).

(** ** Connections *)
Definition RAdbcConnectionNew : M RS SEXP :=
  connection_xptr ← adbc_allocate_xptr TConnection R_NilValue;
  R_RegisterCFinalizer connection_xptr TConnection ;;
  connection ← adbc_from_xptr TConnection connection_xptr;
  r ← call_manager_local TConnection connection AdbcConnectionNew;
  adbc_error_stop r.1 r.2 "RAdbcConnectionNew()" ;;
  mret connection_xptr.
Definition RAdbcConnectionSetOption (connection_xptr key_sexp value_sexp error_xptr : SEXP)
    : M RS SEXP :=
  connection ← adbc_from_xptr TConnection connection_xptr;
  key ← adbc_as_const_char key_sexp;
  value ← adbc_as_const_char value_sexp;
  error ← adbc_from_xptr TError error_xptr;
  status ← call_manager TConnection connection error (AdbcConnectionSetOption key value);
  mret (adbc_wrap_status status).
(** The database is protected by the connection only when the call succeeded. *)
Definition RAdbcConnectionInit (connection_xptr database_xptr error_xptr : SEXP) : M RS SEXP :=
  connection ← adbc_from_xptr TConnection connection_xptr;
  database ← adbc_from_xptr TDatabase database_xptr;
  error ← adbc_from_xptr TError error_xptr;
  db ← get_object TDatabase database;
  result ← call_manager TConnection connection error
             (AdbcConnectionInit db (ParentArgs (driver_private db)));
  when (result =? ADBC_STATUS_OK) (R_SetExternalPtrProtected connection_xptr database_xptr) ;;
  mret (adbc_wrap_status result).
Definition RAdbcConnectionRelease (connection_xptr error_xptr : SEXP) : M RS SEXP :=
  connection ← adbc_from_xptr TConnection connection_xptr;
  error ← adbc_from_xptr TError error_xptr;
  status ← call_manager TConnection connection error AdbcConnectionRelease;
  R_SetExternalPtrProtected connection_xptr R_NilValue ;;
  mret (adbc_wrap_status status).
(** The codes are read as [uint32_t]. *)
Definition RAdbcConnectionGetInfo (connection_xptr info_codes_sexp out_stream_xptr error_xptr : SEXP)
    : M RS SEXP :=
  connection ← adbc_from_xptr TConnection connection_xptr;
  error ← adbc_from_xptr TError error_xptr;
  out_stream ← adbc_from_xptr TArrayStream out_stream_xptr;
  info_codes ← INTEGER info_codes_sexp;
  status ← call_manager TConnection connection error
             (AdbcConnectionGetInfo (InfoArgs (map (fun c => c mod 2 ^ 32) info_codes)
                                       (Rf_xlength info_codes_sexp) out_stream));
  mret (adbc_wrap_status status).
(** [CHAR(NA_STRING)] is ["NA"]. *)
Definition RAdbcConnectionGetObjects (connection_xptr depth_sexp catalog_sexp db_schema_sexp
    table_name_sexp table_type_sexp column_name_sexp out_stream_xptr error_xptr : SEXP) : M RS SEXP :=
  connection ← adbc_from_xptr TConnection connection_xptr;
  depth ← adbc_as_int depth_sexp;
  catalog ← adbc_as_const_char catalog_sexp;
  db_schema ← adbc_as_const_char db_schema_sexp;
  table_name ← adbc_as_const_char table_name_sexp;
  types ← STRING_ELTs table_type_sexp;
  let table_type := map (fun c => Rf_translateCharUTF8 (default "NA"%string c)) types in
  column_name ← adbc_as_const_char column_name_sexp;
  out_stream ← adbc_from_xptr TArrayStream out_stream_xptr;
  error ← adbc_from_xptr TError error_xptr;
  status ← call_manager TConnection connection error
             (AdbcConnectionGetObjects (ObjectsArgs depth catalog db_schema table_name table_type
                                          column_name out_stream));
  mret (adbc_wrap_status status).
Definition RAdbcConnectionGetTableSchema (connection_xptr catalog_sexp db_schema_sexp table_name_sexp
    schema_xptr error_xptr : SEXP) : M RS SEXP :=
  connection ← adbc_from_xptr TConnection connection_xptr;
  catalog ← adbc_as_const_char catalog_sexp;
  db_schema ← adbc_as_const_char db_schema_sexp;
  table_name ← adbc_as_const_char table_name_sexp;
  schema ← adbc_from_xptr TSchema schema_xptr;
  error ← adbc_from_xptr TError error_xptr;
  status ← call_manager TConnection connection error
             (AdbcConnectionGetTableSchema (TableSchemaArgs catalog db_schema table_name schema));
  mret (adbc_wrap_status status).
Definition RAdbcConnectionGetTableTypes (connection_xptr out_stream_xptr error_xptr : SEXP)
    : M RS SEXP :=
  connection ← adbc_from_xptr TConnection connection_xptr;
  out_stream ← adbc_from_xptr TArrayStream out_stream_xptr;
  error ← adbc_from_xptr TError error_xptr;
  status ← call_manager TConnection connection error
             (AdbcConnectionGetTableTypes (StreamArgs out_stream));
  mret (adbc_wrap_status status).
(** The address passed on is the R object's, not its data's. *)
Definition RAdbcConnectionReadPartition (connection_xptr serialized_partition_sexp out_stream_xptr
    error_xptr : SEXP) : M RS SEXP :=
  connection ← adbc_from_xptr TConnection connection_xptr;
  let serialized_partition := SexpAddress serialized_partition_sexp in
  let serialized_length := Rf_xlength serialized_partition_sexp mod 2 ^ 32 in
  out_stream ← adbc_from_xptr TArrayStream out_stream_xptr;
  error ← adbc_from_xptr TError error_xptr;
  status ← call_manager TConnection connection error
             (AdbcConnectionReadPartition (PartitionArgs serialized_partition serialized_length
                                             out_stream));
  mret (adbc_wrap_status status).
Definition RAdbcConnectionCommit (connection_xptr error_xptr : SEXP) : M RS SEXP :=
  connection ← adbc_from_xptr TConnection connection_xptr;
  error ← adbc_from_xptr TError error_xptr;
  status ← call_manager TConnection connection error AdbcConnectionCommit;
  mret (adbc_wrap_status status).
Definition RAdbcConnectionRollback (connection_xptr error_xptr : SEXP) : M RS SEXP :=
  connection ← adbc_from_xptr TConnection connection_xptr;
  error ← adbc_from_xptr TError error_xptr;
  status ← call_manager TConnection connection error AdbcConnectionCommit;
  mret (adbc_wrap_status status).

(** ** Statements *)
Definition RAdbcStatementNew (connection_xptr : SEXP) : M RS SEXP :=
  connection ← adbc_from_xptr TConnection connection_xptr;
  statement_xptr ← adbc_allocate_xptr TStatement connection_xptr;
  R_RegisterCFinalizer statement_xptr TStatement ;;
  statement ← adbc_from_xptr TStatement statement_xptr;
  conn ← get_object TConnection connection;
  r ← call_manager_local TStatement statement
        (AdbcStatementNew conn (ParentArgs (driver_private conn)));
  adbc_error_stop r.1 r.2 "RAdbcStatementNew()" ;;
  R_SetExternalPtrProtected statement_xptr connection_xptr ;;
  mret statement_xptr.
Definition RAdbcStatementSetOption (statement_xptr key_sexp value_sexp error_xptr : SEXP) : M RS SEXP :=
  statement ← adbc_from_xptr TStatement statement_xptr;
  key ← adbc_as_const_char key_sexp;
  value ← adbc_as_const_char value_sexp;
  error ← adbc_from_xptr TError error_xptr;
  status ← call_manager TStatement statement error (AdbcStatementSetOption key value);
  mret (adbc_wrap_status status).
Definition RAdbcStatementRelease (statement_xptr error_xptr : SEXP) : M RS SEXP :=
  statement ← adbc_from_xptr TStatement statement_xptr;
  error ← adbc_from_xptr TError error_xptr;
  status ← call_manager TStatement statement error AdbcStatementRelease;
  R_SetExternalPtrProtected statement_xptr R_NilValue ;;
  mret (adbc_wrap_status status).
Definition RAdbcStatementSetSqlQuery (statement_xptr query_sexp error_xptr : SEXP) : M RS SEXP :=
  statement ← adbc_from_xptr TStatement statement_xptr;
  query ← adbc_as_const_char query_sexp;
  error ← adbc_from_xptr TError error_xptr;
  status ← call_manager TStatement statement error (AdbcStatementSetSqlQuery (QueryArgs query));
  mret (adbc_wrap_status status).
Definition RAdbcStatementSetSubstraitPlan (statement_xptr plan_sexp error_xptr : SEXP) : M RS SEXP :=
  statement ← adbc_from_xptr TStatement statement_xptr;
  plan ← RAW plan_sexp;
  error ← adbc_from_xptr TError error_xptr;
  status ← call_manager TStatement statement error
             (AdbcStatementSetSubstraitPlan (PlanArgs plan (Rf_xlength plan_sexp)));
  mret (adbc_wrap_status status).
Definition RAdbcStatementPrepare (statement_xptr error_xptr : SEXP) : M RS SEXP :=
  statement ← adbc_from_xptr TStatement statement_xptr;
  error ← adbc_from_xptr TError error_xptr;
  status ← call_manager TStatement statement error AdbcStatementPrepare;
  mret (adbc_wrap_status status).
Definition RAdbcStatementGetParameterSchema (statement_xptr out_schema_xptr error_xptr : SEXP)
    : M RS SEXP :=
  statement ← adbc_from_xptr TStatement statement_xptr;
  out_schema ← adbc_from_xptr TSchema out_schema_xptr;
  error ← adbc_from_xptr TError error_xptr;
  status ← call_manager TStatement statement error
             (AdbcStatementGetParameterSchema (SchemaArgs out_schema));
  mret (adbc_wrap_status status).
Definition RAdbcStatementBind (statement_xptr values_xptr schema_xptr error_xptr : SEXP) : M RS SEXP :=
  statement ← adbc_from_xptr TStatement statement_xptr;
  values ← adbc_from_xptr TArray values_xptr;
  schema ← adbc_from_xptr TSchema schema_xptr;
  error ← adbc_from_xptr TError error_xptr;
  status ← call_manager TStatement statement error (AdbcStatementBind (ArrayArgs values schema));
  mret (adbc_wrap_status status).
Definition RAdbcStatementBindStream (statement_xptr stream_xptr error_xptr : SEXP) : M RS SEXP :=
  statement ← adbc_from_xptr TStatement statement_xptr;
  stream ← adbc_from_xptr TArrayStream stream_xptr;
  error ← adbc_from_xptr TError error_xptr;
  status ← call_manager TStatement statement error (AdbcStatementBindStream (StreamArgs stream));
  mret (adbc_wrap_status status).
Definition set_rows_affected (n : Z) : M RS unit :=
  w ← gets rs_world; ds ← gets rs_drivers; put_world (over rows_affected n w) ds.
Definition Rf_ScalarReal (z : Z) : SEXP := REALSXP [Float.f64_of_Z z].
Definition RAdbcStatementExecuteQuery (statement_xptr out_stream_xptr error_xptr : SEXP) : M RS SEXP :=
  statement ← adbc_from_xptr TStatement statement_xptr;
  out_stream ← adbc_from_xptr TArrayStream out_stream_xptr;
  error ← adbc_from_xptr TError error_xptr;
  set_rows_affected 0 ;;
  status ← call_manager TStatement statement error
             (AdbcStatementExecuteQuery (StreamArgs out_stream));
  rows ← gets (fun s => view rows_affected (rs_world s));
  mret (VECSXP [("status"%string, adbc_wrap_status status);
                ("rows_affected"%string, Rf_ScalarReal rows)]).
Definition RAdbcStatementExecutePartitions (statement_xptr out_schema_xptr partitions_xptr
    error_xptr : SEXP) : M RS SEXP :=
  mret (adbc_wrap_status ADBC_STATUS_NOT_IMPLEMENTED).

(** ** Errors (error.cc), tags (utils.c) *)
Definition RAdbcAllocateError (shelter_sexp : SEXP) : M RS SEXP :=
  error_xptr ← adbc_allocate_xptr TError shelter_sexp;
  R_RegisterCFinalizer error_xptr TError ;;
  error ← adbc_from_xptr TError error_xptr;
  get_error error ;;
  put_block error (Some (BError (mkError None 0 "" false))) ;;
  mret error_xptr.
(** The five bytes of [sqlstate]. *)
Definition sqlstate_bytes (state : string) : list Z :=
  take 5 (map (fun c => Z.of_N (N_of_ascii c)) (String.list_ascii_of_string state) ++ repeat 0 5).
Definition RAdbcErrorProxy (error_xptr : SEXP) : M RS SEXP :=
  b ← adbc_from_xptr TError error_xptr;
  error ← get_error b;
  mret (VECSXP
    [("message"%string, match err_message error with
                        | Some m => STRSXP [Some m]
                        | None => NILSXP
                        end);
     ("vendor_code"%string, Rf_ScalarInteger (err_vendor_code error));
     ("sqlstate"%string, RAWSXP (sqlstate_bytes (err_sqlstate error)))]).
Definition RAdbcStatusCodeMessage (status_sexp : SEXP) : M RS SEXP :=
  status ← adbc_as_int status_sexp;
  mret (STRSXP [Some (AdbcStatusCodeMessage status)]).
Definition RAdbcXptrEnv (xptr : SEXP) : M RS SEXP :=
  match xptr with
  | EXTPTRSXP x => p ← xptr_at x; mret (xp_tag p)
  | _ => Rf_error "object is not an external pointer"
  end.

(** * The routines registered with R (init.c)

    [.Call] finds a routine by its name and checks the number of its arguments. *)
Inductive DL_FUNC :=
| DL0 (f : M RS SEXP) | DL1 (f : SEXP -> M RS SEXP) | DL2 (f : SEXP -> SEXP -> M RS SEXP)
| DL3 (f : SEXP -> SEXP -> SEXP -> M RS SEXP) | DL4 (f : SEXP -> SEXP -> SEXP -> SEXP -> M RS SEXP)
| DL6 (f : SEXP -> SEXP -> SEXP -> SEXP -> SEXP -> SEXP -> M RS SEXP)
| DL9 (f : SEXP -> SEXP -> SEXP -> SEXP -> SEXP -> SEXP -> SEXP -> SEXP -> SEXP -> M RS SEXP).
Definition parameters (f : DL_FUNC) : Z :=
  match f with
  | DL0 _ => 0 | DL1 _ => 1 | DL2 _ => 2 | DL3 _ => 3 | DL4 _ => 4 | DL6 _ => 6 | DL9 _ => 9
  end.
Definition CallEntries (monkey void : ld_init) : list (string * DL_FUNC * Z) :=
  [("RAdbcMonkeyDriverInitFunc", DL0 (RAdbcDriverInitFunc monkey), 0);
   ("RAdbcVoidDriverInitFunc", DL0 (RAdbcDriverInitFunc void), 0);
   ("RAdbcAllocateError", DL1 RAdbcAllocateError, 1);
   ("RAdbcErrorProxy", DL1 RAdbcErrorProxy, 1);
   ("RAdbcStatusCodeMessage", DL1 RAdbcStatusCodeMessage, 1);
   ("RAdbcLoadDriver", DL2 RAdbcLoadDriver, 2);
   ("RAdbcLoadDriverFromInitFunc", DL1 RAdbcLoadDriverFromInitFunc, 1);
   ("RAdbcDatabaseNew", DL1 RAdbcDatabaseNew, 1);
   ("RAdbcDatabaseSetOption", DL4 RAdbcDatabaseSetOption, 4);
   ("RAdbcDatabaseInit", DL2 RAdbcDatabaseInit, 2);
   ("RAdbcDatabaseRelease", DL2 RAdbcDatabaseRelease, 2);
   ("RAdbcConnectionNew", DL0 RAdbcConnectionNew, 0);
   ("RAdbcConnectionSetOption", DL4 RAdbcConnectionSetOption, 4);
   ("RAdbcConnectionInit", DL3 RAdbcConnectionInit, 3);
   ("RAdbcConnectionRelease", DL2 RAdbcConnectionRelease, 2);
   ("RAdbcConnectionGetInfo", DL4 RAdbcConnectionGetInfo, 4);
   ("RAdbcConnectionGetObjects", DL9 RAdbcConnectionGetObjects, 9);
   ("RAdbcConnectionGetTableSchema", DL6 RAdbcConnectionGetTableSchema, 6);
   ("RAdbcConnectionGetTableTypes", DL3 RAdbcConnectionGetTableTypes, 3);
   ("RAdbcConnectionReadPartition", DL4 RAdbcConnectionReadPartition, 4);
   ("RAdbcConnectionCommit", DL2 RAdbcConnectionCommit, 2);
   ("RAdbcConnectionRollback", DL2 RAdbcConnectionRollback, 2);
   ("RAdbcStatementNew", DL1 RAdbcStatementNew, 1);
   ("RAdbcStatementSetOption", DL4 RAdbcStatementSetOption, 4);
   ("RAdbcStatementRelease", DL2 RAdbcStatementRelease, 2);
   ("RAdbcStatementSetSqlQuery", DL3 RAdbcStatementSetSqlQuery, 3);
   ("RAdbcStatementSetSubstraitPlan", DL3 RAdbcStatementSetSubstraitPlan, 3);
   ("RAdbcStatementPrepare", DL2 RAdbcStatementPrepare, 2);
   ("RAdbcStatementGetParameterSchema", DL3 RAdbcStatementGetParameterSchema, 3);
   ("RAdbcStatementBind", DL4 RAdbcStatementBind, 4);
   ("RAdbcStatementBindStream", DL3 RAdbcStatementBindStream, 3);
   ("RAdbcStatementExecuteQuery", DL3 RAdbcStatementExecuteQuery, 3);
   ("RAdbcStatementExecutePartitions", DL4 RAdbcStatementExecutePartitions, 4);
   ("RAdbcXptrEnv", DL1 RAdbcXptrEnv, 1)]%string.
Definition apply_routine (f : DL_FUNC) (args : list SEXP) : option (M RS SEXP) :=
  match f, args with
  | DL0 f, [] => Some f
  | DL1 f, [a] => Some (f a)
  | DL2 f, [a; b] => Some (f a b)
  | DL3 f, [a; b; c] => Some (f a b c)
  | DL4 f, [a; b; c; d] => Some (f a b c d)
  | DL6 f, [a; b; c; d; e; g] => Some (f a b c d e g)
  | DL9 f, [a; b; c; d; e; g; h; i; j] => Some (f a b c d e g h i j)
  | _, _ => None
  end.
(** [None]: R itself refuses the call. *)
Definition dot_Call (monkey void : ld_init) (name : string) (args : list SEXP)
    : option (M RS SEXP) :=
  match list_find (fun e => e.1.1 = name) (CallEntries monkey void) with
  | Some (_, (_, f, arity)) => if zlen args =? arity then apply_routine f args else None
  | None => None
  end.

End bindings.
