(* ===== verification/RSession.v ===== *)
(** Sessions of the R bindings (RBindings.v): which objects keep which alive (Ownership.v), and
    what R's garbage collector may do: find any set of objects unreachable that nothing reachable
    protects, and finalize those in any order.  Tables outlive the databases and the reachable
    objects in every session ([tables_outlive_objects]); unreachable connections may lose theirs
    ([collected_together_dangles]), and so may a connection whose initialisation failed
    ([failed_init_dangles]). *)
From stdpp Require Import base tactics list numbers option strings gmap.
From Stdlib Require Import ZArith Lia Ascii.
From S2P Require Import Prelude CLib Adbc Utils.
From S2P Require Import DriverManager Ownership RBindings.

Ltac head_of t := match t with ?f _ => head_of f | _ => t end.

(** * Routines and finalizers *)
Section session.
  Context {D P : Type} `{L : !Loader D P (api_args P)}.
  Context `{Libc} `{RApi} `{Stack} `{!RowsOut D}.

Abbreviation RS := (RS (L := L)).
Abbreviation OState := (OState D P (api_args P)).

Definition object_view (o : option (block (L := L))) : option (struct_type * option nat) :=
  match o with Some (BObject t o) => Some (t, ob_driver o) | _ => None end.
(** A protected value matters when it is an external pointer. *)
Definition protected_handle (s : SEXP) : option nat :=
  match s with EXTPTRSXP x => Some x | _ => None end.
Definition xptr_view (p : XPtr (L := L)) : option nat * option nat :=
  (xp_addr p, protected_handle (xp_protected p)).
Definition view_of (s : RS) : View :=
  mkView (live_tables (rs_drivers s)) (map object_view (rs_blocks s)) (map xptr_view (rs_xptrs s)).

Lemma keeps_Rf_error {A} message : keeps view_of (Rf_error (L := L) (A := A) message).
Proof. apply keeps_bind; [by intros s|intros; apply keeps_exit]. Qed.
Lemma keeps_Rf_warning message : keeps view_of (Rf_warning (L := L) message).
Proof. by intros s. Qed.
Hint Resolve keeps_Rf_error keeps_Rf_warning : keeps.
Lemma keeps_get_block b : keeps view_of (get_block (L := L) b).
Proof. unfold get_block. solve_keeps. Qed.
Hint Resolve keeps_get_block : keeps.
Lemma keeps_get_object t b : keeps view_of (get_object (L := L) t b).
Proof. unfold get_object. solve_keeps. Qed.
Lemma keeps_get_error b : keeps view_of (get_error (L := L) b).
Proof. unfold get_error. solve_keeps. Qed.
Lemma keeps_get_driver b : keeps view_of (get_driver (L := L) b).
Proof. unfold get_driver. solve_keeps. Qed.
Lemma keeps_xptr_at x : keeps view_of (xptr_at (L := L) x).
Proof. unfold xptr_at. solve_keeps. Qed.
Hint Resolve keeps_get_object keeps_get_error keeps_get_driver keeps_xptr_at : keeps.
Lemma keeps_change_xptr x f : (forall p, xptr_view (f p) = xptr_view p) ->
  keeps view_of (change_xptr (L := L) x f).
Proof.
  intros Hf s. unfold change_xptr, put_xptrs, mbind, M_bind, gets, modify, view_of; simpl. f_equal.
  generalize (rs_xptrs s). intros xs. revert x. induction xs as [|p xs IH]; intros [|x]; simpl; [done..| |].
  - by rewrite Hf.
  - f_equal. apply IH.
Qed.
Lemma keeps_set_tag s v : keeps view_of (R_SetExternalPtrTag (L := L) s v).
Proof. destruct s; try apply keeps_undef. by apply keeps_change_xptr. Qed.
Lemma keeps_register s t : keeps view_of (R_RegisterCFinalizer (L := L) s t).
Proof. destruct s; try apply keeps_undef. by apply keeps_change_xptr. Qed.
Lemma keeps_inherits s c : keeps view_of (Rf_inherits (L := L) s c).
Proof. unfold Rf_inherits. solve_keeps. Qed.
Hint Resolve keeps_set_tag keeps_register keeps_inherits : keeps.
Lemma keeps_from_xptr t s : keeps view_of (adbc_from_xptr (L := L) t s).
Proof. unfold adbc_from_xptr. solve_keeps. Qed.
Lemma keeps_const_char s : keeps view_of (adbc_as_const_char (L := L) s).
Proof. unfold adbc_as_const_char. solve_keeps. Qed.
Lemma keeps_as_int s : keeps view_of (adbc_as_int (L := L) s).
Proof. unfold adbc_as_int. solve_keeps. Qed.
Lemma keeps_INTEGER s : keeps view_of (INTEGER (L := L) s).
Proof. unfold INTEGER. solve_keeps. Qed.
Lemma keeps_RAW s : keeps view_of (RAW (L := L) s).
Proof. unfold RAW. solve_keeps. Qed.
Lemma keeps_STRING_ELTs s : keeps view_of (STRING_ELTs (L := L) s).
Proof. unfold STRING_ELTs. solve_keeps. Qed.
Lemma keeps_error_warn c e m : keeps view_of (adbc_error_warn (L := L) c e m).
Proof. unfold adbc_error_warn. solve_keeps. Qed.
Lemma keeps_error_stop c e m : keeps view_of (adbc_error_stop (L := L) c e m).
Proof. unfold adbc_error_stop. solve_keeps. Qed.
Lemma keeps_as_init_func s : keeps view_of (as_init_func (L := L) s).
Proof. unfold as_init_func. solve_keeps. Qed.
Lemma keeps_set_rows n : keeps view_of (set_rows_affected (L := L) n).
Proof. by intros s. Qed.
Hint Resolve keeps_from_xptr keeps_const_char keeps_as_int keeps_INTEGER keeps_RAW keeps_STRING_ELTs
  keeps_error_warn keeps_error_stop keeps_as_init_func keeps_set_rows : keeps.

(** ** Calls of the manager *)

(** A block's object, in the view. *)
Lemma object_at (s : RS) b o : rs_blocks s !! b = Some o -> v_objects (view_of s) !! b = Some (object_view o).
Proof. intros Hb. unfold view_of; simpl. rewrite list_lookup_fmap. by rewrite Hb. Qed.
Lemma run_manager_wlp e o m (Q : Z * AdbcError * Object D P (api_args P) -> RS -> Prop) E s :
  leaves m (fun r => forall c e' o' s', ob_driver o' = r.2 ->
     view_of s' = mkView r.1 (v_objects (view_of s)) (v_handles (view_of s)) ->
     rs_blocks s' = rs_blocks s -> Q (c, e', o') s') (mkMS (Some e) (rs_world s) (rs_drivers s), o) ->
  wlp (run_manager e o m) Q E s.
Proof.
  unfold leaves, wlp, run_manager. destruct (m _) as [[] [ms o']|c [ms o']| |]; [..|done|done]; simpl;
    intros HQ; by apply HQ.
Qed.
Lemma get_object_wlp t b Q E (s : RS) :
  (forall o, rs_blocks s !! b = Some (Some (BObject t o)) -> Q o s) -> wlp (get_object t b) Q E s.
Proof.
  intros HQ. unfold wlp, get_object, get_block, mbind, M_bind, gets, lift_opt; simpl.
  destruct (rs_blocks s !! b) as [[v|]|] eqn:Hb; [|done..]. unfold mret, M_ret; simpl.
  destruct v; try done. case_decide as Ht; [|done]. subst. by apply HQ.
Qed.
Lemma get_error_wlp b Q E (s : RS) :
  (forall e, rs_blocks s !! b = Some (Some (BError e)) -> Q e s) -> wlp (get_error b) Q E s.
Proof.
  intros HQ. unfold wlp, get_error, get_block, mbind, M_bind, gets, lift_opt; simpl.
  destruct (rs_blocks s !! b) as [[v|]|] eqn:Hb; [|done..]. unfold mret, M_ret; simpl.
  destruct v; try done. by apply HQ.
Qed.
Lemma view_put_block b v (s : RS) Q E :
  (forall s', view_of s' = put_object (v_drivers (view_of s)) b (object_view v) (view_of s) -> Q tt s') ->
  wlp (put_block b v) Q E s.
Proof.
  intros HQ. apply HQ. unfold view_of, put_object; simpl. f_equal.
  apply (list_fmap_insert object_view).
Qed.

(** The view after a call: the manager's tables, and the object with its new driver. *)
Definition call_result (I : View -> Prop) t b (v : View) (m : M OState unit) : Prop :=
  forall u d, own u = (v_drivers v, d) -> v_objects v !! b = Some (Some (t, d)) ->
    leaves m (fun r => I (put_object r.1 b (Some (t, r.2)) v)) u.
Lemma run_on_block t b e o m (I : View -> Prop) (Q : Z * AdbcError -> RS -> Prop) E (s : RS) :
  call_result I t b (view_of s) m -> rs_blocks s !! b = Some (Some (BObject t o)) ->
  (forall r s', I (view_of s') -> Q r s') ->
  wlp (r ← run_manager e o m; let '(code, e, o) := r in
       put_block b (Some (BObject t o)) ;; mret (code, e)) Q E s.
Proof.
  intros Hm Ho HQ. apply wlp_bind, run_manager_wlp.
  eapply leaves_conseq; [apply (Hm _ (ob_driver o)); [done|by apply object_at in Ho]|].
  intros r HI c e' o' s' Ho' Hv _. apply wlp_bind, view_put_block. intros s'' Hs''.
  apply HQ. rewrite Hs'', Hv; simpl. by rewrite Ho'.
Qed.
Lemma call_manager_local_wlp t b m (I : View -> Prop) (Q : Z * AdbcError -> RS -> Prop) E (s : RS) :
  call_result I t b (view_of s) m -> (forall r s', I (view_of s') -> Q r s') ->
  wlp (call_manager_local t b m) Q E s.
Proof.
  intros Hm HQ. unfold call_manager_local. apply wlp_bind, get_object_wlp. intros o Ho.
  by eapply run_on_block.
Qed.
Lemma call_manager_wlp t b error m (I : View -> Prop) (Q : Z -> RS -> Prop) E (s : RS) :
  call_result I t b (view_of s) m -> (forall c s', I (view_of s') -> Q c s') ->
  wlp (call_manager t b error m) Q E s.
Proof.
  intros Hm HQ. unfold call_manager. apply wlp_bind, get_error_wlp. intros e He.
  apply wlp_bind, get_object_wlp. intros o Ho. apply wlp_bind, run_manager_wlp.
  eapply leaves_conseq; [apply (Hm _ (ob_driver o)); [done|by apply object_at in Ho]|].
  intros r HI c e' o' s' Ho' Hv Hbs. apply wlp_bind, view_put_block. intros s1 Hs1.
  apply wlp_bind, view_put_block. intros s2 Hs2. apply HQ.
  assert (view_of s2 = view_of s1) as ->; [|by rewrite Hs1, Hv; simpl; rewrite Ho'].
  rewrite Hs2. apply object_at in He. destruct (view_of s1) as [ds os xs] eqn:Hs. unfold put_object; simpl.
  f_equal. apply list_insert_id. rewrite Hv in Hs1. simpl in Hs1. injection Hs1 as _ -> _.
  rewrite list_lookup_insert_ne; [exact He|]. intros ->. apply object_at in Ho. rewrite He in Ho. discriminate.
Qed.
(** A call that keeps tables and driver keeps the view. *)
Lemma call_result_keeps t b v m : keeps own m -> call_result (eq v) t b v m.
Proof.
  intros Hm u d Hu Hb. apply leaves_keeps; [done|]. rewrite Hu; simpl. destruct v as [ds os xs].
  unfold put_object; simpl in *. f_equal. symmetry. by apply list_insert_id.
Qed.
Lemma keeps_call_manager t b e m : keeps own m -> keeps view_of (call_manager t b e m).
Proof.
  intros Hm s. pose proof (call_manager_wlp t b e m (eq (view_of s)) (fun _ s' => view_of s' = view_of s)
    (fun _ s' => view_of s' = view_of s) s) as Hw. unfold wlp in Hw.
  destruct (call_manager _ _ _ _ _); [..|done|done]; (apply Hw; [by apply call_result_keeps|done]).
Qed.
Lemma keeps_run_loader b m : keeps view_of (run_loader b m).
Proof.
  intros s. unfold run_loader, get_driver, get_block, mbind, M_bind, gets, lift_opt; simpl.
  destruct (rs_blocks s !! b) as [[v|]|] eqn:Hb; [|done..]. unfold mret, M_ret; simpl.
  destruct v as [|d| |]; try done. apply object_at in Hb.
  assert (forall w d', view_of (mkRS w (rs_drivers s) (<[b := Some (BDriver d')]> (rs_blocks s)) (rs_xptrs s)
            (rs_condition s) (rs_warnings s)) = view_of s) as Hv.
  { intros w d'. unfold view_of; simpl. f_equal.
    rewrite (list_fmap_insert object_view). apply list_insert_id. exact Hb. }
  destruct (m _); [apply Hv..|done|done].
Qed.
Hint Resolve keeps_run_loader : keeps.
Hint Extern 2 (keeps view_of (call_manager _ _ _ _)) => (apply keeps_call_manager) : keeps.
Hint Resolve keeps_database_set_option keeps_connection_set_option keeps_set_init_func : keeps.

(** ** Pointers *)
Lemma from_xptr_wlp t sx (Q : nat -> RS -> Prop) (E : Z -> RS -> Prop) s :
  (forall x b p, sx = EXTPTRSXP x -> v_handles (view_of s) !! x = Some (Some b, p) -> Q b s) ->
  (forall c s', view_of s' = view_of s -> E c s') -> wlp (adbc_from_xptr t sx) Q E s.
Proof.
  intros HQ HE. unfold adbc_from_xptr, Rf_inherits. destruct sx as [| | | | | | | |x]; try by apply HE.
  unfold xptr_at, wlp, mbind, M_bind, gets, lift_opt; simpl.
  destruct (rs_xptrs s !! x) as [p|] eqn:Hx; [|done]. unfold mret, M_ret; simpl.
  destruct (bool_decide _); simpl; [|by apply HE]. rewrite Hx. simpl.
  destruct (xp_addr p) as [b|] eqn:Hb; [|by apply HE]. apply (HQ x b (protected_handle (xp_protected p))); [done|].
  unfold view_of; simpl. rewrite list_lookup_fmap, Hx. simpl. unfold xptr_view. by rewrite Hb.
Qed.
Lemma allocate_wlp t p (Q : SEXP -> RS -> Prop) (E : Z -> RS -> Prop) s :
  (forall s', view_of s' = add_handle (object_view (Some (zeroed t))) (protected_handle p) (view_of s) ->
     Q (EXTPTRSXP (length (v_handles (view_of s)))) s') ->
  (forall c s', view_of s' = view_of s -> E c s') -> wlp (adbc_allocate_xptr t p) Q E s.
Proof.
  intros HQ HE. unfold adbc_allocate_xptr. destruct (malloc_ok _); [|by apply HE].
  unfold wlp, mbind, M_bind, gets, put_blocks, put_xptrs, modify; simpl.
  replace (length (rs_xptrs s)) with (length (v_handles (view_of s))) by (unfold view_of; simpl; by rewrite length_map).
  apply HQ. unfold view_of, add_handle; simpl. rewrite !map_app, (length_map object_view). done.
Qed.
Lemma protect_wlp x v (Q : unit -> RS -> Prop) E s :
  (forall s', view_of s' = put_protected x (protected_handle v) (view_of s) -> Q tt s') ->
  wlp (R_SetExternalPtrProtected (EXTPTRSXP x) v) Q E s.
Proof.
  intros HQ. apply HQ. clear HQ. unfold view_of, put_protected; simpl. f_equal.
  generalize (rs_xptrs s). intros xs. revert x. induction xs as [|p xs IH]; intros [|x]; simpl; [done..|].
  f_equal. apply IH.
Qed.
(** The last external pointer and its object. *)
Lemma added_xptr o p v : v_handles (add_handle o p v) !! length (v_handles v) = Some (Some (length (v_objects v)), p).
Proof. simpl. by rewrite lookup_app_r, Nat.sub_diag by lia. Qed.
Lemma added_object o p v : v_objects (add_handle o p v) !! length (v_objects v) = Some o.
Proof. simpl. by rewrite lookup_app_r, Nat.sub_diag by lia. Qed.
Lemma put_object_same v b o : v_objects v !! b = Some o -> put_object (v_drivers v) b o v = v.
Proof. intros Hb. destruct v. unfold put_object; simpl in *. f_equal. by apply list_insert_id. Qed.

(** ** Every routine keeps the invariant

    [dead]: the objects that the collector has condemned.  R code passes none of them. *)
Section condemned.
Context (dead : gset nat).
#[local] Abbreviation erased := (erase dead).
Definition alive (v : View) (sx : SEXP) : Prop :=
  forall x b p, sx = EXTPTRSXP x -> v_handles v !! x = Some (Some b, p) -> b ∉ dead.
(** What holds of the erased view. *)
Definition call_erased (I : View -> Prop) t b (v : View) (m : M OState unit) : Prop :=
  call_result (fun v' => I (erased v')) t b v m.
Lemma call_result_erase I t b v m : b ∉ dead \/ t = TDatabase ->
  call_result I t b (erased v) m -> call_erased I t b v m.
Proof.
  intros Hb Hm u d Hu Ho. eapply leaves_conseq; [apply (Hm u d Hu)|].
  - rewrite erase_lookup, Ho. change (Some (erase_object dead b (Some (t, d))) = Some (Some (t, d))).
    by rewrite erase_object_kept.
  - intros r HI. by rewrite erase_put, erase_object_kept.
Qed.
Definition safe {A} (m : M RS A) (s : RS) : Prop :=
  wlp m (fun _ t => owned (erased (view_of t))) (fun _ t => owned (erased (view_of t))) s.
Lemma safe_keeps {A} (m : M RS A) s : keeps view_of m -> owned (erased (view_of s)) -> safe m s.
Proof. intros Hk Hs. eapply wlp_keeps; [exact Hk|..]; intros ? t Ht; by rewrite Ht. Qed.
Lemma safe_bind {A B} (m : M RS A) (k : A -> M RS B) s : keeps view_of m -> owned (erased (view_of s)) ->
  (forall a t, view_of t = view_of s -> safe (k a) t) -> safe (m ≫= k) s.
Proof.
  intros Hm Hs Hk. eapply wlp_keeps_bind; [exact Hm|exact Hk|]. intros c t Ht. by rewrite Ht.
Qed.
Lemma safe_from_xptr {B} t sx (k : nat -> M RS B) s : owned (erased (view_of s)) ->
  (forall x b p, sx = EXTPTRSXP x -> v_handles (view_of s) !! x = Some (Some b, p) -> safe (k b) s) ->
  safe (adbc_from_xptr t sx ≫= k) s.
Proof.
  intros Hs Hk. apply wlp_bind, from_xptr_wlp; [exact Hk|]. intros c t' Ht. by rewrite Ht.
Qed.
Lemma safe_call {B} t b e m (I : View -> Prop) (k : Z -> M RS B) s :
  call_result I t b (view_of s) m -> (forall c t, I (view_of t) -> safe (k c) t) ->
  safe (call_manager t b e m ≫= k) s.
Proof. intros Hm Hk. apply wlp_bind. by eapply call_manager_wlp. Qed.
Lemma safe_call_local {B} t b m (I : View -> Prop) (k : Z * AdbcError -> M RS B) s :
  call_result I t b (view_of s) m -> (forall r t, I (view_of t) -> safe (k r) t) ->
  safe (call_manager_local t b m ≫= k) s.
Proof. intros Hm Hk. apply wlp_bind. by eapply call_manager_local_wlp. Qed.
(** Allocation, the registration of a finalizer and the conversion of the new pointer. *)
Lemma safe_allocate {B} t p (k : SEXP -> nat -> M RS B) s : owned (erased (view_of s)) ->
  (forall d, object_view (Some (zeroed t)) <> Some d \/ d.2 = None) ->
  (forall u, view_of u = add_handle (object_view (Some (zeroed t))) (protected_handle p) (view_of s) -> owned (erased (view_of u)) ->
     safe (k (EXTPTRSXP (length (v_handles (view_of s)))) (length (v_objects (view_of s)))) u) ->
  safe (sx ← adbc_allocate_xptr t p; R_RegisterCFinalizer sx t ;; b ← adbc_from_xptr t sx; k sx b) s.
Proof.
  intros Hs Hz Hk. apply wlp_bind, allocate_wlp; [|intros c s' Hv; by rewrite Hv].
  assert (forall t' d, object_view (Some (zeroed t)) <> Some (t', Some d)) as Hz'.
  { intros t' d Hd. destruct (Hz (t', Some d)); naive_solver. }
  intros u Hu. assert (owned (erased (view_of u))) as Hou.
  { rewrite Hu, erase_add by (by apply erase_object_none). by apply owned_add. }
  apply safe_bind; [solve_keeps|done|]. intros [] u' Hu'. rewrite <- Hu' in Hou, Hu.
  apply safe_from_xptr; [done|]. intros x b q Hsx Hx.
  assert (x = length (v_handles (view_of s))) as -> by congruence.
  rewrite Hu, added_xptr in Hx. injection Hx as <- _. by apply Hk.
Qed.

(** *** The calls that change ownership *)
Lemma call_result_fresh t b v m : v_objects v !! b = Some (Some (t, None)) ->
  (forall u, leaves m (eq ((own u).1, None)) u) -> call_result (eq v) t b v m.
Proof.
  intros Hb Hm u d Hu _. eapply leaves_conseq; [apply Hm|]. intros o <-. rewrite Hu; simpl.
  symmetry. by apply put_object_same.
Qed.
Lemma call_result_drop t b x p v m : owned (erased v) -> v_handles v !! x = Some (Some b, p) ->
  (t <> TStatement -> ~ held (erased v) x) -> (forall u, leaves m (eq ((own u).1, None)) u) ->
  call_erased (fun v' => owned v' /\ v' = put_object (v_drivers v) b (Some (t, None)) (erased v)) t b v m.
Proof.
  intros Hv Hx Hg Hm u d Hu Hb. eapply leaves_conseq; [apply Hm|]. intros o <-. rewrite Hu, erase_put; simpl.
  split; [|done]. apply (owned_drop_held (erased v) b x p); [done|exact Hx| |done].
  intros t' d' [Hb' _]%erase_obj Ht'. apply Hg. unfold obj in Hb'. congruence.
Qed.
Lemma call_result_database_init b v : owned v -> call_result owned TDatabase b v AdbcDatabaseInit.
Proof.
  intros Hv u d Hu Hb. eapply leaves_conseq; [apply database_init_leaves|].
  intros o Ho. rewrite Hu in Ho. destruct Ho as [-> |(live & d' & -> & Hd)]; simpl.
  - by rewrite put_object_same.
  - by eapply owned_database_init.
Qed.
Lemma call_result_database_release b x p v : owned v -> v_handles v !! x = Some (Some b, p) ->
  ~ held v x -> call_result owned TDatabase b v AdbcDatabaseRelease.
Proof.
  intros Hv Hx Hg u d Hu Hb. eapply leaves_conseq; [apply database_release_leaves|].
  intros o Ho. rewrite Hu in Ho. unfold database_released in Ho; simpl in Ho. rewrite Ho; simpl.
  destruct d as [d|].
  - eapply (owned_drop_held _ b x p (Some (TDatabase, None))); [done..|]. exact Hb.
  - by rewrite put_object_same.
Qed.
Lemma call_result_child t b m d v :
  (forall d', v_objects v !! b = Some (Some (t, d')) -> d' = None) ->
  (forall u, leaves m (gets_driver d (own u)) u) ->
  call_result (fun v' => v' = v \/ v_objects v !! b = Some (Some (t, None)) /\
                                   v' = put_object (v_drivers v) b (Some (t, d)) v) t b v m.
Proof.
  intros Hn Hm u d' Hu Hb. pose proof (Hn _ Hb) as ->. eapply leaves_conseq; [apply Hm|].
  intros o [-> | ->]; rewrite Hu; simpl; [left|by right]. by apply put_object_same.
Qed.

(** *** Databases *)
Ltac no_driver := intros [? [?|]]; [by left|by right].
Lemma database_new_safe f s : owned (erased (view_of s)) -> safe (RAdbcDatabaseNew f) s.
Proof.
  intros Hs. unfold RAdbcDatabaseNew. apply (safe_allocate TDatabase R_NilValue (fun database_xptr database =>
    r ← call_manager_local TDatabase database AdbcDatabaseNew;
    adbc_error_stop r.1 r.2 "RAdbcDatabaseNew()" ;;
    match f with
    | NILSXP => mret database_xptr
    | _ =>
        driver_init_func ← as_init_func f;
        r ← call_manager_local TDatabase database
              (AdbcDriverManagerDatabaseSetInitFunc driver_init_func);
        adbc_error_stop r.1 r.2 "RAdbcDatabaseNew()" ;;
        mret database_xptr
    end)); [done|no_driver|].
  intros u Hu Hou. eapply safe_call_local.
  { apply call_result_fresh; [by rewrite Hu, added_object|apply database_new_leaves]. }
  intros r t Ht. rewrite Ht in Hou. apply safe_bind; [solve_keeps|done|]. intros _ t' Ht'.
  rewrite <- Ht' in Hou.
  destruct f; [by apply safe_keeps; [apply keeps_ret|]|..];
    (apply safe_bind; [solve_keeps|done|]; intros init t1 Ht1; rewrite <- Ht1 in Hou;
     eapply safe_call_local; [apply call_result_keeps; auto with keeps|];
     intros r' t2 Ht2; rewrite Ht2 in Hou; apply safe_keeps; [solve_keeps|done]).
Qed.
Lemma database_init_safe d e s : owned (erased (view_of s)) -> safe (RAdbcDatabaseInit d e) s.
Proof.
  intros Hs. unfold RAdbcDatabaseInit. apply safe_from_xptr; [done|]. intros x b p _ _.
  apply safe_bind; [solve_keeps|done|]. intros error t Ht. rewrite <- Ht in Hs.
  eapply safe_call; [apply call_result_erase; [by right|by apply call_result_database_init]|].
  intros c t' Ht'. apply safe_keeps; [solve_keeps|done].
Qed.
Definition first_pointer (args : list SEXP) : option nat :=
  match args with EXTPTRSXP x :: _ => Some x | _ => None end.
Lemma database_release_safe d e s : owned (erased (view_of s)) ->
  (forall x, first_pointer [d] = Some x -> ~ held (erased (view_of s)) x) -> safe (RAdbcDatabaseRelease d e) s.
Proof.
  intros Hs Hg. unfold RAdbcDatabaseRelease. apply safe_from_xptr; [done|]. intros x b p -> Hx.
  apply safe_bind; [solve_keeps|done|]. intros error t Ht. rewrite <- Ht in *.
  apply safe_bind; [solve_keeps|done|]. intros _ t' Ht'. rewrite <- Ht' in *.
  eapply safe_call.
  { apply call_result_erase; [by right|]. eapply call_result_database_release; [done|exact Hx|by apply Hg]. }
  intros c t1 Ht1. apply safe_keeps; [solve_keeps|done].
Qed.

(** *** Connections *)
Lemma connection_new_safe s : owned (erased (view_of s)) -> safe RAdbcConnectionNew s.
Proof.
  intros Hs. unfold RAdbcConnectionNew. apply (safe_allocate TConnection R_NilValue (fun connection_xptr connection =>
    r ← call_manager_local TConnection connection AdbcConnectionNew;
    adbc_error_stop r.1 r.2 "RAdbcConnectionNew()" ;;
    mret connection_xptr)); [done|no_driver|].
  intros u Hu Hou. eapply safe_call_local.
  { apply call_result_fresh; [by rewrite Hu, added_object|apply connection_new_leaves]. }
  intros r t Ht. rewrite Ht in Hou. apply safe_keeps; [solve_keeps|done].
Qed.
(** The driver of the object behind an external pointer. *)
Definition driver_of (v : View) (x : nat) : option nat :=
  match v_handles v !! x with
  | Some (Some b, _) => match v_objects v !! b with Some (Some (_, d)) => d | _ => None end
  | _ => None
  end.
Lemma driver_of_at v x b p t d : v_handles v !! x = Some (Some b, p) ->
  v_objects v !! b = Some (Some (t, d)) -> driver_of v x = d.
Proof. intros Hx Hb. unfold driver_of. by rewrite Hx, Hb. Qed.
Lemma safe_get_object {B} t b (k : Object D P (api_args P) -> M RS B) s :
  (forall o, v_objects (view_of s) !! b = Some (Some (t, ob_driver o)) -> safe (k o) s) ->
  safe (get_object t b ≫= k) s.
Proof. intros Hk. apply wlp_bind, get_object_wlp. intros o Ho%object_at. by apply Hk. Qed.
Lemma no_driver_protect v x b p q : v_handles v !! x = Some (Some b, q) ->
  (forall t d, ~ obj v b t d) -> owned v -> owned (put_protected x p v).
Proof. intros Hx Hb Hv. apply owned_protect; [done|]. intros b' q' t d Hx'. simplify_eq. apply Hb. Qed.
(** The new connection, once it protects its database. *)
Lemma connected_owned v xc bc pc xd bd pd d :
  owned v -> v_handles v !! xc = Some (Some bc, pc) -> v_handles v !! xd = Some (Some bd, pd) ->
  v_objects v !! bc = Some (Some (TConnection, None)) -> v_objects v !! bd = Some (Some (TDatabase, d)) ->
  owned (put_protected xc (Some xd) (put_object (v_drivers v) bc (Some (TConnection, d)) v)).
Proof.
  intros Hv Hxc Hxd Hbc Hbd.
  assert (owned (put_protected xc (Some xd) v)) as Hp.
  { eapply no_driver_protect; [done| |done]. intros t d' Hb. unfold obj in Hb. congruence. }
  assert (xd <> xc) as Hne by (intros ->; simplify_eq).
  destruct d as [d|]; [|by rewrite put_object_same].
  apply (owned_child (put_protected xc (Some xd) v) bc TConnection d xc xd bd TDatabase pd); simpl; auto.
  - by rewrite list_lookup_alter_eq, Hxc.
  - by rewrite list_lookup_alter_ne.
Qed.
Lemma connection_init_safe c d e s : owned (erased (view_of s)) -> alive (view_of s) c ->
  (forall x, first_pointer [c] = Some x -> driver_of (erased (view_of s)) x = None) ->
  wlp (RAdbcConnectionInit c d e)
    (fun v t => v = adbc_wrap_status ADBC_STATUS_OK -> owned (erased (view_of t))) (fun _ t => owned (erased (view_of t))) s.
Proof.
  intros Hs Ha Hn. unfold RAdbcConnectionInit. apply wlp_bind, from_xptr_wlp; [|intros ? t Ht; by rewrite Ht].
  intros xc bc pc -> Hxc. specialize (Hn xc eq_refl). pose proof (Ha _ _ _ eq_refl Hxc) as Hlive.
  apply wlp_bind, from_xptr_wlp; [|intros ? t Ht; by rewrite Ht]. intros xd bd pd -> Hxd.
  eapply wlp_keeps_bind; [apply keeps_from_xptr| |intros ? t Ht; by rewrite Ht].
  intros error t Ht. rewrite <- Ht in *. apply wlp_bind, get_object_wlp. intros db Hdb%object_at.
  assert (v_objects (erased (view_of t)) !! bd = Some (Some (TDatabase, ob_driver db))) as Hdb'.
  { rewrite erase_lookup, Hdb. change (Some (erase_object dead bd (Some (TDatabase, ob_driver db))) =
      Some (Some (TDatabase, ob_driver db))). rewrite erase_object_kept; [done|by right]. }
  apply wlp_bind. eapply call_manager_wlp.
  { apply call_result_erase; [by left|]. apply (call_result_child _ _ _ (ob_driver db)); [|intros u; apply connection_init_leaves].
    intros d' Hb'. by rewrite <- Hn, (driver_of_at (erased (view_of t)) _ _ _ _ _ Hxc Hb'). }
  intros code u Hu. unfold when. destruct (Z.eqb_spec code ADBC_STATUS_OK) as [->|Hc].
  - apply wlp_bind, protect_wlp. intros u' Hu'. unfold wlp, mret, M_ret. intros _. rewrite Hu', erase_protect.
    destruct Hu as [-> |[Hbc ->]]; [|by eapply connected_owned].
    eapply no_driver_protect; [exact Hxc| |done]. intros t' d' Hb. unfold obj in Hb.
    pose proof (driver_of_at (erased (view_of t)) _ _ _ _ _ Hxc Hb). congruence.
  - unfold wlp, mbind, M_bind, mret, M_ret. intros [=]. done.
Qed.
(** A released object's pointer protects nothing any more. *)
Lemma released_owned b t x p (v v' : View) : v_handles v' = v_handles v -> v_handles v !! x = Some (Some b, p) ->
  erased v' = put_object (v_drivers v) b (Some (t, None)) (erased v) -> owned (erased v') ->
  owned (erased (put_protected x None v')).
Proof.
  intros Hh Hx Hv' Hv. rewrite erase_protect. eapply no_driver_protect; [simpl; rewrite Hh; exact Hx| |exact Hv].
  intros t' d'. rewrite Hv'. intros [[_ ?]|[? _]]%obj_put; naive_solver.
Qed.
Lemma connection_release_safe c e s : owned (erased (view_of s)) ->
  (forall x, first_pointer [c] = Some x -> ~ held (erased (view_of s)) x) -> safe (RAdbcConnectionRelease c e) s.
Proof.
  intros Hs Hg. unfold RAdbcConnectionRelease. apply safe_from_xptr; [done|]. intros x b p -> Hx.
  apply safe_bind; [solve_keeps|done|]. intros error t Ht. rewrite <- Ht in *.
  eapply safe_call.
  { eapply call_result_drop; [done|exact Hx| |apply connection_release_leaves]. intros _. by apply Hg. }
  intros code u [Hou Hu]. apply wlp_bind, protect_wlp. intros u' Hu'. unfold wlp, mret, M_ret. rewrite Hu'.
  eapply (released_owned _ _ _ _ (view_of t)); [exact (f_equal v_handles Hu)|exact Hx|exact Hu|exact Hou].
Qed.

(** *** Statements *)
Lemma put_protected_same v x p a : v_handles v !! x = Some (a, p) -> put_protected x p v = v.
Proof.
  intros Hx. destruct v as [ds os xs]. unfold put_protected; simpl in *. f_equal.
  apply list_eq. intros i. rewrite list_lookup_alter. case_decide; subst; [by rewrite Hx|done].
Qed.
(** The new statement, with its connection's driver. *)
Lemma new_statement_owned v x b xc bc pc d : owned (erased v) -> bc ∉ dead ->
  v_handles v !! x = Some (Some b, Some xc) -> v_handles v !! xc = Some (Some bc, pc) ->
  v_objects v !! b = Some (Some (TStatement, None)) -> v_objects v !! bc = Some (Some (TConnection, d)) ->
  owned (erased (put_object (v_drivers v) b (Some (TStatement, d)) v)).
Proof.
  intros Hv Hlive Hx Hxc Hb Hbc. assert (v_objects (erased v) !! b = Some (Some (TStatement, None))) as Hb'.
  { by rewrite erase_lookup, Hb. }
  rewrite erase_put. destruct d as [d|]; [|by rewrite (put_object_same (erased v))].
  destruct (decide (b ∈ dead)); [rewrite erase_object_dead by done; by rewrite (put_object_same (erased v))|].
  rewrite erase_object_kept by (by left).
  apply (owned_child (erased v) b TStatement d x xc bc TConnection pc); auto.
  apply obj_erase; [exact Hbc|by left].
Qed.
Lemma statement_new_safe c s : owned (erased (view_of s)) -> alive (view_of s) c -> safe (RAdbcStatementNew c) s.
Proof.
  intros Hs Ha. unfold RAdbcStatementNew. apply safe_from_xptr; [done|]. intros xc bc pc -> Hxc.
  pose proof (Ha _ _ _ eq_refl Hxc) as Hlive.
  apply (safe_allocate TStatement (EXTPTRSXP xc) (fun statement_xptr statement =>
    conn ← get_object TConnection bc;
    r ← call_manager_local TStatement statement (AdbcStatementNew conn (ParentArgs (driver_private conn)));
    adbc_error_stop r.1 r.2 "RAdbcStatementNew()" ;;
    R_SetExternalPtrProtected statement_xptr (EXTPTRSXP xc) ;;
    mret statement_xptr)); [done|no_driver|].
  intros u Hu Hou. apply safe_get_object. intros conn Hconn.
  pose proof (added_xptr (object_view (Some (zeroed TStatement))) (Some xc) (view_of s)) as Hx.
  pose proof (added_object (object_view (Some (zeroed TStatement))) (Some xc) (view_of s)) as Hb.
  change (Some xc) with (protected_handle (EXTPTRSXP xc)) in Hx, Hb at 1.
  rewrite <- Hu in Hx, Hb. set (x := length (v_handles _)) in *. set (b := length (v_objects _)) in *.
  assert (v_handles (view_of u) !! xc = Some (Some bc, pc)) as Hxc'.
  { rewrite Hu. simpl. by apply lookup_app_l_Some. }
  eapply safe_call_local.
  { apply (call_result_child _ _ _ (ob_driver conn)); [|intros w; apply statement_new_leaves].
    intros d' Hd'. rewrite Hb in Hd'. by injection Hd'. }
  intros r t Ht. assert (owned (erased (view_of t)) /\ v_handles (view_of t) = v_handles (view_of u)) as [Hot Hxt].
  { destruct Ht as [-> |[_ ->]]; [done|split; [|done]]. by eapply new_statement_owned. }
  apply safe_bind; [solve_keeps|done|]. intros _ t' Ht'. rewrite <- Ht' in Hot, Hxt.
  apply wlp_bind, protect_wlp. intros w Hw. unfold wlp, mret, M_ret. rewrite Hw.
  erewrite put_protected_same; [done|]. rewrite Hxt. exact Hx.
Qed.
Lemma statement_release_safe st e s : owned (erased (view_of s)) -> safe (RAdbcStatementRelease st e) s.
Proof.
  intros Hs. unfold RAdbcStatementRelease. apply safe_from_xptr; [done|]. intros x b p -> Hx.
  apply safe_bind; [solve_keeps|done|]. intros error t Ht. rewrite <- Ht in *.
  eapply safe_call.
  { eapply call_result_drop; [done|exact Hx|intros []; done|apply statement_release_leaves]. }
  intros code u [Hou Hu]. apply wlp_bind, protect_wlp. intros u' Hu'. unfold wlp, mret, M_ret. rewrite Hu'.
  eapply (released_owned _ _ _ _ (view_of t)); [exact (f_equal v_handles Hu)|exact Hx|exact Hu|exact Hou].
Qed.

(** *** Drivers and errors *)
Lemma init_func_safe f s : owned (erased (view_of s)) -> safe (RAdbcDriverInitFunc f) s.
Proof.
  intros Hs. assert (owned (erased (add_function None (view_of s)))) as Ha.
  { rewrite erase_add_function. by apply owned_add_function. }
  unfold safe, wlp, RAdbcDriverInitFunc, mbind, M_bind, gets, put_xptrs, modify, mret, M_ret.
  unfold view_of at 1; simpl. by rewrite map_app.
Qed.
Lemma safe_allocate_opaque {B} t p (k : SEXP -> M RS B) s : owned (erased (view_of s)) ->
  object_view (Some (zeroed t)) = None ->
  (forall sx u, view_of u = add_handle None (protected_handle p) (view_of s) -> owned (erased (view_of u)) -> safe (k sx) u) ->
  safe (adbc_allocate_xptr t p ≫= k) s.
Proof.
  intros Hs Hz Hk. apply wlp_bind, allocate_wlp; [|intros c u Hu; by rewrite Hu].
  intros u Hu. rewrite Hz in Hu. eapply Hk; [done|]. rewrite Hu, erase_add by done. by apply owned_add.
Qed.
Lemma load_driver_safe n e s : owned (erased (view_of s)) -> safe (RAdbcLoadDriver n e) s.
Proof.
  intros Hs. unfold RAdbcLoadDriver.
  apply safe_bind; [solve_keeps|done|]. intros name t Ht. rewrite <- Ht in Hs.
  apply safe_bind; [solve_keeps|done|]. intros entry t1 Ht1. rewrite <- Ht1 in Hs.
  apply safe_allocate_opaque; [done..|]. intros sx u _ Hu. apply safe_keeps; [solve_keeps|done].
Qed.
Lemma load_driver_func_safe f s : owned (erased (view_of s)) -> safe (RAdbcLoadDriverFromInitFunc f) s.
Proof.
  intros Hs. unfold RAdbcLoadDriverFromInitFunc.
  apply safe_bind; [solve_keeps|done|]. intros init t Ht. rewrite <- Ht in Hs.
  apply safe_allocate_opaque; [done..|]. intros sx u _ Hu. apply safe_keeps; [solve_keeps|done].
Qed.
(** Writing an error, or freeing it, does not show in the view. *)
Lemma put_error_wlp b (e : AdbcError) v (Q : unit -> RS -> Prop) E s :
  rs_blocks s !! b = Some (Some (BError e)) -> object_view v = None ->
  (forall s', view_of s' = view_of s -> Q tt s') -> wlp (put_block b v) Q E s.
Proof.
  intros Hb%object_at Hv HQ. apply view_put_block. intros s' Hs'. apply HQ.
  rewrite Hs', Hv. by apply put_object_same.
Qed.
Lemma allocate_error_safe sh s : owned (erased (view_of s)) -> safe (RAdbcAllocateError sh) s.
Proof.
  intros Hs. unfold RAdbcAllocateError. apply safe_allocate_opaque; [done..|]. intros sx u _ Hu.
  apply safe_bind; [solve_keeps|done|]. intros _ u1 Hu1. rewrite <- Hu1 in Hu.
  apply safe_from_xptr; [done|]. intros x b p _ _. apply wlp_bind, get_error_wlp. intros e He.
  apply wlp_bind. eapply put_error_wlp; [exact He|done|]. intros s' Hs'.
  unfold wlp, mret, M_ret. by rewrite Hs'.
Qed.

(** *** Finalizers *)
Lemma xptr_at_wlp x (Q : XPtr (L := L) -> RS -> Prop) E s :
  (forall p, v_handles (view_of s) !! x = Some (xptr_view p) -> Q p s) -> wlp (xptr_at x) Q E s.
Proof.
  intros HQ. unfold wlp, xptr_at, mbind, M_bind, gets, lift_opt; simpl.
  destruct (rs_xptrs s !! x) as [p|] eqn:Hx; [|done]. apply HQ. unfold view_of; simpl.
  by rewrite list_lookup_fmap, Hx.
Qed.
Lemma default_finalize_safe x s : owned (erased (view_of s)) ->
  (forall b p t d, v_handles (view_of s) !! x = Some (Some b, p) -> obj (erased (view_of s)) b t d ->
     t <> TStatement -> ~ held (erased (view_of s)) x) ->
  safe (adbc_xptr_default_finalize (EXTPTRSXP x)) s.
Proof.
  intros Hs Hg. unfold adbc_xptr_default_finalize. apply wlp_bind, xptr_at_wlp. intros p Hx.
  unfold xptr_view in Hx. destruct (xp_addr p) as [b|]; [|done].
  apply safe_bind; [solve_keeps|done|]. intros v t Ht. apply view_put_block. intros s' Hs'. rewrite Hs', Ht, erase_put.
  apply (owned_drop_held (erased (view_of s)) b x (protected_handle (xp_protected p))); [done|exact Hx| |done].
  intros t' d' Hb. by eapply Hg.
Qed.
(** A release after which the object has no driver. *)
Definition releases (t : struct_type) (x : nat) (release : M OState unit) : Prop :=
  forall b p v, owned (erased v) -> v_handles v !! x = Some (Some b, p) -> ~ held (erased v) x ->
    call_result (fun v' => owned (erased v') /\ v_handles v' = v_handles v /\
                           forall t' d, ~ obj (erased v') b t' d) t b v release.
Lemma finalize_object_safe t release context x s : owned (erased (view_of s)) -> ~ held (erased (view_of s)) x ->
  releases t x release -> safe (finalize_object t release context (EXTPTRSXP x)) s.
Proof.
  intros Hs Hg Hrel. unfold finalize_object. apply wlp_bind, xptr_at_wlp. intros p Hx.
  unfold xptr_view in Hx. destruct (xp_addr p) as [b|] eqn:Hb; [|done].
  apply safe_get_object. intros o Ho. destruct (is_null _).
  - by apply (default_finalize_safe x s).
  - apply wlp_bind, wlp_bind. eapply call_manager_local_wlp; [by eapply Hrel|].
    intros r u (Hu & Hxu & Hno). eapply wlp_keeps; [solve_keeps| |].
    + intros _ u' Hu'. rewrite <- Hu' in *. apply default_finalize_safe; [done|].
      intros b' p' t' d' Hx' Hb'. rewrite Hxu, Hx in Hx'. simplify_eq. by destruct (Hno t' d').
    + intros c u' Hu'. by rewrite Hu'.
Qed.
Lemma releases_leaves t x m : (forall u, leaves m (eq ((own u).1, None)) u) -> releases t x m.
Proof.
  intros Hm b p v Hv Hx Hg u d Hu Hb. pose proof (call_result_drop t b x p v m Hv Hx (fun _ => Hg) Hm u d Hu Hb) as Hw.
  eapply leaves_conseq; [exact Hw|]. intros o [Ho Hv']. split_and!; [exact Ho|done|].
  intros t' d'. rewrite Hv'. intros [[_ ?]|[? _]]%obj_put; naive_solver.
Qed.
Lemma releases_database x : releases TDatabase x AdbcDatabaseRelease.
Proof.
  intros b p v Hv Hx Hg u d Hu Hb. eapply leaves_conseq; [apply database_release_leaves|]. intros o Ho.
  rewrite Hu in Ho. unfold database_released in Ho; simpl in Ho. rewrite Ho, !erase_put; simpl.
  assert (v_objects (erased v) !! b = Some (Some (TDatabase, d))) as Hb'.
  { rewrite erase_lookup, Hb. change (Some (erase_object dead b (Some (TDatabase, d))) = Some (Some (TDatabase, d))).
    rewrite erase_object_kept; [done|by right]. }
  split_and!; [|done|].
  - destruct d as [d|]; [|by rewrite (put_object_same (erased v))].
    eapply (owned_drop_held (erased v) b x p (Some (TDatabase, None))); [done|exact Hx| |done|exact Hb']. by intros.
  - intros t' d' [[_ ?]|[? _]]%obj_put; naive_solver.
Qed.
Lemma run_finalizer_safe t x s : owned (erased (view_of s)) -> ~ held (erased (view_of s)) x ->
  safe (run_finalizer t (EXTPTRSXP x)) s.
Proof.
  intros Hs Hg. destruct t; try (by apply safe_keeps; [apply keeps_ret|]).
  - unfold run_finalizer, finalize_error_xptr. apply wlp_bind, xptr_at_wlp. intros p Hx.
    unfold xptr_view in Hx. destruct (xp_addr p) as [b|] eqn:Hb; [|done].
    apply wlp_bind, get_error_wlp. intros e He. pose proof (object_at _ _ _ He) as Hno. simpl in Hno.
    assert (forall u, view_of u = view_of s -> safe (adbc_xptr_default_finalize (EXTPTRSXP x)) u) as Hfree.
    { intros u Hu. rewrite <- Hu in *. by apply default_finalize_safe. }
    unfold when. apply wlp_bind. destruct (err_release e); [|by apply Hfree].
    eapply put_error_wlp; [exact He|done|exact Hfree].
  - apply finalize_object_safe; [done..|apply releases_database].
  - apply finalize_object_safe; [done..|apply releases_leaves, connection_release_leaves].
  - apply finalize_object_safe; [done..|apply releases_leaves, statement_release_leaves].
Qed.

End condemned.

(** ** Sessions *)
Variables (monkey void : ld_init).

(** What the caller must respect: an object is not released explicitly while another one
    protects it, a connection is initialised once, ... *)
Definition permitted (name : string) (args : list SEXP) (v : View) : Prop :=
  (name = "RAdbcDatabaseRelease"%string \/ name = "RAdbcConnectionRelease"%string ->
     forall x, first_pointer args = Some x -> ~ held v x) /\
  (name = "RAdbcConnectionInit"%string ->
     forall x, first_pointer args = Some x -> driver_of v x = None).
(** ... and that initialisation succeeds. *)
Definition completes (name : string) (value : SEXP) : Prop :=
  name = "RAdbcConnectionInit"%string -> value = adbc_wrap_status ADBC_STATUS_OK.

Lemma dot_Call_entry name args m : dot_Call monkey void name args = Some m ->
  exists f arity, (name, f, arity) ∈ CallEntries monkey void /\ apply_routine f args = Some m.
Proof.
  unfold dot_Call. destruct (list_find _ _) as [[i [[n f] arity]]|] eqn:Hf; [|done].
  apply list_find_Some in Hf as (Hi & <- & _). destruct (_ =? _); [|done].
  intros Hm. exists f, arity. split; [by eapply list_elem_of_lookup_2|done].
Qed.
Hint Extern 3 (keeps own _) => (apply keeps_forward) : keeps.
(** The routines that change ownership; the others leave it alone. *)
Definition owning_routines : list string :=
  ["RAdbcMonkeyDriverInitFunc"; "RAdbcVoidDriverInitFunc"; "RAdbcAllocateError"; "RAdbcLoadDriver";
   "RAdbcLoadDriverFromInitFunc"; "RAdbcDatabaseNew"; "RAdbcDatabaseInit"; "RAdbcDatabaseRelease";
   "RAdbcConnectionNew"; "RAdbcConnectionInit"; "RAdbcConnectionRelease"; "RAdbcStatementNew";
   "RAdbcStatementRelease"]%string.
Lemma other_routine_keeps name args m : dot_Call monkey void name args = Some m ->
  bool_decide (name ∈ owning_routines) = false -> keeps view_of m.
Proof.
  intros (f & arity & Hin & Hm)%dot_Call_entry Hn. unfold CallEntries in Hin.
  repeat (apply elem_of_cons in Hin as [Hin|Hin];
    [injection Hin as -> -> ->; try (vm_compute in Hn; discriminate Hn);
     repeat (destruct args as [|? args]; try discriminate Hm); injection Hm as <-;
     match goal with |- keeps _ ?g => let h := head_of g in unfold h end|]).
  all: solve [solve_keeps|by apply not_elem_of_nil in Hin].
Qed.
(** What holds after a routine, if it is to hold when a connection's initialisation succeeds. *)
Definition routine_leaves (I : View -> Prop) (name : string) (m : M RS SEXP) (s : RS) : Prop :=
  wlp m (fun v t => completes name v -> I (view_of t)) (fun _ t => I (view_of t)) s.
Lemma routine_safe dead name args m s : dot_Call monkey void name args = Some m ->
  permitted name args (erase dead (view_of s)) -> Forall (alive dead (view_of s)) args ->
  owned (erase dead (view_of s)) -> routine_leaves (fun v => owned (erase dead v)) name m s.
Proof.
  intros Hcall [Hrel Hinit] Hargs Hs.
  assert (forall m', safe dead m' s -> routine_leaves (fun v => owned (erase dead v)) name m' s) as Hweak.
  { intros m' Hm. eapply wlp_conseq; [exact Hm|by intros|done]. }
  destruct (bool_decide (name ∈ owning_routines)) eqn:Hown;
    [|apply Hweak, safe_keeps; [by eapply other_routine_keeps|done]].
  apply dot_Call_entry in Hcall as (f & arity & Hin & Hm).
  unfold CallEntries in Hin.
  repeat (apply elem_of_cons in Hin as [Hin|Hin];
    [injection Hin as -> -> ->; try (vm_compute in Hown; discriminate Hown);
     repeat (destruct args as [|? args]; try discriminate Hm); injection Hm as <-|]).
  - by apply Hweak, init_func_safe.
  - by apply Hweak, init_func_safe.
  - by apply Hweak, allocate_error_safe.
  - by apply Hweak, load_driver_safe.
  - by apply Hweak, load_driver_func_safe.
  - by apply Hweak, database_new_safe.
  - by apply Hweak, database_init_safe.
  - apply Hweak, database_release_safe; [done|]. apply Hrel. by left.
  - by apply Hweak, connection_new_safe.
  - eapply wlp_conseq; [apply (connection_init_safe dead); [done|by inversion Hargs|by apply Hinit]| |done].
    intros v t Hv Hc. by apply Hv, Hc.
  - apply Hweak, connection_release_safe; [done|]. apply Hrel. by right.
  - apply Hweak, statement_new_safe; [done|by inversion Hargs].
  - by apply Hweak, statement_release_safe.
  - by apply not_elem_of_nil in Hin.
Qed.

(** A session: the state of the bindings, and the blocks that the collector has found
    unreachable.  R code passes reachable objects; what is reachable keeps what it protects
    reachable; of the condemned objects any may be finalized at any time, in any order. *)
Inductive step : RS * gset nat -> RS * gset nat -> Prop :=
| step_return s dead name args m v s' : dot_Call monkey void name args = Some m ->
    Forall (alive dead (view_of s)) args -> permitted name args (erase dead (view_of s)) ->
    m s = Ret v s' -> completes name v -> step (s, dead) (s', dead)
| step_condition s dead name args m c s' : dot_Call monkey void name args = Some m ->
    Forall (alive dead (view_of s)) args -> permitted name args (erase dead (view_of s)) ->
    m s = Exit c s' -> step (s, dead) (s', dead)
| step_condemn s dead dead' : dead ⊆ dead' -> (forall b, b ∈ dead' -> (b < length (rs_blocks s))%nat) ->
    closed dead' (view_of s) -> step (s, dead) (s, dead')
| step_finalize s dead x p t b s' : rs_xptrs s !! x = Some p -> xp_finalizer p = Some t ->
    xp_addr p = Some b -> b ∈ dead -> closed dead (view_of s) ->
    run_finalizer t (EXTPTRSXP x) s = Ret tt s' -> step (s, dead) (s', dead)
| step_nanoarrow s dead t shelter sx s' : t ∈ [TArrayStream; TArray; TSchema] ->
    alive dead (view_of s) shelter ->
    adbc_allocate_xptr t shelter s = Ret sx s' -> step (s, dead) (s', dead).
Definition started (w : D) : RS := mkRS w [] [] [] None [].
Definition reachable (c : RS * gset nat) : Prop := exists w, rtc step (started w, ∅) c.

(** What only condemned objects protect, no object with a driver holds. *)
Lemma condemned_not_held dead v x b p : closed dead v -> v_handles v !! x = Some (Some b, p) -> b ∈ dead ->
  ~ held (erase dead v) x.
Proof.
  intros Hcl Hx Hb (y & b' & t & d & Hy & [_ Ho]%erase_obj & Ht). destruct Ho as [Ho|]; [|done].
  apply Ho. by eapply (Hcl y b' x b).
Qed.
Definition owned_state (c : RS * gset nat) : Prop := owned (erase c.2 (view_of c.1)).
Lemma step_owned c c' : step c c' -> owned_state c -> owned_state c'.
Proof.
  unfold owned_state. intros Hstep Hs. destruct Hstep as [s dead name args m v s' Hcall Ha Hp Hm Hc
    |s dead name args m c s' Hcall Ha Hp Hm|s dead dead' Hsub _ Hcl
    |s dead x p t b s' Hx Ht Hb Hin Hcl Hm|s dead t sh sx s' Ht _ Hm]; simpl in *.
  - pose proof (routine_safe _ _ _ _ _ Hcall Hp Ha Hs) as Hw. unfold routine_leaves, wlp in Hw.
    rewrite Hm in Hw. by apply Hw.
  - pose proof (routine_safe _ _ _ _ _ Hcall Hp Ha Hs) as Hw. unfold routine_leaves, wlp in Hw. by rewrite Hm in Hw.
  - by eapply owned_condemn.
  - assert (v_handles (view_of s) !! x = Some (Some b, protected_handle (xp_protected p))) as Hx'.
    { unfold view_of; simpl. rewrite list_lookup_fmap, Hx. simpl. unfold xptr_view. by rewrite Hb. }
    pose proof (run_finalizer_safe dead t x s Hs (condemned_not_held _ _ _ _ _ Hcl Hx' Hin)) as Hw.
    unfold safe, wlp in Hw. by rewrite Hm in Hw.
  - assert (object_view (Some (zeroed t)) = None) as Hz by (set_unfold; naive_solver).
    pose proof (allocate_wlp t sh (fun _ u => owned (erase dead (view_of u)))
      (fun _ u => owned (erase dead (view_of u))) s) as Hw.
    unfold wlp in Hw. rewrite Hm in Hw. apply Hw; [|intros c u Hu; by rewrite Hu].
    intros u Hu. rewrite Hu, Hz, erase_add by done. by apply owned_add.
Qed.
Lemma started_owned w : owned_state (started w, ∅).
Proof. constructor; simpl; intros; try done; by rewrite lookup_nil in *. Qed.
Lemma reachable_owned c : reachable c -> owned_state c.
Proof.
  intros (w & Hs). remember (started w, ∅) as c0 eqn:Hc0.
  assert (owned_state c0) as Hown by (subst; apply started_owned). clear Hc0.
  induction Hs as [|c1 c2 c3 Hst _ IH]; [done|]. by apply IH, (step_owned c1).
Qed.

(** C20: the driver table behind every database, and behind every connection and statement that
    the collector has not condemned, stays allocated in every session of the R bindings: whatever
    the drivers do, whatever unreachable objects the collector condemns and in whatever order it
    finalizes them, if R code releases children first and its connections initialise.  (The
    finalizer of a condemned connection may find its table gone:
    [collected_together_dangles].) *)
Theorem tables_outlive_objects (s : RS) dead b t o d (Hreach : reachable (s, dead))
    (Hblock : rs_blocks s !! b = Some (Some (BObject t o)))
    (Ht : t = TDatabase \/ b ∉ dead /\ (t = TConnection \/ t = TStatement)) (Hd : ob_driver o = Some d) :
  exists table, rs_drivers s !! d = Some (Some table).
Proof.
  apply reachable_owned in Hreach.
  apply tables_lookup, (owned_allocated (erase dead (view_of s)) b t); [exact Hreach| |naive_solver].
  apply object_at in Hblock. apply obj_erase; [|naive_solver]. unfold obj. rewrite Hblock. simpl. by rewrite Hd.
Qed.

(** Building sessions. *)
Lemma reachable_started w : reachable (started w, ∅).
Proof. by exists w. Qed.
Lemma reachable_call name args m v s dead : reachable (s, dead) -> dot_Call monkey void name args = Some m ->
  Forall (alive dead (view_of s)) args -> permitted name args (erase dead (view_of s)) ->
  value_of (m s) = Some v -> completes name v -> reachable (left_by m s, dead).
Proof.
  intros (w & Hs) Hm Ha Hp Hv%value_run Hc. exists w. eapply rtc_r; [exact Hs|]. by eapply step_return.
Qed.

Lemma reachable_condemn s dead dead' : reachable (s, dead) -> dead ⊆ dead' ->
  (forall b, b ∈ dead' -> (b < length (rs_blocks s))%nat) -> closed dead' (view_of s) -> reachable (s, dead').
Proof. intros (w & Hs) Hsub Hb Hcl. exists w. eapply rtc_r; [exact Hs|]. by apply step_condemn. Qed.

(** ** A failed initialisation *)
Lemma object_put (bs : list (option (block (L := L)))) b v : map object_view (<[b := v]> bs) = <[b := object_view v]> (map object_view bs).
Proof. apply (list_fmap_insert object_view). Qed.
(** It may give the connection the table without protecting the database. *)
Lemma connection_init_fails xc xd e (s : RS) :
  wlp (RAdbcConnectionInit (EXTPTRSXP xc) (EXTPTRSXP xd) e)
    (fun v t => v <> adbc_wrap_status ADBC_STATUS_OK ->
       v_handles (view_of t) = v_handles (view_of s) /\
       exists bc bd pc pd od dd, v_handles (view_of s) !! xc = Some (Some bc, pc) /\
         v_handles (view_of s) !! xd = Some (Some bd, pd) /\
         v_objects (view_of s) !! bc = Some (Some (TConnection, od)) /\
         v_objects (view_of s) !! bd = Some (Some (TDatabase, dd)) /\
         (view_of t = view_of s \/
          view_of t = put_object (v_drivers (view_of s)) bc (Some (TConnection, dd)) (view_of s)))
    (fun _ _ => True) s.
Proof.
  unfold RAdbcConnectionInit. apply wlp_bind, from_xptr_wlp; [|done]. intros ? bc pc [= <-] Hxc.
  apply wlp_bind, from_xptr_wlp; [|done]. intros ? bd pd [= <-] Hxd.
  eapply wlp_keeps_bind; [apply keeps_from_xptr| |done]. intros error t Ht. rewrite <- Ht in *.
  apply wlp_bind, get_object_wlp. intros db Hdb%object_at. apply wlp_bind.
  apply (call_manager_wlp _ _ _ _ (fun v => exists od,
    v_objects (view_of t) !! bc = Some (Some (TConnection, od)) /\
    (v = view_of t \/ v = put_object (v_drivers (view_of t)) bc (Some (TConnection, ob_driver db)) (view_of t)))).
  { intros u od Hu Hb. eapply leaves_conseq; [apply connection_init_leaves|].
    intros o [-> | ->]; rewrite Hu; simpl; exists od; (split; [done|]); [left|by right].
    by apply (put_object_same (view_of t)). }
  intros code u (od & Hbc & Hu). unfold when. destruct (Z.eqb_spec code ADBC_STATUS_OK) as [->|Hc].
  - apply wlp_bind, protect_wlp. intros u' _. by unfold wlp, mret, M_ret.
  - unfold wlp, mbind, M_bind, mret, M_ret. intros _.
    split; [by destruct Hu as [-> | ->]|]. exists bc, bd, pc, pd, od, (ob_driver db). by split_and!.
Qed.
Lemma put_block_wlp b v (s : RS) (Q : unit -> RS -> Prop) E :
  (forall s', view_of s' = put_object (v_drivers (view_of s)) b (object_view v) (view_of s) ->
     rs_blocks s' = <[b := v]> (rs_blocks s) -> Q tt s') -> wlp (put_block b v) Q E s.
Proof. intros HQ. apply HQ; [|done]. unfold view_of, put_object; simpl. f_equal. apply object_put. Qed.
Definition memory (s : RS) := (view_of s, rs_blocks s).
Lemma memory_eq s s' : memory s' = memory s -> view_of s' = view_of s /\ rs_blocks s' = rs_blocks s.
Proof. intros Hm. exact (conj (f_equal fst Hm) (f_equal snd Hm)). Qed.
Lemma keeps_warn_memory c e m : keeps memory (adbc_error_warn (L := L) c e m).
Proof. unfold adbc_error_warn. destruct (_ =? _); [apply keeps_ret|by intros s]. Qed.
Lemma keeps_get_block_memory b : keeps memory (get_block (L := L) b).
Proof. unfold get_block. solve_keeps. Qed.
(** Collecting a database changes its own block and deletes its table. *)
Lemma finalize_database_wlp x b o p (s : RS) :
  v_handles (view_of s) !! x = Some (Some b, p) -> rs_blocks s !! b = Some (Some (BObject TDatabase o)) ->
  is_null (ob_private o) = false ->
  wlp (run_finalizer TDatabase (EXTPTRSXP x))
    (fun _ t => v_handles (view_of t) = v_handles (view_of s) /\
       (forall b', b' <> b -> rs_blocks t !! b' = rs_blocks s !! b') /\
       (forall d, ob_driver o = Some d -> v_drivers (view_of t) !! d <> Some true))
    (fun _ _ => True) s.
Proof.
  intros Hx Hb Hn. unfold run_finalizer, finalize_database_xptr, finalize_object.
  apply wlp_bind, xptr_at_wlp. intros q Hq. rewrite Hx in Hq. injection Hq as Hq Hp. rewrite <- Hq.
  apply wlp_bind, get_object_wlp. intros o' Ho'. simplify_eq. rewrite Hn.
  apply wlp_bind, wlp_bind. unfold call_manager_local. apply wlp_bind, get_object_wlp. intros o' Ho''.
  simplify_eq. apply wlp_bind, run_manager_wlp. eapply leaves_conseq; [apply database_release_leaves|].
  intros r Hr c e' o' s1 Ho1 Hv Hbs. apply wlp_bind, put_block_wlp. intros s2 Hs2 Hb2.
  apply wp_wlp, wp_ret. eapply wlp_keeps; [apply keeps_warn_memory| |done].
  intros _ s3 [Hs3 Hb3]%memory_eq. unfold adbc_xptr_default_finalize.
  assert (v_handles (view_of s3) = v_handles (view_of s)) as Hx3 by (by rewrite Hs3, Hs2, Hv).
  apply wlp_bind, xptr_at_wlp. intros q' Hq'. rewrite Hx3, Hx in Hq'. injection Hq' as Hq' _. rewrite <- Hq'.
  eapply wlp_keeps_bind; [apply (keeps_get_block_memory b)| |done]. intros _ s4 [Hs4 Hb4]%memory_eq.
  apply put_block_wlp. intros s5 Hs5 Hb5. split; [rewrite Hs5; cbn [v_handles put_object]; by rewrite Hs4|split].
  - intros b' Hne. rewrite Hb5, Hb4, Hb3, Hb2, Hbs. by rewrite !list_lookup_insert_ne.
  - intros d Hd. rewrite Hs5; cbn [v_drivers put_object]. rewrite Hs4, Hs3, Hs2, Hv; cbn [v_drivers put_object].
    unfold database_released, own in Hr; simpl in Hr. rewrite Hd in Hr. rewrite Hr; simpl.
    intros [?|?]%list_lookup_insert_Some; naive_solver.
Qed.
(** An object whose table is gone cannot be finalized: the call goes through a deleted table. *)
Lemma finalize_dangling_connection x b o p d (s : RS) :
  v_handles (view_of s) !! x = Some (Some b, p) -> rs_blocks s !! b = Some (Some (BObject TConnection o)) ->
  is_null (ob_private o) = false -> ob_driver o = Some d -> v_drivers (view_of s) !! d <> Some true ->
  run_finalizer TConnection (EXTPTRSXP x) s = Undef.
Proof.
  intros Hx Hb Hn Hd Htable. unfold view_of in Hx; simpl in Hx. rewrite list_lookup_fmap in Hx.
  destruct (rs_xptrs s !! x) as [q|] eqn:Hq; [|done]. simpl in Hx. injection Hx as Ha _.
  assert (get_object TConnection b s = Ret o s) as Ho.
  { unfold get_object, get_block, mbind, M_bind, gets, lift_opt; simpl. rewrite Hb. simpl.
    done. }
  assert (forall w e, AdbcConnectionRelease (mkMS e w (rs_drivers s), o) = Undef) as Hrel.
  { intros w e. unfold AdbcConnectionRelease, mbind, M_bind, gets; simpl. rewrite Hd.
    unfold catch, call_slot, zoom, driver_at, mbind, M_bind, gets, lift_opt; simpl.
    destruct (rs_drivers s !! d) as [[dv|]|] eqn:Hdv; simpl; [|done..].
    destruct Htable. apply tables_lookup. by exists dv. }
  unfold run_finalizer, finalize_connection_xptr, finalize_object, xptr_at, mbind, M_bind, gets, lift_opt; simpl.
  rewrite Hq. unfold mret, M_ret; simpl. rewrite Ha.
  rewrite Ho, Hn. unfold call_manager_local, mbind, M_bind. rewrite Ho. unfold run_manager. by rewrite Hrel.
Qed.
(** Nothing keeps a handle alive: the collector may take it. *)
Definition unprotected (v : View) (x : nat) : Prop := forall y q, v_handles v !! y <> Some (q, Some x).
Lemma unprotected_free v x : unprotected v x -> ~ guarded v x.
Proof. intros Hx (y & b & t & d & Hy & _). by eapply Hx. Qed.
(** The object behind an external pointer. *)
Definition object_of (s : RS) (x : nat) (t : struct_type) (o : Object D P (api_args P)) : Prop :=
  exists b p, v_handles (view_of s) !! x = Some (Some b, p) /\
    rs_blocks s !! b = Some (Some (BObject t o)).

(** C25: when [AdbcConnectionInit] fails after it has set the connection's driver,
    [RAdbcConnectionInit] does not make the connection protect its database: the collector may
    finalize the database first, which deletes the driver's table, and the connection's own
    finalizer is then undefined behaviour. *)
Theorem failed_init_dangles (s s' s'' : RS) xc xd e v oc od d
    (Hfree : unprotected (view_of s) xd) (Hnew : driver_of (view_of s) xc = None)
    (Hinit : RAdbcConnectionInit (EXTPTRSXP xc) (EXTPTRSXP xd) e s = Ret v s')
    (Hfail : v <> adbc_wrap_status ADBC_STATUS_OK)
    (Hc : object_of s' xc TConnection oc) (Hdriver : ob_driver oc = Some d)
    (Hlive : is_null (ob_private oc) = false)
    (Hd : object_of s' xd TDatabase od) (Hopen : is_null (ob_private od) = false)
    (Hcollect : run_finalizer TDatabase (EXTPTRSXP xd) s' = Ret tt s'') :
  unprotected (view_of s') xd /\ run_finalizer TConnection (EXTPTRSXP xc) s'' = Undef.
Proof.
  pose proof (connection_init_fails xc xd e s) as Hw. unfold wlp in Hw. rewrite Hinit in Hw.
  destruct (Hw Hfail) as (Hxs & bc & bd & pc & pd & od' & dd & Hxc & Hxd & Hbc & Hbd & Hv). clear Hw.
  pose proof (driver_of_at _ _ _ _ _ _ Hxc Hbc) as Hod0. rewrite Hnew in Hod0. subst od'.
  destruct Hc as (bc' & pc' & Hxc' & Hoc), Hd as (bd' & pd' & Hxd' & Hod).
  rewrite Hxs in Hxc', Hxd'. simplify_eq.
  pose proof (object_at _ _ _ Hoc) as Hoc'. pose proof (object_at _ _ _ Hod) as Hod'.
  assert (bd' <> bc') as Hne by (intros ->; simplify_eq).
  destruct Hv as [Hv|Hv]; rewrite Hv in Hoc', Hod'; [rewrite Hoc' in Hbc; simpl in Hbc; congruence|].
  unfold put_object in Hoc', Hod'; cbn [v_objects] in Hoc', Hod'.
  rewrite list_lookup_insert_ne in Hod' by done.
  rewrite list_lookup_insert_eq in Hoc' by (by eapply lookup_lt_Some).
  assert (ob_driver od = Some d) as Hdd.
  { rewrite Hod' in Hbd. simpl in Hoc', Hbd. congruence. }
  split.
  - unfold unprotected. rewrite Hxs. exact Hfree.
  - pose proof (finalize_database_wlp xd bd' od pd' s') as Hw. unfold wlp in Hw. rewrite Hcollect in Hw.
    destruct Hw as (Hx2 & Hblocks & Htable); [by rewrite Hxs|done..|].
    eapply finalize_dangling_connection; [|by rewrite Hblocks|done|done|by apply Htable].
    by rewrite Hx2, Hxs.
Qed.
(** when the collector finds a database and its connection unreachable together, it may finalize
    the database first: this deletes the driver's table, and the connection's finalizer then
    calls through it. *)
Theorem collected_together_dangles (s s' : RS) dead xc xd pd bd oc od d
    (Hreach : reachable (s, dead)) (Hclosed : closed dead (view_of s))
    (Hc : object_of s xc TConnection oc) (Hdriver : ob_driver oc = Some d)
    (Hlive : is_null (ob_private oc) = false)
    (Hxd : rs_xptrs s !! xd = Some pd) (Hfd : xp_finalizer pd = Some TDatabase)
    (Had : xp_addr pd = Some bd) (Hdead : bd ∈ dead)
    (Hd : rs_blocks s !! bd = Some (Some (BObject TDatabase od))) (Hdd : ob_driver od = Some d)
    (Hopen : is_null (ob_private od) = false)
    (Hcollect : run_finalizer TDatabase (EXTPTRSXP xd) s = Ret tt s') :
  reachable (s', dead) /\ run_finalizer TConnection (EXTPTRSXP xc) s' = Undef.
Proof.
  split.
  { destruct Hreach as (w & Hw). exists w. eapply rtc_r; [exact Hw|]. by eapply step_finalize. }
  assert (v_handles (view_of s) !! xd = Some (Some bd, protected_handle (xp_protected pd))) as Hxd'.
  { unfold view_of; simpl. rewrite list_lookup_fmap, Hxd. simpl. unfold xptr_view. by rewrite Had. }
  destruct Hc as (bc & pc & Hxc & Hoc). assert (bc <> bd) as Hne by (intros ->; simplify_eq).
  pose proof (finalize_database_wlp xd bd od _ s Hxd' Hd Hopen) as Hw. unfold wlp in Hw. rewrite Hcollect in Hw.
  destruct Hw as (Hx2 & Hblocks & Htable).
  eapply finalize_dangling_connection; [by rewrite Hx2|by rewrite Hblocks|done|done|by apply Htable].
Qed.

(** ** What the routines answer *)

(** [s] after a driver's callback ran on the object in block [b], with the error in block [e]. *)
Definition after_call (s : RS) (t : struct_type) (b e : nat) (d : nat) (err : AdbcError)
    (c : CallState D P ld_init) : RS :=
  mkRS (cs_world c) (rs_drivers s)
    (<[e := Some (BError (default err (cs_error c)))]>
       (<[b := Some (BObject t (mkObject (cs_private c) (Some d)))]> (rs_blocks s)))
    (rs_xptrs s) (rs_condition s) (rs_warnings s).
Lemma call_manager_forward t b e o err d dv slot f args code c (s : RS) :
  rs_blocks s !! b = Some (Some (BObject t o)) -> rs_blocks s !! e = Some (Some (BError err)) ->
  ob_driver o = Some d -> rs_drivers s !! d = Some (Some dv) -> dv_slot dv slot = Some f ->
  finish (f args (mkCall (Some err) (ob_private o) (rs_world s))) = Some (code, c) ->
  call_manager t b e (forward slot args) s = Ret code (after_call s t b e d err c).
Proof.
  intros Hb He Hd Hdv Hf Hrun.
  assert (get_error e s = Ret err s) as Hge.
  { unfold get_error, get_block, mbind, M_bind, gets, lift_opt; simpl. by rewrite He. }
  assert (get_object t b s = Ret o s) as Hgo.
  { unfold get_object, get_block, mbind, M_bind, gets, lift_opt; simpl. rewrite Hb. simpl.
    unfold mret, M_ret; simpl. by rewrite decide_True. }
  unfold call_manager. rewrite (bind_ret _ _ _ _ _ Hge), (bind_ret _ _ _ _ _ Hgo).
  assert (catch (call_slot d slot args) (mkMS (Some err) (rs_world s) (rs_drivers s), o) =
    Ret code (back_in (mkMS (Some err) (rs_world s) (rs_drivers s), o) c)) as Hc.
  { by eapply call_slot_catch. }
  unfold mbind at 1, M_bind, run_manager, forward, gets; simpl. unfold mbind at 1, M_bind; simpl. rewrite Hd.
  unfold catch in Hc. destruct (call_slot d slot args _) as [[] w|code' w| |]; try done;
    injection Hc as <- ->; simpl; rewrite Hd; done.
Qed.
(** a rollback asked for by R runs the driver's commit: whatever status and state the
    callback in the table's [ConnectionCommit] slot leaves are the result, and the
    [ConnectionRollback] slot is never consulted. *)
Theorem rollback_runs_commit xc xe b e o err d dv f code c (s : RS)
    (Hxc : adbc_from_xptr TConnection xc s = Ret b s) (Hxe : adbc_from_xptr TError xe s = Ret e s)
    (Hb : rs_blocks s !! b = Some (Some (BObject TConnection o)))
    (He : rs_blocks s !! e = Some (Some (BError err)))
    (Hd : ob_driver o = Some d) (Hdv : rs_drivers s !! d = Some (Some dv))
    (Hf : dv_slot dv S_ConnectionCommit = Some f)
    (Hrun : finish (f NoArgs (mkCall (Some err) (ob_private o) (rs_world s))) = Some (code, c)) :
  RAdbcConnectionRollback xc xe s = Ret (adbc_wrap_status code) (after_call s TConnection b e d err c).
Proof.
  unfold RAdbcConnectionRollback. rewrite (bind_ret _ _ _ _ _ Hxc), (bind_ret _ _ _ _ _ Hxe).
  unfold AdbcConnectionCommit. by erewrite bind_ret by (by eapply call_manager_forward).
Qed.

(** The state after an allocation. *)
Definition allocated_state (s : RS) (t : struct_type) (p : SEXP) : RS :=
  mkRS (rs_world s) (rs_drivers s) (rs_blocks s ++ [Some (zeroed t)])
    (rs_xptrs s ++ [mkXPtr [adbc_xptr_class t; "adbc_xptr"%string] (Some (length (rs_blocks s))) None
                      (ENVSXP (length (rs_xptrs s))) p None]) (rs_condition s) (rs_warnings s).
Lemma allocate_run t p (s : RS) : malloc_ok (struct_size t) = true ->
  adbc_allocate_xptr t p s = Ret (EXTPTRSXP (length (rs_xptrs s))) (allocated_state s t p).
Proof. intros Hm. unfold adbc_allocate_xptr. by rewrite Hm. Qed.
Lemma from_xptr_run t x p b (s : RS) : rs_xptrs s !! x = Some p -> adbc_xptr_class t ∈ xp_class p ->
  xp_addr p = Some b -> adbc_from_xptr t (EXTPTRSXP x) s = Ret b s.
Proof.
  intros Hx Hclass Hb. unfold adbc_from_xptr, Rf_inherits, xptr_at, mbind, M_bind, gets, lift_opt; simpl.
  rewrite Hx. unfold mret, M_ret; simpl. rewrite bool_decide_true by done. simpl. rewrite Hx. simpl. by rewrite Hb.
Qed.
Lemma from_new_xptr t p (s : RS) :
  adbc_from_xptr t (EXTPTRSXP (length (rs_xptrs s))) (allocated_state s t p) =
    Ret (length (rs_blocks s)) (allocated_state s t p).
Proof.
  eapply from_xptr_run; simpl; [by apply list_lookup_middle|by left|done].
Qed.
Lemma new_driver_block p (s : RS) : get_driver (length (rs_blocks s)) (allocated_state s TDriver p) =
  Ret zero_driver (allocated_state s TDriver p).
Proof.
  unfold get_driver, get_block, mbind, M_bind, gets, lift_opt; simpl. by rewrite list_lookup_middle.
Qed.
Lemma run_loader_undef b d m (s : RS) : get_driver b s = Ret d s ->
  m (d, (Some uninitialised, rs_world s)) = Undef -> run_loader b m s = Undef.
Proof. intros Hd Hm. unfold run_loader. erewrite bind_ret by done. by rewrite Hm. Qed.
Lemma run_loader_exit b d m c l (s : RS) : get_driver b s = Ret d s ->
  m (d, (Some uninitialised, rs_world s)) = Exit c l ->
  run_loader b m s = Ret (c, default uninitialised l.2.1)
    (mkRS l.2.2 (rs_drivers s) (<[b := Some (BDriver l.1)]> (rs_blocks s)) (rs_xptrs s) (rs_condition s)
       (rs_warnings s)).
Proof. intros Hd Hm. unfold run_loader. erewrite bind_ret by done. by rewrite Hm. Qed.
(** loading a library that cannot be opened, through the local error that
    [RAdbcLoadDriver] leaves uninitialised: if the stack held a null pointer where the message
    is, R gets the loader's message; otherwise the manager calls a release callback that never
    was one. *)
Theorem load_driver_unset_error name entry (s : RS) full (Hmalloc : malloc_ok (struct_size TDriver) = true)
    (Hfull : full_driver_name (Rf_translateCharUTF8 name) = Some full)
    (Hlib : dlopen (Rf_translateCharUTF8 name) = None) (Hlib' : dlopen full = None) :
  match stack_message with
  | Some _ => RAdbcLoadDriver (STRSXP [Some name]) (STRSXP [Some entry]) s = Undef
  | None => exists s', RAdbcLoadDriver (STRSXP [Some name]) (STRSXP [Some entry]) s = Exit R_CONDITION s' /\
      rs_condition s' = Some ("<RAdbcLoadDriver()> dlopen() failed: " +:+
        dlerror (Rf_translateCharUTF8 name) +:+ newline +:+ "dlopen() failed: " +:+ dlerror full)%string
  end.
Proof.
  unfold RAdbcLoadDriver. unfold adbc_as_const_char at 1 2.
  assert (forall w, AdbcLoadDriver (Rf_translateCharUTF8 name) (Some (Rf_translateCharUTF8 entry)) ADBC_VERSION_1_0_0
            (zero_driver, (Some uninitialised, w)) =
          (zoom error_lens (SetError ("dlopen() failed: " +:+ dlerror (Rf_translateCharUTF8 name) +:+ newline +:+
             "dlopen() failed: " +:+ dlerror full)%string) ;;
           modify (fun s => (mkDriver (dv_slot s.1) RelNull (dv_manager s.1), s.2)) ;;
           exit ADBC_STATUS_INTERNAL) (zero_driver, (Some uninitialised, w))) as Hload.
  { intros w. unfold AdbcLoadDriver. simpl.
    rewrite Hfull. erewrite bind_ret by done. by rewrite Hlib, Hlib'. }
  specialize (Hload (rs_world s)). unfold uninitialised in Hload.
  destruct stack_message as [m|] eqn:Hm; [|eexists; split].
  1, 2: rewrite (bind_ret _ _ (Rf_translateCharUTF8 name) s s),
    (bind_ret _ _ (Rf_translateCharUTF8 entry) s s) by done;
    rewrite (bind_ret _ _ _ _ _ (allocate_run TDriver R_NilValue s Hmalloc)),
      (bind_ret _ _ _ _ _ (from_new_xptr TDriver R_NilValue s)).
  - apply bind_undef. eapply run_loader_undef; [apply new_driver_block|]. unfold uninitialised. by rewrite Hm.
  - erewrite bind_ret; [|eapply run_loader_exit; [apply new_driver_block|unfold uninitialised; rewrite Hm; exact Hload]].
    reflexivity.
  - done.
Qed.

(** a statement asked of a connection that has no driver, because it was released or never
    initialised, is refused by the manager without a word; the R error that
    [RAdbcStatementNew] raises then shows whatever its uninitialised error holds. *)
Theorem statement_new_unset_error xc b o (s : RS) (Hmalloc : malloc_ok (struct_size TStatement) = true)
    (Hxc : adbc_from_xptr TConnection xc s = Ret b s)
    (Hb : rs_blocks s !! b = Some (Some (BObject TConnection o))) (Hd : ob_driver o = None) :
  exists s', RAdbcStatementNew xc s = Exit R_CONDITION s' /\
    rs_condition s' = Some ("<RAdbcStatementNew()> " +:+ default ""%string stack_message)%string.
Proof.
  unfold RAdbcStatementNew. rewrite (bind_ret _ _ _ _ _ Hxc), (bind_ret _ _ _ _ _ (allocate_run _ xc s Hmalloc)).
  set (x := length (rs_xptrs s)). set (s1 := allocated_state s TStatement xc).
  assert (exists s2, R_RegisterCFinalizer (EXTPTRSXP x) TStatement s1 = Ret tt s2 /\
    adbc_from_xptr TStatement (EXTPTRSXP x) s2 = Ret (length (rs_blocks s)) s2 /\
    rs_blocks s2 = rs_blocks s1 /\ rs_drivers s2 = rs_drivers s) as (s2 & Hreg & Hfrom & Hb2 & Hd2).
  { eexists. split_and!; [reflexivity| |done..]. eapply from_xptr_run; simpl.
    - rewrite list_lookup_alter_eq. unfold x. by rewrite list_lookup_middle.
    - by left.
    - done. }
  rewrite (bind_ret _ _ _ _ _ Hreg), (bind_ret _ _ _ _ _ Hfrom).
  assert (forall t b' o', rs_blocks s2 !! b' = Some (Some (BObject t o')) -> get_object t b' s2 = Ret o' s2) as Hget.
  { intros t b' o' Hb'. unfold get_object, get_block, mbind, M_bind, gets, lift_opt; simpl. rewrite Hb'.
    unfold mret, M_ret; simpl. by destruct (decide (t = t)). }
  assert (rs_blocks s2 !! b = Some (Some (BObject TConnection o))) as Hconn.
  { rewrite Hb2. by apply lookup_app_l_Some. }
  assert (rs_blocks s2 !! length (rs_blocks s) = Some (Some (BObject TStatement (mkObject PNull None)))) as Hst.
  { rewrite Hb2. by apply list_lookup_middle. }
  rewrite (bind_ret _ _ _ _ _ (Hget _ _ _ Hconn)). unfold call_manager_local, AdbcStatementNew. rewrite Hd.
  eexists. split.
  - erewrite bind_ret; [|erewrite bind_ret by (by apply Hget); reflexivity]. reflexivity.
  - reflexivity.
Qed.
End session.

(** * Witnesses *)
Section witnesses.
(** A driver whose objects have private data, which may refuse connections; its world is the
    number of rows it reports. *)
Inductive r_toy := Accepts | Refuses.
Definition r_callback (t : r_toy) (slot : driver_slot) : callback Z unit (api_args unit) r_toy := fun _ c =>
  let with_private p := Ret tt (mkCall (cs_error c) p (cs_world c)) in
  match slot with
  | S_DatabaseNew | S_ConnectionNew | S_StatementNew => with_private (PDriver tt)
  | S_DatabaseRelease | S_ConnectionRelease | S_StatementRelease => with_private PNull
  | S_ConnectionInit => match t with Accepts => Ret tt c | Refuses => Exit ADBC_STATUS_IO c end
  | S_ConnectionCommit => Exit ADBC_STATUS_CANCELLED c
  | _ => Ret tt c
  end.
#[local] Instance r_toy_loader : Loader Z unit (api_args unit) := {|
  ld_init := r_toy;
  ld_run t _ s := Ret tt (mkDriver (fun slot => Some (r_callback t slot)) RelNull None, s.2);
  ld_library := unit;
  dlopen _ := None;
  dlsym _ _ := None;
  dlerror name := (name +:+ ": not found")%string;
  iteration m := map_to_list (m : gmap string string);
|}.
#[local] Existing Instance host.
#[local] Instance r_toy_api : RApi := {| r_type_error _ _ := "type"%string; Rf_translateCharUTF8 c := c |}.
#[local] Instance clean_stack : Stack := {| stack_message := None; stack_vendor_code := 0; stack_sqlstate := "" |}.
#[local] Instance r_toy_rows : RowsOut Z := mkLens id (fun n _ => n).

(** A database, an error, a connection and its statement. *)
Definition r_start : RS (L := r_toy_loader) := started 0.
Abbreviation toy_state := (RS (L := r_toy_loader)).
Definition r_driver (t : r_toy) : toy_state := left_by (RAdbcDriverInitFunc (L := r_toy_loader) t) r_start.
Definition r_database (t : r_toy) : toy_state := left_by (RAdbcDatabaseNew (EXTPTRSXP 0)) (r_driver t).
Definition r_error (t : r_toy) : toy_state := left_by (RAdbcAllocateError NILSXP) (r_database t).
Definition r_init (t : r_toy) : toy_state :=
  left_by (RAdbcDatabaseInit (EXTPTRSXP 1) (EXTPTRSXP 2)) (r_error t).
Definition r_connection (t : r_toy) : toy_state := left_by RAdbcConnectionNew (r_init t).
Definition r_connected (t : r_toy) : toy_state :=
  left_by (RAdbcConnectionInit (EXTPTRSXP 3) (EXTPTRSXP 1) (EXTPTRSXP 2)) (r_connection t).
Definition r_statement (t : r_toy) : toy_state := left_by (RAdbcStatementNew (EXTPTRSXP 3)) (r_connected t).
Ltac ordinary := split; [intros [?|?]; discriminate|intros ?; discriminate].
Ltac next name args v H :=
  apply (reachable_call (L := r_toy_loader) Accepts Accepts name args _ v _ ∅ H);
  [reflexivity|by repeat constructor| |vm_compute; reflexivity|done].
Lemma r_session_reachable : reachable Accepts Accepts (r_statement Accepts, ∅).
Proof.
  assert (reachable Accepts Accepts (r_start, ∅)) as H0 by apply reachable_started.
  assert (reachable Accepts Accepts (r_driver Accepts, ∅)) as H1.
  { next "RAdbcVoidDriverInitFunc"%string (@nil SEXP) (EXTPTRSXP 0) H0. ordinary. }
  assert (reachable Accepts Accepts (r_database Accepts, ∅)) as H2.
  { next "RAdbcDatabaseNew"%string [EXTPTRSXP 0] (EXTPTRSXP 1) H1. ordinary. }
  assert (reachable Accepts Accepts (r_error Accepts, ∅)) as H3.
  { next "RAdbcAllocateError"%string [NILSXP] (EXTPTRSXP 2) H2. ordinary. }
  assert (reachable Accepts Accepts (r_init Accepts, ∅)) as H4.
  { next "RAdbcDatabaseInit"%string [EXTPTRSXP 1; EXTPTRSXP 2] (INTSXP [0]) H3. ordinary. }
  assert (reachable Accepts Accepts (r_connection Accepts, ∅)) as H5.
  { next "RAdbcConnectionNew"%string (@nil SEXP) (EXTPTRSXP 3) H4. ordinary. }
  assert (reachable Accepts Accepts (r_connected Accepts, ∅)) as H6.
  { next "RAdbcConnectionInit"%string [EXTPTRSXP 3; EXTPTRSXP 1; EXTPTRSXP 2] (INTSXP [0]) H5.
    split; [intros [?|?]; discriminate|]. intros _ x [= <-]. vm_compute. reflexivity. }
  next "RAdbcStatementNew"%string [EXTPTRSXP 3] (EXTPTRSXP 4) H6. ordinary.
Qed.
Definition block_object (s : toy_state) (b : nat) : Object Z unit (api_args unit) :=
  match rs_blocks s !! b with Some (Some (BObject _ o)) => o | _ => mkObject PNull None end.
(** The collector finds everything unreachable that the blocks in a list hold. *)
Definition protectors_condemned (dead : list nat) (s : toy_state) : bool :=
  forallb (fun h => match h : option nat * option nat with
    | (Some b, Some x) => match v_handles (view_of s) !! x with
        | Some (Some b', _) => negb (bool_decide (b' ∈ dead)) || bool_decide (b ∈ dead)
        | _ => true
        end
    | _ => true
    end) (v_handles (view_of s)).
Lemma protectors_closed dead (s : toy_state) : protectors_condemned dead s = true ->
  closed (list_to_set dead) (view_of s).
Proof.
  intros Hall y b x b' p Hy Hx Hb'. unfold protectors_condemned in Hall. rewrite forallb_forall in Hall.
  specialize (Hall _ (proj1 (list_elem_of_In _ _) (list_elem_of_lookup_2 _ _ _ Hy))).
  cbv beta iota in Hall. rewrite Hx in Hall. rewrite elem_of_list_to_set in *.
  rewrite (bool_decide_true (b' ∈ dead)) in Hall by done. by apply bool_decide_eq_true in Hall.
Qed.
Lemma condemned_reachable (s : toy_state) dead : reachable Accepts Accepts (s, ∅) ->
  protectors_condemned dead s = true -> forallb (fun b => b <? length (rs_blocks s))%nat dead = true ->
  reachable Accepts Accepts (s, list_to_set dead).
Proof.
  intros Hs Hcl Hall. eapply reachable_condemn; [exact Hs|apply empty_subseteq| |by apply protectors_closed].
  intros b Hb%elem_of_list_to_set. rewrite forallb_forall in Hall.
  apply Nat.ltb_lt, Hall. by apply list_elem_of_In.
Qed.
(** The statement is condemned, its connection is not. *)
Lemma tables_outlive_objects_witness :
  exists table, rs_drivers (r_statement Accepts) !! 0%nat = Some (Some table).
Proof.
  refine (tables_outlive_objects Accepts Accepts (r_statement Accepts) (list_to_set [3%nat]) 2 TConnection
    (block_object (r_statement Accepts) 2) 0 (condemned_reachable _ [3%nat] r_session_reachable _ _) _
    (or_intror (conj _ (or_introl eq_refl))) _); [vm_compute; reflexivity..| |vm_compute; reflexivity].
  set_solver.
Defined.
(** All of them are condemned. *)
Definition r_together : toy_state := left_by (run_finalizer TDatabase (EXTPTRSXP 1)) (r_statement Accepts).
Lemma collected_together_dangles_witness :
  reachable Accepts Accepts (r_together, list_to_set [0; 2; 3]%nat) /\
  run_finalizer TConnection (EXTPTRSXP 3) r_together = Undef.
Proof.
  refine (collected_together_dangles Accepts Accepts (r_statement Accepts) r_together (list_to_set [0; 2; 3]%nat)
    3 1 (default (mkXPtr [] None None NILSXP NILSXP None) (rs_xptrs (r_statement Accepts) !! 1%nat)) 0
    (block_object (r_statement Accepts) 2) (block_object (r_statement Accepts) 0) 0
    (condemned_reachable _ [0; 2; 3]%nat r_session_reachable _ _) (protectors_closed [0; 2; 3]%nat _ _) _ _ _ _ _ _ _ _ _ _ _).
  all: try (vm_compute; reflexivity).
  exists 2%nat, (Some 1%nat). split; vm_compute; reflexivity.
Defined.

Definition r_refused : toy_state := r_connected Refuses.
Definition r_collected : toy_state := left_by (run_finalizer TDatabase (EXTPTRSXP 1)) r_refused.
Lemma failed_init_dangles_witness :
  unprotected (view_of r_refused) 1 /\ run_finalizer TConnection (EXTPTRSXP 3) r_collected = Undef.
Proof.
  refine (failed_init_dangles (r_connection Refuses) r_refused r_collected 3 1 (EXTPTRSXP 2)
    (adbc_wrap_status ADBC_STATUS_IO) (block_object r_refused 2) (block_object r_refused 0) 0 _ _ _ _ _ _ _ _ _ _).
  - intros y q Hy. vm_compute in Hy. by repeat (destruct y as [|y]; [discriminate Hy|]).
  - vm_compute. reflexivity.
  - unfold r_refused, r_connected. apply value_run. vm_compute. reflexivity.
  - discriminate.
  - exists 2%nat, None. split; vm_compute; reflexivity.
  - vm_compute. reflexivity.
  - vm_compute. reflexivity.
  - exists 0%nat, None. split; vm_compute; reflexivity.
  - vm_compute. reflexivity.
  - unfold r_collected. apply value_run. vm_compute. reflexivity.
Defined.
Lemma rollback_runs_commit_witness :
  RAdbcConnectionRollback (EXTPTRSXP 3) (EXTPTRSXP 2) (r_connected Accepts) =
    Ret (adbc_wrap_status ADBC_STATUS_CANCELLED)
      (after_call (r_connected Accepts) TConnection 2 1 0 zero_error
         (mkCall (Some zero_error) (PDriver tt) 0)).
Proof.
  refine (rollback_runs_commit (EXTPTRSXP 3) (EXTPTRSXP 2) 2 1 (block_object (r_connected Accepts) 2) zero_error 0
    (mkDriver (fun slot => Some (r_callback Accepts slot)) RelNull None)
    (r_callback Accepts S_ConnectionCommit) ADBC_STATUS_CANCELLED (mkCall (Some zero_error) (PDriver tt) 0)
    (r_connected Accepts) _ _ _ _ _ _ _ _); vm_compute; reflexivity.
Defined.
Lemma statement_new_unset_error_witness :
  exists s', RAdbcStatementNew (EXTPTRSXP 3) (r_connection Accepts) = Exit R_CONDITION s' /\
    rs_condition s' = Some ("<RAdbcStatementNew()> " +:+ "")%string.
Proof.
  refine (statement_new_unset_error (EXTPTRSXP 3) 2 (block_object (r_connection Accepts) 2)
    (r_connection Accepts) _ _ _ _); vm_compute; reflexivity.
Defined.
Definition dirty_stack : Stack :=
  {| stack_message := Some "garbage"%string; stack_vendor_code := 7; stack_sqlstate := "" |}.
Lemma load_driver_unset_error_witness :
  RAdbcLoadDriver (H1 := dirty_stack) (STRSXP [Some "driver"%string]) (STRSXP [Some "init"%string]) r_start = Undef.
Proof.
  refine (load_driver_unset_error (H1 := dirty_stack) "driver" "init" r_start "libdriver.so" _ _ _ _);
    vm_compute; reflexivity.
Defined.
End witnesses.
