(* ===== verification/GLib.v ===== *)
(** The GLib bindings (glib/adbc-glib/database.c, connection.c, statement.c, error.c): GObject
    classes around the objects of the driver manager, reference counted. *)
From stdpp Require Import base tactics list numbers option strings gmap.
From Stdlib Require Import ZArith Lia Ascii.
From S2P Require Import Prelude CLib Adbc Utils.
From S2P Require Import DriverManager.

(** * Error codes (error.h) *)
Definition GADBCError := Z.
Definition GADBC_ERROR_OK := 0.
Definition GADBC_ERROR_UNKNOWN := 1.
Definition GADBC_ERROR_NOT_IMPLEMENTED := 2.
Definition GADBC_ERROR_NOT_FOUND := 3.
Definition GADBC_ERROR_ALREADY_EXISTS := 4.
Definition GADBC_ERROR_INVALID_ARGUMENT := 5.
Definition GADBC_ERROR_INVALID_STATE := 6.
Definition GADBC_ERROR_INVALID_DATA := 7.
Definition GADBC_ERROR_INTEGRITY := 8.
Definition GADBC_ERROR_INTERNAL := 9.
Definition GADBC_ERROR_IO := 10.
Definition GADBC_ERROR_CANCELLED := 11.
Definition GADBC_ERROR_TIMEOUT := 12.
Definition GADBC_ERROR_UNAUTHENTICATED := 13.
Definition GADBC_ERROR_UNAUTHORIZED := 14.

Definition gadbc_error_from_status_code (status_code : AdbcStatusCode) : GADBCError :=
  if status_code =? ADBC_STATUS_OK then GADBC_ERROR_OK
  else if status_code =? ADBC_STATUS_UNKNOWN then GADBC_ERROR_UNKNOWN
  else if status_code =? ADBC_STATUS_NOT_IMPLEMENTED then GADBC_ERROR_NOT_IMPLEMENTED
  else if status_code =? ADBC_STATUS_NOT_FOUND then GADBC_ERROR_NOT_FOUND
  else if status_code =? ADBC_STATUS_ALREADY_EXISTS then GADBC_ERROR_ALREADY_EXISTS
  else if status_code =? ADBC_STATUS_INVALID_ARGUMENT then GADBC_ERROR_INVALID_ARGUMENT
  else if status_code =? ADBC_STATUS_INVALID_STATE then GADBC_ERROR_INVALID_STATE
  else if status_code =? ADBC_STATUS_INVALID_DATA then GADBC_ERROR_INVALID_DATA
  else if status_code =? ADBC_STATUS_INTEGRITY then GADBC_ERROR_INTEGRITY
  else if status_code =? ADBC_STATUS_INTERNAL then GADBC_ERROR_INTERNAL
  else if status_code =? ADBC_STATUS_IO then GADBC_ERROR_IO
  else if status_code =? ADBC_STATUS_CANCELLED then GADBC_ERROR_CANCELLED
  else if status_code =? ADBC_STATUS_TIMEOUT then GADBC_ERROR_TIMEOUT
  else if status_code =? ADBC_STATUS_UNAUTHENTICATED then GADBC_ERROR_UNAUTHENTICATED
  else if status_code =? ADBC_STATUS_UNAUTHORIZED then GADBC_ERROR_UNAUTHORIZED
  else GADBC_ERROR_UNKNOWN.

(** What the bindings pass on through the manager: a parent's private data, a query, where to
    put a result ([None]: a null pointer) and whether the number of rows is asked for. *)
Inductive glib_args (P : Type) :=
| GParent (private : option P)
| GQuery (query : string)
| GExecute (stream : option nat) (rows_affected : bool).
Arguments GParent {P} private.
Arguments GQuery {P} query.
Arguments GExecute {P} stream rows_affected.
(** A [GError] in the domain [GADBC_ERROR]. *)
Record GError := mkGError { ge_code : GADBCError; ge_message : string }.
(** [GError**]: a null pointer, or the address of an error pointer. *)
Definition GErrorPtr := option (option GError).

Section glib.
  Context {D P : Type} `{L : !Loader D P (glib_args P)}.

Abbreviation Driver := (AdbcDriver D P (glib_args P) ld_init).
Abbreviation Object := (Object D P (glib_args P)).
Abbreviation OState := (OState D P (glib_args P)).

(** * State

    An instance of [GADBCDatabase], [GADBCConnection] or [GADBCStatement] with its private
    struct; [go_parent] is [priv->database] or [priv->connection]. *)
Record GObject := mkGObject {
  go_type : struct_type;
  go_ref_count : nat;
  go_initialized : bool;
  go_adbc : Object;
  go_parent : option nat;
}.
(** Freed instances and streams are [None] and [false]; [gs_out] is what the caller's variable
    for the result stream holds. *)
Record GS := mkGS {
  gs_world : D;
  gs_drivers : list (option Driver);
  gs_objects : list (option GObject);
  gs_streams : list bool;
  gs_out : option nat;
  gs_error : GErrorPtr;
  gs_warnings : list string;
}.
Definition put_gobjects (os : list (option GObject)) : M GS unit := modify (fun s =>
  mkGS (gs_world s) (gs_drivers s) os (gs_streams s) (gs_out s) (gs_error s) (gs_warnings s)).
Definition put_gerror (e : GErrorPtr) : M GS unit := modify (fun s =>
  mkGS (gs_world s) (gs_drivers s) (gs_objects s) (gs_streams s) (gs_out s) e (gs_warnings s)).
Definition g_warning (message : string) : M GS unit := modify (fun s =>
  mkGS (gs_world s) (gs_drivers s) (gs_objects s) (gs_streams s) (gs_out s) (gs_error s)
    (gs_warnings s ++ [message])).
Definition put_streams (ss : list bool) (out : option nat) : M GS unit := modify (fun s =>
  mkGS (gs_world s) (gs_drivers s) (gs_objects s) ss out (gs_error s) (gs_warnings s)).

(** Through a pointer to a freed instance: undefined. *)
Definition gobject_at (i : nat) : M GS GObject :=
  os ← gets gs_objects; lift_opt (mjoin (os !! i)).
Definition put_gobject (i : nat) (o : option GObject) : M GS unit :=
  os ← gets gs_objects; put_gobjects (<[i := o]> os).
(** [G..._get_instance_private] of an object of another class is not what its type says. *)
Definition instance (t : struct_type) (i : nat) : M GS GObject :=
  o ← gobject_at i; if decide (go_type o = t) then mret o else undef.
Definition set_initialized (i : nat) (b : bool) : M GS unit :=
  o ← gobject_at i;
  put_gobject i (Some (mkGObject (go_type o) (go_ref_count o) b (go_adbc o) (go_parent o))).
Definition set_parent (i : nat) (p : option nat) : M GS unit :=
  o ← gobject_at i;
  put_gobject i (Some (mkGObject (go_type o) (go_ref_count o) (go_initialized o) (go_adbc o) p)).
Definition set_ref_count (i : nat) (n : nat) : M GS unit :=
  o ← gobject_at i;
  put_gobject i (Some (mkGObject (go_type o) n (go_initialized o) (go_adbc o) (go_parent o))).

(** * Errors *)

(** A second error over a pending one is dropped with a warning. *)
Definition g_set_error (code : GADBCError) (message : string) : M GS unit :=
  e ← gets gs_error;
  match e with
  | None => mret tt
  | Some None => put_gerror (Some (Some (mkGError code message)))
  | Some (Some _) => g_warning "GError set over the top of a previous GError"
  end.
(** ["%s"] of a null pointer prints ["(null)"] (glibc). *)
Definition error_text (context : string) (status_code : AdbcStatusCode) (adbc_error : AdbcError) : string :=
  (context +:+ "[" +:+ AdbcStatusCodeMessage status_code +:+ "][" +:+ fmt_Z (err_vendor_code adbc_error) +:+
   "] " +:+ default "(null)" (err_message adbc_error))%string.
(** [adbc_error->release(adbc_error)], without a test. *)
Definition release_error (adbc_error : AdbcError) : M GS unit :=
  if err_release adbc_error then mret tt else undef.
Definition gadbc_error_check (status_code : AdbcStatusCode) (adbc_error : AdbcError) (context : string)
    : M GS bool :=
  if status_code =? ADBC_STATUS_OK then mret true else
  g_set_error (gadbc_error_from_status_code status_code) (error_text context status_code adbc_error) ;;
  release_error adbc_error ;;
  mret false.
Definition gadbc_error_warn (status_code : AdbcStatusCode) (adbc_error : AdbcError) (context : string)
    : M GS unit :=
  if status_code =? ADBC_STATUS_OK then mret tt else
  g_warning (error_text context status_code adbc_error) ;;
  release_error adbc_error.

(** * Calling the manager, with [struct AdbcError adbc_error = {}] *)
Definition call_adbc (i : nat) (m : M OState unit) : M GS (Z * AdbcError) :=
  o ← gobject_at i;
  (fun s =>
     let back c (t : OState) :=
       (put_gobject i (Some (mkGObject (go_type o) (go_ref_count o) (go_initialized o) t.2 (go_parent o))) ;;
        mret (c, default zero_error (ms_error t.1)))
         (mkGS (ms_world t.1) (ms_drivers t.1) (gs_objects s) (gs_streams s) (gs_out s) (gs_error s)
            (gs_warnings s)) in
     match m (mkMS (Some zero_error) (gs_world s) (gs_drivers s), go_adbc o) with
     | Ret _ t => back 0 t
     | Exit c t => back c t
     | Undef => Undef
     | NoFuel => NoFuel
     end) : M GS (Z * AdbcError).
Definition driver_data (o : Object) : option P :=
  match ob_private o with PDriver p => Some p | _ => None end.

(** * Instances *)

(** [g_object_new]: one reference, the private struct zeroed. *)
Definition g_object_new (t : struct_type) : M GS nat :=
  os ← gets gs_objects;
  put_gobjects (os ++ [Some (mkGObject t 1 false (mkObject PNull None) None)]) ;;
  mret (length os).
Definition g_object_ref (i : nat) : M GS unit :=
  o ← gobject_at i; set_ref_count i (S (go_ref_count o)).
(** [g_object_unref]: the last reference disposes of the instance, finalizes it and frees it. *)
Definition unref_with (i : nat) (dispose : M GS unit) : M GS unit :=
  o ← gobject_at i;
  if (1 <? go_ref_count o)%nat then set_ref_count i (go_ref_count o - 1)
  else dispose ;; put_gobject i None.

Definition gadbc_database_finalize (i : nat) : M GS unit :=
  priv ← instance TDatabase i;
  if go_initialized priv then
    r ← call_adbc i AdbcDatabaseRelease;
    gadbc_error_warn r.1 r.2 "[adbc][database][finalize]"
  else mret tt.
Definition database_unref (i : nat) : M GS unit := unref_with i (gadbc_database_finalize i).
(** [initialized] stays set. *)
Definition gadbc_connection_dispose (i : nat) : M GS unit :=
  priv ← instance TConnection i;
  (if go_initialized priv then
     r ← call_adbc i AdbcConnectionRelease;
     gadbc_error_warn r.1 r.2 "[adbc][connection][finalize]"
   else mret tt) ;;
  match go_parent priv with
  | Some database => database_unref database ;; set_parent i None
  | None => mret tt
  end.
Definition connection_unref (i : nat) : M GS unit := unref_with i (gadbc_connection_dispose i).
Definition gadbc_statement_dispose (i : nat) : M GS unit :=
  priv ← instance TStatement i;
  (if go_initialized priv then
     r ← call_adbc i AdbcStatementRelease;
     gadbc_error_warn r.1 r.2 "[adbc][statement][finalize]" ;;
     set_initialized i false
   else mret tt) ;;
  match go_parent priv with
  | Some connection => connection_unref connection ;; set_parent i None
  | None => mret tt
  end.
Definition statement_unref (i : nat) : M GS unit := unref_with i (gadbc_statement_dispose i).
(** By the class of the instance. *)
Definition g_object_unref (i : nat) : M GS unit :=
  o ← gobject_at i;
  match go_type o with
  | TDatabase => database_unref i
  | TConnection => connection_unref i
  | TStatement => statement_unref i
  | _ => undef
  end.

(** [gadbc_..._get_raw]: whether the pointer is not null. *)
Definition get_raw (t : struct_type) (what : string) (i : nat) (context : string) : M GS bool :=
  priv ← instance t i;
  if go_initialized priv then mret true else
  g_set_error GADBC_ERROR_INVALID_ARGUMENT (context +:+ " " +:+ what +:+ " is already released")%string ;;
  mret false.
Definition gadbc_database_get_raw := get_raw TDatabase "database".
Definition gadbc_connection_get_raw := get_raw TConnection "connection".
Definition gadbc_statement_get_raw := get_raw TStatement "statement".

(** A method that passes a call on. *)
Definition method (raw : nat -> string -> M GS bool) (i : nat) (context : string) (m : M OState unit)
    : M GS bool :=
  ok ← raw i context;
  if negb ok then mret false else
  r ← call_adbc i m;
  gadbc_error_check r.1 r.2 context.
(** An explicit release forgets the object when it succeeded. *)
Definition release_method (raw : nat -> string -> M GS bool) (i : nat) (context : string)
    (m : M OState unit) : M GS bool :=
  ok ← raw i context;
  if negb ok then mret false else
  r ← call_adbc i m;
  success ← gadbc_error_check r.1 r.2 context;
  when success (set_initialized i false) ;;
  mret success.
(** A constructor: the instance is dropped again when the call fails. *)
Definition new_instance (t : struct_type) (context : string) (m : M OState unit) : M GS (option nat) :=
  i ← g_object_new t;
  r ← call_adbc i m;
  success ← gadbc_error_check r.1 r.2 context;
  set_initialized i success ;;
  if success : bool then mret (Some i) else g_object_unref i ;; mret None.

(** ** Databases *)
Definition gadbc_database_new : M GS (option nat) :=
  new_instance TDatabase "[adbc][database][new]" AdbcDatabaseNew.
Definition gadbc_database_release (database : nat) : M GS bool :=
  release_method gadbc_database_get_raw database "[adbc][database][release]" AdbcDatabaseRelease.
Definition gadbc_database_set_option (database : nat) (key value : string) : M GS bool :=
  method gadbc_database_get_raw database "[adbc][database][set-option]" (AdbcDatabaseSetOption key value).
Definition gadbc_database_init (database : nat) : M GS bool :=
  method gadbc_database_get_raw database "[adbc][database][init]" AdbcDatabaseInit.

(** ** Connections *)
Definition gadbc_connection_new : M GS (option nat) :=
  new_instance TConnection "[adbc][connection][new]" AdbcConnectionNew.
Definition gadbc_connection_release (connection : nat) : M GS bool :=
  release_method gadbc_connection_get_raw connection "[adbc][connection][release]" AdbcConnectionRelease.
Definition gadbc_connection_set_option (connection : nat) (key value : string) : M GS bool :=
  method gadbc_connection_get_raw connection "[adbc][connection][set-option]"
    (AdbcConnectionSetOption key value).
(** A released database is passed on as a null pointer, which the manager reads unless the
    connection is not new. *)
Definition connection_init_null : M OState unit :=
  private_data ← gets (fun s => ob_private s.2);
  if is_null private_data then
    zoom fst_lens (DriverManager.raise ADBC_STATUS_INVALID_STATE "Must call AdbcConnectionNew first")
  else undef.
Definition gadbc_connection_init (connection database : nat) : M GS bool :=
  let context := "[adbc][connection][init]"%string in
  ok ← gadbc_connection_get_raw connection context;
  if negb ok then mret false else
  adbc_database ← gadbc_database_get_raw database context;
  db ← gobject_at database;
  r ← call_adbc connection (if adbc_database : bool
                            then AdbcConnectionInit (go_adbc db) (GParent (driver_data (go_adbc db)))
                            else connection_init_null);
  success ← gadbc_error_check r.1 r.2 context;
  when success (set_parent connection (Some database) ;; g_object_ref database) ;;
  mret success.

(** ** Statements *)
Definition gadbc_statement_new (connection : nat) : M GS (option nat) :=
  let context := "[adbc][statement][new]"%string in
  ok ← gadbc_connection_get_raw connection context;
  if negb ok then mret None else
  conn ← gobject_at connection;
  statement ← new_instance TStatement context
                (AdbcStatementNew (go_adbc conn) (GParent (driver_data (go_adbc conn))));
  match statement with
  | None => mret None
  | Some i => set_parent i (Some connection) ;; g_object_ref connection ;; mret (Some i)
  end.
Definition gadbc_statement_release (statement : nat) : M GS bool :=
  release_method gadbc_statement_get_raw statement "[adbc][statement][release]" AdbcStatementRelease.
Definition gadbc_statement_set_sql_query (statement : nat) (query : string) : M GS bool :=
  method gadbc_statement_get_raw statement "[adbc][statement][set-sql-query]"
    (AdbcStatementSetSqlQuery (GQuery query)).
(** [c_abi_array_stream] and [n_rows_affected] tell whether the pointers are not null.  The
    result is stored through the first one without a test. *)
Definition gadbc_statement_execute (statement : nat) (c_abi_array_stream n_rows_affected : bool)
    : M GS bool :=
  let context := "[adbc][statement][execute]"%string in
  ok ← gadbc_statement_get_raw statement context;
  if negb ok then mret false else
  ss ← gets gs_streams;
  out ← gets gs_out;
  let array_stream := if c_abi_array_stream then Some (length ss) else None in
  when c_abi_array_stream (put_streams (ss ++ [true]) out) ;;
  r ← call_adbc statement (AdbcStatementExecuteQuery (GExecute array_stream n_rows_affected));
  success ← gadbc_error_check r.1 r.2 context;
  (if success : bool then
     if c_abi_array_stream then ss ← gets gs_streams; put_streams ss array_stream else undef
   else
     match array_stream with
     | Some a => ss ← gets gs_streams; put_streams (<[a := false]> ss) out
     | None => mret tt
     end) ;;
  mret success.
End glib.
