(* ===== verification/GSession.v ===== *)
(** Lifetimes in the GLib bindings (GLib.v): reference counts, and which objects of the manager
    they keep alive (Ownership.v). *)
From stdpp Require Import base tactics list numbers option strings gmap.
From Stdlib Require Import ZArith Lia Ascii.
From S2P Require Import Prelude CLib Adbc Utils.
From S2P Require Import DriverManager Ownership GLib.

(** * Instances, abstractly *)
Record GA := mkGA {
  ga_type : struct_type;
  ga_refs : nat;
  ga_init : bool;
  ga_driver : option nat;
  ga_parent : option nat;
}.
Record GView := mkGView { gv_drivers : list bool; gv_objects : list (option GA) }.
Definition inst (gv : GView) (i : nat) : option GA := mjoin (gv_objects gv !! i).
Definition gput (ds : list bool) (i : nat) (o : option GA) (gv : GView) : GView :=
  mkGView ds (<[i := o]> (gv_objects gv)).
Lemma inst_lookup gv i g : inst gv i = Some g <-> gv_objects gv !! i = Some (Some g).
Proof. unfold inst. destruct (gv_objects gv !! i) as [[]|]; simpl; naive_solver. Qed.
Lemma inst_gput ds i o gv g0 j : inst gv i = Some g0 ->
  inst (gput ds i o gv) j = if decide (j = i) then o else inst gv j.
Proof.
  intros Hi%inst_lookup. unfold inst, gput; simpl. destruct (decide (j = i)) as [->|Hne].
  - by rewrite list_lookup_insert_eq by (by eapply lookup_lt_Some).
  - by rewrite list_lookup_insert_ne.
Qed.

(** The instances whose parent is [p]. *)
Definition is_child (p : nat) (o : option GA) : bool :=
  match o with Some g => bool_decide (ga_parent g = Some p) | None => false end.
Definition children (gv : GView) (p : nat) : nat := length (List.filter (is_child p) (gv_objects gv)).
Definition refs (gv : GView) (i : nat) : nat := match inst gv i with Some g => ga_refs g | None => 0 end.
Definition view_of_gv (gv : GView) : View :=
  mkView (gv_drivers gv) (map (fun o => (fun g => (ga_type g, ga_driver g)) <$> o) (gv_objects gv))
    (imap (fun i o => (Some i, match o with Some g => ga_parent g | None => None end)) (gv_objects gv)).
Definition parent_type (t tp : struct_type) : Prop :=
  t = TConnection /\ tp = TDatabase \/ t = TStatement /\ tp = TConnection.

(** [owners] lists the references held outside: every other one is held by a child.  Tables
    follow the ownership discipline; an instance that is not initialised has no driver. *)
Record sound (gv : GView) (owners : list nat) : Prop := {
  sound_owned : owned (view_of_gv gv);
  sound_count : forall i, (count_occ Nat.eq_dec owners i + children gv i = refs gv i)%nat;
  sound_live : forall i g, inst gv i = Some g -> (0 < ga_refs g)%nat;
  sound_parent : forall i g p, inst gv i = Some g -> ga_parent g = Some p ->
    exists gp, inst gv p = Some gp /\ parent_type (ga_type g) (ga_type gp);
  sound_driver : forall i g, inst gv i = Some g -> ga_init g = false -> ga_driver g = None;
}.

(** ** Counting children *)
Lemma filter_insert {A} (f : A -> bool) l i (a b : A) : l !! i = Some a ->
  (length (List.filter f (<[i := b]> l)) + (if f a then 1 else 0) =
   length (List.filter f l) + (if f b then 1 else 0))%nat.
Proof.
  revert i. induction l as [|x l IH]; intros [|i]; simpl; [done..| |].
  - intros [= ->]. destruct (f a), (f b); simpl; lia.
  - intros Hi. specialize (IH i Hi). destruct (f x); simpl; lia.
Qed.
Lemma children_gput ds i o gv g p : inst gv i = Some g ->
  (children (gput ds i o gv) p + (if is_child p (Some g) then 1 else 0) =
   children gv p + (if is_child p o then 1 else 0))%nat.
Proof. intros Hi%inst_lookup. apply filter_insert. exact Hi. Qed.
Lemma filter_none {A} (f : A -> bool) l : length (List.filter f l) = 0%nat ->
  forall i a, l !! i = Some a -> f a = false.
Proof.
  induction l as [|x l IH]; simpl; intros Hl i a; [done|]. destruct (f x) eqn:Hx; [done|].
  destruct i as [|i]; [naive_solver|]. by apply IH.
Qed.
Lemma no_children gv p i g : children gv p = 0%nat -> inst gv i = Some g -> ga_parent g <> Some p.
Proof.
  intros Hc Hi%inst_lookup. pose proof (filter_none _ _ Hc _ _ Hi) as Hf. simpl in Hf.
  by apply bool_decide_eq_false in Hf.
Qed.
(** ** The ownership view *)
Lemma handle_at gv i : v_handles (view_of_gv gv) !! i =
  (fun o : option GA => (Some i, match o with Some g => ga_parent g | None => None end)) <$> gv_objects gv !! i.
Proof. unfold view_of_gv; simpl. by rewrite list_lookup_imap. Qed.
Lemma handle_inst gv i g : inst gv i = Some g -> v_handles (view_of_gv gv) !! i = Some (Some i, ga_parent g).
Proof. intros Hi%inst_lookup. by rewrite handle_at, Hi. Qed.
Lemma handle_inv gv i b p : v_handles (view_of_gv gv) !! i = Some (Some b, p) -> b = i.
Proof. rewrite handle_at. destruct (gv_objects gv !! i); simpl; naive_solver. Qed.
Lemma object_inst gv i g : inst gv i = Some g ->
  v_objects (view_of_gv gv) !! i = Some (Some (ga_type g, ga_driver g)).
Proof. intros Hi%inst_lookup. unfold view_of_gv; simpl. by rewrite list_lookup_fmap, Hi. Qed.
Lemma obj_inst gv i t d : obj (view_of_gv gv) i t d <->
  exists g, inst gv i = Some g /\ ga_type g = t /\ ga_driver g = Some d.
Proof.
  unfold obj, inst, view_of_gv; simpl. rewrite list_lookup_fmap.
  destruct (gv_objects gv !! i) as [[g|]|]; simpl.
  - split; [intros ?; simplify_eq; by exists g|]. intros (g' & Hg & <- & <-). by simplify_eq.
  - split; [by intros ?|by intros (? & ? & _)].
  - split; [by intros ?|by intros (? & ? & _)].
Qed.
Lemma view_gput_same ds i g g' gv : inst gv i = Some g -> ga_parent g' = ga_parent g ->
  view_of_gv (gput ds i (Some g') gv) = put_object ds i (Some (ga_type g', ga_driver g')) (view_of_gv gv).
Proof.
  intros Hi%inst_lookup Hp. unfold view_of_gv, put_object, gput; simpl. f_equal; [by rewrite (list_fmap_insert _)|].
  apply list_eq. intros j. rewrite !list_lookup_imap. destruct (decide (i = j)) as [<-|Hne].
  - rewrite list_lookup_insert_eq by (by eapply lookup_lt_Some). rewrite Hi. simpl. by rewrite Hp.
  - by rewrite list_lookup_insert_ne.
Qed.
Lemma unguarded_childless gv i : children gv i = 0%nat -> ~ guarded (view_of_gv gv) i.
Proof.
  intros Hc (y & b & t & d & Hy & Hb). pose proof (handle_inv _ _ _ _ Hy) as ->.
  apply obj_inst in Hb as (g & Hg & _). rewrite (handle_inst _ _ _ Hg) in Hy. simplify_eq.
  by eapply no_children.
Qed.

(** ** Sound transitions *)
Definition with_refs (n : nat) (g : GA) : GA := mkGA (ga_type g) n (ga_init g) (ga_driver g) (ga_parent g).
Definition with_init (b : bool) (g : GA) : GA := mkGA (ga_type g) (ga_refs g) b (ga_driver g) (ga_parent g).
Definition with_driver (d : option nat) (g : GA) : GA :=
  mkGA (ga_type g) (ga_refs g) (ga_init g) d (ga_parent g).
Definition with_parent (p : option nat) (g : GA) : GA :=
  mkGA (ga_type g) (ga_refs g) (ga_init g) (ga_driver g) p.
Abbreviation count l i := (count_occ Nat.eq_dec l i).

Lemma refs_gput ds i o gv g j : inst gv i = Some g ->
  refs (gput ds i o gv) j =
    if decide (j = i) then match o with Some g' => ga_refs g' | None => 0%nat end else refs gv j.
Proof. intros Hi. unfold refs. rewrite (inst_gput _ _ _ _ _ _ Hi). by destruct (decide (j = i)). Qed.
Lemma sound_put gv owners owners' ds i g g' : sound gv owners -> inst gv i = Some g ->
  ga_type g' = ga_type g -> ga_parent g' = ga_parent g ->
  owned (put_object ds i (Some (ga_type g', ga_driver g')) (view_of_gv gv)) ->
  (ga_init g' = false -> ga_driver g' = None) ->
  (forall j, (count owners' j + children gv j = if decide (j = i) then ga_refs g' else refs gv j)%nat) ->
  (0 < ga_refs g')%nat -> sound (gput ds i (Some g') gv) owners'.
Proof.
  intros Hs Hi Ht Hp Ho Hinit Hc Hpos. constructor.
  - by rewrite (view_gput_same _ _ g).
  - intros j. rewrite (refs_gput _ _ _ _ _ _ Hi). pose proof (children_gput ds i (Some g') gv g j Hi) as Hch.
    simpl in Hch. rewrite Hp in Hch. specialize (Hc j). destruct (decide (j = i)); lia.
  - intros j gj Hj. rewrite (inst_gput _ _ _ _ _ _ Hi) in Hj.
    destruct (decide (j = i)); [naive_solver|by apply (sound_live _ _ Hs j)].
  - intros j gj p Hj Hpj. rewrite (inst_gput _ _ _ _ _ _ Hi) in Hj.
    assert (exists g0, inst gv j = Some g0 /\ ga_type g0 = ga_type gj /\ ga_parent g0 = ga_parent gj)
      as (g0 & H0 & Ht0 & Hp0) by (destruct (decide (j = i)); naive_solver).
    destruct (sound_parent _ _ Hs j g0 p H0 ltac:(congruence)) as (gp & Hgp & Htp). rewrite Ht0 in Htp.
    rewrite (inst_gput _ _ _ _ _ _ Hi). destruct (decide (p = i)) as [->|]; [|by eauto].
    exists g'. split; [done|]. rewrite Ht. naive_solver.
  - intros j gj Hj. rewrite (inst_gput _ _ _ _ _ _ Hi) in Hj.
    destruct (decide (j = i)); [naive_solver|by apply (sound_driver _ _ Hs j)].
Qed.
(** The reference counts may only grow, and the owners shrink accordingly. *)
Lemma put_object_id gv i g : inst gv i = Some g ->
  put_object (gv_drivers gv) i (Some (ga_type g, ga_driver g)) (view_of_gv gv) = view_of_gv gv.
Proof.
  intros Hi%object_inst. unfold put_object. destruct (view_of_gv gv) as [ds os hs] eqn:Hv.
  pose proof (f_equal v_drivers Hv) as Hds. simpl in *. subst ds. f_equal. by apply list_insert_id.
Qed.
Lemma sound_init gv owners i g b : sound gv owners -> inst gv i = Some g ->
  (b = false -> ga_driver g = None) -> sound (gput (gv_drivers gv) i (Some (with_init b g)) gv) owners.
Proof.
  intros Hs Hi Hb. eapply sound_put; [exact Hs|exact Hi|done|done| |done| |exact (sound_live _ _ Hs i g Hi)].
  - simpl. rewrite put_object_id by done. apply (sound_owned _ _ Hs).
  - intros j. pose proof (sound_count _ _ Hs j) as Hc. unfold refs in *. destruct (decide (j = i)) as [->|]; [|done].
    rewrite Hi in Hc. exact Hc.
Qed.
Lemma sound_unref gv owners i g : sound gv (i :: owners) -> inst gv i = Some g -> (1 < ga_refs g)%nat ->
  sound (gput (gv_drivers gv) i (Some (with_refs (ga_refs g - 1) g)) gv) owners.
Proof.
  intros Hs Hi Hr. eapply sound_put; [exact Hs|exact Hi|done|done| | | |simpl; lia].
  - simpl. rewrite put_object_id by done. apply (sound_owned _ _ Hs).
  - exact (sound_driver _ _ Hs i g Hi).
  - intros j. pose proof (sound_count _ _ Hs j) as Hc. simpl in Hc. unfold refs in *.
    destruct (decide (j = i)) as [->|]; [rewrite Hi in Hc; destruct (Nat.eq_dec i i); simpl; lia|].
    destruct (Nat.eq_dec i j); lia.
Qed.
Lemma sound_ref gv owners i g : sound gv owners -> inst gv i = Some g ->
  sound (gput (gv_drivers gv) i (Some (with_refs (S (ga_refs g)) g)) gv) (i :: owners).
Proof.
  intros Hs Hi. eapply sound_put; [exact Hs|exact Hi|done|done| | | |simpl; lia].
  - simpl. rewrite put_object_id by done. apply (sound_owned _ _ Hs).
  - exact (sound_driver _ _ Hs i g Hi).
  - intros j. pose proof (sound_count _ _ Hs j) as Hc. simpl. unfold refs in *.
    destruct (decide (j = i)) as [->|]; [rewrite Hi in Hc; destruct (Nat.eq_dec i i); simpl; lia|].
    destruct (Nat.eq_dec i j); [congruence|lia].
Qed.
(** The last reference: the instance has neither driver nor parent any more. *)
Lemma sound_free gv owners i g : sound gv (i :: owners) -> inst gv i = Some g -> (ga_refs g <= 1)%nat ->
  ga_driver g = None -> ga_parent g = None -> sound (gput (gv_drivers gv) i None gv) owners.
Proof.
  intros Hs Hi Hr Hd Hp.
  assert (count owners i = 0 /\ children gv i = 0)%nat as [Hci Hchi].
  { pose proof (sound_count _ _ Hs i) as Hc. simpl in Hc. unfold refs in Hc. rewrite Hi in Hc.
    destruct (Nat.eq_dec i i); [lia|done]. }
  assert (forall j, children (gput (gv_drivers gv) i None gv) j = children gv j) as Hch.
  { intros j. pose proof (children_gput (gv_drivers gv) i None gv g j Hi) as Hc. simpl in Hc.
    rewrite Hp in Hc. simpl in Hc. lia. }
  constructor.
  - assert (view_of_gv (gput (gv_drivers gv) i None gv) = put_object (gv_drivers gv) i None (view_of_gv gv)) as ->.
    { unfold view_of_gv, put_object, gput; simpl. f_equal; [by rewrite (list_fmap_insert _)|].
      apply list_eq. intros j. rewrite !list_lookup_imap. pose proof Hi as Hi'. apply inst_lookup in Hi'.
      destruct (decide (i = j)) as [<-|Hne]; [|by rewrite list_lookup_insert_ne].
      rewrite list_lookup_insert_eq by (by eapply lookup_lt_Some). rewrite Hi'. simpl. by rewrite Hp. }
    refine (proj1 (owned_drop (view_of_gv gv) i i None None (sound_owned _ _ Hs) _ _ _)); [|..|done].
    { by rewrite (handle_inst _ _ _ Hi), Hp. }
    intros t d Ho _. apply obj_inst in Ho as (g' & Hg' & _ & Hd'). congruence.
  - intros j. rewrite Hch, (refs_gput _ _ _ _ _ _ Hi). pose proof (sound_count _ _ Hs j) as Hc. simpl in Hc.
    destruct (decide (j = i)) as [->|]; [lia|]. destruct (Nat.eq_dec i j); [congruence|lia].
  - intros j gj Hj. rewrite (inst_gput _ _ _ _ _ _ Hi) in Hj. destruct (decide (j = i)); [done|].
    by apply (sound_live _ _ Hs j).
  - intros j gj p Hj Hpj. rewrite (inst_gput _ _ _ _ _ _ Hi) in Hj. destruct (decide (j = i)); [done|].
    destruct (sound_parent _ _ Hs j gj p Hj Hpj) as (gp & Hgp & Ht). exists gp. split; [|done].
    rewrite (inst_gput _ _ _ _ _ _ Hi). destruct (decide (p = i)) as [->|]; [|done].
    by destruct (no_children _ _ _ _ Hchi Hj).
  - intros j gj Hj. rewrite (inst_gput _ _ _ _ _ _ Hi) in Hj. destruct (decide (j = i)); [done|].
    by apply (sound_driver _ _ Hs j).
Qed.
(** An instance without a driver lets go of its parent: the reference is the holder's. *)
Lemma view_with_parent ds i g p gv : inst gv i = Some g ->
  view_of_gv (gput ds i (Some (with_parent p g)) gv) =
    put_protected i p (put_object ds i (Some (ga_type g, ga_driver g)) (view_of_gv gv)).
Proof.
  intros Hi. pose proof Hi as Hi'. apply inst_lookup in Hi'.
  unfold view_of_gv, put_protected, put_object, gput; simpl. f_equal; [by rewrite (list_fmap_insert _)|].
  apply list_eq. intros j. rewrite list_lookup_alter, !list_lookup_imap.
  destruct (decide (i = j)) as [<-|Hne].
  - rewrite list_lookup_insert_eq by (by eapply lookup_lt_Some). by rewrite Hi'.
  - by rewrite list_lookup_insert_ne.
Qed.
Lemma owned_with_parent gv i g p : owned (view_of_gv gv) -> inst gv i = Some g -> ga_driver g = None ->
  owned (view_of_gv (gput (gv_drivers gv) i (Some (with_parent p g)) gv)).
Proof.
  intros Ho Hi Hd. rewrite (view_with_parent _ _ _ _ _ Hi), put_object_id by done.
  apply owned_protect; [done|]. intros b q t d Hx Hb. pose proof (handle_inv _ _ _ _ Hx) as ->.
  apply obj_inst in Hb as (g' & Hg' & _ & Hd'). congruence.
Qed.
Lemma sound_orphan gv owners i g p : sound gv owners -> inst gv i = Some g -> ga_driver g = None ->
  ga_parent g = Some p -> sound (gput (gv_drivers gv) i (Some (with_parent None g)) gv) (p :: owners).
Proof.
  intros Hs Hi Hd Hp. constructor.
  - by apply owned_with_parent; [apply (sound_owned _ _ Hs)|..].
  - intros j. rewrite (refs_gput _ _ _ _ _ _ Hi). pose proof (sound_count _ _ Hs j) as Hc.
    pose proof (children_gput (gv_drivers gv) i (Some (with_parent None g)) gv g j Hi) as Hch. simpl in Hch.
    rewrite Hp in Hch. simpl. unfold refs in *. destruct (decide (j = i)) as [->|].
    + rewrite Hi in Hc. destruct (Nat.eq_dec p i) as [->|].
      * destruct (sound_parent _ _ Hs i g i Hi Hp) as (gp & Hgp & Ht). simplify_eq.
        destruct Ht as [[? ?]|[? ?]]; congruence.
      * simpl. destruct (bool_decide (Some p = Some i)) eqn:Hb; simpl in Hch; [|lia].
        apply bool_decide_eq_true in Hb. congruence.
    + destruct (Nat.eq_dec p j) as [->|Hne].
      * rewrite bool_decide_true in Hch by done. simpl in Hch. lia.
      * rewrite bool_decide_false in Hch by congruence. simpl in Hch. lia.
  - intros j gj Hj. rewrite (inst_gput _ _ _ _ _ _ Hi) in Hj. destruct (decide (j = i)) as [->|].
    + simplify_eq. exact (sound_live _ _ Hs i g Hi).
    + by apply (sound_live _ _ Hs j).
  - intros j gj q Hj Hq. rewrite (inst_gput _ _ _ _ _ _ Hi) in Hj.
    destruct (decide (j = i)); [naive_solver|].
    destruct (sound_parent _ _ Hs j gj q Hj Hq) as (gp & Hgp & Ht). rewrite (inst_gput _ _ _ _ _ _ Hi).
    destruct (decide (q = i)) as [->|]; [|by eauto]. simplify_eq. by eexists.
  - intros j gj Hj. rewrite (inst_gput _ _ _ _ _ _ Hi) in Hj.
    destruct (decide (j = i)); [|by apply (sound_driver _ _ Hs j)]. simplify_eq. exact (sound_driver _ _ Hs i g Hi).
Qed.
(** A new instance belongs to its creator. *)
Definition gnew (t : struct_type) (gv : GView) : GView :=
  mkGView (gv_drivers gv) (gv_objects gv ++ [Some (mkGA t 1 false None None)]).
Lemma inst_gnew t gv j : inst (gnew t gv) j =
  if decide (j = length (gv_objects gv)) then Some (mkGA t 1 false None None) else inst gv j.
Proof.
  unfold inst, gnew; simpl. destruct (decide (j = length (gv_objects gv))) as [->|Hne].
  - by rewrite list_lookup_middle.
  - destruct (decide (j < length (gv_objects gv))%nat).
    + by rewrite lookup_app_l.
    + rewrite !(lookup_ge_None_2 _ j); [done|lia|rewrite length_app; simpl; lia].
Qed.
Lemma inst_lt gv i g : inst gv i = Some g -> (i < length (gv_objects gv))%nat.
Proof. intros Hi%inst_lookup. by eapply lookup_lt_Some. Qed.
Lemma sound_new gv owners t : sound gv owners -> sound (gnew t gv) (length (gv_objects gv) :: owners).
Proof.
  intros Hs. assert (forall j, children (gnew t gv) j = children gv j) as Hch.
  { intros j. unfold children, gnew; simpl. rewrite List.filter_app, length_app. simpl. lia. }
  constructor.
  - assert (view_of_gv (gnew t gv) = add_handle (Some (t, None)) None (view_of_gv gv)) as ->.
    { unfold view_of_gv, gnew, add_handle; simpl. rewrite map_app, imap_app. simpl.
      by rewrite Nat.add_0_r, length_map. }
    apply owned_add; [apply (sound_owned _ _ Hs)|done].
  - intros j. rewrite Hch. pose proof (sound_count _ _ Hs j) as Hc. unfold refs in *. rewrite inst_gnew.
    simpl. destruct (Nat.eq_dec (length (gv_objects gv)) j) as [<-|Hne].
    + rewrite decide_True by done. simpl. destruct (inst gv _) eqn:Hi in Hc; [apply inst_lt in Hi; lia|lia].
    + by rewrite decide_False.
  - intros j gj Hj. rewrite inst_gnew in Hj. destruct (decide _); [injection Hj as <-; simpl; lia|by apply (sound_live _ _ Hs j)].
  - intros j gj p Hj Hp. rewrite inst_gnew in Hj. destruct (decide _); [naive_solver|].
    destruct (sound_parent _ _ Hs j gj p Hj Hp) as (gp & Hgp & Ht). exists gp. split; [|done].
    rewrite inst_gnew. destruct (decide _) as [->|]; [|done]. apply inst_lt in Hgp. lia.
  - intros j gj Hj. rewrite inst_gnew in Hj. destruct (decide _); [naive_solver|by apply (sound_driver _ _ Hs j)].
Qed.
(** A child adopts its parent together with the parent's table. *)
Lemma sound_adopt gv owners i g p gp d : sound gv owners -> inst gv i = Some g -> ga_driver g = None ->
  ga_init g = true -> ga_parent g = None -> inst gv p = Some gp -> parent_type (ga_type g) (ga_type gp) ->
  (d = None \/ d = ga_driver gp) ->
  sound (gput (gv_drivers gv) p (Some (with_refs (S (ga_refs gp)) gp))
           (gput (gv_drivers gv) i (Some (with_parent (Some p) (with_driver d g))) gv)) owners.
Proof.
  intros Hs Hi Hd Hin Hnone Hp Ht Hdp.
  assert (p <> i) as Hpi by (intros ->; simplify_eq; destruct Ht as [[? ?]|[? ?]]; congruence).
  set (g' := with_parent (Some p) (with_driver d g)).
  set (gv0 := gput (gv_drivers gv) i (Some (with_parent (Some p) g)) gv).
  assert (gput (gv_drivers gv) i (Some g') gv = gput (gv_drivers gv0) i (Some g') gv0) as Hgv.
  { unfold gput, gv0; simpl. by rewrite list_insert_insert_eq. }
  assert (inst gv0 i = Some (with_parent (Some p) g) /\ inst gv0 p = Some gp) as [Hi0 Hp0].
  { unfold gv0. rewrite !(inst_gput _ _ _ _ _ _ Hi). by rewrite decide_True, decide_False. }
  set (gv1 := gput (gv_drivers gv) i (Some g') gv) in *.
  assert (owned (view_of_gv gv1)) as Ho.
  { pose proof (owned_with_parent gv i g (Some p) (sound_owned _ _ Hs) Hi Hd) as Ho. fold gv0 in Ho.
    rewrite Hgv, (view_gput_same _ _ _ _ _ Hi0) by done. simpl.
    destruct d as [d|]; [|pose proof (put_object_id gv0 i _ Hi0) as Heq; simpl in Heq; rewrite Hd in Heq; by rewrite Heq].
    destruct Hdp as [?|Hdp]; [done|].
    apply (owned_child (view_of_gv gv0) i (ga_type g) d i p p (ga_type gp) (ga_parent gp)); [done|..|done].
    - rewrite (object_inst _ _ _ Hi0). simpl. by rewrite Hd.
    - by rewrite (handle_inst _ _ _ Hi0).
    - by rewrite (handle_inst _ _ _ Hp0).
    - apply obj_inst. by exists gp. }
  assert (inst gv1 p = Some gp) as Hp1 by (unfold gv1; by rewrite (inst_gput _ _ _ _ _ _ Hi), decide_False).
  assert (forall j gj, inst gv1 j = Some gj -> j <> i -> inst gv j = Some gj) as Hold.
  { intros j gj Hj Hne. unfold gv1 in Hj. by rewrite (inst_gput _ _ _ _ _ _ Hi), decide_False in Hj. }
  assert (inst gv1 i = Some g') as Hi1 by (unfold gv1; by rewrite (inst_gput _ _ _ _ _ _ Hi), decide_True).
  constructor.
  - rewrite (view_gput_same _ _ gp) by done. pose proof (put_object_id gv1 p gp Hp1) as Heq.
    simpl in *. by rewrite Heq.
  - intros j. rewrite (refs_gput _ _ _ _ _ _ Hp1). pose proof (sound_count _ _ Hs j) as Hc.
    pose proof (children_gput (gv_drivers gv) p (Some (with_refs (S (ga_refs gp)) gp)) gv1 gp j Hp1) as H1.
    pose proof (children_gput (gv_drivers gv) i (Some g') gv g j Hi) as H2. fold gv1 in H2. simpl in H1, H2. rewrite Hnone in H2. simpl in H2.
    assert (refs gv1 j = refs gv j) as Hr.
    { unfold gv1. rewrite (refs_gput _ _ _ _ _ _ Hi). unfold refs. destruct (decide (j = i)) as [->|]; [by rewrite Hi|done]. }
    destruct (decide (j = p)) as [->|Hne].
    + unfold refs in Hc. rewrite Hp in Hc. simpl. rewrite (bool_decide_true (Some p = Some p)) in H2 by done. simpl in H2. lia.
    + rewrite Hr. rewrite (bool_decide_false (Some p = Some j)) in H2 by congruence. simpl in H2. lia.
  - intros j gj Hj. rewrite (inst_gput _ _ _ _ _ _ Hp1) in Hj. destruct (decide (j = p)); [simplify_eq; simpl; lia|].
    destruct (decide (j = i)) as [->|Hne]; [|exact (sound_live _ _ Hs j gj (Hold _ _ Hj Hne))].
    rewrite Hi1 in Hj. injection Hj as <-. exact (sound_live _ _ Hs i g Hi).
  - intros j gj q Hj Hq. rewrite (inst_gput _ _ _ _ _ _ Hp1) in Hj.
    assert (exists gj0, inst gv1 j = Some gj0 /\ ga_type gj0 = ga_type gj /\ ga_parent gj0 = Some q) as (gj0 & Hj0 & Htj & Hqj).
    { destruct (decide (j = p)) as [->|]; [|by exists gj]. simplify_eq. by exists gp. }
    assert (exists gq, inst gv1 q = Some gq /\ parent_type (ga_type gj0) (ga_type gq)) as (gq & Hgq & Hpt).
    { destruct (decide (j = i)) as [->|Hne].
      - rewrite Hi1 in Hj0. injection Hj0 as <-. injection Hqj as <-. by exists gp.
      - destruct (sound_parent _ _ Hs j gj0 q (Hold _ _ Hj0 Hne) Hqj) as (gq & Hgq & Hpt).
        destruct (decide (q = i)) as [->|]; [|exists gq; split; [unfold gv1; by rewrite (inst_gput _ _ _ _ _ _ Hi), decide_False|done]].
        simplify_eq. by exists g'. }
    rewrite Htj in Hpt. rewrite (inst_gput _ _ _ _ _ _ Hp1).
    destruct (decide (q = p)) as [->|]; [|by eauto]. simplify_eq. by eexists.
  - intros j gj Hj. rewrite (inst_gput _ _ _ _ _ _ Hp1) in Hj. destruct (decide (j = p)) as [->|].
    + simplify_eq. exact (sound_driver _ _ Hs p gp Hp).
    + destruct (decide (j = i)) as [->|Hne]; [|exact (sound_driver _ _ Hs j gj (Hold _ _ Hj Hne))].
      simplify_eq. simpl. congruence.
Qed.
(** A call may take the driver away, or keep it. *)
Lemma sound_call gv owners ds i g d : sound gv owners -> inst gv i = Some g ->
  owned (put_object ds i (Some (ga_type g, d)) (view_of_gv gv)) -> (ga_init g = false -> d = None) ->
  sound (gput ds i (Some (with_driver d g)) gv) owners.
Proof.
  intros Hs Hi Ho Hd. eapply sound_put; [exact Hs|exact Hi|done..| |exact (sound_live _ _ Hs i g Hi)].
  intros j. pose proof (sound_count _ _ Hs j) as Hc. unfold refs in *. destruct (decide (j = i)) as [->|]; [|done].
  by rewrite Hi in Hc.
Qed.
Lemma sound_childless gv owners i g : sound gv (i :: owners) -> inst gv i = Some g -> (ga_refs g <= 1)%nat ->
  children gv i = 0%nat.
Proof.
  intros Hs Hi Hr. pose proof (sound_count _ _ Hs i) as Hc. simpl in Hc. unfold refs in Hc. rewrite Hi in Hc.
  destruct (Nat.eq_dec i i); [lia|done].
Qed.

(** ** Children that are letting go of their parents do not count *)
Definition erase (e : list nat) (gv : GView) : GView :=
  mkGView (gv_drivers gv)
    (imap (fun i o => if bool_decide (i ∈ e) then with_parent None <$> o else o) (gv_objects gv)).
Lemma erase_nil gv : erase [] gv = gv.
Proof.
  unfold erase. destruct gv as [ds os]; simpl. f_equal. apply list_eq. intros j. rewrite list_lookup_imap.
  by destruct (os !! j).
Qed.
Lemma inst_erase e gv i : inst (erase e gv) i =
  (fun g => if bool_decide (i ∈ e) then with_parent None g else g) <$> inst gv i.
Proof.
  unfold inst, erase; simpl. rewrite list_lookup_imap. destruct (gv_objects gv !! i) as [[g|]|]; simpl; [..|done];
    by destruct (bool_decide _).
Qed.
Lemma inst_unerased e gv i : i ∉ e -> inst (erase e gv) i = inst gv i.
Proof. intros Hi. rewrite inst_erase, bool_decide_false by done. by destruct (inst gv i). Qed.
Lemma erase_gput e ds i o gv : i ∉ e -> erase e (gput ds i o gv) = gput ds i o (erase e gv).
Proof.
  intros Hi. unfold erase, gput; simpl. f_equal. apply list_eq. intros j. rewrite list_lookup_imap.
  destruct (decide (i = j)) as [<-|Hne].
  - destruct (decide (i < length (gv_objects gv))%nat) as [Hlt|Hge].
    + rewrite !list_lookup_insert_eq by (rewrite ?length_imap; done). simpl. by rewrite bool_decide_false.
    + rewrite !(lookup_ge_None_2 _ i) by (rewrite ?length_insert, ?length_imap; lia). done.
  - rewrite !list_lookup_insert_ne by done. by rewrite list_lookup_imap.
Qed.
Lemma erase_cons e i g gv : i ∉ e -> inst gv i = Some g ->
  erase (i :: e) gv = gput (gv_drivers gv) i (Some (with_parent None g)) (erase e gv).
Proof.
  intros Hi Hg%inst_lookup. unfold erase, gput; simpl. f_equal. apply list_eq. intros j.
  rewrite list_lookup_imap. destruct (decide (i = j)) as [<-|Hne].
  - rewrite list_lookup_insert_eq by (rewrite length_imap; by eapply lookup_lt_Some). rewrite Hg. simpl.
    by rewrite bool_decide_true by (by left).
  - rewrite list_lookup_insert_ne, list_lookup_imap by done. destruct (gv_objects gv !! j); [|done]. simpl.
    destruct (bool_decide (j ∈ e)) eqn:Hj.
    + apply bool_decide_eq_true in Hj. by rewrite bool_decide_true by (by right).
    + apply bool_decide_eq_false in Hj. rewrite bool_decide_false; [done|]. set_solver.
Qed.
(** The parent is gone. *)
Lemma erase_orphaned e i g gv : i ∉ e -> inst gv i = Some g -> ga_parent g = None ->
  erase (i :: e) gv = erase e gv.
Proof.
  intros Hi Hg Hp. rewrite (erase_cons _ _ g) by done. unfold gput. destruct (erase e gv) as [ds os] eqn:He.
  pose proof (f_equal gv_drivers He) as Hds. simpl in *. subst ds. f_equal. apply list_insert_id.
  pose proof (inst_unerased e gv i Hi) as Hie. rewrite Hg in Hie. apply inst_lookup in Hie. rewrite He in Hie.
  simpl in Hie. rewrite Hie. unfold with_parent. rewrite <- Hp. by destruct g.
Qed.

(** * The code *)
(** A release takes the driver away; a database's may delete its table. *)
Definition releases {D P A} `{L : !Loader D P A} (t : struct_type) (m : M (OState D P A) unit) : Prop :=
  forall u, leaves m (fun r => r.2 = None /\
    (r.1 = (own u).1 \/ t = TDatabase /\ exists d, (own u).2 = Some d /\ r.1 = <[d := false]> (own u).1)) u.
Section releases.
  Context {D P A : Type} `{L : !Loader D P A}.
Lemma database_releases : releases TDatabase (AdbcDatabaseRelease (L := L)).
Proof.
  intros u. eapply leaves_conseq; [apply database_release_leaves|]. intros o ->.
  generalize (own u). intros [ds [d|]]; (split; [done|]); [right|by left]. split; [done|]. by exists d.
Qed.
Lemma connection_releases : releases TConnection (AdbcConnectionRelease (L := L)).
Proof. intros u. eapply leaves_conseq; [apply connection_release_leaves|]. intros o <-. auto. Qed.
Lemma statement_releases : releases TStatement (AdbcStatementRelease (L := L)).
Proof. intros u. eapply leaves_conseq; [apply statement_release_leaves|]. intros o <-. auto. Qed.
End releases.
Lemma release_owned gv i g ds : owned (view_of_gv gv) -> inst gv i = Some g ->
  (ga_type g <> TStatement -> ~ guarded (view_of_gv gv) i) ->
  (ds = gv_drivers gv \/ ga_type g = TDatabase /\ exists d, ga_driver g = Some d /\ ds = <[d := false]> (gv_drivers gv)) ->
  owned (put_object ds i (Some (ga_type g, None)) (view_of_gv gv)).
Proof.
  intros Ho Hi Hg Hds.
  destruct (owned_drop (view_of_gv gv) i i (ga_parent g) (Some (ga_type g, None)) Ho) as [Hdrop Hdel]; [| |done|].
  - by rewrite (handle_inst _ _ _ Hi).
  - intros t d Hb Ht. apply Hg. apply obj_inst in Hb as (g' & Hg' & <- & _). congruence.
  - destruct Hds as [->|(Ht & d & Hd & ->)]; [exact Hdrop|]. apply Hdel. apply obj_inst. by exists g.
Qed.

Section session.
  Context {D P : Type} `{L : !Loader D P (glib_args P)}.

Abbreviation GS := (GS (L := L)).
Abbreviation OState := (OState D P (glib_args P)).

Definition ga_of (o : GObject (L := L)) : GA :=
  mkGA (go_type o) (go_ref_count o) (go_initialized o) (ob_driver (go_adbc o)) (go_parent o).
Definition abs (s : GS) : GView :=
  mkGView (live_tables (gs_drivers s)) (map (fun o => ga_of <$> o) (gs_objects s)).
Lemma inst_abs s i o : gs_objects s !! i = Some (Some o) -> inst (abs s) i = Some (ga_of o).
Proof. intros Hi. unfold inst, abs; simpl. by rewrite list_lookup_fmap, Hi. Qed.
Lemma abs_put s w ds i o ss out e ws :
  abs (mkGS w ds (<[i := o]> (gs_objects s)) ss out e ws) = gput (live_tables ds) i (ga_of <$> o) (abs s).
Proof. unfold abs, gput; simpl. f_equal. apply (list_fmap_insert (fun o => ga_of <$> o)). Qed.

Lemma gobject_at_wlp i (Q : GObject (L := L) -> GS -> Prop) E s :
  (forall o, gs_objects s !! i = Some (Some o) -> inst (abs s) i = Some (ga_of o) -> Q o s) -> wlp (gobject_at i) Q E s.
Proof.
  intros HQ. unfold wlp, gobject_at, mbind, M_bind, gets, lift_opt; simpl.
  destruct (gs_objects s !! i) as [[o|]|] eqn:Hi; simpl; [|done..]. apply HQ; [done|by apply inst_abs].
Qed.
Lemma instance_wlp t i (Q : GObject (L := L) -> GS -> Prop) E s :
  (forall o, gs_objects s !! i = Some (Some o) -> inst (abs s) i = Some (ga_of o) -> go_type o = t -> Q o s) ->
  wlp (instance t i) Q E s.
Proof.
  intros HQ. unfold instance. apply wlp_bind, gobject_at_wlp. intros o Ho Hi.
  destruct (decide (go_type o = t)); [by apply HQ|done].
Qed.
Lemma put_gobject_wlp i o (Q : unit -> GS -> Prop) E s :
  (forall t, abs t = gput (gv_drivers (abs s)) i (ga_of <$> o) (abs s) -> Q tt t) -> wlp (put_gobject i o) Q E s.
Proof. intros HQ. apply HQ. apply abs_put. Qed.
(** The setters of an instance's fields. *)
Lemma setter_wlp i (f : GObject (L := L) -> GObject (L := L)) (F : GA -> GA) (Q : unit -> GS -> Prop) E s :
  (forall o, ga_of (f o) = F (ga_of o)) ->
  (forall g t, inst (abs s) i = Some g -> abs t = gput (gv_drivers (abs s)) i (Some (F g)) (abs s) -> Q tt t) ->
  wlp (o ← gobject_at i; put_gobject i (Some (f o))) Q E s.
Proof.
  intros Hf HQ. apply wlp_bind, gobject_at_wlp. intros o _ Hi. apply put_gobject_wlp. intros t Ht.
  eapply HQ; [done|]. rewrite Ht. simpl. by rewrite Hf.
Qed.
Lemma set_initialized_wlp i b (Q : unit -> GS -> Prop) E s :
  (forall g t, inst (abs s) i = Some g -> abs t = gput (gv_drivers (abs s)) i (Some (with_init b g)) (abs s) -> Q tt t) ->
  wlp (set_initialized i b) Q E s.
Proof. by apply setter_wlp. Qed.
Lemma set_parent_wlp i p (Q : unit -> GS -> Prop) E s :
  (forall g t, inst (abs s) i = Some g -> abs t = gput (gv_drivers (abs s)) i (Some (with_parent p g)) (abs s) -> Q tt t) ->
  wlp (set_parent i p) Q E s.
Proof. by apply setter_wlp. Qed.
Lemma set_ref_count_wlp i n (Q : unit -> GS -> Prop) E s :
  (forall g t, inst (abs s) i = Some g -> abs t = gput (gv_drivers (abs s)) i (Some (with_refs n g)) (abs s) -> Q tt t) ->
  wlp (set_ref_count i n) Q E s.
Proof. by apply setter_wlp. Qed.
Lemma call_adbc_wlp i m (I : GView -> Prop) (Q : Z * AdbcError -> GS -> Prop) E s :
  (forall g u, inst (abs s) i = Some g -> own u = (gv_drivers (abs s), ga_driver g) ->
     leaves m (fun r => I (gput r.1 i (Some (with_driver r.2 g)) (abs s))) u) ->
  (forall r t, I (abs t) -> Q r t) -> wlp (call_adbc i m) Q E s.
Proof.
  intros Hm HQ. unfold call_adbc. apply wlp_bind, gobject_at_wlp. intros o _ Hi.
  specialize (Hm (ga_of o) (mkMS (Some zero_error) (gs_world s) (gs_drivers s), go_adbc o) Hi eq_refl).
  unfold leaves, wlp in *. destruct (m _) as [[] [ms o']|c [ms o']| |]; [..|done|done]; simpl;
    apply HQ; rewrite abs_put; exact Hm.
Qed.
(** Reporting an error leaves the instances alone. *)
Lemma keeps_g_set_error code message : keeps abs (g_set_error (L := L) code message).
Proof. intros s. unfold g_set_error, mbind, M_bind, gets; simpl. by destruct (gs_error s) as [[|]|]. Qed.
Lemma keeps_error_check code e c : keeps abs (gadbc_error_check (L := L) code e c).
Proof.
  unfold gadbc_error_check. destruct (_ =? _); [apply keeps_ret|].
  apply keeps_bind; [apply keeps_g_set_error|intros _]. apply keeps_bind; [|intros _; apply keeps_ret].
  unfold release_error. destruct (err_release e); [apply keeps_ret|apply keeps_undef].
Qed.
Lemma keeps_glib_warn code e c : keeps abs (gadbc_error_warn (L := L) code e c).
Proof.
  unfold gadbc_error_warn. destruct (_ =? _); [apply keeps_ret|].
  apply keeps_bind; [by intros s|intros _].
  unfold release_error. destruct (err_release e); [apply keeps_ret|apply keeps_undef].
Qed.
Lemma keeps_instance t i : keeps abs (instance (L := L) t i).
Proof. unfold instance, gobject_at. solve_keeps. Qed.
Lemma keeps_get_raw t what i c : keeps abs (get_raw (L := L) t what i c).
Proof.
  unfold get_raw. apply keeps_bind; [apply keeps_instance|intros o].
  destruct (go_initialized o); [apply keeps_ret|].
  apply keeps_bind; [apply keeps_g_set_error|intros _; apply keeps_ret].
Qed.

(** ** Dropping references *)

(** [i]'s reference is dropped; the instances in [e] are let alone. *)
Definition drops (e : list nat) (owners : list nat) (i : nat) (m : M GS unit) (s : GS) : Prop :=
  sound (erase e (abs s)) (i :: owners) ->
  wlp m (fun _ t => sound (erase e (abs t)) owners /\ forall j, j ∈ e -> inst (abs t) j = inst (abs s) j)
    (fun _ _ => True) s.
Lemma gv_drivers_erase e gv : gv_drivers (erase e gv) = gv_drivers gv.
Proof. done. Qed.
(** What disposing must achieve: no driver, no parent, nothing else touched. *)
Definition disposes (e : list nat) (owners : list nat) (i : nat) (m : M GS unit) (s : GS) : Prop :=
  wlp m (fun _ t => sound (erase e (abs t)) (i :: owners) /\
      (forall j, j ∈ e -> inst (abs t) j = inst (abs s) j) /\
      exists g, inst (abs t) i = Some g /\ (ga_refs g <= 1)%nat /\ ga_driver g = None /\ ga_parent g = None)
    (fun _ _ => True) s.
Lemma unref_drops e owners i g dispose s : i ∉ e -> inst (abs s) i = Some g ->
  (sound (erase e (abs s)) (i :: owners) -> (ga_refs g <= 1)%nat -> disposes e owners i dispose s) ->
  drops e owners i (unref_with i dispose) s.
Proof.
  intros Hie Hg Hdis Hs. unfold unref_with. apply wlp_bind, gobject_at_wlp. intros o Ho Hi.
  rewrite Hi in Hg. simplify_eq. simpl in Hdis. destruct (Nat.ltb_spec 1 (go_ref_count o)) as [Hr|Hr].
  - apply set_ref_count_wlp. intros g t Hg Ht. rewrite Hi in Hg. simplify_eq. split.
    + rewrite Ht, erase_gput, <- (gv_drivers_erase e) by done.
      apply (sound_unref _ owners i (ga_of o)); [done|by rewrite inst_unerased|done].
    + intros j Hj. rewrite Ht, (inst_gput _ _ _ _ _ _ Hi), decide_False; [done|]. by intros ->.
  - apply wlp_bind. eapply wlp_conseq; [by apply Hdis| |done].
    intros [] t (Ht & Hframe & g & Hgt & Hr1 & Hd & Hp). apply put_gobject_wlp. intros t' Ht'. split.
    + rewrite Ht', erase_gput, <- (gv_drivers_erase e) by done.
      apply (sound_free _ owners i g); [done|by rewrite inst_unerased|done..].
    + intros j Hj. rewrite Ht', (inst_gput _ _ _ _ _ _ Hgt), decide_False; [by apply Hframe|]. by intros ->.
Qed.
(** The release in a finalizer, its instance's last reference being dropped. *)
Lemma dispose_release e owners i g release context s : i ∉ e -> releases (ga_type g) release ->
  inst (abs s) i = Some g -> sound (erase e (abs s)) (i :: owners) -> (ga_refs g <= 1)%nat ->
  wlp (if ga_init g then r ← call_adbc i release; gadbc_error_warn r.1 r.2 context else mret tt)
    (fun _ t => exists ds, abs t = gput ds i (Some (with_driver None g)) (abs s) /\
       sound (erase e (abs t)) (i :: owners)) (fun _ _ => True) s.
Proof.
  intros Hie Hrel Hg Hs Hr. destruct (ga_init g) eqn:Hin.
  - apply wlp_bind. apply (call_adbc_wlp i release (fun v => exists ds,
      v = gput ds i (Some (with_driver None g)) (abs s) /\ sound (erase e v) (i :: owners))).
    + intros g' u Hg' Hu. rewrite Hg in Hg'. simplify_eq. eapply leaves_conseq; [apply Hrel|].
      intros [ds d] [Hd Hds]; cbn [fst snd] in *. subst d. rewrite Hu in Hds; cbn [fst snd] in Hds.
      exists ds. split; [done|]. rewrite erase_gput by done. apply sound_call; [done|by rewrite inst_unerased| |done].
      apply release_owned; [apply (sound_owned _ _ Hs)|by rewrite inst_unerased| |].
      * intros _. apply unguarded_childless. eapply sound_childless; [exact Hs|by rewrite inst_unerased|done].
      * destruct Hds as [->|(? & d & ? & ->)]; [by left|right]. split; [done|]. by exists d.
    + intros r t Ht. eapply wlp_keeps; [apply keeps_glib_warn| |done]. intros _ t' ->. exact Ht.
  - unfold wlp, mret, M_ret. exists (gv_drivers (abs s)).
    assert (abs s = gput (gv_drivers (abs s)) i (Some (with_driver None g)) (abs s)) as Heq; [|by rewrite <- Heq].
    pose proof (sound_driver _ _ Hs i g) as Hd. rewrite inst_unerased in Hd by done. specialize (Hd Hg Hin).
    unfold gput. destruct (abs s) as [ds os] eqn:Ha. simpl. f_equal. symmetry. apply list_insert_id.
    apply inst_lookup in Hg. simpl in Hg. rewrite Hg. unfold with_driver. rewrite <- Hd. by destruct g.
Qed.
Lemma with_driver_type d g : ga_type (with_driver d g) = ga_type g.
Proof. done. Qed.
Lemma database_unref_drops e owners i g s : i ∉ e -> inst (abs s) i = Some g -> ga_type g = TDatabase ->
  ga_parent g = None -> drops e owners i (database_unref i) s.
Proof.
  intros Hie Hg Ht Hp. eapply unref_drops; [done..|]. intros Hs Hr. unfold gadbc_database_finalize.
  unfold disposes. apply wlp_bind, instance_wlp. intros o _ Hi Hto. rewrite Hi in Hg. simplify_eq.
  eapply wlp_conseq; [apply (dispose_release e owners i (ga_of o) AdbcDatabaseRelease); [done| |done..]| |done].
  { simpl. rewrite Hto. apply database_releases. }
  intros _ t (ds & Habs & Hst). split; [done|]. split.
  - intros j Hj. rewrite Habs, (inst_gput _ _ _ _ _ _ Hi), decide_False; [done|]. by intros ->.
  - exists (with_driver None (ga_of o)). rewrite Habs, (inst_gput _ _ _ _ _ _ Hi), decide_True by done. done.
Qed.

(** Letting go of the parent. *)
Definition disposed (e owners : list nat) (i : nat) (s : GS) (t : GS) : Prop :=
  sound (erase e (abs t)) (i :: owners) /\ (forall j, j ∈ e -> inst (abs t) j = inst (abs s) j) /\
  exists g, inst (abs t) i = Some g /\ (ga_refs g <= 1)%nat /\ ga_driver g = None /\ ga_parent g = None.
Lemma let_go e owners i g p unref s : i ∉ e -> inst (abs s) i = Some g -> ga_driver g = None ->
  ga_parent g = Some p -> (ga_refs g <= 1)%nat -> sound (erase e (abs s)) (i :: owners) ->
  drops (i :: e) (i :: owners) p unref s ->
  wlp (unref ;; set_parent i None) (fun _ t => disposed e owners i s t) (fun _ _ => True) s.
Proof.
  intros Hie Hg Hd Hp Hr Hs Hunref.
  assert (sound (erase (i :: e) (abs s)) (p :: i :: owners)) as Hs1.
  { rewrite (erase_cons _ _ g), <- (gv_drivers_erase e) by done.
    by apply sound_orphan; [|rewrite inst_unerased|..]. }
  apply wlp_bind. eapply wlp_conseq; [by apply Hunref| |done]. intros [] t [Ht Hframe].
  assert (inst (abs t) i = Some g) as Hgt by (rewrite Hframe by (by left); done).
  apply set_parent_wlp. intros g' t' Hg' Ht'. rewrite Hgt in Hg'. injection Hg' as <-. split; [|split].
  - rewrite Ht', erase_gput, <- (erase_cons _ _ g) by done. exact Ht.
  - intros j Hj. rewrite Ht', (inst_gput _ _ _ _ _ _ Hgt), decide_False; [by apply Hframe; right|]. by intros ->.
  - exists (with_parent None g). by rewrite Ht', (inst_gput _ _ _ _ _ _ Hgt), decide_True.
Qed.
(** The parent of an instance that counts. *)
Lemma parent_inst e owners i g p s : sound (erase e (abs s)) owners -> i ∉ e -> inst (abs s) i = Some g ->
  ga_parent g = Some p -> exists gp, inst (abs s) p = Some gp /\ parent_type (ga_type g) (ga_type gp).
Proof.
  intros Hs Hie Hg Hp. rewrite <- (inst_unerased e) in Hg by done.
  destruct (sound_parent _ _ Hs i g p Hg Hp) as (gp & Hgp & Ht). rewrite inst_erase in Hgp.
  destruct (inst (abs s) p) as [gp0|]; [|done]. exists gp0. split; [done|]. simpl in Hgp.
  destruct (bool_decide (p ∈ e)); by simplify_eq.
Qed.
Lemma database_orphan e owners i g s : sound (erase e (abs s)) owners -> i ∉ e -> inst (abs s) i = Some g ->
  ga_type g = TDatabase -> ga_parent g = None.
Proof.
  intros Hs Hie Hg Ht. destruct (ga_parent g) as [p|] eqn:Hp; [|done].
  destruct (parent_inst _ _ _ _ _ _ Hs Hie Hg Hp) as (gp & _ & [[? _]|[? _]]); congruence.
Qed.
Definition only (t : struct_type) (e : list nat) (s : GS) : Prop :=
  forall j g, j ∈ e -> inst (abs s) j = Some g -> ga_type g = t.

Lemma connection_unref_drops e owners i g s : i ∉ e -> inst (abs s) i = Some g -> ga_type g = TConnection ->
  only TStatement e s -> drops e owners i (connection_unref i) s.
Proof.
  intros Hie Hg Ht He. eapply unref_drops; [done..|]. intros Hs Hr. unfold gadbc_connection_dispose.
  unfold disposes. apply wlp_bind, instance_wlp. intros o _ Hi Hto. rewrite Hi in Hg. simplify_eq.
  apply wlp_bind. eapply wlp_conseq; [apply (dispose_release e owners i (ga_of o) AdbcConnectionRelease); [done| |done..]| |done].
  { simpl. rewrite Hto. apply connection_releases. }
  intros _ t (ds & Habs & Hst).
  assert (inst (abs t) i = Some (with_driver None (ga_of o))) as Hit by (by rewrite Habs, (inst_gput _ _ _ _ _ _ Hi), decide_True).
  assert (forall j, j <> i -> inst (abs t) j = inst (abs s) j) as Hframe.
  { intros j Hj. by rewrite Habs, (inst_gput _ _ _ _ _ _ Hi), decide_False. }
  destruct (go_parent o) as [p|] eqn:Hp.
  - eapply wlp_conseq; [apply (let_go e owners i (with_driver None (ga_of o)) p); [done..|]| |done].
    + destruct (parent_inst _ _ _ _ p _ Hst Hie Hit) as (gp & Hgp & Htp); [done|].
      simpl in Htp. rewrite Hto in Htp. destruct Htp as [[_ Htp]|[? _]]; [|done].
      assert (p <> i) as Hpi by (intros ->; rewrite Hit in Hgp; simplify_eq; simpl in Htp; congruence).
      assert (p ∉ i :: e) as Hpe.
      { intros [?|Hin]%elem_of_cons; [done|]. rewrite Hframe in Hgp by done.
        specialize (He p gp Hin Hgp). congruence. }
      intros Hs'. apply (database_unref_drops (i :: e) (i :: owners) p gp); [done..| |done].
      eapply database_orphan; [exact Hs'|done..].
    + intros [] t' (Hs' & Hf' & Hex). split; [done|]. split; [|done].
      intros j Hj. rewrite Hf', Hframe; [done|by intros ->|done].
  - unfold wlp, mret, M_ret. split; [done|]. split; [intros j Hj; apply Hframe; by intros ->|].
    exists (with_driver None (ga_of o)). by rewrite Hit.
Qed.
Lemma wlp_assoc {S A B C} (m : M S A) (w : A -> M S B) (k : B -> M S C) (Q : C -> S -> Prop) E s :
  wlp ((m ≫= w) ≫= k) Q E s -> wlp (m ≫= fun a => w a ≫= k) Q E s.
Proof. unfold wlp, mbind, M_bind. by destruct (m s). Qed.
Lemma statement_unref_drops i owners g s : inst (abs s) i = Some g -> ga_type g = TStatement ->
  drops [] owners i (statement_unref i) s.
Proof.
  intros Hg Ht. eapply unref_drops; [set_solver|done|]. intros Hs Hr. unfold gadbc_statement_dispose.
  unfold disposes. apply wlp_bind, instance_wlp. intros o _ Hi Hto. rewrite Hi in Hg. simplify_eq.
  apply wlp_bind. pose proof (dispose_release [] owners i (ga_of o) AdbcStatementRelease
    "[adbc][statement][finalize]" s ltac:(set_solver) ltac:(simpl; rewrite Hto; apply statement_releases) Hi Hs Hr) as Hw.
  simpl in Hw.
  assert (wlp (if go_initialized o then r ← call_adbc i AdbcStatementRelease;
                 gadbc_error_warn r.1 r.2 "[adbc][statement][finalize]" ;; set_initialized i false
               else mret tt)
    (fun _ t => sound (erase [] (abs t)) (i :: owners) /\ exists b, inst (abs t) i = Some (with_init b (with_driver None (ga_of o))))
    (fun _ _ => True) s) as Hrel.
  { destruct (go_initialized o).
    - apply wlp_assoc, wlp_bind. eapply wlp_conseq; [exact Hw| |done]. intros [] t (ds & Habs & Hst).
      assert (inst (abs t) i = Some (with_driver None (ga_of o))) as Hit by (by rewrite Habs, (inst_gput _ _ _ _ _ _ Hi), decide_True).
      apply set_initialized_wlp. intros g' t' Hg' Ht'. rewrite Hit in Hg'. simplify_eq. rewrite erase_nil in *. split.
      + rewrite Ht'. by apply sound_init.
      + exists false. by rewrite Ht', (inst_gput _ _ _ _ _ _ Hit), decide_True.
    - eapply wlp_conseq; [exact Hw| |done]. intros [] t (ds & Habs & Hst). split; [done|].
      exists (go_initialized o). by rewrite Habs, (inst_gput _ _ _ _ _ _ Hi), decide_True. }
  eapply wlp_conseq; [exact Hrel| |done]. intros [] t (Hst & b & Hit). clear Hw Hrel.
  destruct (go_parent o) as [p|] eqn:Hp.
  - eapply wlp_conseq; [eapply (let_go [] owners i _ p); [apply not_elem_of_nil|exact Hit|done..|]| |done].
    + destruct (parent_inst _ _ _ _ p _ Hst (not_elem_of_nil i) Hit) as (gp & Hgp & Htp); [done|].
      simpl in Htp. rewrite Hto in Htp. destruct Htp as [[? _]|[_ Htp]]; [done|].
      assert (p <> i) as Hpi by (intros ->; rewrite Hit in Hgp; simplify_eq; simpl in Htp; congruence).
      apply (connection_unref_drops [i] (i :: owners) p gp); [set_solver|done..|].
      intros j gj Hin Hj. assert (j = i) as -> by set_solver. rewrite Hit in Hj. by simplify_eq.
    + intros [] t' (Hs' & _ & Hex). split; [done|]. split; [|done]. intros j Hj. set_solver.
  - unfold wlp, mret, M_ret. split; [done|]. split; [intros j Hj; set_solver|]. by eexists.
Qed.
Lemma unref_sound i owners s : sound (abs s) (i :: owners) ->
  wlp (g_object_unref i) (fun _ t => sound (abs t) owners) (fun _ _ => True) s.
Proof.
  intros Hs. unfold g_object_unref. apply wlp_bind, gobject_at_wlp. intros o _ Hi.
  assert (forall m, drops [] owners i m s -> wlp m (fun _ t => sound (abs t) owners) (fun _ _ => True) s) as Hdrop.
  { intros m Hm. rewrite <- (erase_nil (abs s)) in Hs. eapply wlp_conseq; [by apply Hm| |done].
    intros ? t [Ht _]. by rewrite erase_nil in Ht. }
  destruct (go_type o) eqn:Ht; try done; apply Hdrop.
  - apply (database_unref_drops _ _ _ (ga_of o)); [apply not_elem_of_nil|done..|].
    eapply (database_orphan [] (i :: owners)); [by rewrite erase_nil|apply not_elem_of_nil|done..].
  - apply (connection_unref_drops _ _ _ (ga_of o)); [apply not_elem_of_nil|done..|]. intros j g Hj. by apply not_elem_of_nil in Hj.
  - by apply (statement_unref_drops _ _ (ga_of o)).
Qed.

(** ** Methods *)
Lemma get_raw_wlp t what i c (Q : bool -> GS -> Prop) E s :
  (forall g, inst (abs s) i = Some g -> ga_type g = t -> ga_init g = true -> Q true s) ->
  (forall g t', inst (abs s) i = Some g -> ga_type g = t -> abs t' = abs s -> Q false t') ->
  wlp (get_raw t what i c) Q E s.
Proof.
  intros Ht Hf. unfold get_raw. apply wlp_bind, instance_wlp. intros o _ Hi Hto.
  destruct (go_initialized o) eqn:Hin; [by apply (Ht (ga_of o))|].
  unfold g_set_error, wlp, mbind, M_bind, gets, mret, M_ret; simpl.
  destruct (gs_error s) as [[|]|]; by apply (Hf (ga_of o)).
Qed.
Definition keeps_sound {A} (owners : list nat) (m : M GS A) (s : GS) : Prop :=
  sound (abs s) owners -> wlp m (fun _ t => sound (abs t) owners) (fun _ _ => True) s.
Lemma keeps_sound_keeps {A} owners (m : M GS A) s : keeps abs m -> keeps_sound owners m s.
Proof. intros Hk Hs. eapply wlp_keeps; [exact Hk| |done]. intros a t Ht. by rewrite Ht. Qed.
(** A call on an initialised instance whose outcome is sound. *)
Definition call_sound (owners : list nat) (t : struct_type) (i : nat) (m : M OState unit) (s : GS) : Prop :=
  forall g u, inst (abs s) i = Some g -> ga_type g = t -> ga_init g = true ->
    own u = (gv_drivers (abs s), ga_driver g) ->
    leaves m (fun r => sound (gput r.1 i (Some (with_driver r.2 g)) (abs s)) owners) u.
Lemma call_after_raw owners t what i c m (k : Z * AdbcError -> M GS bool) s :
  sound (abs s) owners -> call_sound owners t i m s ->
  (forall r t', sound (abs t') owners -> wlp (k r) (fun _ u => sound (abs u) owners) (fun _ _ => True) t') ->
  wlp (ok ← get_raw t what i c; if negb ok then mret false else r ← call_adbc i m; k r)
    (fun _ u => sound (abs u) owners) (fun _ _ => True) s.
Proof.
  intros Hs Hm Hk. apply wlp_bind, get_raw_wlp; simpl.
  - intros g Hg Ht Hin. apply wlp_bind. eapply (call_adbc_wlp i m (fun v => sound v owners)); [|intros r t' Ht'; by apply Hk].
    intros g' u Hg' Hu. rewrite Hg in Hg'. simplify_eq. by apply Hm.
  - intros g t' _ _ Ht'. unfold wlp, mret, M_ret. by rewrite Ht'.
Qed.
Lemma method_sound owners t what i c m s : call_sound owners t i m s -> keeps_sound owners (method (get_raw t what) i c m) s.
Proof.
  intros Hm Hs. apply call_after_raw; [done..|]. intros r t' Ht'.
  by apply keeps_sound_keeps; [apply keeps_error_check|].
Qed.
Lemma gput_id gv i g : inst gv i = Some g -> gput (gv_drivers gv) i (Some g) gv = gv.
Proof.
  intros Hi%inst_lookup. unfold gput. destruct gv as [ds os]; simpl in *. f_equal. by apply list_insert_id.
Qed.
Lemma with_driver_id g : with_driver (ga_driver g) g = g.
Proof. by destruct g. Qed.
Lemma call_sound_keeps owners t i m s : keeps own m -> sound (abs s) owners -> call_sound owners t i m s.
Proof.
  intros Hk Hs g u Hg _ _ Hu. apply leaves_keeps; [done|]. rewrite Hu; cbn [fst snd]. by rewrite with_driver_id, gput_id.
Qed.
Lemma release_sound owners t what i c m s : releases t m ->
  (t <> TStatement -> ~ guarded (view_of_gv (abs s)) i) ->
  keeps_sound owners (release_method (get_raw t what) i c m) s.
Proof.
  intros Hrel Hg Hs. unfold release_method. apply wlp_bind, get_raw_wlp; simpl; [|intros ? t' _ _ Ht'; unfold wlp, mret, M_ret; by rewrite Ht'].
  intros g Hi Ht Hin. apply wlp_bind. eapply (call_adbc_wlp i m (fun v => sound v owners /\
    exists g', inst v i = Some g' /\ ga_driver g' = None)).
  - intros g' u Hg' Hu. rewrite Hi in Hg'. simplify_eq. eapply leaves_conseq; [apply Hrel|].
    intros [ds d] [Hd Hds]; cbn [fst snd] in *. subst d. rewrite Hu in Hds; cbn [fst snd] in Hds. split.
    + apply sound_call; [done..| |done]. apply release_owned; [apply (sound_owned _ _ Hs)|done|done|].
      destruct Hds as [->|(? & d & ? & ->)]; [by left|right]. split; [done|]. by exists d.
    + exists (with_driver None g'). by rewrite (inst_gput _ _ _ _ _ _ Hi), decide_True.
  - intros r t' [Ht' Hd]. eapply wlp_keeps_bind; [apply keeps_error_check| |done].
    intros success t1 Ht1. rewrite <- Ht1 in *. unfold when. destruct success; [|done].
    apply wlp_bind, set_initialized_wlp. intros g1 t2 Hg1 Ht2. destruct Hd as (g' & Hg' & Hd). simplify_eq.
    unfold wlp, mret, M_ret. rewrite Ht2. by apply sound_init.
Qed.
Lemma database_init_sound owners i s : sound (abs s) owners -> call_sound owners TDatabase i AdbcDatabaseInit s.
Proof.
  intros Hs g u Hg Ht Hin Hu. eapply leaves_conseq; [apply database_init_leaves|].
  intros o Ho. rewrite Hu in Ho. destruct Ho as [-> |(live & d & -> & Hd)]; cbn [fst snd].
  - by rewrite with_driver_id, gput_id.
  - apply sound_call; [done..| |congruence]. rewrite Ht. cbn [fst snd] in Hd.
    change (gv_drivers (abs s)) with (v_drivers (view_of_gv (abs s))) in *.
    eapply owned_database_init; [apply (sound_owned _ _ Hs)| |done].
    rewrite (object_inst _ _ _ Hg). by rewrite Ht.
Qed.
(** ** Initialising a connection *)
Lemma connect_tail owners c d g gd x r context s t : sound (abs s) owners ->
  inst (abs s) c = Some g -> ga_type g = TConnection -> ga_init g = true -> ga_driver g = None -> ga_parent g = None ->
  inst (abs s) d = Some gd -> ga_type gd = TDatabase -> (x = None \/ x = ga_driver gd) ->
  abs t = gput (gv_drivers (abs s)) c (Some (with_driver x g)) (abs s) ->
  wlp (success ← gadbc_error_check (fst r) (snd r) context;
       when success (set_parent c (Some d) ;; g_object_ref d) ;; mret success)
    (fun b u => b = true \/ (forall g', inst (abs u) c = Some g' -> ga_driver g' = None) -> sound (abs u) owners)
    (fun _ _ => True) t.
Proof.
  intros Hs Hg Ht Hin Hn Hpar Hgd Htd Hx Ht1. pose proof (with_driver_id g) as Hid. rewrite Hn in Hid.
  eapply wlp_keeps_bind; [apply keeps_error_check| |done].
  intros success t1 Ht2. rewrite <- Ht2 in Ht1. unfold when. destruct success.
  - apply wlp_bind, wlp_bind, set_parent_wlp. intros g1 t3 Hg1 Ht3.
    rewrite Ht1, (inst_gput _ _ _ _ _ _ Hg), decide_True in Hg1 by done. injection Hg1 as <-.
    assert (abs t3 = gput (gv_drivers (abs s)) c (Some (with_parent (Some d) (with_driver x g))) (abs s)) as Ht3'.
    { rewrite Ht3, Ht1. unfold gput; simpl. by rewrite list_insert_insert_eq. }
    apply wlp_bind, gobject_at_wlp. intros o _ Ho. apply set_ref_count_wlp. intros g2 t4 Hg2 Ht4.
    rewrite Ho in Hg2. injection Hg2 as <-. unfold wlp, mret, M_ret. intros _.
    assert (d <> c) as Hdc by (intros ->; rewrite Hg in Hgd; simplify_eq; congruence).
    rewrite Ht3', (inst_gput _ _ _ _ _ _ Hg), decide_False in Ho by done. rewrite Hgd in Ho.
    injection Ho as ->. rewrite Ht4, Ht3'.
    refine (sound_adopt _ _ c g d (ga_of o) x Hs Hg Hn Hin Hpar Hgd _ Hx). by left.
  - unfold wlp, mbind, M_bind, mret, M_ret. intros [?|Hnone]; [done|].
    rewrite Ht1 in *. specialize (Hnone (with_driver x g)).
    rewrite (inst_gput _ _ _ _ _ _ Hg), decide_True in Hnone by done. specialize (Hnone eq_refl). simpl in Hnone.
    subst x. by rewrite Hid, gput_id.
Qed.
Lemma connection_init_sound owners c d s : sound (abs s) owners ->
  (forall g, inst (abs s) c = Some g -> ga_driver g = None /\ ga_parent g = None) ->
  wlp (gadbc_connection_init c d)
    (fun b t => b = true \/ (forall g, inst (abs t) c = Some g -> ga_driver g = None) -> sound (abs t) owners)
    (fun _ _ => True) s.
Proof.
  intros Hs Hn. unfold gadbc_connection_init. apply wlp_bind, get_raw_wlp; cbn [negb];
    [|intros ? t' _ _ Ht' _; unfold wlp, mret, M_ret; by rewrite Ht'].
  intros g Hg Ht Hin. destruct (Hn _ Hg) as [Hnone Hpar]. clear Hn. rename Hnone into Hn. pose proof (with_driver_id g) as Hid. rewrite Hn in Hid.
  apply wlp_bind, get_raw_wlp.
  - intros gd Hgd Htd _. apply wlp_bind, gobject_at_wlp. intros db _ Hdb. rewrite Hgd in Hdb. injection Hdb as ->.
    apply wlp_bind. apply (call_adbc_wlp c _ (fun v => exists x, (x = None \/ x = ga_driver (ga_of db)) /\
      v = gput (gv_drivers (abs s)) c (Some (with_driver x g)) (abs s))).
    { intros g' u Hg' Hu. rewrite Hg in Hg'. injection Hg' as <-.
      eapply leaves_conseq; [apply connection_init_leaves|]. intros o [-> | ->]; rewrite Hu; cbn [fst snd].
      - exists None. rewrite Hn. auto.
      - exists (ob_driver (go_adbc db)). auto. }
    intros r t (x & Hx & Ht1). by eapply (connect_tail _ _ _ g (ga_of db) x).
  - intros gd t' Hgd Htd Ht'. apply wlp_bind, gobject_at_wlp. intros db _ _. apply wlp_bind.
    apply (call_adbc_wlp c _ (fun v => v = abs s)).
    { intros g' u Hg' Hu. rewrite Ht' in Hg', Hu. rewrite Hg in Hg'. injection Hg' as <-.
      unfold connection_init_null. apply leaves_gets. rewrite Ht'. destruct (is_null _); [|done].
      apply leaves_keeps; [apply keeps_raise_fst|]. rewrite Hu; cbn [fst snd]. by rewrite Hn, Hid, gput_id. }
    intros r t Ht1. eapply (connect_tail _ _ _ g gd None); [done..|by left|]. by rewrite Hid, gput_id.
Qed.

(** ** Constructors *)
Definition class (t : struct_type) : bool := bool_decide (t ∈ [TDatabase; TConnection; TStatement]).
Lemma g_object_new_wlp t (Q : nat -> GS -> Prop) E s :
  (forall u, abs u = gnew t (abs s) -> Q (length (gv_objects (abs s))) u) -> wlp (g_object_new t) Q E s.
Proof.
  intros HQ. unfold g_object_new, wlp, mbind, M_bind, gets, put_gobjects, modify, mret, M_ret; simpl.
  replace (length (gs_objects s)) with (length (gv_objects (abs s))) by apply length_map.
  apply HQ. unfold abs, gnew; simpl. by rewrite map_app.
Qed.
(** An instance that is given up before it was initialised. *)
Lemma unref_new i t x (Q : unit -> GS -> Prop) E s : class t = true ->
  inst (abs s) i = Some (mkGA t 1 false x None) ->
  (forall u, abs u = gput (gv_drivers (abs s)) i None (abs s) -> Q tt u) -> wlp (g_object_unref i) Q E s.
Proof.
  intros Ht%bool_decide_eq_true Hi HQ.
  destruct (gs_objects s !! i) as [[[t' n b o p]|]|] eqn:Ho; unfold inst, abs in Hi; simpl in Hi;
    rewrite list_lookup_fmap, Ho in Hi; [|done..]. injection Hi as -> -> -> _ ->.
  assert (gobject_at i s = Ret (mkGObject t 1 false o None) s) as Hat.
  { unfold gobject_at, mbind, M_bind, gets, lift_opt; simpl. by rewrite Ho. }
  assert (g_object_unref i s = put_gobject i None s) as Heq; [|unfold wlp; rewrite Heq; by apply put_gobject_wlp].
  unfold g_object_unref. rewrite (bind_ret _ _ _ _ _ Hat). simpl.
  assert (instance t i s = Ret (mkGObject t 1 false o None) s) as Hin.
  { unfold instance. rewrite (bind_ret _ _ _ _ _ Hat). simpl. by rewrite decide_True. }
  set_unfold in Ht. destruct Ht as [-> |[-> |[-> |[]]]];
    [unfold database_unref, gadbc_database_finalize|unfold connection_unref, gadbc_connection_dispose
    |unfold statement_unref, gadbc_statement_dispose];
    unfold unref_with; rewrite (bind_ret _ _ _ _ _ Hat); simpl;
    (rewrite (bind_ret _ _ tt s s); [done|]); rewrite (bind_ret _ _ _ _ _ Hin); reflexivity.
Qed.
(** What a constructor leaves: the new instance with the driver the call gave it, or nothing. *)
Definition constructed (J : option nat -> Prop) (t : struct_type) (gv : GView) (r : option nat) (gv' : GView) : Prop :=
  let i := length (gv_objects gv) in
  match r with
  | Some j => j = i /\ exists x, J x /\ gv' = gput (gv_drivers gv) i (Some (mkGA t 1 true x None)) (gnew t gv)
  | None => gv' = gput (gv_drivers gv) i None (gnew t gv)
  end.
Lemma gput_gput ds ds' i o o' gv : gput ds i o (gput ds' i o' gv) = gput ds i o gv.
Proof. unfold gput; simpl. by rewrite list_insert_insert_eq. Qed.
Lemma new_instance_wlp J t context m s : class t = true ->
  (forall u, own u = (gv_drivers (abs s), None) -> leaves m (fun r => r.1 = gv_drivers (abs s) /\ J r.2) u) ->
  wlp (new_instance t context m) (fun r u => constructed J t (abs s) r (abs u)) (fun _ _ => True) s.
Proof.
  intros Ht Hm. unfold new_instance. apply wlp_bind, g_object_new_wlp. intros s1 Hs1.
  set (i := length (gv_objects (abs s))) in *.
  assert (inst (abs s1) i = Some (mkGA t 1 false None None)) as Hi by (by rewrite Hs1, inst_gnew, decide_True).
  apply wlp_bind. eapply (call_adbc_wlp i m (fun v => exists x, J x /\
    v = gput (gv_drivers (abs s)) i (Some (mkGA t 1 false x None)) (abs s1))).
  { intros g u Hg Hu. rewrite Hi in Hg. injection Hg as <-. eapply leaves_conseq; [apply Hm; rewrite Hu, Hs1; done|].
    intros [ds x] [Hds Hx]; cbn [fst snd] in *. exists x. by rewrite Hds. }
  intros r s2 (x & Hx & Hs2). eapply wlp_keeps_bind; [apply keeps_error_check| |done].
  intros success s3 Hs3. rewrite <- Hs3 in Hs2.
  assert (inst (abs s3) i = Some (mkGA t 1 false x None)) as Hi3 by (by rewrite Hs2, (inst_gput _ _ _ _ _ _ Hi), decide_True).
  apply wlp_bind, set_initialized_wlp. intros g s4 Hg Hs4. rewrite Hi3 in Hg. injection Hg as <-.
  rewrite Hs2 in Hs4. simpl in Hs4. rewrite gput_gput in Hs4. destruct success.
  - unfold wlp, mret, M_ret, constructed. split; [done|]. exists x. by rewrite Hs4, Hs1.
  - apply wlp_bind, (unref_new i t x); [done|by rewrite Hs4, (inst_gput _ _ _ _ _ _ Hi), decide_True|].
    intros u Hu. unfold wlp, mret, M_ret, constructed. rewrite Hu, Hs4, Hs1. simpl. by rewrite gput_gput.
Qed.
Lemma inst_length gv i : (length (gv_objects gv) <= i)%nat -> inst gv i = None.
Proof. intros Hi. unfold inst. by rewrite (lookup_ge_None_2 _ i). Qed.
(** Giving up leaves the state sound; so does a new instance without a driver. *)
Lemma constructed_none J t gv gv' owners : sound gv owners -> constructed J t gv None gv' -> sound gv' owners.
Proof.
  intros Hs ->. eapply (sound_free (gnew t gv)); [by apply sound_new|by rewrite inst_gnew, decide_True|done..].
Qed.
Lemma constructed_some t gv gv' i owners : sound gv owners -> constructed (eq None) t gv (Some i) gv' ->
  sound gv' (i :: owners).
Proof.
  intros Hs (-> & x & <- & ->).
  apply (sound_init (gnew t gv) _ _ (mkGA t 1 false None None) true); [by apply sound_new| |done].
  by rewrite inst_gnew, decide_True.
Qed.
(** The constructors of databases and connections. *)
Lemma orphan_new_sound t context m owners s : class t = true -> sound (abs s) owners ->
  (forall u, leaves m (eq ((own u).1, None)) u) ->
  wlp (new_instance t context m) (fun r u => sound (abs u) (option_list r ++ owners)) (fun _ _ => True) s.
Proof.
  intros Ht Hs Hm. eapply wlp_conseq; [apply (new_instance_wlp (eq None)); [done|]| |done].
  - intros u Hu. eapply leaves_conseq; [apply Hm|]. intros o <-. by rewrite Hu.
  - intros [i|] u Hu; [by apply (constructed_some t (abs s))|by eapply constructed_none].
Qed.
Lemma statement_new_sound c owners s : sound (abs s) owners ->
  wlp (gadbc_statement_new c) (fun r u => sound (abs u) (option_list r ++ owners)) (fun _ _ => True) s.
Proof.
  intros Hs. unfold gadbc_statement_new. apply wlp_bind, get_raw_wlp; cbn [negb];
    [|intros ? t' _ _ Ht'; unfold wlp, mret, M_ret; by rewrite Ht'].
  intros gc Hc Htc _. apply wlp_bind, gobject_at_wlp. intros conn _ Hconn. rewrite Hc in Hconn. injection Hconn as ->.
  apply wlp_bind. eapply wlp_conseq; [apply (new_instance_wlp (fun x => x = None \/ x = ob_driver (go_adbc conn))); [done|]| |done].
  { intros u Hu. eapply leaves_conseq; [apply statement_new_leaves|]. intros o [-> | ->]; rewrite Hu; auto. }
  intros [i|] s1 Hs1; [|unfold wlp, mret, M_ret; by eapply constructed_none].
  destruct Hs1 as (-> & x & Hx & Hs1). set (i := length (gv_objects (abs s))) in *.
  assert (c <> i) as Hci by (apply inst_lt in Hc; unfold i; lia).
  assert (inst (gnew TStatement (abs s)) i = Some (mkGA TStatement 1 false None None)) as Hi by (by rewrite inst_gnew, decide_True).
  set (gv0 := gput (gv_drivers (abs s)) i (Some (mkGA TStatement 1 true None None)) (gnew TStatement (abs s))).
  assert (sound gv0 (i :: owners)) as Hs0.
  { apply (sound_init (gnew TStatement (abs s)) _ _ (mkGA TStatement 1 false None None) true); [by apply sound_new|done..]. }
  assert (inst gv0 i = Some (mkGA TStatement 1 true None None)) as Hi0 by (unfold gv0; by rewrite (inst_gput _ _ _ _ _ _ Hi), decide_True).
  assert (inst gv0 c = Some (ga_of conn)) as Hc0.
  { unfold gv0. rewrite (inst_gput _ _ _ _ _ _ Hi), decide_False, inst_gnew, decide_False; done. }
  pose proof (sound_adopt gv0 (i :: owners) i _ c (ga_of conn) x Hs0 Hi0 eq_refl eq_refl eq_refl Hc0
    (or_intror (conj eq_refl Htc)) Hx) as Hadopt. unfold gv0 in Hadopt. rewrite gput_gput in Hadopt.
  assert (inst (abs s1) i = Some (mkGA TStatement 1 true x None)) as Hi1 by (by rewrite Hs1, (inst_gput _ _ _ _ _ _ Hi), decide_True).
  apply wlp_bind, set_parent_wlp. intros g s2 Hg Hs2. rewrite Hi1 in Hg. injection Hg as <-.
  rewrite Hs1, gput_gput in Hs2. unfold g_object_ref. apply wlp_bind, wlp_bind, gobject_at_wlp. intros o _ Ho.
  rewrite Hs2, (inst_gput _ _ _ _ _ _ Hi), decide_False, inst_gnew, decide_False in Ho by done.
  rewrite Hc in Ho. pose proof (f_equal (fmap ga_refs) Ho) as Hr. injection Hr as Hr.
  apply set_ref_count_wlp. intros g s3 Hg Hs3.
  rewrite Hs2, (inst_gput _ _ _ _ _ _ Hi), decide_False, inst_gnew, decide_False in Hg by done.
  rewrite Hc in Hg. injection Hg as <-. unfold wlp, mret, M_ret. rewrite Hs3, Hs2, <- Hr. exact Hadopt.
Qed.

(** ** Execution *)
Lemma keeps_put_streams ss out : keeps abs (put_streams (L := L) ss out).
Proof. by intros s. Qed.
Lemma execute_sound owners i out rows s : keeps_sound owners (gadbc_statement_execute i out rows) s.
Proof.
  intros Hs. unfold gadbc_statement_execute. apply wlp_bind, get_raw_wlp; cbn [negb];
    [|intros ? t' _ _ Ht'; unfold wlp, mret, M_ret; by rewrite Ht'].
  intros g Hg Ht Hin. eapply wlp_keeps_bind; [apply (keeps_gets abs)| |done]. intros ss s1 Hs1.
  eapply wlp_keeps_bind; [apply (keeps_gets abs)| |done]. intros o s2 Hs2.
  eapply wlp_keeps_bind; [apply keeps_when, keeps_put_streams| |done]. intros _ s3 Hs3.
  assert (abs s3 = abs s) as Habs by congruence. rewrite <- Habs in Hg, Hs. apply wlp_bind.
  eapply (call_adbc_wlp i _ (fun v => sound v owners)).
  - intros g' u Hg' Hu. rewrite Hg in Hg'. injection Hg' as <-.
    eapply call_sound_keeps; [apply keeps_forward|exact Hs|exact Hg|exact Ht|exact Hin|exact Hu].
  - intros r s4 Hs4. eapply wlp_keeps_bind; [apply keeps_error_check| |done]. intros success s5 Hs5.
    rewrite <- Hs5 in Hs4. eapply (wlp_keeps_bind abs); [| |done].
    + destruct success.
      * destruct out; [|apply keeps_undef]. apply keeps_bind; [apply keeps_gets|intros; apply keeps_put_streams].
      * destruct (if out then _ else _); [|apply keeps_ret].
        apply keeps_bind; [apply keeps_gets|intros; apply keeps_put_streams].
    + intros _ s6 Hs6. unfold wlp, mret, M_ret. by rewrite Hs6.
Qed.

(** * Sessions

    Methods that leave lifetimes alone, whatever they answer. *)
Inductive plain_method : M GS bool -> Prop :=
| plain_database_set_option i key value : plain_method (gadbc_database_set_option i key value)
| plain_database_init i : plain_method (gadbc_database_init i)
| plain_connection_set_option i key value : plain_method (gadbc_connection_set_option i key value)
| plain_statement_set_sql_query i query : plain_method (gadbc_statement_set_sql_query i query)
| plain_statement_execute i out rows : plain_method (gadbc_statement_execute i out rows)
| plain_statement_release i : plain_method (gadbc_statement_release i).
Inductive constructor : M GS (option nat) -> Prop :=
| constructor_database : constructor gadbc_database_new
| constructor_connection : constructor gadbc_connection_new
| constructor_statement c : constructor (gadbc_statement_new c).
(** The explicit releases. *)
Inductive parent_release (i : nat) : M GS bool -> Prop :=
| release_database : parent_release i (gadbc_database_release i)
| release_connection : parent_release i (gadbc_connection_release i).
Definition with_gerror (e : GErrorPtr) (s : GS) : GS :=
  mkGS (gs_world s) (gs_drivers s) (gs_objects s) (gs_streams s) (gs_out s) e (gs_warnings s).

(** A client of the bindings, with the references it owns.  It never releases explicitly what
    an instance with a driver keeps; it initialises a connection that has neither driver nor
    database, and unless that succeeds or leaves it without a driver, it does not go on. *)
Inductive gstep : GS * list nat -> GS * list nat -> Prop :=
| gstep_plain m b s t owners : plain_method m -> m s = Ret b t -> gstep (s, owners) (t, owners)
| gstep_new m r s t owners : constructor m -> m s = Ret r t ->
    gstep (s, owners) (t, option_list r ++ owners)
| gstep_release i m b s t owners : parent_release i m -> ~ guarded (view_of_gv (abs s)) i ->
    m s = Ret b t -> gstep (s, owners) (t, owners)
| gstep_connect c d b s t owners :
    (forall g, inst (abs s) c = Some g -> ga_driver g = None /\ ga_parent g = None) ->
    gadbc_connection_init c d s = Ret b t ->
    b = true \/ (forall g, inst (abs t) c = Some g -> ga_driver g = None) -> gstep (s, owners) (t, owners)
| gstep_ref i s t owners : i ∈ owners -> g_object_ref i s = Ret tt t -> gstep (s, owners) (t, i :: owners)
| gstep_unref i s t owners owners' : owners ≡ₚ i :: owners' -> g_object_unref i s = Ret tt t ->
    gstep (s, owners) (t, owners')
| gstep_error e s owners : gstep (s, owners) (with_gerror e s, owners).
Definition gstarted (w : D) : GS := mkGS w [] [] [] None None [].
Definition greachable (s : GS) (owners : list nat) : Prop := exists w, rtc gstep (gstarted w, []) (s, owners).

Lemma sound_perm gv owners owners' : owners ≡ₚ owners' -> sound gv owners -> sound gv owners'.
Proof.
  intros Hp [Ho Hc Hpt Hd]. constructor; [done| |done..]. intros i.
  rewrite <- (proj1 (Permutation_count_occ Nat.eq_dec _ _) Hp i). apply Hc.
Qed.
Lemma wlp_ret_inv {A} (m : M GS A) (Q : A -> GS -> Prop) E s a t : wlp m Q E s -> m s = Ret a t -> Q a t.
Proof. intros Hw Hm. unfold wlp in Hw. by rewrite Hm in Hw. Qed.
Lemma plain_method_sound owners m s : plain_method m -> keeps_sound owners m s.
Proof.
  intros Hm Hs. destruct Hm as [i key value|i|i key value|i query|i out rows|i]; revert Hs.
  - intros Hs. by apply method_sound; [apply call_sound_keeps; [apply keeps_database_set_option|]|].
  - intros Hs. by apply method_sound; [apply database_init_sound|].
  - intros Hs. by apply method_sound; [apply call_sound_keeps; [apply keeps_connection_set_option|]|].
  - intros Hs. by apply method_sound; [apply call_sound_keeps; [apply keeps_forward|]|].
  - apply execute_sound.
  - apply release_sound; [apply statement_releases|done].
Qed.
Lemma constructor_sound owners m s : constructor m -> sound (abs s) owners ->
  wlp m (fun r u => sound (abs u) (option_list r ++ owners)) (fun _ _ => True) s.
Proof.
  intros [| |c] Hs; [| |by apply statement_new_sound].
  - apply orphan_new_sound; [done..|apply database_new_leaves].
  - apply orphan_new_sound; [done..|apply connection_new_leaves].
Qed.
Lemma gstep_sound s t owners owners' : gstep (s, owners) (t, owners') ->
  sound (abs s) owners -> sound (abs t) owners'.
Proof.
  remember (s, owners) as a eqn:Ha. remember (t, owners') as b eqn:Hb. intros Hstep.
  revert s t owners owners' Ha Hb.
  destruct Hstep; intros ? ? ? ? Ha Hb Hs; injection Ha as <- <-; injection Hb as <- <-.
  - exact (wlp_ret_inv _ _ _ _ _ _ (plain_method_sound _ _ _ H Hs) H0).
  - exact (wlp_ret_inv _ _ _ _ _ _ (constructor_sound _ _ _ H Hs) H0).
  - refine (wlp_ret_inv m (fun _ u => sound (abs u) owners) _ s _ _ _ H1).
    by destruct H; apply release_sound; [apply database_releases| | |apply connection_releases| |].
  - exact (wlp_ret_inv _ _ _ _ _ _ (connection_init_sound _ _ _ _ Hs H) H0 H1).
  - refine (wlp_ret_inv (g_object_ref i) (fun _ u => sound (abs u) (i :: owners)) (fun _ _ => True) s tt t _ H0).
    unfold g_object_ref. apply wlp_bind, gobject_at_wlp. intros o _ Ho. apply set_ref_count_wlp.
    intros g u Hg Hu. rewrite Ho in Hg. injection Hg as <-. rewrite Hu. by apply (sound_ref (abs s) owners i (ga_of o)).
  - refine (wlp_ret_inv (g_object_unref i) (fun _ u => sound (abs u) owners') _ s _ _ _ H0). apply unref_sound. by eapply sound_perm.
  - exact Hs.
Qed.
Lemma sound_started w : sound (abs (gstarted w)) [].
Proof.
  constructor.
  - constructor; intros; try done.
  - done.
  - done.
  - done.
  - done.
Qed.
Lemma greachable_sound s owners : greachable s owners -> sound (abs s) owners.
Proof.
  intros (w & Hr). pose proof (sound_started w) as H0. revert H0.
  enough (forall a b, rtc gstep a b -> sound (abs a.1) a.2 -> sound (abs b.1) b.2) as He by apply (He _ _ Hr).
  clear. intros a b Hr. induction Hr as [a|[a oa] [b ob] c Hstep _ IH]; [done|].
  intros Ha. apply IH. by eapply gstep_sound.
Qed.

(** ** What sessions guarantee *)
(** C21: in every session of the GLib bindings, a database, connection or statement that has a
    driver has a driver table that is still allocated: the references the instances hold on each
    other keep every table until its last user is gone, in whatever order they are dropped. *)
Theorem glib_tables_outlive_objects s owners i o d (Hr : greachable s owners)
    (Ho : gs_objects s !! i = Some (Some o)) (Hc : class (go_type o) = true)
    (Hd : ob_driver (go_adbc o) = Some d) : exists table, gs_drivers s !! d = Some (Some table).
Proof.
  pose proof (sound_owned _ _ (greachable_sound _ _ Hr)) as Hv. apply inst_abs in Ho.
  assert (obj (view_of_gv (abs s)) i (go_type o) d) as Hobj by (apply obj_inst; by exists (ga_of o)).
  assert (allocated (view_of_gv (abs s)) d) as Ha.
  { apply bool_decide_eq_true in Hc. set_unfold in Hc. destruct Hc as [Ht|[Ht|[Ht|[]]]]; rewrite Ht in Hobj.
    - exact (own_database _ Hv _ _ Hobj).
    - exact (proj1 (own_connection _ Hv _ _ Hobj)).
    - destruct (own_statement _ Hv _ _ Hobj) as (_ & _ & bc & _ & _ & _ & Hbc).
      exact (proj1 (own_connection _ Hv _ _ Hbc)). }
  unfold allocated, view_of_gv, abs, live_tables in Ha; simpl in Ha. rewrite list_lookup_fmap in Ha.
  destruct (gs_drivers s !! d) as [[table|]|]; [by exists table|done..].
Qed.
Lemma inst_inv i g s : inst (abs s) i = Some g ->
  exists o, gs_objects s !! i = Some (Some o) /\ g = ga_of o.
Proof.
  unfold inst, abs; simpl. rewrite list_lookup_fmap.
  destruct (gs_objects s !! i) as [[o|]|]; [|done..]. intros [= <-]. by exists o.
Qed.
(** The instances whose [priv->database] or [priv->connection] is [i]. *)
Definition holders (s : GS) (i : nat) : nat :=
  length (List.filter (fun o => match o with Some o => bool_decide (go_parent o = Some i) | None => false end) (gs_objects s)).
Lemma children_holders s i : children (abs s) i = holders s i.
Proof.
  unfold children, holders, abs; simpl. induction (gs_objects s) as [|[o|] l IH]; simpl; [done| |done].
  destruct (bool_decide (go_parent o = Some i)); simpl; congruence.
Qed.
(** C22: in every session of the GLib bindings reference counts are exact: a live instance has
    as many references as the client owns to it and live children hold on it; what the client
    owns a reference to is live; and a child's parent is a live instance of the parent class. *)
Theorem references_exact s owners (Hr : greachable s owners) :
  (forall i o, gs_objects s !! i = Some (Some o) ->
     go_ref_count o = (count_occ Nat.eq_dec owners i + holders s i)%nat) /\
  (forall i, i ∈ owners -> exists o, gs_objects s !! i = Some (Some o)) /\
  (forall i o p, gs_objects s !! i = Some (Some o) -> go_parent o = Some p ->
     exists op, gs_objects s !! p = Some (Some op) /\ parent_type (go_type o) (go_type op)).
Proof.
  pose proof (greachable_sound _ _ Hr) as Hs. split_and!.
  - intros i o Ho. pose proof (sound_count _ _ Hs i) as Hc. unfold refs in Hc.
    rewrite (inst_abs _ _ _ Ho), children_holders in Hc. simpl in Hc. lia.
  - intros i Hi. pose proof (sound_count _ _ Hs i) as Hc. unfold refs in Hc.
    assert (0 < count_occ Nat.eq_dec owners i)%nat as Hpos by (apply (count_occ_In Nat.eq_dec); by apply list_elem_of_In).
    destruct (inst (abs s) i) as [g|] eqn:Hg; [|lia]. destruct (inst_inv _ _ _ Hg) as (o & Ho & _). by exists o.
  - intros i o p Ho Hp. destruct (sound_parent _ _ Hs i (ga_of o) p) as (gp & Hgp & Ht); [by apply inst_abs|done|].
    destruct (inst_inv _ _ _ Hgp) as (op & Hop & ->). by exists op.
Qed.
(** An instance that nobody but children refers to has a child. *)
Lemma unowned_child gv i g : sound gv [] -> inst gv i = Some g ->
  exists j gj, inst gv j = Some gj /\ parent_type (ga_type gj) (ga_type g).
Proof.
  intros Hs Hi. pose proof (sound_count _ _ Hs i) as Hc. pose proof (sound_live _ _ Hs i g Hi) as Hpos.
  simpl in Hc. unfold refs in Hc. rewrite Hi in Hc. unfold children in Hc.
  destruct (List.filter (is_child i) (gv_objects gv)) as [|o l] eqn:Hf; [simpl in Hc; lia|].
  assert (In o (gv_objects gv) /\ is_child i o = true) as [Hin Hch] by (apply List.filter_In; rewrite Hf; by left).
  apply list_elem_of_In, list_elem_of_lookup_1 in Hin as (j & Hj). destruct o as [gj|]; [|done].
  simpl in Hch. apply bool_decide_eq_true in Hch. assert (inst gv j = Some gj) as Hgj by by apply inst_lookup.
  destruct (sound_parent _ _ Hs j gj i Hgj Hch) as (gp & Hgp & Ht). rewrite Hi in Hgp. injection Hgp as <-. eauto.
Qed.
(** C23: nothing leaks: once the client of the GLib bindings has dropped all its references,
    however it ordered that, every instance it ever made has been freed. *)
Theorem all_dropped_all_freed s (Hr : greachable s []) i : mjoin (gs_objects s !! i) = None.
Proof.
  pose proof (greachable_sound _ _ Hr) as Hs. destruct (gs_objects s !! i) as [[o|]|] eqn:Ho; [|done..]. exfalso.
  apply inst_abs in Ho.
  destruct (unowned_child _ _ _ Hs Ho) as (j & gj & Hj & Ht1). destruct (unowned_child _ _ _ Hs Hj) as (k & gk & Hk & Ht2).
  destruct (unowned_child _ _ _ Hs Hk) as (l & gl & Hl & Ht3).
  destruct Ht1 as [[? ?]|[? ?]], Ht2 as [[? ?]|[? ?]], Ht3 as [[? ?]|[? ?]]; congruence.
Qed.

(** * Errors *)

(** The codes of GLib are those of adbc.h; a driver's own status is an unknown error. *)
Lemma error_code_kept code :
  gadbc_error_from_status_code code = if (0 <=? code) && (code <=? 14) then code else GADBC_ERROR_UNKNOWN.
Proof.
  unfold gadbc_error_from_status_code. repeat lazymatch goal with
    |- context [if ?c =? ?k then _ else _] => destruct (Z.eqb_spec c k) as [->|?]; [reflexivity|] end.
  destruct (Z.leb_spec 0 code), (Z.leb_spec code 14); try done. exfalso.
  unfold ADBC_STATUS_OK, ADBC_STATUS_UNKNOWN, ADBC_STATUS_NOT_IMPLEMENTED,
    ADBC_STATUS_NOT_FOUND, ADBC_STATUS_ALREADY_EXISTS, ADBC_STATUS_INVALID_ARGUMENT,
    ADBC_STATUS_INVALID_STATE, ADBC_STATUS_INVALID_DATA, ADBC_STATUS_INTEGRITY,
    ADBC_STATUS_INTERNAL, ADBC_STATUS_IO, ADBC_STATUS_CANCELLED, ADBC_STATUS_TIMEOUT,
    ADBC_STATUS_UNAUTHENTICATED, ADBC_STATUS_UNAUTHORIZED in *. lia.
Qed.
Lemma gobject_at_run i o s : gs_objects s !! i = Some (Some o) -> gobject_at i s = Ret o s.
Proof. intros Ho. unfold gobject_at, mbind, M_bind, gets, lift_opt; simpl. by rewrite Ho. Qed.
Lemma get_raw_run t what i c o s : gs_objects s !! i = Some (Some o) -> go_type o = t ->
  go_initialized o = true -> get_raw t what i c s = Ret true s.
Proof.
  intros Ho Ht Hi. assert (instance t i s = Ret o s) as Hin.
  { unfold instance. rewrite (bind_ret _ _ _ _ _ (gobject_at_run _ _ _ Ho)). by rewrite decide_True. }
  unfold get_raw. rewrite (bind_ret _ _ _ _ _ Hin). by rewrite Hi.
Qed.
(** [s] after a driver's callback ran on the instance [i]. *)
Definition glib_after (s : GS) (i : nat) (o : GObject (L := L)) (c : CallState D P ld_init) : GS :=
  mkGS (cs_world c) (gs_drivers s)
    (<[i := Some (mkGObject (go_type o) (go_ref_count o) (go_initialized o)
                    (mkObject (cs_private c) (ob_driver (go_adbc o))) (go_parent o))]> (gs_objects s))
    (gs_streams s) (gs_out s) (gs_error s) (gs_warnings s).
Lemma call_adbc_forward i o d dv slot f args code c s : gs_objects s !! i = Some (Some o) ->
  ob_driver (go_adbc o) = Some d -> gs_drivers s !! d = Some (Some dv) -> dv_slot dv slot = Some f ->
  finish (f args (mkCall (Some zero_error) (ob_private (go_adbc o)) (gs_world s))) = Some (code, c) ->
  call_adbc i (forward slot args) s = Ret (code, default zero_error (cs_error c)) (glib_after s i o c).
Proof.
  intros Ho Hd Hdv Hf Hrun. unfold call_adbc. erewrite bind_ret by (by apply gobject_at_run).
  unfold forward, gets; simpl. unfold mbind at 1, M_bind; simpl. rewrite Hd.
  rewrite (call_slot_run d dv slot f) by done. unfold call_of; simpl.
  destruct (f args _) as [[] c'|code' c'| |]; simpl in Hrun; try done;
    injection Hrun as <- <-; reflexivity.
Qed.

(** a statement executed without asking for its result ([c_abi_array_stream] null) never
    reports success: when the driver succeeds, the result is stored through the null pointer. *)
Theorem execute_without_stream_crashes i rows o d dv f c s
    (Ho : gs_objects s !! i = Some (Some o)) (Ht : go_type o = TStatement) (Hi : go_initialized o = true)
    (Hd : ob_driver (go_adbc o) = Some d) (Hdv : gs_drivers s !! d = Some (Some dv))
    (Hf : dv_slot dv S_StatementExecuteQuery = Some f)
    (Hrun : finish (f (OtherArgs (GExecute None rows))
              (mkCall (Some zero_error) (ob_private (go_adbc o)) (gs_world s))) = Some (ADBC_STATUS_OK, c)) :
  gadbc_statement_execute i false rows s = Undef.
Proof.
  unfold gadbc_statement_execute, gadbc_statement_get_raw.
  erewrite bind_ret by (by eapply get_raw_run). cbn [negb].
  rewrite (bind_ret (gets gs_streams) _ (gs_streams s) s s), (bind_ret (gets gs_out) _ (gs_out s) s s) by done.
  erewrite bind_ret by done. unfold AdbcStatementExecuteQuery. by erewrite bind_ret by (by eapply call_adbc_forward).
Qed.

(** A failed release of a database still takes its driver and private data away, unless there
    was no driver, and then no error is filled in. *)
Lemma database_release_fails u : wlp (AdbcDatabaseRelease (L := L)) (fun _ _ => True)
  (fun c v => v.2 = mkObject PNull None \/ (c = ADBC_STATUS_INVALID_STATE /\ ms_error v.1 = ms_error u.1)) u.
Proof.
  unfold AdbcDatabaseRelease. apply wlp_bind. unfold wlp at 1, gets. destruct (ob_driver u.2) as [d|].
  - apply wlp_bind, wlp_catch. unfold wlp at 1.
    enough (forall c v, wlp (zoom fst_lens (release_driver d) ;; zoom fst_lens (set_driver d None) ;;
        put_private PNull ;; put_driver None ;; return_code c) (fun _ _ => True)
      (fun c v => v.2 = mkObject PNull None \/ (c = ADBC_STATUS_INVALID_STATE /\ ms_error v.1 = ms_error u.1)) v) as Hk.
    { destruct (call_slot d S_DatabaseRelease NoArgs u); try done; apply Hk. }
    intros c v. apply wlp_bind, release_driver_falls. intros t _.
    unfold wlp, zoom, set_driver, put_private, put_driver, modify, return_code, mbind, M_bind; simpl.
    destruct (c =? 0); [done|]. by left.
  - destruct (is_null (ob_private u.2)); [by right|]. unfold wlp, temp_database, gets, put_private, modify, mbind, M_bind; simpl.
    by destruct (ob_private u.2).
Qed.
Definition set_adbc (o : GObject (L := L)) (b : Object D P (glib_args P)) : GObject (L := L) :=
  mkGObject (go_type o) (go_ref_count o) (go_initialized o) b (go_parent o).
(** when an explicit release of a database fails, the instance stays initialised although
    the manager has already let go of the driver: dropping the last reference releases it again,
    which the manager refuses without an error, and the finalizer calls the null release
    callback of that error. *)
Theorem failed_release_then_unref i o s t (Ho : gs_objects s !! i = Some (Some o)) (Ht : go_type o = TDatabase)
    (Hi : go_initialized o = true) (Hr : (go_ref_count o <= 1)%nat)
    (Hrel : gadbc_database_release i s = Ret false t) : g_object_unref i t = Undef.
Proof.
  unfold gadbc_database_release, release_method, gadbc_database_get_raw in Hrel.
  erewrite bind_ret in Hrel by (by eapply get_raw_run). cbn [negb] in Hrel.
  apply bind_ret_inv in Hrel as ([code e] & s1 & Hcall & Hrel). cbn [fst snd] in Hrel.
  apply bind_ret_inv in Hrel as (success & s2 & Hcheck & Hrel). apply bind_ret_inv in Hrel as ([] & s3 & Hw & Hrel).
  unfold mret, M_ret in Hrel. injection Hrel as -> ->. injection Hw as <-.
  assert (err_release e = true /\ code <> 0 /\ gs_objects s2 = gs_objects s1) as (He & Hcode & Hobjs).
  { unfold gadbc_error_check, g_set_error, release_error, mbind, M_bind, gets in Hcheck; simpl in Hcheck.
    destruct (Z.eqb_spec code ADBC_STATUS_OK); [done|].
    destruct (gs_error s1) as [[ge|]|]; simpl in Hcheck; destruct (err_release e); try done; by injection Hcheck as <-. }
  assert (exists o', gs_objects s2 !! i = Some (Some (set_adbc o o')) /\ o' = mkObject PNull None) as (o' & Ho' & ->).
  { rewrite Hobjs. unfold call_adbc in Hcall. erewrite bind_ret in Hcall by (by apply gobject_at_run).
    pose proof (database_release_fails (mkMS (Some zero_error) (gs_world s) (gs_drivers s), go_adbc o)) as Hw.
    unfold wlp in Hw. destruct (AdbcDatabaseRelease _) as [[] u|c u| |]; [..|done|done].
    - by injection Hcall as <- _ _.
    - injection Hcall as -> He' <-. exists u.2. simpl. rewrite list_lookup_insert_eq by (by eapply lookup_lt_Some).
      split; [done|]. destruct Hw as [->|[_ Hw]]; [done|]. simpl in Hw. rewrite Hw in He'. by subst e. }
  assert (gobject_at i s2 = Ret (set_adbc o (mkObject PNull None)) s2) as Hat by by apply gobject_at_run.
  unfold g_object_unref. rewrite (bind_ret _ _ _ _ _ Hat). simpl. rewrite Ht.
  unfold database_unref, unref_with. rewrite (bind_ret _ _ _ _ _ Hat). simpl.
  destruct (Nat.ltb_spec 1 (go_ref_count o)); [lia|]. apply bind_undef. unfold gadbc_database_finalize, instance.
  erewrite bind_ret; [|erewrite bind_ret by exact Hat; simpl; by rewrite Ht]. simpl. rewrite Hi.
  unfold call_adbc. erewrite bind_ret; [|erewrite bind_ret by exact Hat; reflexivity].
  reflexivity.
Qed.
End session.

(** * Witnesses *)
Section witnesses.
(** A driver library: one that works, one that cannot release its databases, and one without
    queries. *)
Inductive g_toy := Works | Sticks | Queryless.
Definition g_error : AdbcError := mkError (Some "busy"%string) 7 "00000" true.
Definition g_callback (t : g_toy) (slot : driver_slot) : callback Z unit (glib_args unit) g_toy := fun _ c =>
  let with_private p := Ret tt (mkCall (cs_error c) p (cs_world c)) in
  match slot with
  | S_DatabaseNew | S_ConnectionNew | S_StatementNew => with_private (PDriver tt)
  | S_DatabaseRelease =>
      match t with
      | Sticks => Exit ADBC_STATUS_IO (mkCall (Some g_error) (cs_private c) (cs_world c))
      | _ => with_private PNull
      end
  | S_ConnectionRelease | S_StatementRelease => with_private PNull
  | S_StatementSetSqlQuery => match t with Queryless => Exit ADBC_STATUS_NOT_IMPLEMENTED c | _ => Ret tt c end
  | _ => Ret tt c
  end.
#[local] Instance g_toy_loader : Loader Z unit (glib_args unit) := {|
  ld_init := g_toy;
  ld_run t _ s := Ret tt (mkDriver (fun slot => Some (g_callback t slot)) RelNull None, s.2);
  ld_library := g_toy;
  dlopen name := if decide (name = "works"%string) then Some Works
                 else if decide (name = "sticks"%string) then Some Sticks else Some Queryless;
  dlsym lib _ := Some lib;
  dlerror name := (name +:+ ": not found")%string;
  iteration m := map_to_list (m : gmap string string);
|}.
#[local] Existing Instance host.
Abbreviation toy_state := (GLib.GS (L := g_toy_loader)).

(** A database, a connection and a statement; the client keeps the statement only. *)
Definition g_start : toy_state := with_gerror (Some None) (gstarted 0).
Definition g_named (name : string) : toy_state :=
  left_by (gadbc_database_set_option 0 "driver" name) (left_by gadbc_database_new g_start).
Definition g_database (name : string) : toy_state := left_by (gadbc_database_init 0) (g_named name).
Definition g_connected (name : string) : toy_state :=
  left_by (gadbc_connection_init 1 0) (left_by gadbc_connection_new (g_database name)).
Definition g_statement (name : string) : toy_state := left_by (gadbc_statement_new 1) (g_connected name).
Definition g_kept : toy_state := left_by (g_object_unref 1) (left_by (g_object_unref 0) (g_statement "works")).
Ltac ran := apply value_run; vm_compute; reflexivity.
Abbreviation toy_reachable := (greachable (L := g_toy_loader)).
Lemma toy_start : toy_reachable g_start [].
Proof. exists 0. apply rtc_once, gstep_error. Qed.
Lemma toy_plain m b s owners : toy_reachable s owners -> plain_method m -> value_of (m s) = Some b ->
  toy_reachable (left_by m s) owners.
Proof. intros (w & Hr) Hm Hv%value_run. exists w. eapply rtc_r; [exact Hr|]. by eapply gstep_plain. Qed.
Lemma toy_new m r s owners : toy_reachable s owners -> constructor m -> value_of (m s) = Some r ->
  toy_reachable (left_by m s) (option_list r ++ owners).
Proof. intros (w & Hr) Hm Hv%value_run. exists w. eapply rtc_r; [exact Hr|]. by eapply gstep_new. Qed.
Lemma toy_connect c d s owners : toy_reachable s owners ->
  (forall g, inst (abs s) c = Some g -> ga_driver g = None /\ ga_parent g = None) -> value_of (gadbc_connection_init c d s) = Some true ->
  toy_reachable (left_by (gadbc_connection_init c d) s) owners.
Proof. intros (w & Hr) Hc Hv%value_run. exists w. eapply rtc_r; [exact Hr|]. eapply gstep_connect; [done..|by left]. Qed.
Lemma toy_unref i s owners owners' : toy_reachable s owners -> owners ≡ₚ i :: owners' ->
  value_of (g_object_unref i s) = Some tt -> toy_reachable (left_by (g_object_unref i) s) owners'.
Proof. intros (w & Hr) Hp Hv%value_run. exists w. eapply rtc_r; [exact Hr|]. by eapply gstep_unref. Qed.
Lemma g_session_reachable : toy_reachable g_kept [2%nat].
Proof.
  assert (toy_reachable (g_named "works") [0%nat]) as H1.
  { eapply toy_plain; [|apply plain_database_set_option|vm_compute; reflexivity].
    eapply (toy_new _ (Some 0%nat)); [exact toy_start|apply constructor_database|vm_compute; reflexivity]. }
  assert (toy_reachable (g_database "works") [0%nat]) as H2.
  { eapply toy_plain; [exact H1|apply plain_database_init|vm_compute; reflexivity]. }
  assert (toy_reachable (g_connected "works") [1%nat; 0%nat]) as H3.
  { eapply toy_connect; [eapply (toy_new _ (Some 1%nat)); [exact H2|apply constructor_connection|vm_compute; reflexivity]| |vm_compute; reflexivity].
    intros g. vm_compute. by intros [= <-]. }
  assert (toy_reachable (g_statement "works") [2%nat; 1%nat; 0%nat]) as H4.
  { eapply (toy_new _ (Some 2%nat)); [exact H3|apply constructor_statement|vm_compute; reflexivity]. }
  eapply (toy_unref 1 _ [1; 2]%nat); [|done|vm_compute; reflexivity].
  eapply (toy_unref 0 _ [2; 1; 0]%nat); [exact H4| |vm_compute; reflexivity].
  by rewrite (Permutation_app_comm [2; 1]%nat [0%nat]), (Permutation_swap 2%nat 1%nat).
Qed.
Definition glib_object (s : toy_state) (i : nat) : GObject (L := g_toy_loader) :=
  match gs_objects s !! i with Some (Some o) => o | _ => mkGObject TError 0 false (mkObject PNull None) None end.
Lemma glib_tables_outlive_objects_witness : exists table, gs_drivers g_kept !! 0%nat = Some (Some table).
Proof.
  refine (glib_tables_outlive_objects g_kept [2%nat] 2 (glib_object g_kept 2) 0 g_session_reachable _ _ _);
    vm_compute; reflexivity.
Defined.
Lemma references_exact_witness : exists o, gs_objects g_kept !! 2%nat = Some (Some o).
Proof. refine (proj1 (proj2 (references_exact g_kept [2%nat] g_session_reachable)) 2%nat _). by left. Defined.
Definition g_dropped : toy_state := left_by (g_object_unref 2) g_kept.
Lemma g_dropped_reachable : toy_reachable g_dropped [].
Proof. eapply (toy_unref 2 _ [2]%nat); [exact g_session_reachable|done|vm_compute; reflexivity]. Qed.
Lemma all_dropped_all_freed_witness : mjoin (gs_objects g_dropped !! 0%nat) = None.
Proof. exact (all_dropped_all_freed g_dropped g_dropped_reachable 0). Defined.
Definition g_table (s : toy_state) : AdbcDriver Z unit (glib_args unit) g_toy :=
  match gs_drivers s !! 0%nat with Some (Some table) => table | _ => mkDriver (fun _ => None) RelNull None end.
Lemma execute_without_stream_crashes_witness :
  gadbc_statement_execute 2 false true (g_statement "works") = Undef.
Proof.
  refine (execute_without_stream_crashes 2 true (glib_object (g_statement "works") 2) 0 (g_table (g_statement "works"))
    (g_callback Works S_StatementExecuteQuery) (mkCall (Some zero_error) (PDriver tt) 0) (g_statement "works")
    _ _ _ _ _ _ _); vm_compute; reflexivity.
Defined.
Lemma failed_release_then_unref_witness :
  g_object_unref 0 (left_by (gadbc_database_release 0) (g_database "sticks")) = Undef.
Proof.
  refine (failed_release_then_unref 0 (glib_object (g_database "sticks") 0) (g_database "sticks") _ _ _ _ _ _);
    [vm_compute; reflexivity..| |ran]. vm_compute. constructor.
Defined.
End witnesses.
